(* ===== verification/_CoqProject ===== *)
-Q . S2P
Prelude.v
Near.v
Common.v
CommonFacts.v
MerkleTree.v
MerkleFacts.v
MerkleRebuild.v
VenearContract.v
VenearLedger.v
VenearInvariant.v
VenearOps.v
VenearMigrate.v
VenearTheorems.v
VotingTypes.v
VotingContract.v
VotingFacts.v
VotingInvariant.v
VotingQueue.v
VotingOps.v
VotingCalls.v
VotingTally.v
VotingOutcome.v
VotingTheorems.v
LockupContract.v
LockupFacts.v
LockupWorld.v
LockupTheorems.v
SandboxPool.v
SystemLockup.v
SystemSnapshot.v
System.v
CliText.v
StakingTypes.v
Events.v
VenearReplay.v
StakingMath.v
StakingContract.v
StakingCatalog.v
StakingEpoch.v
StakingSubscriptions.v
StakingLocks.v
StakingFarm.v
Upgrade.v
StakingWorld.v
MockPool.v
StakingBooks.v
StakingStake.v
StakingInvariant.v
StakingTails.v
StakingShelf.v
StakingCat.v
StakingFarms.v
StakingReach.v
StakingPricing.v
StakingExits.v
StakingCalendar.v
StakingPipeline.v
StakingMoney.v
StakingTimeline.v
StakingSolvency.v
StakingViews.v
StakingIndex.v
TestClock.v
StakingTheorems.v
Cli.v
CliFacts.v
CliTheorems.v
Instances.v
UnitTest.v
VotingTests.v
LockupTests.v
StakingTests.v
ExamplesCommon.v
ExamplesVenear.v
ExamplesVoting.v
ExamplesLockup.v
ExamplesReports.v
ExamplesSystem.v
ExamplesStaking.v
ExamplesCli.v
