(* ===== verification/Prelude.v ===== *)
(** * The House of Stake contracts: a verification development

    The repository holds the smart contracts of the House of Stake on NEAR.
    Users lock NEAR in personal lockup contracts; the veNEAR contract turns the
    locked NEAR into veNEAR that grows with time and can be delegated; the
    voting contract lets veNEAR holders decide on proposals with voting power
    taken from a Merkle snapshot of veNEAR; the staking contract sells products
    for NEAR that is locked, subscribed or farmed on validator pools, and a
    command line tool deploys and configures it. This library translates them
    into Rocq function by function and proves what makes them correct. This
    file is its prelude.

    ** How the code is modelled

    A contract method is a computation of the monad [M] of [Near]: it reads the
    host ([Env]: caller, deposit, block time and height, epoch, promise
    results), reads and writes the state record of its contract, may panic
    ([result]; a panic carries its message and drops the new state, as the
    runtime does), and leaves effects behind (logs, transfers, receipts).
    Integers are [Z] with the width checks, saturations and wrap-arounds of the
    code written out ([checked_op], [saturating_add], ...); maps are [gmap];
    every [require!], [expect], unsigned subtraction and early return of a
    method is in its definition, in its place. Promises are data; the worlds
    below execute them one receipt at a time, interleaved freely.

    ** Parts, files and sources

    - Prelude, Near: results, integers, sums over maps and lists, record
      update; the host and the contract monad with its inversion tactic
      [m_inv] and the frame judgement [keeps].
    - Common, CommonFacts (common/src): fractions, veNEAR balances and their
      growth, basis points, delegation pools, accounts, the global state.
    - MerkleTree, MerkleFacts, MerkleRebuild (merkle-tree/src/lib.rs): the
      persistent tree, its snapshots and proofs; the reference definition
      [node] of its hashes; [remerkalize].
    - VenearContract and VenearLedger, VenearInvariant, VenearOps,
      VenearMigrate, VenearTheorems (venear-contract/src): registration,
      delegation, lockup deployment and updates, settings, storage, migration;
      the abstract delegation ledger and the proof that the contract refines
      it.
    - VotingTypes, VotingContract and VotingFacts, VotingInvariant,
      VotingQueue, VotingOps, VotingCalls, VotingTally, VotingOutcome,
      VotingTheorems (voting-contract/src, common/src/voting.rs): the status
      machine of a proposal, the scheduler queue, votes, reviewers and council,
      execution, bonds, settings; VotingOutcome has the receipts of executions,
      in which the actions of a proposal run one after the other, interleaved
      with everything else, also on the voting contract itself.
    - LockupContract and LockupFacts, LockupWorld, LockupTheorems
      (lockup-contract/src): the owner's staking pool calls with their
      callbacks, transfers, locking; worlds with the NEAR that is really on the
      account, at the pool and on its way.
    - SystemLockup: veNEAR and the lockups it has deployed, with the reports,
      orders and callbacks in flight between them; SystemSnapshot, System:
      veNEAR and voting side by side, the snapshot being an answer of the
      veNEAR contract.
    - Events (common/src/events.rs, staking-contract/src/events.rs): the JSON
      value and the log line of every event; VenearReplay: the ledger an
      indexer builds from the lines of veNEAR alone.
    - StakingTypes, StakingMath, StakingContract, StakingCatalog, StakingEpoch,
      StakingSubscriptions, StakingLocks, StakingFarm, StakingViews
      (staking-contract/src): data, arithmetic and calendar, accounts and
      validators, products, prices and payments, the epoch pipeline of a pool,
      subscriptions, locks, exits and withdrawals, farms, views.
    - StakingWorld: the public calls and callbacks as data, and worlds of the
      staking contract; StakingBooks, StakingStake, StakingInvariant,
      StakingTails, StakingShelf, StakingCat, StakingFarms, StakingReach: the
      invariant of books and catalog and that every step keeps it;
      StakingPricing, StakingExits, StakingCalendar, StakingPipeline,
      StakingMoney, StakingTimeline, StakingSolvency, StakingIndex: share
      price, exits, calendar, pipeline, solvency and listings;
      StakingTheorems: the properties.
    - TestClock (utils.rs and subscriptions.rs with the feature [test]): the
      clocks of a test build.
    - Upgrade (upgrade.rs of veNEAR, voting and staking): the batch of an
      upgrade and its execution on the contract's account.
    - MockPool (mock-staking-pool-contract/src), SandboxPool
      (sandbox-staking-whitelist-contract/src): the pools the integration tests
      run against, and that they answer as the worlds of the staking and of
      the lockup contract assume.
    - CliText, Cli and CliFacts, CliTheorems (staking-contract/cli/src): text
      and JSON; the commands as trees of calls to the operating system, with a
      branch for every reply, and judgements on all their calls.
    - Instances and the Examples files: concrete hosts that satisfy every law
      the theorems ask for, runs of the contracts, and the theorems applied to
      the states of these runs.
    - UnitTest, VotingTests, LockupTests, StakingTests, and modules at the end
      of ExamplesVenear and ExamplesCli: the repository's own unit tests,
      translated test by test and run on the model. All of them pass: 177 of
      the voting contract and 72 of the other crates.

    ** What the theorems show

    - Tree: stored hashes are the reference ones, proofs of stored values are
      accepted, an accepted proof is of the stored value or exhibits a hash
      collision, and the snapshot of a block does not change within a block.
    - veNEAR: in every reachable state each delegate's pool is the sum of the
      shares delegated to it and the total supply is the sum of all balances;
      growth is exact under delegation; [set_delegations] does what it says;
      the migration keeps every account and establishes the invariant from any
      account table; from a lockup's first report on, the recorded locked NEAR
      is what it last reported; the log
      lines determine every balance, and no two events have the same line.
    - Voting: the counters are exactly the recorded votes, the queue is first
      in first out, views agree with the next state, and the votes of a
      proposal never exceed the veNEAR supply of its snapshot. Statuses only
      move forward, a proposal is executed at most once and only if it passed,
      and bonds are paid once, in every run in which no executed proposal has
      an action that calls [on_execute_proposal] of the voting contract itself.
      The code does not exclude such an action:
      [ExamplesVoting.VotingRun.marking_revives_rejected] is a run in which one
      turns a rejected proposal into a succeeded one and strands its bond.
    - Lockup: locked NEAR is backed by NEAR on the account or at the pool while
      no withdrawal settles, unlocking takes the configured time, pool calls
      exclude each other. Two theorems show where the code falls short of this:
      a lock during a settling withdrawal, and a failed balance query.
    - Staking: books and catalog are exact in every reachable world, promised
      exits are covered, the contract holds the NEAR it owes and a claim the
      books allow is paid while epochs do not go back, a validator has
      one pipeline at a time and no pipeline gets stuck or runs for ever, the
      exit of a lock that has shares goes through and pays what is due, no entry or exit lowers the share price,
      views agree with what the calls do, the calendar is right and billing
      windows do not drift; the paged listings show every record once.
    - Upgrades: one of veNEAR is started by the owner, is all or nothing, keeps
      every account and makes the ledger exact. (Those of voting and staking
      read the state as it is; there is nothing to prove of them.)
    - CLI: no transaction without [--send] and the mainnet flag, none for
      another network, none of [deploy] and [configure] before the user typed
      the command; a printed plan reads back as the command; the search for a
      product ends and finds it in the contract's listing; metadata is in line
      with the file after one edit.

    ** Bounds, fuel and hypotheses

    Recursion is structural everywhere except for the loops that take fuel:
    [window_loop] (proved to end with [window_fuel]), [collect_from] and
    [collect_from_res] (one unit per index), [generate_unique] (the 64 attempts
    of the code), [trim_with] (one unit per byte) and the CLI's
    [find_product_from], which asks for pages as long as they are full: its
    fuel is an argument of the commands, running out is an outcome of its own
    ([Spent]), and one page more than the full ones is proved to be enough. The worlds
    of the staking contract are those in which amounts are NEAR that exists
    ([fits]: below [2^120] yocto, share totals below the width of [u128], lock
    counts below [u32::MAX], no lock id given twice). SHA-256, Borsh,
    [IterableSet] and the order of removal of [near_sdk] sets enter as
    operational classes with law classes for what the proofs need ([Crypto],
    [Borsh], [IterableSet], [IdSet]); [Instances] and [ExamplesStaking] give
    concrete ones. The staking pools and the whitelist are other contracts: in
    the worlds a pool may answer anything of the right type or fail at any call.
    Solvency is stated for timelines, the runs in which the epoch of a receipt
    is not before that of an earlier one. The worlds of veNEAR and its lockups
    are those with fewer than a million reports between two lockups of one
    account ([fresh]): the nonces of a new lockup start at a million times the
    block height of its order. In the states [vreachable], [vhistory] and [sys]
    of the voting contract every execution callback is that of an execution
    ([callback_ok]); in the runs [voting_run] an executed proposal may also call
    it as an action, and [run_reachable] relates the two; an upgrade ends a run.
    In [sys] the snapshots
    are answers of one veNEAR contract, whatever [set_venear_account_id] names.
    The ids of locks and subscriptions are not checked for reuse by the code, so their
    listings are not among the complete ones. The text [serde_json] gives a
    value is the class [JsonText]. For the CLI the JSON text, the parser
    of the bootstrap file, [Debug] text, base64 and SHA-256 are the class
    [Crates] without laws.

    ** Not modelled

    Gas exhaustion in the middle of a receipt, the refusal of a deposit by a
    method that is not [payable] (the model lets more calls through), NEAR's charge for storage (the
    [storage_usage] of a state is a parameter), the storage keys of the
    collections (hashes that keep them apart), the one-variant version wrappers
    of stored records, the parsing of command line arguments ([clap]) and of
    the bootstrap file ([serde]), the operating system's text for a failed
    call, command line arguments that are not UTF-8 (which [to_string_lossy]
    replaces), and the integration tests: programs that drive a sandbox node, or the
    host build of the staking contract with its synchronous mint path. *)
From stdpp Require Import base gmap strings list fin_maps.
From Stdlib Require Import ZArith Lia.

Local Open Scope Z_scope.

(** ** Results: values or a contract panic

    A NEAR call that panics reverts every state change it made, so a panic is
    a value that carries the message and no state. *)
Inductive result (A : Type) : Type :=
| Ok (a : A)
| Panic (msg : string).
Arguments Ok {A} a.
Arguments Panic {A} msg.

#[export] Instance result_ret : MRet result := fun A a => Ok a.

#[export] Instance result_bind : MBind result := fun A B f r =>
  match r with
  | Ok a => f a
  | Panic msg => Panic msg
  end.

#[export] Instance result_fmap : FMap result := fun A B f r =>
  match r with
  | Ok a => Ok (f a)
  | Panic msg => Panic msg
  end.

(** [require!(cond, msg)], [assert!(cond, msg)]. *)
Definition require (b : bool) (msg : string) : result unit :=
  if b then Ok tt else Panic msg.

(** [Option::expect(msg)] and [Option::unwrap()]. *)
Definition expect {A} (o : option A) (msg : string) : result A :=
  match o with Some a => Ok a | None => Panic msg end.

Definition is_ok {A} (r : result A) : bool :=
  match r with Ok _ => true | Panic _ => false end.

(** ** Machine integers

    A [u64] or [u128] is an integer kept in its range by the operations. The
    release profile of the workspace sets [overflow-checks = true], so [+],
    [-] and [*] panic instead of wrapping. *)
Definition U8_MAX : Z := 2 ^ 8 - 1.
Definition U16_MAX : Z := 2 ^ 16 - 1.
Definition U32_MAX : Z := 2 ^ 32 - 1.
Definition U64_MAX : Z := 2 ^ 64 - 1.
Definition U128_MAX : Z := 2 ^ 128 - 1.

Definition in_range (max z : Z) : bool := (0 <=? z) && (z <=? max).

Definition checked_op (max z : Z) (msg : string) : result Z :=
  if in_range max z then Ok z else Panic msg.

Definition u32_add (a b : Z) : result Z := checked_op U32_MAX (a + b) "attempt to add with overflow".
Definition u32_sub (a b : Z) : result Z := checked_op U32_MAX (a - b) "attempt to subtract with overflow".
Definition u64_add (a b : Z) : result Z := checked_op U64_MAX (a + b) "attempt to add with overflow".
Definition u64_sub (a b : Z) : result Z := checked_op U64_MAX (a - b) "attempt to subtract with overflow".
Definition u64_mul (a b : Z) : result Z := checked_op U64_MAX (a * b) "attempt to multiply with overflow".
Definition u128_add (a b : Z) : result Z := checked_op U128_MAX (a + b) "attempt to add with overflow".
Definition u128_sub (a b : Z) : result Z := checked_op U128_MAX (a - b) "attempt to subtract with overflow".
Definition u128_mul (a b : Z) : result Z := checked_op U128_MAX (a * b) "attempt to multiply with overflow".

(** [saturating_sub] and [saturating_add]. *)
Definition saturating_sub (a b : Z) : Z := Z.max 0 (a - b).
Definition saturating_add (max a b : Z) : Z := Z.min max (a + b).

(** ** Inversion of results *)
Lemma bind_Ok_inv {A B} (f : A -> result B) (r : result A) b :
  mbind f r = Ok b -> exists a, r = Ok a /\ f a = Ok b.
Proof. destruct r as [a|msg]; cbn; [eauto | discriminate]. Qed.

Lemma ret_Ok_inv {A} (a b : A) : (mret a : result A) = Ok b -> a = b.
Proof. by intros [= ->]. Qed.

Lemma require_Ok_inv b msg u : require b msg = Ok u -> b = true.
Proof. unfold require. by destruct b. Qed.

Lemma expect_Ok_inv {A} (o : option A) msg a : expect o msg = Ok a -> o = Some a.
Proof. destruct o; cbn; congruence. Qed.

Lemma checked_op_Ok_inv max z msg r :
  checked_op max z msg = Ok r -> r = z /\ 0 <= z <= max.
Proof.
  unfold checked_op, in_range. destruct (_ && _) eqn:E; [|discriminate].
  intros [= <-]. apply andb_prop in E as [E1 E2]. lia.
Qed.

Lemma checked_op_Ok max z msg : 0 <= z <= max -> checked_op max z msg = Ok z.
Proof.
  intros H. unfold checked_op, in_range.
  rewrite (proj2 (Z.leb_le _ _)), (proj2 (Z.leb_le _ _)) by lia. done.
Qed.

(** [res_inv] turns every hypothesis [c = Ok v] of a monadic computation into
    the equations of its steps. *)
Ltac res_step :=
  match goal with
  | H : mbind _ _ = Ok _ |- _ =>
      let a := fresh "v" in let E := fresh "E" in
      apply bind_Ok_inv in H; destruct H as (a & E & H)
  | H : mret _ = Ok _ |- _ => apply ret_Ok_inv in H; subst
  | H : require _ _ = Ok _ |- _ => apply require_Ok_inv in H
  | H : expect _ _ = Ok _ |- _ => apply expect_Ok_inv in H
  | H : checked_op _ _ _ = Ok _ |- _ =>
      let R := fresh "R" in apply checked_op_Ok_inv in H; destruct H as [-> R]
  | H : Ok _ = Ok _ |- _ => injection H; clear H; intros; subst
  | H : (_, _) = (_, _) |- _ => injection H; clear H; intros; subst
  | H : Panic _ = Ok _ |- _ => discriminate H
  | H : Ok _ = Panic _ |- _ => discriminate H
  | H : (match ?x with (_, _) => _ end) = Ok _ |- _ =>
      let a := fresh "x" in let b := fresh "y" in destruct x as [a b]
  | x : unit |- _ => destruct x
  end.
Ltac res_inv := repeat res_step.

(** Boolean tests of the code as propositions, for [lia]. *)
Ltac bool_prop :=
  repeat match goal with
  | H : _ && _ = true |- _ => apply andb_prop in H; destruct H
  | H : _ || _ = false |- _ => apply orb_false_elim in H; destruct H
  | H : negb _ = true |- _ => apply negb_true_iff in H
  | H : negb _ = false |- _ => apply negb_false_iff in H
  | H : (_ <=? _) = true |- _ => apply Z.leb_le in H
  | H : (_ <=? _) = false |- _ => apply Z.leb_gt in H
  | H : (_ <? _) = true |- _ => apply Z.ltb_lt in H
  | H : (_ <? _) = false |- _ => apply Z.ltb_ge in H
  | H : (_ =? _) = true |- _ => apply Z.eqb_eq in H
  | H : (_ =? _) = false |- _ => apply Z.eqb_neq in H
  | H : bool_decide _ = true |- _ => apply bool_decide_eq_true in H
  | H : bool_decide _ = false |- _ => apply bool_decide_eq_false in H
  end.

(** ** Sums over finite maps *)
Section map_sum.
Context {K V : Type} `{Countable K}.

Definition map_sum (f : K -> V -> Z) (m : gmap K V) : Z :=
map_fold (fun k v acc => f k v + acc) 0 m.

Implicit Types (f g : K -> V -> Z) (m : gmap K V).

Lemma map_sum_empty f : map_sum f ∅ = 0.
Proof. apply map_fold_empty. Qed.

Lemma map_sum_insert_new f m k v :
m !! k = None -> map_sum f (<[k := v]> m) = f k v + map_sum f m.
Proof.
intros Hk. unfold map_sum. rewrite map_fold_insert_L; [done | | done].
intros. lia.
Qed.

Lemma map_sum_delete f m k v :
m !! k = Some v -> map_sum f m = f k v + map_sum f (delete k m).
Proof.
intros Hk. rewrite <- (insert_id m k v Hk) at 1.
rewrite <- insert_delete_eq. apply map_sum_insert_new. apply lookup_delete_eq.
Qed.

Lemma map_sum_insert_old f m k v v' :
m !! k = Some v -> map_sum f (<[k := v']> m) = map_sum f m - f k v + f k v'.
Proof.
intros Hk. rewrite <- insert_delete_eq.
rewrite map_sum_insert_new by apply lookup_delete_eq.
rewrite (map_sum_delete f m k v Hk). lia.
Qed.

Lemma map_sum_ext f g m :
(forall k v, m !! k = Some v -> f k v = g k v) -> map_sum f m = map_sum g m.
Proof.
induction m as [|k v m Hk IH] using map_ind; intros Hfg.
- by rewrite !map_sum_empty.
- rewrite !map_sum_insert_new by done. rewrite IH.
+ rewrite (Hfg k v); [done | apply lookup_insert_eq].
+ intros k' v' Hk'. apply Hfg. rewrite lookup_insert_ne; [done | congruence].
Qed.

Lemma map_sum_add f g m :
map_sum (fun k v => f k v + g k v) m = map_sum f m + map_sum g m.
Proof.
induction m as [|k v m Hk IH] using map_ind.
- by rewrite !map_sum_empty.
- rewrite !map_sum_insert_new by done. lia.
Qed.

Lemma map_sum_mul f m c : map_sum (fun k v => f k v * c) m = map_sum f m * c.
Proof.
induction m as [|k v m Hk IH] using map_ind.
- by rewrite !map_sum_empty.
- rewrite !map_sum_insert_new by done. lia.
Qed.

Lemma map_sum_sub f g m :
map_sum (fun k v => f k v - g k v) m = map_sum f m - map_sum g m.
Proof.
induction m as [|k v m Hk IH] using map_ind.
- by rewrite !map_sum_empty.
- rewrite !map_sum_insert_new by done. lia.
Qed.

Lemma map_sum_le f g m :
(forall k v, m !! k = Some v -> f k v <= g k v) -> map_sum f m <= map_sum g m.
Proof.
induction m as [|k v m Hk IH] using map_ind; intros Hfg.
- by rewrite !map_sum_empty.
- rewrite !map_sum_insert_new by done.
pose proof (Hfg k v (lookup_insert_eq _ _ _)).
enough (map_sum f m <= map_sum g m) by lia. apply IH.
intros k' v' Hk'. apply Hfg. rewrite lookup_insert_ne; [done | congruence].
Qed.

Lemma map_sum_0 f m : (forall k v, m !! k = Some v -> f k v = 0) -> map_sum f m = 0.
Proof.
intros Hf. rewrite (map_sum_ext f (fun _ _ => 0)) by done. clear.
induction m as [|k v m Hk IH] using map_ind; [by rewrite map_sum_empty|].
rewrite map_sum_insert_new by done. lia.
Qed.

Lemma map_sum_nonneg f m :
(forall k v, m !! k = Some v -> 0 <= f k v) -> 0 <= map_sum f m.
Proof.
intros Hf. rewrite <- (map_sum_0 (fun _ _ => 0) m) by done. by apply map_sum_le.
Qed.

Lemma map_sum_term_le f m k v :
(forall k v, m !! k = Some v -> 0 <= f k v) ->
m !! k = Some v -> f k v <= map_sum f m.
Proof.
intros Hf Hk. rewrite (map_sum_delete f m k v Hk).
enough (0 <= map_sum f (delete k m)) by lia.
apply map_sum_nonneg. intros k' v' [_ Hk']%lookup_delete_Some. eauto.
Qed.
End map_sum.

Lemma map_sum_fmap {K V W} `{Countable K} (h : W -> V) (f : K -> V -> Z) (m : gmap K W) :
  map_sum f (h <$> m) = map_sum (fun k v => f k (h v)) m.
Proof.
  induction m as [|k v m Hk IH] using map_ind; [by rewrite fmap_empty|].
  rewrite fmap_insert, !map_sum_insert_new; [by rewrite IH | done | by rewrite lookup_fmap, Hk].
Qed.

Lemma map_sum_swap {K1 V1 K2 V2} `{Countable K1} `{Countable K2}
    (f : K1 -> V1 -> K2 -> V2 -> Z) (m1 : gmap K1 V1) (m2 : gmap K2 V2) :
  map_sum (fun k1 v1 => map_sum (f k1 v1) m2) m1 =
  map_sum (fun k2 v2 => map_sum (fun k1 v1 => f k1 v1 k2 v2) m1) m2.
Proof.
  induction m1 as [|k v m Hk IH] using map_ind.
  - rewrite map_sum_empty. symmetry.
    apply map_sum_0. intros. apply map_sum_empty.
  - rewrite map_sum_insert_new by done. rewrite IH, <- map_sum_add.
    apply map_sum_ext. intros k2 v2 _. by rewrite map_sum_insert_new.
Qed.

(** A sum of a function of the keys depends on the domain only. *)
Lemma map_sum_dom_ext {K V W} `{Countable K} (b : K -> Z) (m1 : gmap K V) (m2 : gmap K W) :
  (forall k, is_Some (m1 !! k) <-> is_Some (m2 !! k)) ->
  map_sum (fun k _ => b k) m1 = map_sum (fun k _ => b k) m2.
Proof.
  revert m2. induction m1 as [|k v m Hk IH] using map_ind; intros m2 Hdom.
  - rewrite map_sum_empty. symmetry. destruct (decide (m2 = ∅)) as [->|Hne]; [apply map_sum_empty|].
    apply map_choose in Hne as (k & x & Hx). destruct (proj2 (Hdom k)) as [? Hy]; [eauto|]. by rewrite lookup_empty in Hy.
  - destruct (proj1 (Hdom k)) as [w Hw]; [rewrite lookup_insert_eq; eauto|].
    rewrite map_sum_insert_new by done. rewrite (map_sum_delete _ _ _ _ Hw). f_equal. apply IH.
    intros k'. destruct (decide (k = k')) as [<-|Hne].
    + rewrite Hk, lookup_delete_eq. done.
    + rewrite lookup_delete_ne by done. rewrite <- Hdom. by rewrite lookup_insert_ne.
Qed.

(** ** Sums over lists *)
Definition list_sum_Z {A} (f : A -> Z) (l : list A) : Z :=
  foldr (fun x acc => f x + acc) 0 l.

Section list_sum.
Context {A : Type}.
Implicit Types (f g : A -> Z) (l : list A).

Lemma list_sum_Z_app f l1 l2 :
list_sum_Z f (l1 ++ l2) = list_sum_Z f l1 + list_sum_Z f l2.
Proof. induction l1 as [|x l1 IH]; cbn; [done | unfold list_sum_Z in *; lia]. Qed.

Lemma list_sum_Z_add f g l :
list_sum_Z (fun x => f x + g x) l = list_sum_Z f l + list_sum_Z g l.
Proof. induction l as [|x l IH]; cbn; [done | unfold list_sum_Z in *; lia]. Qed.

Lemma list_sum_Z_mul f l c : list_sum_Z (fun x => f x * c) l = list_sum_Z f l * c.
Proof. induction l as [|x l IH]; cbn; [done | unfold list_sum_Z in *; lia]. Qed.

Lemma list_sum_Z_ext f g l :
(forall x, x ∈ l -> f x = g x) -> list_sum_Z f l = list_sum_Z g l.
Proof.
induction l as [|x l IH]; intros Hfg; cbn; [done|].
rewrite (Hfg x) by set_solver. f_equal. apply IH. set_solver.
Qed.

Lemma list_sum_Z_nonneg f l : (forall x, x ∈ l -> 0 <= f x) -> 0 <= list_sum_Z f l.
Proof.
induction l as [|x l IH]; intros Hf; cbn; [done|].
pose proof (Hf x ltac:(set_solver)).
enough (0 <= list_sum_Z f l) by (unfold list_sum_Z in *; lia). apply IH. set_solver.
Qed.

Lemma list_sum_Z_0 l : list_sum_Z (fun _ : A => 0) l = 0.
Proof. induction l as [|x l IH]; cbn; [done | exact IH]. Qed.

Lemma list_sum_Z_cons f x l : list_sum_Z f (x :: l) = f x + list_sum_Z f l.
Proof. done. Qed.
End list_sum.

(** ** Integer division *)
Lemma div_add_exact a m b : 0 < b -> (a + b * m) / b = a / b + m.
Proof. intros Hb. rewrite (Z.mul_comm b m). apply Z.div_add. lia. Qed.

Lemma div_mul_exact a b : 0 < b -> a mod b = 0 -> a / b * b = a.
Proof. intros Hb Hm. pose proof (Z.div_mod a b). lia. Qed.

(** ** Reachability *)
Inductive star {S : Type} (step : S -> S -> Prop) : S -> S -> Prop :=
| star_refl s : star step s s
| star_step s1 s2 s3 : star step s1 s2 -> step s2 s3 -> star step s1 s3.

Lemma star_invariant {S : Type} (step : S -> S -> Prop) (P : S -> Prop) :
  (forall s s', P s -> step s s' -> P s') ->
  forall s s', star step s s' -> P s -> P s'.
Proof. intros Hstep s s' Hs HP. induction Hs; eauto. Qed.

Lemma star_trans {S : Type} (step : S -> S -> Prop) s1 s2 s3 :
  star step s1 s2 -> star step s2 s3 -> star step s1 s3.
Proof. intros H1 H2. induction H2; [done|]. by eapply star_step; [apply IHstar|]. Qed.

(** ** Record updates

    [r <| f := v |>] is [r] with field [f] set to [v]. A record declares its
    eta expansion once; the setter of each field is read off it. *)
Class Eta (R : Type) : Type := eta_of : R -> R.
Class Setter {R T : Type} (proj : R -> T) : Type := set_field : T -> R -> R.
#[global] Hint Mode Setter - - ! : typeclass_instances.

Ltac derive_setter :=
  lazymatch goal with
  | |- @Setter ?R ?T ?proj =>
      let i := constr:(_ : Eta R) in
      intros v r;
      let t := eval hnf in (i r) in
      let p := eval pattern (proj r) in t in
      lazymatch p with ?g _ => let t' := eval cbv beta in (g v) in exact t' end
  end.

Declare Scope record_scope.
Notation "r <| proj := v |>" := (set_field (proj := proj) v r)
  (at level 12, left associativity, proj at level 0, v at level 200, format "r  <| proj  :=  v |>") : record_scope.

Create HintDb hos discriminated.
#[export] Hint Resolve map_sum_nonneg list_sum_Z_nonneg : hos.
