(* ===== verification/Near.v ===== *)
(** * The NEAR runtime as the contracts see it

    What a contract call reads from the host ([near_sdk::env]) is a record;
    a contract method is a computation over the contract's state that may
    panic and that leaves receipts and log lines behind. A panic discards the
    new state and the effects with it, as the runtime does. *)
From stdpp Require Import base gmap strings list.
From Stdlib Require Import ZArith Lia.
From S2P Require Import Prelude.

Local Open Scope Z_scope.

(** Account ids are strings; [NearToken] is a [u128] amount of yoctoNEAR;
    [U64] timestamps and durations are in nanoseconds. *)
Abbreviation AccountId := string (only parsing).
Abbreviation NearToken := Z (only parsing).
Abbreviation TimestampNs := Z (only parsing).
Abbreviation Version := Z (only parsing).

(** The outcome of a promise a callback waits for. *)
Inductive PromiseResult : Type :=
| Successful
| Failed.

#[export] Instance PromiseResult_eq_dec : EqDecision PromiseResult.
Proof. solve_decision. Defined.

(** The host values a method reads. *)
Record Env : Type := mkEnv {
  predecessor_account_id : AccountId;
  current_account_id : AccountId;
  signer_account_id : AccountId;
  attached_deposit : NearToken;
  block_timestamp : TimestampNs;
  block_height : Z;
  account_balance : NearToken;
  storage_byte_cost : NearToken;
  remaining_gas : Z;
  promise_results : list PromiseResult;
  epoch_height : Z;
  prepaid_gas : Z
}.

(** Block times and heights are [u64]; deposits and balances are [u128]. *)
Definition env_ok (e : Env) : Prop :=
  0 <= block_timestamp e <= U64_MAX /\ 0 <= block_height e <= U64_MAX /\
  0 <= attached_deposit e <= U128_MAX /\ 0 <= account_balance e <= U128_MAX.

(** ** Contract computations *)
Definition M (Eff S A : Type) : Type := Env -> S -> result (A * S * list Eff).

Section monad.
Context {Eff S : Type}.

#[global] Instance M_ret : MRet (M Eff S) := fun A a _ s => Ok (a, s, []).

#[global] Instance M_bind : MBind (M Eff S) := fun A B f m e s =>
match m e s with
| Panic msg => Panic msg
| Ok (a, s1, es1) =>
match f a e s1 with
| Panic msg => Panic msg
| Ok (b, s2, es2) => Ok (b, s2, es1 ++ es2)
end
end.

Definition get_state : M Eff S S := fun _ s => Ok (s, s, []).
Definition put_state (s : S) : M Eff S unit := fun _ _ => Ok (tt, s, []).
Definition modify (f : S -> S) : M Eff S unit := fun _ s => Ok (tt, f s, []).
Definition asks {A} (f : Env -> A) : M Eff S A := fun e s => Ok (f e, s, []).
Definition emit (ef : Eff) : M Eff S unit := fun _ s => Ok (tt, s, [ef]).
Definition lift {A} (r : result A) : M Eff S A := fun _ s =>
match r with Ok a => Ok (a, s, []) | Panic msg => Panic msg end.
Definition requireM (b : bool) (msg : string) : M Eff S unit := lift (require b msg).
Definition panicM {A} (msg : string) : M Eff S A := fun _ _ => Panic msg.

(** A loop [for x in l { body }]. *)
Fixpoint for_each {A} (l : list A) (body : A -> M Eff S unit) : M Eff S unit :=
match l with
| [] => mret tt
| x :: l' => body x ;; for_each l' body
end.
End monad.

(** [assert_one_yocto()]. *)
Definition assert_one_yocto {Eff S} : M Eff S unit :=
  d ← asks attached_deposit;
  requireM (d =? 1) "Requires attached deposit of exactly 1 yoctoNEAR".

(** [#[private]] methods only accept calls of the contract to itself. *)
Definition assert_private {Eff S} : M Eff S unit :=
  p ← asks predecessor_account_id;
  c ← asks current_account_id;
  requireM (String.eqb p c) "Method is private".

(** [near_sdk::is_promise_success()]: one awaited promise, and it succeeded. *)
Definition is_promise_success (e : Env) : bool :=
  match promise_results e with
  | [Successful] => true
  | _ => false
  end.

(** ** Inversion of contract computations *)
Section monad_inv.
Context {Eff S : Type}.

Lemma bindM_Ok_inv {A B} (f : A -> M Eff S B) (m : M Eff S A) e s b s2 es :
mbind f m e s = Ok (b, s2, es) ->
exists a s1 es1 es2,
m e s = Ok (a, s1, es1) /\ f a e s1 = Ok (b, s2, es2) /\ es = es1 ++ es2.
Proof.
unfold mbind, M_bind. destruct (m e s) as [[[a s1] es1]|]; [|discriminate].
destruct (f a e s1) as [[[b' s2'] es2]|] eqn:E; [|discriminate].
intros [= <- <- <-]. eauto 8.
Qed.

Lemma bindM_Ok {A B} (f : A -> M Eff S B) (m : M Eff S A) e s a s1 es1 b s2 es2 :
m e s = Ok (a, s1, es1) -> f a e s1 = Ok (b, s2, es2) ->
mbind f m e s = Ok (b, s2, es1 ++ es2).
Proof. intros E1 E2. unfold mbind, M_bind. by rewrite E1, E2. Qed.

Lemma retM_Ok_inv {A} (a b : A) e (s s' : S) (es : list Eff) :
(mret a : M Eff S A) e s = Ok (b, s', es) -> b = a /\ s' = s /\ es = [].
Proof. by intros [= <- <- <-]. Qed.

Lemma getM_Ok_inv e (s s' r : S) (es : list Eff) :
get_state e s = Ok (r, s', es) -> r = s /\ s' = s /\ es = [].
Proof. by intros [= <- <- <-]. Qed.

Lemma asksM_Ok_inv {A} (f : Env -> A) e (s s' : S) r (es : list Eff) :
asks f e s = Ok (r, s', es) -> r = f e /\ s' = s /\ es = [].
Proof. by intros [= <- <- <-]. Qed.

Lemma modifyM_Ok_inv f e (s s' : S) r (es : list Eff) :
modify f e s = Ok (r, s', es) -> s' = f s /\ es = [].
Proof. by intros [= _ <- <-]. Qed.

Lemma putM_Ok_inv (x : S) e (s s' : S) r (es : list Eff) :
put_state x e s = Ok (r, s', es) -> s' = x /\ es = [].
Proof. by intros [= _ <- <-]. Qed.

Lemma emitM_Ok_inv ef e (s s' : S) r (es : list Eff) :
emit ef e s = Ok (r, s', es) -> s' = s /\ es = [ef].
Proof. by intros [= _ <- <-]. Qed.

Lemma liftM_Ok_inv {A} (r : result A) e (s s' : S) a (es : list Eff) :
lift r e s = Ok (a, s', es) -> r = Ok a /\ s' = s /\ es = [].
Proof. unfold lift. destruct r; [by intros [= <- <- <-] | discriminate]. Qed.

Lemma requireM_Ok_inv b msg e (s s' : S) u (es : list Eff) :
requireM b msg e s = Ok (u, s', es) -> b = true /\ s' = s /\ es = [].
Proof.
unfold requireM. intros (E & -> & ->)%liftM_Ok_inv. by apply require_Ok_inv in E.
Qed.

Lemma assert_one_yocto_inv e (s s' : S) u (es : list Eff) :
assert_one_yocto e s = Ok (u, s', es) -> attached_deposit e = 1 /\ s' = s /\ es = [].
Proof.
unfold assert_one_yocto, asks, mbind, M_bind, requireM, lift, require.
destruct (_ =? _) eqn:E; [|discriminate]. intros [= _ <- <-].
apply Z.eqb_eq in E. done.
Qed.

Lemma assert_private_inv e (s s' : S) u (es : list Eff) :
assert_private e s = Ok (u, s', es) ->
predecessor_account_id e = current_account_id e /\ s' = s /\ es = [].
Proof.
unfold assert_private, asks, mbind, M_bind, requireM, lift, require.
destruct (String.eqb _ _) eqn:E; [|discriminate]. intros [= _ <- <-].
apply String.eqb_eq in E. done.
Qed.
End monad_inv.

(** [m_inv] is [res_inv] for contract computations. *)
Ltac m_step :=
  match goal with
  | H : mbind _ _ _ _ = Ok (_, _, _) |- _ =>
      let a := fresh "a" in let s := fresh "s" in
      let l1 := fresh "es" in let l2 := fresh "es" in let E := fresh "E" in
      apply bindM_Ok_inv in H; destruct H as (a & s & l1 & l2 & E & H & ->)
  | H : mret _ _ _ = Ok _ |- _ =>
      let R := fresh "R" in apply retM_Ok_inv in H; destruct H as (R & -> & ->);
      try (match type of R with ?x = _ => subst x | ?x = ?x => clear R end)
  | H : get_state _ _ = Ok _ |- _ => apply getM_Ok_inv in H; destruct H as (-> & -> & ->)
  | H : asks _ _ _ = Ok _ |- _ => apply asksM_Ok_inv in H; destruct H as (-> & -> & ->)
  | H : modify _ _ _ = Ok _ |- _ => apply modifyM_Ok_inv in H; destruct H as (-> & ->)
  | H : put_state _ _ _ = Ok _ |- _ => apply putM_Ok_inv in H; destruct H as (-> & ->)
  | H : emit _ _ _ = Ok _ |- _ => apply emitM_Ok_inv in H; destruct H as (-> & ->)
  | H : requireM _ _ _ _ = Ok _ |- _ =>
      apply requireM_Ok_inv in H; let B := fresh "B" in destruct H as (B & -> & ->)
  | H : lift _ _ _ = Ok _ |- _ =>
      apply liftM_Ok_inv in H; let B := fresh "B" in destruct H as (B & -> & ->)
  | H : panicM _ _ _ = Ok _ |- _ => discriminate H
  | H : assert_one_yocto _ _ = Ok _ |- _ =>
      apply assert_one_yocto_inv in H; let B := fresh "B" in destruct H as (B & -> & ->)
  | H : assert_private _ _ = Ok _ |- _ =>
      apply assert_private_inv in H; let B := fresh "B" in destruct H as (B & -> & ->)
  | H : (match ?x with (_, _) => _ end) _ _ = Ok _ |- _ =>
      let a := fresh "x" in let b := fresh "y" in destruct x as [a b]
  | u : unit |- _ => destruct u
  end.
Ltac m_inv := repeat (m_step; cbn beta in * ).

(** [m_all] also splits on the tests a computation branches on. *)
Ltac m_case :=
  match goal with
  | H : (if ?b then _ else _) _ _ = Ok _ |- _ => let C := fresh "C" in destruct b eqn:C
  end.
Ltac m_all := m_inv; repeat (m_case; m_inv).

(** ** What a computation may emit *)
Definition emits {Eff S A} (P : Eff -> Prop) (m : M Eff S A) : Prop :=
  forall e s a s' es, m e s = Ok (a, s', es) -> Forall P es.

Section emits.
Context {Eff S : Type} (P : Eff -> Prop).

Lemma emits_bind {A B} (f : A -> M Eff S B) (m : M Eff S A) :
emits P m -> (forall a, emits P (f a)) -> emits P (mbind f m).
Proof. intros Hm Hf e s a s' es H. m_inv. apply Forall_app. split; [by eapply Hm | by eapply Hf]. Qed.

Lemma emits_emit (ef : Eff) : P ef -> emits P (emit ef : M Eff S unit).
Proof. intros HP e s a s' es H. m_inv. by constructor. Qed.

Lemma emits_ret {A} (a : A) : emits P (mret a : M Eff S A).
Proof. intros e s b s' es H. by m_inv. Qed.
Lemma emits_lift {A} (r : result A) : emits P (lift r : M Eff S A).
Proof. intros e s b s' es H. by m_inv. Qed.
Lemma emits_get : emits P (get_state : M Eff S S).
Proof. intros e s b s' es H. by m_inv. Qed.
Lemma emits_put x : emits P (put_state x : M Eff S unit).
Proof. intros e s b s' es H. by m_inv. Qed.
Lemma emits_modify f : emits P (modify f : M Eff S unit).
Proof. intros e s b s' es H. by m_inv. Qed.
Lemma emits_asks {A} (f : Env -> A) : emits P (asks f : M Eff S A).
Proof. intros e s b s' es H. by m_inv. Qed.
Lemma emits_panic {A} msg : emits P (panicM msg : M Eff S A).
Proof. intros e s b s' es H. discriminate. Qed.
Lemma emits_for_each {A} (l : list A) (body : A -> M Eff S unit) :
(forall x, emits P (body x)) -> emits P (for_each l body).
Proof. intros Hb. induction l as [|x l IH]; cbn; [apply emits_ret | by apply emits_bind]. Qed.
End emits.

#[export] Hint Resolve emits_ret emits_lift emits_get emits_put emits_modify emits_asks emits_panic : hos.

(** [emits_step] walks through a computation; only the emitted effects remain. *)
Ltac emits_step :=
  match goal with
  | |- emits _ (mbind _ _) => apply emits_bind; [|intro]
  | |- emits _ (emit _) => apply emits_emit
  | |- emits _ (requireM _ _) => apply emits_lift
  | |- emits _ (if ?b then _ else _) => destruct b
  | |- emits _ (match ?x with _ => _ end) => destruct x
  | |- emits _ _ => solve [auto with hos nocore]
  end.

(** [emits_auto] unfolds a computation down to its effects. *)
Ltac head_of t := lazymatch t with ?f _ => head_of f | _ => t end.
Ltac emits_auto :=
  repeat first [emits_step | exact I | cbv zeta; progress cbn beta
               | match goal with |- emits _ (for_each _ _) => apply emits_for_each; intro end
               | match goal with |- emits _ ?m => let h := head_of m in unfold h end].

(** ** What a computation preserves

    [keeps P m]: a successful run of [m] from a state of [P] ends in one.
    A state read on the way also satisfies [P], so a write of a changed copy
    of it needs only the change to respect [P]. *)
Definition keeps {Eff S A} (P : S -> Prop) (m : M Eff S A) : Prop :=
  forall e s a s' es, P s -> m e s = Ok (a, s', es) -> P s'.

Section keeps.
Context {Eff S : Type} (P : S -> Prop).

Lemma keeps_bind {A B} (f : A -> M Eff S B) (m : M Eff S A) :
keeps P m -> (forall a, keeps P (f a)) -> keeps P (mbind f m).
Proof. intros Hm Hf e s b s' es HP H. m_inv. eapply Hf; [|exact H]. by eapply Hm. Qed.

(** A fact on the value the first part answers. *)
Lemma keeps_post {A B} (Q : A -> Prop) (f : A -> M Eff S B) (m : M Eff S A) :
(forall e s a s' es, P s -> m e s = Ok (a, s', es) -> P s' /\ Q a) -> (forall a, Q a -> keeps P (f a)) -> keeps P (mbind f m).
Proof. intros Hm Hf e s b s' es HP H. m_inv. destruct (Hm _ _ _ _ _ HP E) as [HP1 HQ]. by eapply (Hf _ HQ). Qed.

Lemma keeps_get {B} (f : S -> M Eff S B) :
(forall s, P s -> keeps P (f s)) -> keeps P (mbind f get_state).
Proof. intros Hf e s b s' es HP H. m_inv. eapply Hf; [exact HP | exact HP | exact H]. Qed.

Lemma keeps_put x : P x -> keeps P (put_state x : M Eff S unit).
Proof. intros HP e s a s' es _ H. by m_inv. Qed.

Lemma keeps_modify f : (forall s, P s -> P (f s)) -> keeps P (modify f : M Eff S unit).
Proof. intros Hf e s a s' es HP H. m_inv. by apply Hf. Qed.

Lemma keeps_ret {A} (a : A) : keeps P (mret a : M Eff S A).
Proof. intros e s b s' es HP H. by m_inv. Qed.
Lemma keeps_lift {A} (r : result A) : keeps P (lift r : M Eff S A).
Proof. intros e s b s' es HP H. by m_inv. Qed.
Lemma keeps_get_state : keeps P (get_state : M Eff S S).
Proof. intros e s b s' es HP H. by m_inv. Qed.
Lemma keeps_asks {A} (f : Env -> A) : keeps P (asks f : M Eff S A).
Proof. intros e s b s' es HP H. by m_inv. Qed.
Lemma keeps_emit ef : keeps P (emit ef : M Eff S unit).
Proof. intros e s b s' es HP H. by m_inv. Qed.
Lemma keeps_panic {A} msg : keeps P (panicM msg : M Eff S A).
Proof. intros e s b s' es _ H. discriminate. Qed.
Lemma keeps_require b msg : keeps P (requireM b msg : M Eff S unit).
Proof. apply keeps_lift. Qed.
Lemma keeps_one_yocto : keeps P (assert_one_yocto : M Eff S unit).
Proof. intros e s b s' es HP H. by m_inv. Qed.
Lemma keeps_private : keeps P (assert_private : M Eff S unit).
Proof. intros e s b s' es HP H. by m_inv. Qed.
Lemma keeps_for_each {A} (l : list A) (body : A -> M Eff S unit) :
(forall x, keeps P (body x)) -> keeps P (for_each l body).
Proof. intros Hb. induction l as [|x l IH]; cbn; [apply keeps_ret | apply keeps_bind; [apply Hb | intros _; exact IH]]. Qed.
End keeps.

Create HintDb keeps discriminated.
#[export] Hint Constants Opaque : keeps.
#[export] Hint Resolve keeps_ret keeps_lift keeps_get_state keeps_asks keeps_emit keeps_panic keeps_require
  keeps_one_yocto keeps_private : keeps.

(** [keeps_step] walks through a computation; the changes of the state remain. *)
Ltac keeps_step :=
  match goal with
  | |- keeps _ (mbind _ get_state) => apply keeps_get; intros ? ?
  | |- keeps _ (mbind _ _) => apply keeps_bind; [|intro]
  | |- keeps _ (for_each _ _) => apply keeps_for_each; intro
  | |- keeps _ (if ?b then _ else _) => destruct b
  | |- keeps _ (match ?x with _ => _ end) => destruct x
  | |- keeps _ (let _ := _ in _) => cbv zeta
  | |- keeps _ _ => solve [auto with keeps nocore]
  | |- keeps _ (put_state _) => apply keeps_put
  | |- keeps _ (modify _) => apply keeps_modify; intros ? ?
  end.
Ltac keeps_walk := repeat keeps_step.
