(* ===== verification/Common.v ===== *)
(** * The [common] crate: amounts, basis points, veNEAR balances, accounts

    Definitions of common/src: [utils.rs], [bps.rs], [types.rs], [venear.rs],
    [account.rs], [global_state.rs], [lockup_update.rs] and [events.rs]. Every
    operation that can panic in the code returns a [result]. *)
From stdpp Require Import base gmap strings list.
From Stdlib Require Import ZArith Lia.
From S2P Require Import Prelude.
From S2P Require Import Near.

Local Open Scope Z_scope.

(** ** utils.rs *)
Definition unwrap_none : string := "called `Option::unwrap()` on a `None` value".

Definition near_add (a b : NearToken) : result NearToken := checked_op U128_MAX (a + b) unwrap_none.
Definition near_sub (a b : NearToken) : result NearToken := checked_op U128_MAX (a - b) unwrap_none.

Definition NS_PER_SEC : Z := 1000000000.
Definition ONE_MILLINEAR : Z := 10 ^ 21.

Definition truncate_to_seconds (nanoseconds : TimestampNs) : TimestampNs :=
  nanoseconds / NS_PER_SEC * NS_PER_SEC.

(** [NearToken::from_millinear(near.as_millinear())]. *)
Definition truncate_near_to_millis (near : NearToken) : NearToken :=
  near / ONE_MILLINEAR * ONE_MILLINEAR.

(** ** bps.rs: basis points in [0..=10_000] *)
Module Bps.
Definition ZERO : Z := 0.
Definition MAX_RAW : Z := 10000.
Definition FULL : Z := 10000.

Definition new (value : Z) : result Z :=
if value <=? MAX_RAW then Ok value else Panic "bps must be in 0..=10000".

(** [Result<Self, &str>]: the error is a value. *)
Definition try_new (value : Z) : string + Z :=
if MAX_RAW <? value then inl "bps must be in 0..=10000"%string else inr value.

Definition is_zero (b : Z) : bool := b =? 0.
Definition is_full (b : Z) : bool := b =? MAX_RAW.

(** [impl Mul<NearToken> for Bps]. *)
Definition mul (b : Z) (rhs : NearToken) : result NearToken :=
if is_zero b then Ok 0
else if is_full b then Ok rhs
else p ← u128_mul rhs b; mret (p / MAX_RAW).
End Bps.

(** ** types.rs: fractions *)
Record Fraction : Type := mkFraction { numerator : Z; denominator : Z }.

Definition as_u128 (z : Z) : result Z := checked_op U128_MAX z "Integer overflow when casting to u128".

(** [U256] and [U384] products of [u128] values fit their width, so only the
    division and the final cast can panic. *)
Definition fraction_mul (f : Fraction) (rhs : Z) : result Z :=
  if denominator f =? 0 then Panic "division by zero"
  else as_u128 (numerator f * rhs / denominator f).

Definition u384_mul (f : Fraction) (a b : Z) : result Z :=
  let n := numerator f * a * b in
  if denominator f =? 0 then Panic "division by zero"
  else require (n mod denominator f =? 0) "Rounding error" ;;
       as_u128 (n / denominator f).

(** [PartialEq] and [PartialOrd] of fractions by cross multiplication. *)
Definition fraction_eqb (f g : Fraction) : bool :=
  numerator f * denominator g =? denominator f * numerator g.

Definition fraction_compare (f g : Fraction) : comparison :=
  numerator f * denominator g ?= denominator f * numerator g.

(** ** venear.rs: growth of veNEAR *)
Record VenearGrowthConfigFixedRate : Type := mkFixedRate { annual_growth_rate_ns : Fraction }.

Inductive VenearGrowthConfig : Type :=
| FixedRate (config : VenearGrowthConfigFixedRate).

Definition growth_rate (g : VenearGrowthConfig) : Fraction :=
  match g with FixedRate c => annual_growth_rate_ns c end.

Definition calculate (g : VenearGrowthConfig) (previous_timestamp current_timestamp : TimestampNs)
    (balance : NearToken) : result NearToken :=
  require (previous_timestamp <=? current_timestamp) "Timestamp must be increasing" ;;
  require (current_timestamp =? truncate_to_seconds current_timestamp)
    "Current timestamp must be truncated to seconds" ;;
  require (previous_timestamp =? truncate_to_seconds previous_timestamp)
    "Previous timestamp must be truncated to seconds" ;;
  if previous_timestamp =? current_timestamp then Ok 0
  else
    let truncated_near_balance := truncate_near_to_millis balance in
    match g with
    | FixedRate config =>
        growth_period_ns ← u64_sub current_timestamp previous_timestamp;
        u384_mul (annual_growth_rate_ns config) growth_period_ns truncated_near_balance
    end.

(** ** types.rs: balances *)
Record VenearBalance : Type := mkBalance {
  near_balance : NearToken;
  extra_venear_balance : NearToken
}.

#[export] Instance VenearBalance_eq_dec : EqDecision VenearBalance.
Proof. solve_decision. Defined.

Module VenearBalance.
Definition default : VenearBalance := mkBalance 0 0.

Definition total (b : VenearBalance) : result NearToken :=
near_add (near_balance b) (extra_venear_balance b).

Definition update (b : VenearBalance) (previous current : TimestampNs) (g : VenearGrowthConfig)
: result VenearBalance :=
growth ← calculate g previous current (near_balance b);
extra ← near_add (extra_venear_balance b) growth;
mret (mkBalance (near_balance b) extra).

Definition from_near (near : NearToken) : VenearBalance := mkBalance near 0.

Definition delegation_contribution (b : VenearBalance) (bps : Z) : result VenearBalance :=
let base := truncate_near_to_millis (near_balance b) in
if base =? 0 then Ok default
else
share ← Bps.mul bps (near_balance b);
let near := truncate_near_to_millis share in
extra ← as_u128 (extra_venear_balance b * near / base);
mret (mkBalance near extra).

Definition add (b rhs : VenearBalance) : result VenearBalance :=
near ← near_add (near_balance b) (near_balance rhs);
extra ← near_add (extra_venear_balance b) (extra_venear_balance rhs);
mret (mkBalance near extra).

Definition sub (b rhs : VenearBalance) : result VenearBalance :=
near ← near_sub (near_balance b) (near_balance rhs);
extra ← near_sub (extra_venear_balance b) (extra_venear_balance rhs);
mret (mkBalance near extra).
End VenearBalance.

(** The newtype [PooledVenearBalance(VenearBalance)]. *)
Record PooledVenearBalance : Type := Pooled { pool : VenearBalance }.

#[export] Instance PooledVenearBalance_eq_dec : EqDecision PooledVenearBalance.
Proof. solve_decision. Defined.

Module Pool.
Definition default : PooledVenearBalance := Pooled VenearBalance.default.

Definition total (p : PooledVenearBalance) : result NearToken := VenearBalance.total (pool p).

Definition update (p : PooledVenearBalance) (previous current : TimestampNs)
(g : VenearGrowthConfig) : result PooledVenearBalance :=
b ← VenearBalance.update (pool p) previous current g; mret (Pooled b).

Definition pooled_add (p : PooledVenearBalance) (other : VenearBalance) : result PooledVenearBalance :=
let truncated := truncate_near_to_millis (near_balance other) in
difference ← near_sub (near_balance other) truncated;
near ← near_add (near_balance (pool p)) truncated;
other_extra ← near_add (extra_venear_balance other) difference;
extra ← near_add (extra_venear_balance (pool p)) other_extra;
mret (Pooled (mkBalance near extra)).

Definition pooled_sub (p : PooledVenearBalance) (other : VenearBalance) : result PooledVenearBalance :=
let truncated := truncate_near_to_millis (near_balance other) in
difference ← near_sub (near_balance other) truncated;
near ← near_sub (near_balance (pool p)) truncated;
other_extra ← near_add (extra_venear_balance other) difference;
extra ← near_sub (extra_venear_balance (pool p)) other_extra;
mret (Pooled (mkBalance near extra)).

Definition pooled_add_delegation (p : PooledVenearBalance) (other : VenearBalance) (bps : Z)
: result PooledVenearBalance :=
c ← VenearBalance.delegation_contribution other bps;
b ← VenearBalance.add (pool p) c; mret (Pooled b).

Definition pooled_sub_delegation (p : PooledVenearBalance) (other : VenearBalance) (bps : Z)
: result PooledVenearBalance :=
c ← VenearBalance.delegation_contribution other bps;
b ← VenearBalance.sub (pool p) c; mret (Pooled b).
End Pool.

(** ** account.rs *)
Record DelegationEntry : Type := mkEntry { delegate_id : AccountId; bps : Z }.

#[export] Instance DelegationEntry_eq_dec : EqDecision DelegationEntry.
Proof. solve_decision. Defined.

Record Account : Type := mkAccount {
  account_id : AccountId;
  update_timestamp : TimestampNs;
  balance : VenearBalance;
  delegated_balance : PooledVenearBalance;
  delegations : list DelegationEntry
}.

#[export] Instance Account_eq_dec : EqDecision Account.
Proof. solve_decision. Defined.

(** The delegation of the first version is of the whole balance. *)
Record AccountDelegation : Type := mkDelegation { delegation_account_id : AccountId }.

Record AccountV0 : Type := mkAccountV0 {
  v0_account_id : AccountId;
  v0_update_timestamp : TimestampNs;
  v0_balance : VenearBalance;
  v0_delegated_balance : PooledVenearBalance;
  v0_delegation : option AccountDelegation
}.

Inductive VAccount : Type :=
| V0 (account : AccountV0)
| V1 (account : Account).

(** [impl From<VAccount> for Account]. *)
Definition account_from (v : VAccount) : Account :=
  match v with
  | V0 a => mkAccount (v0_account_id a) (v0_update_timestamp a) (v0_balance a)
              (v0_delegated_balance a)
              (match v0_delegation a with
               | Some d => [mkEntry (delegation_account_id d) Bps.FULL]
               | None => []
               end)
  | V1 a => a
  end.

Module Account.
Definition with_delegated (a : Account) (p : PooledVenearBalance) : Account :=
mkAccount (account_id a) (update_timestamp a) (balance a) p (delegations a).
Definition with_balance (a : Account) (b : VenearBalance) : Account :=
mkAccount (account_id a) (update_timestamp a) b (delegated_balance a) (delegations a).
Definition with_delegations (a : Account) (ds : list DelegationEntry) : Account :=
mkAccount (account_id a) (update_timestamp a) (balance a) (delegated_balance a) ds.

(** The loop of [owned_total]: what the owner keeps of its own balance. *)
Fixpoint retained (own : VenearBalance) (acc : VenearBalance) (ds : list DelegationEntry)
: result VenearBalance :=
match ds with
| [] => Ok acc
| d :: ds' =>
c ← VenearBalance.delegation_contribution own (bps d);
acc' ← VenearBalance.sub acc c;
retained own acc' ds'
end.

Definition owned_total (a : Account) : result NearToken :=
r ← retained (balance a) (balance a) (delegations a);
d ← Pool.total (delegated_balance a);
t ← VenearBalance.total r;
near_add d t.

Definition update (a : Account) (now : TimestampNs) (g : VenearGrowthConfig) : result Account :=
let current_timestamp := truncate_to_seconds now in
require (update_timestamp a <=? current_timestamp) "Timestamp must be increasing" ;;
b ← VenearBalance.update (balance a) (update_timestamp a) current_timestamp g;
d ← Pool.update (delegated_balance a) (update_timestamp a) current_timestamp g;
mret (mkAccount (account_id a) current_timestamp b d (delegations a)).

Definition total_balance (a : Account) (now : TimestampNs) (g : VenearGrowthConfig)
: result NearToken :=
a' ← update a now g; owned_total a'.
End Account.

(** ** global_state.rs *)
Record GlobalState : Type := mkGlobal {
  gs_update_timestamp : TimestampNs;
  total_venear_balance : PooledVenearBalance;
  venear_growth_config : VenearGrowthConfig
}.

Inductive VGlobalState : Type := GV0 (global_state : GlobalState).

Definition global_state_from (v : VGlobalState) : GlobalState := match v with GV0 g => g end.

Module GlobalState.
Definition new (timestamp : TimestampNs) (g : VenearGrowthConfig) : GlobalState :=
mkGlobal (truncate_to_seconds timestamp) Pool.default g.

Definition update (gs : GlobalState) (now : TimestampNs) : result GlobalState :=
let current_timestamp := truncate_to_seconds now in
t ← Pool.update (total_venear_balance gs) (gs_update_timestamp gs) current_timestamp
(venear_growth_config gs);
mret (mkGlobal current_timestamp t (venear_growth_config gs)).

Definition with_total (gs : GlobalState) (p : PooledVenearBalance) : GlobalState :=
mkGlobal (gs_update_timestamp gs) p (venear_growth_config gs).
End GlobalState.

(** ** lockup_update.rs *)
Record LockupUpdateV1 : Type := mkLockupUpdate {
  locked_near_balance : NearToken;
  lu_timestamp : TimestampNs;
  lu_nonce : Z
}.

Inductive VLockupUpdate : Type := LV1 (update : LockupUpdateV1).

(** ** events.rs: one constructor per emitter *)
Inductive Event : Type :=
| lockup_action (action : string) (account : AccountId) (lockup_version : Version)
    (lockup_update_nonce : option Z) (timestamp : option TimestampNs)
    (locked_near : option NearToken)
| proposal_vote_action (action : string) (account : AccountId) (proposal_id : Z) (vote : Z)
    (account_balance : NearToken)
| approve_proposal_action (account : AccountId) (proposal_id : Z)
| reject_proposal_action (account : AccountId) (proposal_id : Z)
| veto_proposal_action (account : AccountId) (proposal_id : Z)
| noveto_proposal_action (account : AccountId) (proposal_id : Z)
| create_proposal_action (action : string) (proposer : AccountId) (proposal_id : Z)
| execute_proposal_action (account : AccountId) (proposal_id : Z)
| slash_proposal_action (account : AccountId) (proposal_id : Z)
| execute_proposal_result (proposal_id : Z) (success : bool)
| ft_mint (owner : AccountId) (amount : NearToken)
| ft_burn (owner : AccountId) (amount : NearToken)
| delegation_change (account : AccountId) (old new : list DelegationEntry).
