(* ===== verification/CommonFacts.v ===== *)
(** * Facts about balances, growth and delegation shares

    The exact integer functions the checked code computes ([growth], [grow],
    [contrib]), when the code succeeds, and the laws that make pooled
    delegation exact: growth is additive over time and commutes with taking a
    delegation share. *)
From stdpp Require Import base gmap strings list.
From Stdlib Require Import ZArith Lia.
From S2P Require Import Prelude.
From S2P Require Import Near.
From S2P Require Import Common.

Local Open Scope Z_scope.

(** ** Truncation *)
Definition aligned (t : Z) : Prop := t mod NS_PER_SEC = 0.

Lemma truncate_to_seconds_aligned t : aligned (truncate_to_seconds t).
Proof. apply Z.mod_mul. unfold NS_PER_SEC. lia. Qed.

Lemma truncate_to_seconds_id t : aligned t -> truncate_to_seconds t = t.
Proof. apply div_mul_exact. unfold NS_PER_SEC. lia. Qed.

Lemma truncate_to_seconds_le t : 0 <= t -> 0 <= truncate_to_seconds t <= t.
Proof.
  unfold truncate_to_seconds, NS_PER_SEC. intros Ht.
  pose proof (Z.mul_div_le t 1000000000). pose proof (Z.div_pos t 1000000000). lia.
Qed.

Lemma truncate_to_seconds_mono s t : s <= t -> truncate_to_seconds s <= truncate_to_seconds t.
Proof.
  unfold truncate_to_seconds, NS_PER_SEC. intros H.
  pose proof (Z.div_le_mono s t 1000000000). lia.
Qed.

Lemma truncate_near_le x : 0 <= x -> 0 <= truncate_near_to_millis x <= x.
Proof.
  unfold truncate_near_to_millis. intros Hx.
  pose proof (Z.mul_div_le x ONE_MILLINEAR). pose proof (Z.div_pos x ONE_MILLINEAR).
  unfold ONE_MILLINEAR in *. lia.
Qed.

Lemma truncate_near_mono x y : x <= y -> truncate_near_to_millis x <= truncate_near_to_millis y.
Proof.
  unfold truncate_near_to_millis. intros H.
  pose proof (Z.div_le_mono x y ONE_MILLINEAR). unfold ONE_MILLINEAR in *. lia.
Qed.

Lemma truncate_near_idem x :
  truncate_near_to_millis (truncate_near_to_millis x) = truncate_near_to_millis x.
Proof. unfold truncate_near_to_millis. rewrite Z.div_mul; [done | unfold ONE_MILLINEAR; lia]. Qed.

Lemma truncate_near_mult x : exists k, truncate_near_to_millis x = k * ONE_MILLINEAR.
Proof. eexists. reflexivity. Qed.

Opaque ONE_MILLINEAR.

(** ** The exact functions *)
Definition RATE_DENOM : Z := 10 ^ 30.

(** What [Contract::new] of the veNEAR contract enforces of the growth rate. *)
Definition rate_ok (g : VenearGrowthConfig) : Prop :=
  denominator (growth_rate g) = RATE_DENOM /\ 0 <= numerator (growth_rate g).

Definition growth (g : VenearGrowthConfig) (period near : Z) : Z :=
  numerator (growth_rate g) * period * truncate_near_to_millis near / denominator (growth_rate g).

Definition grow (g : VenearGrowthConfig) (period : Z) (b : VenearBalance) : VenearBalance :=
  mkBalance (near_balance b) (extra_venear_balance b + growth g period (near_balance b)).

Definition share (bps near : Z) : Z := truncate_near_to_millis (near * bps / Bps.MAX_RAW).

Definition contrib (bps : Z) (b : VenearBalance) : VenearBalance :=
  let near := share bps (near_balance b) in
  mkBalance near (extra_venear_balance b * near / truncate_near_to_millis (near_balance b)).

Definition badd (a b : VenearBalance) : VenearBalance :=
  mkBalance (near_balance a + near_balance b) (extra_venear_balance a + extra_venear_balance b).
Definition bsub (a b : VenearBalance) : VenearBalance :=
  mkBalance (near_balance a - near_balance b) (extra_venear_balance a - extra_venear_balance b).
Definition bsum (b : VenearBalance) : Z := near_balance b + extra_venear_balance b.

(** The share of an account balance that global totals carry as growing NEAR,
    and the remainder they carry as extra veNEAR. *)
Definition pooled_form (b : VenearBalance) : VenearBalance :=
  let t := truncate_near_to_millis (near_balance b) in
  mkBalance t (extra_venear_balance b + (near_balance b - t)).

Definition balance_ok (b : VenearBalance) : Prop :=
  0 <= near_balance b <= U128_MAX /\ 0 <= extra_venear_balance b <= U128_MAX.
Definition bps_ok (x : Z) : Prop := 0 <= x <= Bps.MAX_RAW.

Lemma balance_eq a b :
  near_balance a = near_balance b -> extra_venear_balance a = extra_venear_balance b -> a = b.
Proof. destruct a, b; cbn; congruence. Qed.

(** ** Growth *)
Section growth.
Context (g : VenearGrowthConfig) (Hg : rate_ok g).

Lemma growth_product_exact period near :
aligned period ->
(numerator (growth_rate g) * period * truncate_near_to_millis near) mod RATE_DENOM = 0.
Proof.
intros Hp. destruct (truncate_near_mult near) as [k ->].
apply Z.mod_divide in Hp as [q ->]; [|unfold NS_PER_SEC; lia].
apply Z.mod_divide; [unfold RATE_DENOM; lia|].
exists (numerator (growth_rate g) * q * k).
replace RATE_DENOM with (NS_PER_SEC * ONE_MILLINEAR) by reflexivity. lia.
Qed.

Lemma growth_spec period near :
aligned period ->
growth g period near * RATE_DENOM =
numerator (growth_rate g) * period * truncate_near_to_millis near.
Proof.
intros Hp. unfold growth. destruct Hg as [-> _].
apply div_mul_exact; [unfold RATE_DENOM; lia|]. by apply growth_product_exact.
Qed.

Lemma growth_0 near : growth g 0 near = 0.
Proof. unfold growth. rewrite Z.mul_0_r, Z.mul_0_l. apply Z.div_0_l.
destruct Hg as [-> _]. unfold RATE_DENOM. lia. Qed.

Lemma growth_nonneg period near : 0 <= period -> 0 <= near -> 0 <= growth g period near.
Proof.
intros Hp Hn. unfold growth. destruct Hg as [-> Hnum].
pose proof (truncate_near_le near Hn).
apply Z.div_pos; [|unfold RATE_DENOM; lia].
apply Z.mul_nonneg_nonneg; [apply Z.mul_nonneg_nonneg|]; lia.
Qed.

Lemma growth_mono period near near' :
0 <= period -> truncate_near_to_millis near <= truncate_near_to_millis near' ->
growth g period near <= growth g period near'.
Proof.
intros Hp Hle. unfold growth. destruct Hg as [-> Hnum].
apply Z.div_le_mono; [unfold RATE_DENOM; lia|].
apply Z.mul_le_mono_nonneg_l; [apply Z.mul_nonneg_nonneg; lia | done].
Qed.

Lemma growth_additive p1 p2 near :
aligned p1 -> aligned p2 -> growth g (p1 + p2) near = growth g p1 near + growth g p2 near.
Proof.
intros H1 H2. unfold growth. destruct Hg as [-> _].
rewrite Z.mul_add_distr_l, Z.mul_add_distr_r.
apply Z.mod_divide in H1 as [q1 E1]; [|unfold NS_PER_SEC; lia].
pose proof (growth_product_exact p1 near) as P1.
rewrite <- (div_mul_exact (numerator (growth_rate g) * p1 * truncate_near_to_millis near) RATE_DENOM)
at 1; [| unfold RATE_DENOM; lia | apply P1; subst; apply Z.mod_mul; unfold NS_PER_SEC; lia].
rewrite Z.div_add_l; [done | unfold RATE_DENOM; lia].
Qed.

Lemma growth_linear period x y :
aligned period ->
truncate_near_to_millis (x + y) = truncate_near_to_millis x + truncate_near_to_millis y ->
growth g period (x + y) = growth g period x + growth g period y.
Proof.
intros Hp E. pose proof (growth_spec period x Hp). pose proof (growth_spec period y Hp).
pose proof (growth_spec period (x + y) Hp) as Hxy. rewrite E in Hxy.
unfold RATE_DENOM in *. lia.
Qed.

Lemma grow_0 b : grow g 0 b = b.
Proof. apply balance_eq; cbn; [done|]. rewrite growth_0. lia. Qed.

Lemma grow_grow p1 p2 b :
aligned p1 -> aligned p2 -> grow g p2 (grow g p1 b) = grow g (p1 + p2) b.
Proof. intros H1 H2. apply balance_eq; cbn; [done|]. rewrite growth_additive by done. lia. Qed.
End growth.

(** ** Delegation shares *)
Lemma aligned_sub a b : aligned a -> aligned b -> aligned (a - b).
Proof.
  unfold aligned, NS_PER_SEC. intros Ha Hb.
  rewrite Zminus_mod, Ha, Hb. done.
Qed.

Lemma aligned_0 : aligned 0.
Proof. done. Qed.

Lemma share_bounds x near : bps_ok x -> 0 <= near ->
  0 <= share x near <= truncate_near_to_millis near.
Proof.
  unfold bps_ok, share, Bps.MAX_RAW. intros Hx Hn.
  assert (0 <= near * x / 10000 <= near) as [H0 H1].
  { split; [apply Z.div_pos; nia|].
    apply Z.div_le_upper_bound; nia. }
  split; [apply truncate_near_le; lia | by apply truncate_near_mono].
Qed.

Lemma share_truncated x near : truncate_near_to_millis (share x near) = share x near.
Proof. apply truncate_near_idem. Qed.

Lemma floor_sum_le a b d : 0 < d -> a / d + b / d <= (a + b) / d.
Proof.
  intros Hd. apply Z.div_le_lower_bound; [done|].
  pose proof (Z.mul_div_le a d Hd). pose proof (Z.mul_div_le b d Hd). lia.
Qed.

Lemma share_superadditive x y near :
  share x near + share y near <= share (x + y) near.
Proof.
  unfold share, truncate_near_to_millis.
  assert (0 < ONE_MILLINEAR) by (vm_compute; done).
  rewrite Z.mul_add_distr_l.
  pose proof (floor_sum_le (near * x) (near * y) Bps.MAX_RAW ltac:(done)) as H1.
  pose proof (floor_sum_le (near * x / Bps.MAX_RAW) (near * y / Bps.MAX_RAW) ONE_MILLINEAR
                ltac:(done)) as H2.
  pose proof (Z.div_le_mono _ _ ONE_MILLINEAR ltac:(done) H1) as H3.
  nia.
Qed.

Lemma contrib_bounds x b : bps_ok x -> 0 <= near_balance b -> 0 <= extra_venear_balance b ->
  0 <= near_balance (contrib x b) <= near_balance b /\
  0 <= extra_venear_balance (contrib x b) <= extra_venear_balance b.
Proof.
  intros Hx Hn He. pose proof (share_bounds x _ Hx Hn) as Hs.
  pose proof (truncate_near_le _ Hn) as Ht. cbn. split; [lia|].
  set (base := truncate_near_to_millis (near_balance b)) in *.
  destruct (Z.eq_dec base 0) as [E|E].
  - rewrite E, Z.div_0_r. lia.
  - split; [apply Z.div_pos; nia|]. apply Z.div_le_upper_bound; nia.
Qed.

Lemma contrib_ok x b : bps_ok x -> balance_ok b -> balance_ok (contrib x b).
Proof.
  intros Hx [Hn He]. pose proof (contrib_bounds x b Hx ltac:(lia) ltac:(lia)).
  split; lia.
Qed.

(** Taking a share commutes with growth: the credit a pool received, grown,
    is the debit computed from the grown balance. *)
Lemma contrib_grow g period x b :
  rate_ok g -> aligned period -> bps_ok x -> 0 <= near_balance b ->
  contrib x (grow g period b) = grow g period (contrib x b).
Proof.
  intros Hg Hp Hx Hn. apply balance_eq; cbn; [done|].
  pose proof (share_bounds x _ Hx Hn) as Hs.
  set (c := share x (near_balance b)) in *.
  set (base := truncate_near_to_millis (near_balance b)) in *.
  destruct (Z.eq_dec base 0) as [E|E].
  - assert (c = 0) as -> by lia. rewrite E, !Z.div_0_r.
    unfold growth. change (truncate_near_to_millis 0) with 0.
    rewrite Z.mul_0_r, Zdiv_0_l. done.
  - assert (growth g period (near_balance b) * c = base * growth g period c) as Hcross.
    { pose proof (growth_spec g Hg period (near_balance b) Hp) as H1.
      pose proof (growth_spec g Hg period c Hp) as H2.
      unfold c in H2 at 2. rewrite share_truncated in H2. fold c in H2. fold base in H1.
      apply (Z.mul_reg_r _ _ RATE_DENOM); [unfold RATE_DENOM; lia|].
      transitivity (growth g period (near_balance b) * RATE_DENOM * c); [ring|].
      rewrite H1.
      transitivity (base * (growth g period c * RATE_DENOM)); [rewrite H2|]; ring. }
    rewrite Z.mul_add_distr_r, Hcross. apply div_add_exact. lia.
Qed.

Lemma pooled_form_grow g period b :
  rate_ok g -> pooled_form (grow g period b) = grow g period (pooled_form b).
Proof.
  intros Hg. apply balance_eq; cbn; [done|].
  unfold growth. rewrite truncate_near_idem. lia.
Qed.

Lemma pooled_form_sum b : bsum (pooled_form b) = bsum b.
Proof. unfold bsum; cbn. lia. Qed.

(** ** Sums of shares over a delegation list *)
Definition contrib_near_sum (b : VenearBalance) (ds : list DelegationEntry) : Z :=
  list_sum_Z (fun d => near_balance (contrib (bps d) b)) ds.
Definition contrib_extra_sum (b : VenearBalance) (ds : list DelegationEntry) : Z :=
  list_sum_Z (fun d => extra_venear_balance (contrib (bps d) b)) ds.
Definition bps_sum (ds : list DelegationEntry) : Z := list_sum_Z bps ds.

Definition delegations_ok (ds : list DelegationEntry) : Prop :=
  Forall (fun d => bps_ok (bps d)) ds /\ bps_sum ds <= Bps.MAX_RAW.

Lemma bps_sum_nonneg ds : Forall (fun d => bps_ok (bps d)) ds -> 0 <= bps_sum ds.
Proof.
  intros H. apply list_sum_Z_nonneg. intros d Hd.
  rewrite Forall_forall in H. apply H in Hd. unfold bps_ok in Hd. lia.
Qed.

Lemma share_0 near : share 0 near = 0.
Proof. unfold share. rewrite Z.mul_0_r. reflexivity. Qed.

Lemma contrib_near_sum_le_share b ds :
  contrib_near_sum b ds <= share (bps_sum ds) (near_balance b).
Proof.
  induction ds as [|d ds IH].
  - cbn. unfold bps_sum; cbn. rewrite share_0. done.
  - unfold contrib_near_sum, bps_sum in *. rewrite !list_sum_Z_cons.
    change (near_balance (contrib (bps d) b)) with (share (bps d) (near_balance b)).
    pose proof (share_superadditive (bps d) (list_sum_Z bps ds) (near_balance b)). lia.
Qed.

Lemma contrib_extra_sum_le b ds :
  0 <= truncate_near_to_millis (near_balance b) ->
  contrib_extra_sum b ds <=
  extra_venear_balance b * contrib_near_sum b ds / truncate_near_to_millis (near_balance b).
Proof.
  intros Ht. set (base := truncate_near_to_millis (near_balance b)) in *.
  destruct (Z.eq_dec base 0) as [E|E].
  - rewrite E, Z.div_0_r. unfold contrib_extra_sum.
    rewrite (list_sum_Z_ext _ (fun _ => 0)).
    + by rewrite list_sum_Z_0.
    + intros d _. cbn. fold base. by rewrite E, Z.div_0_r.
  - induction ds as [|d ds IH].
    + cbn. rewrite Z.mul_0_r, Z.div_0_l; done.
    + unfold contrib_extra_sum, contrib_near_sum in *. rewrite !list_sum_Z_cons.
      rewrite Z.mul_add_distr_l.
      pose proof (floor_sum_le (extra_venear_balance b * near_balance (contrib (bps d) b))
        (extra_venear_balance b *
         list_sum_Z (fun d0 => near_balance (contrib (bps d0) b)) ds) base ltac:(lia)) as Hf.
      etransitivity; [|exact Hf].
      change (extra_venear_balance (contrib (bps d) b)) with
        (extra_venear_balance b * near_balance (contrib (bps d) b) / base). lia.
Qed.

(** An account never delegates more than it has. *)
Lemma contrib_sums_bounded b ds :
  delegations_ok ds -> 0 <= near_balance b -> 0 <= extra_venear_balance b ->
  0 <= contrib_near_sum b ds <= near_balance b /\
  0 <= contrib_extra_sum b ds <= extra_venear_balance b.
Proof.
  intros [Hds Hsum] Hn He.
  pose proof (bps_sum_nonneg ds Hds) as H0.
  pose proof (contrib_near_sum_le_share b ds) as H1.
  pose proof (share_bounds (bps_sum ds) (near_balance b) ltac:(split; lia) Hn) as H2.
  pose proof (truncate_near_le _ Hn) as H3.
  pose proof (contrib_extra_sum_le b ds ltac:(lia)) as H4.
  rewrite Forall_forall in Hds.
  assert (0 <= contrib_near_sum b ds /\ 0 <= contrib_extra_sum b ds) as [H5 H6].
  { split; apply list_sum_Z_nonneg; intros d Hd;
      pose proof (contrib_bounds (bps d) b (Hds d Hd) Hn He); lia. }
  split; [lia|]. split; [done|]. etransitivity; [exact H4|].
  set (base := truncate_near_to_millis (near_balance b)) in *.
  destruct (Z.eq_dec base 0) as [E|E]; [rewrite E, Z.div_0_r; lia|].
  apply Z.div_le_upper_bound; nia.
Qed.

(** ** The code computes the exact functions

    An [_inv] lemma reads the result off a successful call; the lemma without
    the suffix shows that the call succeeds when the result fits. *)
Lemma near_add_inv a b r : near_add a b = Ok r -> r = a + b /\ 0 <= r <= U128_MAX.
Proof. intros [-> ?]%checked_op_Ok_inv. done. Qed.
Lemma near_sub_inv a b r : near_sub a b = Ok r -> r = a - b /\ 0 <= r <= U128_MAX.
Proof. intros [-> ?]%checked_op_Ok_inv. done. Qed.
Lemma near_add_ok a b : 0 <= a + b <= U128_MAX -> near_add a b = Ok (a + b).
Proof. apply checked_op_Ok. Qed.
Lemma near_sub_ok a b : 0 <= a - b <= U128_MAX -> near_sub a b = Ok (a - b).
Proof. apply checked_op_Ok. Qed.

(** Reads amounts off successful token additions and subtractions. *)
Ltac amt_inv :=
  repeat match goal with
  | H : near_add _ _ = Ok _ |- _ =>
      let R := fresh "R" in apply near_add_inv in H; destruct H as [-> R]
  | H : near_sub _ _ = Ok _ |- _ =>
      let R := fresh "R" in apply near_sub_inv in H; destruct H as [-> R]
  end.

Lemma require_true msg : require true msg = Ok tt.
Proof. done. Qed.

Lemma total_inv b r : VenearBalance.total b = Ok r -> r = bsum b /\ 0 <= r <= U128_MAX.
Proof. apply near_add_inv. Qed.

Lemma total_ok b : 0 <= bsum b <= U128_MAX -> VenearBalance.total b = Ok (bsum b).
Proof. apply near_add_ok. Qed.

Lemma add_inv a b r : VenearBalance.add a b = Ok r -> r = badd a b /\ balance_ok r.
Proof.
  unfold VenearBalance.add. intros H. res_inv.
  amt_inv. done.
Qed.

Lemma add_ok a b : balance_ok (badd a b) -> VenearBalance.add a b = Ok (badd a b).
Proof. intros [H1 H2]. cbn in *. unfold VenearBalance.add. rewrite near_add_ok by lia. cbn. by rewrite near_add_ok by lia. Qed.

Lemma sub_inv a b r : VenearBalance.sub a b = Ok r -> r = bsub a b /\ balance_ok r.
Proof.
  unfold VenearBalance.sub. intros H. res_inv.
  amt_inv. done.
Qed.

Lemma sub_ok a b : balance_ok (bsub a b) -> VenearBalance.sub a b = Ok (bsub a b).
Proof. intros [H1 H2]. cbn in *. unfold VenearBalance.sub. rewrite near_sub_ok by lia. cbn. by rewrite near_sub_ok by lia. Qed.

Lemma bps_mul_inv x near r : bps_ok x -> Bps.mul x near = Ok r -> r = near * x / Bps.MAX_RAW.
Proof.
  unfold Bps.mul, Bps.is_zero, Bps.is_full, u128_mul. intros Hx H.
  destruct (x =? 0) eqn:E0; bool_prop; [res_inv; rewrite Z.mul_0_r; done|].
  destruct (x =? Bps.MAX_RAW) eqn:E1; bool_prop.
  - res_inv. rewrite Z.div_mul; done.
  - res_inv. done.
Qed.

Lemma bps_mul_ok x near : bps_ok x -> 0 <= near -> near * Bps.MAX_RAW <= U128_MAX ->
  Bps.mul x near = Ok (near * x / Bps.MAX_RAW).
Proof.
  unfold Bps.mul, Bps.is_zero, Bps.is_full, u128_mul, bps_ok. intros Hx Hn Hb.
  destruct (x =? 0) eqn:E0; bool_prop; [subst; by rewrite Z.mul_0_r|].
  destruct (x =? Bps.MAX_RAW) eqn:E1; bool_prop.
  - subst. by rewrite Z.div_mul.
  - rewrite checked_op_Ok by nia. done.
Qed.

Lemma contribution_inv b x c : bps_ok x -> balance_ok b ->
  VenearBalance.delegation_contribution b x = Ok c -> c = contrib x b.
Proof.
  unfold VenearBalance.delegation_contribution, as_u128. intros Hx [Hn He] H.
  destruct (_ =? 0) eqn:E; bool_prop.
  - res_inv. pose proof (share_bounds x (near_balance b) Hx ltac:(lia)).
    apply balance_eq; cbn; [lia|]. rewrite E, Z.div_0_r. done.
  - res_inv. apply bps_mul_inv in E0; [|done]. subst. done.
Qed.

Lemma contribution_ok b x : bps_ok x -> balance_ok b ->
  near_balance b * Bps.MAX_RAW <= U128_MAX ->
  VenearBalance.delegation_contribution b x = Ok (contrib x b).
Proof.
  unfold VenearBalance.delegation_contribution, as_u128. intros Hx Hb Hn.
  pose proof (contrib_ok x b Hx Hb) as [_ Hce]. destruct Hb as [Hnb He].
  destruct (_ =? 0) eqn:E; bool_prop.
  - pose proof (share_bounds x (near_balance b) Hx ltac:(lia)).
    f_equal. symmetry. apply balance_eq; cbn; [lia|]. rewrite E, Z.div_0_r. done.
  - rewrite bps_mul_ok by (done || lia). cbn.
    rewrite checked_op_Ok; [done | exact Hce].
Qed.

Section code.
Context (g : VenearGrowthConfig) (Hg : rate_ok g).

Lemma calculate_inv t0 t1 near r :
calculate g t0 t1 near = Ok r ->
r = growth g (t1 - t0) near /\ aligned t0 /\ aligned t1 /\ t0 <= t1.
Proof.
unfold calculate. intros H. res_inv. bool_prop.
assert (aligned t0) by (rewrite E1; apply truncate_to_seconds_aligned).
assert (aligned t1) by (rewrite E0; apply truncate_to_seconds_aligned).
split_and!; [|done..].
destruct (t0 =? t1) eqn:E2; bool_prop.
- res_inv. rewrite Z.sub_diag, growth_0; done.
- destruct g as [c]. unfold u64_sub, u384_mul, as_u128 in H.
destruct (denominator _ =? 0) eqn:E3; res_inv; done.
Qed.

Lemma calculate_ok t0 t1 near :
aligned t0 -> aligned t1 -> 0 <= t0 <= t1 -> t1 <= U64_MAX -> 0 <= near ->
growth g (t1 - t0) near <= U128_MAX ->
calculate g t0 t1 near = Ok (growth g (t1 - t0) near).
Proof.
intros A0 A1 H01 H1 Hn Hmax. unfold calculate.
rewrite (proj2 (Z.leb_le t0 t1)) by lia. rewrite !truncate_to_seconds_id by done.
rewrite !Z.eqb_refl. cbn.
destruct (t0 =? t1) eqn:E; bool_prop; [subst; by rewrite Z.sub_diag, growth_0|].
pose proof (growth_nonneg g Hg (t1 - t0) near ltac:(lia) Hn) as Hpos.
pose proof (growth_product_exact g (t1 - t0) near (aligned_sub _ _ A1 A0)) as Hm.
unfold growth in *. destruct Hg as [Hd _]. destruct g as [c]; cbn in *.
unfold u64_sub. rewrite checked_op_Ok by lia. cbn. unfold u384_mul, as_u128.
rewrite Hd in *. rewrite Hm. cbn [Z.eqb]. rewrite checked_op_Ok by lia. done.
Qed.

Lemma update_inv b t0 t1 b' :
VenearBalance.update b t0 t1 g = Ok b' ->
b' = grow g (t1 - t0) b /\ aligned t0 /\ aligned t1 /\ t0 <= t1 /\
0 <= extra_venear_balance b' <= U128_MAX.
Proof.
unfold VenearBalance.update. intros H. res_inv.
apply calculate_inv in E as (-> & ? & ? & ?).
apply near_add_inv in E0 as [-> ?]. done.
Qed.

Lemma update_ok b t0 t1 :
aligned t0 -> aligned t1 -> 0 <= t0 <= t1 -> t1 <= U64_MAX ->
balance_ok b -> balance_ok (grow g (t1 - t0) b) ->
VenearBalance.update b t0 t1 g = Ok (grow g (t1 - t0) b).
Proof.
intros A0 A1 H01 H1 [Hn He] [_ He']. cbn in He'. unfold VenearBalance.update.
rewrite calculate_ok by (done || lia). cbn. rewrite near_add_ok by lia. done.
Qed.

Lemma pool_update_inv p t0 t1 p' :
Pool.update p t0 t1 g = Ok p' ->
p' = Pooled (grow g (t1 - t0) (pool p)) /\
0 <= extra_venear_balance (pool p') <= U128_MAX.
Proof.
unfold Pool.update. intros H. res_inv. apply update_inv in E as (-> & _ & _ & _ & ?). done.
Qed.

Lemma pool_update_ok p t0 t1 :
aligned t0 -> aligned t1 -> 0 <= t0 <= t1 -> t1 <= U64_MAX ->
balance_ok (pool p) -> balance_ok (grow g (t1 - t0) (pool p)) ->
Pool.update p t0 t1 g = Ok (Pooled (grow g (t1 - t0) (pool p))).
Proof. intros. unfold Pool.update. rewrite update_ok by done. done. Qed.
End code.

Lemma pooled_add_inv p b p' :
  Pool.pooled_add p b = Ok p' -> p' = Pooled (badd (pool p) (pooled_form b)) /\ balance_ok (pool p').
Proof.
  unfold Pool.pooled_add. intros H. res_inv.
  amt_inv. done.
Qed.

Lemma pooled_sub_inv p b p' :
  Pool.pooled_sub p b = Ok p' -> p' = Pooled (bsub (pool p) (pooled_form b)) /\ balance_ok (pool p').
Proof.
  unfold Pool.pooled_sub. intros H. res_inv.
  amt_inv. done.
Qed.

Lemma pooled_add_delegation_inv p b x p' : bps_ok x -> balance_ok b ->
  Pool.pooled_add_delegation p b x = Ok p' ->
  p' = Pooled (badd (pool p) (contrib x b)) /\ balance_ok (pool p').
Proof.
  intros Hx Hb. unfold Pool.pooled_add_delegation. intros H. res_inv.
  apply contribution_inv in E as ->; [|done..]. apply add_inv in E0 as [-> ?]. done.
Qed.

Lemma pooled_sub_delegation_inv p b x p' : bps_ok x -> balance_ok b ->
  Pool.pooled_sub_delegation p b x = Ok p' ->
  p' = Pooled (bsub (pool p) (contrib x b)) /\ balance_ok (pool p').
Proof.
  intros Hx Hb. unfold Pool.pooled_sub_delegation. intros H. res_inv.
  apply contribution_inv in E as ->; [|done..]. apply sub_inv in E0 as [-> ?]. done.
Qed.

(** ** Accounts *)

(** The account brought to the (truncated) time [t]. *)
Definition acc_at (g : VenearGrowthConfig) (t : Z) (a : Account) : Account :=
  let p := t - update_timestamp a in
  mkAccount (account_id a) t (grow g p (balance a)) (Pooled (grow g p (pool (delegated_balance a))))
    (delegations a).

(** The voting power an account owns: its pool plus what it keeps. *)
Definition owned (a : Account) : Z :=
  bsum (pool (delegated_balance a)) + bsum (balance a)
  - contrib_near_sum (balance a) (delegations a) - contrib_extra_sum (balance a) (delegations a).

Lemma account_update_inv g a now a' : rate_ok g ->
  Account.update a now g = Ok a' ->
  a' = acc_at g (truncate_to_seconds now) a /\ aligned (update_timestamp a) /\
  update_timestamp a <= truncate_to_seconds now /\
  0 <= extra_venear_balance (balance a') <= U128_MAX /\
  0 <= extra_venear_balance (pool (delegated_balance a')) <= U128_MAX.
Proof.
  intros Hg. unfold Account.update. intros H. res_inv. bool_prop.
  apply update_inv in E0 as (-> & ? & ? & ? & ?); [|done].
  apply pool_update_inv in E1 as [-> ?]; [|done]. done.
Qed.

Lemma account_update_ok g a now : rate_ok g ->
  aligned (update_timestamp a) -> 0 <= update_timestamp a <= truncate_to_seconds now ->
  0 <= now <= U64_MAX ->
  balance_ok (balance a) -> balance_ok (pool (delegated_balance a)) ->
  balance_ok (balance (acc_at g (truncate_to_seconds now) a)) ->
  balance_ok (pool (delegated_balance (acc_at g (truncate_to_seconds now) a))) ->
  Account.update a now g = Ok (acc_at g (truncate_to_seconds now) a).
Proof.
  intros Hg Ha Ht Hn Hb Hd Hb' Hd'. unfold Account.update.
  pose proof (truncate_to_seconds_le now ltac:(lia)).
  pose proof (truncate_to_seconds_aligned now).
  rewrite (proj2 (Z.leb_le _ _)) by lia. cbn [mbind result_bind require].
  rewrite update_ok by (done || lia). cbn [mbind result_bind].
  rewrite pool_update_ok by (done || lia). done.
Qed.

Lemma retained_inv own acc ds r :
  Forall (fun d => bps_ok (bps d)) ds -> balance_ok own -> balance_ok acc ->
  Account.retained own acc ds = Ok r ->
  near_balance r = near_balance acc - contrib_near_sum own ds /\
  extra_venear_balance r = extra_venear_balance acc - contrib_extra_sum own ds /\
  balance_ok r.
Proof.
  intros Hds Hown. revert acc. induction ds as [|d ds IH]; intros acc Hacc H; cbn in H.
  - res_inv. unfold contrib_near_sum, contrib_extra_sum; cbn. split_and!; [lia | lia | done].
  - inversion_clear Hds as [|? ? Hd Hds']. res_inv.
    apply contribution_inv in E as ->; [|done..]. apply sub_inv in E0 as [-> Hok].
    apply IH in H as (Hn & He & Hr); [|done..].
    unfold contrib_near_sum, contrib_extra_sum in *. rewrite !list_sum_Z_cons.
    cbn in Hn, He |- *. split_and!; [lia | lia | done].
Qed.

Lemma retained_ok own acc ds :
  Forall (fun d => bps_ok (bps d)) ds -> balance_ok own ->
  near_balance own * Bps.MAX_RAW <= U128_MAX -> balance_ok acc ->
  contrib_near_sum own ds <= near_balance acc ->
  contrib_extra_sum own ds <= extra_venear_balance acc ->
  exists r, Account.retained own acc ds = Ok r.
Proof.
  intros Hds Hown Hmax. revert acc. induction ds as [|d ds IH]; intros acc Hacc Hn He; cbn.
  - eauto.
  - inversion_clear Hds as [|? ? Hd Hds'].
    rewrite contribution_ok by done. cbn [mbind result_bind].
    unfold contrib_near_sum, contrib_extra_sum in Hn, He. rewrite list_sum_Z_cons in Hn, He.
    pose proof (contrib_bounds (bps d) own Hd ltac:(apply Hown) ltac:(apply Hown)) as Hc.
    assert (0 <= contrib_near_sum own ds /\ 0 <= contrib_extra_sum own ds) as [P1 P2].
    { rewrite Forall_forall in Hds'. split; apply list_sum_Z_nonneg; intros d' Hd';
        pose proof (contrib_bounds (bps d') own (Hds' d' Hd') ltac:(apply Hown) ltac:(apply Hown)); lia. }
    unfold contrib_near_sum, contrib_extra_sum in P1, P2.
    destruct Hacc as [A1 A2].
    rewrite sub_ok by (split; cbn -[contrib]; lia). cbn [mbind result_bind].
    apply IH; [done | split; cbn -[contrib]; lia | | ];
      unfold contrib_near_sum, contrib_extra_sum; cbn -[contrib]; lia.
Qed.

Lemma owned_total_inv a r :
  Forall (fun d => bps_ok (bps d)) (delegations a) -> balance_ok (balance a) ->
  Account.owned_total a = Ok r -> r = owned a /\ 0 <= r <= U128_MAX.
Proof.
  intros Hds Hb. unfold Account.owned_total. intros H. res_inv.
  apply retained_inv in E as (Hn & He & _); [|done..].
  apply total_inv in E0 as [-> _], E1 as [-> _]. amt_inv. split; [|done].
  unfold owned, bsum in *. lia.
Qed.

Lemma owned_nonneg a : delegations_ok (delegations a) -> balance_ok (balance a) ->
  balance_ok (pool (delegated_balance a)) ->
  bsum (pool (delegated_balance a)) <= owned a <= bsum (pool (delegated_balance a)) + bsum (balance a).
Proof.
  intros Hds [Hn He] [Hpn Hpe].
  pose proof (contrib_sums_bounded (balance a) (delegations a) Hds ltac:(lia) ltac:(lia)).
  unfold owned, bsum in *. lia.
Qed.

Lemma owned_total_ok a : delegations_ok (delegations a) -> balance_ok (balance a) ->
  near_balance (balance a) * Bps.MAX_RAW <= U128_MAX ->
  balance_ok (pool (delegated_balance a)) -> bsum (pool (delegated_balance a)) + bsum (balance a) <= U128_MAX ->
  Account.owned_total a = Ok (owned a).
Proof.
  intros Hds Hb Hmax Hp Hsum.
  pose proof (owned_nonneg a Hds Hb Hp) as Ho.
  pose proof (contrib_sums_bounded (balance a) (delegations a) Hds ltac:(apply Hb) ltac:(apply Hb)) as Hc.
  destruct (retained_ok (balance a) (balance a) (delegations a)) as [r Hr];
    [apply Hds | done.. | lia | lia |].
  pose proof (retained_inv _ _ _ _ (proj1 Hds) Hb Hb Hr) as (Hn & He & Hrok).
  assert (bsum r = owned a - bsum (pool (delegated_balance a))) as Hbr
    by (unfold owned, bsum in *; lia).
  destruct Hp as [Hp1 Hp2]. destruct Hrok as [Hr1 Hr2].
  unfold Account.owned_total. rewrite Hr. cbn [mbind result_bind].
  unfold Pool.total. rewrite total_ok by (unfold bsum in *; lia). cbn [mbind result_bind].
  rewrite total_ok by (unfold bsum in *; lia). cbn [mbind result_bind].
  rewrite near_add_ok by (unfold bsum in *; lia). f_equal. lia.
Qed.

(** ** Properties *)

(** The share of a balance credited to a delegate's pool and grown over
    any period equals, to the yoctoNEAR, the share recomputed from the owner's
    balance after the same growth; and whenever the owner's own update
    succeeds, both computations succeed. *)
Theorem delegation_growth_exact g b x t0 t1 c b' :
  rate_ok g -> bps_ok x -> balance_ok b ->
  VenearBalance.delegation_contribution b x = Ok c ->
  VenearBalance.update b t0 t1 g = Ok b' ->
  0 <= t0 -> t1 <= U64_MAX ->
  exists c', VenearBalance.update c t0 t1 g = Ok c' /\
             VenearBalance.delegation_contribution b' x = Ok c'.
Proof.
  intros Hg Hx Hb Hc Hu Ht0 Ht1.
  pose proof (contribution_inv b x c Hx Hb Hc) as ->.
  apply update_inv in Hu as (-> & A0 & A1 & Hle & He); [|done].
  assert (balance_ok (grow g (t1 - t0) b)) as Hb' by (split; [apply Hb | exact He]).
  pose proof (contrib_grow g (t1 - t0) x b Hg (aligned_sub _ _ A1 A0) Hx ltac:(apply Hb)) as Heq.
  exists (contrib x (grow g (t1 - t0) b)). split.
  - rewrite Heq. apply update_ok; try done; [by apply contrib_ok|].
    rewrite <- Heq. by apply contrib_ok.
  - pose proof (contrib_ok x _ Hx Hb') as [_ Hce].
    unfold VenearBalance.delegation_contribution in Hc |- *. cbn [near_balance grow] in *.
    destruct (_ =? 0) eqn:E; bool_prop.
    + f_equal. symmetry. apply balance_eq; cbn; pose proof (share_bounds x (near_balance b) Hx ltac:(apply Hb));
        [lia|]. rewrite E, Z.div_0_r. done.
    + apply bind_Ok_inv in Hc as (sh & Hs & Hc). rewrite Hs. cbn [mbind result_bind].
      apply bps_mul_inv in Hs as ->; [|done]. unfold as_u128. rewrite checked_op_Ok; [done|].
      exact Hce.
Qed.

(** Crediting a pool with a delegation, letting the pool and the owner
    grow over the same period and then removing the delegation computed from
    the grown owner gives back exactly the pool grown on its own: a partial
    delegation can always be cleared, with nothing lost or left behind. *)
Theorem pool_add_grow_sub_identity g p b x t0 t1 p1 p1' b' p' :
  rate_ok g -> bps_ok x -> balance_ok b -> balance_ok (pool p) ->
  truncate_near_to_millis (near_balance (pool p)) = near_balance (pool p) ->
  Pool.pooled_add_delegation p b x = Ok p1 ->
  Pool.update p1 t0 t1 g = Ok p1' ->
  VenearBalance.update b t0 t1 g = Ok b' ->
  Pool.update p t0 t1 g = Ok p' ->
  0 <= t0 -> t1 <= U64_MAX ->
  Pool.pooled_sub_delegation p1' b' x = Ok p'.
Proof.
  intros Hg Hx Hb Hp Hal Hadd Hu1 Hub Hu H0 H1.
  pose proof Hadd as Hadd'. unfold Pool.pooled_add_delegation in Hadd'.
  apply bind_Ok_inv in Hadd' as (c & Hc & _).
  destruct (delegation_growth_exact g b x t0 t1 c b') as (c' & Hc' & Hd); [done..|].
  pose proof (contribution_inv b x c Hx Hb Hc) as ->.
  apply pooled_add_delegation_inv in Hadd as [-> _]; [|done..].
  pose proof (update_inv g Hg b t0 t1 b' Hub) as (_ & A0 & A1 & Hle & _).
  apply update_inv in Hc' as (-> & _); [|done].
  apply pool_update_inv in Hu1 as [-> Hu1]; [|done].
  apply pool_update_inv in Hu as [-> Hu]; [|done].
  unfold Pool.pooled_sub_delegation. rewrite Hd. cbn [mbind result_bind].
  pose proof (aligned_sub _ _ A1 A0) as Ap.
  assert (growth g (t1 - t0) (near_balance (pool p) + share x (near_balance b)) =
          growth g (t1 - t0) (near_balance (pool p)) + growth g (t1 - t0) (share x (near_balance b))) as Hlin.
  { apply growth_linear; [done..|]. rewrite Hal, share_truncated. unfold share.
    destruct (truncate_near_mult (near_balance b * x / Bps.MAX_RAW)) as [k Hk]. rewrite Hk.
    destruct (truncate_near_mult (near_balance (pool p))) as [k' Hk']. rewrite Hal in Hk'. rewrite Hk'.
    unfold truncate_near_to_millis. rewrite <- Z.mul_add_distr_r, Z.div_mul; [done|].
    by vm_compute. }
  assert (bsub (grow g (t1 - t0) (badd (pool p) (contrib x b))) (grow g (t1 - t0) (contrib x b))
          = grow g (t1 - t0) (pool p)) as Hback.
  { apply balance_eq; cbn; [lia|]. rewrite Hlin. lia. }
  cbn [pool]. rewrite sub_ok; cbn [mbind result_bind]; rewrite Hback; [done|].
  split; [apply Hp | exact Hu].
Qed.
