(* ===== verification/MerkleTree.v ===== *)
(** * The persistent Merkle tree (merkle-tree/src/lib.rs)

    The tree keeps the values of accounts in insertion order, the hashes of
    all inner nodes, a global state, and the snapshot of the end of the last
    block that changed it. SHA-256 and Borsh are not code of the repository:
    they enter as operational classes, and what soundness needs of them (a
    digest has 32 bytes, serialisation is injective) as law classes. *)
From stdpp Require Import base gmap strings list.
From Stdlib Require Import ZArith Lia.
From S2P Require Import Prelude.
From S2P Require Import Near.

Local Open Scope Z_scope.

Abbreviation bytes := (list Z) (only parsing).

Class Crypto : Type := sha256 : bytes -> bytes.
Class Borsh (V : Type) : Type := borsh_to_vec : V -> bytes.

Class CryptoLaws (C : Crypto) : Prop := sha256_length : forall x, length (sha256 x) = 32%nat.
Class BorshLaws (V : Type) (B : Borsh V) : Prop :=
  borsh_inj : forall v w : V, borsh_to_vec v = borsh_to_vec w -> v = w.

(** [CryptoHash::default()], the hash of a leaf or node that does not exist. *)
Definition default_hash : bytes := replicate 32 0.

Record MerkleTreeSnapshot : Type := mkSnapshot {
  snap_root : bytes;
  snap_length : Z;
  snap_block_height : Z
}.

Record MerkleProof : Type := mkProof { proof_index : Z; proof_path : list bytes }.

Record MerkleTree (V G : Type) : Type := mkTree {
  root : bytes;
  tree_length : Z;
  hashes : gmap (Z * Z) bytes;
  data : gmap Z V;
  accounts : gmap AccountId Z;
  global_state : G;
  previous_snapshot : option (MerkleTreeSnapshot * G);
  last_block_height : Z
}.
Arguments mkTree {V G}.
Arguments root {V G}. Arguments tree_length {V G}. Arguments hashes {V G}.
Arguments data {V G}. Arguments accounts {V G}. Arguments global_state {V G}.
Arguments previous_snapshot {V G}. Arguments last_block_height {V G}.

(** [u32::leading_zeros] and [<<] on [u32]. *)
Definition leading_zeros (x : Z) : Z := if x =? 0 then 32 else 31 - Z.log2 x.
Definition u32_shl (x k : Z) : Z := Z.land (Z.shiftl x k) U32_MAX.

Definition height_of_length (len : Z) : Z := 33 - leading_zeros (len - 1).

(** [get_hash]: [internal_get_hash] on the map of hashes. *)
Definition internal_get_hash (hs : gmap (Z * Z) bytes) (height index : Z) : bytes :=
  default default_hash (hs !! (height, index)).

Section tree.
Context {V G : Type} `{HC : Crypto} `{HB : Borsh V}.
Implicit Types t : MerkleTree V G.

Definition new (block_height : Z) (gs : G) : MerkleTree V G :=
mkTree default_hash 0 ∅ ∅ ∅ gs None block_height.

Definition internal_pre_update (block_height : Z) t : MerkleTree V G :=
if last_block_height t =? block_height then t
else mkTree (root t) (tree_length t) (hashes t) (data t) (accounts t) (global_state t)
(Some (mkSnapshot (root t) (tree_length t) (last_block_height t), global_state t))
block_height.

Definition internal_hash_value (d : gmap Z V) (index : Z) : bytes :=
match d !! index with
| Some v => sha256 (borsh_to_vec v)
| None => default_hash
end.

Definition tree_height t : Z :=
if tree_length t =? 0 then 0 else height_of_length (tree_length t).

(** The loop of [internal_post_update] from [height], [n] levels to go. *)
Fixpoint update_path (n : nat) (height index : Z) (hs : gmap (Z * Z) bytes) : gmap (Z * Z) bytes :=
match n with
| O => hs
| S n' =>
let height_index := Z.shiftr index height in
let left_hash := internal_get_hash hs (height - 1) (u32_shl height_index 1) in
let right_hash := internal_get_hash hs (height - 1) (u32_shl height_index 1 + 1) in
update_path n' (height + 1) index
(<[(height, height_index) := sha256 (left_hash ++ right_hash)]> hs)
end.

Definition internal_post_update (index : Z) t : MerkleTree V G :=
let hs0 := <[(0, index) := internal_hash_value (data t) index]> (hashes t) in
let hs := update_path (Z.to_nat (tree_height t - 1)) 1 index hs0 in
mkTree (internal_get_hash hs (tree_height t - 1) 0) (tree_length t) hs (data t) (accounts t)
(global_state t) (previous_snapshot t) (last_block_height t).

Definition get_snapshot (block_height : Z) t : option (MerkleTreeSnapshot * G) :=
if last_block_height t =? block_height then previous_snapshot t
else Some (mkSnapshot (root t) (tree_length t) (last_block_height t), global_state t).

Definition set_global_state (block_height : Z) (gs : G) t : MerkleTree V G :=
let t := internal_pre_update block_height t in
mkTree (root t) (tree_length t) (hashes t) (data t) (accounts t) gs (previous_snapshot t)
(last_block_height t).

Definition get (a : AccountId) t : option V :=
match accounts t !! a with
| Some index => data t !! index
| None => None
end.

(** [set] returns the old value; adding an account to a full tree overflows
the [u32] length. *)
Definition set (block_height : Z) (a : AccountId) (new_value : V) t
: result (option V * MerkleTree V G) :=
let t := internal_pre_update block_height t in
'(index, len, accs) ←
match accounts t !! a with
| Some index => mret (index, tree_length t, accounts t)
| None =>
len ← u32_add (tree_length t) 1;
mret (tree_length t, len, <[a := tree_length t]> (accounts t))
end;
let old_value := data t !! index in
let t := mkTree (root t) len (hashes t) (<[index := new_value]> (data t)) accs
 (global_state t) (previous_snapshot t) (last_block_height t) in
mret (old_value, internal_post_update index t).

(** The loop of [get_proof]. *)
Fixpoint proof_from (n : nat) (height index : Z) (hs : gmap (Z * Z) bytes) : list bytes :=
match n with
| O => []
| S n' =>
let height_index := Z.shiftr index height in
let sibling_index := Z.lxor height_index 1 in
internal_get_hash hs height sibling_index :: proof_from n' (height + 1) index hs
end.

Definition get_proof (a : AccountId) t : result (option (MerkleProof * V)) :=
match accounts t !! a with
| None => mret None
| Some index =>
levels ← checked_op U8_MAX (tree_height t - 1) "attempt to subtract with overflow";
v ← expect (data t !! index) "called `Option::unwrap()` on a `None` value";
mret (Some (mkProof index (proof_from (Z.to_nat levels) 0 index (hashes t)), v))
end.

Definition get_by_index (index : Z) t : option V := data t !! index.

(** The body of the inner loop of [remerkalize]. *)
Definition rehash (height : Z) (hs : gmap (Z * Z) bytes) (i : Z) : gmap (Z * Z) bytes :=
let left_hash := internal_get_hash hs (height - 1) (u32_shl i 1) in
let right_hash := internal_get_hash hs (height - 1) (u32_shl i 1 + 1) in
<[(height, i) := sha256 (left_hash ++ right_hash)]> hs.

Definition remerkalize t : result (MerkleTree V G) :=
let hs := foldl (fun hs i => <[(0, i) := internal_hash_value (data t) i]> hs) (hashes t) (seqZ 0 (tree_length t)) in
let hs := foldl (fun hs height => foldl (rehash height) hs (seqZ 0 (u32_shl 1 (height - 1)))) hs
          (seqZ 1 (tree_height t - 1)) in
top ← checked_op U8_MAX (tree_height t - 1) "attempt to subtract with overflow";
mret (mkTree (internal_get_hash hs top 0) (tree_length t) hs (data t) (accounts t)
 (global_state t) (previous_snapshot t) (last_block_height t)).

(** The loop of [is_valid] over the path, from [height]. *)
Fixpoint fold_path (index height : Z) (hash : bytes) (path : list bytes) : bytes :=
match path with
| [] => hash
| sibling_hash :: path' =>
let height_index := Z.shiftr index height in
let concat := if Z.land height_index 1 =? 0 then hash ++ sibling_hash
        else sibling_hash ++ hash in
fold_path index (height + 1) (sha256 concat) path'
end.

Definition is_valid (p : MerkleProof) (rt : bytes) (len : Z) (value : V) : bool :=
if len <=? proof_index p then false
else if negb (Z.of_nat (length (proof_path p)) + 1 =? height_of_length len) then false
else bool_decide (fold_path (proof_index p) 0 (sha256 (borsh_to_vec value)) (proof_path p) = rt).
End tree.
