(* ===== verification/MerkleFacts.v ===== *)
(** * Correctness of the Merkle tree

    [node] is the reference definition of every inner hash as a function of
    the leaves. The invariant [wf] says that the stored hashes are the
    reference ones; every operation keeps it. From it follow: the root depends
    on the stored values only, a proof from [get_proof] is accepted, an
    accepted proof is of the stored value unless it exhibits a SHA-256
    collision, and snapshots are stable within a block. *)
From stdpp Require Import base gmap strings list.
From Stdlib Require Import ZArith Lia Zbitwise.
From S2P Require Import Prelude.
From S2P Require Import Near.
From S2P Require Import MerkleTree.

Local Open Scope Z_scope.

(** ** Heights and shifts *)
Lemma height_bounds len : 1 <= len <= U32_MAX ->
  1 <= height_of_length len <= 33 /\ len <= 2 ^ (height_of_length len - 1) /\
  (2 <= height_of_length len -> 2 ^ (height_of_length len - 2) < len).
Proof.
  intros Hl. unfold height_of_length, leading_zeros.
  destruct (len - 1 =? 0) eqn:E; bool_prop.
  - replace len with 1 by lia. cbn. lia.
  - pose proof (Z.log2_spec (len - 1) ltac:(lia)) as [H1 H2].
    pose proof (Z.log2_nonneg (len - 1)).
    assert (Z.log2 (len - 1) < 32).
    { apply Z.log2_lt_pow2; [lia|]. unfold U32_MAX in Hl. lia. }
    replace (33 - (31 - Z.log2 (len - 1)) - 1) with (Z.succ (Z.log2 (len - 1))) by lia.
    replace (33 - (31 - Z.log2 (len - 1)) - 2) with (Z.log2 (len - 1)) by lia. lia.
Qed.

Lemma height_mono len : 1 <= len -> len + 1 <= U32_MAX ->
  height_of_length len <= height_of_length (len + 1) <= height_of_length len + 1.
Proof.
  intros H1 H2.
  pose proof (height_bounds len ltac:(lia)) as (A1 & A2 & A3).
  pose proof (height_bounds (len + 1) ltac:(lia)) as (B1 & B2 & B3).
  set (h := height_of_length len) in *. set (h' := height_of_length (len + 1)) in *.
  split.
  - destruct (Z.le_gt_cases h h'); [done|]. exfalso.
    pose proof (A3 ltac:(lia)). pose proof (Z.pow_le_mono_r 2 (h' - 1) (h - 2) ltac:(lia) ltac:(lia)). lia.
  - destruct (Z.le_gt_cases h' (h + 1)); [done|]. exfalso.
    pose proof (B3 ltac:(lia)).
    pose proof (Z.pow_le_mono_r 2 h (h' - 2) ltac:(lia) ltac:(lia)).
    assert (2 ^ h = 2 * 2 ^ (h - 1)) by (rewrite <- Z.pow_succ_r by lia; f_equal; lia). lia.
Qed.

Lemma u32_shl_1 x : 0 <= x < 2 ^ 31 -> u32_shl x 1 = 2 * x.
Proof.
  intros Hx. unfold u32_shl. change U32_MAX with (Z.ones 32).
  rewrite Z.land_ones by lia. rewrite Z.shiftl_mul_pow2 by lia.
  rewrite Z.mod_small; lia.
Qed.

Lemma shiftr_half_bound index h : 0 <= index <= U32_MAX -> 1 <= h -> 0 <= Z.shiftr index h < 2 ^ 31.
Proof.
  unfold U32_MAX. intros Hi Hh. rewrite Z.shiftr_div_pow2 by lia.
  pose proof (Z.pow_le_mono_r 2 1 h ltac:(lia) Hh).
  split; [apply Z.div_pos; lia|]. apply Z.div_lt_upper_bound; nia.
Qed.

Lemma shiftr_mul_le index h : 0 <= index -> 0 <= h ->
  Z.shiftr index h * 2 ^ h <= index < (Z.shiftr index h + 1) * 2 ^ h.
Proof.
  intros Hi Hh. rewrite Z.shiftr_div_pow2 by lia.
  pose proof (Z.pow_pos_nonneg 2 h ltac:(lia) Hh).
  pose proof (Z.mul_div_le index (2 ^ h) ltac:(lia)).
  pose proof (Z.mul_succ_div_gt index (2 ^ h) ltac:(lia)). lia.
Qed.

Lemma shiftr_unique index h i : 0 <= index -> 0 <= h ->
  i * 2 ^ h <= index < (i + 1) * 2 ^ h -> i = Z.shiftr index h.
Proof.
  intros Hi Hh Hb. pose proof (shiftr_mul_le index h Hi Hh).
  pose proof (Z.pow_pos_nonneg 2 h ltac:(lia) Hh). nia.
Qed.

Lemma shiftr_child index h : 0 <= index -> 0 <= h ->
  Z.shiftr index h = 2 * Z.shiftr index (h + 1) \/ Z.shiftr index h = 2 * Z.shiftr index (h + 1) + 1.
Proof.
  intros Hi Hh. rewrite <- Z.shiftr_shiftr by lia. rewrite (Z.shiftr_div_pow2 _ 1) by lia.
  pose proof (Z.div_mod (Z.shiftr index h) 2 ltac:(lia)).
  pose proof (Z.mod_pos_bound (Z.shiftr index h) 2 ltac:(lia)). change (2 ^ 1) with 2. lia.
Qed.

Lemma land_1_even k : Z.land (2 * k) 1 = 0.
Proof. change 1 with (Z.ones 1). rewrite Z.land_ones by lia. change (2 ^ 1) with 2.
  rewrite Z.mul_comm. apply Z.mod_mul. lia. Qed.
Lemma land_1_odd k : Z.land (2 * k + 1) 1 = 1.
Proof. change (Z.land (2 * k + 1) 1) with (Z.land (2 * k + 1) (Z.ones 1)). rewrite Z.land_ones by lia.
  change (2 ^ 1) with 2. rewrite Z.add_comm, Z.mul_comm, Z.mod_add by lia. done. Qed.

Lemma lxor_1_even k : 0 <= k -> Z.lxor (2 * k) 1 = 2 * k + 1.
Proof. intros Hk. destruct k; [done..|lia]. Qed.
Lemma lxor_1_odd k : 0 <= k -> Z.lxor (2 * k + 1) 1 = 2 * k.
Proof.
  intros Hk. rewrite <- lxor_1_even by done.
  rewrite Z.lxor_assoc, Z.lxor_nilpotent, Z.lxor_0_r. done.
Qed.

(** ** The reference hashes *)
Section node.
Context `{HC : Crypto}.

(** [node len leaf h i]: the hash of the subtree of height [h] at position
[i] of a tree of [len] leaves; a subtree without leaves has the default
hash. *)
Fixpoint node (len : Z) (leaf : Z -> bytes) (h : nat) (i : Z) : bytes :=
if len <=? i * 2 ^ Z.of_nat h then default_hash
else match h with
| O => leaf i
| S h' => sha256 (node len leaf h' (2 * i) ++ node len leaf h' (2 * i + 1))
end.

Lemma node_out len leaf h i : len <= i * 2 ^ Z.of_nat h -> node len leaf h i = default_hash.
Proof. intros H. destruct h; cbn [node]; rewrite (proj2 (Z.leb_le _ _)); done. Qed.

Lemma node_S len leaf h i : i * 2 ^ Z.of_nat (S h) < len ->
node len leaf (S h) i = sha256 (node len leaf h (2 * i) ++ node len leaf h (2 * i + 1)).
Proof. intros H. cbn [node]. rewrite (proj2 (Z.leb_gt _ _)); done. Qed.

Lemma node_0 len leaf i : i < len -> node len leaf 0 i = leaf i.
Proof. intros H. cbn [node]. rewrite (proj2 (Z.leb_gt _ _)); [done|]. cbn. lia. Qed.

(** Two trees agree on a subtree when they agree on its leaves. *)
Lemma node_agree len leaf len' leaf' h i :
(forall j, i * 2 ^ Z.of_nat h <= j < (i + 1) * 2 ^ Z.of_nat h -> (j < len <-> j < len')) ->
(forall j, i * 2 ^ Z.of_nat h <= j < (i + 1) * 2 ^ Z.of_nat h -> j < len -> leaf j = leaf' j) ->
node len leaf h i = node len' leaf' h i.
Proof.
revert i. induction h as [|h IH]; intros i Hlen Hleaf.
- cbn [node]. change (2 ^ Z.of_nat 0) with 1 in *. rewrite Z.mul_1_r in *.
pose proof (Hlen i ltac:(lia)). pose proof (Hleaf i ltac:(lia)).
destruct (len <=? i) eqn:E, (len' <=? i) eqn:E'; bool_prop; try lia; auto with lia.
- pose proof (Z.pow_pos_nonneg 2 (Z.of_nat h) ltac:(lia) ltac:(lia)) as Hpow.
assert (2 ^ Z.of_nat (S h) = 2 * 2 ^ Z.of_nat h) as HS
by (rewrite Nat2Z.inj_succ, Z.pow_succ_r; lia).
destruct (Z.le_gt_cases len (i * 2 ^ Z.of_nat (S h))) as [Hout|Hin].
+ rewrite !node_out; [done | | done].
rewrite HS in *. pose proof (Hlen (i * (2 * 2 ^ Z.of_nat h)) ltac:(nia)). nia.
+ assert (i * 2 ^ Z.of_nat (S h) < len') as Hin'.
{ rewrite HS in *. apply Hlen; nia. }
rewrite !node_S by done. f_equal.
rewrite (IH (2 * i)), (IH (2 * i + 1)); [done|..]; rewrite HS in *;
intros j Hj; (apply Hlen || apply Hleaf); nia.
Qed.
End node.

(** ** The invariant *)
Section wf.
Context {V G : Type} `{HC : Crypto} `{HB : Borsh V}.
Implicit Types t : MerkleTree V G.

Definition leaf_of (d : gmap Z V) : Z -> bytes := internal_hash_value d.

(** The stored hashes are the reference hashes, level by level. *)
Definition hashes_ok (hs : gmap (Z * Z) bytes) (len : Z) (leaf : Z -> bytes) (lo hi : Z) : Prop :=
forall (h : nat) i, lo <= Z.of_nat h < hi -> 0 <= i ->
internal_get_hash hs (Z.of_nat h) i = node len leaf h i.

Record wf t : Prop := mkWf {
wf_length : 0 <= tree_length t <= U32_MAX;
wf_accounts : forall a i, accounts t !! a = Some i -> 0 <= i < tree_length t;
wf_inj : forall a b i, accounts t !! a = Some i -> accounts t !! b = Some i -> a = b;
wf_onto : forall i, 0 <= i < tree_length t -> exists a, accounts t !! a = Some i;
wf_data : forall i, is_Some (data t !! i) <-> 0 <= i < tree_length t;
wf_hashes : hashes_ok (hashes t) (tree_length t) (leaf_of (data t)) 0 (tree_height t);
wf_absent : forall h i, tree_height t <= h -> hashes t !! (h, i) = None;
wf_root : root t = if tree_length t =? 0 then default_hash
         else node (tree_length t) (leaf_of (data t)) (Z.to_nat (tree_height t - 1)) 0
}.

Lemma wf_new bh gs : wf (new bh gs : MerkleTree V G).
Proof.
split; try (cbn; done).
- intros i Hi. cbn in Hi. lia.
- intros i. split; [by intros [? ?] | cbn; lia].
- intros h i Hh. unfold tree_height in Hh. cbn in Hh. lia.
Qed.

Lemma wf_pre_update bh t : wf t -> wf (internal_pre_update bh t).
Proof.
intros [H1 H2 H3 H4 H5 H6 H7 H8]. unfold internal_pre_update.
destruct (last_block_height t =? bh); split; assumption.
Qed.

Lemma wf_set_global_state bh gs t : wf t -> wf (set_global_state bh gs t).
Proof.
intros Hwf. apply (wf_pre_update bh) in Hwf as [H1 H2 H3 H4 H5 H6 H7 H8].
split; assumption.
Qed.

Lemma get_hash_insert hs h i x h' i' :
internal_get_hash (<[(h, i) := x]> hs) h' i' =
if decide (h = h' /\ i = i') then x else internal_get_hash hs h' i'.
Proof.
unfold internal_get_hash. destruct (decide (h = h' /\ i = i')) as [[-> ->]|Hne].
- by rewrite lookup_insert_eq.
- rewrite lookup_insert_ne; [done|]. intros [= -> ->]. naive_solver.
Qed.

(** One climb of [update_path] repairs every level on the path of [index]
when the levels below are right and the others are right off the path. *)
Lemma update_path_ok len leaf index n height hs :
0 <= index < len -> len <= U32_MAX -> 1 <= height ->
hashes_ok hs len leaf 0 height ->
(forall (h : nat) i, height <= Z.of_nat h < height + Z.of_nat n -> 0 <= i ->
i <> Z.shiftr index (Z.of_nat h) ->
internal_get_hash hs (Z.of_nat h) i = node len leaf h i) ->
hashes_ok (update_path n height index hs) len leaf 0 (height + Z.of_nat n).
Proof.
revert height hs. induction n as [|n IH]; intros height hs Hi Hlen Hh Hlow Hoff; cbn [update_path].
{ intros h i Hr. apply Hlow. lia. }
set (hi := Z.shiftr index height).
pose proof (shiftr_half_bound index height ltac:(lia) Hh) as Hb. fold hi in Hb.
rewrite u32_shl_1 by done.
replace (height + Z.of_nat (S n)) with (height + 1 + Z.of_nat n) by lia.
assert (internal_get_hash hs (height - 1) (2 * hi) = node len leaf (Z.to_nat (height - 1)) (2 * hi)) as ->.
{ rewrite <- (Hlow (Z.to_nat (height - 1)) (2 * hi)) by lia. f_equal. lia. }
assert (internal_get_hash hs (height - 1) (2 * hi + 1) =
node len leaf (Z.to_nat (height - 1)) (2 * hi + 1)) as ->.
{ rewrite <- (Hlow (Z.to_nat (height - 1)) (2 * hi + 1)) by lia. f_equal. lia. }
pose proof (shiftr_mul_le index height ltac:(lia) ltac:(lia)) as Hm. fold hi in Hm.
rewrite <- node_S by (rewrite Nat2Z.inj_succ, Z2Nat.id by lia;
            replace (Z.succ (height - 1)) with height by lia; lia).
apply IH; [done | done | lia | |].
- intros h i Hr Hi0. rewrite get_hash_insert. case_decide as Hd.
+ destruct Hd as [Heq <-]. f_equal. lia.
+ destruct (Z.eq_dec (Z.of_nat h) height) as [Heq|Hne].
* apply Hoff; [lia | done |]. rewrite Heq. intros ->. apply Hd. done.
* apply Hlow; lia.
- intros h i Hr Hi0 Hne. rewrite get_hash_insert. case_decide as Hd; [lia|].
apply Hoff; [lia | done | done].
Qed.

Lemma update_path_above index n height hs h i :
height + Z.of_nat n <= h -> update_path n height index hs !! (h, i) = hs !! (h, i).
Proof.
revert height hs. induction n as [|n IH]; intros height hs Hr; cbn [update_path]; [done|].
rewrite IH by lia. rewrite lookup_insert_ne; [done|]. intros [= ->]. lia.
Qed.

(** Changing the value at [index], or appending it, and re-hashing its path
gives back a well-formed tree. *)
Lemma hashes_ok_set hs len leaf len' leaf' index th th' :
0 <= index < len' -> len' <= U32_MAX -> 1 <= th' -> th <= th' <= th + 1 ->
len' <= 2 ^ (th' - 1) ->
hashes_ok hs len leaf 0 th ->
(forall h i, th <= h -> hs !! (h, i) = None) ->
(forall j, 0 <= j -> j <> index -> (j < len <-> j < len') /\ leaf j = leaf' j) ->
hashes_ok (update_path (Z.to_nat (th' - 1)) 1 index (<[(0, index) := leaf' index]> hs))
len' leaf' 0 th'.
Proof.
intros Hi Hlen Hth' Hth Hpow Hok Habs Hsame.
assert (forall (h : nat) i, Z.of_nat h < th' -> 0 <= i -> i <> Z.shiftr index (Z.of_nat h) ->
internal_get_hash hs (Z.of_nat h) i = node len' leaf' h i) as Hoff.
{ intros h i Hh Hi0 Hne.
assert (forall j, i * 2 ^ Z.of_nat h <= j < (i + 1) * 2 ^ Z.of_nat h -> 0 <= j /\ j <> index) as Hj.
{ pose proof (Z.pow_pos_nonneg 2 (Z.of_nat h) ltac:(lia) ltac:(lia)).
intros j Hj. split; [nia|]. intros ->. apply Hne, shiftr_unique; lia. }
destruct (Z.lt_ge_cases (Z.of_nat h) th) as [Hlt|Hge].
- rewrite Hok by lia. apply node_agree; intros j Hr; destruct (Hj j Hr) as [Hj0 Hj1];
by destruct (Hsame j Hj0 Hj1).
- unfold internal_get_hash. rewrite Habs by done. cbn. rewrite node_out; [done|].
replace (Z.of_nat h) with (th' - 1) in * by lia.
assert (1 <= i); [|nia]. enough (i <> 0) by lia. intros ->. apply Hne.
apply shiftr_unique; lia. }
replace th' with (1 + Z.of_nat (Z.to_nat (th' - 1))) at 2 by lia.
apply update_path_ok; [done | done | done | |].
- intros h i Hr Hi0. assert (h = 0%nat) as -> by lia. rewrite get_hash_insert.
case_decide as Hd.
+ destruct Hd as [_ <-]. rewrite node_0 by lia. done.
+ apply (Hoff 0%nat); [lia | done |]. cbn. rewrite Z.shiftr_0_r. naive_solver.
- intros h i Hr Hi0 Hne. rewrite get_hash_insert. case_decide; [lia|].
apply Hoff; [lia | done | done].
Qed.

Lemma leaf_of_insert d index v j :
leaf_of (<[index := v]> d) j =
if decide (index = j) then sha256 (borsh_to_vec v) else leaf_of d j.
Proof.
unfold leaf_of, internal_hash_value. case_decide as Hd.
- subst. by rewrite lookup_insert_eq.
- by rewrite lookup_insert_ne.
Qed.

(** The part of [set] after the index is chosen: the new value is stored at
an existing index or at the end, and its path is hashed again. *)
Lemma wf_store t index len accs v :
wf t -> 0 <= index < len -> len <= U32_MAX ->
(len = tree_length t /\ accs = accounts t \/
index = tree_length t /\ len = tree_length t + 1 /\
exists a, accounts t !! a = None /\ accs = <[a := index]> (accounts t)) ->
wf (internal_post_update index
(mkTree (root t) len (hashes t) (<[index := v]> (data t)) accs
(global_state t) (previous_snapshot t) (last_block_height t))).
Proof.
intros [H1 H2 H3 H4 H5 H6 H7 H8] Hi Hlen Hcase.
set (t' := mkTree (root t) len (hashes t) (<[index := v]> (data t)) accs
(global_state t) (previous_snapshot t) (last_block_height t)).
pose proof (height_bounds len ltac:(lia)) as (Hb1 & Hb2 & Hb3).
assert (tree_height t' = height_of_length len) as Hth'.
{ unfold tree_height; cbn. destruct (len =? 0) eqn:E; bool_prop; [lia | done]. }
assert (tree_height t <= tree_height t' <= tree_height t + 1) as Hth.
{ rewrite Hth'. unfold tree_height. destruct (tree_length t =? 0) eqn:E; bool_prop.
- destruct Hcase as [[? _]|(? & ? & _)]; [lia|]. assert (len = 1) as -> by lia.
cbn. lia.
- destruct Hcase as [[-> _]|(_ & -> & _)]; [lia|]. apply height_mono; lia. }
set (hs := update_path (Z.to_nat (tree_height t' - 1)) 1 index
   (<[(0, index) := leaf_of (data t') index]> (hashes t))).
assert (hashes_ok hs len (leaf_of (data t')) 0 (tree_height t')) as Hhs.
{ apply (hashes_ok_set (hashes t) (tree_length t) (leaf_of (data t)) len (leaf_of (data t'))
 index (tree_height t)); [done | done | lia | done | by rewrite Hth' | done | done |].
intros j Hj0 Hj. split; [destruct Hcase as [[-> _]|(-> & -> & _)]; lia|].
unfold t'; cbn [data]. rewrite leaf_of_insert. case_decide; congruence. }
split; cbn [internal_post_update tree_length accounts data hashes root t'].
- lia.
- intros a i Ha. destruct Hcase as [[-> ->]|(-> & -> & b & Hb & ->)]; [eauto|].
apply lookup_insert_Some in Ha as [[_ <-]|[_ Ha]]; [lia|]. apply H2 in Ha. lia.
- intros a b i Ha Hb. destruct Hcase as [[-> ->]|(-> & -> & c & Hc & ->)]; [eauto|].
apply lookup_insert_Some in Ha as [[<- <-]|[_ Ha]];
apply lookup_insert_Some in Hb as [[<- Hx]|[_ Hb]]; eauto.
+ apply H2 in Hb. lia.
+ apply H2 in Ha. lia.
- intros i Hr. destruct Hcase as [[-> ->]|(-> & -> & c & Hc & ->)]; [eauto|].
destruct (Z.eq_dec i (tree_length t)) as [->|Hne].
+ exists c. apply lookup_insert_eq.
+ destruct (H4 i ltac:(lia)) as [a Ha]. exists a. rewrite lookup_insert_ne; congruence.
- intros i. destruct (Z.eq_dec index i) as [->|Hne].
+ rewrite lookup_insert_eq. split; [lia | eauto].
+ rewrite lookup_insert_ne by done. rewrite H5.
destruct Hcase as [[-> _]|(-> & -> & _)]; lia.
- exact Hhs.
- intros h i Hh. change (tree_height t' <= h) in Hh.
change (hs !! (h, i) = None). unfold hs.
rewrite update_path_above by lia. rewrite lookup_insert_ne; [apply H7; lia|].
intros [= <-]. lia.
- destruct (len =? 0) eqn:E; bool_prop; [lia|].
change (internal_get_hash hs (tree_height t' - 1) 0 =
node len (leaf_of (data t')) (Z.to_nat (tree_height t' - 1)) 0).
rewrite <- Hhs by lia. f_equal. lia.
Qed.

Lemma set_inv bh a v t old t' :
set bh a v t = Ok (old, t') ->
exists index len accs,
t' = internal_post_update index
(mkTree (root t) len (hashes t) (<[index := v]> (data t)) accs (global_state t)
  (previous_snapshot (internal_pre_update bh t)) bh) /\
old = data t !! index /\
(accounts t !! a = Some index /\ len = tree_length t /\ accs = accounts t \/
accounts t !! a = None /\ index = tree_length t /\ len = tree_length t + 1 /\
len <= U32_MAX /\ accs = <[a := index]> (accounts t)).
Proof.
assert (forall t0 : MerkleTree V G,
internal_pre_update bh t = t0 -> root t0 = root t /\ tree_length t0 = tree_length t /\
hashes t0 = hashes t /\ data t0 = data t /\ accounts t0 = accounts t /\
global_state t0 = global_state t /\ last_block_height t0 = bh) as Hpre.
{ intros t0 <-. unfold internal_pre_update.
destruct (last_block_height t =? bh) eqn:E; bool_prop; done. }
unfold set. destruct (Hpre _ eq_refl) as (-> & -> & -> & -> & -> & -> & ->).
intros H. res_inv. destruct (accounts t !! a) as [index|] eqn:Ea.
- res_inv. eexists _, _, _. split_and!; [done..|]. left. done.
- unfold u32_add in E. res_inv. eexists _, _, _. split_and!; [done..|].
right. split_and!; [done..|lia|done].
Qed.

Lemma wf_set bh a v t old t' : wf t -> set bh a v t = Ok (old, t') -> wf t'.
Proof.
intros Hwf Hset. apply set_inv in Hset as (index & len & accs & -> & _ & Hcase).
apply (wf_pre_update bh) in Hwf as Hwf'.
pose proof (wf_store (internal_pre_update bh t) index len accs v Hwf') as Hst.
assert (internal_pre_update bh t = mkTree (root t) (tree_length t) (hashes t) (data t) (accounts t)
(global_state t) (previous_snapshot (internal_pre_update bh t)) bh) as Heq.
{ unfold internal_pre_update. destruct (last_block_height t =? bh) eqn:E; [|done].
bool_prop. subst. by destruct t. }
rewrite Heq in Hst. cbn in Hst. destruct Hcase as [(Ha & -> & ->)|(Ha & -> & -> & Hle & ->)].
- apply Hst; [|apply Hwf | by left]. by apply (wf_accounts _ Hwf) in Ha.
- pose proof (wf_length _ Hwf). apply Hst; [lia | done |]. right. split_and!; [done..|]. eauto.
Qed.
End wf.

(** ** The tree as a finite map

    [view] forgets indices and hashes; the operations refine those of a finite
    map from accounts to values. *)
Section view.
Context {V G : Type} `{HC : Crypto} `{HB : Borsh V}.
Implicit Types t : MerkleTree V G.

Definition view t : gmap AccountId V := omap (fun i => data t !! i) (accounts t).

Lemma get_view a t : get a t = view t !! a.
Proof. unfold get, view. rewrite lookup_omap. by destruct (accounts t !! a). Qed.

Lemma view_new bh (gs : G) : view (new bh gs : MerkleTree V G) = ∅.
Proof. apply omap_empty. Qed.

Lemma view_set bh a v t old t' :
wf t -> set bh a v t = Ok (old, t') -> view t' = <[a := v]> (view t) /\ old = view t !! a.
Proof.
intros Hwf Hset. apply set_inv in Hset as (index & len & accs & -> & -> & Hcase).
assert (forall b i, b <> a -> accounts t !! b = Some i -> i <> index) as Hfresh.
{ intros b i Hb Hi ->. destruct Hcase as [(Ha & _)|(_ & -> & _)].
- by apply Hb, (wf_inj _ Hwf _ _ index).
- apply (wf_accounts _ Hwf) in Hi. lia. }
split.
- apply map_eq. intros b. rewrite <- get_view. unfold get. cbn [internal_post_update accounts data].
destruct (decide (a = b)) as [<-|Hne].
+ rewrite (lookup_insert_eq (view t)).
destruct Hcase as [(Ha & _ & ->)|(_ & _ & _ & _ & ->)];
[rewrite Ha | rewrite lookup_insert_eq]; apply lookup_insert_eq.
+ rewrite (lookup_insert_ne (view t)) by done. rewrite <- get_view. unfold get.
replace (accs !! b) with (accounts t !! b)
by (destruct Hcase as [(_ & _ & ->)|(_ & _ & _ & _ & ->)];
[done | by rewrite lookup_insert_ne]).
destruct (accounts t !! b) as [i|] eqn:Eb; [|done].
rewrite lookup_insert_ne; [done|]. by apply not_eq_sym, (Hfresh b).
- rewrite <- get_view. unfold get. destruct Hcase as [(-> & _)|(-> & -> & _)]; [done|].
destruct (data t !! tree_length t) eqn:E; [|done].
pose proof (proj1 (wf_data _ Hwf (tree_length t)) ltac:(eauto)). lia.
Qed.

(** [set] fails only when a new account would be number [2^32]. *)
Lemma set_total bh a v t :
wf t -> is_Some (view t !! a) \/ tree_length t < U32_MAX -> exists old t', set bh a v t = Ok (old, t').
Proof.
intros Hwf Hcase.
assert (accounts (internal_pre_update bh t) = accounts t /\
tree_length (internal_pre_update bh t) = tree_length t) as [Ha Hl].
{ unfold internal_pre_update. by destruct (_ =? bh). }
unfold set. rewrite Ha, Hl. destruct (accounts t !! a) as [i|] eqn:E; cbn; [eauto|].
destruct Hcase as [[x Hx]|Hlt].
- rewrite <- get_view in Hx. unfold get in Hx. rewrite E in Hx. discriminate.
- unfold u32_add. rewrite checked_op_Ok by (pose proof (wf_length _ Hwf); lia). cbn. eauto.
Qed.

Lemma view_set_global_state bh gs t : view (set_global_state bh gs t) = view t.
Proof. unfold set_global_state, internal_pre_update. by destruct (_ =? bh). Qed.

Lemma global_state_set bh a v t old t' :
set bh a v t = Ok (old, t') -> global_state t' = global_state t.
Proof. intros (index & len & accs & -> & _)%set_inv. done. Qed.

Lemma tree_length_set bh a v t old t' :
set bh a v t = Ok (old, t') ->
tree_length t' = if decide (is_Some (accounts t !! a)) then tree_length t else tree_length t + 1.
Proof.
intros (index & len & accs & -> & _ & Hcase)%set_inv. cbn.
destruct Hcase as [(-> & -> & _)|(-> & _ & -> & _)]; case_decide as Hd; try done.
destruct Hd; eauto.
Qed.
End view.

(** ** Proofs of inclusion *)
Section proofs.
Context {V G : Type} `{HC : Crypto} `{HB : Borsh V}.
Implicit Types t : MerkleTree V G.

Lemma fold_path_app index h x p q :
fold_path index h x (p ++ q) = fold_path index (h + Z.of_nat (length p)) (fold_path index h x p) q.
Proof.
revert h x. induction p as [|s p IH]; intros h x; cbn [fold_path app length].
- f_equal. lia.
- rewrite IH. f_equal. lia.
Qed.

(** The siblings recorded by [proof_from] rebuild the reference hashes. *)
Lemma fold_proof_from len leaf hs index n (h : nat) :
0 <= index < len -> hashes_ok hs len leaf 0 (Z.of_nat h + Z.of_nat n) ->
fold_path index (Z.of_nat h) (node len leaf h (Z.shiftr index (Z.of_nat h)))
(proof_from n (Z.of_nat h) index hs) =
node len leaf (h + n) (Z.shiftr index (Z.of_nat (h + n))).
Proof.
revert h. induction n as [|n IH]; intros h Hi Hok; cbn [proof_from fold_path].
{ by rewrite Nat.add_0_r. }
set (k := Z.shiftr index (Z.of_nat h + 1)).
assert (0 <= k) as Hk by (apply Z.shiftr_nonneg; lia).
replace (h + S n)%nat with (S h + n)%nat by lia.
rewrite <- (IH (S h)); [|done|intros h' i Hr; apply Hok; lia].
replace (Z.of_nat (S h)) with (Z.of_nat h + 1) by lia. fold k. f_equal.
rewrite node_S.
2:{ pose proof (shiftr_mul_le index (Z.of_nat h + 1) ltac:(lia) ltac:(lia)) as Hm. fold k in Hm.
replace (Z.of_nat (S h)) with (Z.of_nat h + 1) by lia. lia. }
f_equal. destruct (shiftr_child index (Z.of_nat h) ltac:(lia) ltac:(lia)) as [Hc|Hc];
fold k in Hc; rewrite Hc.
- rewrite land_1_even, lxor_1_even by done. cbn [Z.eqb]. by rewrite Hok by lia.
- rewrite land_1_odd, lxor_1_odd by done. cbn [Z.eqb]. by rewrite Hok by lia.
Qed.

Lemma proof_from_length n h index hs : length (proof_from n h index hs) = n.
Proof. revert h. induction n as [|n IH]; intros h; cbn; [done | by rewrite IH]. Qed.

Lemma tree_height_pos t : wf t -> 0 < tree_length t -> 1 <= tree_height t <= 33.
Proof.
intros Hwf Hl. unfold tree_height. destruct (_ =? 0) eqn:E; bool_prop; [lia|].
pose proof (height_bounds (tree_length t) ltac:(pose proof (wf_length _ Hwf); lia)). lia.
Qed.

Lemma root_node t : wf t -> 0 < tree_length t ->
root t = node (tree_length t) (leaf_of (data t)) (Z.to_nat (tree_height t - 1)) 0.
Proof. intros Hwf Hl. rewrite (wf_root _ Hwf). destruct (_ =? 0) eqn:E; bool_prop; [lia | done]. Qed.

Lemma index_top t index : wf t -> 0 <= index < tree_length t ->
Z.shiftr index (tree_height t - 1) = 0.
Proof.
intros Hwf Hi. pose proof (tree_height_pos t Hwf ltac:(lia)) as Hh.
symmetry. apply shiftr_unique; [lia | lia |]. unfold tree_height in *.
destruct (tree_length t =? 0) eqn:E; bool_prop; [lia|].
pose proof (height_bounds (tree_length t) ltac:(pose proof (wf_length _ Hwf); lia)). lia.
Qed.

Lemma get_proof_valid a t v : wf t -> get a t = Some v ->
exists p, get_proof a t = Ok (Some (p, v)) /\ is_valid p (root t) (tree_length t) v = true.
Proof.
intros Hwf Hg. unfold get in Hg. unfold get_proof.
destruct (accounts t !! a) as [index|] eqn:Ea; [|discriminate].
pose proof (wf_accounts _ Hwf _ _ Ea) as Hi.
pose proof (tree_height_pos t Hwf ltac:(lia)) as Hh.
rewrite checked_op_Ok by (unfold U8_MAX; lia). cbn [mbind result_bind]. rewrite Hg. cbn [expect mbind result_bind].
eexists. split; [reflexivity|]. unfold is_valid. cbn [proof_index proof_path].
rewrite (proj2 (Z.leb_gt _ _)) by lia. rewrite proof_from_length.
assert (tree_height t = height_of_length (tree_length t)) as Hht.
{ unfold tree_height in *. destruct (_ =? 0) eqn:E; bool_prop; lia. }
rewrite <- Hht. replace (Z.of_nat (Z.to_nat (tree_height t - 1)) + 1) with (tree_height t) by lia.
rewrite Z.eqb_refl. cbn [negb]. apply bool_decide_eq_true.
assert (sha256 (borsh_to_vec v) = node (tree_length t) (leaf_of (data t)) 0 (Z.shiftr index (Z.of_nat 0))) as ->.
{ cbn [Z.of_nat]. rewrite Z.shiftr_0_r, node_0 by lia. unfold leaf_of, internal_hash_value. by rewrite Hg. }
change 0 with (Z.of_nat 0) at 1 2.
rewrite (fold_proof_from (tree_length t) (leaf_of (data t))); [|done|].
- cbn [Nat.add]. rewrite Z2Nat.id by lia. rewrite index_top by done. by rewrite root_node by (done || lia).
- intros h i Hr. apply (wf_hashes _ Hwf). lia.
Qed.

(** The strings [is_valid] hashes on the way up a path, and for a proof. *)
Fixpoint path_inputs (index height : Z) (hash : bytes) (path : list bytes) : list bytes :=
match path with
| [] => []
| sibling :: path' =>
let concat := if Z.land (Z.shiftr index height) 1 =? 0 then hash ++ sibling else sibling ++ hash in
concat :: path_inputs index (height + 1) (sha256 concat) path'
end.

Definition proof_inputs (p : MerkleProof) (v : V) : list bytes :=
borsh_to_vec v :: path_inputs (proof_index p) 0 (sha256 (borsh_to_vec v)) (proof_path p).

(** The strings hashed in a tree of [len] leaves: pairs of sibling hashes of
the inner nodes below height [n], and the serialized values. *)
Definition node_input (len : Z) (leaf : Z -> bytes) (n : nat) (y : bytes) : Prop :=
exists (h : nat) i, (h < n)%nat /\ 0 <= i /\ i * 2 ^ Z.of_nat (S h) < len /\
y = node len leaf h (2 * i) ++ node len leaf h (2 * i + 1).

Definition tree_input (t : MerkleTree V G) (y : bytes) : Prop :=
(exists i w, data t !! i = Some w /\ y = borsh_to_vec w) \/
node_input (tree_length t) (leaf_of (data t)) (Z.to_nat (tree_height t - 1)) y.

(** The proof carries a SHA-256 collision with the tree: among the strings
hashed to verify it is one that differs from a string hashed in the tree
and has the same digest. *)
Definition forged (t : MerkleTree V G) (p : MerkleProof) (v : V) : Prop :=
exists x y, x ∈ proof_inputs p v /\ tree_input t y /\ x <> y /\ sha256 x = sha256 y.

Lemma node_length `{!CryptoLaws HC} len leaf h i :
(forall j, length (leaf j) = 32%nat) -> length (node len leaf h i) = 32%nat.
Proof. intros Hl. destruct h; cbn [node]; destruct (_ <=? _); try done; apply sha256_length. Qed.

(** Going down a path that ends in a reference hash: every intermediate
hash is the reference one, or the path carries a collision. *)
Lemma fold_path_sound `{!CryptoLaws HC} len leaf index path (h : nat) x :
0 <= index < len -> (forall j, length (leaf j) = 32%nat) ->
length x = 32%nat -> Forall (fun s => length s = 32%nat) path ->
fold_path index (Z.of_nat h) x path =
node len leaf (h + length path) (Z.shiftr index (Z.of_nat (h + length path))) ->
x = node len leaf h (Z.shiftr index (Z.of_nat h)) \/
exists a b, a ∈ path_inputs index (Z.of_nat h) x path /\ node_input len leaf (h + length path) b /\
a <> b /\ sha256 a = sha256 b.
Proof.
intros Hi Hleaf. revert h x. induction path as [|s path IH]; intros h x Hx Hp Heq.
{ cbn in Heq. rewrite Nat.add_0_r in Heq. by left. }
inversion_clear Hp as [|? ? Hs Hp']. cbn [fold_path path_inputs length] in Heq |- *.
replace (h + S (length path))%nat with (S h + length path)%nat in * by lia.
replace (Z.of_nat h + 1) with (Z.of_nat (S h)) in * by lia.
set (cc := if Z.land (Z.shiftr index (Z.of_nat h)) 1 =? 0 then x ++ s else s ++ x) in *.
apply IH in Heq as [Heq|(a & b & Ha & Hb)];
[|right; exists a, b; split; [by apply elem_of_cons; right | done]|apply sha256_length|done].
set (k := Z.shiftr index (Z.of_nat (S h))) in *.
assert (0 <= k) as Hk by (apply Z.shiftr_nonneg; lia).
pose proof (shiftr_mul_le index (Z.of_nat (S h)) ltac:(lia) ltac:(lia)) as Hkl.
rewrite node_S in Heq by lia.
destruct (decide (cc = node len leaf h (2 * k) ++ node len leaf h (2 * k + 1))) as [Heq'|Hne].
2:{ right. eexists cc, _. split_and!; [by apply elem_of_cons; left | | exact Hne | exact Heq].
exists h, k. split_and!; [lia | done | lia | done]. }
left. subst cc. pose proof (node_length len leaf h (2 * k) Hleaf) as L1.
destruct (shiftr_child index (Z.of_nat h) ltac:(lia) ltac:(lia)) as [Hc|Hc];
replace (Z.of_nat h + 1) with (Z.of_nat (S h)) in Hc by lia; fold k in Hc; rewrite Hc in Heq' |- *.
- rewrite land_1_even in Heq'. cbn [Z.eqb] in Heq'. apply app_inj_1 in Heq' as [-> _]; [done | lia].
- rewrite land_1_odd in Heq'. cbn [Z.eqb] in Heq'. apply app_inj_1 in Heq' as [_ ->]; [done | lia].
Qed.

Lemma leaf_of_length `{!CryptoLaws HC} d j : length (leaf_of d j) = 32%nat.
Proof. unfold leaf_of, internal_hash_value. destruct (d !! j); [apply sha256_length | done]. Qed.

(** The types of a proof: a [u32] index and a path of 32-byte hashes. *)
Definition proof_ok (p : MerkleProof) : Prop :=
0 <= proof_index p /\ Forall (fun s => length s = 32%nat) (proof_path p).

Lemma is_valid_sound `{!CryptoLaws HC} `{!BorshLaws V HB} t p v :
wf t -> 0 <= proof_index p -> Forall (fun s => length s = 32%nat) (proof_path p) ->
is_valid p (root t) (tree_length t) v = true ->
get_by_index (proof_index p) t = Some v \/ forged t p v.
Proof.
intros Hwf H0 Hp. unfold is_valid. destruct (_ <=? _) eqn:E; [discriminate|].
destruct (negb _) eqn:E2; [discriminate|]. intros Hv. bool_prop.
pose proof (tree_height_pos t Hwf ltac:(lia)) as Hh.
assert (tree_height t = height_of_length (tree_length t)) as Hht.
{ unfold tree_height in *. destruct (_ =? 0) eqn:E3; bool_prop; lia. }
rewrite root_node in Hv by (done || lia).
change 0 with (Z.of_nat 0) in Hv at 1.
replace (Z.to_nat (tree_height t - 1)) with (0 + length (proof_path p))%nat in Hv by lia.
rewrite <- (index_top t (proof_index p)) in Hv by (done || lia).
replace (tree_height t - 1) with (Z.of_nat (0 + length (proof_path p))) in Hv by lia.
apply fold_path_sound in Hv as [Hv|(a & b & Ha & Hb & Hab)]; [| |lia|apply leaf_of_length|apply sha256_length|done].
2:{ right. exists a, b. split_and!; [by apply elem_of_cons; right | right | apply Hab..].
by replace (Z.to_nat (tree_height t - 1)) with (0 + length (proof_path p))%nat by lia. }
cbn [Z.of_nat] in Hv. rewrite Z.shiftr_0_r, node_0 in Hv by lia.
unfold leaf_of, internal_hash_value in Hv. unfold get_by_index.
destruct (data t !! proof_index p) as [w|] eqn:Ed.
- destruct (decide (borsh_to_vec v = borsh_to_vec w)) as [Hb%borsh_inj|Hne]; [left; congruence|].
right. exists (borsh_to_vec v), (borsh_to_vec w).
split_and!; [by apply elem_of_cons; left | left; eauto | done | done].
- pose proof (proj2 (wf_data _ Hwf (proof_index p)) ltac:(lia)) as [? ?]. congruence.
Qed.
End proofs.

(** ** Properties of every reachable tree *)
Section reachable.
Context {V G : Type} `{HC : Crypto} `{HB : Borsh V}.
Implicit Types t : MerkleTree V G.

(** One change of the tree in the block of height [bh]. *)
Inductive tree_step_at (bh : Z) : MerkleTree V G -> MerkleTree V G -> Prop :=
| step_set a v old t t' : set bh a v t = Ok (old, t') -> tree_step_at bh t t'
| step_set_global_state gs t : tree_step_at bh t (set_global_state bh gs t).

Definition tree_step t t' : Prop := exists bh, tree_step_at bh t t'.
Definition reachable t : Prop := exists bh gs, star tree_step (new bh gs) t.

Lemma tree_step_wf bh t t' : wf t -> tree_step_at bh t t' -> wf t'.
Proof.
intros Hwf Hst. destruct Hst as [a v old t t' Hs|gs t].
- exact (wf_set _ _ _ _ _ _ Hwf Hs).
- by apply wf_set_global_state.
Qed.

Lemma reachable_wf t : reachable t -> wf t.
Proof.
intros (bh & gs & Hs). eapply star_invariant; [|exact Hs|apply wf_new].
intros s s' Hwf [bh' Hst]. by eapply tree_step_wf.
Qed.

(** The values in insertion order, and the root of a list of values. *)
Definition values t : list V := omap (fun i => data t !! i) (seqZ 0 (tree_length t)).

Definition list_leaf (vs : list V) (i : Z) : bytes :=
match vs !! Z.to_nat i with Some v => sha256 (borsh_to_vec v) | None => default_hash end.

Definition reference_root (vs : list V) : bytes :=
match vs with
| [] => default_hash
| _ => let len := Z.of_nat (length vs) in
node len (list_leaf vs) (Z.to_nat (height_of_length len - 1)) 0
end.

Lemma omap_seqZ_some (d : gmap Z V) (n : nat) (k : Z) :
(forall i, k <= i < k + Z.of_nat n -> is_Some (d !! i)) ->
length (omap (fun i => d !! i) (seqZ k (Z.of_nat n))) = n /\
forall j : nat, (j < n)%nat -> omap (fun i => d !! i) (seqZ k (Z.of_nat n)) !! j = d !! (k + Z.of_nat j).
Proof.
revert k. induction n as [|n IH]; intros k Hd; [split; [done | intros; lia]|].
rewrite seqZ_cons by lia. cbn [omap list_omap].
replace (Z.pred (Z.of_nat (S n))) with (Z.of_nat n) by lia.
destruct (Hd k ltac:(lia)) as [x Hx]. rewrite Hx.
destruct (IH (Z.succ k)) as [IH1 IH2]; [intros i Hi; apply Hd; lia|].
split; [cbn; by rewrite IH1|]. intros [|j] Hj.
- cbn. by rewrite Z.add_0_r.
- change ((x :: omap (fun i => d !! i) (seqZ (Z.succ k) (Z.of_nat n))) !! S j) with
(omap (fun i => d !! i) (seqZ (Z.succ k) (Z.of_nat n)) !! j).
rewrite IH2 by lia. f_equal. lia.
Qed.

Lemma values_spec t : wf t ->
Z.of_nat (length (values t)) = tree_length t /\
forall i, 0 <= i < tree_length t -> values t !! Z.to_nat i = data t !! i.
Proof.
intros Hwf. pose proof (wf_length _ Hwf) as Hl.
destruct (omap_seqZ_some (data t) (Z.to_nat (tree_length t)) 0) as [H1 H2].
{ intros i Hi. apply (wf_data _ Hwf). lia. }
rewrite Z2Nat.id in H1, H2 by lia. unfold values. split; [rewrite H1; lia|].
intros i Hi. rewrite H2 by lia. f_equal. lia.
Qed.

(** C11. The root of every tree the operations can produce is the reference
root of the stored values in insertion order: the incremental re-hashing
of one path per [set] computes the hash of the whole tree, whatever the
history of updates. *)
Theorem merkle_root_reference t : reachable t -> root t = reference_root (values t).
Proof.
intros Hwf%reachable_wf. destruct (values_spec t Hwf) as [Hlen Hval].
rewrite (wf_root _ Hwf). unfold reference_root. rewrite Hlen.
destruct (tree_length t =? 0) eqn:E; bool_prop.
- destruct (values t); [done | cbn in Hlen; lia].
- destruct (values t) as [|w ws] eqn:Ev; [cbn in Hlen; lia|]. rewrite <- Ev in *.
unfold tree_height. rewrite (proj2 (Z.eqb_neq _ _)) by done.
apply node_agree; [done|]. intros j Hj Hjl. unfold leaf_of, internal_hash_value, list_leaf.
rewrite Hval by lia. done.
Qed.

(** C13. For every account with a value, [get_proof] succeeds, returns that
value, and the proof is accepted against the tree's root and length. *)
Theorem merkle_proof_complete a t v : reachable t -> get a t = Some v ->
exists p, get_proof a t = Ok (Some (p, v)) /\ is_valid p (root t) (tree_length t) v = true.
Proof. intros Hr%reachable_wf. by apply get_proof_valid. Qed.

(** C12. A proof accepted against the root and length of a reachable tree is
of the value stored at its index, unless the proof itself carries a
SHA-256 collision with the tree: one of the finitely many strings hashed
to verify it differs from a string hashed in the tree and has the same
digest. *)
Theorem merkle_proof_sound `{!CryptoLaws HC} `{!BorshLaws V HB} t p v :
reachable t -> 0 <= proof_index p -> Forall (fun s => length s = 32%nat) (proof_path p) ->
is_valid p (root t) (tree_length t) v = true ->
get_by_index (proof_index p) t = Some v \/ forged t p v.
Proof. intros Hr%reachable_wf. by apply is_valid_sound. Qed.

Lemma get_snapshot_pre_update bh t :
get_snapshot bh (internal_pre_update bh t) = get_snapshot bh t.
Proof.
unfold internal_pre_update, get_snapshot.
destruct (last_block_height t =? bh) eqn:E; [by rewrite E|]. cbn. by rewrite Z.eqb_refl.
Qed.

Lemma get_snapshot_step bh t t' :
tree_step_at bh t t' -> get_snapshot bh t' = get_snapshot bh t /\ last_block_height t' = bh.
Proof.
intros [a v old s s' Hs|gs s].
- apply set_inv in Hs as (index & len & accs & -> & _). cbn. split; [|done].
rewrite <- (get_snapshot_pre_update bh s). unfold get_snapshot at 1. cbn. rewrite Z.eqb_refl.
unfold get_snapshot, internal_pre_update. destruct (last_block_height s =? bh) eqn:E; cbn.
+ by rewrite E.
+ by rewrite Z.eqb_refl.
- rewrite <- (get_snapshot_pre_update bh s).
unfold get_snapshot, set_global_state, internal_pre_update.
destruct (last_block_height s =? bh) eqn:E; cbn; rewrite ?E, ?Z.eqb_refl; bool_prop; done.
Qed.

(** C14. Whatever changes a block makes, [get_snapshot] during the block
answers what it answered at the start of the block: root, length and
global state at the end of the last block that changed the tree. *)
Theorem snapshot_stable_in_block bh t t' : star (tree_step_at bh) t t' ->
get_snapshot bh t' = get_snapshot bh t /\
(last_block_height t <> bh ->
get_snapshot bh t' =
Some (mkSnapshot (root t) (tree_length t) (last_block_height t), global_state t)).
Proof.
intros Hs.
assert (get_snapshot bh t' = get_snapshot bh t) as Heq.
{ induction Hs as [|t1 t2 t3 _ IH Hst]; [done|].
apply get_snapshot_step in Hst as [-> _]. done. }
split; [done|]. intros Hne. rewrite Heq. unfold get_snapshot.
rewrite (proj2 (Z.eqb_neq _ _)) by done. done.
Qed.
End reachable.
