(* ===== verification/MerkleRebuild.v ===== *)
(** * Hashing the whole tree again (merkle-tree/src/lib.rs, [remerkalize])

    [remerkalize] hashes the whole tree again, where [set] hashes one path.
    At height [h] it visits the first [2^(h-1)] nodes, whatever the height of
    the tree: it skips nodes near the leaves, visits nodes beyond the tree
    near the root, and hashes a subtree without leaves like an inner node. It
    is therefore the identity on the nodes of a well-formed tree exactly as
    long as it meets no empty subtree ([full_visits]), which is the case up to
    16 values. *)
From stdpp Require Import base gmap strings list.
From Stdlib Require Import ZArith Lia.
From S2P Require Import Prelude.
From S2P Require Import Near.
From S2P Require Import MerkleTree.
From S2P Require Import MerkleFacts.

Local Open Scope Z_scope.

Lemma foldl_keeps {A B} (P : A -> Prop) (f : A -> B -> A) l a :
  (forall a x, x ∈ l -> P a -> P (f a x)) -> P a -> P (foldl f a l).
Proof.
  revert a. induction l as [|x l IH]; intros a Hf Ha; cbn; [done|].
  apply IH; [intros; apply Hf; [by apply elem_of_cons; right | done]|]. apply Hf; [by apply elem_of_cons; left | done].
Qed.

Section rebuild.
Context {V G : Type} `{HC : Crypto} `{HB : Borsh V}.
Implicit Types t : MerkleTree V G.

(** The position [(h, i)] is a node of a tree of height [th]. *)
Definition in_tree (th : Z) (h : nat) (i : Z) : Prop := Z.of_nat h < th /\ 0 <= i < 2 ^ (th - 1 - Z.of_nat h).

(** The stored hashes of the nodes of the tree are the reference ones. *)
Definition nodes_ok (len : Z) (leaf : Z -> bytes) (th : Z) (hs : gmap (Z * Z) bytes) : Prop :=
forall (h : nat) i, in_tree th h i -> internal_get_hash hs (Z.of_nat h) i = node len leaf h i.

(** No inner node [remerkalize] visits in the tree is an empty subtree. *)
Definition full_visits (len th : Z) : Prop :=
forall (h : nat) i, in_tree th (S h) i -> i < 2 ^ Z.of_nat h -> i * 2 ^ Z.of_nat (S h) < len.

Lemma in_tree_children th h i : in_tree th (S h) i -> in_tree th h (2 * i) /\ in_tree th h (2 * i + 1).
Proof.
unfold in_tree. intros [Hh Hi]. assert (2 ^ (th - 1 - Z.of_nat h) = 2 * 2 ^ (th - 1 - Z.of_nat (S h))) as ->.
{ rewrite <- Z.pow_succ_r by lia. f_equal. lia. }
lia.
Qed.

Lemma nodes_insert len leaf th hs (h : nat) i x : nodes_ok len leaf th hs -> (in_tree th h i -> x = node len leaf h i) ->
nodes_ok len leaf th (<[(Z.of_nat h, i) := x]> hs).
Proof.
intros Hok Hx h' i' Hin. rewrite get_hash_insert. case_decide as Hd; [|by apply Hok].
destruct Hd as [Hh <-]. apply Nat2Z.inj in Hh as <-. by apply Hx.
Qed.

Lemma rehash_ok len leaf th hs (h : nat) i : th <= 33 -> full_visits len th -> 0 <= i < 2 ^ Z.of_nat h -> Z.of_nat (S h) < th ->
nodes_ok len leaf th hs -> nodes_ok len leaf th (rehash (Z.of_nat (S h)) hs i).
Proof.
intros Ht Hv Hi Hh Hok. apply nodes_insert; [done|]. intros Hin. rewrite node_S by (apply Hv; [done | lia]).
destruct (in_tree_children th h i Hin) as [Hl Hr]. replace (Z.of_nat (S h) - 1) with (Z.of_nat h) by lia.
rewrite u32_shl_1; [by rewrite !Hok|]. pose proof (Z.pow_le_mono_r 2 (Z.of_nat h) 31). lia.
Qed.

Lemma visits_one height : 1 <= height <= 32 -> u32_shl 1 (height - 1) = 2 ^ (height - 1).
Proof.
intros Hh. unfold u32_shl. change U32_MAX with (Z.ones 32). rewrite Z.land_ones, Z.shiftl_1_l by lia.
apply Z.mod_small. split; [lia|]. apply Z.pow_lt_mono_r; lia.
Qed.

(** On a well-formed tree without empty subtrees among the visited nodes the
root stays. *)
Lemma remerkalize_keeps_root t : wf t -> 0 < tree_length t -> full_visits (tree_length t) (tree_height t) ->
exists t', remerkalize t = Ok t' /\ root t' = root t.
Proof.
intros Hwf Hl Hv. pose proof (tree_height_pos t Hwf Hl) as Hh. unfold remerkalize.
rewrite checked_op_Ok by (unfold U8_MAX; lia). cbn [mbind result_bind]. eexists. split; [reflexivity|]. cbn [root].
set (hs0 := foldl _ (hashes t) _). rewrite root_node by done.
replace (tree_height t - 1) with (Z.of_nat (Z.to_nat (tree_height t - 1))) at 2 by lia.
apply (foldl_keeps (nodes_ok (tree_length t) (leaf_of (data t)) (tree_height t))).
- intros hs height [Hp1 Hp2]%elem_of_seqZ Hok. apply foldl_keeps; [|done].
intros hs' i [Hi1 Hi2]%elem_of_seqZ Hok'. rewrite visits_one in Hi2 by lia.
replace height with (Z.of_nat (S (Z.to_nat (height - 1)))) by lia.
apply rehash_ok; [lia | done | | lia | done]. rewrite Z2Nat.id; lia.
- apply foldl_keeps; [|intros h i [Hi1 Hi2]; apply (wf_hashes _ Hwf); lia].
intros hs i [Hi1 Hi2]%elem_of_seqZ Hok. apply (nodes_insert _ _ _ _ 0); [done|]. intros _. by rewrite node_0 by lia.
- split; [lia|]. rewrite Z2Nat.id, Z.sub_diag by lia. lia.
Qed.

Lemma full_visits_16 len : 1 <= len <= 16 -> full_visits len (height_of_length len).
Proof.
intros Hl. pose proof (height_bounds len ltac:(unfold U32_MAX; lia)) as (H1 & H2 & H3).
assert (height_of_length len <= 5) as H5.
{ destruct (Z.le_gt_cases (height_of_length len) 5); [done|]. pose proof (Z.pow_le_mono_r 2 4 (height_of_length len - 2)). lia. }
intros h i [Hh Hi] Hb. assert (h < 4)%nat as Hh4 by lia. set (th := height_of_length len) in *. clearbody th.
assert (th = 2 \/ th = 3 \/ th = 4 \/ th = 5) as Hth by lia.
destruct Hth as [->|[->|[->| ->]]]; do 4 (destruct h as [|h]; [cbn in *; lia|]); lia.
Qed.

(** Up to 16 values, hashing the whole tree again gives the root the updates
have left. *)
Theorem remerkalize_agrees t : reachable t -> 1 <= tree_length t <= 16 ->
exists t', remerkalize t = Ok t' /\ root t' = root t.
Proof.
intros Hwf%reachable_wf Hl. apply remerkalize_keeps_root; [done | lia|]. unfold tree_height.
rewrite (proj2 (Z.eqb_neq _ _)) by lia. by apply full_visits_16.
Qed.
End rebuild.
