(* ===== verification/VenearContract.v ===== *)
(** * The veNEAR contract (venear-contract/src)

    Accounts live in the Merkle tree as [VAccount]s with the global state
    beside them; internal account data, the configuration, the pause flag and
    the stored lockup codes make up the rest of the state. Every entry point
    of the contract is a computation of the monad of [Near]. *)
From stdpp Require Import base gmap strings list sorting.
From Stdlib Require Import ZArith Lia.
From S2P Require Import Prelude.
From S2P Require Import Near.
From S2P Require Import Common.
From S2P Require Import MerkleTree.

Local Open Scope Z_scope.

(** ** config.rs *)
Record LockupContractConfig : Type := mkLockupConfig {
  contract_size : Z;
  contract_version : Version;
  contract_hash : bytes
}.

Record Config : Type := mkConfig {
  lockup_contract_config : option LockupContractConfig;
  unlock_duration_ns : Z;
  staking_pool_whitelist_account_id : AccountId;
  lockup_code_deployers : list AccountId;
  local_deposit : NearToken;
  min_lockup_deposit : NearToken;
  owner_account_id : AccountId;
  guardians : list AccountId;
  proposed_new_owner_account_id : option AccountId;
  max_delegations : Z
}.

(** ** account.rs: internal account data *)
Record AccountInternal : Type := mkInternal {
  lockup_version : option Version;
  deposit : NearToken;
  lockup_update_nonce : Z
}.

(** ** lib.rs: the contract state; [lockup_code] is the raw storage under
    [StorageKeys::LockupCode(hash)]. *)
Record Contract : Type := mkContract {
  tree : MerkleTree VAccount VGlobalState;
  internals : gmap AccountId AccountInternal;
  config : Config;
  paused : bool;
  lockup_code : gmap bytes bytes
}.

Definition with_tree (c : Contract) (t : MerkleTree VAccount VGlobalState) : Contract :=
  mkContract t (internals c) (config c) (paused c) (lockup_code c).
Definition with_internals (c : Contract) (m : gmap AccountId AccountInternal) : Contract :=
  mkContract (tree c) m (config c) (paused c) (lockup_code c).
Definition with_config (c : Contract) (cfg : Config) : Contract :=
  mkContract (tree c) (internals c) cfg (paused c) (lockup_code c).
Definition with_paused (c : Contract) (p : bool) : Contract :=
  mkContract (tree c) (internals c) (config c) p (lockup_code c).
Definition with_lockup_code (c : Contract) (m : gmap bytes bytes) : Contract :=
  mkContract (tree c) (internals c) (config c) (paused c) m.

(** ** lockup.rs: arguments of the cross-contract calls *)
Record LockupInitArgs : Type := mkLockupInit {
  li_version : Version;
  li_owner_account_id : AccountId;
  li_venear_account_id : AccountId;
  li_unlock_duration_ns : Z;
  li_staking_pool_whitelist_account_id : AccountId;
  li_lockup_update_nonce : Z;
  li_min_lockup_deposit : NearToken
}.

Record OnLockupDeployedArgs : Type := mkOnDeployed {
  od_version : Version;
  od_account_id : AccountId;
  od_lockup_update_nonce : Z;
  od_lockup_deposit : NearToken
}.

(** What a call leaves behind: log lines, transfers, and the batch that
    creates the lockup account, deploys the code, calls [new] with the
    attached deposit and then [on_lockup_deployed]. *)
Inductive Effect : Type :=
| Log (ev : Event)
| LogStr (line : string)
| Transfer (receiver : AccountId) (amount : NearToken)
| DeployLockup (lockup_account_id : AccountId) (code : bytes) (init : LockupInitArgs)
    (attached : NearToken) (callback : OnLockupDeployedArgs).

(** What the contract takes from the host and from packages outside the
    repository: SHA-256, Borsh, hexadecimal text, the account-id grammar and
    the storage the state occupies. *)
Class VenearHost : Type := {
  vh_crypto :: Crypto;
  vh_borsh :: Borsh VAccount;
  hex_encode : bytes -> string;
  is_valid_account_id : string -> bool;
  storage_usage : Contract -> Z
}.

Definition string_bytes (s : string) : bytes :=
  map (fun a => Z.of_nat (Ascii.nat_of_ascii a)) (String.list_ascii_of_string s).

Section contract.
Context `{VH : VenearHost}.

Abbreviation MV := (M Effect Contract).

(** ** lib.rs *)
Definition new_contract (e : Env) (cfg : Config) (growth : VenearGrowthConfigFixedRate)
: result Contract :=
require (denominator (annual_growth_rate_ns growth) =? 10 ^ 30) "Denominator must be 10^30" ;;
mret (mkContract
(MerkleTree.new (block_height e)
(GV0 (GlobalState.new (block_timestamp e) (FixedRate growth))))
∅ cfg false ∅).

(** ** governance.rs and pause.rs: guards *)
Definition assert_owner : MV unit :=
c ← get_state; p ← asks predecessor_account_id;
requireM (String.eqb p (owner_account_id (config c))) "Only the owner can call this method".

Definition assert_guardian : MV unit :=
c ← get_state; p ← asks predecessor_account_id;
requireM (bool_decide (p ∈ guardians (config c)) || String.eqb p (owner_account_id (config c)))
"Only the guardian can call this method".

Definition assert_not_paused : MV unit :=
c ← get_state;
requireM (negb (paused c)) "Contract is paused. Please try again later.".

(** ** config.rs and global_state.rs *)
Definition internal_get_venear_growth_config (c : Contract) : VenearGrowthConfig :=
venear_growth_config (global_state_from (global_state (tree c))).

Definition internal_global_state_updated : MV GlobalState :=
c ← get_state; now ← asks block_timestamp;
lift (GlobalState.update (global_state_from (global_state (tree c))) now).

Definition internal_set_global_state (gs : GlobalState) : MV unit :=
bh ← asks block_height;
modify (fun c => with_tree c (set_global_state bh (GV0 gs) (tree c))).

(** ** account.rs *)
Definition internal_get_account_internal (c : Contract) (a : AccountId) : option AccountInternal :=
internals c !! a.

Definition internal_set_account_internal (a : AccountId) (i : AccountInternal)
: MV (option AccountInternal) :=
c ← get_state;
put_state (with_internals c (<[a := i]> (internals c))) ;;
mret (internals c !! a).

Definition internal_get_account (c : Contract) (a : AccountId) : option Account :=
account_from <$> get a (tree c).

Definition not_registered (a : AccountId) : string :=
"Account " +:+ a +:+ " is not registered".

Definition internal_expect_account_updated (a : AccountId) : MV Account :=
c ← get_state; now ← asks block_timestamp;
acc ← lift (expect (internal_get_account c a) (not_registered a));
lift (Account.update acc now (internal_get_venear_growth_config c)).

Definition internal_set_account (a : AccountId) (acc : Account) : MV unit :=
c ← get_state; bh ← asks block_height;
old_balance ← lift (match internal_get_account c a with
          | Some old => Account.owned_total old
          | None => Ok 0
          end);
new_balance ← lift (Account.owned_total acc);
(if old_balance <? new_balance then emit (Log (ft_mint a (new_balance - old_balance)))
else if new_balance <? old_balance then emit (Log (ft_burn a (old_balance - new_balance)))
else mret tt) ;;
'(_, t) ← lift (set bh a (V1 acc) (tree c));
put_state (with_tree c t).

Definition internal_register_account (a : AccountId) (dep : NearToken) : MV unit :=
old ← internal_set_account_internal a (mkInternal None dep 0);
requireM (bool_decide (old = None)) "Already registered" ;;
gs ← internal_global_state_updated;
now ← asks block_timestamp;
let account := mkAccount a (truncate_to_seconds now) (VenearBalance.from_near dep)
       Pool.default [] in
total ← lift (Pool.pooled_add (total_venear_balance gs) (balance account));
internal_set_account a account ;;
internal_set_global_state (GlobalState.with_total gs total).

(** Views; a view reads the state and the host values. *)
Definition get_account_info (e : Env) (c : Contract) (a : AccountId)
: result (option (Account * AccountInternal)) :=
match internal_get_account_internal c a with
| None => mret None
| Some internal =>
acc ← expect (internal_get_account c a) (not_registered a);
acc' ← Account.update acc (block_timestamp e) (internal_get_venear_growth_config c);
mret (Some (acc', internal))
end.

Definition get_num_accounts (c : Contract) : Z := tree_length (tree c).

Definition get_account_by_index (e : Env) (c : Contract) (index : Z)
: result (option (Account * AccountInternal)) :=
match get_by_index index (tree c) with
| None => mret None
| Some v =>
acc ← Account.update (account_from v) (block_timestamp e) (internal_get_venear_growth_config c);
internal ← expect (internal_get_account_internal c (account_id acc)) unwrap_none;
mret (Some (acc, internal))
end.

(** [from_index..to_index] with the default bounds of the paginated views. *)
Definition page (c : Contract) (from_index limit : option Z) : list Z :=
let from := default 0 from_index in
let to := Z.min (saturating_add U32_MAX from (default U32_MAX limit)) (get_num_accounts c) in
seqZ from (to - from).

Fixpoint filter_map_result {A B} (f : A -> result (option B)) (l : list A) : result (list B) :=
match l with
| [] => mret []
| x :: l' =>
o ← f x; r ← filter_map_result f l';
mret (match o with Some b => b :: r | None => r end)
end.

Definition get_accounts (e : Env) (c : Contract) (from_index limit : option Z)
: result (list (Account * AccountInternal)) :=
filter_map_result (get_account_by_index e c) (page c from_index limit).

Definition get_accounts_raw (c : Contract) (from_index limit : option Z) : list VAccount :=
omap (fun i => get_by_index i (tree c)) (page c from_index limit).

(** ** delegation.rs *)

(** The loop of [validate_delegations]; [prev] is the previous entry's id. *)
Fixpoint validate_entries (owner : AccountId) (prev : option AccountId) (sum_bps : Z)
(entries : list DelegationEntry) : result Z :=
match entries with
| [] => Ok sum_bps
| entry :: rest =>
if Bps.is_zero (bps entry) then Panic "Invalid bps (cannot be 0)"
else if String.eqb (delegate_id entry) owner then Panic "Cannot delegate to self"
else if match prev with
  | Some q => String.leb (delegate_id entry) q
  | None => false
  end
then Panic "Entries must be sorted ascending by account_id with no duplicates"
else sum ← u32_add sum_bps (bps entry);
validate_entries owner (Some (delegate_id entry)) sum rest
end.

Definition validate_delegations (entries : list DelegationEntry) (owner : AccountId)
(max_delegations : Z) : result Z :=
if max_delegations <? Z.of_nat (length entries) then Panic "Too many delegations"
else
sum_bps ← validate_entries owner None 0 entries;
if Bps.MAX_RAW <? sum_bps then Panic "Total bps exceeds 10000" else Ok sum_bps.

Definition remove_delegation (owner : VenearBalance) (d : DelegationEntry) : MV unit :=
delegate ← internal_expect_account_updated (delegate_id d);
p ← lift (Pool.pooled_sub_delegation (delegated_balance delegate) owner (bps d));
internal_set_account (delegate_id d) (Account.with_delegated delegate p).

Definition add_delegation (owner : VenearBalance) (d : DelegationEntry) : MV unit :=
delegate ← internal_expect_account_updated (delegate_id d);
p ← lift (Pool.pooled_add_delegation (delegated_balance delegate) owner (bps d));
internal_set_account (delegate_id d) (Account.with_delegated delegate p).

Definition set_delegations (entries : list DelegationEntry) : MV unit :=
assert_not_paused ;;
attached ← asks attached_deposit;
requireM (0 <? attached) "Requires attached deposit" ;;
predecessor_id ← asks predecessor_account_id;
c ← get_state;
lift (validate_delegations entries predecessor_id (max_delegations (config c))) ;;
let storage_before := storage_usage c in
owner ← internal_expect_account_updated predecessor_id;
let old_delegations := delegations owner in
for_each old_delegations (remove_delegation (balance owner)) ;;
for_each entries (add_delegation (balance owner)) ;;
emit (Log (delegation_change predecessor_id old_delegations entries)) ;;
internal_set_account predecessor_id (Account.with_delegations owner entries) ;;
c' ← get_state;
let storage_after := storage_usage c' in
byte_cost ← asks storage_byte_cost;
refund ← (if storage_before <? storage_after then
  storage_cost ← lift (checked_op U128_MAX (byte_cost * (storage_after - storage_before))
                         "Storage cost overflow");
  requireM (storage_cost <=? attached) "Insufficient deposit for storage. Required: " ;;
  mret (attached - storage_cost)
else mret attached);
if 0 <? refund then emit (Transfer predecessor_id refund) else mret tt.

(** ** governance.rs: owner's settings *)
Definition owner_update (f : Config -> Config) : MV unit :=
assert_one_yocto ;; assert_owner ;;
modify (fun c => with_config c (f (config c))).

Definition cfg_lockup_contract_config v (k : Config) : Config :=
mkConfig v (unlock_duration_ns k) (staking_pool_whitelist_account_id k) (lockup_code_deployers k)
(local_deposit k) (min_lockup_deposit k) (owner_account_id k) (guardians k)
(proposed_new_owner_account_id k) (max_delegations k).
Definition cfg_unlock_duration_ns v (k : Config) : Config :=
mkConfig (lockup_contract_config k) v (staking_pool_whitelist_account_id k) (lockup_code_deployers k)
(local_deposit k) (min_lockup_deposit k) (owner_account_id k) (guardians k)
(proposed_new_owner_account_id k) (max_delegations k).
Definition cfg_staking_pool_whitelist_account_id v (k : Config) : Config :=
mkConfig (lockup_contract_config k) (unlock_duration_ns k) v (lockup_code_deployers k)
(local_deposit k) (min_lockup_deposit k) (owner_account_id k) (guardians k)
(proposed_new_owner_account_id k) (max_delegations k).
Definition cfg_lockup_code_deployers v (k : Config) : Config :=
mkConfig (lockup_contract_config k) (unlock_duration_ns k) (staking_pool_whitelist_account_id k) v
(local_deposit k) (min_lockup_deposit k) (owner_account_id k) (guardians k)
(proposed_new_owner_account_id k) (max_delegations k).
Definition cfg_local_deposit v (k : Config) : Config :=
mkConfig (lockup_contract_config k) (unlock_duration_ns k) (staking_pool_whitelist_account_id k)
(lockup_code_deployers k) v (min_lockup_deposit k) (owner_account_id k) (guardians k)
(proposed_new_owner_account_id k) (max_delegations k).
Definition cfg_min_lockup_deposit v (k : Config) : Config :=
mkConfig (lockup_contract_config k) (unlock_duration_ns k) (staking_pool_whitelist_account_id k)
(lockup_code_deployers k) (local_deposit k) v (owner_account_id k) (guardians k)
(proposed_new_owner_account_id k) (max_delegations k).
Definition cfg_owner v (k : Config) : Config :=
mkConfig (lockup_contract_config k) (unlock_duration_ns k) (staking_pool_whitelist_account_id k)
(lockup_code_deployers k) (local_deposit k) (min_lockup_deposit k) v (guardians k)
None (max_delegations k).
Definition cfg_guardians v (k : Config) : Config :=
mkConfig (lockup_contract_config k) (unlock_duration_ns k) (staking_pool_whitelist_account_id k)
(lockup_code_deployers k) (local_deposit k) (min_lockup_deposit k) (owner_account_id k) v
(proposed_new_owner_account_id k) (max_delegations k).
Definition cfg_proposed_new_owner v (k : Config) : Config :=
mkConfig (lockup_contract_config k) (unlock_duration_ns k) (staking_pool_whitelist_account_id k)
(lockup_code_deployers k) (local_deposit k) (min_lockup_deposit k) (owner_account_id k)
(guardians k) v (max_delegations k).
Definition cfg_max_delegations v (k : Config) : Config :=
mkConfig (lockup_contract_config k) (unlock_duration_ns k) (staking_pool_whitelist_account_id k)
(lockup_code_deployers k) (local_deposit k) (min_lockup_deposit k) (owner_account_id k)
(guardians k) (proposed_new_owner_account_id k) v.

(** The size is kept [as u32]. *)
Definition internal_set_lockup (hash : bytes) : MV unit :=
c ← get_state;
code ← lift (expect (lockup_code c !! hash) "Contract hash is not found");
requireM (bool_decide (sha256 code = hash)) "Invalid contract hash" ;;
version ← lift (u64_add (match lockup_contract_config (config c) with
               | Some k => contract_version k
               | None => 0
               end) 1);
put_state (with_config c (cfg_lockup_contract_config
(Some (mkLockupConfig (Z.of_nat (length code) mod 2 ^ 32) version hash)) (config c))).

Definition set_lockup_contract (hash : bytes) (min_deposit : NearToken) : MV unit :=
assert_one_yocto ;; assert_owner ;;
internal_set_lockup hash ;;
modify (fun c => with_config c (cfg_min_lockup_deposit min_deposit (config c))).

Definition set_local_deposit (v : NearToken) : MV unit := owner_update (cfg_local_deposit v).
Definition set_staking_pool_whitelist_account_id (v : AccountId) : MV unit :=
owner_update (cfg_staking_pool_whitelist_account_id v).
Definition propose_new_owner_account_id (v : option AccountId) : MV unit :=
owner_update (cfg_proposed_new_owner v).
Definition accept_ownership : MV unit :=
assert_one_yocto ;;
predecessor ← asks predecessor_account_id;
c ← get_state;
requireM (bool_decide (proposed_new_owner_account_id (config c) = Some predecessor))
"Only the proposed new owner can call this method" ;;
put_state (with_config c (cfg_owner predecessor (config c))).
(** [unlock_duration_sec] is a [u32], so the product fits a [u64]. *)
Definition set_unlock_duration_sec (v : Z) : MV unit :=
assert_one_yocto ;; assert_owner ;;
ns ← lift (u64_mul v NS_PER_SEC);
modify (fun c => with_config c (cfg_unlock_duration_ns ns (config c))).
Definition set_lockup_code_deployers (v : list AccountId) : MV unit :=
owner_update (cfg_lockup_code_deployers v).
Definition set_guardians (v : list AccountId) : MV unit := owner_update (cfg_guardians v).
Definition set_max_delegations (v : Z) : MV unit := owner_update (cfg_max_delegations v).

(** ** pause.rs *)
Definition pause : MV unit :=
assert_one_yocto ;; assert_guardian ;; modify (fun c => with_paused c true).
Definition unpause : MV unit :=
assert_one_yocto ;; assert_owner ;; modify (fun c => with_paused c false).

(** ** lockup.rs *)
Definition LOCKUP_DEPLOY_MIN_GAS : Z := 20 * 10 ^ 12.
Definition ON_LOCKUP_DEPLOYED : Z := 15 * 10 ^ 12.
Definition MIN_INTERNAL_DEPLOY_LOCKUP_GAS : Z := LOCKUP_DEPLOY_MIN_GAS + ON_LOCKUP_DEPLOYED.

Definition get_lockup_account_id (current a : AccountId) : result AccountId :=
let id := (hex_encode (take 20 (sha256 (string_bytes a))) +:+ "." +:+ current)%string in
if is_valid_account_id id then Ok id else Panic "Failed to create lockup account ID".

(** One delegate's pool, moved from the old balance to the new one. *)
Definition rebase_delegation (old_balance new_balance : VenearBalance) (d : DelegationEntry) : MV unit :=
delegate ← internal_expect_account_updated (delegate_id d);
p1 ← lift (Pool.pooled_sub_delegation (delegated_balance delegate) old_balance (bps d));
p2 ← lift (Pool.pooled_add_delegation p1 new_balance (bps d));
internal_set_account (delegate_id d) (Account.with_delegated delegate p2).

Definition internal_lockup_update (a : AccountId) (internal : AccountInternal)
(update : LockupUpdateV1) : MV unit :=
requireM (lockup_update_nonce internal <? lu_nonce update) "Invalid nonce" ;;
let internal' := mkInternal (lockup_version internal) (deposit internal) (lu_nonce update) in
account ← internal_expect_account_updated a;
let old_balance := balance account in
gs ← internal_global_state_updated;
old_locked ← lift (near_sub (near_balance old_balance) (deposit internal'));
let extra := if locked_near_balance update <? old_locked then 0
   else extra_venear_balance old_balance in
near ← lift (near_add (locked_near_balance update) (deposit internal'));
let new_balance := mkBalance near extra in
t1 ← lift (Pool.pooled_sub (total_venear_balance gs) old_balance);
t2 ← lift (Pool.pooled_add t1 new_balance);
for_each (delegations account) (rebase_delegation old_balance new_balance) ;;
internal_set_account_internal a internal' ;;
internal_set_account a (Account.with_balance account new_balance) ;;
internal_set_global_state (GlobalState.with_total gs t2).

Definition on_lockup_update (version : Version) (owner : AccountId) (update : VLockupUpdate) : MV unit :=
current ← asks current_account_id;
lockup_account_id ← lift (get_lockup_account_id current owner);
predecessor ← asks predecessor_account_id;
requireM (String.eqb predecessor lockup_account_id) "Permission denied" ;;
c ← get_state;
internal ← lift (expect (internal_get_account_internal c owner) "Account not found");
requireM (bool_decide (lockup_version internal = Some version)) "Invalid lockup version" ;;
match update with
| LV1 u =>
emit (Log (lockup_action "lockup_update" owner version (Some (lu_nonce u))
       (Some (lu_timestamp u)) (Some (locked_near_balance u)))) ;;
internal_lockup_update owner internal u
end.

Definition get_lockup_deployment_cost (c : Contract) : NearToken := min_lockup_deposit (config c).

Definition internal_deploy_lockup (owner : AccountId) : MV unit :=
gas ← asks remaining_gas;
requireM (MIN_INTERNAL_DEPLOY_LOCKUP_GAS <=? gas) "Not enough gas for lockup deployment" ;;
lockup_deposit ← asks attached_deposit;
c ← get_state;
requireM (bool_decide (is_Some (internal_get_account_internal c owner))) (not_registered owner) ;;
requireM (get_lockup_deployment_cost c <=? lockup_deposit) "Not enough deposit. Required: " ;;
k ← lift (expect (lockup_contract_config (config c)) "The lockup contract code is not initialized");
current ← asks current_account_id;
lockup_account_id ← lift (get_lockup_account_id current owner);
code ← lift (expect (lockup_code c !! contract_hash k) "Contract code is not found");
bh ← asks block_height;
nonce ← lift (u64_mul bh 1000000);
emit (DeployLockup lockup_account_id code
(mkLockupInit (contract_version k) owner current (unlock_duration_ns (config c))
(staking_pool_whitelist_account_id (config c)) nonce (min_lockup_deposit (config c)))
lockup_deposit
(mkOnDeployed (contract_version k) owner nonce lockup_deposit)).

Definition deploy_lockup : MV unit :=
assert_not_paused ;;
p ← asks predecessor_account_id;
internal_deploy_lockup p.

Definition on_lockup_deployed (version : Version) (a : AccountId) (nonce : Z) (lockup_deposit : NearToken)
: MV (option AccountId) :=
assert_private ;;
success ← asks is_promise_success;
if (success : bool) then
c ← get_state;
internal ← lift (expect (internal_get_account_internal c a) "Account not found");
requireM (lockup_update_nonce internal <=? nonce) "Invalid nonce" ;;
emit (Log (lockup_action "lockup_deployed" a version None None None)) ;;
internal_set_account_internal a (mkInternal (Some version) (deposit internal) nonce) ;;
current ← asks current_account_id;
id ← lift (get_lockup_account_id current a);
mret (Some id)
else
emit (Transfer a lockup_deposit) ;; mret None.

(** [prepare_lockup_code]: stores a code under its hash, for a deposit that
covers the storage. *)
Definition prepare_lockup_code (code : bytes) : MV bytes :=
assert_not_paused ;;
c ← get_state;
predecessor_id ← asks predecessor_account_id;
requireM (bool_decide (predecessor_id ∈ lockup_code_deployers (config c))) "Permission denied" ;;
let hash := sha256 code in
let c' := with_lockup_code c (<[hash := code]> (lockup_code c)) in
put_state c' ;;
byte_cost ← asks storage_byte_cost;
added ← lift (u64_sub (storage_usage c') (storage_usage c));
storage_cost ← lift (checked_op U128_MAX (byte_cost * added) unwrap_none);
attached ← asks attached_deposit;
requireM (storage_cost <=? attached) "Not enough attached deposit" ;;
(if storage_cost <? attached then
refund ← lift (near_sub attached storage_cost);
emit (Transfer predecessor_id refund)
else mret tt) ;;
mret hash.

(** ** snapshot.rs *)
Definition get_snapshot_view : MV (MerkleTreeSnapshot * VGlobalState) :=
assert_not_paused ;;
c ← get_state; bh ← asks block_height;
lift (expect (get_snapshot bh (tree c)) "Snapshot is not available").

Definition get_proof_view (a : AccountId) : MV (MerkleProof * VAccount) :=
assert_not_paused ;;
c ← get_state;
o ← lift (get_proof a (tree c));
lift (expect o ("Account " +:+ a +:+ " is not found")).

(** ** storage.rs *)
Definition storage_balance_bounds (c : Contract) : NearToken * option NearToken :=
(local_deposit (config c), Some (local_deposit (config c))).

Definition storage_balance_of (c : Contract) (a : AccountId) : option (NearToken * NearToken) :=
if bool_decide (is_Some (internals c !! a)) then Some (fst (storage_balance_bounds c), 0) else None.

Definition storage_deposit (account : option AccountId) : MV (NearToken * NearToken) :=
assert_not_paused ;;
amount ← asks attached_deposit;
predecessor ← asks predecessor_account_id;
let a := default predecessor account in
c ← get_state;
(if bool_decide (is_Some (internal_get_account_internal c a)) then
emit (LogStr "The account is already registered, refunding the deposit") ;;
if 0 <? amount then emit (Transfer predecessor amount) else mret tt
else
let min_balance := fst (storage_balance_bounds c) in
if amount <? min_balance then
panicM "The attached deposit is less than the minimum storage balance"
else
internal_register_account a min_balance ;;
let refund := saturating_sub amount min_balance in
if 0 <? refund then emit (Transfer predecessor refund) else mret tt) ;;
c' ← get_state;
lift (expect (storage_balance_of c' a) unwrap_none).

Definition storage_withdraw : MV unit := panicM "Storage withdrawal is not supported".

(** ** token.rs *)
Definition ft_balance_of (e : Env) (c : Contract) (a : AccountId) : result NearToken :=
match internal_get_account c a with
| Some acc => Account.total_balance acc (block_timestamp e) (internal_get_venear_growth_config c)
| None => Ok 0
end.

Definition ft_total_supply (e : Env) (c : Contract) : result NearToken :=
gs ← GlobalState.update (global_state_from (global_state (tree c))) (block_timestamp e);
Pool.total (total_venear_balance gs).

Definition ft_transfer : MV unit := panicM "Non transferable token".
Definition ft_transfer_call : MV unit := panicM "Non transferable token".

(** ** upgrade.rs: [migrate_state] recomputes every delegate's pool *)
Definition recompute_entry (owner : VenearBalance)
(recomputed : gmap AccountId PooledVenearBalance) (d : DelegationEntry)
: result (gmap AccountId PooledVenearBalance) :=
p ← Pool.pooled_add_delegation (default Pool.default (recomputed !! delegate_id d)) owner (bps d);
mret (<[delegate_id d := p]> recomputed).

Fixpoint fold_result {A B} (f : B -> A -> result B) (b : B) (l : list A) : result B :=
match l with
| [] => Ok b
| x :: l' => b' ← f b x; fold_result f b' l'
end.

(** The first loop of [migrate_state], for the account at [index]. *)
Definition recompute_account (e : Env) (c : Contract) (recomputed : gmap AccountId PooledVenearBalance)
(index : Z) : result (gmap AccountId PooledVenearBalance) :=
v ← expect (get_by_index index (tree c)) unwrap_none;
let account := account_from v in
let recomputed :=
if bool_decide (delegated_balance account = Pool.default) then recomputed
else match recomputed !! account_id account with
| Some _ => recomputed
| None => <[account_id account := Pool.default]> recomputed
end in
match delegations account with
| [] => mret recomputed
| _ =>
account' ← Account.update account (block_timestamp e) (internal_get_venear_growth_config c);
fold_result (recompute_entry (balance account')) recomputed (delegations account')
end.

(** The second loop, in the key order of the [BTreeMap]. *)
Definition write_recomputed (x : AccountId * PooledVenearBalance) : MV unit :=
delegate ← internal_expect_account_updated (fst x);
if bool_decide (delegated_balance delegate = snd x) then mret tt
else internal_set_account (fst x) (Account.with_delegated delegate (snd x)).

Definition key_le (x y : AccountId * PooledVenearBalance) : Prop := String.leb (fst x) (fst y) = true.
#[global] Instance key_le_dec : RelDecision key_le.
Proof. intros x y. unfold key_le. apply _. Defined.

Definition migrate_state : MV unit :=
assert_private ;;
c ← get_state;
e ← asks (fun e => e);
recomputed ← lift (fold_result (recompute_account e c) ∅ (seqZ 0 (tree_length (tree c))));
for_each (merge_sort key_le (map_to_list recomputed)) write_recomputed.
End contract.
