(* ===== verification/VenearLedger.v ===== *)
(** * The delegation ledger

    The abstract specification of the veNEAR bookkeeping, over finite maps of
    accounts that all stand at one time: every delegate's pool is the sum of
    the shares delegated to it, and the global total is the sum of all
    balances. The laws below say how the two sums move when one account's
    balance or delegations change. *)
From stdpp Require Import base gmap strings list.
From Stdlib Require Import ZArith Lia.
From S2P Require Import Prelude.
From S2P Require Import Near.
From S2P Require Import Common.
From S2P Require Import CommonFacts.

Local Open Scope Z_scope.

(** The two components of a balance, to state laws once. *)
Inductive comp : Type := CNear | CExtra.
Definition part (k : comp) (b : VenearBalance) : Z :=
  match k with CNear => near_balance b | CExtra => extra_venear_balance b end.

Lemma part_badd k a b : part k (badd a b) = part k a + part k b.
Proof. by destruct k. Qed.
Lemma part_bsub k a b : part k (bsub a b) = part k a - part k b.
Proof. by destruct k. Qed.
Lemma part_ext a b : (forall k, part k a = part k b) -> a = b.
Proof. intros H. apply balance_eq; [apply (H CNear) | apply (H CExtra)]. Qed.
Lemma bsum_part b : bsum b = part CNear b + part CExtra b.
Proof. done. Qed.

(** What the list [ds] of an owner with balance [b] credits to [d]. *)
Definition credit (k : comp) (d : AccountId) (b : VenearBalance) (ds : list DelegationEntry) : Z :=
  list_sum_Z (fun e => if decide (delegate_id e = d) then part k (contrib (bps e) b) else 0) ds.

Definition account_credit (k : comp) (d : AccountId) (o : Account) : Z :=
  credit k d (balance o) (delegations o).

(** ** The abstract specification *)
Definition pool_exact (m : gmap AccountId Account) : Prop :=
  forall d a k, m !! d = Some a ->
    part k (pool (delegated_balance a)) = map_sum (fun _ o => account_credit k d o) m.

Definition total_exact (m : gmap AccountId Account) (total : VenearBalance) : Prop :=
  forall k, part k total = map_sum (fun _ o => part k (pooled_form (balance o))) m.

Definition delegates_registered (m : gmap AccountId Account) : Prop :=
  forall a x, m !! a = Some x -> Forall (fun e => delegate_id e <> a /\ is_Some (m !! delegate_id e)) (delegations x).

(** Adding [f d] to the pool of every account [d]. *)
Definition shift_pool (b : VenearBalance) (a : Account) : Account :=
  Account.with_delegated a (Pooled (badd (pool (delegated_balance a)) b)).

Definition shift_pools (f : AccountId -> VenearBalance) (m : gmap AccountId Account) : gmap AccountId Account :=
  map_imap (fun d a => Some (shift_pool (f d) a)) m.

Lemma credit_app k d b ds1 ds2 : credit k d b (ds1 ++ ds2) = credit k d b ds1 + credit k d b ds2.
Proof. apply list_sum_Z_app. Qed.

Lemma credit_not_in k d b ds :
  Forall (fun e => delegate_id e <> d) ds -> credit k d b ds = 0.
Proof.
  intros H. unfold credit. rewrite (list_sum_Z_ext _ (fun _ => 0)).
  - apply list_sum_Z_0.
  - intros e He. rewrite Forall_forall in H. apply H in He. by case_decide.
Qed.

Lemma lookup_shift_pools f m d : shift_pools f m !! d = shift_pool (f d) <$> m !! d.
Proof. unfold shift_pools. rewrite map_lookup_imap. by destruct (m !! d). Qed.

Lemma shift_pool_shift_pool b1 b2 a : shift_pool b2 (shift_pool b1 a) = shift_pool (badd b1 b2) a.
Proof.
  unfold shift_pool, Account.with_delegated. cbn. do 2 f_equal. apply balance_eq; cbn; lia.
Qed.

Lemma shift_pool_0 a : shift_pool (mkBalance 0 0) a = a.
Proof.
  destruct a as [i t b [p] ds]. unfold shift_pool, Account.with_delegated. cbn. do 2 f_equal.
  apply balance_eq; cbn; lia.
Qed.

Lemma shift_pools_shift_pools f g m :
  shift_pools g (shift_pools f m) = shift_pools (fun d => badd (f d) (g d)) m.
Proof.
  apply map_eq. intros d. rewrite !lookup_shift_pools. destruct (m !! d); [|done]. cbn.
  by rewrite shift_pool_shift_pool.
Qed.

Lemma shift_pools_ext f g m :
  (forall d, is_Some (m !! d) -> f d = g d) -> shift_pools f m = shift_pools g m.
Proof.
  intros H. apply map_eq. intros d. rewrite !lookup_shift_pools.
  destruct (m !! d) eqn:E; [|done]. cbn. by rewrite H.
Qed.

Lemma shift_pools_0 f m : (forall d, is_Some (m !! d) -> f d = mkBalance 0 0) -> shift_pools f m = m.
Proof.
  intros H. apply map_eq. intros d. rewrite !lookup_shift_pools.
  destruct (m !! d) eqn:E; [|done]. cbn. by rewrite H, shift_pool_0.
Qed.

(** Sums that do not look at the pools do not see a shift. *)
Lemma map_sum_shift_pools (w : AccountId -> Account -> Z) f m :
  (forall d a b, w d (shift_pool b a) = w d a) ->
  map_sum w (shift_pools f m) = map_sum w m.
Proof.
  intros Hw. induction m as [|d a m Hd IH] using map_ind; [done|].
  assert (shift_pools f (<[d := a]> m) = <[d := shift_pool (f d) a]> (shift_pools f m)) as ->.
  { apply map_eq. intros d'. rewrite lookup_shift_pools. destruct (decide (d = d')) as [<-|Hne].
    - by rewrite !lookup_insert_eq.
    - by rewrite !lookup_insert_ne, lookup_shift_pools. }
  rewrite !map_sum_insert_new; [by rewrite IH, Hw | done |].
  by rewrite lookup_shift_pools, Hd.
Qed.

(** Rebinding an owner's balance and delegation list, and moving the pools by
    the difference of the credits, keeps every pool exact. *)
Lemma pool_exact_rebind m o ao ao' f :
  pool_exact m -> m !! o = Some ao ->
  delegated_balance ao' = delegated_balance ao ->
  f o = mkBalance 0 0 ->
  (forall d k, is_Some (m !! d) -> part k (f d) = account_credit k d ao' - account_credit k d ao) ->
  pool_exact (<[o := ao']> (shift_pools f m)).
Proof.
  intros Hex Ho Hpool Hfo Hf d a k Hd.
  assert (is_Some (m !! d)) as Hdm.
  { destruct (decide (o = d)) as [<-|Hne]; [eauto|].
    rewrite lookup_insert_ne, lookup_shift_pools in Hd by done.
    destruct (m !! d); [eauto | discriminate]. }
  rewrite (map_sum_insert_old _ _ o (shift_pool (f o) ao)) by (by rewrite lookup_shift_pools, Ho).
  rewrite map_sum_shift_pools by done.
  change (account_credit k d (shift_pool (f o) ao)) with (account_credit k d ao).
  destruct Hdm as [ad Hdm]. pose proof (Hex d ad k Hdm) as Hpd.
  pose proof (Hf d k ltac:(eauto)) as Hfd.
  destruct (decide (o = d)) as [<-|Hne].
  - rewrite lookup_insert_eq in Hd. injection Hd as <-. rewrite Hpool.
    replace ad with ao in * by congruence. rewrite Hfo in Hfd.
    assert (part k (mkBalance 0 0) = 0) by (by destruct k). lia.
  - rewrite lookup_insert_ne, lookup_shift_pools, Hdm in Hd by done. injection Hd as <-.
    cbn. rewrite part_badd. lia.
Qed.

Lemma total_exact_rebind m o ao ao' f total total' :
  total_exact m total -> m !! o = Some ao ->
  (forall k, part k total' = part k total - part k (pooled_form (balance ao)) + part k (pooled_form (balance ao'))) ->
  total_exact (<[o := ao']> (shift_pools f m)) total'.
Proof.
  intros Hex Ho Ht k. rewrite Ht, Hex.
  rewrite (map_sum_insert_old _ _ o (shift_pool (f o) ao)) by (by rewrite lookup_shift_pools, Ho).
  rewrite map_sum_shift_pools by done. done.
Qed.

(** A new account nobody delegates to, with an empty pool. *)
Lemma pool_exact_register m o ao :
  pool_exact m -> m !! o = None -> delegates_registered m ->
  delegated_balance ao = Pool.default -> delegations ao = [] ->
  pool_exact (<[o := ao]> m).
Proof.
  intros Hex Ho Hreg Hpool Hds d a k Hd. rewrite map_sum_insert_new by done.
  unfold account_credit at 1. rewrite Hds. cbn [credit list_sum_Z foldr].
  destruct (decide (o = d)) as [<-|Hne].
  - rewrite lookup_insert_eq in Hd. injection Hd as <-. rewrite Hpool.
    rewrite map_sum_0; [by destruct k|].
    intros a x Ha. apply credit_not_in. eapply Forall_impl; [exact (Hreg a x Ha)|].
    cbn. intros e [_ He] Heq. rewrite Heq, Ho in He. by destruct He.
  - rewrite lookup_insert_ne in Hd by done. rewrite (Hex d a k Hd). unfold credit; cbn. lia.
Qed.

Lemma total_exact_register m o ao total total' :
  total_exact m total -> m !! o = None ->
  (forall k, part k total' = part k total + part k (pooled_form (balance ao))) ->
  total_exact (<[o := ao]> m) total'.
Proof. intros Hex Ho Ht k. rewrite Ht, Hex, map_sum_insert_new by done. lia. Qed.

(** ** Conservation: what accounts own adds up to the total *)
Lemma credit_sum_all m b ds :
  Forall (fun e => is_Some ((m : gmap AccountId Account) !! delegate_id e)) ds ->
  forall k, map_sum (fun d _ => credit k d b ds) m = list_sum_Z (fun e => part k (contrib (bps e) b)) ds.
Proof.
  intros Hreg k. induction ds as [|e ds IH].
  - by rewrite map_sum_0.
  - inversion_clear Hreg as [|? ? [x He] Hds]. rewrite list_sum_Z_cons, <- (IH Hds).
    rewrite (map_sum_ext _ (fun d _ => (if decide (delegate_id e = d) then part k (contrib (bps e) b) else 0)
                                       + credit k d b ds)) by done.
    rewrite map_sum_add. f_equal.
    rewrite (map_sum_delete _ _ _ _ He). rewrite decide_True by done.
    rewrite map_sum_0; [lia|].
    intros d a [Hne _]%lookup_delete_Some. by rewrite decide_False.
Qed.

Theorem owned_sum_total m total :
  pool_exact m -> total_exact m total -> delegates_registered m ->
  map_sum (fun _ a => owned a) m = bsum total.
Proof.
  intros Hp Ht Hreg.
  rewrite (map_sum_ext _ (fun d a =>
    (map_sum (fun _ o => account_credit CNear d o) m + map_sum (fun _ o => account_credit CExtra d o) m)
    + (part CNear (pooled_form (balance a)) + part CExtra (pooled_form (balance a)))
    - (contrib_near_sum (balance a) (delegations a) + contrib_extra_sum (balance a) (delegations a)))).
  2:{ intros d a Hd. pose proof (Hp d a CNear Hd) as H1. pose proof (Hp d a CExtra Hd) as H2.
      pose proof (pooled_form_sum (balance a)) as H3. unfold owned. rewrite !bsum_part in *.
      cbn [part] in *. lia. }
  rewrite map_sum_sub, !map_sum_add, <- (Ht CNear), <- (Ht CExtra).
  rewrite (map_sum_swap (fun d _ _ o => account_credit CNear d o)).
  rewrite (map_sum_swap (fun d _ _ o => account_credit CExtra d o)).
  rewrite (map_sum_ext (fun _ o => map_sum (fun d _ => account_credit CNear d o) m)
             (fun _ o => contrib_near_sum (balance o) (delegations o))).
  2:{ intros a x Ha. apply (credit_sum_all m (balance x) (delegations x)).
      eapply Forall_impl; [exact (Hreg a x Ha)|]. by intros e []. }
  rewrite (map_sum_ext (fun _ o => map_sum (fun d _ => account_credit CExtra d o) m)
             (fun _ o => contrib_extra_sum (balance o) (delegations o))).
  2:{ intros a x Ha. apply (credit_sum_all m (balance x) (delegations x)).
      eapply Forall_impl; [exact (Hreg a x Ha)|]. by intros e []. }
  rewrite bsum_part. cbn [part]. lia.
Qed.

(** ** Time

    All accounts of a ledger brought to another time: growth commutes with
    every sum of the specification, so exactness at one time is exactness at
    all times. *)
Definition ledger_at (g : VenearGrowthConfig) (t : Z) (m : gmap AccountId Account) : gmap AccountId Account :=
  acc_at g t <$> m.

(** What the sums need of an account; time does not change it. *)
Definition account_lin (a : Account) : Prop :=
  aligned (update_timestamp a) /\ 0 <= near_balance (balance a) /\
  truncate_near_to_millis (near_balance (pool (delegated_balance a)))
    = near_balance (pool (delegated_balance a)) /\
  Forall (fun e => bps_ok (bps e)) (delegations a).

Section time.
Context (g : VenearGrowthConfig) (Hg : rate_ok g).

(** Growth of an amount without a sub-milliNEAR remainder is linear. *)
Definition growth_num (p : Z) : Z := numerator (growth_rate g) * p.

Lemma growth_truncated p n : aligned p -> truncate_near_to_millis n = n ->
growth g p n * RATE_DENOM = n * growth_num p.
Proof. intros Hp Hn. rewrite growth_spec, Hn by done. unfold growth_num. lia. Qed.

Lemma acc_at_acc_at s t a : aligned s -> aligned t -> aligned (update_timestamp a) ->
acc_at g t (acc_at g s a) = acc_at g t a.
Proof.
intros Hs Ht Ha. unfold acc_at; cbn.
pose proof (aligned_sub _ _ Hs Ha). pose proof (aligned_sub _ _ Ht Hs).
rewrite !grow_grow by done.
replace (s - update_timestamp a + (t - s)) with (t - update_timestamp a) by lia. done.
Qed.

Lemma acc_at_id a : acc_at g (update_timestamp a) a = a.
Proof. destruct a as [i t b [p] ds]. unfold acc_at; cbn. by rewrite Z.sub_diag, !grow_0. Qed.

Lemma ledger_at_twice s t m : aligned s -> aligned t ->
map_Forall (fun _ => account_lin) m -> ledger_at g t (ledger_at g s m) = ledger_at g t m.
Proof.
intros Hs Ht Hm. apply map_eq. intros a. unfold ledger_at. rewrite !lookup_fmap.
destruct (m !! a) as [x|] eqn:E; [|done]. cbn. f_equal.
apply acc_at_acc_at; [done..|]. by destruct (Hm a x E).
Qed.

Lemma ledger_at_lin t m : aligned t -> map_Forall (fun _ => account_lin) m ->
map_Forall (fun _ a => account_lin a /\ update_timestamp a = t) (ledger_at g t m).
Proof.
intros Ht Hm a x Ha. unfold ledger_at in Ha. rewrite lookup_fmap in Ha.
destruct (m !! a) as [y|] eqn:E; [|discriminate]. injection Ha as <-.
destruct (Hm a y E) as (_ & ? & ? & ?). done.
Qed.

(** The credits of a balance grown over [p], scaled. *)
Lemma credit_grow k d p b ds : aligned p -> 0 <= near_balance b ->
Forall (fun e => bps_ok (bps e)) ds ->
credit k d (grow g p b) ds * RATE_DENOM =
credit k d b ds * RATE_DENOM
+ match k with CNear => 0 | CExtra => credit CNear d b ds * growth_num p end.
Proof.
intros Hp Hb Hds. unfold credit. rewrite <- !list_sum_Z_mul.
destruct k.
- rewrite Z.add_0_r. apply list_sum_Z_ext. intros e He. done.
- rewrite <- list_sum_Z_add. apply list_sum_Z_ext. intros e He.
rewrite Forall_forall in Hds. case_decide; [|done].
rewrite contrib_grow by auto. cbn [part grow extra_venear_balance near_balance].
pose proof (growth_truncated p (near_balance (contrib (bps e) b)) Hp (share_truncated _ _)). lia.
Qed.

Lemma pool_exact_shift s t m : aligned s -> aligned t ->
map_Forall (fun _ a => account_lin a /\ update_timestamp a = s) m ->
pool_exact m -> pool_exact (ledger_at g t m).
Proof.
intros Hs Ht Hm Hex d a' k Hd. unfold ledger_at in *. rewrite lookup_fmap in Hd.
destruct (m !! d) as [a|] eqn:Ed; [|discriminate]. injection Hd as <-.
destruct (Hm d a Ed) as [(_ & _ & Htr & _) Hts].
rewrite map_sum_fmap. pose proof (aligned_sub _ _ Ht Hs) as Hp.
apply (Z.mul_reg_r _ _ RATE_DENOM); [done|]. rewrite <- map_sum_mul.
rewrite (map_sum_ext _ (fun _ o => account_credit k d o * RATE_DENOM
+ match k with CNear => 0 | CExtra => account_credit CNear d o * growth_num (t - s) end)).
2:{ intros o x Ho. destruct (Hm o x Ho) as [(_ & Hb & _ & Hds) Hx].
unfold account_credit. cbn [acc_at balance delegations]. rewrite Hx.
by apply credit_grow. }
rewrite map_sum_add, map_sum_mul, <- (Hex d a k Ed).
cbn [acc_at delegated_balance pool]. rewrite Hts. destruct k; cbn [part grow near_balance extra_venear_balance].
- rewrite map_sum_0 by done. lia.
- rewrite map_sum_mul, <- (Hex d a CNear Ed). cbn [part].
pose proof (growth_truncated (t - s) _ Hp Htr). lia.
Qed.

Lemma total_exact_shift s t m total : aligned s -> aligned t ->
map_Forall (fun _ a => account_lin a /\ update_timestamp a = s) m ->
truncate_near_to_millis (near_balance total) = near_balance total ->
total_exact m total -> total_exact (ledger_at g t m) (grow g (t - s) total).
Proof.
intros Hs Ht Hm Htr Hex k. unfold ledger_at. rewrite map_sum_fmap.
pose proof (aligned_sub _ _ Ht Hs) as Hp.
apply (Z.mul_reg_r _ _ RATE_DENOM); [done|]. rewrite <- map_sum_mul.
rewrite (map_sum_ext _ (fun _ o => part k (pooled_form (balance o)) * RATE_DENOM
+ match k with CNear => 0 | CExtra => part CNear (pooled_form (balance o)) * growth_num (t - s) end)).
2:{ intros o x Ho. destruct (Hm o x Ho) as [_ Hx]. cbn [acc_at balance]. rewrite Hx.
rewrite pooled_form_grow by done.
pose proof (growth_truncated (t - s) (near_balance (pooled_form (balance x))) Hp
        (truncate_near_idem _)). destruct k; cbn [part grow near_balance extra_venear_balance]; lia. }
rewrite map_sum_add, map_sum_mul, <- (Hex k). destruct k.
- rewrite map_sum_0 by done. cbn [part grow near_balance]. lia.
- rewrite map_sum_mul, <- (Hex CNear). cbn [part grow near_balance extra_venear_balance].
pose proof (growth_truncated (t - s) _ Hp Htr). lia.
Qed.
End time.
