(* ===== verification/VenearInvariant.v ===== *)
(** * The invariant of the veNEAR contract

    The abstraction function from the contract state to the delegation ledger
    ([accts], [snap], [total_at]), the invariant [Inv], and the effect of the
    internal operations on the ledger. *)
From stdpp Require Import base gmap strings list.
From Stdlib Require Import ZArith Lia.
From S2P Require Import Prelude.
From S2P Require Import Near.
From S2P Require Import Common.
From S2P Require Import CommonFacts.
From S2P Require Import MerkleTree.
From S2P Require Import MerkleFacts.
From S2P Require Import VenearContract.
From S2P Require Import VenearLedger.

Local Open Scope Z_scope.

Definition zero_balance : VenearBalance := mkBalance 0 0.
Definition truncated (b : VenearBalance) : Prop :=
  truncate_near_to_millis (near_balance b) = near_balance b.

Lemma truncated_badd a b : truncated a -> truncated b -> truncated (badd a b).
Proof.
  unfold truncated, truncate_near_to_millis. cbn. intros <- <-.
  rewrite <- Z.mul_add_distr_r, Z.div_mul; [done | by vm_compute].
Qed.

Lemma truncated_bsub a b : truncated a -> truncated b -> truncated (bsub a b).
Proof.
  unfold truncated, truncate_near_to_millis. cbn. intros <- <-.
  rewrite <- Z.mul_sub_distr_r, Z.div_mul; [done | by vm_compute].
Qed.

Lemma truncated_contrib x b : truncated (contrib x b).
Proof. apply share_truncated. Qed.
Lemma truncated_pooled_form b : truncated (pooled_form b).
Proof. apply truncate_near_idem. Qed.
Lemma truncated_zero : truncated zero_balance.
Proof. done. Qed.

#[export] Hint Resolve truncated_badd truncated_bsub truncated_contrib truncated_pooled_form
  truncated_zero : hos.

Lemma badd_bsub a b c : badd (bsub a b) c = badd a (bsub c b).
Proof. apply balance_eq; cbn; lia. Qed.
Lemma bsub_zero a b : bsub a b = badd a (bsub zero_balance b).
Proof. apply balance_eq; cbn; lia. Qed.

(** The sum of the amounts [delta e] of the entries [e] that name [x]. *)
Definition spread (delta : DelegationEntry -> VenearBalance) (ds : list DelegationEntry)
    (x : AccountId) : VenearBalance :=
  foldr (fun e acc => badd (if decide (delegate_id e = x) then delta e else zero_balance) acc)
    zero_balance ds.

Lemma part_zero k : part k zero_balance = 0.
Proof. by destruct k. Qed.

Lemma spread_part k delta ds x :
  part k (spread delta ds x) =
  list_sum_Z (fun e => if decide (delegate_id e = x) then part k (delta e) else 0) ds.
Proof.
  induction ds as [|e ds IH]; [apply part_zero|].
  cbn [spread foldr]. rewrite part_badd, list_sum_Z_cons. unfold spread in IH. rewrite IH.
  f_equal. case_decide; [done | apply part_zero].
Qed.

Lemma spread_contrib k b ds x :
  part k (spread (fun e => contrib (bps e) b) ds x) = credit k x b ds.
Proof. apply spread_part. Qed.

Lemma spread_bsub k (f h : DelegationEntry -> VenearBalance) ds x :
  part k (spread (fun e => bsub (f e) (h e)) ds x) = part k (spread f ds x) - part k (spread h ds x).
Proof.
  rewrite !spread_part. induction ds as [|e ds IH]; [done|]. rewrite !list_sum_Z_cons, IH.
  case_decide; rewrite ?part_bsub; lia.
Qed.

Lemma spread_zero k ds x : part k (spread (fun _ => zero_balance) ds x) = 0.
Proof.
  rewrite spread_part. rewrite (list_sum_Z_ext _ (fun _ => 0)); [apply list_sum_Z_0|].
  intros e _. case_decide; [apply part_zero | done].
Qed.

Lemma spread_not_in delta ds x : Forall (fun e => delegate_id e <> x) ds -> spread delta ds x = zero_balance.
Proof.
  intros H. apply part_ext. intros k. rewrite spread_part, part_zero.
  rewrite (list_sum_Z_ext _ (fun _ => 0)); [apply list_sum_Z_0|].
  intros e He. rewrite Forall_forall in H. apply H in He. by case_decide.
Qed.

Section inv.
Context `{VH : VenearHost}.

(** ** Abstraction *)
Definition accts (c : Contract) : gmap AccountId Account := account_from <$> view (tree c).
Definition gstate (c : Contract) : GlobalState := global_state_from (global_state (tree c)).
Definition rate (c : Contract) : VenearGrowthConfig := internal_get_venear_growth_config c.
Definition total_pool (c : Contract) : VenearBalance := pool (total_venear_balance (gstate c)).
Definition snap (t : Z) (c : Contract) : gmap AccountId Account := ledger_at (rate c) t (accts c).
Definition total_at (t : Z) (c : Contract) : VenearBalance :=
grow (rate c) (t - gs_update_timestamp (gstate c)) (total_pool c).

Definition acc_ok (a : AccountId) (x : Account) : Prop :=
account_id x = a /\ 0 <= update_timestamp x /\ account_lin x /\ balance_ok (balance x) /\
balance_ok (pool (delegated_balance x)) /\ delegations_ok (delegations x).

Definition global_ok (gs : GlobalState) : Prop :=
aligned (gs_update_timestamp gs) /\ 0 <= gs_update_timestamp gs /\
balance_ok (pool (total_venear_balance gs)) /\ truncated (pool (total_venear_balance gs)).

(** The part of the invariant that does not speak about the pools; it holds
before [migrate_state] too. *)
Record PreInv (c : Contract) : Prop := mkPreInv {
inv_tree : wf (tree c);
inv_rate : rate_ok (rate c);
inv_global : global_ok (gstate c);
inv_accounts : map_Forall acc_ok (accts c);
inv_registered : delegates_registered (accts c);
inv_internals : forall a, is_Some (internals c !! a) <-> is_Some (accts c !! a);
inv_deposit : forall a i x, internals c !! a = Some i -> accts c !! a = Some x ->
0 <= deposit i <= near_balance (balance x);
inv_config : 0 <= local_deposit (config c) <= U128_MAX;
inv_total : forall t, aligned t -> total_exact (snap t c) (total_at t c)
}.

Record Inv (c : Contract) : Prop := mkInv {
inv_pre : PreInv c;
inv_pools : forall t, aligned t -> pool_exact (snap t c)
}.

(** ** Reading the ledger *)
Lemma accts_get c a : internal_get_account c a = accts c !! a.
Proof. unfold internal_get_account, accts. by rewrite get_view, lookup_fmap. Qed.

Lemma snap_lookup t c a : snap t c !! a = acc_at (rate c) t <$> accts c !! a.
Proof. unfold snap, ledger_at. by rewrite lookup_fmap. Qed.

Lemma snap_is_Some t c a : is_Some (snap t c !! a) <-> is_Some (accts c !! a).
Proof. rewrite snap_lookup. apply fmap_is_Some. Qed.

Lemma accounts_lin c : map_Forall acc_ok (accts c) -> map_Forall (fun _ => account_lin) (accts c).
Proof. intros H a x Ha. by destruct (H a x Ha) as (_ & _ & ? & _). Qed.

(** What the invariant says of an account brought to time [t]. *)
Lemma snap_deposit t c o ao i : PreInv c -> snap t c !! o = Some ao -> internals c !! o = Some i ->
0 <= deposit i <= near_balance (balance ao).
Proof.
intros HP Hs Hi. rewrite snap_lookup in Hs. apply fmap_Some in Hs as (x & Hx & ->).
exact (inv_deposit c HP o i x Hi Hx).
Qed.

Lemma snap_delegates t c o ao : PreInv c -> snap t c !! o = Some ao ->
Forall (fun d => delegate_id d <> o /\ is_Some (accts c !! delegate_id d)) (delegations ao).
Proof.
intros HP Hs. rewrite snap_lookup in Hs. apply fmap_Some in Hs as (x & Hx & ->).
exact (inv_registered c HP o x Hx).
Qed.

(** Exactness at one time is exactness at every time. *)
Lemma pools_all_times s c : rate_ok (rate c) -> map_Forall acc_ok (accts c) -> aligned s ->
pool_exact (snap s c) -> forall t, aligned t -> pool_exact (snap t c).
Proof.
intros Hr Hok%accounts_lin Hs Hex t Ht. unfold snap.
rewrite <- (ledger_at_twice (rate c) Hr s t) by done.
apply (pool_exact_shift (rate c) Hr s t); [done..| |done]. by apply ledger_at_lin.
Qed.

Lemma total_all_times s c : rate_ok (rate c) -> map_Forall acc_ok (accts c) -> global_ok (gstate c) ->
aligned s -> total_exact (snap s c) (total_at s c) ->
forall t, aligned t -> total_exact (snap t c) (total_at t c).
Proof.
intros Hr Hok%accounts_lin (Hga & _ & _ & Htr) Hs Hex t Ht. unfold snap.
rewrite <- (ledger_at_twice (rate c) Hr s t) by done.
replace (total_at t c) with (grow (rate c) (t - s) (total_at s c)).
- apply (total_exact_shift (rate c) Hr s t); [done..|by apply ledger_at_lin | exact Htr | done].
- unfold total_at. rewrite grow_grow by (done || by apply aligned_sub). f_equal. lia.
Qed.

(** ** The internal operations on the ledger *)

(** Everything but the accounts is the same. *)
Record frame (c c' : Contract) : Prop := mkFrame {
fr_wf : wf (tree c');
fr_global : global_state (tree c') = global_state (tree c);
fr_internals : internals c' = internals c;
fr_config : config c' = config c;
fr_paused : paused c' = paused c;
fr_code : lockup_code c' = lockup_code c
}.

Lemma frame_refl c : wf (tree c) -> frame c c.
Proof. by split. Qed.

Lemma frame_trans c1 c2 c3 : frame c1 c2 -> frame c2 c3 -> frame c1 c3.
Proof. intros [] []. split; congruence || done. Qed.

Lemma frame_rate c c' : frame c c' -> rate c' = rate c /\ gstate c' = gstate c.
Proof. intros [_ H _ _ _ _]. unfold rate, gstate, internal_get_venear_growth_config. by rewrite H. Qed.

Lemma expect_updated_inv a e c acc c' es :
rate_ok (rate c) -> map_Forall acc_ok (accts c) -> env_ok e ->
internal_expect_account_updated a e c = Ok (acc, c', es) ->
c' = c /\ es = [] /\ snap (truncate_to_seconds (block_timestamp e)) c !! a = Some acc /\
acc_ok a acc /\ update_timestamp acc = truncate_to_seconds (block_timestamp e).
Proof.
intros Hr Hok He. unfold internal_expect_account_updated. intros H. m_inv.
rewrite accts_get in B. apply expect_Ok_inv in B.
destruct (Hok a a2 B) as (H1 & H2 & H3 & H4 & H5 & H6).
apply account_update_inv in B0 as (-> & Hal & Hle & Hb & Hp); [|done].
split_and!; [done | done | by rewrite snap_lookup, B | | done].
destruct H3 as (_ & ? & ? & ?). destruct H4 as [? _], H5 as [? _].
destruct He as [He _]. pose proof (truncate_to_seconds_le (block_timestamp e) ltac:(lia)).
split_and!; [done | cbn; lia | | done..].
split_and!; [apply truncate_to_seconds_aligned | done..].
Qed.

Lemma set_account_inv a acc e c u c' es :
wf (tree c) -> internal_set_account a acc e c = Ok (u, c', es) ->
frame c c' /\ accts c' = <[a := acc]> (accts c).
Proof.
intros Hwf. unfold internal_set_account. intros H. m_inv.
apply view_set in B as Hv; [|done]. destruct Hv as [Hv _].
split.
- split; cbn; try done; [by eapply wf_set | by eapply global_state_set].
- unfold accts. cbn. by rewrite Hv, fmap_insert.
Qed.

Lemma snap_set_account t a acc c c' :
rate_ok (rate c) -> frame c c' -> accts c' = <[a := acc]> (accts c) -> update_timestamp acc = t ->
snap t c' = <[a := acc]> (snap t c).
Proof.
intros Hr [Hr' _]%frame_rate Ha <-. unfold snap, ledger_at. rewrite Hr', Ha, fmap_insert.
by rewrite acc_at_id.
Qed.

(** The calls of a block time [t] that only move pools, by [f]. *)
Record moves (t : Z) (f : AccountId -> VenearBalance) (c c' : Contract) : Prop := mkMoves {
mv_frame : frame c c';
mv_snap : snap t c' = shift_pools f (snap t c);
mv_ok : map_Forall acc_ok (accts c');
mv_time : forall a x, accts c' !! a = Some x -> accts c !! a = Some x \/ update_timestamp x = t
}.

Lemma moves_ext t f f' c c' : (forall x, f x = f' x) -> moves t f c c' -> moves t f' c c'.
Proof.
intros Hf [H1 H2 H3 H4]. split; [done | | done | done]. rewrite H2. by apply shift_pools_ext.
Qed.

Lemma moves_trans t f1 f2 c1 c2 c3 :
moves t f1 c1 c2 -> moves t f2 c2 c3 -> moves t (fun x => badd (f1 x) (f2 x)) c1 c3.
Proof.
intros [H1 H2 _ H0] [H3 H4 H5 H6]. split; [by eapply frame_trans | | done |].
- by rewrite H4, H2, shift_pools_shift_pools.
- intros a x [Hx|Hx]%H6; eauto.
Qed.

Lemma moves_refl t c : wf (tree c) -> map_Forall acc_ok (accts c) -> moves t (fun _ => zero_balance) c c.
Proof. intros Hw Hok. split; [by apply frame_refl | by rewrite shift_pools_0 | done | eauto]. Qed.

(** Writing back an updated account with its pool changed by [delta]. *)
Lemma set_pool_moves a acc delta e c u c' es :
wf (tree c) -> rate_ok (rate c) -> map_Forall acc_ok (accts c) ->
snap (update_timestamp acc) c !! a = Some acc -> acc_ok a acc ->
balance_ok (badd (pool (delegated_balance acc)) delta) -> truncated delta ->
internal_set_account a (Account.with_delegated acc (Pooled (badd (pool (delegated_balance acc)) delta)))
e c = Ok (u, c', es) ->
moves (update_timestamp acc) (fun x => if decide (a = x) then delta else zero_balance) c c'.
Proof.
intros Hw Hr Hok Hs Ha Hb Ht H. apply set_account_inv in H as [Hf Hacc]; [|done].
split; [done| | |].
- rewrite (snap_set_account (update_timestamp acc) _ _ _ _ Hr Hf Hacc eq_refl). apply map_eq. intros x.
rewrite lookup_shift_pools. destruct (decide (a = x)) as [<-|Hne].
+ rewrite lookup_insert_eq, Hs. done.
+ rewrite lookup_insert_ne by done. destruct (snap _ c !! x); [|done]. cbn. by rewrite shift_pool_0.
- rewrite Hacc. apply map_Forall_insert_2; [|done].
destruct Ha as (? & ? & (? & ? & Htr & ?) & ? & ? & ?). split_and!; try done.
split_and!; try done. cbn. by apply truncated_badd.
- rewrite Hacc. intros b x [[<- <-]|[_ Hb']]%lookup_insert_Some; eauto.
Qed.

(** A loop over delegation entries whose body moves the pool of its entry. *)
Lemma loop_moves (body : DelegationEntry -> M Effect Contract unit) delta (P : DelegationEntry -> Prop)
(r : VenearGrowthConfig) e t :
(forall d c1 u1 c2 es1, P d -> wf (tree c1) -> rate c1 = r -> map_Forall acc_ok (accts c1) ->
body d e c1 = Ok (u1, c2, es1) ->
is_Some (accts c1 !! delegate_id d) /\
moves t (fun x => if decide (delegate_id d = x) then delta d else zero_balance) c1 c2) ->
forall ds c u c' es, Forall P ds -> wf (tree c) -> rate c = r -> map_Forall acc_ok (accts c) ->
for_each ds body e c = Ok (u, c', es) ->
Forall (fun d => is_Some (accts c !! delegate_id d)) ds /\ moves t (spread delta ds) c c'.
Proof.
intros Hbody. induction ds as [|d ds IH]; intros c u c' es Hds Hw Hr Hok H; cbn [for_each] in H.
{ m_inv. split; [done | by apply moves_refl]. }
inversion_clear Hds as [|? ? Hd Hds']. m_inv.
match goal with H : body d e c = _ |- _ => apply Hbody in H as [Hreg Hm]; [|done..] end.
destruct Hm as [Hf Hsn Hok1 Htm].
match goal with H : for_each ds _ e _ = _ |- _ => apply IH in H as [Hall Hm2] end;
[|done|apply Hf|by rewrite (proj1 (frame_rate _ _ Hf))|done].
split.
- constructor; [done|]. eapply Forall_impl; [exact Hall|]. cbn. intros d' Hd'.
apply (snap_is_Some t) in Hd'. rewrite Hsn, lookup_shift_pools in Hd'.
apply fmap_is_Some in Hd'. by apply (snap_is_Some t).
- apply (moves_ext t (fun x => badd (if decide (delegate_id d = x) then delta d else zero_balance)
                       (spread delta ds x))); [done|].
eapply moves_trans; [|exact Hm2]. by split.
Qed.

Section bodies.
Context (e : Env) (He : env_ok e).
Let t := truncate_to_seconds (block_timestamp e).

Lemma remove_delegation_moves b d c u c' es :
balance_ok b -> bps_ok (bps d) -> wf (tree c) -> rate_ok (rate c) -> map_Forall acc_ok (accts c) ->
remove_delegation b d e c = Ok (u, c', es) ->
is_Some (accts c !! delegate_id d) /\
moves t (fun x => if decide (delegate_id d = x) then bsub zero_balance (contrib (bps d) b)
else zero_balance) c c'.
Proof.
intros Hb Hx Hw Hr Hok H. unfold remove_delegation in H. m_inv.
match goal with H : internal_expect_account_updated _ _ _ = _ |- _ =>
apply expect_updated_inv in H as (-> & -> & Hs & Ha & Ht); [|done..] end.
apply pooled_sub_delegation_inv in B as [-> Hp]; [|done..]. rewrite bsub_zero in H, Hp.
split; [apply (snap_is_Some t); eauto|]. unfold t. rewrite <- Ht.
eapply set_pool_moves; eauto with hos. by rewrite Ht.
Qed.

Lemma add_delegation_moves b d c u c' es :
balance_ok b -> bps_ok (bps d) -> wf (tree c) -> rate_ok (rate c) -> map_Forall acc_ok (accts c) ->
add_delegation b d e c = Ok (u, c', es) ->
is_Some (accts c !! delegate_id d) /\
moves t (fun x => if decide (delegate_id d = x) then contrib (bps d) b else zero_balance) c c'.
Proof.
intros Hb Hx Hw Hr Hok H. unfold add_delegation in H. m_inv.
match goal with H : internal_expect_account_updated _ _ _ = _ |- _ =>
apply expect_updated_inv in H as (-> & -> & Hs & Ha & Ht); [|done..] end.
apply pooled_add_delegation_inv in B as [-> Hp]; [|done..].
split; [apply (snap_is_Some t); eauto|]. unfold t. rewrite <- Ht.
eapply set_pool_moves; eauto with hos. by rewrite Ht.
Qed.

Lemma rebase_delegation_moves b b' d c u c' es :
balance_ok b -> balance_ok b' -> bps_ok (bps d) -> wf (tree c) -> rate_ok (rate c) ->
map_Forall acc_ok (accts c) -> rebase_delegation b b' d e c = Ok (u, c', es) ->
is_Some (accts c !! delegate_id d) /\
moves t (fun x => if decide (delegate_id d = x) then bsub (contrib (bps d) b') (contrib (bps d) b)
else zero_balance) c c'.
Proof.
intros Hb Hb' Hx Hw Hr Hok H. unfold rebase_delegation in H. m_inv.
match goal with H : internal_expect_account_updated _ _ _ = _ |- _ =>
apply expect_updated_inv in H as (-> & -> & Hs & Ha & Ht); [|done..] end.
apply pooled_sub_delegation_inv in B0 as [-> Hp]; [|done..].
apply pooled_add_delegation_inv in B as [-> Hp2]; [|done..]. cbn [pool] in *.
rewrite badd_bsub in H, Hp2.
split; [apply (snap_is_Some t); eauto|]. unfold t. rewrite <- Ht.
eapply set_pool_moves; eauto with hos. by rewrite Ht.
Qed.

Section loops.
Context (b b' : VenearBalance) (ds : list DelegationEntry) (c : Contract).
Context (Hb : balance_ok b) (Hds : Forall (fun d => bps_ok (bps d)) ds) (Hw : wf (tree c))
(Hr : rate_ok (rate c)) (Hok : map_Forall acc_ok (accts c)).

Lemma remove_loop u c' es : for_each ds (remove_delegation b) e c = Ok (u, c', es) ->
moves t (spread (fun x => bsub zero_balance (contrib (bps x) b)) ds) c c'.
Proof.
intros H. eapply (loop_moves _ _ (fun d => bps_ok (bps d)) (rate c)); [|done..|exact H].
intros d c1 u1 c2 es1 Hd Hw1 Hr1 Hok1 Hbody. eapply remove_delegation_moves; eauto. by rewrite Hr1.
Qed.

Lemma add_loop u c' es : for_each ds (add_delegation b) e c = Ok (u, c', es) ->
Forall (fun d => is_Some (accts c !! delegate_id d)) ds /\
moves t (spread (fun x => contrib (bps x) b) ds) c c'.
Proof.
intros H. eapply (loop_moves _ _ (fun d => bps_ok (bps d)) (rate c)); [|done..|exact H].
intros d c1 u1 c2 es1 Hd Hw1 Hr1 Hok1 Hbody. eapply add_delegation_moves; eauto. by rewrite Hr1.
Qed.

Lemma rebase_loop u c' es : balance_ok b' ->
for_each ds (rebase_delegation b b') e c = Ok (u, c', es) ->
moves t (spread (fun x => bsub (contrib (bps x) b') (contrib (bps x) b)) ds) c c'.
Proof.
intros Hb' H. eapply (loop_moves _ _ (fun d => bps_ok (bps d)) (rate c)); [|done..|exact H].
intros d c1 u1 c2 es1 Hd Hw1 Hr1 Hok1 Hbody. eapply rebase_delegation_moves; eauto. by rewrite Hr1.
Qed.
End loops.
End bodies.

Lemma global_updated_inv e c gs c' es :
rate_ok (rate c) -> global_ok (gstate c) -> env_ok e ->
internal_global_state_updated e c = Ok (gs, c', es) ->
c' = c /\ es = [] /\
gs = mkGlobal (truncate_to_seconds (block_timestamp e))
(Pooled (total_at (truncate_to_seconds (block_timestamp e)) c)) (rate c) /\ global_ok gs.
Proof.
intros Hr (Hga & Hg0 & [Hgn Hge] & Hgt) He. unfold internal_global_state_updated. intros H. m_inv.
unfold GlobalState.update in B. res_inv. apply pool_update_inv in E as [-> Hx]; [|done].
split_and!; [done..|]. destruct He as [He _].
pose proof (truncate_to_seconds_le (block_timestamp e) ltac:(lia)).
split_and!; cbn; [apply truncate_to_seconds_aligned | lia | done | done].
Qed.

(** ** Changing one account and the pools it feeds *)
Lemma moves_lookup t f c c1 a : moves t f c c1 ->
is_Some (accts c1 !! a) <-> is_Some (accts c !! a).
Proof.
intros [_ Hs _ _]. rewrite <- !(snap_is_Some t), Hs, lookup_shift_pools. apply fmap_is_Some.
Qed.

(** Pools apart, the accounts are those of before. *)
Lemma moves_same t f c c1 a x1 : moves t f c c1 -> accts c1 !! a = Some x1 ->
exists x, accts c !! a = Some x /\ delegations x1 = delegations x /\
near_balance (balance x1) = near_balance (balance x).
Proof.
intros [Hf Hs _ _] H1. assert (snap t c1 !! a = Some (acc_at (rate c1) t x1)) as H2
by (by rewrite snap_lookup, H1).
rewrite Hs, lookup_shift_pools, snap_lookup in H2.
destruct (accts c !! a) as [x|]; [|discriminate]. exists x. split; [done|].
apply Some_inj in H2. split; [exact (eq_sym (f_equal delegations H2))|].
exact (eq_sym (f_equal (fun y => near_balance (balance y)) H2)).
Qed.

Lemma moves_registered t f c c1 : moves t f c c1 ->
delegates_registered (accts c) -> delegates_registered (accts c1).
Proof.
intros Hm Hreg a x1 Ha. destruct (moves_same t f c c1 a x1 Hm Ha) as (x & Hx & -> & _).
eapply Forall_impl; [exact (Hreg a x Hx)|]. cbn. intros d [Hne Hd]. split; [done|].
by apply (moves_lookup t f c c1).
Qed.

(** Moving pools keeps the part of the invariant that is not about them. *)
Lemma moves_pre t f c c1 : aligned t -> PreInv c -> moves t f c c1 -> PreInv c1.
Proof.
intros Ht HP Hm. pose proof (mv_frame _ _ _ _ Hm) as Hf. pose proof (frame_rate _ _ Hf) as [Hr Hg].
split.
- apply Hf.
- rewrite Hr. apply HP.
- rewrite Hg. apply HP.
- apply Hm.
- eapply moves_registered; [done | apply HP].
- intros a. rewrite (fr_internals _ _ Hf), (moves_lookup t f c c1 a Hm). apply HP.
- intros a i x1 Hi H1. rewrite (fr_internals _ _ Hf) in Hi.
destruct (moves_same t f c c1 a x1 Hm H1) as (x & Hx & _ & ->). exact (inv_deposit c HP a i x Hi Hx).
- rewrite (fr_config _ _ Hf). apply HP.
- apply (total_all_times t); [rewrite Hr; apply HP | apply Hm | rewrite Hg; apply HP | done |].
intros k. rewrite (mv_snap _ _ _ _ Hm), map_sum_shift_pools by done.
unfold total_at, total_pool. rewrite Hr, Hg. by apply (inv_total c HP).
Qed.

Section rebind.
Context (t : Z) (Ht : aligned t) (c c1 c2 : Contract) (f : AccountId -> VenearBalance)
(o : AccountId) (ao ao' : Account).
Context (Hpre : PreInv c) (Hm : moves t f c c1).
Context (Hwf2 : wf (tree c2)) (Hrate2 : rate c2 = rate c) (Hglob2 : global_ok (gstate c2))
(Hacc2 : accts c2 = <[o := ao']> (accts c1)) (Hcfg2 : local_deposit (config c2) = local_deposit (config c)).
Context (Hao : snap t c !! o = Some ao) (Hao' : acc_ok o ao') (Hts : update_timestamp ao' = t).
Context (Htotal : forall k, part k (total_at t c2) =
part k (total_at t c) - part k (pooled_form (balance ao)) + part k (pooled_form (balance ao'))).
Context (Hds : Forall (fun d => delegate_id d <> o /\ is_Some (accts c !! delegate_id d)) (delegations ao')).
Context (Hint : forall a i, internals c2 !! a = Some i ->
exists i0, internals c !! a = Some i0 /\ deposit i = deposit i0).
Context (Hint' : forall a, is_Some (internals c !! a) -> is_Some (internals c2 !! a)).
Context (Hdep : forall i, internals c !! o = Some i -> deposit i <= near_balance (balance ao')).

Lemma rebind_snap : snap t c2 = <[o := ao']> (shift_pools f (snap t c)).
Proof.
unfold snap, ledger_at. rewrite Hacc2, fmap_insert, Hrate2, <- Hts.
rewrite acc_at_id by apply Hpre. rewrite Hts. f_equal.
change (acc_at (rate c) t <$> accts c) with (snap t c). rewrite <- (mv_snap _ _ _ _ Hm).
unfold snap. by rewrite (proj1 (frame_rate _ _ (mv_frame _ _ _ _ Hm))).
Qed.

Lemma rebind_dom a : is_Some (accts c2 !! a) <-> is_Some (accts c !! a).
Proof.
rewrite Hacc2. destruct (decide (o = a)) as [<-|Hne].
- rewrite lookup_insert_eq, <- (snap_is_Some t), Hao. split; eauto.
- rewrite lookup_insert_ne by done. apply (moves_lookup t f c c1 a Hm).
Qed.

Lemma rebind_pre : PreInv c2.
Proof.
assert (map_Forall acc_ok (accts c2)) as Hok
by (rewrite Hacc2; apply map_Forall_insert_2; [done | apply Hm]).
split; try done.
- rewrite Hrate2. apply Hpre.
- intros a x Ha. destruct (decide (o = a)) as [<-|Hne].
+ rewrite Hacc2, lookup_insert_eq in Ha. injection Ha as <-.
eapply Forall_impl; [exact Hds|]. cbn. intros d [? ?]. split; [done|]. by apply rebind_dom.
+ rewrite Hacc2, lookup_insert_ne in Ha by done.
apply (moves_registered t f c c1 Hm) in Ha; [|apply Hpre].
eapply Forall_impl; [exact Ha|]. cbn. intros d [? ?]. split; [done|].
apply rebind_dom. by apply (moves_lookup t f c c1).
- intros a. rewrite rebind_dom, <- (inv_internals c Hpre). split; [|apply Hint'].
intros [i Hi]. apply Hint in Hi as (i0 & Hi & _). eauto.
- intros a i x Hi Ha. apply Hint in Hi as (i0 & Hi & ->).
rewrite Hacc2 in Ha. destruct (decide (o = a)) as [<-|Hne].
+ rewrite lookup_insert_eq in Ha. injection Ha as <-. split; [|by apply Hdep].
assert (is_Some (accts c !! o)) as [y Hy] by (apply (snap_is_Some t); eauto).
apply (inv_deposit c Hpre o i0 y Hi Hy).
+ rewrite lookup_insert_ne in Ha by done.
apply (moves_same t f c c1) in Ha as (y & Hy & _ & ->); [|done].
apply (inv_deposit c Hpre a i0 y Hi Hy).
- rewrite Hcfg2. apply Hpre.
- apply (total_all_times t); [rewrite Hrate2; apply Hpre | done | done | done |].
rewrite rebind_snap. eapply total_exact_rebind; [|exact Hao|exact Htotal].
by apply (inv_total c Hpre).
Qed.

Lemma rebind_inv : (forall s, aligned s -> pool_exact (snap s c)) ->
delegated_balance ao' = delegated_balance ao -> f o = zero_balance ->
(forall d k, part k (f d) = account_credit k d ao' - account_credit k d ao) -> Inv c2.
Proof.
intros Hpools Hpool Hfo Hf. pose proof rebind_pre as Hpre2. split; [done|].
apply (pools_all_times t); [apply Hpre2 | apply Hpre2 | done |].
rewrite rebind_snap. eapply pool_exact_rebind; [by apply Hpools | exact Hao | done..].
Qed.
End rebind.
End inv.
