(* ===== verification/VenearOps.v ===== *)
(** * The entry points of the veNEAR contract keep the ledger exact

    What every successful call does to the ledger, the step relation of the
    contract, and the properties of the states it can reach. *)
From stdpp Require Import base gmap strings list sorting.
From Stdlib Require Import ZArith Lia.
From S2P Require Import Prelude.
From S2P Require Import Near.
From S2P Require Import Common.
From S2P Require Import CommonFacts.
From S2P Require Import MerkleTree.
From S2P Require Import MerkleFacts.
From S2P Require Import VenearContract.
From S2P Require Import VenearLedger.
From S2P Require Import VenearInvariant.

Local Open Scope Z_scope.

(** ** validate_delegations *)
Definition ids (ds : list DelegationEntry) : list AccountId := map delegate_id ds.

(** The documented conditions on a list of entries. *)
Record valid_entries (owner : AccountId) (max : Z) (ds : list DelegationEntry) : Prop := mkValid {
  ve_length : Z.of_nat (length ds) <= max;
  ve_positive : Forall (fun d => bps d <> 0) ds;
  ve_not_self : Forall (fun d => delegate_id d <> owner) ds;
  ve_sorted : StronglySorted (strict String.le) (ids ds);
  ve_sum : bps_sum ds <= Bps.MAX_RAW
}.

Definition above (prev : option AccountId) (a : AccountId) : Prop :=
  match prev with Some q => strict String.le q a | None => True end.

Lemma leb_false_strict a q : String.leb a q = false <-> strict String.le q a.
Proof.
  unfold strict, String.le. split.
  - intros H. split; [|rewrite H; by intros []]. destruct (String.leb_total a q) as [?|E]; [congruence|].
    by rewrite E.
  - intros [_ H]. by destruct (String.leb a q).
Qed.

Lemma validate_entries_inv owner ds prev s0 s :
  validate_entries owner prev s0 ds = Ok s ->
  Forall (fun d => bps d <> 0 /\ delegate_id d <> owner) ds /\ s = s0 + bps_sum ds /\
  StronglySorted (strict String.le) (ids ds) /\ Forall (above prev) (ids ds).
Proof.
  revert prev s0. induction ds as [|d ds IH]; intros prev s0 H; cbn [validate_entries] in H.
  { res_inv. split_and!; [done | unfold bps_sum; cbn; lia | constructor | done]. }
  destruct (Bps.is_zero _) eqn:E1; [discriminate|].
  destruct (String.eqb _ _) eqn:E2; [discriminate|].
  destruct (match prev with Some _ => _ | None => _ end) eqn:E3; [discriminate|].
  unfold u32_add in H. res_inv. apply IH in H as (H1 & -> & H3 & H4).
  unfold Bps.is_zero in E1. bool_prop. apply String.eqb_neq in E2.
  unfold bps_sum. rewrite list_sum_Z_cons. fold (bps_sum ds). cbn [ids map].
  assert (above prev (delegate_id d)) as Hab by (destruct prev; [by apply leb_false_strict | done]).
  split_and!; [by constructor | lia | by constructor |]. constructor; [done|].
  eapply Forall_impl; [exact H4|]. cbn. intros a Ha. destruct prev as [q|]; [|done]. cbn in *.
  by etrans.
Qed.

Lemma validate_entries_ok owner ds prev s0 :
  Forall (fun d => bps_ok (bps d)) ds -> Forall (fun d => bps d <> 0 /\ delegate_id d <> owner) ds ->
  StronglySorted (strict String.le) (ids ds) -> Forall (above prev) (ids ds) ->
  0 <= s0 -> s0 + bps_sum ds <= U32_MAX ->
  validate_entries owner prev s0 ds = Ok (s0 + bps_sum ds).
Proof.
  revert prev s0. induction ds as [|d ds IH]; intros prev s0 Hb Hd Hs Ha H0 Hsum; cbn [validate_entries].
  { f_equal. unfold bps_sum; cbn; lia. }
  inversion_clear Hb as [|? ? Hb1 Hb2]. inversion_clear Hd as [|? ? [Hd1 Hd1'] Hd2].
  cbn [ids map] in *. inversion_clear Hs as [|? ? Hs1 Hs2]. inversion_clear Ha as [|? ? Ha1 Ha2].
  unfold Bps.is_zero. rewrite (proj2 (Z.eqb_neq _ _)) by done. rewrite (proj2 (String.eqb_neq _ _)) by done.
  assert (match prev with Some q => String.leb (delegate_id d) q | None => false end = false) as ->.
  { destruct prev; [by apply leb_false_strict | done]. }
  pose proof (bps_sum_nonneg ds Hb2) as Hn. unfold bps_sum in *. rewrite list_sum_Z_cons in *.
  unfold u32_add, bps_ok in *. rewrite checked_op_Ok by lia. cbn [mbind result_bind].
  rewrite (IH (Some (delegate_id d))); [f_equal; lia | done | done | done | done | lia | lia].
Qed.

Lemma validate_delegations_spec ds owner max s : Forall (fun d => bps_ok (bps d)) ds ->
  validate_delegations ds owner max = Ok s <-> valid_entries owner max ds /\ s = bps_sum ds.
Proof.
  intros Hb. unfold validate_delegations. split.
  - destruct (_ <? _) eqn:E; [discriminate|]. intros H. bool_prop. res_inv.
    apply validate_entries_inv in E0 as (H1 & -> & H3 & _).
    destruct (_ <? _) eqn:E2; [discriminate|]. res_inv. bool_prop.
    split; [|lia]. apply Forall_and in H1 as [? ?]. split; [lia | done | done | done | lia].
  - intros [[H1 H2 H3 H4 H5] ->].
    rewrite (proj2 (Z.ltb_ge _ _)) by lia.
    rewrite validate_entries_ok; [| done | by apply Forall_and | done | | lia |].
    + cbn [mbind result_bind]. rewrite (proj2 (Z.ltb_ge _ _)) by lia. by rewrite Z.add_0_l.
    + by apply Forall_true.
    + unfold Bps.MAX_RAW, U32_MAX in *. lia.
Qed.

Lemma valid_entries_nodup owner max ds : valid_entries owner max ds -> NoDup (ids ds).
Proof.
  intros [_ _ _ Hs _]. induction Hs as [|a l Hs IH Ha]; [constructor|].
  constructor; [|done]. intros Hin. rewrite Forall_forall in Ha. apply Ha in Hin. by destruct Hin as [? []].
Qed.

Section ops.
Context `{VH : VenearHost}.

(** ** Changes that do not touch the ledger *)
Lemma Inv_frame c c' : Inv c -> tree c' = tree c ->
(forall a i, internals c' !! a = Some i ->
exists i0, internals c !! a = Some i0 /\ deposit i = deposit i0) ->
(forall a, is_Some (internals c !! a) -> is_Some (internals c' !! a)) ->
0 <= local_deposit (config c') <= U128_MAX -> Inv c'.
Proof.
intros [[] Hp] Ht Hi Hi' Hc.
assert (accts c' = accts c /\ gstate c' = gstate c /\ rate c' = rate c /\
(forall t, snap t c' = snap t c) /\ (forall t, total_at t c' = total_at t c))
as (Ha & Hg & Hr & Hs & Htot).
{ unfold accts, gstate, snap, total_at, total_pool, gstate, rate, accts, internal_get_venear_growth_config.
by rewrite Ht. }
split; [split|]; rewrite ?Ha, ?Hg, ?Hr, ?Ht; try done.
- intros a. rewrite <- inv_internals. split; [|apply Hi'].
intros [i Hx]. apply Hi in Hx as (? & ? & _). eauto.
- intros a i x Hx Hax. apply Hi in Hx as (i0 & Hx & ->). eauto.
- intros t Hal. rewrite Hs, Htot. auto.
- intros t Hal. rewrite Hs. auto.
Qed.

Lemma Inv_same_internals c c' : Inv c -> tree c' = tree c -> internals c' = internals c ->
0 <= local_deposit (config c') <= U128_MAX -> Inv c'.
Proof. intros HI Ht Hi Hc. apply (Inv_frame c); [done | done | | | done]; rewrite Hi; eauto. Qed.

(** ** set_delegations *)
Lemma delegations_ok_valid owner max ds :
Forall (fun d => bps_ok (bps d)) ds -> valid_entries owner max ds -> delegations_ok ds.
Proof. intros Hb []. by split. Qed.

Lemma with_delegations_ok a x ds : acc_ok a x -> delegations_ok ds ->
acc_ok a (Account.with_delegations x ds).
Proof.
intros (? & ? & (? & ? & ? & ?) & ? & ? & ?) Hds. split_and!; try done. split_and!; try done. apply Hds.
Qed.

(** How much the pool of [d] gains when the owner [ao] replaces its entries
by [ds]. *)
Definition redelegation (ao : Account) (ds : list DelegationEntry) (d : AccountId) : VenearBalance :=
badd (spread (fun x => bsub zero_balance (contrib (bps x) (balance ao))) (delegations ao) d)
(spread (fun x => contrib (bps x) (balance ao)) ds d).

Lemma redelegation_part ao ds d k :
part k (redelegation ao ds d) = credit k d (balance ao) ds - credit k d (balance ao) (delegations ao).
Proof. unfold redelegation. rewrite part_badd, spread_bsub, !spread_contrib, spread_zero. lia. Qed.

Lemma redelegation_self ao ds o :
Forall (fun d => delegate_id d <> o) (delegations ao) -> Forall (fun d => delegate_id d <> o) ds ->
redelegation ao ds o = zero_balance.
Proof. intros H1 H2. unfold redelegation. by rewrite !spread_not_in. Qed.

(** The calls of [set_delegations] up to the storage refund: the caller's
account at the block time, the pools moved, and the new entries. *)
Lemma set_delegations_parts ds e c u c' es :
PreInv c -> env_ok e -> Forall (fun d => bps_ok (bps d)) ds ->
set_delegations ds e c = Ok (u, c', es) ->
let o := predecessor_account_id e in
let t := truncate_to_seconds (block_timestamp e) in
exists ao c1, snap t c !! o = Some ao /\ acc_ok o ao /\ update_timestamp ao = t /\
paused c = false /\ valid_entries o (max_delegations (config c)) ds /\
Forall (fun d => is_Some (accts c !! delegate_id d)) ds /\
moves t (redelegation ao ds) c c1 /\ frame c1 c' /\
accts c' = <[o := Account.with_delegations ao ds]> (accts c1).
Proof.
intros HP He Hb H o t. unfold set_delegations, assert_not_paused in H. m_inv. bool_prop.
assert (s9 = c') as -> by (destruct (storage_usage c <? storage_usage s9); m_all; done). clear H E12.
apply expect_updated_inv in E5 as (-> & _ & Hao & Hok & Hts); [|apply HP..|done].
apply validate_delegations_spec in B1 as [Hv _]; [|done].
pose proof Hok as (_ & _ & (_ & _ & _ & Hbps) & Hbal & _ & _).
pose proof (remove_loop e He _ _ _ Hbal Hbps (inv_tree c HP) (inv_rate c HP) (inv_accounts c HP)
    _ _ _ E6) as Hm1.
pose proof (frame_rate _ _ (mv_frame _ _ _ _ Hm1)) as [Hr1 _].
destruct (add_loop e He _ _ _ Hbal Hb (fr_wf _ _ (mv_frame _ _ _ _ Hm1))
  ltac:(rewrite Hr1; apply HP) (mv_ok _ _ _ _ Hm1) _ _ _ E7) as [Hreg Hm2].
pose proof (moves_trans _ _ _ _ _ _ Hm1 Hm2) as Hm.
apply set_account_inv in E9 as [Hf9 Hacc9]; [|apply Hm].
exists a5, s7. split_and!; try done.
eapply Forall_impl; [exact Hreg|]. cbn. intros d. by apply (moves_lookup _ _ _ _ _ Hm1).
Qed.

Lemma set_delegations_inv ds e c u c' es :
Inv c -> env_ok e -> Forall (fun d => bps_ok (bps d)) ds ->
set_delegations ds e c = Ok (u, c', es) -> Inv c'.
Proof.
intros HI He Hb H. pose proof (inv_pre c HI) as HP.
apply set_delegations_parts in H as (ao & c1 & Hao & Hok & Hts & _ & Hv & Hreg & Hm & Hf & Hacc); [|done..].
pose proof (frame_trans _ _ _ (mv_frame _ _ _ _ Hm) Hf) as Hfr.
pose proof (frame_rate _ _ Hfr) as [Hr Hg].
eapply (rebind_inv _ (truncate_to_seconds_aligned _) c c1 c' _ _ ao _ HP Hm);
[apply Hf | done | rewrite Hg; apply HP | exact Hacc | by rewrite (fr_config _ _ Hfr) | done
| apply with_delegations_ok; [done | by eapply delegations_ok_valid] | done
| intros k; unfold total_at, total_pool; rewrite Hg, Hr; cbn; lia
| apply Forall_and; split; [apply Hv | done]
| rewrite (fr_internals _ _ Hfr); eauto | by rewrite (fr_internals _ _ Hfr)
| intros i Hi; exact (proj2 (snap_deposit _ _ _ _ _ HP Hao Hi)) | apply HI | done | | apply redelegation_part].
apply redelegation_self; [|apply Hv].
eapply Forall_impl; [by eapply snap_delegates|]. by intros ? [].
Qed.

(** ** Global state and internal data *)
Lemma set_global_inv gs e c u c' es :
wf (tree c) -> internal_set_global_state gs e c = Ok (u, c', es) ->
wf (tree c') /\ gstate c' = gs /\ accts c' = accts c /\ internals c' = internals c /\
config c' = config c /\ paused c' = paused c.
Proof.
intros Hw H. unfold internal_set_global_state in H. m_inv.
split_and!; try done; [by apply wf_set_global_state|]. unfold accts. cbn [tree with_tree]. by rewrite view_set_global_state.
Qed.

Lemma total_at_now gs c : gstate c = gs -> rate_ok (rate c) ->
total_at (gs_update_timestamp gs) c = pool (total_venear_balance gs).
Proof. intros <- Hr. unfold total_at. rewrite Z.sub_diag. by apply grow_0. Qed.

(** ** internal_lockup_update *)

(** The owner's balance after a report of [locked] NEAR by its lockup. *)
Definition lockup_balance (dep locked : Z) (b : VenearBalance) : VenearBalance :=
mkBalance (locked + dep) (if locked <? near_balance b - dep then 0 else extra_venear_balance b).

Lemma lockup_update_parts a i upd e c u c' es :
PreInv c -> env_ok e -> 0 <= locked_near_balance upd -> internals c !! a = Some i ->
internal_lockup_update a i upd e c = Ok (u, c', es) ->
let t := truncate_to_seconds (block_timestamp e) in
exists ao c1, let b' := lockup_balance (deposit i) (locked_near_balance upd) (balance ao) in
snap t c !! a = Some ao /\ acc_ok a ao /\ update_timestamp ao = t /\ balance_ok b' /\
lockup_update_nonce i < lu_nonce upd /\
moves t (spread (fun x => bsub (contrib (bps x) b') (contrib (bps x) (balance ao))) (delegations ao)) c c1 /\
wf (tree c') /\ accts c' = <[a := Account.with_balance ao b']> (accts c1) /\
gstate c' = mkGlobal t (Pooled (badd (bsub (total_at t c) (pooled_form (balance ao))) (pooled_form b')))
      (rate c) /\
balance_ok (total_pool c') /\
internals c' = <[a := mkInternal (lockup_version i) (deposit i) (lu_nonce upd)]> (internals c) /\
config c' = config c /\ paused c' = paused c.
Proof.
intros HP He Hl Hi H t. unfold internal_lockup_update in H. m_inv. bool_prop.
apply expect_updated_inv in E0 as (-> & _ & Hao & Hok & Hts); [|apply HP..|done].
apply global_updated_inv in E1 as (-> & _ & -> & _); [|apply HP..|done].
amt_inv. cbn [deposit] in *.
change (mkBalance (locked_near_balance upd + deposit i) _)
with (lockup_balance (deposit i) (locked_near_balance upd) (balance a1)) in *.
set (b' := lockup_balance (deposit i) (locked_near_balance upd) (balance a1)) in *.
pose proof Hok as (_ & _ & (_ & _ & _ & Hbps) & Hbal & _ & _).
assert (balance_ok b') as Hb'.
{ split; [done|]. destruct Hbal. cbn. destruct (_ <? _); [done|lia]. }
apply (rebase_loop e He _ b' _ _ Hbal Hbps (inv_tree c HP) (inv_rate c HP) (inv_accounts c HP)) in E6 as Hm;
[|done].
apply pooled_sub_inv in B1 as [-> _]. apply pooled_add_inv in B0 as [-> Hpool].
unfold internal_set_account_internal in E7. m_inv. destruct (mv_frame _ _ _ _ Hm) as [G1 G2 G3 G4 G5 G6].
apply set_account_inv in E8 as [[F1 F2 F3 F4 F5 F6] Hacc8]; [|done].
apply set_global_inv in H as (Hw & Hg & Hacc & Hint & Hcfg & Hpau); [|done].
exists a1, s6. split_and!; try done; try congruence.
- by rewrite Hacc, Hacc8.
- unfold total_pool. by rewrite Hg.
- rewrite Hint, F3. cbn. congruence.
- rewrite Hcfg, F4. cbn. congruence.
- rewrite Hpau, F5. cbn. congruence.
Qed.

Lemma lockup_update_inv a i upd e c u c' es :
Inv c -> env_ok e -> 0 <= locked_near_balance upd -> internals c !! a = Some i ->
internal_lockup_update a i upd e c = Ok (u, c', es) -> Inv c'.
Proof.
intros HI He Hl Hi H. pose proof (inv_pre c HI) as HP.
apply lockup_update_parts in H
as (ao & c1 & Hao & Hok & Hts & Hb' & _ & Hm & Hw & Hacc & Hg & Htot & Hint & Hcfg & _); [|done..].
set (b' := lockup_balance (deposit i) (locked_near_balance upd) (balance ao)) in *.
assert (rate c' = rate c) as Hr by (change (venear_growth_config (gstate c') = rate c); by rewrite Hg).
pose proof (total_at_now _ c' Hg ltac:(rewrite Hr; apply HP)) as Hnow. cbn [gs_update_timestamp] in Hnow.
pose proof (snap_deposit _ _ _ _ _ HP Hao Hi) as Hdep.
assert (global_ok (gstate c')) as Hgok.
{ destruct He as [He _]. pose proof (truncate_to_seconds_le (block_timestamp e) ltac:(lia)).
unfold total_pool in Htot. rewrite Hg in *. split_and!; [apply truncate_to_seconds_aligned | cbn; lia | done |].
cbn. apply truncated_badd; [apply truncated_bsub|]; [|apply truncated_pooled_form..].
apply (inv_global c HP). }
eapply (rebind_inv _ (truncate_to_seconds_aligned _) c c1 c' _ _ ao _ HP Hm);
[done | done | done | exact Hacc | by rewrite Hcfg | done | | done | | | | | | apply HI | done | |].
- destruct Hok as (? & ? & (? & ? & ? & ?) & ? & ? & ?). split_and!; try done. split_and!; try done. apply Hb'.
- intros k. rewrite Hnow. cbn [pool total_venear_balance]. rewrite part_badd, part_bsub. done.
- exact (snap_delegates _ _ _ _ HP Hao).
- intros x j. rewrite Hint, lookup_insert_Some. intros [[<- <-]|[_ Hx]]; eauto.
- intros x Hx. rewrite Hint. destruct (decide (a = x)) as [<-|]; [by rewrite lookup_insert_eq; eauto|].
by rewrite lookup_insert_ne.
- intros j Hj. replace j with i by congruence. cbn. lia.
- apply spread_not_in. eapply Forall_impl; [exact (snap_delegates _ _ _ _ HP Hao)|]. by intros ? [].
- intros d k. rewrite spread_bsub, !spread_contrib. done.
Qed.

(** ** internal_register_account *)
Definition new_account (a : AccountId) (t dep : Z) : Account :=
mkAccount a t (VenearBalance.from_near dep) Pool.default [].

Lemma register_parts a dep e c u c' es :
PreInv c -> env_ok e -> internal_register_account a dep e c = Ok (u, c', es) ->
let t := truncate_to_seconds (block_timestamp e) in
accts c !! a = None /\ wf (tree c') /\ accts c' = <[a := new_account a t dep]> (accts c) /\
gstate c' = mkGlobal t (Pooled (badd (total_at t c) (pooled_form (VenearBalance.from_near dep)))) (rate c) /\
balance_ok (total_pool c') /\ internals c' = <[a := mkInternal None dep 0]> (internals c) /\
config c' = config c /\ paused c' = paused c.
Proof.
intros HP He H t. unfold internal_register_account, internal_set_account_internal in H. m_inv. bool_prop.
match goal with H : internal_global_state_updated _ _ = _ |- _ => apply global_updated_inv in H as (-> & _ & -> & _) end;
[|apply HP..|done].
apply pooled_add_inv in B0 as [-> Hpool].
match goal with H : internal_set_account _ _ _ _ = _ |- _ => apply set_account_inv in H as [Hf8 Hacc8] end;
[|apply HP]. destruct Hf8 as [F1 F2 F3 F4 F5 F6].
apply set_global_inv in H as (Hw & Hg & Hacc & Hint & Hcfg & Hpau); [|done].
split_and!; try done; try congruence.
- destruct (accts c !! a) eqn:E; [|done]. assert (is_Some (internals c !! a)) as [? ?]; [|congruence].
apply (inv_internals c HP). eauto.
- by rewrite Hacc, Hacc8.
- unfold total_pool. by rewrite Hg.
- by rewrite Hint, F3.
- by rewrite Hcfg, F4.
- by rewrite Hpau, F5.
Qed.

Lemma new_account_ok a t dep : aligned t -> 0 <= t -> 0 <= dep <= U128_MAX -> acc_ok a (new_account a t dep).
Proof.
intros Ht H0 Hd. assert (balance_ok zero_balance) by done.
split_and!; [done | done | | split; [done | by unfold U128_MAX] | done | by split].
split_and!; [done | cbn; lia | done | constructor].
Qed.

Lemma register_inv a dep e c u c' es :
Inv c -> env_ok e -> 0 <= dep <= U128_MAX ->
internal_register_account a dep e c = Ok (u, c', es) -> Inv c'.
Proof.
intros HI He Hd H. pose proof (inv_pre c HI) as HP.
apply register_parts in H as (Hnone & Hw & Hacc & Hg & Htot & Hint & Hcfg & _); [|done..].
set (t := truncate_to_seconds (block_timestamp e)) in *.
assert (rate c' = rate c) as Hr by (change (venear_growth_config (gstate c') = rate c); by rewrite Hg).
assert (rate_ok (rate c')) as Hrok by (rewrite Hr; apply HP).
pose proof (total_at_now _ c' Hg Hrok) as Hnow. cbn [gs_update_timestamp] in Hnow.
assert (aligned t) as Hal by apply truncate_to_seconds_aligned.
assert (0 <= t) as Ht0 by (destruct He as [He _]; apply truncate_to_seconds_le; lia).
assert (map_Forall acc_ok (accts c')) as Hok
by (rewrite Hacc; apply map_Forall_insert_2; [by apply new_account_ok | apply HP]).
assert (global_ok (gstate c')) as Hgok.
{ unfold total_pool in Htot. rewrite Hg in *. split_and!; [done | done | done |].
cbn. apply truncated_badd; [apply (inv_global c HP) | apply truncated_pooled_form]. }
assert (snap t c' = <[a := new_account a t dep]> (snap t c)) as Hsnap.
{ unfold snap, ledger_at. rewrite Hr, Hacc, fmap_insert. f_equal.
apply (acc_at_id (rate c) (inv_rate c HP) (new_account a t dep)). }
assert (snap t c !! a = None) as Hsn by (by rewrite snap_lookup, Hnone).
split; [split|]; try done.
- intros b x. rewrite Hacc. intros [[<- <-]|[Hne Hb]]%lookup_insert_Some; [constructor|].
eapply Forall_impl; [exact (inv_registered c HP b x Hb)|]. cbn. intros d [? [y Hy]]. split; [done|].
rewrite lookup_insert_ne; [eauto | congruence].
- intros b. rewrite Hint, Hacc, !lookup_insert_is_Some, (inv_internals c HP). done.
- intros b i x. rewrite Hint, Hacc, !lookup_insert_Some.
intros [[<- <-]|[Hne Hb]] [[? <-]|[? Hx]]; try done; [cbn; lia|]. exact (inv_deposit c HP b i x Hb Hx).
- rewrite Hcfg. apply HP.
- apply (total_all_times t); [done..|]. rewrite Hsnap, Hnow.
eapply total_exact_register; [by apply (inv_total c HP) | done |]. intros k. apply part_badd.
- apply (pools_all_times t); [done..|]. rewrite Hsnap.
apply pool_exact_register; [by apply HI | done | | done | done].
intros b x Hb. eapply Forall_impl; [exact (snap_delegates _ _ _ _ HP Hb)|].
cbn. intros d [? ?]. split; [done|]. by apply snap_is_Some.
Qed.

(** ** The remaining entry points *)
Lemma storage_deposit_inv acc e c r c' es :
Inv c -> env_ok e -> storage_deposit acc e c = Ok (r, c', es) -> Inv c'.
Proof.
intros HI He H. unfold storage_deposit, assert_not_paused in H. m_all; try done.
all: eapply register_inv; eauto; apply (inv_config c (inv_pre c HI)).
Qed.

Lemma on_lockup_update_inv v owner upd e c u c' es :
Inv c -> env_ok e -> (match upd with LV1 l => 0 <= locked_near_balance l end) ->
on_lockup_update v owner upd e c = Ok (u, c', es) -> Inv c'.
Proof.
intros HI He Hl H. unfold on_lockup_update in H. destruct upd as [l]. m_inv.
match goal with H : expect (internal_get_account_internal _ _) _ = _ |- _ => apply expect_Ok_inv in H as Hi end.
eapply lockup_update_inv; eauto.
Qed.

Lemma on_lockup_deployed_inv v a n d e c r c' es :
Inv c -> on_lockup_deployed v a n d e c = Ok (r, c', es) -> Inv c'.
Proof.
intros HI H. unfold on_lockup_deployed, internal_set_account_internal in H. m_all; [|done].
match goal with H : expect (internal_get_account_internal _ _) _ = _ |- _ => apply expect_Ok_inv in H as Hi end.
apply (Inv_frame c); [done | done | | | apply HI]; cbn.
- intros x i. rewrite lookup_insert_Some. intros [[<- <-]|[_ Hx]]; eauto.
- intros x Hx. rewrite lookup_insert_is_Some. destruct (decide (a = x)); eauto.
Qed.
End ops.
