(* ===== verification/VenearMigrate.v ===== *)
(** * The upgrade migration of the veNEAR contract (upgrade.rs)

    [migrate_state] recomputes every delegate's pool from the balances of its
    delegators. From any state with a sound account table, whatever its pools
    hold, it reaches a state of the full invariant. *)
From stdpp Require Import base gmap strings list sorting.
From Stdlib Require Import ZArith Lia.
From S2P Require Import Prelude.
From S2P Require Import Near.
From S2P Require Import Common.
From S2P Require Import CommonFacts.
From S2P Require Import MerkleTree.
From S2P Require Import MerkleFacts.
From S2P Require Import VenearContract.
From S2P Require Import VenearLedger.
From S2P Require Import VenearInvariant.

Local Open Scope Z_scope.

(** ** Sums over the tree's indices *)
Lemma list_sum_Z_perm {A} (f : A -> Z) l1 l2 : l1 ≡ₚ l2 -> list_sum_Z f l1 = list_sum_Z f l2.
Proof. induction 1; cbn in *; unfold list_sum_Z in *; lia. Qed.

Lemma map_sum_to_list {K V} `{Countable K} (f : K -> V -> Z) (m : gmap K V) :
  map_sum f m = list_sum_Z (fun kv => f kv.1 kv.2) (map_to_list m).
Proof.
  induction m as [|k v m Hk IH] using map_ind.
  - by rewrite map_sum_empty, map_to_list_empty.
  - rewrite map_sum_insert_new by done. rewrite (list_sum_Z_perm _ _ _ (map_to_list_insert m k v Hk)).
    by rewrite list_sum_Z_cons, IH.
Qed.

Lemma list_sum_Z_map {A B} (g : A -> B) (f : B -> Z) l : list_sum_Z f (map g l) = list_sum_Z (fun x => f (g x)) l.
Proof. induction l as [|x l IH]; [done|]. cbn [map]. by rewrite !list_sum_Z_cons, IH. Qed.

Lemma map_sum_omap {K V W} `{Countable K} (h : V -> option W) (f : K -> W -> Z) (m : gmap K V) :
  map_sum f (omap h m) = map_sum (fun k v => match h v with Some w => f k w | None => 0 end) m.
Proof.
  induction m as [|k v m Hk IH] using map_ind; [by rewrite omap_empty|].
  rewrite map_sum_insert_new by done. destruct (h v) as [w|] eqn:E.
  - rewrite (omap_insert_Some _ _ _ _ w) by done.
    rewrite map_sum_insert_new; [by rewrite IH|]. by rewrite lookup_omap, Hk.
  - rewrite omap_insert_None by done. rewrite delete_id by (by rewrite lookup_omap, Hk). lia.
Qed.

Section indices.
Context {V G : Type} `{HC : Crypto} `{HB : Borsh V}.
Implicit Types t : MerkleTree V G.

Lemma accounts_indices t : wf t -> (map_to_list (accounts t)).*2 ≡ₚ seqZ 0 (tree_length t).
Proof.
intros Hw. apply NoDup_Permutation; [|apply NoDup_seqZ|].
- apply NoDup_fmap_2_strong; [|apply NoDup_map_to_list].
intros [a i] [b j] Ha Hb Hij. cbn in Hij. subst.
apply elem_of_map_to_list in Ha, Hb. by rewrite (wf_inj _ Hw a b j).
- intros i. rewrite elem_of_seqZ, list_elem_of_fmap. split.
+ intros ([a j] & -> & Ha%elem_of_map_to_list). cbn. apply (wf_accounts _ Hw) in Ha. lia.
+ intros Hi. destruct (wf_onto _ Hw i ltac:(lia)) as [a Ha]. exists (a, i).
split; [done | by apply elem_of_map_to_list].
Qed.

Lemma view_sum t (f : V -> Z) : wf t ->
map_sum (fun _ v => f v) (view t) =
list_sum_Z (fun i => match data t !! i with Some v => f v | None => 0 end) (seqZ 0 (tree_length t)).
Proof.
intros Hw. unfold view. rewrite map_sum_omap, map_sum_to_list.
rewrite <- (list_sum_Z_perm _ _ _ (accounts_indices t Hw)). by rewrite list_sum_Z_map.
Qed.

Lemma view_by_index t a v : wf t -> view t !! a = Some v ->
exists i, accounts t !! a = Some i /\ i ∈ seqZ 0 (tree_length t) /\ get_by_index i t = Some v.
Proof.
intros Hw Hv. rewrite <- get_view in Hv. unfold get in Hv.
destruct (accounts t !! a) as [i|] eqn:E; [|discriminate]. exists i. split; [done|]. split; [|done].
apply elem_of_seqZ. apply (wf_accounts _ Hw) in E. lia.
Qed.

Lemma index_view t i v : wf t -> get_by_index i t = Some v -> exists a, view t !! a = Some v.
Proof.
intros Hw Hv. pose proof (proj1 (wf_data _ Hw i) (mk_is_Some _ _ Hv)) as Hi.
destruct (wf_onto _ Hw i Hi) as [a Ha]. exists a. rewrite <- get_view. unfold get. by rewrite Ha.
Qed.
End indices.

Section migrate.
Context `{VH : VenearHost}.

(** ** The first loop: recomputing the pools *)
Definition pool_of (R : gmap AccountId PooledVenearBalance) (d : AccountId) : VenearBalance :=
pool (default Pool.default (R !! d)).

Definition pools_ok (R : gmap AccountId PooledVenearBalance) : Prop :=
map_Forall (fun _ p => balance_ok (pool p) /\ truncated (pool p)) R.

Lemma pool_of_ok R d : pools_ok R -> balance_ok (pool_of R d) /\ truncated (pool_of R d).
Proof. intros H. unfold pool_of. destruct (R !! d) eqn:E; [by apply (H d) | done]. Qed.

Lemma pool_of_insert R a p d :
pool_of (<[a := p]> R) d = if decide (a = d) then pool p else pool_of R d.
Proof.
unfold pool_of. case_decide as H; [subst; by rewrite lookup_insert_eq | by rewrite lookup_insert_ne].
Qed.

Lemma recompute_entries_inv b ds R R' :
balance_ok b -> Forall (fun d => bps_ok (bps d)) ds -> pools_ok R ->
fold_result (recompute_entry b) R ds = Ok R' ->
(forall d k, part k (pool_of R' d) = part k (pool_of R d) + credit k d b ds) /\ pools_ok R' /\
(forall d, R' !! d = None -> R !! d = None).
Proof.
intros Hb Hds. revert R. induction ds as [|d ds IH]; intros R HR H; cbn [fold_result] in H.
{ res_inv. split_and!; [intros; unfold credit; cbn; lia | done | done]. }
inversion_clear Hds as [|? ? Hd Hds']. res_inv. unfold recompute_entry in E. res_inv.
apply pooled_add_delegation_inv in E0 as [-> Hp]; [|done..].
apply IH in H as (H1 & H2 & H3); [|done|].
- split_and!; [|done|].
+ intros x k. rewrite H1, pool_of_insert. unfold credit. rewrite list_sum_Z_cons.
case_decide as E; [|lia]. subst. cbn [pool]. rewrite part_badd. unfold pool_of. lia.
+ intros x Hx. apply H3, lookup_insert_None in Hx. apply Hx.
- apply map_Forall_insert_2; [|done]. split; [done|]. cbn [pool].
apply truncated_badd; [|apply truncated_contrib]. by apply (pool_of_ok R (delegate_id d)).
Qed.

Definition index_credit (t : Z) (c : Contract) (k : comp) (d : AccountId) (i : Z) : Z :=
match data (tree c) !! i with
| Some v => account_credit k d (acc_at (rate c) t (account_from v))
| None => 0
end.

Section first_loop.
Context (e : Env) (c : Contract) (HP : PreInv c).
Let t := truncate_to_seconds (block_timestamp e).

Lemma index_account i v : get_by_index i (tree c) = Some v ->
exists a, accts c !! a = Some (account_from v) /\ acc_ok a (account_from v).
Proof.
intros Hv. apply index_view in Hv as [a Ha]; [|apply HP]. exists a.
assert (accts c !! a = Some (account_from v)) as Hx by (unfold accts; by rewrite lookup_fmap, Ha).
split; [done | by apply (inv_accounts c HP)].
Qed.

(** Entering a delegate with an empty pool changes no amount. *)
Lemma reserve_inv (R : gmap AccountId PooledVenearBalance) (x : Account) R1 : pools_ok R ->
R1 = (if bool_decide (delegated_balance x = Pool.default) then R
else match R !! account_id x with
| Some _ => R
| None => <[account_id x := Pool.default]> R
end) ->
pools_ok R1 /\ (forall d, pool_of R1 d = pool_of R d) /\
(forall d, R1 !! d = None -> R !! d = None /\ (account_id x = d -> delegated_balance x = Pool.default)).
Proof.
intros HR ->. destruct (bool_decide _) eqn:E; bool_prop; [by split_and!|].
destruct (R !! account_id x) eqn:Ex.
- split_and!; [done | done |]. intros d Hd. split; [done|]. intros <-. congruence.
- split_and!; [by apply map_Forall_insert_2 | |].
+ intros d. rewrite pool_of_insert. case_decide; [|done]. subst. unfold pool_of. by rewrite Ex.
+ intros d [Hd Hne]%lookup_insert_None. by split.
Qed.

Lemma recompute_account_inv i R R' : pools_ok R -> recompute_account e c R i = Ok R' ->
(forall d k, part k (pool_of R' d) = part k (pool_of R d) + index_credit t c k d i) /\ pools_ok R' /\
(forall d, R' !! d = None -> R !! d = None /\
forall v, get_by_index i (tree c) = Some v -> account_id (account_from v) = d ->
delegated_balance (account_from v) = Pool.default).
Proof.
intros HR H. unfold recompute_account in H. res_inv.
pose proof (index_account i v E) as (a & _ & Hok). destruct Hok as (_ & _ & (_ & _ & _ & Hbps) & Hbal & _).
unfold get_by_index in E.
remember (if bool_decide _ then R else _) as R1 eqn:E1. apply reserve_inv in E1 as (G1 & G2 & G3); [|done].
unfold index_credit. rewrite E.
assert (forall d v0, get_by_index i (tree c) = Some v0 -> account_id (account_from v0) = d ->
(account_id (account_from v) = d -> delegated_balance (account_from v) = Pool.default) ->
delegated_balance (account_from v0) = Pool.default) as Hsame.
{ intros d v0 Hv0 Hid. unfold get_by_index in Hv0. replace v0 with v in * by congruence. auto. }
destruct (delegations (account_from v)) as [|x xs] eqn:Eds.
- res_inv. split_and!; [|done|naive_solver].
intros d k. rewrite G2. unfold account_credit, credit. cbn. rewrite Eds. cbn. lia.
- res_inv. apply account_update_inv in E0 as (-> & _ & _ & Hx & _); [|apply HP].
apply recompute_entries_inv in H as (H1 & H2 & H3); [| | |done].
+ split_and!; [|done|naive_solver]. intros d k. by rewrite H1, G2.
+ split; [apply Hbal | exact Hx].
+ cbn. by rewrite Eds.
Qed.

Lemma recompute_all_inv l R R' : pools_ok R -> fold_result (recompute_account e c) R l = Ok R' ->
(forall d k, part k (pool_of R' d) = part k (pool_of R d) + list_sum_Z (index_credit t c k d) l) /\
pools_ok R' /\
(forall d, R' !! d = None -> R !! d = None /\
forall i v, i ∈ l -> get_by_index i (tree c) = Some v -> account_id (account_from v) = d ->
delegated_balance (account_from v) = Pool.default).
Proof.
revert R. induction l as [|i l IH]; intros R HR H; cbn [fold_result] in H.
{ res_inv. split_and!; [intros; cbn; lia | done | ]. intros d Hd. split; [done|]. by intros i v Hi%elem_of_nil. }
res_inv. apply recompute_account_inv in E as (H1 & H2 & H3); [|done].
apply IH in H as (H4 & H5 & H6); [|done]. split_and!; [|done|].
- intros d k. rewrite H4, H1, list_sum_Z_cons. lia.
- intros d Hd. destruct (H6 d Hd) as [Hd1 Ha]. destruct (H3 d Hd1) as [Hd2 Hb]. split; [done|].
intros j w [->|Hj]%elem_of_cons; eauto.
Qed.
End first_loop.

(** ** The second loop: writing the pools that differ *)
Section second_loop.
Context (e : Env) (He : env_ok e).
Let t := truncate_to_seconds (block_timestamp e).

Lemma write_recomputed_inv x c u c' es : PreInv c -> balance_ok (pool x.2) -> truncated (pool x.2) ->
write_recomputed x e c = Ok (u, c', es) ->
exists f, moves t f c c' /\ (forall a, a <> x.1 -> f a = zero_balance) /\
exists acc, snap t c' !! x.1 = Some acc /\ delegated_balance acc = x.2.
Proof.
destruct x as [a p]. cbn [fst snd]. intros HP Hp Htr H. unfold write_recomputed in H. m_inv. cbn [fst snd] in *.
apply expect_updated_inv in E as (-> & -> & Hs & Hok & Hts); [|apply HP..|done].
m_case; bool_prop; m_inv.
{ exists (fun _ => zero_balance). split_and!; [apply moves_refl; apply HP | done | by exists a0]. }
assert (p = Pooled (badd (pool (delegated_balance a0)) (bsub (pool p) (pool (delegated_balance a0))))) as Hpe.
{ destruct p as [p]. cbn. f_equal. apply balance_eq; cbn; lia. }
assert (truncated (pool (delegated_balance a0))) as Htr0 by apply Hok.
rewrite Hpe in H. rewrite Hpe in Hp. rewrite <- Hts in Hs.
apply set_pool_moves in H as Hm; [|apply HP..|done|done|done|by apply truncated_bsub].
eexists. split; [unfold t; rewrite <- Hts; exact Hm|]. split; [intros b Hb; by rewrite decide_False|].
unfold t. rewrite <- Hts, (mv_snap _ _ _ _ Hm), lookup_shift_pools, Hs. cbn. rewrite decide_True by done.
eexists. split; [done|]. cbn. by rewrite Hpe at 2.
Qed.

Lemma write_all_inv L c u c' es : PreInv c -> NoDup L.*1 ->
Forall (fun x => balance_ok (pool x.2) /\ truncated (pool x.2)) L ->
for_each L write_recomputed e c = Ok (u, c', es) ->
exists f, moves t f c c' /\ (forall a, a ∉ L.*1 -> f a = zero_balance) /\
forall a p, (a, p) ∈ L -> exists acc, snap t c' !! a = Some acc /\ delegated_balance acc = p.
Proof.
revert c u es. induction L as [|x L IH]; intros c u es HP Hnd Hok H; cbn [for_each] in H.
{ m_inv. exists (fun _ => zero_balance). split_and!; [apply moves_refl; apply HP | done |].
by intros a p Ha%elem_of_nil. }
inversion_clear Hok as [|? ? [Hx Hx'] Hok']. rewrite fmap_cons in Hnd. apply NoDup_cons in Hnd as [Hnin Hnd].
m_inv. apply write_recomputed_inv in E as (f1 & Hm1 & Hf1 & acc & Hacc & Hdb); [|done..].
pose proof (moves_pre t f1 c s (truncate_to_seconds_aligned _) HP Hm1) as HP1.
apply IH in H as (f2 & Hm2 & Hf2 & Hall); [|done..].
eexists. split; [exact (moves_trans _ _ _ _ _ _ Hm1 Hm2)|]. split.
- intros a Ha. rewrite fmap_cons, not_elem_of_cons in Ha. destruct Ha. by rewrite Hf1, Hf2.
- intros a p [<-|Hin]%elem_of_cons; [|by apply Hall]. cbn [fst snd] in *.
rewrite (mv_snap _ _ _ _ Hm2), lookup_shift_pools, Hacc. cbn. eexists. split; [done|].
rewrite Hf2 by done. cbn. rewrite Hdb. destruct p as [p]. cbn. f_equal. apply balance_eq; cbn; lia.
Qed.
End second_loop.

(** ** The migration *)
Lemma index_credit_sum t c k d : PreInv c ->
list_sum_Z (index_credit t c k d) (seqZ 0 (tree_length (tree c))) =
map_sum (fun _ o => account_credit k d o) (snap t c).
Proof.
intros HP. unfold snap, ledger_at, accts. rewrite !map_sum_fmap.
rewrite (view_sum (tree c) (fun v => account_credit k d (acc_at (rate c) t (account_from v)))) by apply HP.
done.
Qed.

Lemma grow_zero g p : grow g p zero_balance = zero_balance.
Proof.
apply balance_eq; cbn; [done|]. unfold growth. change (truncate_near_to_millis 0) with 0.
by rewrite Z.mul_0_r, Zdiv_0_l.
Qed.

(** A delegate the first loop did not enter has an empty pool at any time. *)
Lemma unlisted_pool t c d x : PreInv c ->
(forall i v, i ∈ seqZ 0 (tree_length (tree c)) -> get_by_index i (tree c) = Some v ->
account_id (account_from v) = d -> delegated_balance (account_from v) = Pool.default) ->
snap t c !! d = Some x -> pool (delegated_balance x) = zero_balance.
Proof.
intros HP Hdef Hd. rewrite snap_lookup in Hd. apply fmap_Some in Hd as (y & Hy & ->).
pose proof (inv_accounts c HP d y Hy) as (Hid & _). unfold accts in Hy. rewrite lookup_fmap in Hy.
apply fmap_Some in Hy as (v & Hv & ->). apply view_by_index in Hv as (i & _ & Hi & Hv); [|apply HP].
cbn. rewrite (Hdef i v Hi Hv Hid). apply grow_zero.
Qed.

Lemma migrate_state_inv e c u c' es : PreInv c -> env_ok e ->
migrate_state e c = Ok (u, c', es) ->
Inv c' /\ exists f, moves (truncate_to_seconds (block_timestamp e)) f c c'.
Proof.
intros HP He H. unfold migrate_state in H. m_inv.
match goal with H : fold_result _ _ _ = Ok ?R' |- _ =>
rename R' into R; apply recompute_all_inv in H as (H1 & H2 & H3) end; [|done|done].
set (t := truncate_to_seconds (block_timestamp e)) in *.
assert (merge_sort key_le (map_to_list R) ≡ₚ map_to_list R) as HL by apply merge_sort_Permutation.
apply write_all_inv in H as (f & Hm & Hf & Hall); [|done|done| |].
2:{ rewrite HL. apply NoDup_fst_map_to_list. }
2:{ rewrite HL. apply Forall_forall. intros [a p] Ha%elem_of_map_to_list. exact (H2 a p Ha). }
fold t in Hm, Hall. pose proof (moves_pre t f c c' (truncate_to_seconds_aligned _) HP Hm) as HP'. split; [|by exists f]. split; [done|].
apply (pools_all_times t); [apply HP'..|apply truncate_to_seconds_aligned|].
intros d x k Hd. rewrite (mv_snap _ _ _ _ Hm), map_sum_shift_pools by done.
rewrite <- index_credit_sum by done. specialize (H1 d k).
change (pool_of ∅ d) with zero_balance in H1. rewrite part_zero, Z.add_0_l in H1. fold t in H1.
rewrite <- H1. unfold pool_of. destruct (R !! d) as [p|] eqn:E.
- destruct (Hall d p) as (acc & Hacc & Hdb); [by rewrite HL; apply elem_of_map_to_list|].
replace x with acc by congruence. by rewrite Hdb.
- destruct (H3 d E) as [_ Hdef]. rewrite (mv_snap _ _ _ _ Hm), lookup_shift_pools in Hd.
apply fmap_Some in Hd as (y & Hy & ->). rewrite Hf, shift_pool_0.
+ rewrite (unlisted_pool t c d y HP Hdef Hy). done.
+ rewrite HL. intros ([a p] & -> & Hin%elem_of_map_to_list)%list_elem_of_fmap. cbn in E. congruence.
Qed.

(** ** What the migration makes of a ledger

Every account as it is, with the pool its delegators add up to. *)
Definition owed (m : gmap AccountId Account) (d : AccountId) : VenearBalance :=
mkBalance (map_sum (fun _ o => account_credit CNear d o) m) (map_sum (fun _ o => account_credit CExtra d o) m).
Definition rebuilt (m : gmap AccountId Account) : gmap AccountId Account :=
map_imap (fun d a => Some (Account.with_delegated a (Pooled (owed m d)))) m.

Lemma owed_exact m d (a : Account) : pool_exact m -> m !! d = Some a -> delegated_balance a = Pooled (owed m d).
Proof.
intros H Ha. destruct (delegated_balance a) as [p] eqn:E. f_equal. apply part_ext. intros k.
pose proof (H d a k Ha) as Hk. rewrite E in Hk. cbn in Hk. rewrite Hk. by destruct k.
Qed.

Lemma rebuilt_exact m : pool_exact m -> rebuilt m = m.
Proof.
intros H. apply map_eq. intros d. unfold rebuilt. rewrite map_lookup_imap. destruct (m !! d) as [a|] eqn:E; [|done]. cbn.
rewrite <- (owed_exact m d a H E). by destruct a.
Qed.

Lemma migrate_rebuilds e c u c' es : PreInv c -> env_ok e -> migrate_state e c = Ok (u, c', es) ->
let t := truncate_to_seconds (block_timestamp e) in
Inv c' /\ frame c c' /\ snap t c' = rebuilt (snap t c).
Proof.
intros HP He H. apply migrate_state_inv in H as (HI & f & Hm); [|done..]. split_and!; [done | apply Hm |].
pose proof (inv_pools _ HI _ (truncate_to_seconds_aligned (block_timestamp e))) as Hx.
set (t := truncate_to_seconds (block_timestamp e)) in *. apply map_eq. intros d. unfold rebuilt. rewrite map_lookup_imap.
destruct (snap t c !! d) as [a|] eqn:E; cbn; [|by rewrite (mv_snap _ _ _ _ Hm), lookup_shift_pools, E].
assert (snap t c' !! d = Some (shift_pool (f d) a)) as Ed by (by rewrite (mv_snap _ _ _ _ Hm), lookup_shift_pools, E).
rewrite Ed. f_equal. pose proof (owed_exact _ d _ Hx Ed) as Ho. unfold shift_pool in *. cbn in Ho. rewrite Ho. do 2 f_equal.
unfold owed. by rewrite (mv_snap _ _ _ _ Hm), !map_sum_shift_pools.
Qed.
End migrate.
