(* ===== verification/VenearTheorems.v ===== *)
(** * Properties of the veNEAR contract *)
From stdpp Require Import base gmap strings list sorting.
From Stdlib Require Import ZArith Lia.
From S2P Require Import Prelude.
From S2P Require Import Near.
From S2P Require Import Common.
From S2P Require Import CommonFacts.
From S2P Require Import MerkleTree.
From S2P Require Import MerkleFacts.
From S2P Require Import VenearContract.
From S2P Require Import VenearLedger.
From S2P Require Import VenearInvariant.
From S2P Require Import VenearOps.
From S2P Require Import VenearMigrate.

Local Open Scope Z_scope.

Section theorems.
Context `{VH : VenearHost}.

(** ** The state-changing calls *)
Inductive Call : Type :=
| SetDelegations (entries : list DelegationEntry)
| StorageDeposit (account : option AccountId)
| DeployLockupCall
| OnLockupUpdate (version : Version) (owner : AccountId) (update : VLockupUpdate)
| OnLockupDeployed (version : Version) (account : AccountId) (nonce : Z) (lockup_deposit : NearToken)
| PrepareLockupCode (code : bytes)
| SetLockupContract (hash : bytes) (min_deposit : NearToken)
| SetLocalDeposit (v : NearToken)
| SetStakingPoolWhitelist (v : AccountId)
| ProposeNewOwner (v : option AccountId)
| AcceptOwnership
| SetUnlockDurationSec (v : Z)
| SetLockupCodeDeployers (v : list AccountId)
| SetGuardians (v : list AccountId)
| SetMaxDelegations (v : Z)
| Pause
| Unpause
| MigrateState.

Definition run (x : Call) : M Effect Contract unit :=
match x with
| SetDelegations entries => set_delegations entries
| StorageDeposit a => storage_deposit a ;; mret tt
| DeployLockupCall => deploy_lockup
| OnLockupUpdate v o u => on_lockup_update v o u
| OnLockupDeployed v a n d => on_lockup_deployed v a n d ;; mret tt
| PrepareLockupCode code => prepare_lockup_code code ;; mret tt
| SetLockupContract h d => set_lockup_contract h d
| SetLocalDeposit v => set_local_deposit v
| SetStakingPoolWhitelist v => set_staking_pool_whitelist_account_id v
| ProposeNewOwner v => propose_new_owner_account_id v
| AcceptOwnership => accept_ownership
| SetUnlockDurationSec v => set_unlock_duration_sec v
| SetLockupCodeDeployers v => set_lockup_code_deployers v
| SetGuardians v => set_guardians v
| SetMaxDelegations v => set_max_delegations v
| Pause => pause
| Unpause => unpause
| MigrateState => migrate_state
end.

(** The argument types of the entry points: [Bps] is at most 10000, amounts
are [u128]. *)
Definition call_ok (x : Call) : Prop :=
match x with
| SetDelegations entries => Forall (fun d => bps_ok (bps d)) entries
| OnLockupUpdate _ _ (LV1 u) => 0 <= locked_near_balance u
| SetLocalDeposit v => 0 <= v <= U128_MAX
| _ => True
end.

(** States reached by calls at non-decreasing block times; the index is the
time of the last call. *)
Inductive reachable : Z -> Contract -> Prop :=
| reach_new e cfg growth c :
env_ok e -> 0 <= numerator (annual_growth_rate_ns growth) ->
0 <= local_deposit cfg <= U128_MAX -> new_contract e cfg growth = Ok c ->
reachable (block_timestamp e) c
| reach_call now c x e c' es :
reachable now c -> env_ok e -> now <= block_timestamp e -> call_ok x ->
run x e c = Ok (tt, c', es) -> reachable (block_timestamp e) c'.

(** A sequence of successful calls between two moments. *)
Inductive calls (now : Z) (c : Contract) : Z -> Contract -> Prop :=
| calls_nil : calls now c now c
| calls_snoc now1 c1 x e c2 es :
calls now c now1 c1 -> env_ok e -> now1 <= block_timestamp e -> call_ok x ->
run x e c1 = Ok (tt, c2, es) -> calls now c (block_timestamp e) c2.

Lemma calls_reachable now c now' c' : reachable now c -> calls now c now' c' -> reachable now' c'.
Proof. intros Hr Hc. induction Hc; [done|]. by eapply reach_call. Qed.

(** No account is ahead of the clock. *)
Definition timed (now : Z) (c : Contract) : Prop :=
gs_update_timestamp (gstate c) <= truncate_to_seconds now /\
map_Forall (fun _ x => update_timestamp x <= truncate_to_seconds now) (accts c).

Lemma timed_later now now' c : now <= now' -> timed now c -> timed now' c.
Proof.
intros Hle [H1 H2]. pose proof (truncate_to_seconds_mono now now' Hle).
split; [lia|]. intros a x Ha. apply H2 in Ha. cbn in Ha. lia.
Qed.

Lemma timed_same now c c' : tree c' = tree c -> timed now c -> timed now c'.
Proof. unfold timed, gstate, accts. by intros ->. Qed.

Lemma timed_moves now f c c1 : moves (truncate_to_seconds now) f c c1 -> timed now c -> timed now c1.
Proof.
intros Hm [H1 H2]. destruct (frame_rate _ _ (mv_frame _ _ _ _ Hm)) as [_ Hg]. split; [by rewrite Hg|].
intros a x Ha. destruct (mv_time _ _ _ _ Hm a x Ha) as [Hx| ->]; [by apply (H2 a)|done].
Qed.

Lemma timed_insert now c c1 a x : timed now c -> accts c1 = <[a := x]> (accts c) ->
update_timestamp x = truncate_to_seconds now ->
gs_update_timestamp (gstate c1) <= truncate_to_seconds now -> timed now c1.
Proof.
intros [H1 H2] Ha Hx Hg. split; [done|]. rewrite Ha. apply map_Forall_insert_2; [lia | done].
Qed.

(** ** Every call keeps the invariant *)
Ltac inv_keep := match goal with
| HI : Inv ?c, Ht : timed ?n ?c |- Inv _ /\ timed _ _ =>
split; [apply (Inv_same_internals c); [done..|try apply (inv_config c (inv_pre c HI))]
 | apply (timed_same n c); done]
end.

Lemma new_contract_inv e cfg growth c :
env_ok e -> 0 <= numerator (annual_growth_rate_ns growth) -> 0 <= local_deposit cfg <= U128_MAX ->
new_contract e cfg growth = Ok c -> Inv c /\ timed (block_timestamp e) c.
Proof.
intros [He _] Hn Hd H. unfold new_contract in H. res_inv. bool_prop.
assert (accts (mkContract (MerkleTree.new (block_height e)
(GV0 (GlobalState.new (block_timestamp e) (FixedRate growth)))) ∅ cfg false ∅) = ∅) as Ha.
{ unfold accts. cbn [tree]. rewrite view_new. apply fmap_empty. }
pose proof (truncate_to_seconds_le (block_timestamp e) ltac:(lia)).
split; [split; [split|]|]; rewrite ?Ha.
- apply wf_new.
- by split.
- split_and!; cbn; [apply truncate_to_seconds_aligned | lia | done | done].
- apply map_Forall_empty.
- by intros a x Hx%lookup_empty_Some.
- intros a. cbn [internals]. by rewrite !lookup_empty.
- by intros a i x _ Hx%lookup_empty_Some.
- done.
- intros t _ k. unfold snap. rewrite Ha. unfold ledger_at. rewrite fmap_empty, map_sum_empty.
unfold total_at. change (total_pool _) with zero_balance. rewrite grow_zero. apply part_zero.
- intros t _ d a k. unfold snap. rewrite Ha. unfold ledger_at. by rewrite fmap_empty, lookup_empty.
- split; [cbn; lia|]. rewrite Ha. apply map_Forall_empty.
Qed.

(** Calls that leave the tree and the account data alone. *)
Lemma run_inv_config now c c' : Inv c -> timed now c -> tree c' = tree c -> internals c' = internals c ->
0 <= local_deposit (config c') <= U128_MAX -> Inv c' /\ timed now c'.
Proof.
intros HI Ht H1 H2 H3. split; [by eapply Inv_same_internals | by eapply timed_same].
Qed.

Lemma register_timed a dep e c u c' es : PreInv c -> env_ok e -> timed (block_timestamp e) c ->
internal_register_account a dep e c = Ok (u, c', es) -> timed (block_timestamp e) c'.
Proof.
intros HP He Ht H. apply register_parts in H as (_ & _ & Hacc & Hg & _); [|done..].
eapply timed_insert; [exact Ht | exact Hacc | done | by rewrite Hg].
Qed.

Lemma run_inv x e c c' es now :
Inv c -> timed now c -> env_ok e -> now <= block_timestamp e -> call_ok x ->
run x e c = Ok (tt, c', es) -> Inv c' /\ timed (block_timestamp e) c'.
Proof.
intros HI Ht He Hnow Hx H. pose proof (inv_pre c HI) as HP. pose proof (inv_config c HP) as Hcfg.
apply (timed_later _ (block_timestamp e)) in Ht; [|done]. clear Hnow.
destruct x; cbn [run] in H; m_inv.
- split; [by eapply set_delegations_inv|].
apply set_delegations_parts in H as (ao & c1 & _ & _ & Hts & _ & _ & _ & Hm & Hf & Hacc); [|done..].
apply (timed_moves _ _ _ _ Hm) in Ht. eapply timed_insert; [exact Ht | exact Hacc | done |].
rewrite (proj2 (frame_rate _ _ Hf)). apply Ht.
- split; [by eapply storage_deposit_inv|].
unfold storage_deposit, assert_not_paused in E. m_all; try done; by eapply register_timed.
- unfold deploy_lockup, assert_not_paused, internal_deploy_lockup in H. m_inv. done.
- destruct update as [l]. split; [eapply on_lockup_update_inv; [exact HI | exact He | | exact H]; exact Hx|].
unfold on_lockup_update in H. m_inv.
match goal with H : expect (internal_get_account_internal _ _) _ = _ |- _ => apply expect_Ok_inv in H end.
apply lockup_update_parts in H as (ao & c1 & _ & _ & Hts & _ & _ & Hm & _ & Hacc & Hg & _); [|done..].
apply (timed_moves _ _ _ _ Hm) in Ht. eapply timed_insert; [exact Ht | exact Hacc | done | by rewrite Hg].
- split; [by eapply on_lockup_deployed_inv|].
unfold on_lockup_deployed, internal_set_account_internal in E. m_all; done.
- unfold prepare_lockup_code, assert_not_paused in E. m_all; by apply (run_inv_config _ c).
- unfold set_lockup_contract, assert_owner, internal_set_lockup in H. m_inv. by apply (run_inv_config _ c).
- unfold set_local_deposit, owner_update, assert_owner in H. m_inv. by apply (run_inv_config _ c).
- unfold set_staking_pool_whitelist_account_id, owner_update, assert_owner in H. m_inv. by apply (run_inv_config _ c).
- unfold propose_new_owner_account_id, owner_update, assert_owner in H. m_inv. by apply (run_inv_config _ c).
- unfold accept_ownership in H. m_inv. by apply (run_inv_config _ c).
- unfold set_unlock_duration_sec, assert_owner in H. m_inv. by apply (run_inv_config _ c).
- unfold set_lockup_code_deployers, owner_update, assert_owner in H. m_inv. by apply (run_inv_config _ c).
- unfold set_guardians, owner_update, assert_owner in H. m_inv. by apply (run_inv_config _ c).
- unfold set_max_delegations, owner_update, assert_owner in H. m_inv. by apply (run_inv_config _ c).
- unfold pause, assert_guardian in H. m_inv. by apply (run_inv_config _ c).
- unfold unpause, assert_owner in H. m_inv. by apply (run_inv_config _ c).
- apply migrate_state_inv in H as [HI' [f Hm]]; [|done..]. split; [done | by eapply timed_moves].
Qed.

Lemma reachable_inv now c : reachable now c -> Inv c /\ timed now c.
Proof.
induction 1 as [e cfg growth c He Hn Hd H|now c x e c' es _ [HI Ht] He Hnow Hx H].
- by eapply new_contract_inv.
- by eapply run_inv.
Qed.

(** ** Views *)
Lemma ft_balance_of_inv e c a x r : Inv c -> env_ok e -> accts c !! a = Some x ->
ft_balance_of e c a = Ok r ->
r = owned (acc_at (rate c) (truncate_to_seconds (block_timestamp e)) x) /\ 0 <= r <= U128_MAX.
Proof.
intros HI He Hx H. unfold ft_balance_of, Account.total_balance in H. rewrite accts_get, Hx in H. res_inv.
pose proof (inv_accounts c (inv_pre c HI) a x Hx) as (_ & _ & (_ & _ & _ & Hbps) & [Hn _] & _).
apply account_update_inv in E as (-> & _ & _ & Hb & _); [|apply HI].
apply owned_total_inv in H; [done | done | by split].
Qed.

Lemma ft_total_supply_inv e c r : Inv c -> ft_total_supply e c = Ok r ->
r = bsum (total_at (truncate_to_seconds (block_timestamp e)) c).
Proof.
intros HI H. unfold ft_total_supply, GlobalState.update in H. res_inv.
apply pool_update_inv in E0 as [-> _]; [|apply HI]. by apply total_inv in H as [-> _].
Qed.

(** ** Properties *)

(** C2. In every reachable state and at every time, each delegate's pool is
the sum of the shares its delegators' balances are worth at that time,
in NEAR and in extra veNEAR, and the global total is the sum of all
account balances. *)
Theorem ledger_exact now c t : reachable now c -> aligned t ->
pool_exact (snap t c) /\ total_exact (snap t c) (total_at t c).
Proof.
intros [HI _]%reachable_inv Ht. split; [by apply HI | by apply (inv_total c (inv_pre c HI))].
Qed.

(** C24. Conservation: the total supply the token view reports is the sum of
the balances it reports for the registered accounts. Delegating moves
voting power and neither creates nor destroys any. *)
Theorem supply_is_sum_of_balances now c e s (b : AccountId -> Z) : reachable now c -> env_ok e ->
ft_total_supply e c = Ok s ->
(forall a, is_Some (internals c !! a) -> ft_balance_of e c a = Ok (b a)) ->
map_sum (fun a _ => b a) (internals c) = s.
Proof.
intros [HI _]%reachable_inv He Hs Hb. pose proof (inv_pre c HI) as HP.
apply ft_total_supply_inv in Hs as ->; [|done].
set (t := truncate_to_seconds (block_timestamp e)) in *.
assert (aligned t) as Ht by apply truncate_to_seconds_aligned.
rewrite <- (owned_sum_total (snap t c)); [|by apply HI|by apply HP|].
- unfold snap, ledger_at. rewrite map_sum_fmap. rewrite (map_sum_dom_ext b (internals c) (accts c)).
+ apply map_sum_ext. intros a x Ha. eapply (ft_balance_of_inv e c a x); [done..|].
apply Hb, (inv_internals c HP). eauto.
+ apply HP.
- intros a x Ha. eapply Forall_impl; [exact (snap_delegates _ _ _ _ HP Ha)|].
cbn. intros d [? ?]. split; [done|]. by apply snap_is_Some.
Qed.

(** C25. What [set_delegations] does when it succeeds: the entries satisfy
every documented condition and all delegates are registered; the caller
keeps its balance and gets exactly the new list; the pool of any other
account moves by the caller's new share minus its old one; and the total
supply, the registrations and the configuration stay as they were. *)
Theorem set_delegations_spec now c ds e c' es : reachable now c -> env_ok e ->
Forall (fun d => bps_ok (bps d)) ds -> set_delegations ds e c = Ok (tt, c', es) ->
let o := predecessor_account_id e in
let t := truncate_to_seconds (block_timestamp e) in
valid_entries o (max_delegations (config c)) ds /\
Forall (fun d => is_Some (accts c !! delegate_id d)) ds /\
(exists ao, snap t c !! o = Some ao /\
snap t c' !! o = Some (Account.with_delegations ao ds) /\
forall d, d <> o -> snap t c' !! d = shift_pool (redelegation ao ds d) <$> snap t c !! d) /\
total_at t c' = total_at t c /\ internals c' = internals c /\ config c' = config c.
Proof.
intros [HI _]%reachable_inv He Hb H o t. pose proof (inv_pre c HI) as HP.
apply set_delegations_parts in H as (ao & c1 & Hao & Hok & Hts & _ & Hv & Hreg & Hm & Hf & Hacc); [|done..].
pose proof (frame_trans _ _ _ (mv_frame _ _ _ _ Hm) Hf) as Hfr.
pose proof (frame_rate _ _ (mv_frame _ _ _ _ Hm)) as [Hr1 _].
pose proof (frame_rate _ _ Hfr) as [Hr Hg]. fold t o in Hao, Hm, Hacc, Hv.
assert (snap t c' = <[o := Account.with_delegations ao ds]> (snap t c1)) as Hs.
{ apply snap_set_account; [rewrite Hr1; apply HP | done..]. }
split_and!; [done | done | | | apply Hfr | apply Hfr].
- exists ao. rewrite Hs. split; [done|]. split; [apply lookup_insert_eq|].
intros d Hd. rewrite lookup_insert_ne by done. by rewrite (mv_snap _ _ _ _ Hm), lookup_shift_pools.
- unfold total_at, total_pool. by rewrite Hr, Hg.
Qed.

(** [validate_delegations] accepts exactly the lists that the method's
documentation allows, and returns the sum of their basis points. *)
Theorem validate_delegations_correct ds owner max s : Forall (fun d => bps_ok (bps d)) ds ->
validate_delegations ds owner max = Ok s <->
(valid_entries owner max ds /\ NoDup (ids ds) /\ s = bps_sum ds).
Proof.
intros Hb. rewrite validate_delegations_spec by done. split.
- intros [Hv ->]. split_and!; [done | by eapply valid_entries_nodup | done].
- by intros (Hv & _ & ->).
Qed.

(** A lockup report is accepted only from the owner's own lockup
account, for the registered lockup version and with a larger nonce than
any report before; then the owner's balance is the locked amount plus
the storage deposit, the extra veNEAR is kept unless the locked amount
went down (then it is lost), and every pool the owner feeds moves by the
difference of the shares. *)
Theorem lockup_update_spec now c v o u e c' es : reachable now c -> env_ok e ->
0 <= locked_near_balance u -> on_lockup_update v o (LV1 u) e c = Ok (tt, c', es) ->
let t := truncate_to_seconds (block_timestamp e) in
get_lockup_account_id (current_account_id e) o = Ok (predecessor_account_id e) /\
exists i ao, internals c !! o = Some i /\ lockup_version i = Some v /\
lockup_update_nonce i < lu_nonce u /\ snap t c !! o = Some ao /\
let b' := lockup_balance (deposit i) (locked_near_balance u) (balance ao) in
internals c' = <[o := mkInternal (Some v) (deposit i) (lu_nonce u)]> (internals c) /\
snap t c' !! o = Some (Account.with_balance ao b') /\
(forall d, d <> o -> snap t c' !! d =
shift_pool (spread (fun x => bsub (contrib (bps x) b') (contrib (bps x) (balance ao))) (delegations ao) d)
<$> snap t c !! d) /\
bsum (total_at t c') = bsum (total_at t c) - bsum (balance ao) + bsum b'.
Proof.
intros [HI _]%reachable_inv He Hl H t. pose proof (inv_pre c HI) as HP. unfold on_lockup_update in H. m_inv.
bool_prop.
match goal with H : expect (internal_get_account_internal _ _) _ = _ |- _ => apply expect_Ok_inv in H as Hi end.
match type of Hi with _ = Some ?x => rename x into i end.
match goal with H : String.eqb _ _ = true |- _ => apply String.eqb_eq in H; subst end.
split; [done|].
apply lockup_update_parts in H
as (ao & c1 & Hao & Hok & Hts & Hb' & Hn & Hm & Hw & Hacc & Hg & Htot & Hint & Hcfg & _); [|done..].
match goal with H : lockup_version i = Some v |- _ => exists i, ao; rewrite H in Hint end.
assert (rate c' = rate c) as Hr by (change (venear_growth_config (gstate c') = rate c); by rewrite Hg).
assert (snap t c' = <[o := Account.with_balance ao (lockup_balance (deposit i) (locked_near_balance u) (balance ao))]> (snap t c1)) as Hs.
{ unfold snap, ledger_at. rewrite Hr, Hacc, fmap_insert, (proj1 (frame_rate _ _ (mv_frame _ _ _ _ Hm))).
f_equal. unfold t. rewrite <- Hts. exact (acc_at_id (rate c) (inv_rate c HP) (Account.with_balance ao _)). }
fold t in Hm. cbn zeta. split_and!; try done.
- rewrite Hs. apply lookup_insert_eq.
- intros d Hd. rewrite Hs, lookup_insert_ne by done. by rewrite (mv_snap _ _ _ _ Hm), lookup_shift_pools.
- pose proof (total_at_now _ c' Hg ltac:(rewrite Hr; apply HP)) as Hnow. cbn [gs_update_timestamp] in Hnow.
fold t in Hnow. rewrite Hnow. cbn [pool total_venear_balance].
pose proof (pooled_form_sum (balance ao)). pose proof (pooled_form_sum (lockup_balance (deposit i) (locked_near_balance u) (balance ao))).
unfold bsum in *. cbn in *. lia.
Qed.

(** Reads a successful call of the operations that only set parameters. *)
Ltac setter_inv H :=
unfold set_lockup_contract, set_local_deposit, set_staking_pool_whitelist_account_id,
propose_new_owner_account_id, accept_ownership, set_unlock_duration_sec, set_lockup_code_deployers,
set_guardians, set_max_delegations, pause, unpause, owner_update, internal_set_lockup,
assert_owner, assert_guardian, deploy_lockup, internal_deploy_lockup, assert_not_paused in H; m_all.

(** What any call does to the internal account data. *)
Lemma run_internals x e c c' es : Inv c -> env_ok e -> call_ok x -> run x e c = Ok (tt, c', es) ->
forall a i, internals c !! a = Some i ->
exists i', internals c' !! a = Some i' /\ deposit i' = deposit i /\
   lockup_update_nonce i <= lockup_update_nonce i'.
Proof.
intros HI He Hx H a i Hi. pose proof (inv_pre c HI) as HP.
assert (internals c' = internals c -> exists i', internals c' !! a = Some i' /\ deposit i' = deposit i /\
lockup_update_nonce i <= lockup_update_nonce i') as Hsame.
{ intros ->. exists i. split_and!; [done | done | lia]. }
destruct x; cbn [run] in H; m_inv; try (by setter_inv H; apply Hsame).
- apply set_delegations_parts in H as (ao & c1 & _ & _ & _ & _ & _ & _ & Hm & Hf & _); [|done..].
apply Hsame, (frame_trans _ _ _ (mv_frame _ _ _ _ Hm) Hf).
- unfold storage_deposit, assert_not_paused in E. m_all; try by apply Hsame.
all: match goal with H : internal_register_account _ _ _ _ = _ |- _ =>
apply register_parts in H as (Hn & _ & _ & _ & _ & Hint & _); [|done..] end.
all: rewrite Hint, lookup_insert_ne; [exists i; split_and!; [done | done | lia]|].
all: intros Heq; rewrite Heq in Hn; assert (is_Some (accts c !! a)) as [? ?]
by (apply (inv_internals c HP); eauto); congruence.
- unfold on_lockup_update in H. destruct update as [l]. m_inv.
match goal with H : expect (internal_get_account_internal _ _) _ = _ |- _ => apply expect_Ok_inv in H as Ho end.
apply lockup_update_parts in H as (ao & c1 & _ & _ & _ & _ & Hn & _ & _ & _ & _ & _ & Hint & _); [|done..].
rewrite Hint. destruct (decide (owner = a)) as [->|Hne].
+ rewrite lookup_insert_eq. eexists. split; [done|]. unfold internal_get_account_internal in Ho.
rewrite Hi in Ho. injection Ho as Ho. subst. cbn. lia.
+ rewrite lookup_insert_ne by done. exists i. split_and!; [done | done | lia].
- unfold on_lockup_deployed, internal_set_account_internal in E. m_all; [|by apply Hsame].
match goal with H : expect (internal_get_account_internal _ _) _ = _ |- _ => apply expect_Ok_inv in H as Ho end.
bool_prop. cbn [internals with_internals]. destruct (decide (account = a)) as [->|Hne].
+ rewrite lookup_insert_eq. eexists. split; [done|]. unfold internal_get_account_internal in Ho.
rewrite Hi in Ho. injection Ho as Ho. subst. cbn. lia.
+ rewrite lookup_insert_ne by done. exists i. split_and!; [done | done | lia].
- unfold prepare_lockup_code, assert_not_paused in E. m_all; by apply Hsame.
- apply migrate_state_inv in H as [_ [f Hm]]; [|done..]. by apply Hsame, (mv_frame _ _ _ _ Hm).
Qed.

(** Over any sequence of calls no account loses its registration or its
storage deposit, and the nonce of the last accepted lockup message never
goes down, so an old lockup report can never be replayed. *)
Theorem nonces_never_decrease now now' c c' (a : AccountId) i : reachable now c ->
calls now c now' c' -> internals c !! a = Some i ->
exists i', internals c' !! a = Some i' /\ deposit i' = deposit i /\
lockup_update_nonce i <= lockup_update_nonce i' /\
forall u e, lu_nonce u <= lockup_update_nonce i -> is_ok (internal_lockup_update a i' u e c') = false.
Proof.
intros Hr Hc Hi.
enough (exists i', internals c' !! a = Some i' /\ deposit i' = deposit i /\
lockup_update_nonce i <= lockup_update_nonce i') as (i' & H1 & H2 & H3).
{ exists i'. split_and!; [done..|]. intros u e Hu. unfold internal_lockup_update, requireM, mbind, M_bind, lift.
by rewrite (proj2 (Z.ltb_ge _ _)) by lia. }
induction Hc as [|now1 c1 x e c2 es Hc IH He Hnow Hx H].
- exists i. split_and!; [done | done | lia].
- destruct IH as (i1 & H1 & H2 & H3).
destruct (reachable_inv now1 c1) as [HI1 _]; [by eapply calls_reachable|].
destruct (run_internals x e c1 c2 es HI1 He Hx H a i1 H1) as (i2 & ? & ? & ?).
exists i2. split_and!; [done | congruence | lia].
Qed.

(** The calls about accounts, lockups and codes. *)
Definition is_account_call (x : Call) : bool :=
match x with
| SetDelegations _ | StorageDeposit _ | DeployLockupCall | OnLockupUpdate _ _ _
| OnLockupDeployed _ _ _ _ | PrepareLockupCode _ | MigrateState => true
| _ => false
end.

Lemma account_call_settings x e c c' es : Inv c -> env_ok e -> call_ok x ->
run x e c = Ok (tt, c', es) -> is_account_call x = true -> config c' = config c /\ paused c' = paused c.
Proof.
intros HI He Hx H Hk. pose proof (inv_pre c HI) as HP.
destruct x; try discriminate Hk; cbn [run] in H; m_inv.
- apply set_delegations_parts in H as (ao & c1 & _ & _ & _ & _ & _ & _ & Hm & Hf & _); [|done..].
by destruct (frame_trans _ _ _ (mv_frame _ _ _ _ Hm) Hf).
- unfold storage_deposit, assert_not_paused in E. m_all; try done.
all: match goal with H : internal_register_account _ _ _ _ = _ |- _ =>
by apply register_parts in H as (_ & _ & _ & _ & _ & _ & ? & ?) end.
- by setter_inv H.
- unfold on_lockup_update in H. destruct update as [l]. m_inv.
match goal with H : expect (internal_get_account_internal _ _) _ = _ |- _ => apply expect_Ok_inv in H as Ho end.
by apply lockup_update_parts in H as (ao & c1 & _ & _ & _ & _ & _ & _ & _ & _ & _ & _ & _ & ? & ?).
- unfold on_lockup_deployed, internal_set_account_internal in E. by m_all.
- unfold prepare_lockup_code, assert_not_paused in E. by m_all.
- apply migrate_state_inv in H as [_ [f Hm]]; [|done..]. by destruct (mv_frame _ _ _ _ Hm).
Qed.

(** Only the owner changes the configuration, with one yoctoNEAR
attached, except that a proposed new owner may accept; only a guardian
or the owner pauses and only the owner unpauses. *)
Theorem settings_change_authorised now c x e c' es : reachable now c -> env_ok e -> call_ok x ->
run x e c = Ok (tt, c', es) ->
let p := predecessor_account_id e in
let k := config c in
(config c' <> k -> attached_deposit e = 1 /\
(p = owner_account_id k \/
x = AcceptOwnership /\ proposed_new_owner_account_id k = Some p /\
owner_account_id (config c') = p /\ proposed_new_owner_account_id (config c') = None)) /\
(paused c' <> paused c -> attached_deposit e = 1 /\
(p = owner_account_id k \/ paused c' = true /\ p ∈ guardians k)).
Proof.
intros [HI _]%reachable_inv He Hx H p k. destruct (is_account_call x) eqn:Hk.
{ by destruct (account_call_settings x e c c' es HI He Hx H Hk) as [-> ->]. }
destruct x; try discriminate Hk; cbn [run] in H; setter_inv H; bool_prop; subst p k; cbn;
repeat match goal with H : String.eqb _ _ = true |- _ => apply String.eqb_eq in H end;
try (split; intros Hne; (done || (split; [done | by left]))).
- split; [|done]. intros _. split; [done|]. by right.
- apply orb_prop in B as [B|B]; bool_prop; split; try done; intros _; (split; [done|]); [by right|].
apply String.eqb_eq in B. by left.
Qed.

(** While the contract is paused users can neither register, delegate,
deploy a lockup nor store code, and no snapshot or proof is served for
votes; the calls that still succeed keep the set of accounts and every
delegation list. *)
Theorem paused_blocks_users now c x e c' es : reachable now c -> env_ok e -> call_ok x -> paused c = true ->
(is_ok (get_snapshot_view e c) = false /\ forall a, is_ok (get_proof_view a e c) = false) /\
(run x e c = Ok (tt, c', es) ->
match x with SetDelegations _ | StorageDeposit _ | DeployLockupCall | PrepareLockupCode _ => False | _ => True end /\
(forall a, is_Some (accts c' !! a) <-> is_Some (accts c !! a)) /\
forall a y', accts c' !! a = Some y' ->
exists y, accts c !! a = Some y /\ delegations y' = delegations y).
Proof.
intros [HI _]%reachable_inv He Hx Hp. pose proof (inv_pre c HI) as HP.
assert (forall A (m : M Effect Contract A), is_ok ((assert_not_paused ;; m) e c) = false) as Hblk.
{ intros A m. unfold assert_not_paused, mbind, M_bind, get_state, requireM, lift. by rewrite Hp. }
split; [split; [apply Hblk | intros a; apply Hblk]|]. intros H.
assert (accts c' = accts c -> (forall a, is_Some (accts c' !! a) <-> is_Some (accts c !! a)) /\
forall a y', accts c' !! a = Some y' -> exists y, accts c !! a = Some y /\ delegations y' = delegations y) as Hsame.
{ intros ->. eauto. }
assert (forall f c1, moves (truncate_to_seconds (block_timestamp e)) f c c1 ->
(forall a, is_Some (accts c1 !! a) <-> is_Some (accts c !! a)) /\
forall a y', accts c1 !! a = Some y' -> exists y, accts c !! a = Some y /\ delegations y' = delegations y) as Hmv.
{ intros f c1 Hm. split; [intros a; by eapply moves_lookup|].
intros a y' Hy. eapply moves_same in Hy as (y & ? & ? & _); eauto. }
destruct x; cbn [run] in H; m_inv; try (split; [done|]; setter_inv H; by apply Hsame).
- pose proof (Hblk unit (mret tt)). unfold set_delegations, assert_not_paused in H. m_inv. by rewrite Hp in *.
- unfold storage_deposit, assert_not_paused in E. m_inv. by rewrite Hp in *.
- unfold deploy_lockup, assert_not_paused in H. m_inv. by rewrite Hp in *.
- split; [done|]. unfold on_lockup_update in H. destruct update as [l]. m_inv.
match goal with H : expect (internal_get_account_internal _ _) _ = _ |- _ => apply expect_Ok_inv in H as Ho end.
apply lockup_update_parts in H as (ao & c1 & Hao & _ & _ & _ & _ & Hm & _ & Hacc & _); [|done..].
destruct (Hmv _ _ Hm) as [Hdom Hds]. rewrite Hacc. rewrite snap_lookup in Hao.
apply fmap_Some in Hao as (y0 & Hy0 & ->). split.
+ intros a. rewrite lookup_insert_is_Some', Hdom. split; [|by right]. intros [<-|?]; eauto.
+ intros a y' [[<- <-]|[_ Hy]]%lookup_insert_Some; [|by apply Hds]. by exists y0.
- split; [done|]. unfold on_lockup_deployed, internal_set_account_internal in E. m_all; by apply Hsame.
- unfold prepare_lockup_code, assert_not_paused in E. m_inv. by rewrite Hp in *.
- split; [done|]. apply migrate_state_inv in H as [_ [f Hm]]; [|done..]. by eapply Hmv.
Qed.

(** The upgrade migration: from any state with a sound account table,
whatever the delegates' pools hold, a successful [migrate_state] leaves
every pool exact at every time, keeps the total supply exact, and
touches neither balances nor delegation lists. *)
Theorem migrate_establishes_exactness e c c' es : PreInv c -> env_ok e ->
migrate_state e c = Ok (tt, c', es) ->
(forall t, aligned t -> pool_exact (snap t c') /\ total_exact (snap t c') (total_at t c')) /\
internals c' = internals c /\ gstate c' = gstate c /\
(forall a x', accts c' !! a = Some x' ->
exists x, accts c !! a = Some x /\ delegations x' = delegations x /\
near_balance (balance x') = near_balance (balance x)).
Proof.
intros HP He H. apply migrate_state_inv in H as [HI [f Hm]]; [|done..].
pose proof (frame_rate _ _ (mv_frame _ _ _ _ Hm)) as [_ Hg].
split_and!; [|apply (mv_frame _ _ _ _ Hm)|done|].
- intros t Ht. split; [by apply HI | by apply (inv_total c' (inv_pre c' HI))].
- intros a x' Hx. by eapply moves_same.
Qed.
End theorems.
