(* ===== verification/VotingTypes.v ===== *)
(** * Proposals of the voting contract

    Data of voting-contract/src ([proposal.rs], [metadata.rs], [legacy.rs],
    [config.rs]) and common/src/voting.rs, and the time-driven life cycle of
    one proposal: activation, lazy status updates, the final tally. *)
From stdpp Require Import base gmap strings list.
From Stdlib Require Import ZArith Lia.
From S2P Require Import Prelude.
From S2P Require Import Near.
From S2P Require Import Common.
From S2P Require Import MerkleTree.

Local Open Scope Z_scope.

(** ** common/src/voting.rs *)
Abbreviation ProposalId := Z (only parsing).

Module VoteOption.
Inductive t : Type := For | Against | Abstain.

(** [impl From<VoteOption> for u8]. *)
Definition to_u8 (v : t) : Z := match v with For => 0 | Against => 1 | Abstain => 2 end.

#[global] Instance eq_dec : EqDecision t.
Proof. solve_decision. Defined.
End VoteOption.

Module MajorityType.
Inductive t : Type := Simple | Strong.
End MajorityType.

Module ProposalStatus.
Inductive t : Type :=
| Created | Rejected | ApprovalLegacy | Voting | FinishLegacy | Vetoed | Timelock | Expired
| Succeeded | Defeated | Executable | InProgress | Failed | Slashed | Sandbox | Scheduled | Queued.

#[global] Instance eq_dec : EqDecision t.
Proof. solve_decision. Defined.
End ProposalStatus.

(** ** config.rs *)
Module VConfig.
Record t : Type := mk {
venear_account_id : AccountId;
reviewer_ids : list AccountId;
council_ids : list AccountId;
owner_account_id : AccountId;
classic_voting_duration_ns : Z;
fast_track_voting_duration_ns : Z;
timelock_duration_ns : Z;
base_proposal_fee : NearToken;
bond_amount : NearToken;
treasury_account_id : AccountId;
vote_storage_fee : NearToken;
guardians : list AccountId;
classic_proposal_expiration_ns : Z;
fast_track_proposal_expiration_ns : Z;
proposed_new_owner_account_id : option AccountId;
quorum_threshold_bps : Z;
quorum_floor : NearToken;
approval_threshold_bps : Z;
simple_majority_threshold_bps : Z;
strong_majority_threshold_bps : Z;
sandbox_duration_ns : Z;
sandbox_threshold_bps : Z;
max_active_proposals : Z
}.

Definition set_venear_account_id (v : AccountId) (k : t) : t :=
mk v (reviewer_ids k) (council_ids k) (owner_account_id k) (classic_voting_duration_ns k)
(fast_track_voting_duration_ns k) (timelock_duration_ns k) (base_proposal_fee k)
(bond_amount k) (treasury_account_id k) (vote_storage_fee k) (guardians k)
(classic_proposal_expiration_ns k) (fast_track_proposal_expiration_ns k)
(proposed_new_owner_account_id k) (quorum_threshold_bps k) (quorum_floor k)
(approval_threshold_bps k) (simple_majority_threshold_bps k) (strong_majority_threshold_bps k)
(sandbox_duration_ns k) (sandbox_threshold_bps k) (max_active_proposals k).
Definition set_reviewer_ids (v : list AccountId) (k : t) : t :=
mk (venear_account_id k) v (council_ids k) (owner_account_id k) (classic_voting_duration_ns k)
(fast_track_voting_duration_ns k) (timelock_duration_ns k) (base_proposal_fee k)
(bond_amount k) (treasury_account_id k) (vote_storage_fee k) (guardians k)
(classic_proposal_expiration_ns k) (fast_track_proposal_expiration_ns k)
(proposed_new_owner_account_id k) (quorum_threshold_bps k) (quorum_floor k)
(approval_threshold_bps k) (simple_majority_threshold_bps k) (strong_majority_threshold_bps k)
(sandbox_duration_ns k) (sandbox_threshold_bps k) (max_active_proposals k).
Definition set_council_ids (v : list AccountId) (k : t) : t :=
mk (venear_account_id k) (reviewer_ids k) v (owner_account_id k) (classic_voting_duration_ns k)
(fast_track_voting_duration_ns k) (timelock_duration_ns k) (base_proposal_fee k)
(bond_amount k) (treasury_account_id k) (vote_storage_fee k) (guardians k)
(classic_proposal_expiration_ns k) (fast_track_proposal_expiration_ns k)
(proposed_new_owner_account_id k) (quorum_threshold_bps k) (quorum_floor k)
(approval_threshold_bps k) (simple_majority_threshold_bps k) (strong_majority_threshold_bps k)
(sandbox_duration_ns k) (sandbox_threshold_bps k) (max_active_proposals k).
Definition set_owner_account_id (v : AccountId) (k : t) : t :=
mk (venear_account_id k) (reviewer_ids k) (council_ids k) v (classic_voting_duration_ns k)
(fast_track_voting_duration_ns k) (timelock_duration_ns k) (base_proposal_fee k)
(bond_amount k) (treasury_account_id k) (vote_storage_fee k) (guardians k)
(classic_proposal_expiration_ns k) (fast_track_proposal_expiration_ns k)
(proposed_new_owner_account_id k) (quorum_threshold_bps k) (quorum_floor k)
(approval_threshold_bps k) (simple_majority_threshold_bps k) (strong_majority_threshold_bps k)
(sandbox_duration_ns k) (sandbox_threshold_bps k) (max_active_proposals k).
Definition set_classic_voting_duration_ns (v : Z) (k : t) : t :=
mk (venear_account_id k) (reviewer_ids k) (council_ids k) (owner_account_id k) v
(fast_track_voting_duration_ns k) (timelock_duration_ns k) (base_proposal_fee k)
(bond_amount k) (treasury_account_id k) (vote_storage_fee k) (guardians k)
(classic_proposal_expiration_ns k) (fast_track_proposal_expiration_ns k)
(proposed_new_owner_account_id k) (quorum_threshold_bps k) (quorum_floor k)
(approval_threshold_bps k) (simple_majority_threshold_bps k) (strong_majority_threshold_bps k)
(sandbox_duration_ns k) (sandbox_threshold_bps k) (max_active_proposals k).
Definition set_fast_track_voting_duration_ns (v : Z) (k : t) : t :=
mk (venear_account_id k) (reviewer_ids k) (council_ids k) (owner_account_id k)
(classic_voting_duration_ns k) v (timelock_duration_ns k) (base_proposal_fee k)
(bond_amount k) (treasury_account_id k) (vote_storage_fee k) (guardians k)
(classic_proposal_expiration_ns k) (fast_track_proposal_expiration_ns k)
(proposed_new_owner_account_id k) (quorum_threshold_bps k) (quorum_floor k)
(approval_threshold_bps k) (simple_majority_threshold_bps k) (strong_majority_threshold_bps k)
(sandbox_duration_ns k) (sandbox_threshold_bps k) (max_active_proposals k).
Definition set_timelock_duration_ns (v : Z) (k : t) : t :=
mk (venear_account_id k) (reviewer_ids k) (council_ids k) (owner_account_id k)
(classic_voting_duration_ns k) (fast_track_voting_duration_ns k) v (base_proposal_fee k)
(bond_amount k) (treasury_account_id k) (vote_storage_fee k) (guardians k)
(classic_proposal_expiration_ns k) (fast_track_proposal_expiration_ns k)
(proposed_new_owner_account_id k) (quorum_threshold_bps k) (quorum_floor k)
(approval_threshold_bps k) (simple_majority_threshold_bps k) (strong_majority_threshold_bps k)
(sandbox_duration_ns k) (sandbox_threshold_bps k) (max_active_proposals k).
Definition set_base_proposal_fee (v : NearToken) (k : t) : t :=
mk (venear_account_id k) (reviewer_ids k) (council_ids k) (owner_account_id k)
(classic_voting_duration_ns k) (fast_track_voting_duration_ns k) (timelock_duration_ns k) v
(bond_amount k) (treasury_account_id k) (vote_storage_fee k) (guardians k)
(classic_proposal_expiration_ns k) (fast_track_proposal_expiration_ns k)
(proposed_new_owner_account_id k) (quorum_threshold_bps k) (quorum_floor k)
(approval_threshold_bps k) (simple_majority_threshold_bps k) (strong_majority_threshold_bps k)
(sandbox_duration_ns k) (sandbox_threshold_bps k) (max_active_proposals k).
Definition set_bond_amount (v : NearToken) (k : t) : t :=
mk (venear_account_id k) (reviewer_ids k) (council_ids k) (owner_account_id k)
(classic_voting_duration_ns k) (fast_track_voting_duration_ns k) (timelock_duration_ns k)
(base_proposal_fee k) v (treasury_account_id k) (vote_storage_fee k) (guardians k)
(classic_proposal_expiration_ns k) (fast_track_proposal_expiration_ns k)
(proposed_new_owner_account_id k) (quorum_threshold_bps k) (quorum_floor k)
(approval_threshold_bps k) (simple_majority_threshold_bps k) (strong_majority_threshold_bps k)
(sandbox_duration_ns k) (sandbox_threshold_bps k) (max_active_proposals k).
Definition set_treasury_account_id (v : AccountId) (k : t) : t :=
mk (venear_account_id k) (reviewer_ids k) (council_ids k) (owner_account_id k)
(classic_voting_duration_ns k) (fast_track_voting_duration_ns k) (timelock_duration_ns k)
(base_proposal_fee k) (bond_amount k) v (vote_storage_fee k) (guardians k)
(classic_proposal_expiration_ns k) (fast_track_proposal_expiration_ns k)
(proposed_new_owner_account_id k) (quorum_threshold_bps k) (quorum_floor k)
(approval_threshold_bps k) (simple_majority_threshold_bps k) (strong_majority_threshold_bps k)
(sandbox_duration_ns k) (sandbox_threshold_bps k) (max_active_proposals k).
Definition set_guardians (v : list AccountId) (k : t) : t :=
mk (venear_account_id k) (reviewer_ids k) (council_ids k) (owner_account_id k)
(classic_voting_duration_ns k) (fast_track_voting_duration_ns k) (timelock_duration_ns k)
(base_proposal_fee k) (bond_amount k) (treasury_account_id k) (vote_storage_fee k) v
(classic_proposal_expiration_ns k) (fast_track_proposal_expiration_ns k)
(proposed_new_owner_account_id k) (quorum_threshold_bps k) (quorum_floor k)
(approval_threshold_bps k) (simple_majority_threshold_bps k) (strong_majority_threshold_bps k)
(sandbox_duration_ns k) (sandbox_threshold_bps k) (max_active_proposals k).
Definition set_classic_proposal_expiration_ns (v : Z) (k : t) : t :=
mk (venear_account_id k) (reviewer_ids k) (council_ids k) (owner_account_id k)
(classic_voting_duration_ns k) (fast_track_voting_duration_ns k) (timelock_duration_ns k)
(base_proposal_fee k) (bond_amount k) (treasury_account_id k) (vote_storage_fee k)
(guardians k) v (fast_track_proposal_expiration_ns k) (proposed_new_owner_account_id k)
(quorum_threshold_bps k) (quorum_floor k) (approval_threshold_bps k)
(simple_majority_threshold_bps k) (strong_majority_threshold_bps k) (sandbox_duration_ns k)
(sandbox_threshold_bps k) (max_active_proposals k).
Definition set_fast_track_proposal_expiration_ns (v : Z) (k : t) : t :=
mk (venear_account_id k) (reviewer_ids k) (council_ids k) (owner_account_id k)
(classic_voting_duration_ns k) (fast_track_voting_duration_ns k) (timelock_duration_ns k)
(base_proposal_fee k) (bond_amount k) (treasury_account_id k) (vote_storage_fee k)
(guardians k) (classic_proposal_expiration_ns k) v (proposed_new_owner_account_id k)
(quorum_threshold_bps k) (quorum_floor k) (approval_threshold_bps k)
(simple_majority_threshold_bps k) (strong_majority_threshold_bps k) (sandbox_duration_ns k)
(sandbox_threshold_bps k) (max_active_proposals k).
Definition set_proposed_new_owner_account_id (v : option AccountId) (k : t) : t :=
mk (venear_account_id k) (reviewer_ids k) (council_ids k) (owner_account_id k)
(classic_voting_duration_ns k) (fast_track_voting_duration_ns k) (timelock_duration_ns k)
(base_proposal_fee k) (bond_amount k) (treasury_account_id k) (vote_storage_fee k)
(guardians k) (classic_proposal_expiration_ns k) (fast_track_proposal_expiration_ns k) v
(quorum_threshold_bps k) (quorum_floor k) (approval_threshold_bps k)
(simple_majority_threshold_bps k) (strong_majority_threshold_bps k) (sandbox_duration_ns k)
(sandbox_threshold_bps k) (max_active_proposals k).
Definition set_quorum_threshold_bps (v : Z) (k : t) : t :=
mk (venear_account_id k) (reviewer_ids k) (council_ids k) (owner_account_id k)
(classic_voting_duration_ns k) (fast_track_voting_duration_ns k) (timelock_duration_ns k)
(base_proposal_fee k) (bond_amount k) (treasury_account_id k) (vote_storage_fee k)
(guardians k) (classic_proposal_expiration_ns k) (fast_track_proposal_expiration_ns k)
(proposed_new_owner_account_id k) v (quorum_floor k) (approval_threshold_bps k)
(simple_majority_threshold_bps k) (strong_majority_threshold_bps k) (sandbox_duration_ns k)
(sandbox_threshold_bps k) (max_active_proposals k).
Definition set_quorum_floor (v : NearToken) (k : t) : t :=
mk (venear_account_id k) (reviewer_ids k) (council_ids k) (owner_account_id k)
(classic_voting_duration_ns k) (fast_track_voting_duration_ns k) (timelock_duration_ns k)
(base_proposal_fee k) (bond_amount k) (treasury_account_id k) (vote_storage_fee k)
(guardians k) (classic_proposal_expiration_ns k) (fast_track_proposal_expiration_ns k)
(proposed_new_owner_account_id k) (quorum_threshold_bps k) v (approval_threshold_bps k)
(simple_majority_threshold_bps k) (strong_majority_threshold_bps k) (sandbox_duration_ns k)
(sandbox_threshold_bps k) (max_active_proposals k).
Definition set_approval_threshold_bps (v : Z) (k : t) : t :=
mk (venear_account_id k) (reviewer_ids k) (council_ids k) (owner_account_id k)
(classic_voting_duration_ns k) (fast_track_voting_duration_ns k) (timelock_duration_ns k)
(base_proposal_fee k) (bond_amount k) (treasury_account_id k) (vote_storage_fee k)
(guardians k) (classic_proposal_expiration_ns k) (fast_track_proposal_expiration_ns k)
(proposed_new_owner_account_id k) (quorum_threshold_bps k) (quorum_floor k) v
(simple_majority_threshold_bps k) (strong_majority_threshold_bps k) (sandbox_duration_ns k)
(sandbox_threshold_bps k) (max_active_proposals k).
Definition set_simple_majority_threshold_bps (v : Z) (k : t) : t :=
mk (venear_account_id k) (reviewer_ids k) (council_ids k) (owner_account_id k)
(classic_voting_duration_ns k) (fast_track_voting_duration_ns k) (timelock_duration_ns k)
(base_proposal_fee k) (bond_amount k) (treasury_account_id k) (vote_storage_fee k)
(guardians k) (classic_proposal_expiration_ns k) (fast_track_proposal_expiration_ns k)
(proposed_new_owner_account_id k) (quorum_threshold_bps k) (quorum_floor k)
(approval_threshold_bps k) v (strong_majority_threshold_bps k) (sandbox_duration_ns k)
(sandbox_threshold_bps k) (max_active_proposals k).
Definition set_strong_majority_threshold_bps (v : Z) (k : t) : t :=
mk (venear_account_id k) (reviewer_ids k) (council_ids k) (owner_account_id k)
(classic_voting_duration_ns k) (fast_track_voting_duration_ns k) (timelock_duration_ns k)
(base_proposal_fee k) (bond_amount k) (treasury_account_id k) (vote_storage_fee k)
(guardians k) (classic_proposal_expiration_ns k) (fast_track_proposal_expiration_ns k)
(proposed_new_owner_account_id k) (quorum_threshold_bps k) (quorum_floor k)
(approval_threshold_bps k) (simple_majority_threshold_bps k) v (sandbox_duration_ns k)
(sandbox_threshold_bps k) (max_active_proposals k).
Definition set_sandbox_duration_ns (v : Z) (k : t) : t :=
mk (venear_account_id k) (reviewer_ids k) (council_ids k) (owner_account_id k)
(classic_voting_duration_ns k) (fast_track_voting_duration_ns k) (timelock_duration_ns k)
(base_proposal_fee k) (bond_amount k) (treasury_account_id k) (vote_storage_fee k)
(guardians k) (classic_proposal_expiration_ns k) (fast_track_proposal_expiration_ns k)
(proposed_new_owner_account_id k) (quorum_threshold_bps k) (quorum_floor k)
(approval_threshold_bps k) (simple_majority_threshold_bps k) (strong_majority_threshold_bps k)
v (sandbox_threshold_bps k) (max_active_proposals k).
Definition set_sandbox_threshold_bps (v : Z) (k : t) : t :=
mk (venear_account_id k) (reviewer_ids k) (council_ids k) (owner_account_id k)
(classic_voting_duration_ns k) (fast_track_voting_duration_ns k) (timelock_duration_ns k)
(base_proposal_fee k) (bond_amount k) (treasury_account_id k) (vote_storage_fee k)
(guardians k) (classic_proposal_expiration_ns k) (fast_track_proposal_expiration_ns k)
(proposed_new_owner_account_id k) (quorum_threshold_bps k) (quorum_floor k)
(approval_threshold_bps k) (simple_majority_threshold_bps k) (strong_majority_threshold_bps k)
(sandbox_duration_ns k) v (max_active_proposals k).
Definition set_max_active_proposals (v : Z) (k : t) : t :=
mk (venear_account_id k) (reviewer_ids k) (council_ids k) (owner_account_id k)
(classic_voting_duration_ns k) (fast_track_voting_duration_ns k) (timelock_duration_ns k)
(base_proposal_fee k) (bond_amount k) (treasury_account_id k) (vote_storage_fee k)
(guardians k) (classic_proposal_expiration_ns k) (fast_track_proposal_expiration_ns k)
(proposed_new_owner_account_id k) (quorum_threshold_bps k) (quorum_floor k)
(approval_threshold_bps k) (simple_majority_threshold_bps k) (strong_majority_threshold_bps k)
(sandbox_duration_ns k) (sandbox_threshold_bps k) v.
End VConfig.

(** ** proposal.rs: data *)
Definition NS_PER_DAY : Z := 86400000000000.
Definition SNAPSHOT_STORAGE_RESERVE_BYTES : Z := 101.

Inductive ProposalAction : Type :=
| FunctionCall (receiver_id : AccountId) (method_name : string) (args : bytes)
    (deposit : NearToken) (gas : Z)
| TransferAction (receiver_id : AccountId) (amount : NearToken).

Inductive ProposalFlow : Type := Classic | FastTrack.

#[export] Instance ProposalFlow_eq_dec : EqDecision ProposalFlow.
Proof. solve_decision. Defined.

Record SnapshotAndState : Type := mkSnapshotState {
  snapshot : MerkleTreeSnapshot;
  timestamp_ns : TimestampNs;
  ss_total_venear : NearToken;
  ss_growth_config : VenearGrowthConfig
}.

Record VoteStats : Type := mkStats { total_venear : NearToken; total_votes_count : Z }.

Module VoteStats.
Definition default : VoteStats := mkStats 0 0.

Definition add_vote (s : VoteStats) (venear : NearToken) : result VoteStats :=
n ← u32_add (total_votes_count s) 1;
v ← near_add (total_venear s) venear;
mret (mkStats v n).

Definition remove_vote (s : VoteStats) (venear : NearToken) : result VoteStats :=
n ← u32_sub (total_votes_count s) 1;
v ← near_sub (total_venear s) venear;
mret (mkStats v n).
End VoteStats.

Record Proposal : Type := mkProposal {
  id : ProposalId;
  creation_time_ns : TimestampNs;
  proposer_id : AccountId;
  reviewer_id : option AccountId;
  rejecter_id : option AccountId;
  approval_time_ns : option TimestampNs;
  voting_start_time_ns : option TimestampNs;
  voting_duration_ns : Z;
  expiration_ns : Z;
  snapshot_and_state : option SnapshotAndState;
  votes : list VoteStats;
  total_votes : VoteStats;
  status : ProposalStatus.t;
  quorum_threshold_bps : Z;
  quorum_floor : NearToken;
  approval_threshold_bps : Z;
  actions : option (list ProposalAction);
  flow : ProposalFlow;
  timelock_duration_ns : Z;
  sandbox_start_time_ns : option TimestampNs;
  bond_amount : NearToken;
  sandbox_duration_ns : Z;
  sandbox_threshold_bps : Z
}.

(** ** legacy.rs: the stored shapes of older versions *)
Record ProposalV1 : Type := mkProposalV1 {
  v1_id : ProposalId;
  v1_creation_time_ns : TimestampNs;
  v1_proposer_id : AccountId;
  v1_reviewer_id : option AccountId;
  v1_voting_start_time_ns : option TimestampNs;
  v1_voting_duration_ns : Z;
  v1_rejected : bool;
  v1_snapshot_and_state : option SnapshotAndState;
  v1_votes : list VoteStats;
  v1_total_votes : VoteStats;
  v1_status : ProposalStatus.t
}.

Definition proposal_from_v1 (p : ProposalV1) : Proposal :=
  mkProposal (v1_id p) (v1_creation_time_ns p) (v1_proposer_id p) (v1_reviewer_id p) None
    (v1_voting_start_time_ns p) (v1_voting_start_time_ns p) (v1_voting_duration_ns p) 0
    (v1_snapshot_and_state p) (v1_votes p) (v1_total_votes p) (v1_status p) Bps.ZERO 0 Bps.ZERO
    None Classic 0 None 0 0 Bps.ZERO.

Record ProposalV2 : Type := mkProposalV2 {
  v2_id : ProposalId;
  v2_creation_time_ns : TimestampNs;
  v2_proposer_id : AccountId;
  v2_reviewer_id : option AccountId;
  v2_rejecter_id : option AccountId;
  v2_voting_start_time_ns : option TimestampNs;
  v2_voting_duration_ns : Z;
  v2_timelock_duration_ns : Z;
  v2_expiration_ns : Z;
  v2_snapshot_and_state : option SnapshotAndState;
  v2_votes : list VoteStats;
  v2_total_votes : VoteStats;
  v2_status : ProposalStatus.t;
  v2_quorum_threshold_bps : Z;
  v2_quorum_floor : NearToken;
  v2_approval_threshold_bps : Z;
  v2_actions : option (list ProposalAction)
}.

Definition proposal_from_v2 (p : ProposalV2) : result Proposal :=
  quorum ← Bps.new (v2_quorum_threshold_bps p);
  approval ← Bps.new (v2_approval_threshold_bps p);
  mret (mkProposal (v2_id p) (v2_creation_time_ns p) (v2_proposer_id p) (v2_reviewer_id p)
    (v2_rejecter_id p) (v2_voting_start_time_ns p) (v2_voting_start_time_ns p)
    (v2_voting_duration_ns p) (v2_expiration_ns p) (v2_snapshot_and_state p) (v2_votes p)
    (v2_total_votes p) (v2_status p) quorum (v2_quorum_floor p) approval (v2_actions p) Classic
    (v2_timelock_duration_ns p) None 0 0 Bps.ZERO).

Inductive VProposal : Type :=
| PV1 (p : ProposalV1)
| PV2 (p : ProposalV2)
| Current (p : Proposal).

(** [impl From<VProposal> for Proposal]. *)
Definition proposal_from (v : VProposal) : result Proposal :=
  match v with
  | PV1 p => Ok (proposal_from_v1 p)
  | PV2 p => proposal_from_v2 p
  | Current p => Ok p
  end.

(** ** metadata.rs *)
Record ProposalMetadata : Type := mkMetadata {
  title : option string;
  description : option string;
  link : option string
}.

Record ProposalMetadataV1 : Type := mkMetadataV1 {
  m1_title : option string;
  m1_description : option string;
  m1_link : option string;
  m1_voting_options : list string
}.

Inductive VProposalMetadata : Type :=
| MV1 (m : ProposalMetadataV1)
| MCurrent (m : ProposalMetadata).

Definition metadata_from (v : VProposalMetadata) : ProposalMetadata :=
  match v with
  | MV1 m => mkMetadata (m1_title m) (m1_description m) (m1_link m)
  | MCurrent m => m
  end.

(** ** Updates of single fields *)
Module Proposal.
Definition with_status (p : Proposal) (s : ProposalStatus.t) : Proposal :=
mkProposal (id p) (creation_time_ns p) (proposer_id p) (reviewer_id p) (rejecter_id p)
(approval_time_ns p) (voting_start_time_ns p) (voting_duration_ns p) (expiration_ns p)
(snapshot_and_state p) (votes p) (total_votes p) s (quorum_threshold_bps p) (quorum_floor p)
(approval_threshold_bps p) (actions p) (flow p) (timelock_duration_ns p)
(sandbox_start_time_ns p) (bond_amount p) (sandbox_duration_ns p) (sandbox_threshold_bps p).
Definition with_voting_start (p : Proposal) (t : option TimestampNs) : Proposal :=
mkProposal (id p) (creation_time_ns p) (proposer_id p) (reviewer_id p) (rejecter_id p)
(approval_time_ns p) t (voting_duration_ns p) (expiration_ns p) (snapshot_and_state p)
(votes p) (total_votes p) (status p) (quorum_threshold_bps p) (quorum_floor p)
(approval_threshold_bps p) (actions p) (flow p) (timelock_duration_ns p)
(sandbox_start_time_ns p) (bond_amount p) (sandbox_duration_ns p) (sandbox_threshold_bps p).
Definition with_sandbox_start (p : Proposal) (t : option TimestampNs) : Proposal :=
mkProposal (id p) (creation_time_ns p) (proposer_id p) (reviewer_id p) (rejecter_id p)
(approval_time_ns p) (voting_start_time_ns p) (voting_duration_ns p) (expiration_ns p)
(snapshot_and_state p) (votes p) (total_votes p) (status p) (quorum_threshold_bps p)
(quorum_floor p) (approval_threshold_bps p) (actions p) (flow p) (timelock_duration_ns p) t
(bond_amount p) (sandbox_duration_ns p) (sandbox_threshold_bps p).
Definition with_snapshot (p : Proposal) (s : option SnapshotAndState) : Proposal :=
mkProposal (id p) (creation_time_ns p) (proposer_id p) (reviewer_id p) (rejecter_id p)
(approval_time_ns p) (voting_start_time_ns p) (voting_duration_ns p) (expiration_ns p) s
(votes p) (total_votes p) (status p) (quorum_threshold_bps p) (quorum_floor p)
(approval_threshold_bps p) (actions p) (flow p) (timelock_duration_ns p)
(sandbox_start_time_ns p) (bond_amount p) (sandbox_duration_ns p) (sandbox_threshold_bps p).
Definition with_bond (p : Proposal) (b : NearToken) : Proposal :=
mkProposal (id p) (creation_time_ns p) (proposer_id p) (reviewer_id p) (rejecter_id p)
(approval_time_ns p) (voting_start_time_ns p) (voting_duration_ns p) (expiration_ns p)
(snapshot_and_state p) (votes p) (total_votes p) (status p) (quorum_threshold_bps p)
(quorum_floor p) (approval_threshold_bps p) (actions p) (flow p) (timelock_duration_ns p)
(sandbox_start_time_ns p) b (sandbox_duration_ns p) (sandbox_threshold_bps p).
Definition with_votes (p : Proposal) (vs : list VoteStats) (tot : VoteStats) : Proposal :=
mkProposal (id p) (creation_time_ns p) (proposer_id p) (reviewer_id p) (rejecter_id p)
(approval_time_ns p) (voting_start_time_ns p) (voting_duration_ns p) (expiration_ns p)
(snapshot_and_state p) vs tot (status p) (quorum_threshold_bps p) (quorum_floor p)
(approval_threshold_bps p) (actions p) (flow p) (timelock_duration_ns p)
(sandbox_start_time_ns p) (bond_amount p) (sandbox_duration_ns p) (sandbox_threshold_bps p).
Definition with_reviewer (p : Proposal) (r : option AccountId) : Proposal :=
mkProposal (id p) (creation_time_ns p) (proposer_id p) r (rejecter_id p) (approval_time_ns p)
(voting_start_time_ns p) (voting_duration_ns p) (expiration_ns p) (snapshot_and_state p)
(votes p) (total_votes p) (status p) (quorum_threshold_bps p) (quorum_floor p)
(approval_threshold_bps p) (actions p) (flow p) (timelock_duration_ns p)
(sandbox_start_time_ns p) (bond_amount p) (sandbox_duration_ns p) (sandbox_threshold_bps p).
Definition with_rejecter (p : Proposal) (r : option AccountId) : Proposal :=
mkProposal (id p) (creation_time_ns p) (proposer_id p) (reviewer_id p) r (approval_time_ns p)
(voting_start_time_ns p) (voting_duration_ns p) (expiration_ns p) (snapshot_and_state p)
(votes p) (total_votes p) (status p) (quorum_threshold_bps p) (quorum_floor p)
(approval_threshold_bps p) (actions p) (flow p) (timelock_duration_ns p)
(sandbox_start_time_ns p) (bond_amount p) (sandbox_duration_ns p) (sandbox_threshold_bps p).
Definition with_approval (p : Proposal) (r : option AccountId) (t : option TimestampNs) (quorum floor : Z) : Proposal :=
mkProposal (id p) (creation_time_ns p) (proposer_id p) r (rejecter_id p) t
(voting_start_time_ns p) (voting_duration_ns p) (expiration_ns p) (snapshot_and_state p)
(votes p) (total_votes p) (status p) quorum floor (approval_threshold_bps p) (actions p)
(flow p) (timelock_duration_ns p) (sandbox_start_time_ns p) (bond_amount p)
(sandbox_duration_ns p) (sandbox_threshold_bps p).
Definition with_approval_threshold (p : Proposal) (b : Z) : Proposal :=
mkProposal (id p) (creation_time_ns p) (proposer_id p) (reviewer_id p) (rejecter_id p)
(approval_time_ns p) (voting_start_time_ns p) (voting_duration_ns p) (expiration_ns p)
(snapshot_and_state p) (votes p) (total_votes p) (status p) (quorum_threshold_bps p)
(quorum_floor p) b (actions p) (flow p) (timelock_duration_ns p) (sandbox_start_time_ns p)
(bond_amount p) (sandbox_duration_ns p) (sandbox_threshold_bps p).
Definition with_sandbox (p : Proposal) (duration threshold : Z) : Proposal :=
mkProposal (id p) (creation_time_ns p) (proposer_id p) (reviewer_id p) (rejecter_id p)
(approval_time_ns p) (voting_start_time_ns p) (voting_duration_ns p) (expiration_ns p)
(snapshot_and_state p) (votes p) (total_votes p) (status p) (quorum_threshold_bps p)
(quorum_floor p) (approval_threshold_bps p) (actions p) (flow p) (timelock_duration_ns p)
(sandbox_start_time_ns p) (bond_amount p) duration threshold.
End Proposal.

(** ** proposal.rs: the life cycle of one proposal *)

(** The next voting start: in the [sandbox] test feature after 120 seconds,
    otherwise the next Monday 00:00 CET (UTC+1) strictly after [after_ns]. *)
Definition CET_OFFSET_NS : Z := 3600 * NS_PER_SEC.

Definition next_voting_start_ns (sandbox_feature : bool) (after_ns : Z) : result Z :=
  if sandbox_feature then u64_add after_ns (120 * NS_PER_SEC)
  else
    shifted ← u64_add after_ns CET_OFFSET_NS;
    let days_since_epoch := shifted / NS_PER_DAY in
    let day_of_week := days_since_epoch mod 7 in
    let days_until_monday := (10 - day_of_week) mod 7 + 1 in
    days ← u64_add days_since_epoch days_until_monday;
    ns ← u64_mul days NS_PER_DAY;
    u64_sub ns CET_OFFSET_NS.

Definition has_actions (p : Proposal) : bool :=
  match actions p with Some (_ :: _) => true | _ => false end.

Definition activate (p : Proposal) (start_time : TimestampNs) : Proposal :=
  match flow p with
  | Classic => Proposal.with_status (Proposal.with_voting_start p (Some start_time)) ProposalStatus.Voting
  | FastTrack => Proposal.with_status (Proposal.with_sandbox_start p (Some start_time)) ProposalStatus.Sandbox
  end.

(** [votes.get(i)], with the default of the code. *)
Definition vote_power (p : Proposal) (i : nat) : NearToken :=
  match votes p !! i with Some v => total_venear v | None => 0 end.

Definition compute_final_status (p : Proposal) : result ProposalStatus.t :=
  match snapshot_and_state p with
  | None => Ok ProposalStatus.Defeated
  | Some snap =>
      bps_quorum ← Bps.mul (quorum_threshold_bps p) (ss_total_venear snap);
      let quorum_required := Z.max bps_quorum (quorum_floor p) in
      let quorum_met := quorum_required <=? total_venear (total_votes p) in
      let for_power := vote_power p 0 in
      let against_power := vote_power p 1 in
      denominator ← u128_add for_power against_power;
      approval_met ←
        (if 0 <? denominator then
           lhs ← u128_mul for_power 10000;
           rhs ← u128_mul (approval_threshold_bps p) denominator;
           mret (rhs <=? lhs)
         else mret false);
      mret (if quorum_met && approval_met then ProposalStatus.Succeeded else ProposalStatus.Defeated)
  end.

Definition active_end_time_ns (p : Proposal) : result Z :=
  match flow p with
  | Classic =>
      start ← expect (voting_start_time_ns p) unwrap_none;
      voting_end ← u64_add start (voting_duration_ns p);
      final ← compute_final_status p;
      if bool_decide (final = ProposalStatus.Succeeded) then u64_add voting_end (timelock_duration_ns p)
      else mret voting_end
  | FastTrack =>
      match voting_start_time_ns p with
      | Some voting_start => u64_add voting_start (voting_duration_ns p)
      | None =>
          start ← expect (sandbox_start_time_ns p) unwrap_none;
          u64_add start (sandbox_duration_ns p)
      end
  end.

Definition sandbox_threshold_met (p : Proposal) : result bool :=
  match snapshot_and_state p with
  | None => mret false
  | Some snap =>
      threshold ← Bps.mul (sandbox_threshold_bps p) (ss_total_venear snap);
      mret (threshold <=? vote_power p 0)
  end.

Definition update_classic (p : Proposal) (timestamp : TimestampNs) : result Proposal :=
  match status p with
  | ProposalStatus.Rejected | ProposalStatus.Vetoed | ProposalStatus.Succeeded
  | ProposalStatus.Expired | ProposalStatus.Defeated | ProposalStatus.Executable
  | ProposalStatus.InProgress | ProposalStatus.Failed | ProposalStatus.ApprovalLegacy
  | ProposalStatus.FinishLegacy => mret p
  | ProposalStatus.Created =>
      if (0 <? expiration_ns p) && (expiration_ns p <=? timestamp)
      then mret (Proposal.with_status p ProposalStatus.Expired)
      else mret p
  | ProposalStatus.Voting | ProposalStatus.Timelock =>
      start ← expect (voting_start_time_ns p) unwrap_none;
      voting_end ← u64_add start (voting_duration_ns p);
      timelock_end ← u64_add voting_end (timelock_duration_ns p);
      if voting_end <=? timestamp then
        final_status ← compute_final_status p;
        mret (Proposal.with_status p
          (if negb (bool_decide (final_status = ProposalStatus.Succeeded)) then final_status
           else if timestamp <? timelock_end then ProposalStatus.Timelock
           else if has_actions p then ProposalStatus.Executable
           else ProposalStatus.Succeeded))
      else mret p
  | ProposalStatus.Slashed | ProposalStatus.Sandbox | ProposalStatus.Scheduled => mret p
  | ProposalStatus.Queued => mret p
  end.

Definition update_fast_track (p : Proposal) (timestamp : TimestampNs) : result Proposal :=
  match status p with
  | ProposalStatus.Rejected | ProposalStatus.Succeeded | ProposalStatus.Expired
  | ProposalStatus.Defeated | ProposalStatus.Executable | ProposalStatus.InProgress
  | ProposalStatus.Failed | ProposalStatus.Slashed | ProposalStatus.Vetoed
  | ProposalStatus.ApprovalLegacy | ProposalStatus.FinishLegacy => mret p
  | ProposalStatus.Created =>
      if (0 <? expiration_ns p) && (expiration_ns p <=? timestamp)
      then mret (Proposal.with_status p ProposalStatus.Expired)
      else mret p
  | ProposalStatus.Sandbox =>
      start ← expect (sandbox_start_time_ns p) unwrap_none;
      sandbox_end ← u64_add start (sandbox_duration_ns p);
      if sandbox_end <=? timestamp then mret (Proposal.with_status p ProposalStatus.Defeated)
      else mret p
  | ProposalStatus.Scheduled | ProposalStatus.Voting =>
      voting_start ← expect (voting_start_time_ns p) unwrap_none;
      voting_end ← u64_add voting_start (voting_duration_ns p);
      if voting_end <=? timestamp then
        final_status ← compute_final_status p;
        mret (Proposal.with_status p
          (if negb (bool_decide (final_status = ProposalStatus.Succeeded)) then final_status
           else if has_actions p then ProposalStatus.Executable
           else ProposalStatus.Succeeded))
      else if voting_start <=? timestamp then mret (Proposal.with_status p ProposalStatus.Voting)
      else mret p
  | ProposalStatus.Timelock => mret p
  | ProposalStatus.Queued => mret p
  end.

Definition update (p : Proposal) (timestamp : TimestampNs) : result Proposal :=
  match flow p with
  | Classic => update_classic p timestamp
  | FastTrack => update_fast_track p timestamp
  end.

Definition is_active_status (s : ProposalStatus.t) : bool :=
  match s with
  | ProposalStatus.Sandbox | ProposalStatus.Scheduled | ProposalStatus.Voting
  | ProposalStatus.Timelock => true
  | _ => false
  end.
