(* ===== verification/VotingContract.v ===== *)
(** * The voting contract (voting-contract/src)

    The contract state and every entry point: proposals and the scheduler
    queue, votes, reviewer and council decisions, execution, bonds, settings.
    [IterableSet] is a collection of near-sdk whose iteration order the
    contract does not rely on; it enters as a class with its documented laws. *)
From stdpp Require Import base gmap strings list.
From Stdlib Require Import ZArith Lia.
From S2P Require Import Prelude.
From S2P Require Import Near.
From S2P Require Import Common.
From S2P Require Import MerkleTree.
From S2P Require Import VotingTypes.

Local Open Scope Z_scope.

(** ** [near_sdk::store::IterableSet<ProposalId>] *)
Class IterableSet : Type := {
  iset : Type;
  is_new : iset;
  is_iter : iset -> list ProposalId;
  is_insert : ProposalId -> iset -> iset;
  is_remove : ProposalId -> iset -> iset
}.

Class IterableSetLaws (IS : IterableSet) : Prop := {
  is_new_iter : is_iter is_new = [];
  is_nodup : forall s, NoDup (is_iter s);
  is_insert_elem : forall x y s, x ∈ is_iter (is_insert y s) <-> x = y \/ x ∈ is_iter s;
  is_remove_elem : forall x y s, x ∈ is_iter (is_remove y s) <-> x <> y /\ x ∈ is_iter s
}.

Definition is_contains `{IS : IterableSet} (x : ProposalId) (s : iset) : bool :=
  bool_decide (x ∈ is_iter s).
Definition is_len `{IS : IterableSet} (s : iset) : Z := Z.of_nat (length (is_iter s)).

(** ** [Vector<T>]: a list addressed by [u32] indices *)
Definition vec_get {A} (l : list A) (i : Z) : option A :=
  if 0 <=? i then l !! Z.to_nat i else None.

Definition vec_set {A} (l : list A) (i : Z) (x : A) : result (list A) :=
  match vec_get l i with
  | Some _ => Ok (<[Z.to_nat i := x]> l)
  | None => Panic "Index out of bounds"
  end.

Definition vec_len {A} (l : list A) : Z := Z.of_nat (length l).

(** ** lib.rs: the contract state *)
Record Voting `{IS : IterableSet} : Type := mkVoting {
  v_config : VConfig.t;
  proposals : list VProposal;
  proposal_metadata : list VProposalMetadata;
  vote_records : gmap (AccountId * ProposalId) Z;
  v_paused : bool;
  pending_queue : list ProposalId;
  active_proposals : iset
}.

Arguments mkVoting {IS}.
Arguments v_config {IS}. Arguments proposals {IS}. Arguments proposal_metadata {IS}.
Arguments vote_records {IS}. Arguments v_paused {IS}. Arguments pending_queue {IS}.
Arguments active_proposals {IS}.

Record VotePayload : Type := mkPayload {
  pl_vote : VoteOption.t;
  pl_merkle_proof : MerkleProof;
  pl_v_account : VAccount
}.

Record ProposalInfo : Type := mkInfo { info_proposal : Proposal; info_metadata : ProposalMetadata }.

Record QueueState : Type := mkQueueState {
  qs_active_proposals : list ProposalId;
  qs_pending_queue : list ProposalId
}.

(** Receipts and logs: [GetSnapshot id] is the call of [get_snapshot] on the
    veNEAR contract with the callback [on_get_snapshot(id)]; [SelfVote] is the
    chained call of [vote] with the deposit passed on; [ExecuteActions] is the
    chain of the actions' promises with the callback [on_execute_proposal]. *)
Inductive VEffect : Type :=
| VLog (ev : Event)
| VTransfer (receiver : AccountId) (amount : NearToken)
| GetSnapshot (venear : AccountId) (proposal_id : ProposalId)
| SelfVote (proposal_id : ProposalId) (payload : VotePayload) (deposit : NearToken)
| ExecuteActions (acts : list ProposalAction) (proposal_id : ProposalId).

(** The build feature and the storage the state occupies. *)
Class VotingHost `{IS : IterableSet} : Type := {
  sandbox_feature : bool;
  vt_storage_usage : Voting -> Z
}.

Section contract.
Context `{IS : IterableSet} `{HC : Crypto} `{HB : Borsh VAccount} `{VT : !VotingHost}.

Abbreviation MVt := (M VEffect Voting).

Definition with_v_config (c : Voting) (k : VConfig.t) : Voting :=
mkVoting k (proposals c) (proposal_metadata c) (vote_records c) (v_paused c) (pending_queue c)
(active_proposals c).
Definition with_proposals (c : Voting) (l : list VProposal) (s : iset) : Voting :=
mkVoting (v_config c) l (proposal_metadata c) (vote_records c) (v_paused c) (pending_queue c) s.
Definition with_pending (c : Voting) (q : list ProposalId) : Voting :=
mkVoting (v_config c) (proposals c) (proposal_metadata c) (vote_records c) (v_paused c) q
(active_proposals c).
Definition with_records (c : Voting) (r : gmap (AccountId * ProposalId) Z) : Voting :=
mkVoting (v_config c) (proposals c) (proposal_metadata c) r (v_paused c) (pending_queue c)
(active_proposals c).
Definition with_v_paused (c : Voting) (b : bool) : Voting :=
mkVoting (v_config c) (proposals c) (proposal_metadata c) (vote_records c) b (pending_queue c)
(active_proposals c).

Definition new_voting (k : VConfig.t) : Voting := mkVoting k [] [] ∅ false [] is_new.

(** ** Guards *)
Definition assert_owner : MVt unit :=
c ← get_state; p ← asks predecessor_account_id;
requireM (String.eqb p (VConfig.owner_account_id (v_config c))) "Only the owner can call this method".

Definition assert_guardian : MVt unit :=
c ← get_state; p ← asks predecessor_account_id;
requireM (bool_decide (p ∈ VConfig.guardians (v_config c))
|| String.eqb p (VConfig.owner_account_id (v_config c)))
"Only the guardian can call this method".

Definition assert_not_paused : MVt unit :=
c ← get_state;
requireM (negb (v_paused c)) "Contract is paused. Please try again later.".

Definition assert_called_by_reviewer : MVt unit :=
c ← get_state; p ← asks predecessor_account_id;
requireM (bool_decide (p ∈ VConfig.reviewer_ids (v_config c))) "Only the reviewers can call this method".

Definition assert_called_by_council : MVt unit :=
c ← get_state; p ← asks predecessor_account_id;
requireM (bool_decide (p ∈ VConfig.council_ids (v_config c))) "Only the council can call this method".

(** ** proposal.rs: storage *)
Definition internal_set_proposal_in (c : Voting) (p : Proposal) : result Voting :=
let new_active := is_active_status (status p) in
let was_active := is_contains (id p) (active_proposals c) in
let s := if negb was_active && new_active then is_insert (id p) (active_proposals c)
else if was_active && negb new_active then is_remove (id p) (active_proposals c)
else active_proposals c in
l ← vec_set (proposals c) (id p) (Current p);
mret (with_proposals c l s).

Definition internal_set_proposal (p : Proposal) : MVt unit :=
c ← get_state;
c' ← lift (internal_set_proposal_in c p);
put_state c'.

Definition internal_get_proposal (now : TimestampNs) (c : Voting) (pid : ProposalId)
: result (option (Proposal * bool)) :=
match vec_get (proposals c) pid with
| None => mret None
| Some v =>
p ← proposal_from v;
p' ← update p now;
mret (Some (p', negb (bool_decide (status p' = status p))))
end.

Definition expect_proposal_updated_at (now : TimestampNs) (c : Voting) (pid : ProposalId) : result Proposal :=
o ← internal_get_proposal now c pid;
r ← expect o "Proposal is not found";
mret (fst r).

Definition internal_expect_proposal_updated (pid : ProposalId) : MVt Proposal :=
c ← get_state; now ← asks block_timestamp;
lift (expect_proposal_updated_at now c pid).

(** ** queue.rs *)

(** [position(|&t| t >= x)] and [insert]: keeps the list ascending. *)
Fixpoint insert_time (x : Z) (l : list Z) : list Z :=
match l with
| [] => [x]
| t :: l' => if x <=? t then x :: l else t :: insert_time x l'
end.

(** The loop over the active proposals: the number still active, the freed
slot times, and the proposals whose status changed. *)
Fixpoint scan_active (now : TimestampNs) (c : Voting) (ids : list ProposalId) (count : Z)
(freed : list Z) (updates : list Proposal) : result (Z * list Z * list Proposal) :=
match ids with
| [] => mret (count, freed, updates)
| pid :: ids' =>
o ← internal_get_proposal now c pid;
'(p, updated) ← expect o "active proposal missing";
let active := is_active_status (status p) in
count' ← (if active then u32_add count 1 else mret count);
if (updated : bool) then
freed' ← (if active then mret freed
      else end_time ← active_end_time_ns p; mret (insert_time end_time freed));
scan_active now c ids' count' freed' (updates ++ [p])
else scan_active now c ids' count' freed updates
end.

(** The loop over the pending queue. *)
Fixpoint scan_pending (now : TimestampNs) (c : Voting) (ids : list ProposalId) (count : Z)
(freed : list Z) (promotions : list Proposal) : result (list Proposal) :=
match ids with
| [] => mret promotions
| pid :: ids' =>
if VConfig.max_active_proposals (v_config c) <=? count then mret promotions
else
p ← expect_proposal_updated_at now c pid;
let '(start_time, freed1) := match freed with t :: f => (t, f) | [] => (now, []) end in
p' ← update (activate p start_time) now;
if is_active_status (status p') then
count' ← u32_add count 1;
scan_pending now c ids' count' freed1 (promotions ++ [p'])
else
end_time ← active_end_time_ns p';
scan_pending now c ids' count (insert_time end_time freed1) (promotions ++ [p'])
end.

(** [(active_updates, queue_promotions)]. *)
Definition compute_queue_advance (now : TimestampNs) (c : Voting)
: result (list Proposal * list Proposal) :=
'(count, freed, updates) ← scan_active now c (is_iter (active_proposals c)) 0 [] [];
promotions ← scan_pending now c (pending_queue c) count freed [];
mret (updates, promotions).

Fixpoint set_all (ps : list Proposal) (c : Voting) : result Voting :=
match ps with
| [] => mret c
| p :: ps' => c' ← internal_set_proposal_in c p; set_all ps' c'
end.

Definition advance_queue_at (now : TimestampNs) (c : Voting) : result Voting :=
'(updates, promotions) ← compute_queue_advance now c;
let c1 := with_pending c (drop (length promotions) (pending_queue c)) in
c2 ← set_all promotions c1;
set_all updates c2.

Definition internal_advance_queue : MVt unit :=
c ← get_state; now ← asks block_timestamp;
c' ← lift (advance_queue_at now c);
put_state c'.

Definition advance_queue : MVt unit := assert_not_paused ;; internal_advance_queue.

Definition get_queue_state (now : TimestampNs) (c : Voting) : result QueueState :=
'(updates, promotions) ← compute_queue_advance now c;
let exiting := map id (filter (fun p => is_active_status (status p) = false) updates) in
let active := filter (fun x => x ∉ exiting) (is_iter (active_proposals c))
    ++ map id (filter (fun p => is_active_status (status p) = true) promotions) in
mret (mkQueueState active (drop (length promotions) (pending_queue c))).

(** [get_proposals_virtual_updates] as a lookup: the promotion with this id. *)
Definition virtual_update (promotions : list Proposal) (pid : ProposalId) : option Proposal :=
last (filter (fun p => id p = pid) promotions).

(** ** proposal.rs: views and creation *)
Definition get_proposal (now : TimestampNs) (c : Voting) (pid : ProposalId) : result (option ProposalInfo) :=
'(_, promotions) ← compute_queue_advance now c;
p ← match virtual_update promotions pid with
| Some p => mret (Some p)
| None => o ← internal_get_proposal now c pid; mret (fst <$> o)
end;
mret (match p, vec_get (proposal_metadata c) pid with
| Some p, Some m => Some (mkInfo p (metadata_from m))
| _, _ => None
end).

Definition get_num_proposals (c : Voting) : Z := vec_len (proposals c).

Definition proposal_info (now : TimestampNs) (c : Voting) (promotions : list Proposal) (i : Z)
: result ProposalInfo :=
p ← match virtual_update promotions i with
| Some p => mret p
| None => o ← internal_get_proposal now c i; r ← expect o unwrap_none; mret (fst r)
end;
m ← expect (vec_get (proposal_metadata c) i) unwrap_none;
mret (mkInfo p (metadata_from m)).

Fixpoint map_result {A B} (f : A -> result B) (l : list A) : result (list B) :=
match l with
| [] => mret []
| x :: l' => y ← f x; ys ← map_result f l'; mret (y :: ys)
end.

Definition get_proposals (now : TimestampNs) (c : Voting) (from_index : Z) (limit : option Z)
: result (list ProposalInfo) :=
'(_, promotions) ← compute_queue_advance now c;
let to_index := Z.min (saturating_add U32_MAX from_index (default U32_MAX limit)) (get_num_proposals c) in
map_result (proposal_info now c promotions) (seqZ from_index (to_index - from_index)).

Definition new_proposal (e : Env) (k : VConfig.t) (pid : ProposalId)
(acts : option (list ProposalAction)) (fl : ProposalFlow) : result Proposal :=
let '(flow_expiration, voting_duration, timelock, bond) :=
match fl with
| Classic => (VConfig.classic_proposal_expiration_ns k, VConfig.classic_voting_duration_ns k,
      VConfig.timelock_duration_ns k, 0)
| FastTrack => (VConfig.fast_track_proposal_expiration_ns k,
        VConfig.fast_track_voting_duration_ns k, 0, VConfig.bond_amount k)
end in
expiration ← (if 0 <? flow_expiration then u64_add (block_timestamp e) flow_expiration else mret 0);
mret (mkProposal pid (block_timestamp e) (predecessor_account_id e) None None None None
voting_duration expiration None (replicate 3 VoteStats.default) VoteStats.default
ProposalStatus.Created Bps.ZERO 0 Bps.ZERO acts fl timelock None bond 0 Bps.ZERO).

Definition create_proposal (metadata : ProposalMetadata) (acts : option (list ProposalAction))
(fl : ProposalFlow) : MVt ProposalId :=
assert_not_paused ;;
e ← asks (fun e => e);
requireM (match acts with Some [] => false | _ => true end) "Actions list cannot be empty" ;;
c ← get_state;
let pid := vec_len (proposals c) in
emit (VLog (create_proposal_action "create_proposal" (predecessor_account_id e) pid)) ;;
p ← lift (new_proposal e (v_config c) pid acts fl);
let c' := mkVoting (v_config c) (proposals c ++ [Current p]) (proposal_metadata c ++ [MCurrent metadata])
  (vote_records c) (v_paused c) (pending_queue c) (active_proposals c) in
put_state c' ;;
updated ← lift (u64_add (vt_storage_usage c') SNAPSHOT_STORAGE_RESERVE_BYTES);
let storage_added := saturating_sub updated (vt_storage_usage c) in
storage_added_cost ← lift (checked_op U128_MAX (storage_byte_cost e * storage_added) unwrap_none);
fees ← lift (near_add (bond_amount p) (VConfig.base_proposal_fee (v_config c)));
required_deposit ← lift (near_add fees storage_added_cost);
requireM (required_deposit <=? attached_deposit e) "Requires deposit of " ;;
(if required_deposit <? attached_deposit e then
refund ← lift (near_sub (attached_deposit e) required_deposit);
emit (VTransfer (predecessor_account_id e) refund)
else mret tt) ;;
mret pid.

(** ** votes.rs *)
Definition upd_stats (vs : list VoteStats) (i : Z) (f : VoteStats -> result VoteStats)
: result (list VoteStats) :=
s ← expect (vec_get vs i) "index out of bounds";
s' ← f s;
mret (<[Z.to_nat i := s']> vs).

(** Removing the previous vote of the account, if any. *)
Definition remove_previous (p : Proposal) (previous : option Z) (bal : NearToken) : result Proposal :=
match previous with
| None => mret p
| Some prev =>
vs ← upd_stats (votes p) prev (fun s => VoteStats.remove_vote s bal);
tot ← VoteStats.remove_vote (total_votes p) bal;
mret (Proposal.with_votes p vs tot)
end.

Definition add_new (p : Proposal) (vote_index : Z) (bal : NearToken) : result Proposal :=
vs ← upd_stats (votes p) vote_index (fun s => VoteStats.add_vote s bal);
tot ← VoteStats.add_vote (total_votes p) bal;
mret (Proposal.with_votes p vs tot).

Definition vote (pid : ProposalId) (v : VoteOption.t) (proof : MerkleProof) (v_account : VAccount) : MVt unit :=
assert_not_paused ;;
internal_advance_queue ;;
e ← asks (fun e => e);
requireM (negb (attached_deposit e =? 0)) "Requires attached deposit" ;;
p ← internal_expect_proposal_updated pid;
match status p with
| ProposalStatus.Voting => mret tt
| ProposalStatus.Sandbox =>
requireM (bool_decide (v = VoteOption.For)) "Only 'For' votes are allowed during the sandbox period"
| _ => panicM "Proposal is not in the voting phase"
end ;;
snap ← lift (expect (snapshot_and_state p) "Snapshot has not been taken yet");
requireM (is_valid proof (snap_root (snapshot snap)) (snap_length (snapshot snap)) v_account)
"Invalid merkle proof" ;;
let account := account_from v_account in
let voter := account_id account in
requireM (String.eqb voter (predecessor_account_id e)
|| String.eqb (predecessor_account_id e) (current_account_id e))
"Account ID doesn't match the predecessor account ID or self-call." ;;
bal ← lift (Account.total_balance account (timestamp_ns snap) (ss_growth_config snap));
requireM (negb (bal =? 0)) "Account has no veNEAR balance" ;;
let vote_index := VoteOption.to_u8 v in
c ← get_state;
let previous := vote_records c !! (voter, pid) in
requireM (negb (bool_decide (previous = Some vote_index))) "Already voted for the same option" ;;
p1 ← lift (remove_previous p previous bal);
(match previous with
| Some prev => emit (VLog (proposal_vote_action "remove_vote" voter pid prev bal))
| None => mret tt
end) ;;
let storage_added := match previous with Some _ => 0 | None => VConfig.vote_storage_fee (v_config c) end in
p2 ← lift (add_new p1 vote_index bal);
requireM (storage_added <=? attached_deposit e) "Requires deposit of " ;;
keep ← lift (near_add storage_added 1);
(if keep <? attached_deposit e then
refund ← lift (near_sub (attached_deposit e) keep);
emit (VTransfer (if String.eqb (predecessor_account_id e) (current_account_id e)
          then signer_account_id e else predecessor_account_id e) refund)
else mret tt) ;;
emit (VLog (proposal_vote_action "add_vote" voter pid vote_index bal)) ;;
met ← (if bool_decide (flow p2 = FastTrack) && bool_decide (status p2 = ProposalStatus.Sandbox)
then lift (sandbox_threshold_met p2) else mret false);
p3 ← (if (met : bool) then
start ← lift (next_voting_start_ns sandbox_feature (block_timestamp e));
mret (Proposal.with_status (Proposal.with_voting_start p2 (Some start)) ProposalStatus.Scheduled)
else mret p2);
modify (fun c => with_records c (<[(voter, pid) := vote_index]> (vote_records c))) ;;
internal_set_proposal p3.

Definition get_vote (c : Voting) (a : AccountId) (pid : ProposalId) : option Z :=
vote_records c !! (a, pid).

Definition take_snapshot_and_vote (pid : ProposalId) (payload : option VotePayload) : MVt unit :=
assert_not_paused ;;
internal_advance_queue ;;
e ← asks (fun e => e);
p ← internal_expect_proposal_updated pid;
requireM (bool_decide (status p = ProposalStatus.Sandbox) || bool_decide (status p = ProposalStatus.Voting))
"Proposal must be in Sandbox or Voting status to take a snapshot" ;;
(match payload with
| None =>
requireM (negb (bool_decide (is_Some (snapshot_and_state p)))) "Snapshot is already set for this proposal" ;;
requireM (attached_deposit e =? 0) "Snapshot-only call must not attach a deposit"
| Some _ => mret tt
end) ;;
c ← get_state;
(match snapshot_and_state p with
| None => emit (GetSnapshot (VConfig.venear_account_id (v_config c)) pid)
| Some _ => mret tt
end) ;;
match payload with
| Some pl =>
requireM (String.eqb (account_id (account_from (pl_v_account pl))) (predecessor_account_id e))
"v_account does not match the caller" ;;
emit (SelfVote pid pl (attached_deposit e))
| None => mret tt
end.

(** ** reviewer.rs *)
Definition approve_proposal (pid : ProposalId) (majority : option MajorityType.t)
: MVt (option (option ProposalInfo)) :=
assert_one_yocto ;; assert_not_paused ;; assert_called_by_reviewer ;;
internal_advance_queue ;;
e ← asks (fun e => e);
p ← internal_expect_proposal_updated pid;
requireM (bool_decide (status p = ProposalStatus.Created)) "Proposal is not in the Created status" ;;
requireM (negb (bool_decide (flow p = FastTrack) && match majority with None => true | _ => false end))
"FastTrack proposals require a majority_type" ;;
emit (VLog (approve_proposal_action (predecessor_account_id e) pid)) ;;
c ← get_state;
let k := v_config c in
let p1 := Proposal.with_approval p (Some (predecessor_account_id e)) (Some (block_timestamp e))
  (VConfig.quorum_threshold_bps k) (VConfig.quorum_floor k) in
(if 0 <? bond_amount p1 then emit (VTransfer (VConfig.treasury_account_id k) (bond_amount p1)) else mret tt) ;;
let p2 := if 0 <? bond_amount p1 then Proposal.with_bond p1 0 else p1 in
p3 ← match flow p2 with
| Classic => mret (Proposal.with_approval_threshold p2 (VConfig.approval_threshold_bps k))
| FastTrack =>
m ← lift (expect majority unwrap_none);
mret (Proposal.with_sandbox
 (Proposal.with_approval_threshold p2
    (match m with
     | MajorityType.Simple => VConfig.simple_majority_threshold_bps k
     | MajorityType.Strong => VConfig.strong_majority_threshold_bps k
     end))
 (VConfig.sandbox_duration_ns k) (VConfig.sandbox_threshold_bps k))
end;
if is_len (active_proposals c) <? VConfig.max_active_proposals k then
internal_set_proposal (activate p3 (block_timestamp e)) ;;
emit (GetSnapshot (VConfig.venear_account_id k) pid) ;;
mret None
else
internal_set_proposal (Proposal.with_status p3 ProposalStatus.Queued) ;;
modify (fun c => with_pending c (pending_queue c ++ [pid])) ;;
c' ← get_state;
info ← lift (get_proposal (block_timestamp e) c' pid);
mret (Some info).

Definition reject_proposal (pid : ProposalId) : MVt unit :=
assert_one_yocto ;; assert_not_paused ;; assert_called_by_reviewer ;;
pred ← asks predecessor_account_id;
p ← internal_expect_proposal_updated pid;
requireM (bool_decide (status p = ProposalStatus.Created))
"Proposal can only be rejected while in the Created status" ;;
emit (VLog (reject_proposal_action pred pid)) ;;
internal_set_proposal (Proposal.with_status (Proposal.with_reviewer p (Some pred)) ProposalStatus.Rejected).

Definition veto_proposal (pid : ProposalId) : MVt unit :=
assert_one_yocto ;; assert_not_paused ;; assert_called_by_council ;;
internal_advance_queue ;;
pred ← asks predecessor_account_id;
p ← internal_expect_proposal_updated pid;
requireM (match flow p, status p with
| Classic, ProposalStatus.Timelock => true
| FastTrack, (ProposalStatus.Voting | ProposalStatus.Scheduled) => true
| _, _ => false
end) "Proposal cannot be vetoed in its current state" ;;
emit (VLog (veto_proposal_action pred pid)) ;;
internal_set_proposal (Proposal.with_status (Proposal.with_rejecter p (Some pred)) ProposalStatus.Vetoed) ;;
internal_advance_queue.

Definition noveto_proposal (pid : ProposalId) : MVt unit :=
assert_one_yocto ;; assert_not_paused ;; assert_called_by_council ;;
pred ← asks predecessor_account_id;
p ← internal_expect_proposal_updated pid;
requireM (bool_decide (status p = ProposalStatus.Timelock))
"Proposal can only be noveto'd during the timelock period" ;;
emit (VLog (noveto_proposal_action pred pid)) ;;
internal_set_proposal (Proposal.with_status p
(if has_actions p then ProposalStatus.Executable else ProposalStatus.Succeeded)) ;;
internal_advance_queue.

Definition slash_proposal (pid : ProposalId) : MVt unit :=
assert_one_yocto ;; assert_not_paused ;; assert_called_by_reviewer ;;
pred ← asks predecessor_account_id;
p ← internal_expect_proposal_updated pid;
requireM (bool_decide (flow p = FastTrack)) "Only FastTrack proposals can be slashed" ;;
requireM (bool_decide (status p = ProposalStatus.Created))
"Proposal can only be slashed while in Created status" ;;
let p1 := Proposal.with_status p ProposalStatus.Slashed in
emit (VLog (slash_proposal_action pred pid)) ;;
c ← get_state;
p2 ← (if 0 <? bond_amount p1 then
emit (VTransfer (VConfig.treasury_account_id (v_config c)) (bond_amount p1)) ;;
mret (Proposal.with_bond p1 0)
else mret p1);
internal_set_proposal p2.

(** The callback with the snapshot: [#[callback]] fails when the awaited
promise failed. *)
Definition on_get_snapshot (snap : MerkleTreeSnapshot * VGlobalState) (pid : ProposalId) : MVt ProposalInfo :=
assert_private ;;
e ← asks (fun e => e);
requireM (match promise_results e with Successful :: _ => true | _ => false end)
"Callback computation 0 was not successful" ;;
assert_not_paused ;;
p ← internal_expect_proposal_updated pid;
requireM (bool_decide (status p = ProposalStatus.Sandbox) || bool_decide (status p = ProposalStatus.Voting))
"Proposal must be in Sandbox or Voting status" ;;
requireM (negb (bool_decide (is_Some (snapshot_and_state p)))) "Snapshot is already set for this proposal" ;;
gs ← lift (GlobalState.update (global_state_from (snd snap)) (block_timestamp e));
total ← lift (Pool.total (total_venear_balance gs));
c ← get_state;
internal_set_proposal (Proposal.with_snapshot p
(Some (mkSnapshotState (fst snap) (block_timestamp e) total (venear_growth_config gs)))) ;;
c' ← get_state;
requireM (saturating_sub (vt_storage_usage c') (vt_storage_usage c) <=? SNAPSHOT_STORAGE_RESERVE_BYTES)
"Snapshot write exceeded reserved storage" ;;
info ← lift (get_proposal (block_timestamp e) c' pid);
lift (expect info unwrap_none).

(** ** execute.rs *)
Definition execute_proposal (pid : ProposalId) : MVt unit :=
assert_not_paused ;;
internal_advance_queue ;;
pred ← asks predecessor_account_id;
p ← internal_expect_proposal_updated pid;
requireM (bool_decide (status p = ProposalStatus.Executable)) "Proposal is not in Executable status" ;;
acts ← lift (expect (actions p) unwrap_none);
requireM (negb (bool_decide (acts = []))) unwrap_none ;;
emit (VLog (execute_proposal_action pred pid)) ;;
internal_set_proposal (Proposal.with_status p ProposalStatus.InProgress) ;;
emit (ExecuteActions acts pid).

Definition on_execute_proposal (pid : ProposalId) : MVt unit :=
assert_private ;;
internal_advance_queue ;;
p ← internal_expect_proposal_updated pid;
results ← asks promise_results;
let all_succeeded := forallb (fun r => negb (bool_decide (r = Failed))) results in
emit (VLog (execute_proposal_result pid all_succeeded)) ;;
internal_set_proposal (Proposal.with_status p
(if all_succeeded then ProposalStatus.Succeeded else ProposalStatus.Failed)).

(** ** bond.rs *)
Definition claim_bond (pid : ProposalId) : MVt unit :=
p ← internal_expect_proposal_updated pid;
pred ← asks predecessor_account_id;
requireM (bool_decide (flow p = FastTrack)) "Bonds only exist on FastTrack proposals" ;;
requireM (String.eqb (proposer_id p) pred) "Only the proposer can claim the bond" ;;
requireM (0 <? bond_amount p) "No bond to claim" ;;
requireM (match status p with ProposalStatus.Expired | ProposalStatus.Rejected => true | _ => false end)
"Bond can only be claimed from expired or rejected proposals" ;;
internal_set_proposal (Proposal.with_bond p 0) ;;
emit (VTransfer (proposer_id p) (bond_amount p)).

(** ** governance.rs and pause.rs *)
Definition owner_update (f : VConfig.t -> VConfig.t) : MVt unit :=
assert_one_yocto ;; assert_owner ;;
modify (fun c => with_v_config c (f (v_config c))).

(** Durations arrive in seconds as [u32]. *)
Definition owner_update_sec (f : Z -> VConfig.t -> VConfig.t) (sec : Z) : MVt unit :=
assert_one_yocto ;; assert_owner ;;
ns ← lift (u64_mul sec NS_PER_SEC);
modify (fun c => with_v_config c (f ns (v_config c))).

Definition set_venear_account_id v := owner_update (VConfig.set_venear_account_id v).
Definition set_reviewer_ids v := owner_update (VConfig.set_reviewer_ids v).
Definition set_classic_voting_duration v := owner_update_sec VConfig.set_classic_voting_duration_ns v.
Definition set_fast_track_voting_duration v := owner_update_sec VConfig.set_fast_track_voting_duration_ns v.
Definition set_base_proposal_fee v := owner_update (VConfig.set_base_proposal_fee v).
Definition propose_new_owner_account_id v := owner_update (VConfig.set_proposed_new_owner_account_id v).
Definition accept_ownership : MVt unit :=
assert_one_yocto ;;
pred ← asks predecessor_account_id;
c ← get_state;
requireM (bool_decide (VConfig.proposed_new_owner_account_id (v_config c) = Some pred))
"Only the proposed new owner can call this method" ;;
put_state (with_v_config c (VConfig.set_proposed_new_owner_account_id None
                    (VConfig.set_owner_account_id pred (v_config c)))).
Definition set_guardians v := owner_update (VConfig.set_guardians v).
Definition set_council_ids v := owner_update (VConfig.set_council_ids v).
Definition set_timelock_duration v := owner_update_sec VConfig.set_timelock_duration_ns v.
Definition set_classic_proposal_expiration v := owner_update_sec VConfig.set_classic_proposal_expiration_ns v.
Definition set_fast_track_proposal_expiration v :=
owner_update_sec VConfig.set_fast_track_proposal_expiration_ns v.
Definition set_quorum_threshold_bps v := owner_update (VConfig.set_quorum_threshold_bps v).
Definition set_quorum_floor v := owner_update (VConfig.set_quorum_floor v).
Definition set_approval_threshold_bps v := owner_update (VConfig.set_approval_threshold_bps v).
Definition set_bond_amount v := owner_update (VConfig.set_bond_amount v).
Definition set_treasury_account_id v := owner_update (VConfig.set_treasury_account_id v).
Definition set_simple_majority_threshold_bps v := owner_update (VConfig.set_simple_majority_threshold_bps v).
Definition set_strong_majority_threshold_bps v := owner_update (VConfig.set_strong_majority_threshold_bps v).
Definition set_sandbox_duration v := owner_update_sec VConfig.set_sandbox_duration_ns v.
Definition set_sandbox_threshold_bps v := owner_update (VConfig.set_sandbox_threshold_bps v).
Definition set_max_active_proposals (v : Z) : MVt unit :=
assert_one_yocto ;; assert_owner ;;
requireM (0 <? v) "max_active_proposals must be greater than 0" ;;
modify (fun c => with_v_config c (VConfig.set_max_active_proposals v (v_config c))) ;;
internal_advance_queue.

Definition pause : MVt unit :=
assert_one_yocto ;; assert_guardian ;; modify (fun c => with_v_paused c true).
Definition unpause : MVt unit :=
assert_one_yocto ;; assert_owner ;; modify (fun c => with_v_paused c false).
End contract.
