(* ===== verification/VotingFacts.v ===== *)
(** * Facts about one proposal

    The lazy status update only depends on the latest time it is run at, it
    moves along the edges of the status machine, the final tally is the stated
    rule, and voting rounds start on Mondays. *)
From stdpp Require Import base gmap strings list.
From Stdlib Require Import ZArith Lia.
From S2P Require Import Prelude.
From S2P Require Import Near.
From S2P Require Import Common.
From S2P Require Import CommonFacts.
From S2P Require Import MerkleTree.
From S2P Require Import VotingTypes.

Local Open Scope Z_scope.

(** ** The status machine *)
Module St := ProposalStatus.

(** Statuses time does not change. *)
Definition settled (s : St.t) : bool :=
  match s with
  | St.Created | St.Voting | St.Timelock | St.Sandbox | St.Scheduled => false
  | _ => true
  end.

(** The edges [update] may take, in reflexive transitive form. *)
Definition time_edge (s s' : St.t) : bool :=
  match s, s' with
  | St.Created, St.Expired => true
  | St.Voting, (St.Timelock | St.Defeated | St.Executable | St.Succeeded) => true
  | St.Timelock, (St.Defeated | St.Executable | St.Succeeded) => true
  | St.Sandbox, St.Defeated => true
  | St.Scheduled, (St.Voting | St.Defeated | St.Executable | St.Succeeded) => true
  | _, _ => bool_decide (s = s')
  end.

Lemma with_status_same p : Proposal.with_status p (status p) = p.
Proof. by destruct p. Qed.
Lemma with_status_twice p s s' : Proposal.with_status (Proposal.with_status p s) s' = Proposal.with_status p s'.
Proof. done. Qed.

Lemma compute_final_status_status p s :
  compute_final_status (Proposal.with_status p s) = compute_final_status p.
Proof. done. Qed.

Lemma compute_final_cases p s : compute_final_status p = Ok s -> s = St.Succeeded \/ s = St.Defeated.
Proof.
  unfold compute_final_status. destruct (snapshot_and_state p); [|intros; res_inv; by right].
  intros H. res_inv. destruct (_ && _); auto.
Qed.

(** The status after an update. *)
Definition updated_status (p p' : Proposal) : Prop :=
  p' = Proposal.with_status p (status p').

Ltac final_cases :=
  match goal with
  | H : compute_final_status _ = Ok _ |- _ =>
      destruct (compute_final_cases _ _ H) as [-> | ->]; cbn; repeat case_match; done
  end.

Lemma update_shape p t p' : update p t = Ok p' ->
  updated_status p p' /\ time_edge (status p) (status p') = true.
Proof.
  unfold update, update_classic, update_fast_track, updated_status. intros H. set (acts := has_actions p) in *.
  clearbody acts.
  destruct (flow p), (status p) eqn:Es;
    repeat (res_inv; try match goal with H : (if ?b then _ else _) = Ok _ |- _ => destruct b end);
    res_inv; rewrite <- ?Es, ?with_status_same, ?Es; cbn [status Proposal.with_status];
    (split; [by rewrite <- ?Es, ?with_status_same|]); try done.
  all: final_cases.
Qed.

(** The same edges per flow; [acts] says whether there are actions to run. *)
Definition flow_edge (f : ProposalFlow) (acts : bool) (s s' : St.t) : bool :=
  match f, s, s' with
  | _, St.Created, St.Expired => true
  | Classic, (St.Voting | St.Timelock), (St.Timelock | St.Defeated) => true
  | FastTrack, St.Sandbox, St.Defeated => true
  | FastTrack, (St.Scheduled | St.Voting), (St.Voting | St.Defeated) => true
  | Classic, (St.Voting | St.Timelock), St.Executable => acts
  | Classic, (St.Voting | St.Timelock), St.Succeeded => negb acts
  | FastTrack, (St.Scheduled | St.Voting), St.Executable => acts
  | FastTrack, (St.Scheduled | St.Voting), St.Succeeded => negb acts
  | _, _, _ => bool_decide (s = s')
  end.

Lemma update_edge p t p' : update p t = Ok p' ->
  flow_edge (flow p) (has_actions p) (status p) (status p') = true.
Proof.
  unfold update, update_classic, update_fast_track. intros H. set (acts := has_actions p) in *. clearbody acts.
  destruct (flow p), (status p) eqn:Es;
    repeat (res_inv; try match goal with H : (if ?b then _ else _) = Ok _ |- _ => destruct b end);
    res_inv; cbn [status Proposal.with_status]; rewrite ?Es; try done.
  all: final_cases.
Qed.

Lemma update_settled p t : settled (status p) = true -> update p t = Ok p.
Proof.
  unfold update, update_classic, update_fast_track. by destruct (flow p), (status p).
Qed.

(** An update moves nothing but the status, so updating again works on the
    same data. *)
Ltac leb_decide :=
  repeat match goal with
  | |- context [?a <=? ?b] =>
      first [ rewrite (proj2 (Z.leb_le a b)) by lia | rewrite (proj2 (Z.leb_gt a b)) by lia ]
  | |- context [?a <? ?b] =>
      first [ rewrite (proj2 (Z.ltb_lt a b)) by lia | rewrite (proj2 (Z.ltb_ge a b)) by lia ]
  end.

Lemma update_classic_vote p t1 t2 p1 : t1 <= t2 ->
  status p = St.Voting \/ status p = St.Timelock ->
  update_classic p t1 = Ok p1 -> update_classic p1 t2 = update_classic p t2.
Proof.
  intros Ht Hs H.
  assert (forall q, status q = St.Voting \/ status q = St.Timelock ->
    forall t, update_classic q t =
      (start ← expect (voting_start_time_ns q) unwrap_none;
       voting_end ← u64_add start (voting_duration_ns q);
       timelock_end ← u64_add voting_end (timelock_duration_ns q);
       if voting_end <=? t then
         final_status ← compute_final_status q;
         mret (Proposal.with_status q
          (if negb (bool_decide (final_status = St.Succeeded)) then final_status
           else if t <? timelock_end then St.Timelock
           else if has_actions q then St.Executable else St.Succeeded))
       else mret q)) as Heq.
  { intros q [E|E] t; unfold update_classic; by rewrite E. }
  rewrite (Heq p Hs) in H. rewrite (Heq p Hs t2).
  destruct (voting_start_time_ns p) as [start|] eqn:Est; [|discriminate]. cbn [expect mbind result_bind] in *.
  destruct (u64_add start (voting_duration_ns p)) as [ve|] eqn:Eve; [|discriminate]. cbn [mbind result_bind] in *.
  destruct (u64_add ve (timelock_duration_ns p)) as [te|] eqn:Ete; [|discriminate]. cbn [mbind result_bind] in *.
  assert (ve <= te \/ te < ve) as Hvt by lia.
  destruct (ve <=? t1) eqn:E1; bool_prop; [|res_inv; rewrite (Heq p1 Hs), Est; cbn; rewrite Eve; cbn; rewrite Ete; done].
  leb_decide. destruct (compute_final_status p) as [fs|] eqn:Ef; [|discriminate]. cbn [mbind result_bind] in *. res_inv.
  destruct (compute_final_cases _ _ Ef) as [-> | ->]; cbn [bool_decide decide negb]; cbn.
  - destruct (t1 <? te) eqn:E2; bool_prop.
    + rewrite (Heq (Proposal.with_status p St.Timelock)) by (by right).
      cbn [voting_start_time_ns Proposal.with_status voting_duration_ns timelock_duration_ns].
      rewrite Est; cbn [expect mbind result_bind]. rewrite Eve; cbn [mbind result_bind]. rewrite Ete; cbn [mbind result_bind].
      leb_decide. rewrite compute_final_status_status, Ef. done.
    + leb_decide. by destruct (has_actions p).
  - done.
Qed.

Lemma update_fast_vote p t1 t2 p1 : t1 <= t2 ->
  status p = St.Voting \/ status p = St.Scheduled ->
  update_fast_track p t1 = Ok p1 -> update_fast_track p1 t2 = update_fast_track p t2.
Proof.
  intros Ht Hs H.
  assert (forall q, status q = St.Voting \/ status q = St.Scheduled ->
    forall t, update_fast_track q t =
      (start ← expect (voting_start_time_ns q) unwrap_none;
       voting_end ← u64_add start (voting_duration_ns q);
       if voting_end <=? t then
         final_status ← compute_final_status q;
         mret (Proposal.with_status q
          (if negb (bool_decide (final_status = St.Succeeded)) then final_status
           else if has_actions q then St.Executable else St.Succeeded))
       else if start <=? t then mret (Proposal.with_status q St.Voting) else mret q)) as Heq.
  { intros q [E|E] t; unfold update_fast_track; by rewrite E. }
  rewrite (Heq p Hs) in H. rewrite (Heq p Hs t2).
  destruct (voting_start_time_ns p) as [start|] eqn:Est; [|discriminate]. cbn [expect mbind result_bind] in *.
  destruct (u64_add start (voting_duration_ns p)) as [ve|] eqn:Eve; [|discriminate]. cbn [mbind result_bind] in *.
  destruct (ve <=? t1) eqn:E1; bool_prop.
  - leb_decide. destruct (compute_final_status p) as [fs|] eqn:Ef; [|discriminate]. cbn [mbind result_bind] in *. res_inv.
    destruct (compute_final_cases _ _ Ef) as [-> | ->]; cbn [bool_decide decide negb]; cbn; [|done].
    by destruct (has_actions p).
  - destruct (start <=? t1) eqn:E2; bool_prop; res_inv.
    + rewrite (Heq (Proposal.with_status p St.Voting)) by (by left).
      cbn [voting_start_time_ns Proposal.with_status voting_duration_ns].
      rewrite Est; cbn [expect mbind result_bind]. rewrite Eve; cbn [mbind result_bind].
      rewrite compute_final_status_status. leb_decide. done.
    + rewrite (Heq p1 Hs), Est; cbn [expect mbind result_bind]. by rewrite Eve.
Qed.

(** Running the lazy update at [t1] and later at [t2] is running it at [t2]. *)
Lemma update_later p t1 t2 p1 : t1 <= t2 -> update p t1 = Ok p1 -> update p1 t2 = update p t2.
Proof.
  intros Ht H. destruct (update_shape p t1 p1 H) as [Hshape _].
  assert (flow p1 = flow p) as Hfl by (by rewrite Hshape).
  unfold update in *. rewrite Hfl. destruct (flow p) eqn:Ef.
  - destruct (status p) eqn:Es.
    all: try (apply update_classic_vote; auto; fail).
    all: try (eapply update_classic_vote; eauto; fail).
    all: unfold update_classic in H; rewrite Es in H; res_inv; try done.
    unfold update_classic. rewrite Es.
    destruct ((0 <? expiration_ns p) && (expiration_ns p <=? t1)) eqn:E; res_inv; [|by rewrite Es].
    bool_prop. cbn. by leb_decide.
  - destruct (status p) eqn:Es.
    all: try (eapply update_fast_vote; eauto; fail).
    all: unfold update_fast_track in H; rewrite Es in H; res_inv; try done.
    + unfold update_fast_track. rewrite Es.
      destruct ((0 <? expiration_ns p) && (expiration_ns p <=? t1)) eqn:E; res_inv; [|by rewrite Es].
      bool_prop. cbn. by leb_decide.
    + unfold update_fast_track. rewrite Es, E. cbn [expect mbind result_bind]. rewrite E0. cbn [mbind result_bind].
      destruct (_ <=? t1) eqn:E1; res_inv; bool_prop.
      * cbn. by leb_decide.
      * rewrite Es, E. cbn [expect mbind result_bind]. by rewrite E0.
Qed.

(** ** Next Monday *)

(** The days since the epoch, and the weekday, of a moment in CET; day 0 of
    the epoch was a Thursday, so Monday is 4. *)
Definition cet_day (ns : Z) : Z := (ns + CET_OFFSET_NS) / NS_PER_DAY.
Definition cet_midnight (ns : Z) : Prop := (ns + CET_OFFSET_NS) mod NS_PER_DAY = 0.

Lemma next_voting_start_monday t r : next_voting_start_ns false t = Ok r -> 0 <= t ->
  t < r <= t + 7 * NS_PER_DAY /\ cet_midnight r /\ cet_day r mod 7 = 4 /\
  forall s, t < s < r -> ~ (cet_midnight s /\ cet_day s mod 7 = 4).
Proof.
  unfold next_voting_start_ns, u64_add, u64_mul, u64_sub. intros H Ht. res_inv.
  set (d := (t + CET_OFFSET_NS) / NS_PER_DAY) in *.
  assert (0 < NS_PER_DAY) as Hday by done.
  pose proof (Z.div_mod (t + CET_OFFSET_NS) NS_PER_DAY ltac:(lia)) as Hdm. fold d in Hdm.
  pose proof (Z.mod_pos_bound (t + CET_OFFSET_NS) NS_PER_DAY Hday) as Hmb.
  pose proof (Z.mod_pos_bound d 7 ltac:(lia)) as Hw.
  set (n := (10 - d mod 7) mod 7 + 1) in *.
  pose proof (Z.mod_pos_bound (10 - d mod 7) 7 ltac:(lia)) as Hn.
  assert ((d + n) mod 7 = 4) as Hmon.
  { unfold n. pose proof (Z.div_mod d 7 ltac:(lia)) as Hd7.
    pose proof (Z.div_mod (10 - d mod 7) 7 ltac:(lia)) as Hd8.
    symmetry. apply (Z.mod_unique_pos _ 7 (d / 7 + 1 - (10 - d mod 7) / 7)); lia. }
  assert (forall s, cet_midnight s -> s = cet_day s * NS_PER_DAY - CET_OFFSET_NS) as Hmid.
  { intros s Hs. unfold cet_midnight, cet_day in *.
    pose proof (Z.div_mod (s + CET_OFFSET_NS) NS_PER_DAY ltac:(lia)). lia. }
  assert (cet_midnight ((d + n) * NS_PER_DAY - CET_OFFSET_NS)) as Hr.
  { unfold cet_midnight. rewrite Z.sub_add. apply Z.mod_mul. lia. }
  assert (cet_day ((d + n) * NS_PER_DAY - CET_OFFSET_NS) = d + n) as Hcd.
  { unfold cet_day. rewrite Z.sub_add. apply Z.div_mul. lia. }
  split_and!; [unfold n in *; lia | unfold n in *; nia | done | by rewrite Hcd |].
  intros s Hs [Hsm Hsw]. pose proof (Hmid s Hsm) as Hse.
  assert (d < cet_day s < d + n) as Hrange.
  { split.
    - destruct (Z.lt_ge_cases d (cet_day s)); [done|]. nia.
    - destruct (Z.lt_ge_cases (cet_day s) (d + n)); [done|]. nia. }
  pose proof (Z.div_mod (cet_day s) 7 ltac:(lia)). pose proof (Z.div_mod (d + n) 7 ltac:(lia)).
  unfold n in *. assert ((10 - d mod 7) mod 7 + 1 <= 7) by lia.
  nia.
Qed.

(** ** The final tally *)

(** The rule the configuration documents: quorum of the snapshot supply and
    of the floor, and a share of For among For and Against. *)
Definition passes (p : Proposal) : Prop :=
  exists s, snapshot_and_state p = Some s /\
    ss_total_venear s * quorum_threshold_bps p / 10000 <= total_venear (total_votes p) /\
    quorum_floor p <= total_venear (total_votes p) /\
    0 < vote_power p 0 + vote_power p 1 /\
    approval_threshold_bps p * (vote_power p 0 + vote_power p 1) <= vote_power p 0 * 10000.

Lemma compute_final_spec p s : bps_ok (quorum_threshold_bps p) -> compute_final_status p = Ok s ->
  (s = St.Succeeded /\ passes p) \/ (s = St.Defeated /\ ~ passes p).
Proof.
  intros Hq H. unfold compute_final_status, passes in *. destruct (snapshot_and_state p) as [sn|] eqn:Es.
  2:{ res_inv. right. split; [done|]. by intros (? & ? & _). }
  unfold u128_add, u128_mul in H. res_inv. apply bps_mul_inv in E; [|done]. subst.
  change Bps.MAX_RAW with 10000 in *.
  destruct (0 <? vote_power p 0 + vote_power p 1) eqn:Ed; bool_prop; res_inv.
  - destruct (Z.max _ _ <=? _) eqn:E1; bool_prop; cbn [andb].
    + destruct (_ <=? vote_power p 0 * 10000) eqn:E2; bool_prop.
      * left. split; [done|]. exists sn. split_and!; [done | lia..].
      * right. split; [done|]. intros (sn' & Hsn & _ & _ & _ & ?). lia.
    + right. split; [done|]. intros (sn' & [= <-] & ? & ? & _). lia.
  - rewrite andb_false_r. right. split; [done|]. intros (sn' & _ & _ & _ & ? & _). lia.
Qed.

Lemma compute_final_ok p : bps_ok (quorum_threshold_bps p) -> bps_ok (approval_threshold_bps p) ->
  0 <= vote_power p 0 -> 0 <= vote_power p 1 ->
  (vote_power p 0 + vote_power p 1) * 10000 <= U128_MAX ->
  (forall s, snapshot_and_state p = Some s -> 0 <= ss_total_venear s /\ ss_total_venear s * 10000 <= U128_MAX) ->
  is_ok (compute_final_status p) = true.
Proof.
  intros Hq Ha H0 H1 Hmax Hs. unfold compute_final_status. destruct (snapshot_and_state p) as [sn|]; [|done].
  destruct (Hs sn eq_refl) as [? ?]. rewrite bps_mul_ok by (done || unfold Bps.MAX_RAW; lia).
  cbn [mbind result_bind]. unfold u128_add, u128_mul.
  rewrite (checked_op_Ok _ (vote_power p 0 + vote_power p 1)) by lia. cbn [mbind result_bind].
  destruct (0 <? vote_power p 0 + vote_power p 1) eqn:E; [|by cbn]. unfold bps_ok, Bps.MAX_RAW in Ha.
  bool_prop. rewrite (checked_op_Ok _ (vote_power p 0 * 10000)) by lia. cbn [mbind result_bind].
  rewrite checked_op_Ok by nia. done.
Qed.
