(* ===== verification/VotingInvariant.v ===== *)
(** * The invariant of the voting contract

    [stored] reads a proposal as it is in storage. The invariant ties the two
    indexes of the contract to the stored statuses: the active set holds the
    proposals in an active status and the pending queue the queued ones. *)
From stdpp Require Import base gmap strings list.
From Stdlib Require Import ZArith Lia.
From S2P Require Import Prelude.
From S2P Require Import Near.
From S2P Require Import Common.
From S2P Require Import CommonFacts.
From S2P Require Import MerkleTree.
From S2P Require Import VotingTypes.
From S2P Require Import VotingContract.
From S2P Require Import VotingFacts.

Local Open Scope Z_scope.

Lemma vec_get_Some {A} (l : list A) i x : vec_get l i = Some x <-> 0 <= i /\ l !! Z.to_nat i = Some x.
Proof. unfold vec_get. destruct (0 <=? i) eqn:E; bool_prop; naive_solver lia. Qed.

Lemma vec_set_inv {A} (l l' : list A) i x : vec_set l i x = Ok l' ->
  length l' = length l /\ is_Some (vec_get l i) /\
  forall j, vec_get l' j = if decide (j = i) then Some x else vec_get l j.
Proof.
  unfold vec_set. destruct (vec_get l i) as [y|] eqn:E; [|discriminate]. intros H. res_inv.
  apply vec_get_Some in E as [Hi Hl]. split_and!; [apply length_insert | eauto |].
  intros j. unfold vec_get. destruct (0 <=? j) eqn:Ej; bool_prop.
  - case_decide as Hd.
    + subst. apply list_lookup_insert_eq. by apply lookup_lt_Some in Hl.
    + rewrite list_lookup_insert_ne; [done | lia].
  - case_decide; [lia | done].
Qed.

(** Status and flow fit together, votes have three counters, a bond is held
    only by a FastTrack proposal that a reviewer has not decided on. *)
Record proposal_ok (p : Proposal) : Prop := mkPOk {
  po_classic : flow p = Classic -> status p <> St.Sandbox /\ status p <> St.Scheduled /\ status p <> St.Slashed;
  po_fast : flow p = FastTrack -> status p <> St.Timelock;
  po_legacy : status p <> St.ApprovalLegacy /\ status p <> St.FinishLegacy;
  po_votes : length (votes p) = 3%nat;
  po_start : (flow p = Classic -> is_active_status (status p) = true -> is_Some (voting_start_time_ns p)) /\
             (flow p = FastTrack -> is_active_status (status p) = true -> is_Some (sandbox_start_time_ns p)) /\
             (status p = St.Voting \/ status p = St.Scheduled -> is_Some (voting_start_time_ns p));
  po_executable : status p = St.Executable -> has_actions p = true;
  po_bond : 0 <= bond_amount p;
  po_bond_held : 0 < bond_amount p -> flow p = FastTrack /\
    (status p = St.Created \/ status p = St.Expired \/ status p = St.Rejected);
  po_unstarted : status p = St.Created \/ status p = St.Queued \/ status p = St.Sandbox -> voting_start_time_ns p = None;
  po_bps : bps_ok (quorum_threshold_bps p) /\ bps_ok (approval_threshold_bps p) /\ bps_ok (sandbox_threshold_bps p)
}.

Lemma with_status_ok p s : proposal_ok p ->
  (flow p = Classic -> s <> St.Sandbox /\ s <> St.Scheduled /\ s <> St.Slashed) ->
  (flow p = FastTrack -> s <> St.Timelock) ->
  s <> St.ApprovalLegacy -> s <> St.FinishLegacy ->
  (is_active_status s = true -> is_active_status (status p) = true) ->
  (s = St.Voting \/ s = St.Scheduled -> status p = St.Voting \/ status p = St.Scheduled) ->
  (s = St.Executable -> has_actions p = true) ->
  (0 < bond_amount p -> s = St.Created \/ s = St.Expired \/ s = St.Rejected) ->
  (s = St.Created \/ s = St.Queued \/ s = St.Sandbox ->
   status p = St.Created \/ status p = St.Queued \/ status p = St.Sandbox) ->
  proposal_ok (Proposal.with_status p s).
Proof.
  intros [H1 H2 H3 H4 (H5 & H6 & H7) H8 H9 H10 H11 H12] A1 A2 A3 A4 A5 A6 A7 A8 A9.
  split; cbn; try done; [split_and!; auto | intros Hb; split; [by apply H10 | auto] | auto].
Qed.

Lemma proposal_update_ok p t p' : proposal_ok p -> update p t = Ok p' -> proposal_ok p' /\ id p' = id p /\ flow p' = flow p.
Proof.
  intros Hok H. destruct (update_shape p t p' H) as [Hs _]. pose proof (update_edge p t p' H) as He.
  unfold updated_status in Hs. remember (status p') as s eqn:Es. rewrite Hs. clear Hs Es H.
  split; [|done]. pose proof Hok as [H1 H2 H3 H4 H5 H6 H7 H8 H9 H10].
  apply with_status_ok; [done|..]; destruct (flow p) eqn:Ef, (status p) eqn:Ep, s; cbn in He;
    try discriminate He; naive_solver congruence.
Qed.

Section inv.
Context `{IS : IterableSet} `{HC : Crypto} `{HB : Borsh VAccount} `{VT : !VotingHost} `{!IterableSetLaws IS}.

Definition stored (c : Voting) (pid : ProposalId) : option Proposal :=
match vec_get (proposals c) pid with Some (Current p) => Some p | _ => None end.

(** The invariant at the granularity of one proposal. *)
Record VInv (c : Voting) : Prop := mkVInv {
vi_current : forall pid v, vec_get (proposals c) pid = Some v -> exists p, v = Current p /\ id p = pid /\ proposal_ok p;
vi_active : forall pid, pid ∈ is_iter (active_proposals c) <->
exists p, stored c pid = Some p /\ is_active_status (status p) = true;
vi_pending : forall pid, pid ∈ pending_queue c <-> exists p, stored c pid = Some p /\ status p = St.Queued;
vi_pending_nodup : NoDup (pending_queue c);
vi_metadata : length (proposal_metadata c) = length (proposals c)
}.

Lemma stored_ok c pid p : VInv c -> stored c pid = Some p -> id p = pid /\ proposal_ok p.
Proof.
intros HI H. unfold stored in H. destruct (vec_get (proposals c) pid) as [v|] eqn:E; [|discriminate].
destruct (vi_current c HI pid v E) as (q & -> & ? & ?). by injection H as <-.
Qed.

(** ** Writing a proposal *)
Lemma set_proposal_inv c p c' : internal_set_proposal_in c p = Ok c' ->
(forall pid, stored c' pid = if decide (pid = id p) then Some p else stored c pid) /\
(forall pid, pid ∈ is_iter (active_proposals c') <->
if decide (pid = id p) then is_active_status (status p) = true else pid ∈ is_iter (active_proposals c)) /\
(exists v, vec_get (proposals c) (id p) = Some v) /\
(forall pid, vec_get (proposals c') pid = if decide (pid = id p) then Some (Current p) else vec_get (proposals c) pid) /\
length (proposals c') = length (proposals c) /\
v_config c' = v_config c /\ proposal_metadata c' = proposal_metadata c /\
vote_records c' = vote_records c /\ v_paused c' = v_paused c /\ pending_queue c' = pending_queue c.
Proof.
unfold internal_set_proposal_in. intros H. res_inv. apply vec_set_inv in E as (Hl & [v0 Hv] & Hget).
split_and!; try done.
- intros pid. unfold stored. cbn. rewrite Hget. by case_decide.
- intros pid. cbn [with_proposals active_proposals]. unfold is_contains.
destruct (bool_decide (id p ∈ is_iter (active_proposals c))) eqn:E1; bool_prop;
destruct (is_active_status (status p)) eqn:E2; cbn [negb andb].
+ case_decide; [subst; naive_solver | done].
+ rewrite is_remove_elem. case_decide; naive_solver.
+ rewrite is_insert_elem. case_decide; naive_solver.
+ case_decide; [subst; naive_solver | done].
- eauto.
Qed.
End inv.
