(* ===== verification/VotingQueue.v ===== *)
(** * The scheduler queue of the voting contract (queue.rs)

    What [internal_advance_queue] does: it brings the active proposals up to
    date, frees the slots of those that left, and promotes queued proposals in
    the order of approval until the slots are full or the queue is empty. *)
From stdpp Require Import base gmap strings list.
From Stdlib Require Import ZArith Lia.
From S2P Require Import Prelude.
From S2P Require Import Near.
From S2P Require Import Common.
From S2P Require Import CommonFacts.
From S2P Require Import MerkleTree.
From S2P Require Import VotingTypes.
From S2P Require Import VotingContract.
From S2P Require Import VotingFacts.
From S2P Require Import VotingInvariant.

Local Open Scope Z_scope.

Lemma NoDup_map_filter {A B} (f : A -> B) (Q : A -> Prop) `{!forall x, Decision (Q x)} l :
  NoDup (map f l) -> NoDup (map f (filter Q l)).
Proof.
  induction l as [|x l IH]; [done|]. cbn [map]. intros [Hx Hl]%NoDup_cons. rewrite filter_cons.
  case_decide; [|auto]. cbn [map]. constructor; [|auto].
  intros (y & Hxy & [_ Hy]%list_elem_of_filter)%list_elem_of_fmap. apply Hx. rewrite Hxy.
  by apply list_elem_of_fmap_2.
Qed.

Section queue.
Context `{IS : IterableSet} `{HC : Crypto} `{HB : Borsh VAccount} `{VT : !VotingHost} `{!IterableSetLaws IS}.

(** ** Reading up-to-date proposals *)
Definition fresh (now : Z) (c : Voting) (pid : ProposalId) : option Proposal :=
match stored c pid with
| Some p => match update p now with Ok p' => Some p' | Panic _ => None end
| None => None
end.

Definition fresh_active (now : Z) (c : Voting) (pid : ProposalId) : bool :=
match fresh now c pid with Some p => is_active_status (status p) | None => false end.

(** The up-to-date proposal when its status differs from the stored one. *)
Definition changed (now : Z) (c : Voting) (pid : ProposalId) : option Proposal :=
match stored c pid, fresh now c pid with
| Some p, Some p' => if bool_decide (status p' = status p) then None else Some p'
| _, _ => None
end.

Lemma get_proposal_inv now c pid o : VInv c -> internal_get_proposal now c pid = Ok o ->
match o with
| Some (p', ch) => exists p, stored c pid = Some p /\ update p now = Ok p' /\
           ch = negb (bool_decide (status p' = status p))
| None => stored c pid = None
end.
Proof.
intros HI H. unfold internal_get_proposal in H. unfold stored.
destruct (vec_get (proposals c) pid) as [v|] eqn:E.
- destruct (vi_current c HI pid v E) as (p & -> & _ & _). cbn in H. res_inv. eauto.
- by res_inv.
Qed.

Lemma expect_proposal_inv now c pid p' : VInv c -> expect_proposal_updated_at now c pid = Ok p' ->
exists p, stored c pid = Some p /\ update p now = Ok p'.
Proof.
intros HI H. unfold expect_proposal_updated_at in H. res_inv. subst.
apply get_proposal_inv in E; [|done]. destruct v0 as [q ch]. destruct E as (p & ? & ? & _). eauto.
Qed.

(** A proposal that leaves the active statuses frees its slot in the past. *)
Lemma classic_end q now p t : status q = St.Voting \/ status q = St.Timelock -> flow q = Classic ->
update_classic q now = Ok p -> is_active_status (status p) = false -> active_end_time_ns q = Ok t -> t <= now.
Proof.
intros Hs Hf Hu Hi Ht. unfold active_end_time_ns in Ht. rewrite Hf in Ht.
assert (is_active_status (status q) = true) as Ha by (by destruct Hs as [-> | ->]).
assert (exists start, voting_start_time_ns q = Some start /\ start + voting_duration_ns q <= now /\
forall f, compute_final_status q = Ok f -> f = St.Succeeded ->
start + voting_duration_ns q + timelock_duration_ns q <= now) as (start & E1 & E2 & E3).
{ clear Ht. unfold update_classic in Hu. destruct Hs as [Es|Es]; rewrite Es in Hu; unfold u64_add in Hu; res_inv;
(destruct (_ <=? now) eqn:El in Hu; res_inv; [|congruence]); bool_prop; exists v; (split; [done|]; split; [done|]);
intros f' Hf' ->; replace v0 with St.Succeeded in Hi by congruence; cbn in Hi;
destruct (now <? _) eqn:El2 in Hi; bool_prop; first [discriminate Hi | lia]. }
rewrite E1 in Ht. unfold u64_add in Ht. cbn in Ht. res_inv.
destruct (bool_decide _) eqn:Eb in Ht; bool_prop; res_inv; [by eapply E3 | done].
Qed.

Lemma fast_end q now p t : proposal_ok q -> flow q = FastTrack -> is_active_status (status q) = true ->
update_fast_track q now = Ok p -> is_active_status (status p) = false -> active_end_time_ns q = Ok t -> t <= now.
Proof.
intros Hok Hf Ha Hu Hi Ht. unfold active_end_time_ns in Ht. rewrite Hf in Ht.
pose proof (po_unstarted q Hok) as Hun. pose proof (po_fast q Hok Hf) as Hnt.
unfold update_fast_track in Hu. destruct (status q) eqn:Es; try done; unfold u64_add in *; res_inv;
(destruct (_ <=? now) eqn:El in Hu; res_inv; bool_prop).
all: try (rewrite Hun in Ht by auto); repeat match goal with H : voting_start_time_ns _ = _ |- _ => rewrite H in Ht
| H : sandbox_start_time_ns _ = _ |- _ => rewrite H in Ht end; cbn in Ht; res_inv; try lia; exfalso.
all: try (rewrite Es in Hi; discriminate Hi).
all: destruct (_ <=? now) in Hu; res_inv; cbn in Hi; rewrite ?Es in Hi; discriminate Hi.
Qed.

Lemma end_time_le q now p t : proposal_ok q -> is_active_status (status q) = true -> update q now = Ok p ->
is_active_status (status p) = false -> active_end_time_ns p = Ok t -> t <= now.
Proof.
intros Hok Ha Hu Hi Ht. destruct (update_shape _ _ _ Hu) as [Hs _]. unfold updated_status in Hs.
rewrite Hs in Ht. change (active_end_time_ns q = Ok t) in Ht. unfold update in Hu. destruct (flow q) eqn:Ef.
- eapply classic_end; eauto. pose proof (po_classic q Hok Ef). destruct (status q); try done; naive_solver.
- by eapply fast_end.
Qed.

Lemma insert_time_Forall (Q : Z -> Prop) x l : Q x -> Forall Q l -> Forall Q (insert_time x l).
Proof.
intros Hx. induction 1 as [|t l Ht Hl IH]; cbn; [by repeat constructor|]. destruct (x <=? t); by repeat constructor.
Qed.

(** ** The first loop *)
Lemma scan_active_inv now c ids count freed updates r : VInv c ->
scan_active now c ids count freed updates = Ok r ->
let '(count', freed', updates') := r in
count' = count + Z.of_nat (length (filter (fun pid => fresh_active now c pid = true) ids)) /\
updates' = updates ++ omap (changed now c) ids /\
Forall (fun pid => is_Some (fresh now c pid)) ids /\
((forall pid, pid ∈ ids -> pid ∈ is_iter (active_proposals c)) -> Forall (fun t => t <= now) freed ->
Forall (fun t => t <= now) freed').
Proof.
intros HI. revert count freed updates. induction ids as [|pid ids IH]; intros count freed updates H; cbn in H.
{ res_inv. split_and!; [cbn; lia | by rewrite app_nil_r | constructor | done]. }
res_inv. subst. rename x into p, y into updated. apply get_proposal_inv in E; [|done].
destruct E as (q & Hq & Hu & ->).
assert (fresh now c pid = Some p) as Hf by (unfold fresh; by rewrite Hq, Hu).
assert (fresh_active now c pid = is_active_status (status p)) as Ha by (unfold fresh_active; by rewrite Hf).
assert (changed now c pid = if bool_decide (status p = status q) then None else Some p) as Hc
by (unfold changed; by rewrite Hq, Hf).
assert (forall count1 r1, count1 + Z.of_nat (length (filter (fun x => fresh_active now c x = true) ids)) = r1 ->
count1 = (if is_active_status (status p) then count + 1 else count) ->
r1 = count + Z.of_nat (length (filter (fun x => fresh_active now c x = true) (pid :: ids)))) as Hcount.
{ intros count1 r1 <- ->. rewrite filter_cons. rewrite Ha. destruct (is_active_status (status p)).
- rewrite decide_True by done. cbn. lia.
- rewrite decide_False by done. lia. }
match goal with H : (if is_active_status _ then u32_add count 1 else _) = Ok ?x |- _ => rename x into v' end.
assert (v' = if is_active_status (status p) then count + 1 else count) as Hv.
{ destruct (is_active_status (status p)); unfold u32_add in *; by res_inv. }
cbn [omap list_omap]. rewrite Hc. destruct (bool_decide (status p = status q)); cbn [negb] in H.
- apply IH in H. destruct r as [[c' f'] u']. destruct H as (H1 & -> & H3 & H4).
split_and!; [by eapply Hcount | done | by constructor |]. intros Hin. apply H4. set_solver.
- res_inv. apply IH in H. destruct r as [[c' f'] u']. destruct H as (H1 & -> & H3 & H4).
split_and!; [by eapply Hcount | by rewrite <- app_assoc | by constructor |].
intros Hin Hfr. apply H4; [set_solver|]. destruct (is_active_status (status p)) eqn:Eact; res_inv; [done|].
apply insert_time_Forall; [|done].
destruct (proj1 (vi_active c HI pid) (Hin pid ltac:(left))) as (q' & Hq' & Hact). replace q' with q in * by congruence.
eapply (end_time_le q now p); [by apply (stored_ok c pid q) | done | done | done | done].
Qed.

(** ** The second loop *)
Lemma activate_ok p start : proposal_ok p -> bond_amount p = 0 -> status p = St.Created \/ status p = St.Queued ->
proposal_ok (activate p start).
Proof.
intros [H1 H2 H3 H4 H5 H6 H7 H8 H9 H10] Hb Hst. unfold activate.
destruct (flow p) eqn:Ef; split; cbn; rewrite ?Ef; try done.
- lia.
- by intros [|[|]].
- split_and!; [done | eauto |]. by intros [|].
- lia.
- intros _. apply H9. tauto.
Qed.

Lemma activate_queued q start : proposal_ok q -> status q = St.Queued ->
proposal_ok (activate q start) /\ is_active_status (status (activate q start)) = true.
Proof.
intros Hok Hs. split; [|unfold activate; by destruct (flow q)]. apply activate_ok; [done | | by right].
pose proof (po_bond q Hok). destruct (Z.lt_ge_cases 0 (bond_amount q)) as [Hlt|]; [|lia].
destruct (po_bond_held q Hok Hlt) as [_ [|[|]]]; congruence.
Qed.

Definition promoted (now : Z) (c : Voting) (p' : Proposal) : Prop :=
exists p start, stored c (id p') = Some p /\ status p = St.Queued /\ start <= now /\
update (activate p start) now = Ok p'.

Definition active_count (ps : list Proposal) : Z :=
Z.of_nat (length (filter (fun p => is_active_status (status p) = true) ps)).

Lemma activate_id p start : id (activate p start) = id p.
Proof. unfold activate. by destruct (flow p). Qed.

Lemma scan_pending_inv now c ids count freed promotions r : VInv c ->
(forall pid, pid ∈ ids -> pid ∈ pending_queue c) -> Forall (fun t => t <= now) freed ->
scan_pending now c ids count freed promotions = Ok r ->
let max := VConfig.max_active_proposals (v_config c) in
exists P, r = promotions ++ P /\ map id P = take (length P) ids /\ Forall (promoted now c) P /\
((length P < length ids)%nat -> max <= count + active_count P) /\
count + active_count P <= Z.max count max.
Proof.
intros HI. revert count freed promotions. induction ids as [|pid ids IH]; intros count freed promotions Hin Hfr H max; cbn in H.
{ res_inv. exists []. rewrite app_nil_r. split_and!; [done | done | apply Forall_nil_2 | intros; cbn in *; lia | unfold active_count; cbn; lia]. }
destruct (_ <=? count) eqn:Emax; bool_prop.
{ res_inv. exists []. rewrite app_nil_r. split_and!; [done | done | apply Forall_nil_2 | intros; unfold active_count; cbn; lia | unfold active_count; cbn; lia]. }
fold max in Emax. set (sf := match freed with [] => (now, []) | t :: f => (t, f) end) in H.
assert (fst sf <= now /\ Forall (fun t => t <= now) (snd sf)) as [Hstart Hfr1]
by (unfold sf; destruct Hfr; cbn; [split; [lia | constructor] | done]).
clearbody sf. destruct sf as [start freed1]. cbn [fst snd] in *. res_inv.
apply expect_proposal_inv in E as (q & Hq & Hu); [|done].
destruct (proj1 (vi_pending c HI pid) (Hin pid ltac:(left))) as (q' & Hq' & Hqs).
replace q' with q in * by congruence. rewrite update_settled in Hu by (by rewrite Hqs). injection Hu as <-.
match goal with H : update (activate q start) now = Ok ?x |- _ => rename x into p'; rename H into Hup end.
destruct (activate_queued q start (proj2 (stored_ok c pid q HI Hq)) Hqs) as [Hokq Hactq].
assert (promoted now c p') as Hp.
{ exists q, start. destruct (update_shape _ _ _ Hup) as [Hsh _]. destruct (stored_ok c pid q HI Hq) as [Hid _].
assert (id p' = id q) as -> by (rewrite Hsh; cbn; apply activate_id). rewrite Hid. done. }
assert (id p' = pid) as Hid.
{ destruct (update_shape _ _ _ Hup) as [Hsh _]. rewrite Hsh. cbn. rewrite activate_id.
by destruct (stored_ok c pid q HI Hq). }
assert (forall P, active_count (p' :: P) = (if is_active_status (status p') then 1 else 0) + active_count P) as Hac.
{ intros P. unfold active_count. rewrite filter_cons. destruct (is_active_status (status p')).
- rewrite decide_True by done. cbn. lia.
- rewrite decide_False by done. lia. }
destruct (is_active_status (status p')) eqn:Ea; unfold u32_add in H; res_inv.
all: apply IH in H as (P & -> & Hids & HP & Hfull & Hle); [|intros x Hx; apply Hin; by right|].
all: try (first [exact Hfr1 | apply insert_time_Forall; [eapply (end_time_le (activate q start)); done | exact Hfr1]]).
all: exists (p' :: P); rewrite <- app_assoc; rewrite Hac; fold max in Hfull, Hle; cbn [map length take];
split_and!; [done | by rewrite Hids, Hid | by constructor | cbn; intros; lia | lia].
Qed.

(** ** Writing the outcome *)
Fixpoint pick (ps : list Proposal) (pid : ProposalId) : option Proposal :=
match ps with
| [] => None
| p :: ps' => match pick ps' pid with
    | Some q => Some q
    | None => if decide (pid = id p) then Some p else None
    end
end.

Lemma pick_Some ps pid p : pick ps pid = Some p -> p ∈ ps /\ id p = pid.
Proof.
induction ps as [|q ps IH]; [done|]. cbn. destruct (pick ps pid) as [q'|].
- intros [= ->]. destruct (IH eq_refl). split; [by right | done].
- case_decide; [|done]. intros [= ->]. split; [left | done].
Qed.

Lemma pick_None ps pid : pick ps pid = None -> pid ∉ map id ps.
Proof.
induction ps as [|q ps IH]; cbn; [intros _; apply not_elem_of_nil|]. destruct (pick ps pid); [done|].
case_decide; [done|]. intros _. rewrite not_elem_of_cons. auto.
Qed.

Lemma set_all_inv ps c c' : set_all ps c = Ok c' ->
(forall pid, stored c' pid = match pick ps pid with Some p => Some p | None => stored c pid end) /\
(forall pid, pid ∈ is_iter (active_proposals c') <->
match pick ps pid with
| Some p => is_active_status (status p) = true
| None => pid ∈ is_iter (active_proposals c)
end) /\
(forall pid, vec_get (proposals c') pid =
match pick ps pid with Some p => Some (Current p) | None => vec_get (proposals c) pid end) /\
length (proposals c') = length (proposals c) /\
v_config c' = v_config c /\ proposal_metadata c' = proposal_metadata c /\
vote_records c' = vote_records c /\ v_paused c' = v_paused c /\ pending_queue c' = pending_queue c.
Proof.
revert c. induction ps as [|p ps IH]; intros c H; cbn [set_all] in H; [by res_inv|].
res_inv. apply IH in H as (H1 & H2 & H3 & H4 & H5 & H6 & H7 & H8 & H9).
apply set_proposal_inv in E as (G1 & G2 & _ & G3 & G4 & G5 & G6 & G7 & G8 & G9).
split_and!; try congruence; intros pid; cbn [pick].
- rewrite H1, G1. destruct (pick ps pid); [done|]. by case_decide.
- rewrite H2. destruct (pick ps pid); [done|]. rewrite G2. by case_decide.
- rewrite H3, G3. destruct (pick ps pid); [done|]. by case_decide.
Qed.

(** ** Advancing the queue *)
Lemma promoted_ok now c p : VInv c -> promoted now c p ->
proposal_ok p /\ status p <> St.Queued /\ (forall t, is_active_status (status p) = true ->
t = now -> update p t = Ok p) /\ exists q, stored c (id p) = Some q /\ status q = St.Queued.
Proof.
intros HI (q & start & Hq & Hs & _ & Hu). destruct (stored_ok c _ q HI Hq) as [Hid Hok].
destruct (activate_queued q start Hok Hs) as [Hok' _]. destruct (proposal_update_ok _ _ _ Hok' Hu) as [Hokp _].
split_and!; [done | | | eauto].
- destruct (update_shape _ _ _ Hu) as [_ He]. intros Heq. rewrite Heq in He. unfold activate in He.
by destruct (flow q).
- intros t _ ->. by rewrite (update_later _ now now _ ltac:(lia) Hu).
Qed.

Lemma fresh_inv now c pid p : VInv c -> fresh now c pid = Some p ->
exists q, stored c pid = Some q /\ update q now = Ok p /\ id p = pid /\ proposal_ok p /\
time_edge (status q) (status p) = true /\ update p now = Ok p /\
(status p = status q -> p = q).
Proof.
intros HI H. unfold fresh in H. destruct (stored c pid) as [q|] eqn:Eq; [|discriminate].
destruct (update q now) as [p'|] eqn:Eu; [|discriminate]. injection H as ->.
destruct (stored_ok c pid q HI Eq) as [Hid Hok]. destruct (proposal_update_ok q now p Hok Eu) as (Hokp & Hidp & _).
destruct (update_shape q now p Eu) as [Hsh He]. exists q. split_and!; try done; try congruence.
- by rewrite (update_later q now now p ltac:(lia) Eu).
- intros Hs. rewrite Hsh, Hs. apply with_status_same.
Qed.

(** The proposals an advance writes for the active set. *)
Lemma pick_changed now c ids pid : VInv c -> Forall (fun x => is_Some (fresh now c x)) ids -> pid ∈ ids ->
match pick (omap (changed now c) ids) pid with Some p => Some p | None => stored c pid end = fresh now c pid.
Proof.
intros HI Hall Hin. rewrite Forall_forall in Hall. destruct (Hall pid Hin) as [p Hp].
destruct (fresh_inv now c pid p HI Hp) as (q & Hq & _ & Hid & _ & _ & _ & Hsame).
destruct (pick _ pid) as [r|] eqn:Er.
- apply pick_Some in Er as [Hr Hrid]. apply list_elem_of_omap in Hr as (x & Hx & Hc).
assert (fresh now c x = Some r /\ x = id r) as [Hf ->].
{ unfold changed in Hc. destruct (stored c x); [|discriminate]. destruct (fresh now c x) as [r'|] eqn:Ef; [|discriminate].
destruct (bool_decide _); [discriminate|]. injection Hc as <-. split; [done|].
by destruct (fresh_inv now c x r' HI Ef) as (? & _ & _ & <- & _). }
congruence.
- apply pick_None in Er. rewrite Hq, Hp. f_equal. symmetry. apply Hsame.
destruct (decide (status p = status q)) as [|Hne]; [done|]. exfalso. apply Er.
rewrite <- Hid. apply (list_elem_of_fmap_2 id), list_elem_of_omap. exists pid. split; [done|].
unfold changed. rewrite Hq, Hp. by rewrite bool_decide_eq_false_2.
Qed.

Lemma pick_changed_out now c ids pid : VInv c -> pid ∉ ids -> pick (omap (changed now c) ids) pid = None.
Proof.
intros HI Hout. destruct (pick _ pid) as [r|] eqn:Er; [|done]. exfalso.
apply pick_Some in Er as [Hr Hrid]. apply list_elem_of_omap in Hr as (x & Hx & Hc).
unfold changed in Hc. destruct (stored c x); [|discriminate]. destruct (fresh now c x) as [r'|] eqn:Ef; [|discriminate].
destruct (bool_decide _); [discriminate|]. injection Hc as <-.
destruct (fresh_inv now c x r' HI Ef) as (? & _ & _ & Hid & _). congruence.
Qed.

(** What advancing the queue at [now] does to the contract; [P] are the
promoted proposals. *)
Record advanced (now : Z) (c c' : Voting) (P : list Proposal) : Prop := mkAdvanced {
adv_promoted : Forall (promoted now c) P;
adv_ids : map id P = take (length P) (pending_queue c);
adv_pending : pending_queue c' = drop (length P) (pending_queue c);
adv_active : forall pid, pid ∈ is_iter (active_proposals c) ->
exists p, fresh now c pid = Some p /\ stored c' pid = Some p;
adv_new : forall p, p ∈ P -> stored c' (id p) = Some p;
adv_other : forall pid, pid ∉ is_iter (active_proposals c) -> pid ∉ map id P ->
stored c' pid = stored c pid;
adv_set : is_iter (active_proposals c') ≡ₚ
filter (fun pid => fresh_active now c pid = true) (is_iter (active_proposals c))
++ map id (filter (fun p => is_active_status (status p) = true) P);
adv_full : pending_queue c' <> [] ->
VConfig.max_active_proposals (v_config c) <= is_len (active_proposals c');
adv_bound : is_len (active_proposals c') <=
Z.max (is_len (active_proposals c)) (VConfig.max_active_proposals (v_config c));
adv_frame : v_config c' = v_config c /\ proposal_metadata c' = proposal_metadata c /\
vote_records c' = vote_records c /\ v_paused c' = v_paused c /\
length (proposals c') = length (proposals c);
adv_current : forall pid v, vec_get (proposals c') pid = Some v -> exists p, v = Current p
}.

Lemma pending_not_active c pid : VInv c -> pid ∈ pending_queue c -> pid ∉ is_iter (active_proposals c).
Proof.
intros HI (p & Hp & Hs)%(vi_pending c HI) (q & Hq & Ha)%(vi_active c HI).
replace q with p in * by congruence. by rewrite Hs in Ha.
Qed.

Lemma pick_nodup ps p : NoDup (map id ps) -> p ∈ ps -> pick ps (id p) = Some p.
Proof.
intros Hnd Hin. destruct (pick ps (id p)) as [q|] eqn:E.
- apply pick_Some in E as [Hq Hid]. f_equal. revert Hnd Hin Hq. clear -Hid.
induction ps as [|r ps IH]; [by intros ? ?%elem_of_nil|]. cbn. intros [Hr Hnd]%NoDup_cons.
intros [->|Hp]%elem_of_cons [->|Hq]%elem_of_cons; [done | | | by apply IH].
+ exfalso. apply Hr. rewrite <- Hid. by apply (list_elem_of_fmap_2 id).
+ exfalso. apply Hr. rewrite Hid. by apply (list_elem_of_fmap_2 id).
- apply pick_None in E. exfalso. apply E. by apply (list_elem_of_fmap_2 id).
Qed.

Lemma compute_inv now c U P : VInv c -> compute_queue_advance now c = Ok (U, P) ->
let n := Z.of_nat (length (filter (fun pid => fresh_active now c pid = true) (is_iter (active_proposals c)))) in
let max := VConfig.max_active_proposals (v_config c) in
U = omap (changed now c) (is_iter (active_proposals c)) /\
Forall (fun pid => is_Some (fresh now c pid)) (is_iter (active_proposals c)) /\
map id P = take (length P) (pending_queue c) /\ Forall (promoted now c) P /\
((length P < length (pending_queue c))%nat -> max <= n + active_count P) /\
n + active_count P <= Z.max n max.
Proof.
intros HI H. unfold compute_queue_advance in H. res_inv.
match goal with H : scan_active _ _ _ _ _ _ = _ |- _ => apply scan_active_inv in H as (-> & -> & Hall & Hfr); [|done] end.
match goal with H : scan_pending _ _ _ _ _ _ = _ |- _ =>
apply scan_pending_inv in H as (P' & -> & Hids & HP & Hfull & Hle); [|done|done|by apply Hfr] end.
rewrite Z.add_0_l in *. split_and!; done.
Qed.

Lemma advance_stored now c c' U P : VInv c -> compute_queue_advance now c = Ok (U, P) ->
advance_queue_at now c = Ok c' ->
(forall pid, pid ∈ is_iter (active_proposals c) -> exists p, fresh now c pid = Some p /\ stored c' pid = Some p) /\
(forall p, p ∈ P -> stored c' (id p) = Some p) /\
(forall pid, pid ∉ is_iter (active_proposals c) -> pid ∉ map id P -> stored c' pid = stored c pid) /\
(forall pid, pid ∈ is_iter (active_proposals c') <->
(pid ∈ is_iter (active_proposals c) /\ fresh_active now c pid = true) \/
exists p, p ∈ P /\ id p = pid /\ is_active_status (status p) = true) /\
pending_queue c' = drop (length P) (pending_queue c) /\
v_config c' = v_config c /\ proposal_metadata c' = proposal_metadata c /\
vote_records c' = vote_records c /\ v_paused c' = v_paused c /\
length (proposals c') = length (proposals c) /\
(forall pid v, vec_get (proposals c') pid = Some v -> exists p, v = Current p).
Proof.
intros HI Hc H. unfold advance_queue_at in H. rewrite Hc in H. cbn [mbind result_bind] in H. res_inv.
destruct (compute_inv now c U P HI Hc) as (HU & Hall & Hids & HP & _).
apply set_all_inv in E as (G1 & G2 & G3 & G4 & G5 & G6 & G7 & G8 & G9).
apply set_all_inv in H as (H1 & H2 & H3 & H4 & H5 & H6 & H7 & H8 & H9). cbn in G1, G2, G3, G4, G5, G6, G7, G8, G9.
pose proof (vi_pending_nodup c HI) as Hndp. rewrite <- (take_drop (length P) (pending_queue c)) in Hndp.
apply NoDup_app in Hndp as (Hnd & _ & _). rewrite <- Hids in Hnd.
assert (forall pid, pid ∈ map id P -> pid ∉ is_iter (active_proposals c)) as Hdisj.
{ intros pid Hpid. rewrite Hids in Hpid. apply elem_of_take in Hpid as (i & Hi & _).
apply (pending_not_active c pid HI). by eapply list_elem_of_lookup_2. }
change (stored (with_pending c (drop (length P) (pending_queue c)))) with (stored c) in G1.
split_and!; try congruence.
- intros pid Hpid. rewrite H1, G1. rewrite Forall_forall in Hall. destruct (Hall pid Hpid) as [p Hp].
exists p. split; [done|]. rewrite <- Hp, <- (pick_changed now c (is_iter (active_proposals c)) pid HI) by (by apply Forall_forall || done).
rewrite <- HU. destruct (pick U pid); [done|]. destruct (pick P pid) as [q|] eqn:Eq; [|done].
apply pick_Some in Eq as [Hq Hid]. exfalso. apply (Hdisj pid); [|done]. rewrite <- Hid. by apply (list_elem_of_fmap_2 id).
- intros p Hp. rewrite H1, G1, HU. rewrite pick_changed_out; [|done|by apply Hdisj, (list_elem_of_fmap_2 id)].
by rewrite pick_nodup.
- intros pid Hpid HpidP. rewrite H1, G1, HU, pick_changed_out by done.
destruct (pick P pid) as [q|] eqn:Eq; [|done]. apply pick_Some in Eq as [Hq Hid]. exfalso. apply HpidP.
rewrite <- Hid. by apply (list_elem_of_fmap_2 id).
- intros pid. rewrite H2. destruct (decide (pid ∈ is_iter (active_proposals c))) as [Hin|Hout].
+ rewrite Forall_forall in Hall. destruct (Hall pid Hin) as [p Hp].
pose proof (pick_changed now c (is_iter (active_proposals c)) pid HI ltac:(by apply Forall_forall) Hin) as Hpc.
rewrite <- HU, Hp in Hpc. unfold fresh_active. rewrite Hp.
assert (~ exists q, q ∈ P /\ id q = pid /\ is_active_status (status q) = true) as Hno.
{ intros (q & Hq & Hid & _). apply (Hdisj pid); [|done]. rewrite <- Hid. by apply (list_elem_of_fmap_2 id). }
destruct (pick U pid) as [r|]; [injection Hpc as ->; tauto|].
rewrite G2. destruct (pick P pid) as [q|] eqn:Eq.
{ apply pick_Some in Eq as [Hq Hid]. exfalso. apply (Hdisj pid); [|done]. rewrite <- Hid.
by apply (list_elem_of_fmap_2 id). }
apply (vi_active c HI) in Hin as Hact. destruct Hact as (p0 & Hp0 & Ha). replace p0 with p in * by congruence. tauto.
+ rewrite HU, pick_changed_out by done. rewrite G2. destruct (pick P pid) as [q|] eqn:Eq.
* apply pick_Some in Eq as [Hq Hid]. split; [intros Ha; right; eauto|].
intros [[? _]|(p & Hp & Hpid & Ha)]; [done|].
pose proof (pick_nodup P p Hnd Hp) as E1. pose proof (pick_nodup P q Hnd Hq) as E2. congruence.
* apply pick_None in Eq. split; [done|]. intros [[? _]|(p & Hp & Hpid & Ha)]; [done|].
exfalso. apply Eq. rewrite <- Hpid. by apply (list_elem_of_fmap_2 id).
- intros pid v0 Hv. rewrite H3, G3 in Hv. destruct (pick U pid); [naive_solver|].
destruct (pick P pid); [naive_solver|]. destruct (vi_current c HI pid v0 Hv) as (p & ? & _). eauto.
Qed.

Lemma advance_spec_at now c c' U P : VInv c -> compute_queue_advance now c = Ok (U, P) ->
advance_queue_at now c = Ok c' -> advanced now c c' P.
Proof.
intros HI Hc H. destruct (advance_stored now c c' U P HI Hc H) as (S1 & S2 & S3 & S4 & S5 & S6 & S7 & S8 & S9 & S10 & S11).
destruct (compute_inv now c U P HI Hc) as (_ & _ & Hids & HP & Hfull & Hle).
pose proof (vi_pending_nodup c HI) as Hndp. rewrite <- (take_drop (length P) (pending_queue c)) in Hndp.
apply NoDup_app in Hndp as (Hnd & _ & _). rewrite <- Hids in Hnd.
assert (is_iter (active_proposals c') ≡ₚ
filter (fun pid => fresh_active now c pid = true) (is_iter (active_proposals c))
++ map id (filter (fun p => is_active_status (status p) = true) P)) as Hset.
{ apply NoDup_Permutation; [apply is_nodup| |].
- apply NoDup_app. split_and!; [apply NoDup_filter, is_nodup| |].
+ intros pid [_ Hin]%list_elem_of_filter (p & -> & [_ Hp]%list_elem_of_filter)%list_elem_of_fmap.
rewrite Forall_forall in HP. destruct (HP p Hp) as (q & st & Hq & Hs & _).
apply (pending_not_active c (id p) HI); [|done]. apply (vi_pending c HI). eauto.
+ by apply NoDup_map_filter.
- intros pid. rewrite S4, elem_of_app, list_elem_of_filter, (list_elem_of_fmap id).
setoid_rewrite list_elem_of_filter. naive_solver. }
pose proof (Permutation_length Hset) as Hlen. rewrite length_app, length_map in Hlen.
unfold active_count in *. split; try done.
- intros Hne. unfold is_len. rewrite Hlen, Nat2Z.inj_add. apply Hfull.
rewrite S5 in Hne. destruct (Nat.lt_ge_cases (length P) (length (pending_queue c))) as [|Hge]; [done|].
by rewrite drop_ge in Hne.
- unfold is_len. rewrite Hlen, Nat2Z.inj_add.
pose proof (length_filter (fun pid => fresh_active now c pid = true) (is_iter (active_proposals c))). lia.
Qed.

Lemma advance_spec now c c' : VInv c -> advance_queue_at now c = Ok c' -> exists P, advanced now c c' P.
Proof.
intros HI H. destruct (compute_queue_advance now c) as [[U P]|] eqn:Hc; [eauto using advance_spec_at|].
unfold advance_queue_at in H. by rewrite Hc in H.
Qed.

Lemma promoted_pending now c c' P pid : VInv c -> advanced now c c' P -> pid ∈ map id P ->
pid ∉ is_iter (active_proposals c) /\ exists p, p ∈ P /\ id p = pid /\ promoted now c p /\ stored c' pid = Some p.
Proof.
intros HI Ha (p & -> & Hp)%(list_elem_of_fmap id).
pose proof (adv_promoted _ _ _ _ Ha) as HP. rewrite Forall_forall in HP.
destruct (promoted_ok now c p HI (HP p Hp)) as (_ & _ & _ & q & Hq & Hs). split.
- apply (pending_not_active c (id p) HI), (vi_pending c HI). eauto.
- exists p. split_and!; [done | done | by apply HP | by apply (adv_new _ _ _ _ Ha)].
Qed.

(** After an advance every stored proposal is the one of before, its
up-to-date form, or a promoted one. *)
Lemma advanced_stored now c c' P pid p : VInv c -> advanced now c c' P -> stored c' pid = Some p ->
(pid ∈ is_iter (active_proposals c) /\ fresh now c pid = Some p) \/
(p ∈ P /\ id p = pid /\ promoted now c p) \/
(pid ∉ is_iter (active_proposals c) /\ pid ∉ map id P /\ stored c pid = Some p).
Proof.
intros HI Ha Hp. destruct (decide (pid ∈ is_iter (active_proposals c))) as [Hin|Hout].
- left. destruct (adv_active _ _ _ _ Ha pid Hin) as (q & Hq & Hs). split; [done | congruence].
- right. destruct (decide (pid ∈ map id P)) as [HinP|HoutP].
+ left. destruct (promoted_pending now c c' P pid HI Ha HinP) as (_ & q & Hq & Hid & Hpr & Hs).
replace p with q by congruence. done.
+ right. split_and!; [done | done |]. by rewrite <- (adv_other _ _ _ _ Ha).
Qed.

Lemma advanced_inv now c c' P : VInv c -> advanced now c c' P -> VInv c'.
Proof.
intros HI Ha. destruct (adv_frame _ _ _ _ Ha) as (_ & Hmeta & _ & _ & Hlen).
assert (forall pid p, stored c' pid = Some p -> id p = pid /\ proposal_ok p) as Hok.
{ intros pid p Hp. destruct (advanced_stored _ _ _ _ _ _ HI Ha Hp) as [[_ Hf]|[(_ & Hid & Hpr)|(_ & _ & Hs)]].
- by destruct (fresh_inv now c pid p HI Hf) as (_ & _ & _ & ? & ? & _).
- split; [done|]. by destruct (promoted_ok now c p HI Hpr).
- by eapply stored_ok. }
pose proof (vi_pending_nodup c HI) as Hnd. rewrite <- (take_drop (length P) (pending_queue c)) in Hnd.
rewrite <- (adv_ids _ _ _ _ Ha), <- (adv_pending _ _ _ _ Ha) in Hnd.
apply NoDup_app in Hnd as (_ & Hdisj & Hnd'). split.
- intros pid v Hv. destruct (adv_current _ _ _ _ Ha pid v Hv) as (p & ->). exists p. split; [done|].
apply Hok. unfold stored. by rewrite Hv.
- intros pid. rewrite (adv_set _ _ _ _ Ha), elem_of_app, list_elem_of_filter, (list_elem_of_fmap id). split.
+ intros [[Hf Hin]|(p & -> & [Hact Hp]%list_elem_of_filter)].
* unfold fresh_active in Hf. destruct (adv_active _ _ _ _ Ha pid Hin) as (p & Hfp & Hs). rewrite Hfp in Hf. eauto.
* exists p. split; [by apply (adv_new _ _ _ _ Ha) | done].
+ intros (p & Hp & Hact).
destruct (advanced_stored _ _ _ _ _ _ HI Ha Hp) as [[Hin Hf]|[(HpP & Hid & _)|(Hout & _ & Hs)]].
* left. split; [|done]. unfold fresh_active. by rewrite Hf.
* right. exists p. split; [done|]. by apply list_elem_of_filter.
* exfalso. apply Hout, (vi_active c HI). eauto.
- intros pid. split.
+ intros Hin. assert (pid ∈ pending_queue c) as Hinc
by (rewrite <- (take_drop (length P) (pending_queue c)), elem_of_app; right; by rewrite <- (adv_pending _ _ _ _ Ha)).
rewrite (adv_other _ _ _ _ Ha); [by apply (vi_pending c HI) | by apply pending_not_active |].
intros HinP. by apply (Hdisj pid).
+ intros (p & Hp & Hs).
destruct (advanced_stored _ _ _ _ _ _ HI Ha Hp) as [[Hin Hf]|[(HpP & Hid & Hpr)|(Hout & HoutP & Hsc)]].
* exfalso. destruct (fresh_inv now c pid p HI Hf) as (q & Hq & _ & _ & _ & He & _).
apply (vi_active c HI) in Hin as (q' & Hq' & Hact). replace q' with q in * by congruence.
rewrite Hs in He. destruct (status q); discriminate.
* exfalso. by destruct (promoted_ok now c p HI Hpr) as (_ & ? & _).
* assert (pid ∈ pending_queue c) as Hinc by (apply (vi_pending c HI); eauto).
rewrite <- (take_drop (length P) (pending_queue c)), elem_of_app, <- (adv_ids _ _ _ _ Ha), <- (adv_pending _ _ _ _ Ha) in Hinc.
tauto.
- done.
- by rewrite Hmeta, Hlen, (vi_metadata c HI).
Qed.

(** ** The views compute the advanced queue without storing it *)
Lemma exiting_spec now c pid : VInv c -> Forall (fun x => is_Some (fresh now c x)) (is_iter (active_proposals c)) ->
pid ∈ is_iter (active_proposals c) ->
pid ∉ map id (filter (fun p => is_active_status (status p) = false) (omap (changed now c) (is_iter (active_proposals c))))
<-> fresh_active now c pid = true.
Proof.
intros HI Hall Hin. rewrite Forall_forall in Hall. destruct (Hall pid Hin) as [p Hf].
destruct (proj1 (vi_active c HI pid) Hin) as (q & Hq & Hact).
destruct (fresh_inv now c pid p HI Hf) as (q' & Hq' & _ & Hid & _). replace q' with q in * by congruence.
assert (fresh_active now c pid = is_active_status (status p)) as Hfa by (unfold fresh_active; by rewrite Hf).
rewrite Hfa. split.
- intros Hnot. destruct (is_active_status (status p)) eqn:Ep; [done|]. exfalso. apply Hnot.
apply (list_elem_of_fmap id). exists p. split; [done|]. apply list_elem_of_filter. split; [done|].
apply list_elem_of_omap. exists pid. split; [done|]. unfold changed. rewrite Hq, Hf.
rewrite bool_decide_eq_false_2; [done|]. intros E. by rewrite E, Hact in Ep.
- intros Hp (r & Hrid & [Hr Hr2]%list_elem_of_filter)%(list_elem_of_fmap id).
apply list_elem_of_omap in Hr2 as (y & Hy & Hch). unfold changed in Hch.
destruct (stored c y) as [qy|] eqn:Eqy; [|done]. destruct (fresh now c y) as [py|] eqn:Epy; [|done].
destruct (bool_decide _); [done|]. injection Hch as ->.
destruct (fresh_inv now c y r HI Epy) as (? & _ & _ & Hidr & _). rewrite <- Hrid in Hidr. subst y. congruence.
Qed.

Lemma queue_view now c c' : VInv c -> advance_queue_at now c = Ok c' ->
exists qs, get_queue_state now c = Ok qs /\ qs_active_proposals qs ≡ₚ is_iter (active_proposals c') /\
qs_pending_queue qs = pending_queue c'.
Proof.
intros HI H. destruct (compute_queue_advance now c) as [[U P]|] eqn:Hc.
2:{ unfold advance_queue_at in H. by rewrite Hc in H. }
destruct (compute_inv now c U P HI Hc) as (HU & Hall & _).
unfold get_queue_state. rewrite Hc. cbn. eexists. split; [done|]. cbn.
destruct (advance_stored now c c' U P HI Hc H) as (_ & _ & _ & _ & -> & _). split; [|done].
pose proof (advance_spec_at now c c' U P HI Hc H) as Ha.
rewrite (adv_set _ _ _ _ Ha). apply Permutation_app; [|done].
assert (forall l : list ProposalId, (forall x, x ∈ l -> x ∈ is_iter (active_proposals c)) ->
filter (fun x => x ∉ map id (filter (fun p => is_active_status (status p) = false) U)) l =
filter (fun pid => fresh_active now c pid = true) l) as Hfil; [|by rewrite Hfil].
rewrite HU. intros l. induction l as [|x l IH]; [done|]. intros Hl. rewrite !filter_cons.
pose proof (exiting_spec now c x HI Hall (Hl x ltac:(left))) as Hx. rewrite IH by set_solver.
do 2 case_decide; tauto.
Qed.

Lemma proposal_view now c c' pid info : VInv c -> advance_queue_at now c = Ok c' ->
get_proposal now c pid = Ok (Some info) ->
exists q, stored c' pid = Some q /\ update q now = Ok (info_proposal info).
Proof.
intros HI H Hg. unfold get_proposal in Hg. destruct (compute_queue_advance now c) as [[U P]|] eqn:Hc; [|done].
destruct (compute_inv now c U P HI Hc) as (_ & _ & _ & HP & _).
destruct (advance_stored now c c' U P HI Hc H) as (S1 & S2 & S3 & _). cbn in Hg.
destruct (virtual_update P pid) as [p|] eqn:Ev.
- unfold virtual_update in Ev. apply last_Some_elem_of in Ev. apply list_elem_of_filter in Ev as [Hid Hp].
cbn in Hg. cbv [mret result_ret] in Hg. destruct (vec_get _ pid); [|done]. injection Hg as <-. cbn. exists p. split; [by rewrite <- Hid; apply S2|].
rewrite Forall_forall in HP. destruct (HP p Hp) as (q & st & _ & _ & _ & Hu).
by rewrite (update_later _ now now _ ltac:(lia) Hu).
- assert (pid ∉ map id P) as Hout.
{ intros (p & -> & Hp)%(list_elem_of_fmap id). unfold virtual_update in Ev. apply last_None in Ev.
assert (p ∈ filter (fun x => id x = id p) P) as Hx by (by apply list_elem_of_filter). rewrite Ev in Hx. by apply elem_of_nil in Hx. }
destruct (internal_get_proposal now c pid) as [o|] eqn:Eo; [|done]. apply get_proposal_inv in Eo; [|done]. cbn in Hg.
destruct o as [[p ch]|]; cbn in Hg; [|done]. cbv [mret result_ret] in Hg. destruct (vec_get _ pid); [|done]. injection Hg as <-. cbn.
destruct Eo as (q & Hq & Hu & _). destruct (decide (pid ∈ is_iter (active_proposals c))) as [Hin|Hnin].
+ destruct (S1 pid Hin) as (r & Hr & Hs). destruct (fresh_inv now c pid r HI Hr) as (q' & Hq' & Hu' & _ & _ & _ & Hr2 & _).
exists r. split; [done|]. replace q' with q in * by congruence. congruence.
+ exists q. split; [|done]. by rewrite S3.
Qed.
End queue.
