(* ===== verification/VotingOps.v ===== *)
(** * The entry points of the voting contract

    Every call brings proposals up to date, promotes queued ones, and writes
    at most one proposal. [evolve] is the relation along which stored
    proposals may move: statuses go forward, decisions stick, snapshots and
    rules are fixed once set. *)
From stdpp Require Import base gmap strings list.
From Stdlib Require Import ZArith Lia.
From S2P Require Import Prelude.
From S2P Require Import Near.
From S2P Require Import Common.
From S2P Require Import CommonFacts.
From S2P Require Import MerkleTree.
From S2P Require Import VotingTypes.
From S2P Require Import VotingContract.
From S2P Require Import VotingFacts.
From S2P Require Import VotingInvariant.
From S2P Require Import VotingQueue.

Local Open Scope Z_scope.

(** ** Forward movement *)
Definition rank (s : St.t) : Z :=
  match s with
  | St.Created => 0 | St.Queued => 1 | St.Sandbox => 2 | St.Scheduled => 3 | St.Voting => 4
  | St.Timelock => 5 | St.Executable => 6 | St.InProgress => 7
  | _ => 8
  end.

(** No status follows a terminal one. *)
Definition terminal (s : St.t) : bool := rank s =? 8.

(** The statuses of a proposal that has passed its vote. *)
Definition late (s : St.t) : bool :=
  match s with St.Timelock | St.Executable | St.InProgress | St.Succeeded | St.Failed => true | _ => false end.

(** What a step may do besides moving a proposal along: count a vote, give
    up the bond, store a snapshot, or any of them over several steps. *)
Inductive kind : Type := Quiet | Votes | Bond | Snap (s : SnapshotAndState) | Any.

(** [evolve_by k p p']: [p'] is a later stage of [p]. *)
Record evolve_by (k : kind) (p p' : Proposal) : Prop := mkEvolve {
  ev_id : id p' = id p;
  ev_fixed : proposer_id p' = proposer_id p /\ actions p' = actions p /\ flow p' = flow p /\
    creation_time_ns p' = creation_time_ns p /\ expiration_ns p' = expiration_ns p /\
    voting_duration_ns p' = voting_duration_ns p /\ timelock_duration_ns p' = timelock_duration_ns p;
  ev_status : status p' = status p \/ rank (status p) < rank (status p');
  ev_bond : bond_amount p' = bond_amount p \/ ((k = Bond \/ k = Any) /\ bond_amount p' = 0);
  ev_snap : snapshot_and_state p' = snapshot_and_state p \/
    (snapshot_and_state p = None /\ (k = Any \/ exists s, k = Snap s /\ snapshot_and_state p' = Some s));
  ev_rules : status p <> St.Created -> approval_time_ns p' = approval_time_ns p /\
    quorum_threshold_bps p' = quorum_threshold_bps p /\ quorum_floor p' = quorum_floor p /\
    approval_threshold_bps p' = approval_threshold_bps p /\
    sandbox_duration_ns p' = sandbox_duration_ns p /\ sandbox_threshold_bps p' = sandbox_threshold_bps p;
  ev_votes : (k <> Votes /\ k <> Any) \/ rank St.Timelock <= rank (status p) ->
    votes p' = votes p /\ total_votes p' = total_votes p;
  ev_won : late (status p') = true -> late (status p) = true \/ compute_final_status p' = Ok St.Succeeded
}.
Abbreviation evolve := (evolve_by Quiet).
Arguments ev_id {k}. Arguments ev_status {k}. Arguments ev_bond {k}. Arguments ev_fixed {k}.
Arguments ev_snap {k}. Arguments ev_rules {k}. Arguments ev_votes {k}. Arguments ev_won {k}.

(** A snapshot once taken stays. *)
Lemma ev_snapshot k p p' s : evolve_by k p p' -> snapshot_and_state p = Some s -> snapshot_and_state p' = Some s.
Proof. intros He Hs. destruct (ev_snap _ _ He) as [?|[? _]]; congruence. Qed.

Lemma rank_created s : rank s = 0 <-> s = St.Created.
Proof. by destruct s. Qed.
Lemma rank_bound s : 0 <= rank s <= 8.
Proof. destruct s; cbn; lia. Qed.

#[export] Instance evolve_refl b : Reflexive (evolve_by b).
Proof. intros p. split; auto; done. Qed.

(** The outcome depends on the counters, the snapshot and the rules. *)
Lemma won_stable q r : compute_final_status q = Ok St.Succeeded ->
  (forall s, snapshot_and_state q = Some s -> snapshot_and_state r = Some s) ->
  quorum_threshold_bps r = quorum_threshold_bps q -> quorum_floor r = quorum_floor q ->
  approval_threshold_bps r = approval_threshold_bps q -> votes r = votes q -> total_votes r = total_votes q ->
  compute_final_status r = Ok St.Succeeded.
Proof.
  intros Hw Hs H1 H2 H3 H4 H5. rewrite <- Hw. unfold compute_final_status, vote_power in *.
  destruct (snapshot_and_state q) as [s|]; [|discriminate]. rewrite (Hs s) by done. by rewrite H1, H2, H3, H4, H5.
Qed.

#[export] Instance evolve_trans b : Transitive (evolve_by b).
Proof.
  intros p q r [A1 A2 A3 A4 A5 A6 A7 A8] [B1 B2 B3 B4 B5 B6 B7 B8].
  assert (rank (status p) <= rank (status q)) as Hr by (destruct A3 as [->|]; lia).
  split; [congruence | | | | | | |].
  - destruct A2 as (?&?&?&?&?&?&?), B2 as (?&?&?&?&?&?&?). split_and!; congruence.
  - destruct A3 as [E|], B3 as [E'|]; [left; congruence | right; rewrite <- E; done | right; rewrite E'; done | right; lia].
  - destruct A4 as [E|[? E]], B4 as [E'|[? E']]; [left | right | right | right]; try split; congruence.
  - destruct A5 as [E|[E A5]]; [rewrite E in B5; exact B5|]. right. split; [done|].
    destruct A5 as [A5|(s & Hk & Hq)]; [by left|].
    right. exists s. split; [done|]. destruct B5 as [->|[? _]]; [done | congruence].
  - intros Hc. assert (status q <> St.Created) as Hq.
    { intros Hq%rank_created. apply Hc, rank_created. pose proof (rank_bound (status p)). lia. }
    destruct (A6 Hc) as (?&?&?&?&?&?), (B6 Hq) as (?&?&?&?&?&?). split_and!; congruence.
  - intros Hc. destruct (A7 Hc) as [? ?], (B7 ltac:(destruct Hc; [by left | right; lia])) as [? ?].
    split; congruence.
  - intros Hr'. destruct (B8 Hr') as [Hq|]; [|by right]. destruct (A8 Hq) as [|Hw]; [by left|]. right.
    assert (status q <> St.Created /\ rank St.Timelock <= rank (status q)) as [Hq1 Hq2]
      by (destruct (status q); done).
    destruct (B6 Hq1) as (? & ? & ? & ? & _), (B7 (or_intror Hq2)) as [? ?]. apply (won_stable q); try done.
    intros s Hs. destruct B5 as [?|[? _]]; congruence.
Qed.

Lemma evolve_weaken b p p' : evolve p p' -> evolve_by b p p'.
Proof. intros []. split; auto; naive_solver. Qed.

Lemma evolve_any k p p' : evolve_by k p p' -> evolve_by Any p p'.
Proof. intros []. split; auto; naive_solver. Qed.

(** Changing the status forwards. *)
Lemma evolve_status p s : rank (status p) < rank s \/ s = status p ->
  (late s = true -> late (status p) = true \/ compute_final_status p = Ok St.Succeeded) ->
  evolve p (Proposal.with_status p s).
Proof. intros H Hw. split; auto; try done. cbn. destruct H; auto. Qed.

Lemma update_won p t p' : update p t = Ok p' -> late (status p') = true ->
  late (status p) = true \/ compute_final_status p = Ok St.Succeeded.
Proof.
  unfold update, update_classic, update_fast_track. intros H. set (acts := has_actions p) in *. clearbody acts.
  destruct (flow p), (status p) eqn:Es; auto;
    repeat (res_inv; try match goal with H : (if ?b then _ else _) = Ok _ |- _ => destruct b end);
    res_inv; cbn [status Proposal.with_status]; rewrite ?Es; try done.
  all: destruct (compute_final_cases _ _ ltac:(eassumption)) as [-> | ->]; auto; done.
Qed.

Lemma update_evolve p t p' : update p t = Ok p' -> evolve p p'.
Proof.
  intros H. pose proof H as H'. destruct (update_shape p t p' H) as [Hs He]. unfold updated_status in Hs. rewrite Hs.
  apply evolve_status; [|by eapply update_won].
  remember (status p') as s'. destruct (status p), s'; cbn in He |- *; try discriminate; auto; left; lia.
Qed.

Lemma activate_evolve p start : status p = St.Created \/ status p = St.Queued -> evolve p (activate p start).
Proof.
  intros Hs. unfold activate. destruct (flow p) eqn:Ef; split; cbn; auto; try done; try (right; destruct Hs as [-> | ->]; cbn; lia).
Qed.

(** The ranges the types of the settings give. *)
Record k_ok (k : VConfig.t) : Prop := mkKOk {
  kc_bond : 0 <= VConfig.bond_amount k;
  kc_bps : bps_ok (VConfig.quorum_threshold_bps k) /\ bps_ok (VConfig.approval_threshold_bps k) /\
    bps_ok (VConfig.simple_majority_threshold_bps k) /\ bps_ok (VConfig.strong_majority_threshold_bps k) /\
    bps_ok (VConfig.sandbox_threshold_bps k)
}.

Section ops.
Context `{IS : IterableSet} `{HC : Crypto} `{HB : Borsh VAccount} `{VT : !VotingHost} `{!IterableSetLaws IS}.

(** Every stored proposal has evolved, and none has disappeared. *)
Definition evolves_by (K : ProposalId -> kind) (c c' : Voting) : Prop :=
forall pid p, stored c pid = Some p -> exists p', stored c' pid = Some p' /\ evolve_by (K pid) p p'.
Abbreviation evolves := (evolves_by (fun _ => Quiet)).

(** A step that touches one proposal. *)
Definition only (pid : ProposalId) (k : kind) (y : ProposalId) : kind := if decide (y = pid) then k else Quiet.

Lemma evolves_weaken b c c' : evolves c c' -> evolves_by b c c'.
Proof. intros H pid p Hp. destruct (H pid p Hp) as (p' & ? & ?). eauto using evolve_weaken. Qed.

#[global] Instance evolves_refl b : Reflexive (evolves_by b).
Proof. intros c pid p Hp. exists p. split; [done | reflexivity]. Qed.
#[global] Instance evolves_trans b : Transitive (evolves_by b).
Proof.
intros c1 c2 c3 H1 H2 pid p Hp. destruct (H1 pid p Hp) as (p2 & Hp2 & E1).
destruct (H2 pid p2 Hp2) as (p3 & Hp3 & E2). exists p3. split; [done | by transitivity p2].
Qed.

Lemma advanced_evolves now c c' P : VInv c -> advanced now c c' P -> evolves c c'.
Proof.
intros HI Ha pid p Hp. destruct (decide (pid ∈ is_iter (active_proposals c))) as [Hin|Hout].
- destruct (adv_active _ _ _ _ Ha pid Hin) as (q & Hf & Hs). exists q. split; [done|].
destruct (fresh_inv now c pid q HI Hf) as (p0 & Hp0 & Hu & _). replace p0 with p in * by congruence.
by eapply update_evolve.
- destruct (decide (pid ∈ map id P)) as [HinP|HoutP].
+ destruct (promoted_pending now c c' P pid HI Ha HinP) as (_ & q & Hq & Hid & (p0 & start & Hp0 & Hs & _ & Hu) & Hst).
exists q. split; [done|]. rewrite Hid in Hp0. replace p0 with p in * by congruence.
transitivity (activate p start); [apply activate_evolve; auto | by eapply update_evolve].
+ exists p. split; [by rewrite (adv_other _ _ _ _ Ha) | reflexivity].
Qed.

(** ** Writing one proposal *)
Lemma set_proposal_run p e c u c' es : internal_set_proposal p e c = Ok (u, c', es) ->
internal_set_proposal_in c p = Ok c' /\ es = [].
Proof. intros H. unfold internal_set_proposal in H. m_inv. done. Qed.

Lemma write_inv c p q c1 pend : VInv c -> stored c (id p) = Some q -> proposal_ok p ->
internal_set_proposal_in c p = Ok c1 -> NoDup pend ->
(forall pid, pid ∈ pend <-> if decide (pid = id p) then status p = St.Queued else pid ∈ pending_queue c) ->
VInv (with_pending c1 pend).
Proof.
intros HI Hq Hok H Hnd Hpend. apply set_proposal_inv in H as (G1 & G2 & _ & G3 & G4 & G5 & G6 & G7 & G8 & G9).
split; cbn.
- intros pid v Hv. rewrite G3 in Hv. case_decide as E; [injection Hv as <-; subst; eauto | by apply (vi_current c HI)].
- intros pid. rewrite G2. unfold stored; cbn. rewrite G3. case_decide as E; [naive_solver | apply (vi_active c HI)].
- intros pid. rewrite Hpend. unfold stored; cbn. rewrite G3. case_decide as E; [naive_solver | apply (vi_pending c HI)].
- done.
- by rewrite G6, G4, (vi_metadata c HI).
Qed.

Lemma write_inv_same c p q c' : VInv c -> stored c (id p) = Some q -> proposal_ok p ->
(status p = St.Queued <-> status q = St.Queued) ->
internal_set_proposal_in c p = Ok c' -> VInv c'.
Proof.
intros HI Hq Hok Hs H. pose proof H as H'. apply set_proposal_inv in H' as (_ & _ & _ & _ & _ & _ & _ & _ & _ & G9).
replace c' with (with_pending c' (pending_queue c)).
2:{ rewrite <- G9. by destruct c'. }
eapply write_inv; [done | done | done | done | apply HI |].
intros pid. case_decide as E; [|done]. rewrite Hs, (vi_pending c HI), E. naive_solver.
Qed.

Lemma write_evolves k c p q c' : stored c (id p) = Some q -> evolve_by k q p -> internal_set_proposal_in c p = Ok c' ->
evolves_by (only (id p) k) c c'.
Proof.
intros Hq He H. apply set_proposal_inv in H as (G1 & _). intros pid r Hr. rewrite G1.
unfold only.
case_decide as E; [subst; replace r with q by congruence; eauto | exists r; split; [done | reflexivity]].
Qed.

(** ** The two reads every call starts with *)
Lemma advance_run e c u c' es : VInv c -> internal_advance_queue e c = Ok (u, c', es) ->
es = [] /\ VInv c' /\ evolves c c' /\ exists P, advanced (block_timestamp e) c c' P.
Proof.
intros HI H. unfold internal_advance_queue in H. m_inv.
match goal with H : advance_queue_at _ _ = _ |- _ => apply advance_spec in H as [P HP]; [|done] end.
split_and!; [done | by eapply advanced_inv | by eapply advanced_evolves | eauto].
Qed.

Lemma expect_run pid e c p c' es : VInv c -> internal_expect_proposal_updated pid e c = Ok (p, c', es) ->
c' = c /\ es = [] /\ exists q, stored c pid = Some q /\ update q (block_timestamp e) = Ok p /\
id p = pid /\ proposal_ok p /\ proposal_ok q /\ evolve q p /\ (status p = St.Queued <-> status q = St.Queued).
Proof.
intros HI H. unfold internal_expect_proposal_updated in H. m_inv.
match goal with H : expect_proposal_updated_at _ _ _ = _ |- _ =>
apply expect_proposal_inv in H as (q & Hq & Hu); [|done] end.
destruct (stored_ok c pid q HI Hq) as [Hid Hok]. destruct (proposal_update_ok q _ p Hok Hu) as (Hokp & Hidp & _).
split_and!; [done | done |]. exists q. split_and!; try done; [congruence | by eapply update_evolve |].
destruct (update_shape _ _ _ Hu) as [_ He]. destruct (status q), (status p); done.
Qed.

(** ** What every call but the execution callback guarantees *)
Definition keeps (c c' : Voting) : Prop :=
forall pid p, stored c pid = Some p -> status p = St.InProgress -> stored c' pid = Some p.

Record good_by (K : ProposalId -> kind) (c c' : Voting) : Prop := mkGood {
gd_inv : VInv c';
gd_evolves : evolves_by K c c';
gd_keeps : keeps c c'
}.
Abbreviation good := (good_by (fun _ => Quiet)).
Arguments gd_inv {K}. Arguments gd_evolves {K}. Arguments gd_keeps {K}.

Lemma good_weaken b c c' : good c c' -> good_by b c c'.
Proof. intros []. split; eauto using evolves_weaken. Qed.

Lemma good_trans b c1 c2 c3 : good_by b c1 c2 -> good_by b c2 c3 -> good_by b c1 c3.
Proof.
intros [A1 A2 A3] [B1 B2 B3]. split; [done | by transitivity c2 |]. intros pid p Hp Hs. eauto.
Qed.

(** The parts of the state a call keeps besides. *)
Definition same_aux (c c' : Voting) : Prop :=
v_config c' = v_config c /\ proposal_metadata c' = proposal_metadata c /\
vote_records c' = vote_records c /\ v_paused c' = v_paused c /\
length (proposals c') = length (proposals c).

Lemma advanced_good now c c' P : VInv c -> advanced now c c' P -> good c c' /\ same_aux c c'.
Proof.
intros HI Ha. split.
- split; [by eapply advanced_inv | by eapply advanced_evolves |].
intros pid p Hp Hs. rewrite (adv_other _ _ _ _ Ha); [done| |].
+ intros (q & Hq & Hact)%(vi_active c HI). replace q with p in * by congruence. by rewrite Hs in Hact.
+ intros Hin. destruct (promoted_pending _ _ _ _ _ HI Ha Hin) as (_ & q & _ & Hid & (r & st & Hr & Hrs & _) & _).
rewrite Hid in Hr. congruence.
- destruct (adv_frame _ _ _ _ Ha) as (? & ? & ? & ? & ?). by split_and!.
Qed.

Lemma advance_good e c u c' es : VInv c -> internal_advance_queue e c = Ok (u, c', es) ->
es = [] /\ good c c' /\ same_aux c c' /\ exists P, advanced (block_timestamp e) c c' P.
Proof.
intros HI H. apply advance_run in H as (-> & _ & _ & P & HP); [|done].
destruct (advanced_good _ _ _ _ HI HP). eauto.
Qed.

Lemma write_good k pid e c p p' c' : VInv c ->
(exists q, stored c pid = Some q /\ update q (block_timestamp e) = Ok p /\
id p = pid /\ proposal_ok p /\ proposal_ok q /\ evolve q p /\ (status p = St.Queued <-> status q = St.Queued)) ->
evolve_by k p p' -> proposal_ok p' -> (status p' = St.Queued <-> status p = St.Queued) ->
status p <> St.InProgress -> internal_set_proposal_in c p' = Ok c' -> good_by (only pid k) c c' /\ same_aux c c'.
Proof.
intros HI (q & Hq & Hu & Hid & Hok & Hokq & Hev & Hqs) Hev' Hok' Hqs' Hne H.
assert (id p' = pid) as Hid' by (rewrite (ev_id _ _ Hev'); done).
pose proof H as H'. apply set_proposal_inv in H' as (G1 & _ & _ & _ & G4 & G5 & G6 & G7 & G8 & _).
split; [|by split_and!]. split.
- eapply (write_inv_same c p' q); [done | by rewrite Hid' | done | tauto | done].
- rewrite <- Hid'. eapply (write_evolves k c p' q); [by rewrite Hid' | | done]. transitivity p; [by apply evolve_weaken | done].
- intros x r Hr Hs. rewrite G1. case_decide as E; [|done]. exfalso. apply Hne.
rewrite E, Hid' in Hr. replace r with q in * by congruence. rewrite update_settled in Hu by (by rewrite Hs).
by injection Hu as <-.
Qed.

Lemma evolves_only K pid c c' : evolves_by (only pid Quiet) c c' -> evolves_by K c c'.
Proof.
intros A2 y p Hp. destruct (A2 y p Hp) as (p' & Hp' & He).
exists p'. split; [done|]. apply evolve_weaken. unfold only in He. by destruct (decide (y = pid)).
Qed.

Lemma good_only K pid c c' : good_by (only pid Quiet) c c' -> good_by K c c'.
Proof. intros []. split; eauto using evolves_only. Qed.

Lemma write_quiet pid e c p p' c' : VInv c ->
(exists q, stored c pid = Some q /\ update q (block_timestamp e) = Ok p /\
id p = pid /\ proposal_ok p /\ proposal_ok q /\ evolve q p /\ (status p = St.Queued <-> status q = St.Queued)) ->
evolve p p' -> proposal_ok p' -> (status p' = St.Queued <-> status p = St.Queued) ->
status p <> St.InProgress -> internal_set_proposal_in c p' = Ok c' -> good c c' /\ same_aux c c'.
Proof.
intros HI Hx He Hok Hq Hs H. destruct (write_good Quiet pid e c p p' c' HI Hx He Hok Hq Hs H).
eauto using good_only.
Qed.

(** ** Proposals written by the calls *)
Lemma evolve_trans2 p q r : evolve p q -> evolve q r -> evolve p r.
Proof. intros. by transitivity q. Qed.

Ltac call_start H HI :=
m_inv;
repeat match goal with
| E : internal_advance_queue _ ?c = Ok (_, ?c1, _) |- _ =>
let G := fresh "G" in let A := fresh "A" in
apply advance_good in E as (-> & G & A & _); [|first [exact HI | assumption | by eapply gd_inv]]
end.
Ltac call_expect p Hx :=
match goal with
| E : internal_expect_proposal_updated _ _ ?c = Ok (?x, _, _) |- _ =>
rename x into p; apply expect_run in E as (-> & -> & Hx); [|first [assumption | by eapply gd_inv]]
end.
Ltac call_write W :=
match goal with
| E : internal_set_proposal _ _ _ = Ok _ |- _ => apply set_proposal_run in E as [W ->]
end.

Lemma reject_good pid e c u c' es : VInv c -> reject_proposal pid e c = Ok (u, c', es) -> good c c' /\ same_aux c c'.
Proof.
intros HI H. unfold reject_proposal, assert_not_paused, assert_called_by_reviewer in H. call_start H HI.
call_expect p Hx. call_write W. bool_prop. pose proof Hx as (q & _ & _ & _ & Hok & _).
eapply write_quiet; [exact HI | exact Hx | | | | by rewrite B | exact W].
- split; cbn; auto; try done. right. by rewrite B. 
- pose proof Hok as [? ? ? ? ? ? ? ? ? ?]. split; cbn; try done; [by split_and!; intuition congruence|naive_solver|].
by intros [|[|]].
- by rewrite B.
Qed.

Lemma decided_ok p s : proposal_ok p -> terminal s = true -> s <> St.Slashed -> s <> St.Expired -> s <> St.Rejected ->
s <> St.ApprovalLegacy -> s <> St.FinishLegacy -> bond_amount p = 0 -> proposal_ok (Proposal.with_status p s).
Proof.
intros Hok Ht H1 H2 H3 H4 H5 Hb. apply with_status_ok; try done; destruct s; try done; try lia; naive_solver.
Qed.

Lemma no_bond p : proposal_ok p -> status p <> St.Created -> status p <> St.Expired -> status p <> St.Rejected ->
bond_amount p = 0.
Proof.
intros Hok H1 H2 H3. pose proof (po_bond p Hok). destruct (Z.lt_ge_cases 0 (bond_amount p)) as [Hlt|]; [|lia].
destruct (po_bond_held p Hok Hlt) as [_ [|[|]]]; congruence.
Qed.

Lemma rejecter_ok p r : proposal_ok p -> proposal_ok (Proposal.with_rejecter p r).
Proof. by intros []; split. Qed.
Lemma rejecter_evolve p r : evolve p (Proposal.with_rejecter p r).
Proof. split; auto; done. Qed.
Lemma reviewer_ok p r : proposal_ok p -> proposal_ok (Proposal.with_reviewer p r).
Proof. by intros []; split. Qed.
Lemma reviewer_evolve p r : evolve p (Proposal.with_reviewer p r).
Proof. split; auto; done. Qed.

Lemma veto_good pid e c u c' es : VInv c -> veto_proposal pid e c = Ok (u, c', es) -> good c c' /\ same_aux c c'.
Proof.
intros HI H. unfold veto_proposal, assert_not_paused, assert_called_by_council in H. m_inv.
apply advance_good in E2 as (-> & G & A & _); [|done]. pose proof (gd_inv _ _ G) as HI1.
call_expect p Hx. call_write W. pose proof Hx as (q & _ & _ & _ & Hok & _).
assert (status p <> St.Created /\ status p <> St.Expired /\ status p <> St.Rejected /\
status p <> St.Queued /\ status p <> St.InProgress /\ rank (status p) < 8) as (N1 & N2 & N3 & N4 & N5 & N6)
by (destruct (flow p), (status p); done).
eapply (write_quiet pid e) in W as [G2 A2]; [|exact HI1|exact Hx| | | |done].
- apply advance_good in H as (-> & G3 & A3 & _); [|apply G2]. split; [by eapply good_trans; [|eapply good_trans]|].
unfold same_aux in *. intuition congruence.
- transitivity (Proposal.with_rejecter p (Some (predecessor_account_id e))); [apply rejecter_evolve|].
apply evolve_status; [left; cbn; lia | done].
- apply decided_ok; try done; [by apply rejecter_ok | by apply (no_bond p)].
- cbn. split; [done | congruence].
Qed.

Lemma noveto_good pid e c u c' es : VInv c -> noveto_proposal pid e c = Ok (u, c', es) -> good c c' /\ same_aux c c'.
Proof.
intros HI H. unfold noveto_proposal, assert_not_paused, assert_called_by_council in H. m_inv. bool_prop.
call_expect p Hx. call_write W. pose proof Hx as (q & _ & _ & _ & Hok & _).
match goal with H : status _ = ProposalStatus.Timelock |- _ => rename H into Hs end.
eapply (write_quiet pid e) in W as [G2 A2]; [|exact HI|exact Hx| | | |by rewrite Hs].
- apply advance_good in H as (-> & G3 & A3 & _); [|apply G2]. split; [by eapply good_trans|].
unfold same_aux in *. intuition congruence.
- apply evolve_status; rewrite Hs; [left; destruct (has_actions p); cbn; lia | by left].
- pose proof (no_bond _ Hok ltac:(by rewrite Hs) ltac:(by rewrite Hs) ltac:(by rewrite Hs)).
destruct (has_actions _) eqn:Eh; [|by apply decided_ok].
apply with_status_ok; try done; try lia; naive_solver.
- cbn. rewrite Hs. by destruct (has_actions _).
Qed.

Lemma bond_ok p b : proposal_ok p -> 0 <= b <= bond_amount p -> proposal_ok (Proposal.with_bond p b).
Proof. intros [] ?. split; cbn; try done; [lia | intros; apply po_bond_held; lia]. Qed.
Lemma bond_evolve p : evolve_by Bond p (Proposal.with_bond p 0).
Proof. split; auto; done. Qed.

Lemma slash_good pid e c u c' es : VInv c -> slash_proposal pid e c = Ok (u, c', es) -> good_by (only pid Bond) c c' /\ same_aux c c'.
Proof.
intros HI H. unfold slash_proposal, assert_not_paused, assert_called_by_reviewer in H. m_inv. bool_prop.
call_expect p Hx. call_write W. pose proof Hx as (q & _ & _ & _ & Hok & _).
match goal with H : status _ = ProposalStatus.Created |- _ => rename H into Hs end.
match goal with H : flow _ = FastTrack |- _ => rename H into Hf end.
match type of W with internal_set_proposal_in ?y ?x = _ => rename x into p2; rename y into c1 end.
assert (c1 = c /\ p2 = Proposal.with_status (Proposal.with_bond p 0) St.Slashed) as [-> ->].
{ destruct (0 <? bond_amount (Proposal.with_status p ProposalStatus.Slashed)) eqn:Eb; bool_prop; m_inv; cbn in *.
- done.
- pose proof (po_bond p Hok). assert (bond_amount p = 0) as E0 by lia. split; [done|].
destruct p; cbn in *. by rewrite E0. }
eapply (write_good _ pid e); [exact HI|exact Hx| | | |by rewrite Hs|exact W].
- transitivity (Proposal.with_bond p 0); [apply bond_evolve|]. apply evolve_weaken, evolve_status; [left; cbn; rewrite Hs; cbn; lia | done].
- apply with_status_ok; cbn; try done; [apply bond_ok; [done | pose proof (po_bond p Hok); lia] | congruence | by intros [|] | by intros [|[|]]].
- cbn. by rewrite Hs.
Qed.

Lemma execute_good pid e c u c' es : VInv c -> execute_proposal pid e c = Ok (u, c', es) ->
good c c' /\ same_aux c c' /\ exists p, stored c' pid = Some p /\ status p = St.InProgress.
Proof.
intros HI H. unfold execute_proposal, assert_not_paused in H. m_inv. bool_prop.
match goal with E : internal_advance_queue _ _ = _ |- _ => apply advance_good in E as (-> & G & A & _); [|done] end.
pose proof (gd_inv _ _ G) as HI1. call_expect p Hx. call_write W. pose proof Hx as (q & _ & _ & Hid & Hok & _).
match goal with H : status _ = ProposalStatus.Executable |- _ => rename H into Hs end.
pose proof (set_proposal_inv _ _ _ W) as (G1 & _).
eapply (write_quiet pid e) in W as [G2 A2]; [|exact HI1|exact Hx| | | |by rewrite Hs].
- split_and!; [by eapply good_trans | unfold same_aux in *; intuition congruence |].
eexists. rewrite G1. cbn. rewrite decide_True by done. done.
- apply evolve_status; rewrite Hs; [left; cbn; lia | by left].
- pose proof (no_bond _ Hok ltac:(by rewrite Hs) ltac:(by rewrite Hs) ltac:(by rewrite Hs)).
apply with_status_ok; try done; try lia; [by intros [|] | by intros [|[|]]].
- cbn. by rewrite Hs.
Qed.

Lemma claim_good pid e c u c' es : VInv c -> claim_bond pid e c = Ok (u, c', es) -> good_by (only pid Bond) c c' /\ same_aux c c'.
Proof.
intros HI H. unfold claim_bond in H. m_inv. bool_prop. call_expect p Hx. call_write W.
pose proof Hx as (q & _ & _ & Hid & Hok & _).
assert (status p = St.Expired \/ status p = St.Rejected) as Hs by (destruct (status p); auto; discriminate).
eapply (write_good _ pid e); [exact HI|exact Hx|apply bond_evolve|apply bond_ok; [done|lia]|done| |exact W].
destruct Hs as [-> | ->]; done.
Qed.

Lemma take_snapshot_good pid pl e c u c' es : VInv c -> take_snapshot_and_vote pid pl e c = Ok (u, c', es) ->
good c c' /\ same_aux c c'.
Proof.
intros HI H. unfold take_snapshot_and_vote, assert_not_paused in H. m_inv.
match goal with E : internal_advance_queue _ _ = _ |- _ => apply advance_good in E as (-> & G & A & _); [|done] end.
pose proof (gd_inv _ _ G) as HI1. call_expect p Hx.
destruct pl, (snapshot_and_state p); m_inv; done.
Qed.

Lemma snapshot_ok p s : proposal_ok p -> proposal_ok (Proposal.with_snapshot p s).
Proof. by intros []; split. Qed.

(** The snapshot stored for the answer [snap] of veNEAR. *)
Definition snapshot_of (now : TimestampNs) (snap : MerkleTreeSnapshot * VGlobalState) : result SnapshotAndState :=
gs ← GlobalState.update (global_state_from (snd snap)) now;
total ← Pool.total (total_venear_balance gs);
mret (mkSnapshotState (fst snap) now total (venear_growth_config gs)).

Lemma on_get_snapshot_good snap pid e c r c' es : VInv c -> on_get_snapshot snap pid e c = Ok (r, c', es) ->
exists s, snapshot_of (block_timestamp e) snap = Ok s /\ good_by (only pid (Snap s)) c c' /\ same_aux c c'.
Proof.
intros HI H. unfold on_get_snapshot, assert_not_paused in H. m_inv. call_expect p Hx. call_write W.
pose proof Hx as (q & _ & _ & Hid & Hok & _). bool_prop.
assert (status p = St.Sandbox \/ status p = St.Voting) as Hs.
{ match goal with H : _ || _ = true |- _ => apply orb_prop in H as [H|H]; bool_prop; auto end. }
eexists. split; [unfold snapshot_of; repeat match goal with H : _ = Ok _ |- _ => rewrite H; cbn end; reflexivity|].
eapply (write_good _ pid e); [exact HI|exact Hx| |by apply snapshot_ok|done| |exact W].
- split; auto; try done. right. split; [|eauto]. destruct (snapshot_and_state p); [|done]. exfalso.
match goal with H : ~ is_Some _ |- _ => apply H; eauto end.
- destruct Hs as [-> | ->]; done.
Qed.

(** ** Voting *)
Record cast (e : Env) (pid : ProposalId) (v : VoteOption.t) (proof : MerkleProof) (va : VAccount)
(c : Voting) (p p2 p3 : Proposal) (s : SnapshotAndState) (bal : NearToken) : Prop := mkCast {
ca_status : status p = St.Voting \/ status p = St.Sandbox /\ v = VoteOption.For;
ca_snapshot : snapshot_and_state p = Some s;
ca_proof : is_valid proof (snap_root (snapshot s)) (snap_length (snapshot s)) va = true;
ca_voter : account_id (account_from va) = predecessor_account_id e \/
 predecessor_account_id e = current_account_id e;
ca_balance : Account.total_balance (account_from va) (timestamp_ns s) (ss_growth_config s) = Ok bal;
ca_nonzero : bal <> 0;
ca_new : vote_records c !! (account_id (account_from va), pid) <> Some (VoteOption.to_u8 v);
ca_tally : exists p1, remove_previous p (vote_records c !! (account_id (account_from va), pid)) bal = Ok p1 /\
 add_new p1 (VoteOption.to_u8 v) bal = Ok p2;
ca_final : p3 = p2 \/
(flow p2 = FastTrack /\ status p2 = St.Sandbox /\ sandbox_threshold_met p2 = Ok true /\
exists start, next_voting_start_ns sandbox_feature (block_timestamp e) = Ok start /\
p3 = Proposal.with_status (Proposal.with_voting_start p2 (Some start)) St.Scheduled)
}.

Definition proposal_read (pid : ProposalId) (e : Env) (c : Voting) (p : Proposal) : Prop :=
exists q, stored c pid = Some q /\ update q (block_timestamp e) = Ok p /\
id p = pid /\ proposal_ok p /\ proposal_ok q /\ evolve q p /\ (status p = St.Queued <-> status q = St.Queued).

Lemma vote_parts pid v proof va e c u c' es : VInv c -> vote pid v proof va e c = Ok (u, c', es) ->
exists c1 p p2 p3 s bal, good c c1 /\ same_aux c c1 /\ v_paused c = false /\ proposal_read pid e c1 p /\
cast e pid v proof va c1 p p2 p3 s bal /\
internal_set_proposal_in (with_records c1
(<[(account_id (account_from va), pid) := VoteOption.to_u8 v]> (vote_records c1))) p3 = Ok c' /\
exists P, advanced (block_timestamp e) c c1 P.
Proof.
intros HI H. unfold vote, assert_not_paused in H. m_inv. bool_prop.
match goal with E : internal_advance_queue _ _ = Ok (_, ?x, _) |- _ =>
rename x into c1; apply advance_good in E as (-> & G & A & Hadv); [|done] end.
pose proof (gd_inv _ _ G) as HI1. call_expect p Hx. call_write W.
match goal with H : expect (snapshot_and_state p) _ = Ok ?x |- _ => rename x into sn; apply expect_Ok_inv in H as Hsn end.
match goal with H : Account.total_balance _ _ _ = Ok ?x |- _ => rename x into bal end.
match goal with H : add_new ?x _ _ = Ok ?y |- _ => rename x into p1; rename y into p2 end.
match type of W with internal_set_proposal_in _ ?x = _ => rename x into p3 end.
assert (s4 = c1 /\ (status p = St.Voting \/ status p = St.Sandbox /\ v = VoteOption.For)) as [-> Hst].
{ destruct (status p); m_inv; bool_prop; auto. }
assert (s13 = c1) as -> by (by destruct (vote_records c1 !! _); m_inv).
assert (s17 = c1) as -> by (by m_all).
assert (s19 = c1 /\ (a19 = true -> flow p2 = FastTrack /\ status p2 = St.Sandbox /\ sandbox_threshold_met p2 = Ok true))
as [-> Hmet].
{ destruct (_ && _) eqn:Eb in E19; m_inv; bool_prop; [split; [done|]; by intros -> | done]. }
assert (s20 = c1 /\ (p3 = p2 \/ a19 = true /\ exists start,
next_voting_start_ns sandbox_feature (block_timestamp e) = Ok start /\
p3 = Proposal.with_status (Proposal.with_voting_start p2 (Some start)) St.Scheduled)) as [-> Hp3].
{ destruct a19; m_inv; [|by auto]. split; [done|]. right. eauto. }
exists c1, p, p2, p3, sn, bal. split_and!; try done. split; try done.
- match goal with H : _ || _ = true |- _ => apply orb_prop in H as [H|H]; apply String.eqb_eq in H; auto end.
- eauto.
- destruct Hp3 as [->|[Ha (start & Hs & ->)]]; [by left|]. right. destruct (Hmet Ha) as (? & ? & ?). split_and!; eauto.
Qed.

Lemma upd_stats_length vs i f vs' : upd_stats vs i f = Ok vs' -> length vs' = length vs.
Proof. unfold upd_stats. intros H. res_inv. apply length_insert. Qed.

(** Counting a vote changes the counters only. *)
Lemma tally_shape p prev i bal p1 p2 : remove_previous p prev bal = Ok p1 -> add_new p1 i bal = Ok p2 ->
p2 = Proposal.with_votes p (votes p2) (total_votes p2) /\ length (votes p2) = length (votes p).
Proof.
unfold remove_previous, add_new. intros H1 H2. destruct prev; res_inv; cbn; (split; [done|]).
all: repeat match goal with H : upd_stats _ _ _ = Ok _ |- _ => apply upd_stats_length in H end; cbn in *; congruence.
Qed.

Lemma cast_evolve e pid v proof va c p p2 p3 s bal : proposal_ok p -> cast e pid v proof va c p p2 p3 s bal ->
evolve_by Votes p p3 /\ proposal_ok p3 /\ id p3 = id p /\ status p <> St.Queued /\ status p3 <> St.Queued /\
status p <> St.InProgress.
Proof.
intros Hok [H1 H2 H3 H4 H5 H6 H7 (p1 & Hr & Ha) H8].
destruct (tally_shape _ _ _ _ _ _ Hr Ha) as [Hp2 Hlen].
assert (rank (status p) < rank St.Timelock) as Hrank by (destruct H1 as [-> | [-> _]]; cbn; lia).
assert (evolve_by Votes p p2) as Hev2
by (rewrite Hp2; split; auto; try done; cbn in *; intros [[? ?]|]; [done | lia]).
assert (proposal_ok p2) as Hok2 by (rewrite Hp2; destruct Hok; split; try done; cbn; congruence).
assert (status p2 = status p) as Hs2 by (by rewrite Hp2).
assert (id p2 = id p) as Hid2 by (by rewrite Hp2).
destruct H8 as [->|(Hf & Hs & _ & start & _ & ->)].
- split_and!; try done; rewrite ?Hs2; destruct H1 as [E|[E _]]; rewrite E; done.
- split_and!; try done; [| |destruct H1 as [E|[E _]]; rewrite E; done..].
+ transitivity p2; [done|]. split; auto; try done; cbn.
right. rewrite Hs. cbn. lia.
+ pose proof (no_bond p2 Hok2 ltac:(by rewrite Hs) ltac:(by rewrite Hs) ltac:(by rewrite Hs)).
destruct Hok2 as [? ? ? ? (? & Hsb & ?) ? ? ? ? ?]. split; cbn; try done; try congruence; try lia; [|by intros [|[|]]].
split_and!; [congruence | intros _ _; apply Hsb; [done | by rewrite Hs] | eauto].
Qed.

Lemma with_records_inv c r : VInv c -> VInv (with_records c r).
Proof. by intros []; split. Qed.

Lemma vote_good pid v proof va e c u c' es : VInv c -> vote pid v proof va e c = Ok (u, c', es) -> good_by (only pid Votes) c c'.
Proof.
intros HI H. apply vote_parts in H as (c1 & p & p2 & p3 & s & bal & G & _ & _ & Hx & Hc & W & _); [|done].
pose proof Hx as (q & _ & _ & Hid & Hok & _). destruct (cast_evolve _ _ _ _ _ _ _ _ _ _ _ Hok Hc) as (A1 & A2 & A3 & A4 & A5 & A6).
eapply (write_good _ pid e) in W as [G2 _]; [| apply with_records_inv, (gd_inv _ _ G) | exact Hx | done | done | tauto | done].
eapply good_trans; [by apply good_weaken|]. destruct G2. by split.
Qed.

(** ** Approval *)
Record approved (k : VConfig.t) (e : Env) (p p3 : Proposal) : Prop := mkApproved {
ap_evolve : evolve_by Bond p p3;
ap_ok : proposal_ok p3;
ap_status : status p3 = St.Created;
ap_bond : bond_amount p3 = 0;
ap_rules : reviewer_id p3 = Some (predecessor_account_id e) /\
approval_time_ns p3 = Some (block_timestamp e) /\
quorum_threshold_bps p3 = VConfig.quorum_threshold_bps k /\ quorum_floor p3 = VConfig.quorum_floor k /\
match flow p with
| Classic => approval_threshold_bps p3 = VConfig.approval_threshold_bps k
| FastTrack => (approval_threshold_bps p3 = VConfig.simple_majority_threshold_bps k \/
        approval_threshold_bps p3 = VConfig.strong_majority_threshold_bps k) /\
       sandbox_duration_ns p3 = VConfig.sandbox_duration_ns k /\
       sandbox_threshold_bps p3 = VConfig.sandbox_threshold_bps k
end
}.

Lemma approval_ok p r t q f : bps_ok q -> proposal_ok p -> proposal_ok (Proposal.with_approval p r t q f).
Proof. intros ? []; split; try done; cbn; tauto. Qed.
Lemma approval_threshold_ok p b : bps_ok b -> proposal_ok p -> proposal_ok (Proposal.with_approval_threshold p b).
Proof. intros ? []; split; try done; cbn; tauto. Qed.
Lemma sandbox_ok p d t : bps_ok t -> proposal_ok p -> proposal_ok (Proposal.with_sandbox p d t).
Proof. intros ? []; split; try done; cbn; tauto. Qed.

Lemma with_bond_0 p : 0 <= bond_amount p ->
(if 0 <? bond_amount p then Proposal.with_bond p 0 else p) = Proposal.with_bond p 0.
Proof.
intros H. destruct (0 <? bond_amount p) eqn:E; bool_prop; [done|]. assert (bond_amount p = 0) as E0 by lia.
destruct p; cbn in *. by rewrite E0.
Qed.

Lemma approved_intro k e p p3 : k_ok k -> proposal_ok p -> status p = St.Created ->
let p2 := Proposal.with_bond (Proposal.with_approval p (Some (predecessor_account_id e)) (Some (block_timestamp e))
  (VConfig.quorum_threshold_bps k) (VConfig.quorum_floor k)) 0 in
match flow p with
| Classic => p3 = Proposal.with_approval_threshold p2 (VConfig.approval_threshold_bps k)
| FastTrack => exists m, p3 = Proposal.with_sandbox (Proposal.with_approval_threshold p2
(match m with MajorityType.Simple => VConfig.simple_majority_threshold_bps k
       | MajorityType.Strong => VConfig.strong_majority_threshold_bps k end))
(VConfig.sandbox_duration_ns k) (VConfig.sandbox_threshold_bps k)
end -> approved k e p p3.
Proof.
intros [_ (K1 & K2 & K3 & K4 & K5)] Hok Hs p2 H.
assert (proposal_ok p2) as Hok2
by (apply bond_ok; [by apply approval_ok | pose proof (po_bond p Hok); cbn; lia]).
destruct (flow p) eqn:Ef; [|destruct H as [m H]]; subst p3.
- split; cbn; rewrite ?Ef; try done; [split; auto; done | by apply approval_threshold_ok].
- split; cbn; rewrite ?Ef; try done; [split; auto; done | apply sandbox_ok, approval_threshold_ok; [done | by destruct m | done] |].
split_and!; try done. destruct m; auto.
Qed.

(** The bond goes to the treasury on approval. *)
Lemma approve_parts pid m e c r c' es : VInv c -> k_ok (v_config c) -> approve_proposal pid m e c = Ok (r, c', es) ->
exists c1 p p3, good c c1 /\ same_aux c c1 /\ (exists P, advanced (block_timestamp e) c c1 P) /\
proposal_read pid e c1 p /\ status p = St.Created /\ approved (v_config c) e p p3 /\
attached_deposit e = 1 /\ v_paused c = false /\ predecessor_account_id e ∈ VConfig.reviewer_ids (v_config c) /\
(0 < bond_amount p -> VTransfer (VConfig.treasury_account_id (v_config c)) (bond_amount p) ∈ es) /\
if is_len (active_proposals c1) <? VConfig.max_active_proposals (v_config c)
then internal_set_proposal_in c1 (activate p3 (block_timestamp e)) = Ok c' /\
GetSnapshot (VConfig.venear_account_id (v_config c)) pid ∈ es
else exists c2, internal_set_proposal_in c1 (Proposal.with_status p3 St.Queued) = Ok c2 /\
c' = with_pending c2 (pending_queue c2 ++ [pid]).
Proof.
intros HI Hkc H. unfold approve_proposal, assert_not_paused, assert_called_by_reviewer in H. m_inv. bool_prop.
match goal with E : internal_advance_queue _ _ = Ok (_, ?x, _) |- _ =>
rename x into c1; apply advance_good in E as (-> & G & A & Hadv); [|done] end.
pose proof (gd_inv _ _ G) as HI1. call_expect p Hx. pose proof Hx as (q & _ & _ & Hid & Hok & _).
pose proof A as (Hk & _). rewrite Hk in *.
match goal with H : status p = ProposalStatus.Created |- _ => rename H into Hs end.
rewrite with_bond_0 in * by (cbn; apply (po_bond p Hok)).
match type of H with _ e ?x = _ => rename x into c1' end.
match goal with E : (match flow _ with _ => _ end) _ ?x = Ok (?y, c1', _) |- _ =>
rename x into c1''; rename y into p3; rename E into Ep3 end.
match goal with E : (if 0 <? _ then _ else _) e c1 = Ok (_, c1'', _) |- _ => rename E into Eb end.
assert (c1' = c1'' /\ approved (v_config c) e p p3) as [-> Hap].
{ cbn [flow Proposal.with_bond Proposal.with_approval] in Ep3. destruct (flow p) eqn:Ef; m_inv; (split; [done|]);
apply approved_intro; try done; rewrite Ef; [done | eauto]. }
assert (c1'' = c1 /\ (0 < bond_amount p -> es9 = [VTransfer (VConfig.treasury_account_id (v_config c)) (bond_amount p)]))
as [-> Hes].
{ destruct (0 <? _) eqn:Eq in Eb; bool_prop; m_inv; (split; [done|]); cbn in *; [done | lia]. }
exists c1, p, p3. split_and!; try done.
- intros Hb. rewrite (Hes Hb). set_solver.
- destruct (is_len _ <? _) eqn:Ea; m_inv; call_write W; [split; [done | set_solver]|]. eauto.
Qed.

Lemma approve_good pid m e c r c' es : VInv c -> k_ok (v_config c) -> approve_proposal pid m e c = Ok (r, c', es) ->
good_by (only pid Bond) c c' /\ same_aux c c'.
Proof.
intros HI Hkc H. apply approve_parts in H as (c1 & p & p3 & G & A & _ & Hx & Hs & [Hev Hok3 Hs3 Hb3 _] & _ & _ & _ & _ & H); [|done..].
pose proof Hx as (q & Hq & Hu & Hid & Hok & Hokq & Hevq & Hqq). pose proof (gd_inv _ _ G) as HI1.
assert (id p3 = pid) as Hid3 by (rewrite (ev_id _ _ Hev); done).
destruct (_ <? _).
- destruct H as [W _]. eapply (write_good _ pid e) in W as [G2 A2]; [|exact HI1|exact Hx| | | |by rewrite Hs].
+ split; [by eapply good_trans; [apply good_weaken|] | unfold same_aux in *; intuition congruence].
+ transitivity p3; [done|]. apply evolve_weaken, activate_evolve. auto.
+ apply activate_ok; auto.
+ rewrite Hs. unfold activate. by destruct (flow p3).
- destruct H as (c2 & W & ->). pose proof W as W'.
apply set_proposal_inv in W' as (G1 & _ & _ & _ & G4 & G5 & G6 & G7 & G8 & G9). cbn [id Proposal.with_status] in *.
assert (pid ∉ pending_queue c1) as Hnin.
{ intros (x & Hx' & Hxs)%(vi_pending c1 HI1). replace x with q in * by congruence. apply Hqq in Hxs. congruence. }
split; [|unfold same_aux in *; cbn; intuition congruence]. eapply good_trans; [by apply good_weaken|]. split.
+ eapply (write_inv c1 (Proposal.with_status p3 St.Queued) q); [done | by rewrite <- Hq; cbn; rewrite Hid3 | | exact W | |].
* apply with_status_ok; try done; [by intros [|] | lia | auto].
* rewrite G9. apply NoDup_app. split_and!; [apply HI1 | | apply NoDup_singleton].
intros x Hx' ->%list_elem_of_singleton. done.
* intros x. rewrite G9, elem_of_app, list_elem_of_singleton. cbn. rewrite Hid3. case_decide; [subst|]; naive_solver.
+ intros x r0 Hr. unfold stored. cbn. fold (stored c2 x). rewrite G1. unfold only. rewrite Hid3. case_decide as E.
* eexists. split; [done|]. rewrite E in Hr. replace r0 with q by congruence.
transitivity p; [by apply evolve_weaken|]. transitivity p3; [done|]. apply evolve_weaken, evolve_status; [left; rewrite Hs3; cbn; lia | done].
* exists r0. split; [done | reflexivity].
+ intros x r0 Hr Hs0. unfold stored. cbn. fold (stored c2 x). rewrite G1. case_decide as E; [|done].
rewrite E, Hid3 in Hr. replace r0 with q in * by congruence. exfalso.
rewrite update_settled in Hu by (by rewrite Hs0). injection Hu as <-. congruence.
Qed.

(** ** Creation *)

Lemma new_proposal_ok e k pid acts fl p : k_ok k -> new_proposal e k pid acts fl = Ok p ->
proposal_ok p /\ id p = pid /\ status p = St.Created /\ proposer_id p = predecessor_account_id e /\
votes p = replicate 3 VoteStats.default /\ total_votes p = VoteStats.default /\ snapshot_and_state p = None /\
flow p = fl /\ actions p = acts /\
bond_amount p = match fl with Classic => 0 | FastTrack => VConfig.bond_amount k end.
Proof.
intros [Hk _] H. unfold new_proposal in H. destruct fl; res_inv; split_and!; try done.
all: split; cbn; try done; try (by split_and!; intuition congruence); try lia; auto.
Qed.

Lemma create_parts md acts fl e c r c' es : VInv c -> k_ok (v_config c) ->
create_proposal md acts fl e c = Ok (r, c', es) ->
exists p, new_proposal e (v_config c) (vec_len (proposals c)) acts fl = Ok p /\ r = vec_len (proposals c) /\
c' = mkVoting (v_config c) (proposals c ++ [Current p]) (proposal_metadata c ++ [MCurrent md])
(vote_records c) (v_paused c) (pending_queue c) (active_proposals c).
Proof.
intros HI Hk H. unfold create_proposal, assert_not_paused in H. m_inv.
match goal with H : new_proposal _ _ _ _ _ = Ok ?x |- _ => exists x; split; [done|]; split; [done|] end.
match goal with H : (if _ then _ else _) _ _ = Ok _ |- _ => destruct (_ <? _) in H; m_inv end; done.
Qed.

Lemma vec_get_app {A} (l : list A) x i :
vec_get (l ++ [x]) i = if decide (i = vec_len l) then Some x else vec_get l i.
Proof.
unfold vec_get, vec_len. destruct (0 <=? i) eqn:E; bool_prop.
- case_decide as Hd.
+ subst. rewrite Nat2Z.id. by rewrite lookup_app_r, Nat.sub_diag.
+ destruct (Nat.lt_ge_cases (Z.to_nat i) (length l)).
* by rewrite lookup_app_l.
* rewrite !lookup_ge_None_2; [done | done | rewrite length_app; cbn; lia].
- case_decide; [lia | done].
Qed.

Lemma create_good md acts fl e c r c' es : VInv c -> k_ok (v_config c) ->
create_proposal md acts fl e c = Ok (r, c', es) -> good c c'.
Proof.
intros HI Hk H. apply create_parts in H as (p & Hp & _ & ->); [|done..].
apply new_proposal_ok in Hp as (Hok & Hid & Hs & _); [|done].
assert (stored c (vec_len (proposals c)) = None) as Hnew.
{ unfold stored, vec_get, vec_len. destruct (0 <=? _); [|done]. by rewrite lookup_ge_None_2 by lia. }
assert (forall pid, stored (mkVoting (v_config c) (proposals c ++ [Current p]) (proposal_metadata c ++ [MCurrent md])
(vote_records c) (v_paused c) (pending_queue c) (active_proposals c)) pid =
if decide (pid = vec_len (proposals c)) then Some p else stored c pid) as Hst.
{ intros pid. unfold stored. cbn. rewrite vec_get_app. by case_decide. }
split.
- split; cbn.
+ intros pid v. rewrite vec_get_app. case_decide; [|apply (vi_current c HI)]. intros [= <-]. exists p. subst. done.
+ intros pid. rewrite Hst. case_decide as E; [|apply (vi_active c HI)]. rewrite (vi_active c HI). subst.
rewrite Hnew. split; [naive_solver|]. intros (x & [= <-] & Hx). by rewrite Hs in Hx.
+ intros pid. rewrite Hst. case_decide as E; [|apply (vi_pending c HI)]. rewrite (vi_pending c HI). subst.
rewrite Hnew. split; [naive_solver|]. intros (x & [= <-] & Hx). by rewrite Hs in Hx.
+ apply HI.
+ rewrite !length_app. cbn. by rewrite (vi_metadata c HI).
- intros pid q Hq. rewrite Hst. case_decide; [congruence|]. exists q. split; [done | reflexivity].
- intros pid q Hq _. rewrite Hst. case_decide; [congruence | done].
Qed.

(** ** The execution callback *)
Lemma on_execute_parts pid e c u c' es : VInv c -> on_execute_proposal pid e c = Ok (u, c', es) ->
(exists p, stored c pid = Some p /\ status p = St.InProgress) ->
VInv c' /\ evolves c c' /\ same_aux c c' /\
(forall x p, x <> pid -> stored c x = Some p -> status p = St.InProgress -> stored c' x = Some p).
Proof.
intros HI H (p0 & Hp0 & Hs0). unfold on_execute_proposal in H. m_inv.
match goal with E : internal_advance_queue _ _ = Ok (_, ?x, _) |- _ =>
rename x into c1; apply advance_good in E as (-> & G & A & _); [|done] end.
pose proof (gd_inv _ _ G) as HI1. call_expect p Hx. call_write W.
pose proof Hx as (q & Hq & Hu & Hid & Hok & Hokq & Hev & Hqq).
pose proof (gd_keeps _ _ G pid p0 Hp0 Hs0) as Hk. replace q with p0 in * by congruence.
rewrite update_settled in Hu by (by rewrite Hs0). injection Hu as <-.
pose proof (set_proposal_inv _ _ _ W) as (G1 & _ & _ & _ & G4 & G5 & G6 & G7 & G8 & _). cbn [id Proposal.with_status] in *.
set (s' := if forallb _ _ then ProposalStatus.Succeeded else ProposalStatus.Failed) in *.
assert (terminal s' = true /\ s' <> St.Slashed /\ s' <> St.Expired /\ s' <> St.Rejected /\ s' <> St.ApprovalLegacy /\
s' <> St.FinishLegacy /\ s' <> St.Queued /\ rank s' = 8) as (?&?&?&?&?&?&?&?)
by (unfold s'; by destruct (forallb _ _)).
split_and!.
- eapply (write_inv_same c1 (Proposal.with_status p0 s') p0); [done | cbn; by rewrite Hid | | | exact W].
+ apply decided_ok; try done. apply no_bond; [done|by rewrite Hs0..].
+ cbn. rewrite Hs0. naive_solver.
- transitivity c1; [apply G|]. eapply (evolves_only _ (id p0)), (write_evolves Quiet c1 (Proposal.with_status p0 s') p0); [cbn; by rewrite Hid | | exact W].
apply evolve_status; rewrite Hs0; [left; cbn; lia | by left].
- unfold same_aux in *. intuition congruence.
- intros x r Hne Hr Hs. rewrite G1. rewrite decide_False by congruence. by apply (gd_keeps _ _ G).
Qed.
End ops.
