(* ===== verification/VotingCalls.v ===== *)
(** * Executions of the voting contract

    The state-changing calls as data, the states reachable by them, and the
    invariant of reachable states. *)
From stdpp Require Import base gmap strings list.
From Stdlib Require Import ZArith Lia.
From S2P Require Import Prelude.
From S2P Require Import Near.
From S2P Require Import Common.
From S2P Require Import CommonFacts.
From S2P Require Import MerkleTree.
From S2P Require Import MerkleFacts.
From S2P Require Import VotingTypes.
From S2P Require Import VotingContract.
From S2P Require Import VotingFacts.
From S2P Require Import VotingInvariant.
From S2P Require Import VotingQueue.
From S2P Require Import VotingOps.

Local Open Scope Z_scope.

(** ** The state-changing calls *)
Inductive VSetting : Type :=
| SetVenearAccountId (v : AccountId)
| SetReviewerIds (v : list AccountId)
| SetClassicVotingDuration (sec : Z)
| SetFastTrackVotingDuration (sec : Z)
| SetBaseProposalFee (v : NearToken)
| VProposeNewOwner (v : option AccountId)
| SetVotingGuardians (v : list AccountId)
| SetCouncilIds (v : list AccountId)
| SetTimelockDuration (sec : Z)
| SetClassicProposalExpiration (sec : Z)
| SetFastTrackProposalExpiration (sec : Z)
| SetQuorumThresholdBps (v : Z)
| SetQuorumFloor (v : NearToken)
| SetApprovalThresholdBps (v : Z)
| SetBondAmount (v : NearToken)
| SetTreasuryAccountId (v : AccountId)
| SetSimpleMajorityThresholdBps (v : Z)
| SetStrongMajorityThresholdBps (v : Z)
| SetSandboxDuration (sec : Z)
| SetSandboxThresholdBps (v : Z).

Inductive VCall : Type :=
| CreateProposal (metadata : ProposalMetadata) (acts : option (list ProposalAction)) (fl : ProposalFlow)
| CastVote (pid : ProposalId) (v : VoteOption.t) (proof : MerkleProof) (v_account : VAccount)
| TakeSnapshotAndVote (pid : ProposalId) (payload : option VotePayload)
| ApproveProposal (pid : ProposalId) (majority : option MajorityType.t)
| RejectProposal (pid : ProposalId)
| VetoProposal (pid : ProposalId)
| NoVetoProposal (pid : ProposalId)
| SlashProposal (pid : ProposalId)
| OnGetSnapshot (snap : MerkleTreeSnapshot * VGlobalState) (pid : ProposalId)
| ExecuteProposal (pid : ProposalId)
| OnExecuteProposal (pid : ProposalId)
| ClaimBond (pid : ProposalId)
| AdvanceQueue
| Setting (x : VSetting)
| VAcceptOwnership
| SetMaxActiveProposals (v : Z)
| VPause
| VUnpause.

(** The exported name of the method a call runs. *)
Definition setting_method (x : VSetting) : string :=
match x with
| SetVenearAccountId _ => "set_venear_account_id"
| SetReviewerIds _ => "set_reviewer_ids"
| SetClassicVotingDuration _ => "set_classic_voting_duration"
| SetFastTrackVotingDuration _ => "set_fast_track_voting_duration"
| SetBaseProposalFee _ => "set_base_proposal_fee"
| VProposeNewOwner _ => "propose_new_owner_account_id"
| SetVotingGuardians _ => "set_guardians"
| SetCouncilIds _ => "set_council_ids"
| SetTimelockDuration _ => "set_timelock_duration"
| SetClassicProposalExpiration _ => "set_classic_proposal_expiration"
| SetFastTrackProposalExpiration _ => "set_fast_track_proposal_expiration"
| SetQuorumThresholdBps _ => "set_quorum_threshold_bps"
| SetQuorumFloor _ => "set_quorum_floor"
| SetApprovalThresholdBps _ => "set_approval_threshold_bps"
| SetBondAmount _ => "set_bond_amount"
| SetTreasuryAccountId _ => "set_treasury_account_id"
| SetSimpleMajorityThresholdBps _ => "set_simple_majority_threshold_bps"
| SetStrongMajorityThresholdBps _ => "set_strong_majority_threshold_bps"
| SetSandboxDuration _ => "set_sandbox_duration"
| SetSandboxThresholdBps _ => "set_sandbox_threshold_bps"
end.

Definition vmethod (x : VCall) : string :=
match x with
| CreateProposal _ _ _ => "create_proposal"
| CastVote _ _ _ _ => "vote"
| TakeSnapshotAndVote _ _ => "take_snapshot_and_vote"
| ApproveProposal _ _ => "approve_proposal"
| RejectProposal _ => "reject_proposal"
| VetoProposal _ => "veto_proposal"
| NoVetoProposal _ => "noveto_proposal"
| SlashProposal _ => "slash_proposal"
| OnGetSnapshot _ _ => "on_get_snapshot"
| ExecuteProposal _ => "execute_proposal"
| OnExecuteProposal _ => "on_execute_proposal"
| ClaimBond _ => "claim_bond"
| AdvanceQueue => "advance_queue"
| Setting s => setting_method s
| VAcceptOwnership => "accept_ownership"
| SetMaxActiveProposals _ => "set_max_active_proposals"
| VPause => "pause"
| VUnpause => "unpause"
end.

Lemma vmethod_callback x : vmethod x = "on_execute_proposal" -> exists pid, x = OnExecuteProposal pid.
Proof. destruct x as [| | | | | | | | | | | | |s| | | |]; try discriminate; [eauto | destruct s; discriminate]. Qed.

Section theorems.
Context `{IS : IterableSet} `{HC : Crypto} `{HB : Borsh VAccount} `{VT : !VotingHost} `{!IterableSetLaws IS}.

Definition run_setting (x : VSetting) : M VEffect Voting unit :=
match x with
| SetVenearAccountId v => set_venear_account_id v
| SetReviewerIds v => set_reviewer_ids v
| SetClassicVotingDuration v => set_classic_voting_duration v
| SetFastTrackVotingDuration v => set_fast_track_voting_duration v
| SetBaseProposalFee v => set_base_proposal_fee v
| VProposeNewOwner v => propose_new_owner_account_id v
| SetVotingGuardians v => set_guardians v
| SetCouncilIds v => set_council_ids v
| SetTimelockDuration v => set_timelock_duration v
| SetClassicProposalExpiration v => set_classic_proposal_expiration v
| SetFastTrackProposalExpiration v => set_fast_track_proposal_expiration v
| SetQuorumThresholdBps v => set_quorum_threshold_bps v
| SetQuorumFloor v => set_quorum_floor v
| SetApprovalThresholdBps v => set_approval_threshold_bps v
| SetBondAmount v => set_bond_amount v
| SetTreasuryAccountId v => set_treasury_account_id v
| SetSimpleMajorityThresholdBps v => set_simple_majority_threshold_bps v
| SetStrongMajorityThresholdBps v => set_strong_majority_threshold_bps v
| SetSandboxDuration v => set_sandbox_duration v
| SetSandboxThresholdBps v => set_sandbox_threshold_bps v
end.

Definition vrun (x : VCall) : M VEffect Voting unit :=
match x with
| CreateProposal m a f => create_proposal m a f ;; mret tt
| CastVote pid v proof va => vote pid v proof va
| TakeSnapshotAndVote pid pl => take_snapshot_and_vote pid pl
| ApproveProposal pid m => approve_proposal pid m ;; mret tt
| RejectProposal pid => reject_proposal pid
| VetoProposal pid => veto_proposal pid
| NoVetoProposal pid => noveto_proposal pid
| SlashProposal pid => slash_proposal pid
| OnGetSnapshot s pid => on_get_snapshot s pid ;; mret tt
| ExecuteProposal pid => execute_proposal pid
| OnExecuteProposal pid => on_execute_proposal pid
| ClaimBond pid => claim_bond pid
| AdvanceQueue => advance_queue
| Setting s => run_setting s
| VAcceptOwnership => accept_ownership
| SetMaxActiveProposals v => set_max_active_proposals v
| VPause => pause
| VUnpause => unpause
end.

(** The argument types of the calls: [Bps], [NearToken], [u32] and
[CryptoHash] values in their ranges. *)
Definition vcall_ok (x : VCall) : Prop :=
match x with
| Setting (SetBondAmount v) => 0 <= v
| Setting (SetQuorumThresholdBps v) | Setting (SetApprovalThresholdBps v)
| Setting (SetSimpleMajorityThresholdBps v) | Setting (SetStrongMajorityThresholdBps v)
| Setting (SetSandboxThresholdBps v) => bps_ok v
| CastVote _ _ proof _ => proof_ok proof
| _ => True
end.

(** Executions whose callback is still to come. *)
Definition inflight_after (x : VCall) (l : list ProposalId) : list ProposalId :=
match x with
| ExecuteProposal pid => pid :: l
| OnExecuteProposal pid => filter (fun y => y <> pid) l
| _ => l
end.

(** The execution callback as an execution schedules it: for a proposal whose
execution is in flight, once. An action of an executed proposal can also call
[on_execute_proposal] of the contract, for any proposal: [VotingOutcome] has
the receipts of executions with their actions, and the proof that every run in
which no executed proposal has such an action is one of these. *)
Definition callback_ok (x : VCall) (l : list ProposalId) : Prop :=
match x with OnExecuteProposal pid => pid ∈ l | _ => True end.

Inductive vreachable : list ProposalId -> Voting -> Prop :=
| vreach_new k : k_ok k -> vreachable [] (new_voting k)
| vreach_call l c x e c' es : vreachable l c -> vcall_ok x -> callback_ok x l ->
vrun x e c = Ok (tt, c', es) -> vreachable (inflight_after x l) c'.

Record RInv (l : list ProposalId) (c : Voting) : Prop := mkRInv {
ri_inv : VInv c;
ri_config : k_ok (v_config c);
ri_inflight : forall pid, pid ∈ l -> exists p, stored c pid = Some p /\ status p = St.InProgress
}.

Ltac vsetter_inv H :=
unfold set_venear_account_id, set_reviewer_ids, set_classic_voting_duration, set_fast_track_voting_duration,
set_base_proposal_fee, propose_new_owner_account_id, set_guardians, set_council_ids, set_timelock_duration,
set_classic_proposal_expiration, set_fast_track_proposal_expiration, set_quorum_threshold_bps, set_quorum_floor,
set_approval_threshold_bps, set_bond_amount, set_treasury_account_id, set_simple_majority_threshold_bps,
set_strong_majority_threshold_bps, set_sandbox_duration, set_sandbox_threshold_bps, owner_update, owner_update_sec,
assert_owner in H; m_inv.

Lemma setting_inv x e c c' es : run_setting x e c = Ok (tt, c', es) ->
exists k, c' = with_v_config c k /\ attached_deposit e = 1 /\
predecessor_account_id e = VConfig.owner_account_id (v_config c) /\
VConfig.owner_account_id k = VConfig.owner_account_id (v_config c) /\
(vcall_ok (Setting x) -> k_ok (v_config c) -> k_ok k).
Proof.
intros H. destruct x; cbn [run_setting] in H; vsetter_inv H;
match goal with H : String.eqb _ _ = true |- _ => apply String.eqb_eq in H end;
eexists; split_and!; try done; cbn; intros ? [? (?&?&?&?&?)]; split; cbn; split_and?; done.
Qed.

Lemma config_good c k : VInv c -> good_by (fun _ => Quiet) c (with_v_config c k).
Proof.
intros []. split; [by split | intros pid p Hp; exists p; split; [done | reflexivity] | by intros pid p].
Qed.

Lemma paused_good c b : VInv c -> good_by (fun _ => Quiet) c (with_v_paused c b).
Proof.
intros []. split; [by split | intros pid p Hp; exists p; split; [done | reflexivity] | by intros pid p].
Qed.

(** The proposal a call counts a vote on, takes the bond of, or stores a
snapshot for. *)
Definition touch (e : Env) (x : VCall) : ProposalId -> kind :=
match x with
| CastVote pid _ _ _ => only pid Votes
| ApproveProposal pid _ | SlashProposal pid | ClaimBond pid => only pid Bond
| OnGetSnapshot snap pid =>
match snapshot_of (block_timestamp e) snap with Ok s => only pid (Snap s) | Panic _ => fun _ => Quiet end
| _ => fun _ => Quiet
end.

Lemma vrun_good x e c c' es : VInv c -> k_ok (v_config c) -> vcall_ok x -> vrun x e c = Ok (tt, c', es) ->
(forall pid, x <> OnExecuteProposal pid) -> good_by (touch e x) c c' /\ k_ok (v_config c').
Proof.
intros HI Hk Hx H Hne. destruct x; cbn [vrun] in H; m_inv; try (by destruct (Hne pid)).
- pose proof E as E'. apply create_parts in E' as (p & _ & _ & ->); [|done..]. split; [by eapply create_good | done].
- split; [by eapply vote_good|]. apply vote_parts in H as (c1 & p & p2 & p3 & s & bal & _ & (Hk1 & _) & _ & _ & _ & W & _); [|done].
apply set_proposal_inv in W as (_ & _ & _ & _ & _ & -> & _). cbn. by rewrite Hk1.
- apply take_snapshot_good in H as [G (-> & _)]; done.
- apply approve_good in E as [G (-> & _)]; done.
- apply reject_good in H as [G (-> & _)]; done.
- apply veto_good in H as [G (-> & _)]; done.
- apply noveto_good in H as [G (-> & _)]; done.
- apply slash_good in H as [G (-> & _)]; done.
- apply on_get_snapshot_good in E as (s0 & Hs & G & (-> & _)); [|done]. cbn [touch]. rewrite Hs. done.
- apply execute_good in H as (G & (-> & _) & _); done.
- apply claim_good in H as [G (-> & _)]; done.
- unfold advance_queue, assert_not_paused in H. m_inv. apply advance_good in H as (_ & G & (-> & _) & _); done.
- apply setting_inv in H as (k & -> & _ & _ & _ & Hok). split; [by apply config_good | by apply Hok].
- unfold accept_ownership in H. m_inv. split; [by apply config_good | destruct Hk; by split].
- unfold set_max_active_proposals, assert_owner in H. m_inv.
apply advance_good in H as (_ & G & (Hc & _) & _); [|by eapply gd_inv, config_good].
split; [|rewrite Hc; destruct Hk; by split]. eapply good_trans; [|exact G]. by apply config_good.
- unfold pause, assert_guardian in H. m_inv. split; [by apply paused_good | done].
- unfold unpause, assert_owner in H. m_inv. split; [by apply paused_good | done].
Qed.

Lemma new_voting_inv k : VInv (new_voting k).
Proof.
split; cbn.
- intros pid v [_ H]%vec_get_Some. by rewrite lookup_nil in H.
- intros pid. rewrite is_new_iter. unfold stored, vec_get. cbn. destruct (0 <=? pid); rewrite ?lookup_nil; set_solver.
- intros pid. unfold stored, vec_get. cbn. destruct (0 <=? pid); rewrite ?lookup_nil; set_solver.
- constructor.
- done.
Qed.

Lemma callback_dec x : (exists pid, x = OnExecuteProposal pid) \/ (forall pid, x <> OnExecuteProposal pid).
Proof. destruct x; eauto. Qed.

Lemma vrun_step x e c c' es l : RInv l c -> vcall_ok x -> callback_ok x l -> vrun x e c = Ok (tt, c', es) ->
RInv (inflight_after x l) c' /\ evolves_by (touch e x) c c'.
Proof.
intros [HI Hk Hl] Hx Hcb H. destruct (callback_dec x) as [[pid ->]|Hne].
- cbn in H, Hcb |- *. apply on_execute_parts in H as (A1 & A2 & (A3 & _) & A4); [|done|by apply Hl].
split; [|done]. split; [done | by rewrite A3 |].
intros y [Hy1 Hy2]%list_elem_of_filter. destruct (Hl y Hy2) as (p & Hp & Hs). eauto.
- pose proof H as H'. apply vrun_good in H' as [G Hk']; [|done..]. split; [|apply G].
split; [apply G | done |].
assert (forall y, y ∈ l -> exists p, stored c' y = Some p /\ status p = St.InProgress) as Hkeep.
{ intros y Hy. destruct (Hl y Hy) as (p & Hp & Hs). exists p. split; [|done]. by apply (gd_keeps _ _ _ G). }
destruct x; try exact Hkeep; [|by destruct (Hne pid)].
intros y [->|Hy]%elem_of_cons; [|by apply Hkeep]. by apply execute_good in H as (_ & _ & ?).
Qed.

Lemma vreachable_inv l c : vreachable l c -> RInv l c.
Proof.
induction 1 as [k Hk | l c x e c' es H IH Hx Hcb Hr].
- split; [apply new_voting_inv | done | by intros pid ?%elem_of_nil].
- by eapply vrun_step in Hr as [? _].
Qed.

(** ** What a call other than a vote does to votes and proposals *)
Lemma stored_dom c pid : VInv c -> is_Some (stored c pid) <-> 0 <= pid < vec_len (proposals c).
Proof.
intros HI. unfold vec_len. split.
- intros [p Hp]. unfold stored in Hp. destruct (vec_get (proposals c) pid) as [v|] eqn:E; [|done].
apply vec_get_Some in E as [? E%lookup_lt_Some]. lia.
- intros [H1 H2]. destruct (lookup_lt_is_Some_2 (proposals c) (Z.to_nat pid)) as [v Hv]; [lia|].
assert (vec_get (proposals c) pid = Some v) as E by (by apply vec_get_Some).
destruct (vi_current c HI pid v E) as (p & -> & _). exists p. unfold stored. by rewrite E.
Qed.

Definition quiet_call (x : VCall) : bool := match x with CastVote _ _ _ _ => false | _ => true end.

Lemma touch_votes e x pid : quiet_call x = true -> touch e x pid <> Votes /\ touch e x pid <> Any.
Proof.
destruct x; try done; cbn; intros _; unfold only; try (by case_decide).
destruct (snapshot_of _ _); [by case_decide | done].
Qed.

Definition is_create (x : VCall) : bool := match x with CreateProposal _ _ _ => true | _ => false end.

Lemma vrun_aux x e c c' es l : RInv l c -> callback_ok x l -> vrun x e c = Ok (tt, c', es) ->
is_create x = false -> quiet_call x = true ->
vote_records c' = vote_records c /\ length (proposals c') = length (proposals c).
Proof.
intros [HI Hk Hl] Hcb H Hc Hq. destruct x; try discriminate; cbn [vrun] in H; m_inv.
- apply take_snapshot_good in H as [_ (_ & _ & ? & _ & ?)]; done.
- apply approve_good in E as [_ (_ & _ & ? & _ & ?)]; done.
- apply reject_good in H as [_ (_ & _ & ? & _ & ?)]; done.
- apply veto_good in H as [_ (_ & _ & ? & _ & ?)]; done.
- apply noveto_good in H as [_ (_ & _ & ? & _ & ?)]; done.
- apply slash_good in H as [_ (_ & _ & ? & _ & ?)]; done.
- apply on_get_snapshot_good in E as (_ & _ & _ & (_ & _ & ? & _ & ?)); done.
- apply execute_good in H as (_ & (_ & _ & ? & _ & ?) & _); done.
- apply on_execute_parts in H as (_ & _ & (_ & _ & ? & _ & ?) & _); [done | done | by apply Hl].
- apply claim_good in H as [_ (_ & _ & ? & _ & ?)]; done.
- unfold advance_queue, assert_not_paused in H. m_inv. apply advance_good in H as (_ & _ & (_ & _ & ? & _ & ?) & _); done.
- by apply setting_inv in H as (k & -> & _).
- unfold accept_ownership in H. by m_inv.
- unfold set_max_active_proposals, assert_owner in H. m_inv.
apply advance_good in H as (_ & _ & (_ & _ & ? & _ & ?) & _); [done|by eapply gd_inv, config_good].
- unfold pause, assert_guardian in H. by m_inv.
- unfold unpause, assert_owner in H. by m_inv.
Qed.

(** Where a stored proposal of the next state comes from. *)
Lemma vrun_origin x e c c' es l pid p' : RInv l c -> vcall_ok x -> callback_ok x l ->
vrun x e c = Ok (tt, c', es) -> stored c' pid = Some p' ->
(exists p, stored c pid = Some p /\ evolve_by (touch e x pid) p p') \/
(stored c pid = None /\ exists md acts fl, x = CreateProposal md acts fl /\ pid = vec_len (proposals c) /\
new_proposal e (v_config c) pid acts fl = Ok p').
Proof.
intros HR Hx Hcb H Hp'. destruct (vrun_step _ _ _ _ _ _ HR Hx Hcb H) as [HR' Hev].
pose proof (ri_inv _ _ HR) as HI. pose proof (ri_inv _ _ HR') as HI'.
destruct (stored c pid) as [p|] eqn:Ep.
{ left. exists p. split; [done|]. destruct (Hev pid p Ep) as (q & Hq & ?). by replace p' with q by congruence. }
right. split; [done|]. assert (0 <= pid < vec_len (proposals c')) as Hd by (apply stored_dom; eauto).
assert (~ 0 <= pid < vec_len (proposals c)) as Hd0.
{ intros Hd0%stored_dom; [|done]. rewrite Ep in Hd0. by destruct Hd0. }
destruct (is_create x) eqn:Ec.
- destruct x; try discriminate. cbn in H. m_inv. apply create_parts in E as (p & Hn & -> & ->); [|done|apply HR].
unfold vec_len in *. cbn in Hd. rewrite length_app in Hd. cbn in Hd.
assert (pid = Z.of_nat (length (proposals c))) as -> by lia.
do 3 eexists. split_and!; [done | done |]. rewrite Hn. f_equal.
unfold stored in Hp'. cbn in Hp'. rewrite vec_get_app in Hp'. unfold vec_len in Hp'.
rewrite decide_True in Hp' by done. congruence.
- destruct (quiet_call x) eqn:Eq.
+ apply vrun_aux with (l := l) in H as [_ H]; [|done..]. unfold vec_len in *. rewrite H in Hd. lia.
+ destruct x; try discriminate. cbn in H. apply vote_parts in H as (c1 & q & p2 & p3 & s & bal & _ & A & _ & _ & _ & W & _); [|done].
apply set_proposal_inv in W as (_ & _ & _ & _ & W & _). unfold vec_len in *.
destruct A as (_ & _ & _ & _ & A). cbn in W. rewrite W, A in Hd. lia.
Qed.
End theorems.
