(* ===== verification/VotingTally.v ===== *)
(** * The tally of a proposal

    The counters of a proposal against the recorded votes: every counter is
    the number, and the voting power, of the voters whose recorded vote is
    that option. The power of a voter is read from the accounts the snapshot
    commits to. *)
From stdpp Require Import base gmap strings list.
From Stdlib Require Import ZArith Lia.
From S2P Require Import Prelude.
From S2P Require Import Near.
From S2P Require Import Common.
From S2P Require Import CommonFacts.
From S2P Require Import MerkleTree.
From S2P Require Import MerkleFacts.
From S2P Require Import VotingTypes.
From S2P Require Import VotingContract.
From S2P Require Import VotingFacts.
From S2P Require Import VotingInvariant.
From S2P Require Import VotingQueue.
From S2P Require Import VotingOps.
From S2P Require Import VotingCalls.

Local Open Scope Z_scope.

Section tally.
Context `{IS : IterableSet} `{HC : Crypto} `{HB : Borsh VAccount} `{VT : !VotingHost} `{!IterableSetLaws IS}.

Abbreviation Records := (gmap (AccountId * ProposalId) Z).
Implicit Types (w : AccountId -> Z) (pid : ProposalId) (g : VoteStats -> Z) (p : Proposal) (a : AccountId) (R : Records).

(** ** Sums over the recorded votes of one proposal *)
Definition tally_sum (w : AccountId -> Z) (pid : ProposalId) (f : Z -> bool) (R : Records) : Z :=
map_sum (fun k v => if bool_decide (k.2 = pid) && f v then w k.1 else 0) R.

Lemma tally_sum_insert w pid (f : Z -> bool) (R : Records) (a : AccountId) (v : Z) :
tally_sum w pid f (<[(a, pid) := v]> R) =
tally_sum w pid f R - (match R !! (a, pid) with Some u => if f u then w a else 0 | None => 0 end)
+ (if f v then w a else 0).
Proof.
unfold tally_sum. destruct (R !! (a, pid)) as [u|] eqn:E.
- rewrite (map_sum_insert_old _ _ _ _ _ E). cbn. by rewrite bool_decide_eq_true_2 by done.
- rewrite map_sum_insert_new by done. cbn. rewrite bool_decide_eq_true_2 by done. cbn. lia.
Qed.

Lemma tally_sum_other w pid pid' (f : Z -> bool) (R : Records) (a : AccountId) (v : Z) : pid' <> pid ->
tally_sum w pid f (<[(a, pid') := v]> R) = tally_sum w pid f R.
Proof.
intros Hne. unfold tally_sum. destruct (R !! (a, pid')) as [u|] eqn:E.
- rewrite (map_sum_insert_old _ _ _ _ _ E). cbn. rewrite bool_decide_eq_false_2 by done. cbn. lia.
- rewrite map_sum_insert_new by done. cbn. by rewrite bool_decide_eq_false_2 by done.
Qed.

Lemma tally_sum_none w pid (f : Z -> bool) (R : Records) : (forall a, R !! (a, pid) = None) -> tally_sum w pid f R = 0.
Proof.
intros Hn. apply map_sum_0. intros [a q] v Hv. cbn. case_bool_decide; [|done].
subst. by rewrite Hn in Hv.
Qed.

(** The counter [g] of every option is the sum over the voters of it. *)
Definition tallies (g : VoteStats -> Z) (w : AccountId -> Z) (pid : ProposalId) (p : Proposal) (R : Records) : Prop :=
(forall i st, votes p !! i = Some st -> g st = tally_sum w pid (Z.eqb (Z.of_nat i)) R) /\
g (total_votes p) = tally_sum w pid (fun _ => true) R.

Lemma upd_stats_inv vs i f vs' : upd_stats vs i f = Ok vs' ->
exists s s', 0 <= i /\ vs !! Z.to_nat i = Some s /\ f s = Ok s' /\ vs' = <[Z.to_nat i := s']> vs.
Proof.
unfold upd_stats. intros H. res_inv. apply vec_get_Some in E as [? ?]. eauto 10.
Qed.

(** A field of the counters that adds [d] per vote. *)
Definition counts_by (g : VoteStats -> Z) (bal d : Z) : Prop :=
forall s s', (VoteStats.add_vote s bal = Ok s' -> g s' = g s + d) /\
   (VoteStats.remove_vote s bal = Ok s' -> g s' = g s - d).

Lemma counts_by_count bal : counts_by total_votes_count bal 1.
Proof. intros s s'. unfold VoteStats.add_vote, VoteStats.remove_vote. split; intros H; unfold u32_add, u32_sub in H; by res_inv. Qed.

Lemma counts_by_venear bal : counts_by total_venear bal bal.
Proof.
intros s s'. unfold VoteStats.add_vote, VoteStats.remove_vote, near_add, near_sub. split; intros H; by res_inv.
Qed.

Lemma upd_stats_tally g d vs i f vs' sgn (F : nat -> Z) :
(forall s s', f s = Ok s' -> g s' = g s + sgn * d) ->
upd_stats vs i f = Ok vs' ->
(forall j st, vs !! j = Some st -> g st = F j) ->
forall j st, vs' !! j = Some st -> g st = F j + (if Z.of_nat j =? i then sgn * d else 0).
Proof.
intros Hf H HF j st Hj. apply upd_stats_inv in H as (s & s' & Hi & Hs & Hfs & ->).
destruct (Z.of_nat j =? i) eqn:E; bool_prop.
- subst. rewrite Nat2Z.id in *. rewrite list_lookup_insert_eq in Hj by (by eapply lookup_lt_Some).
injection Hj as <-. by rewrite (Hf _ _ Hfs), (HF _ _ Hs).
- rewrite list_lookup_insert_ne in Hj by lia. rewrite (HF _ _ Hj). lia.
Qed.

(** Counting a vote of [a], replacing the vote [a] had. *)
Lemma tally_step g w pid p R a bal i p1 p2 : counts_by g bal (w a) ->
remove_previous p (R !! (a, pid)) bal = Ok p1 -> add_new p1 i bal = Ok p2 ->
tallies g w pid p R -> tallies g w pid p2 (<[(a, pid) := i]> R).
Proof.
intros Hg H1 H2 [T1 T2].
assert (forall s s', VoteStats.add_vote s bal = Ok s' -> g s' = g s + 1 * w a) as Hadd
by (intros s s' Hs; rewrite (proj1 (Hg s s') Hs); lia).
assert (forall s s', VoteStats.remove_vote s bal = Ok s' -> g s' = g s + -1 * w a) as Hrem
by (intros s s' Hs; rewrite (proj2 (Hg s s') Hs); lia).
unfold add_new in H2. res_inv. cbn.
assert ((forall j st, votes p1 !! j = Some st -> g st = tally_sum w pid (Z.eqb (Z.of_nat j)) R -
match R !! (a, pid) with Some u => if Z.of_nat j =? u then w a else 0 | None => 0 end) /\
g (total_votes p1) = tally_sum w pid (fun _ => true) R -
match R !! (a, pid) with Some _ => w a | None => 0 end) as [A1 A2].
{ unfold remove_previous in H1. destruct (R !! (a, pid)) as [u|]; res_inv; cbn.
- split.
+ intros j st Hj.
rewrite (upd_stats_tally g (w a) _ _ _ _ (-1) _ Hrem E1 T1 j st Hj).
destruct (_ =? u); lia.
+ rewrite (proj2 (Hg _ _) E2), T2. lia.
- split; [intros j st Hj; rewrite (T1 _ _ Hj); lia | lia]. }
split.
- intros j st Hj. cbn in Hj.
rewrite (upd_stats_tally g (w a) _ _ _ _ 1 _ Hadd E A1 j st Hj).
rewrite tally_sum_insert. destruct (_ =? i); lia.
- cbn. rewrite (proj1 (Hg _ _) E0), A2, tally_sum_insert. destruct (R !! (a, pid)); lia.
Qed.

Lemma tallies_other g w pid pid' p R a v : pid' <> pid ->
tallies g w pid p R -> tallies g w pid p (<[(a, pid') := v]> R).
Proof.
intros Hne [H1 H2]. split; [intros i st Hi|]; rewrite tally_sum_other by done; auto.
Qed.

Lemma tallies_same g w pid p p' R : votes p' = votes p -> total_votes p' = total_votes p ->
tallies g w pid p R -> tallies g w pid p' R.
Proof. intros H1 H2. unfold tallies. by rewrite H1, H2. Qed.

(** ** Voting power *)

(** [opens Q s L]: a valid proof against the snapshot shows an account of
[L], unless [Q] holds of the proof (it carries a collision of the hash
function). *)
Definition opens (Q : MerkleProof -> VAccount -> Prop) (s : MerkleTreeSnapshot) (L : gmap AccountId VAccount) : Prop :=
forall proof va, proof_ok proof -> is_valid proof (snap_root s) (snap_length s) va = true ->
L !! account_id (account_from va) = Some va \/ Q proof va.

(** The proofs and accounts submitted with the accepted votes of a run. *)
Abbreviation Ballots := (list (ProposalId * (MerkleProof * VAccount))).
Implicit Types (B : Ballots).

Definition ballots_after (x : VCall) (B : Ballots) : Ballots :=
match x with CastVote pid _ proof va => (pid, (proof, va)) :: B | _ => B end.

Inductive vhistory : Ballots -> list ProposalId -> Voting -> Prop :=
| vhist_new k : k_ok k -> vhistory [] [] (new_voting k)
| vhist_call B l c x e c' es : vhistory B l c -> vcall_ok x -> callback_ok x l ->
vrun x e c = Ok (tt, c', es) -> vhistory (ballots_after x B) (inflight_after x l) c'.

Lemma vhistory_reachable B l c : vhistory B l c -> vreachable l c.
Proof. induction 1; [by constructor | by eapply vreach_call]. Qed.

(** Some vote submitted on [pid] satisfies [Q]. *)
Definition cheated (Q : MerkleProof -> VAccount -> Prop) (pid : ProposalId) (B : Ballots) : Prop :=
Exists (fun b => b.1 = pid /\ Q b.2.1 b.2.2) B.

Lemma cheated_after Q pid x B : cheated Q pid B -> cheated Q pid (ballots_after x B).
Proof. intros H. destruct x; cbn; try done. by apply Exists_cons_tl. Qed.

Definition weight (s : SnapshotAndState) (L : gmap AccountId VAccount) (a : AccountId) : Z :=
match L !! a with
| Some va =>
match Account.total_balance (account_from va) (timestamp_ns s) (ss_growth_config s) with
| Ok b => b
| Panic _ => 0
end
| None => 0
end.

Record tally_ok (B : Ballots) (R : Records) (pid : ProposalId) (p : Proposal) : Prop := mkTally {
to_range : forall a v, R !! (a, pid) = Some v -> 0 <= v < 3;
to_count : tallies total_votes_count (fun _ => 1) pid p R;
to_power : match snapshot_and_state p with
 | None => (forall a, R !! (a, pid) = None) /\ forall w, tallies total_venear w pid p R
 | Some s => forall Q L, opens Q (snapshot s) L ->
     tallies total_venear (weight s L) pid p R \/ cheated Q pid B
 end
}.

Record TInv (B : Ballots) (c : Voting) : Prop := mkTInv {
ti_tally : forall pid p, stored c pid = Some p -> tally_ok B (vote_records c) pid p;
ti_records : forall a pid v, vote_records c !! (a, pid) = Some v -> is_Some (stored c pid)
}.

Lemma tally_quiet B k R pid p p' : k <> Votes /\ k <> Any -> evolve_by k p p' -> tally_ok B R pid p ->
tally_ok B R pid p'.
Proof.
intros Hk He [T1 T2 T3]. destruct (ev_votes _ _ He) as [Hv Ht]; [by left|].
split; [done | by eapply tallies_same |]. destruct (snapshot_and_state p) as [s|] eqn:Es.
- rewrite (ev_snapshot _ _ _ _ He Es). intros Q L HL. destruct (T3 Q L HL); [left; by eapply tallies_same | by right].
- destruct T3 as [Hn Hz]. destruct (snapshot_and_state p').
+ intros Q L _. left. by eapply tallies_same.
+ split; [done|]. intros w. by eapply tallies_same.
Qed.

Lemma tally_default g w R pid p : g VoteStats.default = 0 -> votes p = replicate 3 VoteStats.default ->
total_votes p = VoteStats.default -> (forall a, R !! (a, pid) = None) -> tallies g w pid p R.
Proof.
intros Hg Hv Ht Hn. split.
- intros i st Hi. rewrite Hv in Hi. apply lookup_replicate in Hi as [-> _]. rewrite Hg. symmetry. by apply tally_sum_none.
- rewrite Ht, Hg. symmetry. by apply tally_sum_none.
Qed.

Lemma option_range v : 0 <= VoteOption.to_u8 v < 3.
Proof. destruct v; cbn; lia. Qed.

(** A vote on [pid] keeps the tally of [pid] exact. *)
Lemma tally_cast B e pid v proof va c p p2 p3 s bal : proof_ok proof -> cast e pid v proof va c p p2 p3 s bal ->
tally_ok B (vote_records c) pid p ->
tally_ok ((pid, (proof, va)) :: B)
(<[(account_id (account_from va), pid) := VoteOption.to_u8 v]> (vote_records c)) pid p3.
Proof.
intros Hpf [H1 H2 H3 H4 H5 H6 H7 (p1 & Hr & Ha) H8] [T1 T2 T3]. set (a := account_id (account_from va)) in *.
destruct (tally_shape _ _ _ _ _ _ Hr Ha) as [Hp2 _].
assert (votes p3 = votes p2 /\ total_votes p3 = total_votes p2 /\ snapshot_and_state p3 = Some s) as (Hv & Ht & Hs).
{ assert (snapshot_and_state p2 = Some s) as Hs2 by (rewrite Hp2; exact H2).
destruct H8 as [->|(_ & _ & _ & st & _ & ->)]; done. }
rewrite H2 in T3. split.
- intros b u. destruct (decide (b = a)) as [->|Hne].
+ rewrite lookup_insert_eq. intros [= <-]. apply option_range.
+ rewrite lookup_insert_ne by congruence. apply T1.
- apply (tallies_same _ _ _ p2); [done..|]. eapply tally_step; [apply counts_by_count | done..].
- rewrite Hs. intros Q L HL. destruct (T3 Q L HL) as [T3'|]; [|right; by apply Exists_cons_tl].
destruct (HL proof va Hpf H3) as [Hl|]; [|right; by apply Exists_cons_hd]. fold a in Hl. left.
apply (tallies_same _ _ _ p2); [done..|]. eapply tally_step; [|done|done|exact T3'].
assert (weight s L a = bal) as ->; [|apply counts_by_venear]. unfold weight. by rewrite Hl, H5.
Qed.

Lemma tally_other B b R pid pid' p a v : pid' <> pid -> tally_ok B R pid p ->
tally_ok (b :: B) (<[(a, pid') := v]> R) pid p.
Proof.
intros Hne [T1 T2 T3]. split.
- intros a' u. rewrite lookup_insert_ne by congruence. apply T1.
- by apply tallies_other.
- destruct (snapshot_and_state p) as [s|].
+ intros Q L HL. destruct (T3 Q L HL); [left; by apply tallies_other | right; by apply Exists_cons_tl].
+ destruct T3 as [Hn Hz]. split.
* intros a'. rewrite lookup_insert_ne by congruence. apply Hn.
* intros w. by apply tallies_other.
Qed.

Lemma tinv_quiet B x e c c' es l : RInv l c -> TInv B c -> vcall_ok x -> callback_ok x l ->
vrun x e c = Ok (tt, c', es) -> quiet_call x = true -> TInv B c'.
Proof.
intros HR [T1 T2] Hx Hcb H Hq.
assert (vote_records c' = vote_records c) as Hrec.
{ destruct (is_create x) eqn:Ec; [|by eapply vrun_aux in H as [? _]]. destruct x; try discriminate. cbn in H. m_inv.
apply create_parts in E as (p & _ & _ & ->); [done | apply HR..]. }
split.
- intros pid p' Hp'. rewrite Hrec.
destruct (vrun_origin _ _ _ _ _ _ _ _ HR Hx Hcb H Hp') as [(p & Hp & He)|(Hn & md & acts & fl & -> & _ & Hnew)].
+ eapply tally_quiet; eauto using touch_votes.
+ apply new_proposal_ok in Hnew as (_ & _ & _ & _ & Hv & Ht & Hs & _); [|apply HR].
assert (forall a, vote_records c !! (a, pid) = None) as Hnone.
{ intros a. destruct (vote_records c !! (a, pid)) eqn:E; [|done].
apply T2 in E as [? E]. congruence. }
split; [intros a v Hav; by rewrite Hnone in Hav | by apply tally_default |].
rewrite Hs. split; [done|]. intros w. by apply tally_default.
- intros a pid v Hv. rewrite Hrec in Hv. apply T2 in Hv as [p Hp].
destruct (vrun_step _ _ _ _ _ _ HR Hx Hcb H) as [_ Hev]. destruct (Hev _ _ Hp) as (p' & ? & _). eauto.
Qed.

Lemma tinv_vote B pid v proof va e c u c' es : VInv c -> TInv B c -> proof_ok proof ->
vote pid v proof va e c = Ok (u, c', es) ->
TInv ((pid, (proof, va)) :: B) c'.
Proof.
intros HI [T1 T2] Hpf H. apply vote_parts in H as (c1 & p & p2 & p3 & s & bal & G & A & _ & Hx & Hc & W & _); [|done].
destruct A as (_ & _ & Hrec & _ & Hlen). pose proof (gd_inv _ _ _ G) as HI1.
pose proof Hx as (q & Hq & _ & Hid & Hok & _ & Hevq & _).
destruct (cast_evolve _ _ _ _ _ _ _ _ _ _ _ Hok Hc) as (_ & _ & Hid3 & _).
apply set_proposal_inv in W as (W1 & _ & _ & _ & _ & _ & _ & W7 & _). cbn in W7. rewrite Hid3, Hid in W1.
assert (forall y r, stored c1 y = Some r -> tally_ok B (vote_records c) y r) as T1'.
{ intros y r Hr. assert (is_Some (stored c y)) as [r0 Hr0].
{ apply stored_dom; [done|]. unfold vec_len in *. rewrite <- Hlen. apply (stored_dom c1); eauto. }
destruct (gd_evolves _ _ _ G _ _ Hr0) as (r' & Hr' & He). replace r' with r in * by congruence.
eapply tally_quiet; [|exact He|]; eauto. }
split.
- intros y r Hr. rewrite W7, W1 in *. case_decide as E.
+ subst y. injection Hr as <-. eapply tally_cast; [done | done |]. rewrite Hrec.
eapply tally_quiet; [|exact Hevq|by apply T1']. done.
+ rewrite Hrec. apply tally_other; [done|]. by apply T1'.
- intros a y w Hw. rewrite W7, W1 in *. case_decide as E; [eauto|]. rewrite lookup_insert_ne in Hw by congruence.
rewrite Hrec in Hw. apply T2 in Hw as [r Hr]. destruct (gd_evolves _ _ _ G _ _ Hr) as (r' & ? & _). eauto.
Qed.

Lemma vhistory_tally B l c : vhistory B l c -> TInv B c.
Proof.
induction 1 as [k Hk | B l c x e c' es H IH Hx Hcb Hr].
- split; cbn; [|by intros a pid v]. intros pid p Hp. unfold stored, vec_get in Hp. cbn in Hp.
destruct (0 <=? pid); by rewrite ?lookup_nil in Hp.
- apply vhistory_reachable, vreachable_inv in H as HR. destruct (quiet_call x) eqn:Eq.
+ replace (ballots_after x B) with B by (by destruct x). by eapply tinv_quiet.
+ destruct x; try discriminate. eapply tinv_vote; [apply HR | done | exact Hx | exact Hr].
Qed.
End tally.
