(* ===== verification/VotingOutcome.v ===== *)
(** * Outcomes: passed votes, executions and bonds

    What follows from the calls of [VotingCalls], and the receipts of
    executions: the actions of executed proposals run interleaved with
    everything else, those that call the voting contract itself included. *)
From stdpp Require Import base gmap strings list.
From Stdlib Require Import ZArith Lia.
From S2P Require Import Prelude.
From S2P Require Import Near.
From S2P Require Import Common.
From S2P Require Import CommonFacts.
From S2P Require Import MerkleTree.
From S2P Require Import MerkleFacts.
From S2P Require Import VotingTypes.
From S2P Require Import VotingContract.
From S2P Require Import VotingFacts.
From S2P Require Import VotingInvariant.
From S2P Require Import VotingQueue.
From S2P Require Import VotingOps.
From S2P Require Import VotingCalls.

Local Open Scope Z_scope.

Section outcome.
Context `{IS : IterableSet} `{HC : Crypto} `{HB : Borsh VAccount} `{VT : !VotingHost} `{!IterableSetLaws IS}.

(** ** A proposal past its vote has won it *)
Definition won (p : Proposal) : Prop := compute_final_status p = Ok St.Succeeded.

Lemma evolve_won k p p' : evolve_by k p p' -> (late (status p) = true -> won p) -> late (status p') = true -> won p'.
Proof.
intros He Hw Hl. destruct (ev_won _ _ He Hl) as [Hp|]; [|done].
assert (status p <> St.Created /\ rank St.Timelock <= rank (status p)) as [H1 H2] by (destruct (status p); done).
destruct (ev_rules _ _ He H1) as (? & ? & ? & ? & _), (ev_votes _ _ He (or_intror H2)) as [? ?].
eapply won_stable; [by apply Hw | intros s; by eapply ev_snapshot | done..].
Qed.

Lemma vreachable_won l c pid p : vreachable l c -> stored c pid = Some p -> late (status p) = true -> won p.
Proof.
intros H. revert pid p. induction H as [k Hk | l c x e c' es H IH Hx Hcb Hr]; intros pid p Hp.
- unfold stored, vec_get in Hp. cbn in Hp. destruct (0 <=? pid); by rewrite ?lookup_nil in Hp.
- apply vreachable_inv in H as HR.
destruct (vrun_origin _ _ _ _ _ _ _ _ HR Hx Hcb Hr Hp) as [(q & Hq & He)|(_ & md & acts & fl & -> & _ & Hnew)].
+ eapply evolve_won; eauto.
+ apply new_proposal_ok in Hnew as (_ & _ & Hs & _); [|apply HR]. by rewrite Hs.
Qed.

Lemma vreachable_passes l c pid p : vreachable l c -> stored c pid = Some p -> late (status p) = true -> passes p.
Proof.
intros Hr Hp Hl. pose proof (vreachable_won _ _ _ _ Hr Hp Hl) as Hw. pose proof (vreachable_inv _ _ Hr) as HR.
destruct (stored_ok _ _ _ (ri_inv _ _ HR) Hp) as [_ Hok].
destruct (compute_final_spec p _ (proj1 (po_bps p Hok)) Hw) as [[_ ?]|[? _]]; done.
Qed.

(** ** Executions *)
Definition no_execution (ef : VEffect) : Prop := match ef with ExecuteActions _ _ => False | _ => True end.

Lemma no_execution_calls x : (forall pid, x <> ExecuteProposal pid) -> emits no_execution (vrun x).
Proof.
intros Hne. destruct x as [| | | | | | | | | pid | | | | s | | | |]; [..|destruct s| | | |]; cbn [vrun run_setting];
try (by destruct (Hne pid));
unfold create_proposal, vote, take_snapshot_and_vote, approve_proposal, reject_proposal, veto_proposal,
noveto_proposal, slash_proposal, on_get_snapshot, on_execute_proposal, claim_bond, advance_queue,
accept_ownership, set_max_active_proposals, pause, unpause, set_venear_account_id, set_reviewer_ids,
set_classic_voting_duration, set_fast_track_voting_duration,
set_base_proposal_fee, propose_new_owner_account_id, set_guardians, set_council_ids, set_timelock_duration,
set_classic_proposal_expiration, set_fast_track_proposal_expiration, set_quorum_threshold_bps, set_quorum_floor,
set_approval_threshold_bps, set_bond_amount, set_treasury_account_id, set_simple_majority_threshold_bps,
set_strong_majority_threshold_bps, set_sandbox_duration, set_sandbox_threshold_bps, owner_update, owner_update_sec,
assert_owner, assert_guardian, assert_not_paused, assert_called_by_reviewer, assert_called_by_council,
assert_one_yocto, assert_private, internal_advance_queue, internal_expect_proposal_updated, internal_set_proposal;
repeat emits_step; done.
Qed.

Definition execution_of (pid : ProposalId) (ef : VEffect) : Z :=
match ef with ExecuteActions _ y => if decide (y = pid) then 1 else 0 | _ => 0 end.

(** The number of times the actions of [pid] are scheduled. *)
Definition executions (pid : ProposalId) (es : list VEffect) : Z := list_sum_Z (execution_of pid) es.

Lemma no_executions pid es : Forall no_execution es -> executions pid es = 0.
Proof.
intros H. unfold executions. rewrite (list_sum_Z_ext _ (fun _ => 0)); [apply list_sum_Z_0|].
intros ef Hef. rewrite Forall_forall in H. apply H in Hef. by destruct ef.
Qed.

Lemma execute_parts pid e c u c' es : VInv c -> execute_proposal pid e c = Ok (u, c', es) ->
exists p acts, stored c' pid = Some (Proposal.with_status p St.InProgress) /\ status p = St.Executable /\
actions p = Some acts /\ acts <> [] /\ v_paused c = false /\
es = [VLog (execute_proposal_action (predecessor_account_id e) pid); ExecuteActions acts pid].
Proof.
intros HI H. unfold execute_proposal, assert_not_paused in H. m_inv. bool_prop.
match goal with E : internal_advance_queue _ _ = _ |- _ => apply advance_good in E as (-> & G & A & _); [|done] end.
pose proof (gd_inv _ _ _ G) as HI1.
match goal with E : internal_expect_proposal_updated _ _ _ = Ok (?x, _, _) |- _ =>
rename x into p; apply expect_run in E as (-> & -> & q & _ & _ & Hid & _); [|done] end.
match goal with E : internal_set_proposal _ _ _ = Ok _ |- _ => apply set_proposal_run in E as [W ->] end.
apply set_proposal_inv in W as (W & _).
match goal with E : expect (actions p) _ = Ok ?x |- _ => apply expect_Ok_inv in E; exists p, x end.
rewrite W. cbn. rewrite decide_True by done. done.
Qed.

Lemma execute_before pid e c u c' es : VInv c -> execute_proposal pid e c = Ok (u, c', es) ->
exists q p, stored c pid = Some q /\ evolve_by Quiet q p /\ status p = St.Executable.
Proof.
intros HI H. pose proof H as H'. apply execute_good in H' as (G & (_ & _ & _ & _ & Hlen) & p & Hp & _); [|done].
assert (is_Some (stored c pid)) as [q Hq].
{ apply stored_dom; [done|]. unfold vec_len. rewrite <- Hlen. apply (stored_dom c'); [apply G | eauto]. }
unfold execute_proposal, assert_not_paused in H. m_inv. bool_prop.
match goal with E : internal_advance_queue _ _ = _ |- _ => apply advance_good in E as (-> & G1 & A & _); [|done] end.
match goal with E : internal_expect_proposal_updated _ _ _ = Ok (?x, _, _) |- _ =>
rename x into r; apply expect_run in E as (-> & -> & q1 & Hq1 & _ & _ & _ & _ & He & _); [|apply G1] end.
destruct (gd_evolves _ _ _ G1 _ _ Hq) as (q2 & Hq2 & He2). replace q2 with q1 in * by congruence.
exists q, r. split_and!; [done | by transitivity q1 | done].
Qed.

(** ** Sequences of calls with what they emit *)
Inductive vtrace : list ProposalId -> Voting -> list VEffect -> list ProposalId -> Voting -> Prop :=
| vtrace_nil l c : vtrace l c [] l c
| vtrace_call l c x e c1 es es' l' c' : vcall_ok x -> callback_ok x l -> vrun x e c = Ok (tt, c1, es) ->
vtrace (inflight_after x l) c1 es' l' c' -> vtrace l c (es ++ es') l' c'.

Definition started (c : Voting) (pid : ProposalId) : bool :=
match stored c pid with Some p => rank St.InProgress <=? rank (status p) | None => false end.

Lemma trace_executions l c es l' c' pid : RInv l c -> vtrace l c es l' c' ->
executions pid es <= if started c pid then 0 else 1.
Proof.
intros HR Ht. induction Ht as [l c | l c x e c1 es es' l' c' Hx Hcb Hr Ht IH].
- cbn. by destruct (started c pid).
- destruct (vrun_step _ _ _ _ _ _ HR Hx Hcb Hr) as [HR1 Hev]. specialize (IH HR1).
unfold executions in *. rewrite list_sum_Z_app. fold (executions pid es).
assert (started c pid = true -> started c1 pid = true) as Hmono.
{ unfold started. destruct (stored c pid) as [p|] eqn:Ep; [|done]. destruct (Hev _ _ Ep) as (p1 & -> & He).
intros. bool_prop. apply Z.leb_le. destruct (ev_status _ _ He) as [-> |]; lia. }
assert ((forall y, x <> ExecuteProposal y) \/ exists y, x = ExecuteProposal y) as [Hne|[y ->]] by (destruct x; eauto).
+ rewrite (no_executions pid es) by (by eapply no_execution_calls).
destruct (started c pid); [rewrite Hmono in IH by done | destruct (started c1 pid)]; lia.
+ cbn in Hr. pose proof Hr as Hr'. apply execute_parts in Hr as (p & acts & Hp & Hs & Ha & _ & _ & ->); [|apply HR].
cbn. case_decide as E; [subst y | destruct (started c pid); [rewrite Hmono in IH by done | destruct (started c1 pid)]; lia].
assert (started c1 pid = true) as Hs1 by (unfold started; by rewrite Hp).
rewrite Hs1 in IH. assert (started c pid = false) as ->; [|lia].
unfold started. destruct (stored c pid) as [q|] eqn:Eq; [|done]. apply Z.leb_gt.
destruct (Z.lt_ge_cases (rank (status q)) 7) as [|Hge]; [done|]. exfalso.
apply execute_before in Hr' as (q' & r & Hq' & He & Hr2); [|apply HR]. replace q' with q in * by congruence.
destruct (ev_status _ _ He) as [E|E]; rewrite Hr2 in E; [rewrite <- E in Hge|]; cbn in *; lia.
Qed.

(** ** Bonds *)

(** The bond [b] of a proposal leaves the contract. *)
Definition bond_paid (x : VCall) (e : Env) (c : Voting) (pid : ProposalId) (p p' : Proposal) (es : list VEffect) : Prop :=
((exists m, x = ApproveProposal pid m) \/ x = SlashProposal pid /\ status p' = St.Slashed) /\
predecessor_account_id e ∈ VConfig.reviewer_ids (v_config c) /\
VTransfer (VConfig.treasury_account_id (v_config c)) (bond_amount p) ∈ es \/
x = ClaimBond pid /\ predecessor_account_id e = proposer_id p /\
(status p' = St.Expired \/ status p' = St.Rejected) /\
VTransfer (proposer_id p) (bond_amount p) ∈ es.

Lemma read_bond pid e c p q : proposal_read pid e c p -> stored c pid = Some q ->
bond_amount p = bond_amount q /\ proposer_id p = proposer_id q.
Proof.
intros (q' & Hq' & _ & _ & _ & _ & He & _) Hq. replace q' with q in * by congruence.
destruct (ev_bond _ _ He) as [?|[[|] _]]; [|done..]. by destruct (ev_fixed _ _ He) as (? & _).
Qed.

Lemma evolves_bond c c' pid p p' : evolves_by (fun _ => Quiet) c c' -> stored c pid = Some p -> stored c' pid = Some p' ->
bond_amount p' = bond_amount p /\ proposer_id p' = proposer_id p.
Proof.
intros He Hp Hp'. destruct (He _ _ Hp) as (q & Hq & E). replace q with p' in * by congruence.
destruct (ev_bond _ _ E) as [?|[[|] _]]; [|done..]. by destruct (ev_fixed _ _ E) as (? & _).
Qed.

Lemma approve_pays pid m e c r c' es p p' : VInv c -> k_ok (v_config c) -> approve_proposal pid m e c = Ok (r, c', es) ->
stored c pid = Some p -> stored c' pid = Some p' -> 0 < bond_amount p ->
bond_paid (ApproveProposal pid m) e c pid p p' es.
Proof.
intros HI Hk H Hp Hp' Hb. left.
apply approve_parts in H as (c1 & r1 & p3 & G & A & _ & Hx & Hs & Hap & _ & _ & Hrev & Hpay & H); [|done..].
destruct (gd_evolves _ _ _ G _ _ Hp) as (q & Hq & _).
destruct (read_bond _ _ _ _ _ Hx Hq), (evolves_bond _ _ _ _ _ (gd_evolves _ _ _ G) Hp Hq).
split_and!; [eauto | done |]. replace (bond_amount p) with (bond_amount r1) by congruence. apply Hpay. lia.
Qed.

Lemma slash_pays pid e c u c' es p p' : VInv c -> slash_proposal pid e c = Ok (u, c', es) ->
stored c pid = Some p -> stored c' pid = Some p' -> 0 < bond_amount p ->
bond_paid (SlashProposal pid) e c pid p p' es.
Proof.
intros HI H Hp Hp' Hb. unfold slash_proposal, assert_not_paused, assert_called_by_reviewer in H. m_inv. bool_prop.
match goal with E : internal_expect_proposal_updated _ _ _ = Ok (?x, _, _) |- _ =>
rename x into q; apply expect_run in E as (-> & -> & Hx); [|done] end.
destruct (read_bond _ _ _ _ _ Hx Hp) as [E1 E2]. pose proof Hx as (_ & _ & _ & Hid & _).
match goal with E : (if 0 <? _ then _ else _) _ _ = _ |- _ => rename E into E9 end.
cbn [bond_amount Proposal.with_status] in *. rewrite E1, (proj2 (Z.ltb_lt 0 (bond_amount p)) Hb) in E9. m_inv.
match goal with E : internal_set_proposal _ _ _ = Ok _ |- _ => apply set_proposal_run in E as [W ->] end.
apply set_proposal_inv in W as (W & _). rewrite W in Hp'. cbn [id Proposal.with_bond Proposal.with_status] in Hp'.
rewrite decide_True in Hp' by done. injection Hp' as <-.
left. split_and!; [right; done | done |]. set_solver.
Qed.

Lemma claim_pays pid e c u c' es p p' : VInv c -> claim_bond pid e c = Ok (u, c', es) ->
stored c pid = Some p -> stored c' pid = Some p' -> bond_paid (ClaimBond pid) e c pid p p' es.
Proof.
intros HI H Hp Hp'. unfold claim_bond in H. m_inv. bool_prop.
match goal with E : internal_expect_proposal_updated _ _ _ = Ok (?x, _, _) |- _ =>
rename x into q; apply expect_run in E as (-> & -> & Hx); [|done] end.
destruct (read_bond _ _ _ _ _ Hx Hp) as [E1 E2]. pose proof Hx as (_ & _ & _ & Hid & _).
match goal with E : internal_set_proposal _ _ _ = Ok _ |- _ => apply set_proposal_run in E as [W ->] end.
apply set_proposal_inv in W as (W & _). rewrite W in Hp'. cbn [id Proposal.with_bond] in Hp'.
rewrite decide_True in Hp' by done. injection Hp' as <-.
match goal with H : String.eqb _ _ = true |- _ => apply String.eqb_eq in H end.
right. rewrite <- E1, <- E2. cbn. split_and!; try done; [destruct (status q); auto; discriminate | set_solver].
Qed.

Lemma touch_bond e x pid : touch e x pid = Bond \/ touch e x pid = Any ->
(exists m, x = ApproveProposal pid m) \/ x = SlashProposal pid \/ x = ClaimBond pid.
Proof.
destruct x; cbn; try (unfold only; try case_decide; subst; intros [|]; eauto; done).
destruct (snapshot_of _ _); unfold only; [case_decide|]; by intros [|].
Qed.

Lemma bond_step x e c c' es l pid p p' : RInv l c -> vcall_ok x -> callback_ok x l -> vrun x e c = Ok (tt, c', es) ->
stored c pid = Some p -> stored c' pid = Some p' ->
bond_amount p' = bond_amount p \/
0 < bond_amount p /\ bond_amount p' = 0 /\ bond_paid x e c pid p p' es.
Proof.
intros HR Hx Hcb Hr Hp Hp'. destruct (vrun_step _ _ _ _ _ _ HR Hx Hcb Hr) as [_ Hev].
destruct (Hev _ _ Hp) as (q & Hq & He). replace q with p' in * by congruence.
destruct (ev_bond _ _ He) as [|[Ht H0]]; [by left|].
pose proof (stored_ok _ _ _ (ri_inv _ _ HR) Hp) as [_ Hok]. pose proof (po_bond p Hok).
destruct (Z.eq_dec (bond_amount p) 0) as [|Hnz]; [left; congruence|]. right.
split_and!; [lia | done |]. destruct HR as [HI Hk _].
apply touch_bond in Ht as [[m ->]|[->| ->]]; cbn in Hr; m_inv.
- rewrite app_nil_r. eapply approve_pays; [done | done | done | done | done | lia].
- eapply slash_pays; [done | done | done | done | lia].
- by eapply claim_pays.
Qed.

Lemma vtrace_reachable l c es l' c' : vreachable l c -> vtrace l c es l' c' -> vreachable l' c'.
Proof. intros H Ht. induction Ht as [|l c x e c1 es es' l' c' Hx Hcb Hr _ IH]; [done|]. by eapply IH, vreach_call. Qed.
End outcome.

(** ** The receipts of executions

[execute_proposal] chains the actions of the proposal and the callback: each
runs when the one before it has been executed, whether it succeeded or not. An
action may call the voting contract itself; it then runs as a call of the
contract, by the contract. *)
Abbreviation Chain := (list ProposalAction * ProposalId)%type.
Definition chain_of (ef : VEffect) : option Chain :=
match ef with ExecuteActions acts pid => Some (acts, pid) | _ => None end.

(** An action that calls [on_execute_proposal] of the contract [me]. *)
Definition marks (me : AccountId) (a : ProposalAction) : bool :=
match a with
| FunctionCall receiver method _ _ _ => String.eqb receiver me && String.eqb method "on_execute_proposal"
| TransferAction _ _ => false
end.
Definition unmarked (me : AccountId) (ef : VEffect) : bool :=
match ef with ExecuteActions acts _ => forallb (fun a => negb (marks me a)) acts | _ => true end.
Abbreviation all_unmarked me es := (Forall (fun ef => unmarked me ef = true) es).

Lemma forallb_unmarked me es : forallb (unmarked me) es = true -> all_unmarked me es.
Proof. rewrite forallb_forall, Forall_forall. intros H ef Hef. by apply H, list_elem_of_In. Qed.

Section receipts.
Context `{IS : IterableSet} `{HC : Crypto} `{HB : Borsh VAccount} `{VT : !VotingHost} (me : AccountId).

(** The calls the contract sends itself outside of executions. *)
Definition own_call (x : VCall) : bool := match x with OnGetSnapshot _ _ | CastVote _ _ _ _ => true | _ => false end.

(** A step with the executions in flight [F]: a call by another account; one of
the contract's own; the next action of an execution, on the contract itself or
elsewhere (an action that fails changes nothing here); the callback after the
last action, which may fail. The label is the call of the contract in the step. *)
Inductive vstep : list Chain -> Voting -> option (VCall * Env) -> list VEffect -> list Chain -> Voting -> Prop :=
| vs_call F c x e c' es : predecessor_account_id e <> me -> current_account_id e = me -> vcall_ok x ->
vrun x e c = Ok (tt, c', es) -> vstep F c (Some (x, e)) es (F ++ omap chain_of es) c'
| vs_own F c x e c' es : predecessor_account_id e = me -> current_account_id e = me -> vcall_ok x -> own_call x = true ->
vrun x e c = Ok (tt, c', es) -> vstep F c (Some (x, e)) es (F ++ omap chain_of es) c'
| vs_action F1 args gas acts pid F2 c x e c' es : predecessor_account_id e = me -> current_account_id e = me -> vcall_ok x ->
vrun x e c = Ok (tt, c', es) ->
vstep (F1 ++ (FunctionCall me (vmethod x) args (attached_deposit e) gas :: acts, pid) :: F2) c (Some (x, e)) es
(F1 ++ (acts, pid) :: F2 ++ omap chain_of es) c'
| vs_elsewhere F1 a acts pid F2 c : vstep (F1 ++ (a :: acts, pid) :: F2) c None [] (F1 ++ (acts, pid) :: F2) c
| vs_callback F1 pid F2 c e c' es : predecessor_account_id e = me -> current_account_id e = me ->
vrun (OnExecuteProposal pid) e c = Ok (tt, c', es) ->
vstep (F1 ++ ([], pid) :: F2) c (Some (OnExecuteProposal pid, e)) es (F1 ++ F2) c'
| vs_callback_fails F1 pid F2 c : vstep (F1 ++ ([], pid) :: F2) c None [] (F1 ++ F2) c.

Inductive vsteps : list Chain -> Voting -> list VEffect -> list Chain -> Voting -> Prop :=
| vsteps_nil F c : vsteps F c [] F c
| vsteps_cons F c o es F1 c1 es' F' c' : vstep F c o es F1 c1 -> vsteps F1 c1 es' F' c' -> vsteps F c (es ++ es') F' c'.

(** A run from the deployment, with everything it has emitted. *)
Definition voting_run (es : list VEffect) (F : list Chain) (c : Voting) : Prop :=
exists k, k_ok k /\ vsteps [] (new_voting k) es F c.

(** ** Runs without a marking action *)
Context `{!IterableSetLaws IS}.

Record tracked (F : list Chain) (l : list ProposalId) : Prop := mkTracked {
tr_nodup : NoDup F.*2;
tr_inflight : forall pid, pid ∈ F.*2 -> pid ∈ l;
tr_unmarked : Forall (fun ch => forallb (fun a => negb (marks me a)) ch.1 = true) F
}.

Lemma tracked_sub F F' l l' : tracked F l -> sublist F'.*2 F.*2 ->
(forall pid, pid ∈ F'.*2 -> pid ∈ l -> pid ∈ l') ->
Forall (fun ch => forallb (fun a => negb (marks me a)) ch.1 = true) F' -> tracked F' l'.
Proof.
intros [H1 H2 H3] Hs Hl Hu. split; [by eapply sublist_NoDup | | done].
intros pid Hp. apply Hl, H2; [done|]. by eapply elem_of_sublist.
Qed.

(** A new execution is of a proposal that is not being executed. *)
Lemma tracked_calls F l x e c c' es : RInv l c -> tracked F l -> (forall pid, x <> OnExecuteProposal pid) ->
vrun x e c = Ok (tt, c', es) -> all_unmarked me es ->
tracked (F ++ omap chain_of es) (inflight_after x l).
Proof.
intros HR HT Hne H Hu.
assert ((forall y, x <> ExecuteProposal y) \/ exists y, x = ExecuteProposal y) as [Hx|[y ->]] by (destruct x; eauto).
- assert (omap chain_of es = []) as ->.
{ pose proof (no_execution_calls x Hx _ _ _ _ _ H) as Hn. clear -Hn. induction Hn as [|ef es Hef _ IH]; [done|]. by destruct ef. }
rewrite app_nil_r. destruct x; try exact HT; [by destruct (Hx pid) | by destruct (Hne pid)].
- cbn in H. apply execute_before in H as Hb; [|apply HR]. destruct Hb as (q & r & Hq & He & Hr).
apply execute_parts in H as (p & acts & _ & _ & _ & _ & _ & ->); [|apply HR]. cbn.
apply Forall_cons in Hu as [_ [Hu _]%Forall_cons]. cbn in Hu. destruct HT as [H1 H2 H3]. split.
+ rewrite fmap_app. apply NoDup_app. split_and!; [done | | apply NoDup_singleton].
intros z Hz ->%list_elem_of_singleton. destruct (ri_inflight _ _ HR y (H2 _ Hz)) as (q' & Hq' & Hs).
replace q' with q in * by congruence. destruct (ev_status _ _ He) as [E|E]; rewrite Hr, Hs in E; [done | cbn in E; lia].
+ intros z. rewrite fmap_app, elem_of_app. cbn. rewrite list_elem_of_singleton, elem_of_cons. naive_solver.
+ apply Forall_app. split; [done|]. by apply Forall_singleton.
Qed.

Lemma private_callback pid e c r : vrun (OnExecuteProposal pid) e c = Ok r -> predecessor_account_id e = current_account_id e.
Proof.
destruct r as [[[] c'] es]. cbn. intros H. unfold on_execute_proposal, assert_private in H. m_inv.
by match goal with H : String.eqb _ _ = true |- _ => apply String.eqb_eq in H end.
Qed.

Lemma callback_free x l : (forall pid, x <> OnExecuteProposal pid) -> callback_ok x l.
Proof. intros H. destruct x; try done. by destruct (H pid). Qed.

(** A step of such a run is a call with the callbacks of [callback_ok], or
changes nothing. *)
Lemma vstep_call F c o es F' c' l : RInv l c -> tracked F l -> vstep F c o es F' c' -> all_unmarked me es ->
(c' = c /\ es = [] /\ o = None /\ tracked F' l) \/
exists x e, o = Some (x, e) /\ vcall_ok x /\ callback_ok x l /\ vrun x e c = Ok (tt, c', es) /\ tracked F' (inflight_after x l).
Proof.
intros HR HT H Hu. destruct H as [F c x e c' es Hp Hc Hx Hr|F c x e c' es Hp Hc Hx Ho Hr|F1 args gas acts pid F2 c x e c' es Hp Hc Hx Hr
|F1 a acts pid F2 c|F1 pid F2 c e c' es Hp Hc Hr|F1 pid F2 c].
- assert (forall pid, x <> OnExecuteProposal pid) as Hne by (intros pid ->; apply private_callback in Hr; congruence).
right. exists x, e. split_and!; try done; [by apply callback_free | by eapply tracked_calls].
- assert (forall pid, x <> OnExecuteProposal pid) as Hne by (by intros pid ->).
right. exists x, e. split_and!; try done; [by apply callback_free | by eapply tracked_calls].
- pose proof (tr_unmarked _ _ HT) as [HF1 [Ha HF2]%Forall_cons]%Forall_app. cbn in Ha. bool_prop.
assert (forall pid, x <> OnExecuteProposal pid) as Hne.
{ intros y ->. match goal with H : _ && _ = false |- _ => cbn in H; by rewrite !String.eqb_refl in H end. }
assert (tracked (F1 ++ (acts, pid) :: F2) l) as HT'.
{ eapply tracked_sub; [exact HT | | done |]; [by rewrite !fmap_app | by apply Forall_app; split; [|constructor]]. }
right. exists x, e. split_and!; try done; [by apply callback_free|].
pose proof (tracked_calls _ _ _ _ _ _ _ HR HT' Hne Hr Hu) as H'. by rewrite <- app_assoc in H'.
- left. split_and!; try done. pose proof (tr_unmarked _ _ HT) as [HF1 [Ha HF2]%Forall_cons]%Forall_app. cbn in Ha. bool_prop.
eapply tracked_sub; [exact HT | | done |]; [by rewrite !fmap_app | by apply Forall_app; split; [|constructor]].
- right. exists (OnExecuteProposal pid), e. pose proof HT as [H1 H2 H3]. rewrite fmap_app in H1, H2. cbn in H1.
apply NoDup_app in H1 as (_ & Hd & [Hn _]%NoDup_cons). apply Forall_app in H3 as [HF1 [_ HF2]%Forall_cons].
split_and!; try done; [apply H2; set_solver|]. eapply tracked_sub; [exact HT | | |by apply Forall_app].
+ rewrite !fmap_app. apply sublist_app; [done|]. by apply sublist_cons.
+ intros y Hy Hl. cbn. apply list_elem_of_filter. split; [|done]. intros ->. rewrite fmap_app in Hy.
apply elem_of_app in Hy as [Hy|Hy]; [|done]. apply (Hd _ Hy). left.
- left. split_and!; try done. pose proof (tr_unmarked _ _ HT) as [HF1 [_ HF2]%Forall_cons]%Forall_app.
eapply tracked_sub; [exact HT | | done | by apply Forall_app]. rewrite !fmap_app. apply sublist_app; [done|]. by apply sublist_cons.
Qed.

Lemma vsteps_trace F c es F' c' l : RInv l c -> tracked F l -> vsteps F c es F' c' -> all_unmarked me es ->
exists l', vtrace l c es l' c' /\ tracked F' l'.
Proof.
intros HR HT H. revert l HR HT. induction H as [F c|F c o es F1 c1 es' F' c' Hs _ IH]; intros l HR HT Hu.
{ exists l. split; [constructor | done]. }
apply Forall_app in Hu as [Hu Hu']. destruct (vstep_call _ _ _ _ _ _ _ HR HT Hs Hu) as [(-> & -> & _ & HT1)|(x & e & _ & Hx & Hcb & Hr & HT1)].
- by apply IH.
- destruct (vrun_step _ _ _ _ _ _ HR Hx Hcb Hr) as [HR1 _]. destruct (IH _ HR1 HT1 Hu') as (l' & Ht & HT').
exists l'. split; [by eapply vtrace_call | done].
Qed.

Lemma run_reachable es F c : voting_run es F c -> all_unmarked me es ->
exists l, vreachable l c /\ tracked F l.
Proof.
intros (k & Hk & H) Hu. pose proof (vreach_new k Hk) as Hr.
assert (tracked [] []) as H0 by (split; [constructor | by intros pid ?%elem_of_nil | constructor]).
destruct (vsteps_trace _ _ _ _ _ _ (vreachable_inv _ _ Hr) H0 H Hu) as (l & Ht & HT).
exists l. split; [by eapply vtrace_reachable | done].
Qed.

(** The two parts of a run: up to a state, and from there. *)
Lemma run_split es F c es' F' c' : voting_run es F c -> vsteps F c es' F' c' -> all_unmarked me (es ++ es') ->
exists l l', vreachable l c /\ vtrace l c es' l' c'.
Proof.
intros H Hs [Hu Hu']%Forall_app. destruct (run_reachable _ _ _ H Hu) as (l & Hr & HT).
destruct (vsteps_trace _ _ _ _ _ _ (vreachable_inv _ _ Hr) HT Hs Hu') as (l' & Ht & _). eauto.
Qed.
End receipts.
