(* ===== verification/VotingTheorems.v ===== *)
(** * Properties of the voting contract *)
From stdpp Require Import base gmap strings list.
From Stdlib Require Import ZArith Lia.
From S2P Require Import Prelude.
From S2P Require Import Near.
From S2P Require Import Common.
From S2P Require Import CommonFacts.
From S2P Require Import MerkleTree.
From S2P Require Import MerkleFacts.
From S2P Require Import VotingTypes.
From S2P Require Import VotingContract.
From S2P Require Import VotingFacts.
From S2P Require Import VotingInvariant.
From S2P Require Import VotingQueue.
From S2P Require Import VotingOps.
From S2P Require Import VotingCalls.
From S2P Require Import VotingTally.
From S2P Require Import VotingOutcome.

Local Open Scope Z_scope.

(** Who may make a call, and whether a pause blocks it. *)
Section authorisation.
Context `{IS : IterableSet}.

Definition is_reviewer (e : Env) (c : Voting) : Prop :=
predecessor_account_id e ∈ VConfig.reviewer_ids (v_config c) /\ attached_deposit e = 1 /\ v_paused c = false.
Definition is_council (e : Env) (c : Voting) : Prop :=
predecessor_account_id e ∈ VConfig.council_ids (v_config c) /\ attached_deposit e = 1 /\ v_paused c = false.
Definition is_owner (e : Env) (c : Voting) : Prop :=
predecessor_account_id e = VConfig.owner_account_id (v_config c) /\ attached_deposit e = 1.

Definition authorised (x : VCall) (e : Env) (c : Voting) : Prop :=
match x with
| CreateProposal _ _ _ | CastVote _ _ _ _ | TakeSnapshotAndVote _ _ | ExecuteProposal _ | AdvanceQueue =>
v_paused c = false
| ApproveProposal _ _ | RejectProposal _ | SlashProposal _ => is_reviewer e c
| VetoProposal _ | NoVetoProposal _ => is_council e c
| OnGetSnapshot _ _ => predecessor_account_id e = current_account_id e /\ v_paused c = false
| OnExecuteProposal _ => predecessor_account_id e = current_account_id e
| ClaimBond pid => exists p, stored c pid = Some p /\ predecessor_account_id e = proposer_id p
| Setting _ | SetMaxActiveProposals _ | VUnpause => is_owner e c
| VAcceptOwnership =>
VConfig.proposed_new_owner_account_id (v_config c) = Some (predecessor_account_id e) /\ attached_deposit e = 1
| VPause => (predecessor_account_id e ∈ VConfig.guardians (v_config c) \/
   predecessor_account_id e = VConfig.owner_account_id (v_config c)) /\ attached_deposit e = 1
end.
End authorisation.

Section theorems.
Context `{IS : IterableSet} `{HC : Crypto} `{HB : Borsh VAccount} `{VT : !VotingHost} `{!IterableSetLaws IS}.

(** C5. In every reachable state the counters of a proposal are exact: the
counter of an option is the number of accounts whose recorded vote is
that option and the sum of their voting power, and the total counts
every recorded voter once. The power of a voter is its veNEAR balance at
the time of the snapshot, read from any ledger [L] the snapshot root
commits to; where the commitment can be broken ([Q]), the power is still
exact unless one of the submitted ballots breaks it. (In a reachable state
every execution callback was that of an execution, [callback_ok].) *)
Theorem vote_counters_exact B l c pid p :
vhistory B l c -> stored c pid = Some p ->
tallies total_votes_count (fun _ => 1) pid p (vote_records c) /\
(forall Q s L, snapshot_and_state p = Some s -> opens Q (snapshot s) L ->
tallies total_venear (weight s L) pid p (vote_records c) \/ cheated Q pid B) /\
(forall a v, vote_records c !! (a, pid) = Some v -> 0 <= v < 3 /\ is_Some (snapshot_and_state p)).
Proof.
intros H%vhistory_tally Hp. destruct (ti_tally _ _ H _ _ Hp) as [T1 T2 T3]. split_and!; [done | |].
- intros Q s L Hs. rewrite Hs in T3. auto.
- intros a v Hv. split; [eauto|]. destruct (snapshot_and_state p); [eauto|]. destruct T3 as [Hn _]. by rewrite Hn in Hv.
Qed.

Lemma vtrace_evolves l c es l' c' pid p : RInv l c -> vtrace l c es l' c' -> stored c pid = Some p ->
exists p', stored c' pid = Some p' /\ evolve_by Any p p'.
Proof.
intros HR Ht. revert p. induction Ht as [l c | l c x e c1 es es' l' c' Hx Hcb Hr Ht IH]; intros p Hp.
- exists p. split; [done | reflexivity].
- destruct (vrun_step _ _ _ _ _ _ HR Hx Hcb Hr) as [HR1 Hev]. destruct (Hev _ _ Hp) as (p1 & Hp1 & He).
destruct (IH HR1 _ Hp1) as (p2 & Hp2 & He2). exists p2. split; [done|]. transitivity p1; [by eapply evolve_any | done].
Qed.

(** C26. In a run in which no executed proposal has an action that calls
[on_execute_proposal] of the voting contract itself, a proposal is never lost
and only moves forward, whatever calls are made, by users, by the contract or
by actions: its proposer, actions, flow and periods never change; its status
either stays or moves to a later rank, so a terminal status is final; a
snapshot once taken stays; the quorum, the thresholds and the approval time are
fixed when it leaves [Created]; the counters are fixed once the vote is over;
and the bond never grows. *)
Theorem proposals_move_forward me es F c es' F' c' pid p :
voting_run me es F c -> vsteps me F c es' F' c' -> all_unmarked me (es ++ es') -> stored c pid = Some p ->
exists p', stored c' pid = Some p' /\ evolve_by Any p p' /\
(terminal (status p) = true -> status p' = status p).
Proof.
intros H Hs Hu Hp. destruct (run_split _ _ _ _ _ _ _ H Hs Hu) as (l & l' & HR%vreachable_inv & Ht).
destruct (vtrace_evolves _ _ _ _ _ _ _ HR Ht Hp) as (p' & Hp' & He).
exists p'. split_and!; [done..|]. unfold terminal. intros Hr%Z.eqb_eq.
destruct (ev_status _ _ He) as [|Hlt]; [done|]. pose proof (rank_bound (status p')). lia.
Qed.

(** In every reachable state the two indexes agree with the stored
proposals: the active set holds exactly the proposals in an active
status, the pending queue holds exactly the queued ones, each once, every
stored proposal carries its own id, and every proposal has metadata. *)
Theorem indexes_exact l c : vreachable l c ->
(forall pid, pid ∈ is_iter (active_proposals c) <->
exists p, stored c pid = Some p /\ is_active_status (status p) = true) /\
(forall pid, pid ∈ pending_queue c <-> exists p, stored c pid = Some p /\ status p = St.Queued) /\
NoDup (pending_queue c) /\
(forall pid p, stored c pid = Some p -> id p = pid) /\
length (proposal_metadata c) = length (proposals c).
Proof.
intros [HI _ _]%vreachable_inv. split_and!; try apply HI. intros pid p Hp. by apply (stored_ok c).
Qed.

(** C29. Advancing the queue is first in, first out, and work conserving:
the promoted proposals [P] are a prefix of the pending queue and leave
it in order; no proposal stays pending while an active slot is free; the
number of active proposals never exceeds the limit (or what it was, when
the limit was lowered); every promoted proposal is the stored one,
activated and brought up to date; every active proposal is brought up to
date and everything else is unchanged. (In a reachable state every execution
callback was that of an execution, [callback_ok].) *)
Theorem queue_advance_fifo l c e u c' es : vreachable l c -> advance_queue e c = Ok (u, c', es) ->
exists P, pending_queue c = map id P ++ pending_queue c' /\
(forall p, p ∈ P -> promoted (block_timestamp e) c p /\ stored c' (id p) = Some p) /\
(forall pid, pid ∈ is_iter (active_proposals c) ->
exists p q, stored c pid = Some p /\ update p (block_timestamp e) = Ok q /\ stored c' pid = Some q) /\
(forall pid, pid ∉ is_iter (active_proposals c) -> pid ∉ map id P -> stored c' pid = stored c pid) /\
(pending_queue c' <> [] -> VConfig.max_active_proposals (v_config c) <= is_len (active_proposals c')) /\
is_len (active_proposals c') <= Z.max (is_len (active_proposals c)) (VConfig.max_active_proposals (v_config c)).
Proof.
intros [HI _ _]%vreachable_inv H. unfold advance_queue, assert_not_paused in H. m_inv.
apply advance_good in H as (_ & _ & _ & P & [A1 A2 A3 A4 A5 A6 A7 A8 A9 A10 A11]); [|done].
exists P. split_and!; try done.
- rewrite A2, A3. symmetry. apply take_drop.
- intros p Hp. rewrite Forall_forall in A1. auto.
- intros pid Hpid. destruct (A4 _ Hpid) as (q & Hf & Hq).
destruct (fresh_inv _ _ _ _ HI Hf) as (p & Hp & Hu & _). eauto.
Qed.

(** Statuses are computed lazily, and it does not matter when: bringing
a proposal up to date at [t1] and later at [t2] gives the same as doing
it once at [t2], with the same panics; and an update changes nothing but
the status, along an edge of the status diagram of its flow. *)
Theorem lazy_update_agrees p t1 t2 p1 : t1 <= t2 -> update p t1 = Ok p1 ->
update p1 t2 = update p t2 /\ p1 = Proposal.with_status p (status p1) /\
flow_edge (flow p) (has_actions p) (status p) (status p1) = true.
Proof.
intros Ht H. split_and!; [by eapply update_later | by apply (update_shape p t1) | by eapply update_edge].
Qed.

(** C32. The start of a FastTrack vote is the next Monday, midnight in UTC+1:
within the following seven days, and no earlier such instant comes
after the current block. *)
Theorem voting_starts_on_monday t r : next_voting_start_ns false t = Ok r -> 0 <= t ->
t < r <= t + 7 * NS_PER_DAY /\ cet_midnight r /\ cet_day r mod 7 = 4 /\
forall s, t < s < r -> ~ (cet_midnight s /\ cet_day s mod 7 = 4).
Proof. apply next_voting_start_monday. Qed.

(** The outcome of a vote is total on realistic supplies and is decided
by the rule: it succeeds exactly when a snapshot was taken, the votes
reach the quorum share of the total supply and the quorum floor, and the
[For] power is at least the approval share of [For] plus [Against],
which are not both zero. *)
Theorem outcome_rule p :
bps_ok (quorum_threshold_bps p) -> bps_ok (approval_threshold_bps p) ->
0 <= vote_power p 0 -> 0 <= vote_power p 1 -> (vote_power p 0 + vote_power p 1) * 10000 <= U128_MAX ->
(forall s, snapshot_and_state p = Some s -> 0 <= ss_total_venear s /\ ss_total_venear s * 10000 <= U128_MAX) ->
(compute_final_status p = Ok St.Succeeded /\ passes p) \/ (compute_final_status p = Ok St.Defeated /\ ~ passes p).
Proof.
intros Hq Ha H0 H1 Hm Hs. pose proof (compute_final_ok p Hq Ha H0 H1 Hm Hs) as Hok.
destruct (compute_final_status p) as [s|] eqn:E; [|discriminate].
destruct (compute_final_spec p s Hq E) as [[-> ?]|[-> ?]]; auto.
Qed.

(** A vote is accepted only during the voting period, or for [For]
during the sandbox period, on a proposal with a snapshot, with a valid
Merkle proof of an account whose owner is the caller (or for the
contract's own call of [take_snapshot_and_vote]), of positive power, and
not when the same option is already recorded. It replaces the previous
vote of the account in the counters, records the new one, and when it
takes a sandbox proposal over its threshold schedules the vote. Only
this proposal and this record are written after the queue is advanced. *)
Theorem vote_effect l c pid v proof va e u c' es :
vreachable l c -> vote pid v proof va e c = Ok (u, c', es) ->
exists c1 p p2 p3 s bal,
(exists P, advanced (block_timestamp e) c c1 P) /\ v_paused c = false /\
(exists q, stored c1 pid = Some q /\ update q (block_timestamp e) = Ok p) /\
cast e pid v proof va c1 p p2 p3 s bal /\
(forall y, stored c' y = if decide (y = pid) then Some p3 else stored c1 y) /\
vote_records c' = <[(account_id (account_from va), pid) := VoteOption.to_u8 v]> (vote_records c) /\
pending_queue c' = pending_queue c1.
Proof.
intros [HI _ _]%vreachable_inv H.
apply vote_parts in H as (c1 & p & p2 & p3 & s & bal & G & A & Hpa & Hx & Hc & W & HP); [|done].
apply set_proposal_inv in W as (W1 & _ & _ & _ & _ & _ & _ & W7 & _ & W9).
pose proof Hx as (q & Hq & Hu & Hid & Hok & _).
destruct (cast_evolve _ _ _ _ _ _ _ _ _ _ _ Hok Hc) as (_ & _ & Hid3 & _).
destruct A as (_ & _ & Hrec & _). cbn in W7, W9. rewrite Hrec in W7.
exists c1, p, p2, p3, s, bal. split_and!; try done; [eauto|]. intros y. rewrite W1. by rewrite Hid3, Hid.
Qed.

(** C27. A proposal is executed only after it passed: after any run in which no
executed proposal has an action that calls [on_execute_proposal] of the voting
contract itself, the proposals in timelock, executable, in progress, succeeded
or failed meet the outcome rule; and [execute_proposal] then emits exactly the
actions of a proposal that meets it, once the queue is advanced and its status
is [Executable]. *)
Theorem executed_only_if_passed me es F c :
voting_run me es F c -> all_unmarked me es ->
(forall pid p, stored c pid = Some p -> late (status p) = true -> passes p) /\
(forall pid e u c' es', execute_proposal pid e c = Ok (u, c', es') ->
exists p acts, stored c' pid = Some p /\ status p = St.InProgress /\ passes p /\
actions p = Some acts /\ acts <> [] /\ v_paused c = false /\
es' = [VLog (execute_proposal_action (predecessor_account_id e) pid); ExecuteActions acts pid]).
Proof.
intros H Hu. destruct (run_reachable _ _ _ _ H Hu) as (l & Hreach & _). pose proof (vreachable_inv _ _ Hreach) as HR.
split; [intros pid p; by apply (vreachable_passes l)|]. intros pid e u c' es' Hx. pose proof Hx as Hx'.
apply execute_parts in Hx' as (p & acts & Hp & Hs & Ha & Hne & Hpa & ->); [|apply HR].
exists (Proposal.with_status p St.InProgress), acts. split_and!; try done.
eapply (vreachable_passes (inflight_after (ExecuteProposal pid) l) c'); [|done|done].
destruct u. by eapply (vreach_call l c (ExecuteProposal pid) e c').
Qed.

(** C28. Over any run in which no executed proposal has an action that calls
[on_execute_proposal] of the voting contract itself, the actions of a proposal
are scheduled at most once, and never again for a proposal already in progress
or decided. *)
Theorem executed_at_most_once me es F c es' F' c' pid :
voting_run me es F c -> vsteps me F c es' F' c' -> all_unmarked me (es ++ es') ->
executions pid es' <= (if started c pid then 0 else 1).
Proof.
intros H Hs Hu. destruct (run_split _ _ _ _ _ _ _ H Hs Hu) as (l & l' & HR%vreachable_inv & Ht).
by apply trace_executions with (1 := HR) (2 := Ht).
Qed.


(** Every call is made by an account with the right role, with the
one-yocto confirmation where the call decides or configures, and the
pause blocks users, reviewers and the council but not the execution
callback, the owner's settings or the refund of a bond. *)
Theorem voting_calls_authorised l c x e c' es :
vreachable l c -> vrun x e c = Ok (tt, c', es) -> authorised x e c.
Proof.
intros [HI _ _]%vreachable_inv H. destruct x; cbn [vrun authorised] in *; m_inv.
all: try (unfold create_proposal, vote, take_snapshot_and_vote, approve_proposal, reject_proposal, veto_proposal,
noveto_proposal, slash_proposal, on_get_snapshot, on_execute_proposal, advance_queue, execute_proposal,
accept_ownership, set_max_active_proposals, pause, unpause, assert_owner, assert_guardian, assert_not_paused,
assert_called_by_reviewer, assert_called_by_council in *; m_inv; bool_prop;
unfold is_reviewer, is_council, is_owner; split_and?;
repeat match goal with H : String.eqb _ _ = true |- _ => apply String.eqb_eq in H
| H : _ || _ = true |- _ => apply orb_prop in H as [H|H]; bool_prop end; auto; fail).
- unfold claim_bond in H. m_inv. bool_prop.
match goal with E : internal_expect_proposal_updated _ _ _ = _ |- _ =>
apply expect_run in E as (-> & -> & Hx); [|done] end.
pose proof Hx as (q & Hq & _). exists q. split; [done|]. destruct (read_bond _ _ _ _ _ Hx Hq) as [_ <-].
match goal with H : String.eqb _ _ = true |- _ => by apply String.eqb_eq in H end.
- apply setting_inv in H as (k & -> & ? & ? & _). by split.
Qed.

(** C30. The views agree with what advancing the queue would store: the
proposal a view returns is the one a call would read in the same block
after advancing, and the queue view lists the same active proposals and
the same pending queue. (In a reachable state every execution callback was that
of an execution, [callback_ok].) *)
Theorem views_agree_with_advance l c now c' :
vreachable l c -> advance_queue_at now c = Ok c' ->
(forall pid info, get_proposal now c pid = Ok (Some info) ->
exists q, stored c' pid = Some q /\ update q now = Ok (info_proposal info)) /\
(exists qs, get_queue_state now c = Ok qs /\ qs_active_proposals qs ≡ₚ is_iter (active_proposals c') /\
qs_pending_queue qs = pending_queue c').
Proof.
intros [HI _ _]%vreachable_inv H. split; [intros pid info Hg; by eapply proposal_view | by apply queue_view].
Qed.

(** Approval by a reviewer fixes the rules of a created proposal from
the settings of that moment, sends the bond to the treasury, and then
either activates the proposal in the current block and asks veNEAR for
the snapshot, when a slot is free after advancing the queue, or puts it
at the end of the queue. *)
Theorem approve_effect l c pid m e r c' es :
vreachable l c -> approve_proposal pid m e c = Ok (r, c', es) ->
exists c1 p p3, (exists P, advanced (block_timestamp e) c c1 P) /\ proposal_read pid e c1 p /\
status p = St.Created /\ approved (v_config c) e p p3 /\
(0 < bond_amount p -> VTransfer (VConfig.treasury_account_id (v_config c)) (bond_amount p) ∈ es) /\
if is_len (active_proposals c1) <? VConfig.max_active_proposals (v_config c)
then stored c' pid = Some (activate p3 (block_timestamp e)) /\ pending_queue c' = pending_queue c1 /\
GetSnapshot (VConfig.venear_account_id (v_config c)) pid ∈ es
else stored c' pid = Some (Proposal.with_status p3 St.Queued) /\ pending_queue c' = pending_queue c1 ++ [pid].
Proof.
intros [HI Hk _]%vreachable_inv H.
apply approve_parts in H as (c1 & p & p3 & G & A & HP & Hx & Hs & Hap & _ & _ & _ & Hb & H); [|done..].
exists c1, p, p3. split_and!; try done. pose proof Hx as (q & _ & _ & Hid & _).
assert (id p3 = pid) as Hid3 by (rewrite (ev_id _ _ (ap_evolve _ _ _ _ Hap)); done).
destruct (_ <? _).
- destruct H as [W Hes]. apply set_proposal_inv in W as (W & _ & _ & _ & _ & _ & _ & _ & _ & W9).
split_and!; try done. rewrite W, activate_id. by rewrite decide_True.
- destruct H as (c2 & W & ->). apply set_proposal_inv in W as (W & _ & _ & _ & _ & _ & _ & _ & _ & W9).
cbn. rewrite W9. split; [|done]. unfold stored. cbn. fold (stored c2 pid). rewrite W. cbn. by rewrite decide_True.
Qed.

(** Creating a proposal appends it in status [Created] with the settings
of its flow, charges the bond, the base fee and the storage it takes (the
reserve for its snapshot included) from the attached deposit, and
returns exactly the rest. *)
Theorem create_effect l c md acts fl e r c' es :
vreachable l c -> create_proposal md acts fl e c = Ok (r, c', es) ->
r = vec_len (proposals c) /\ acts <> Some [] /\ v_paused c = false /\
(exists p, new_proposal e (v_config c) r acts fl = Ok p /\ stored c' r = Some p /\ status p = St.Created /\
proposer_id p = predecessor_account_id e /\
let required := bond_amount p + VConfig.base_proposal_fee (v_config c) + storage_byte_cost e *
saturating_sub (vt_storage_usage c' + SNAPSHOT_STORAGE_RESERVE_BYTES) (vt_storage_usage c) in
required <= attached_deposit e /\
es = VLog (create_proposal_action "create_proposal" (predecessor_account_id e) r)
:: if required <? attached_deposit e
 then [VTransfer (predecessor_account_id e) (attached_deposit e - required)] else []) /\
(forall pid, pid <> r -> stored c' pid = stored c pid).
Proof.
intros [HI Hk _]%vreachable_inv H. pose proof H as H'. apply create_parts in H' as (p & Hp & -> & ->); [|done..].
unfold create_proposal, assert_not_paused in H. m_inv. bool_prop.
match goal with B : new_proposal _ _ _ _ _ = Ok ?x |- _ =>
lazymatch x with p => fail | _ => rewrite Hp in B; injection B as <- end end.
apply new_proposal_ok in Hp as Hn; [|done]. destruct Hn as (_ & _ & Hs & Hpr & _).
unfold near_add, u64_add in *. res_inv. split_and!; try done.
- by intros ->.
- exists p. match goal with H : (if ?b then _ else _) _ _ = Ok _ |- _ => destruct b eqn:Eb in H end;
unfold near_sub in *; m_inv; res_inv; cbn in *; rewrite Eb; split_and!; try done.
all: unfold stored; cbn; rewrite vec_get_app; by rewrite decide_True.
- intros pid Hne. m_all; unfold stored; cbn; rewrite vec_get_app; by rewrite decide_False.
Qed.
End theorems.
