(* ===== verification/LockupContract.v ===== *)
(** * The lockup contract (lockup-contract/src)

    One instance per veNEAR account holds the NEAR of its owner. The NEAR may
    be deposited to a whitelisted staking pool, and may be locked for veNEAR;
    both are bookkeeping over the balance of the account. *)
From stdpp Require Import base gmap strings list.
From Stdlib Require Import ZArith Lia.
From S2P Require Import Prelude.
From S2P Require Import Near.
From S2P Require Import Common.

Local Open Scope Z_scope.

(** ** types.rs *)
Module TransactionStatus.
Inductive t : Type := Idle | Busy.
#[export] Instance eq_dec : EqDecision t.
Proof. solve_decision. Defined.
End TransactionStatus.

Record StakingInformation : Type := mkStaking {
  staking_pool_account_id : AccountId;
  staking_status : TransactionStatus.t;
  deposit_amount : NearToken
}.

(** ** gas.rs *)
Module Gas.
Definition BASE_GAS : Z := 25_000_000_000_000.
Definition IS_WHITELISTED : Z := BASE_GAS.
Definition DEPOSIT : Z := BASE_GAS * 2.
Definition DEPOSIT_AND_STAKE : Z := BASE_GAS * 3.
Definition WITHDRAW : Z := BASE_GAS * 3.
Definition STAKE : Z := BASE_GAS * 3.
Definition UNSTAKE : Z := BASE_GAS * 3.
Definition UNSTAKE_ALL : Z := BASE_GAS * 3.
Definition GET_ACCOUNT_UNSTAKED_BALANCE : Z := BASE_GAS.
Definition GET_ACCOUNT_TOTAL_BALANCE : Z := BASE_GAS.
Definition ON_WHITELIST_IS_WHITELISTED : Z := BASE_GAS.
Definition ON_STAKING_POOL_DEPOSIT : Z := BASE_GAS.
Definition ON_STAKING_POOL_DEPOSIT_AND_STAKE : Z := BASE_GAS.
Definition ON_STAKING_POOL_WITHDRAW : Z := BASE_GAS.
Definition ON_STAKING_POOL_STAKE : Z := BASE_GAS.
Definition ON_STAKING_POOL_UNSTAKE : Z := BASE_GAS.
Definition ON_STAKING_POOL_UNSTAKE_ALL : Z := BASE_GAS.
Definition ON_GET_ACCOUNT_TOTAL_BALANCE : Z := BASE_GAS.
Definition ON_GET_ACCOUNT_UNSTAKED_BALANCE_TO_WITHDRAW_BY_OWNER : Z :=
BASE_GAS + WITHDRAW + ON_STAKING_POOL_WITHDRAW.
(** venear_ext.rs *)
Definition GAS_FOR_VENEAR_LOCKUP_UPDATE : Z := 20_000_000_000_000.
End Gas.

(** ** lib.rs *)
Record Lockup : Type := mkLockup {
  owner_account_id : AccountId;
  venear_account_id : AccountId;
  staking_pool_whitelist_account_id : AccountId;
  staking_information : option StakingInformation;
  unlock_duration_ns : Z;
  venear_locked_balance : NearToken;
  venear_unlock_timestamp : TimestampNs;
  venear_pending_balance : NearToken;
  lockup_update_nonce : Z;
  version : Version;
  min_lockup_deposit : NearToken
}.

(** The calls of a staking pool ([ExtStakingPool]), each with its callback. *)
Inductive PoolOp : Type :=
| Deposit (amount : NearToken)
| DepositAndStake (amount : NearToken)
| Withdraw (amount : NearToken)
| Stake (amount : NearToken)
| Unstake (amount : NearToken)
| UnstakeAll
| GetTotalBalance
| GetUnstakedBalance.

(** Receipts: [PoolCall pool op deposit gas callback_gas] is the call of the
    pool with the callback [on_...] of [op] chained to it. *)
Inductive LEffect : Type :=
| LEvent (ev : Event)
| CheckWhitelist (whitelist pool : AccountId) (gas callback_gas : Z)
| PoolCall (pool : AccountId) (op : PoolOp) (deposit : NearToken) (gas callback_gas : Z)
| LTransfer (receiver : AccountId) (amount : NearToken)
| DeleteAccount (beneficiary : AccountId)
| CallLockupUpdate (venear : AccountId) (version : Version) (owner : AccountId) (update : VLockupUpdate) (gas : Z).

(** [env::is_valid_account_id] of the host. *)
Class LockupHost : Type := is_valid_account_id : AccountId -> bool.

Section contract.
Context `{LH : LockupHost}.

Abbreviation ML := (M LEffect Lockup).

Definition with_staking (c : Lockup) (s : option StakingInformation) : Lockup :=
mkLockup (owner_account_id c) (venear_account_id c) (staking_pool_whitelist_account_id c) s
(unlock_duration_ns c) (venear_locked_balance c) (venear_unlock_timestamp c) (venear_pending_balance c)
(lockup_update_nonce c) (version c) (min_lockup_deposit c).
Definition with_balances (c : Lockup) (locked pending : NearToken) : Lockup :=
mkLockup (owner_account_id c) (venear_account_id c) (staking_pool_whitelist_account_id c) (staking_information c)
(unlock_duration_ns c) locked (venear_unlock_timestamp c) pending
(lockup_update_nonce c) (version c) (min_lockup_deposit c).
Definition with_unlock_timestamp (c : Lockup) (t : TimestampNs) : Lockup :=
mkLockup (owner_account_id c) (venear_account_id c) (staking_pool_whitelist_account_id c) (staking_information c)
(unlock_duration_ns c) (venear_locked_balance c) t (venear_pending_balance c)
(lockup_update_nonce c) (version c) (min_lockup_deposit c).
Definition with_nonce (c : Lockup) (n : Z) : Lockup :=
mkLockup (owner_account_id c) (venear_account_id c) (staking_pool_whitelist_account_id c) (staking_information c)
(unlock_duration_ns c) (venear_locked_balance c) (venear_unlock_timestamp c) (venear_pending_balance c)
n (version c) (min_lockup_deposit c).

Definition lockup_new (e : Env) (owner venear : AccountId) (unlock_duration : Z) (whitelist : AccountId)
(v : Version) (nonce : Z) (min_deposit : NearToken) : result Lockup :=
require (min_deposit <=? account_balance e) "Not enough NEAR for storage" ;;
mret (mkLockup owner venear whitelist None unlock_duration 0 0 0 nonce v min_deposit).

(** ** internal.rs *)
Definition get_account_balance (e : Env) (c : Lockup) : NearToken :=
saturating_sub (account_balance e) (min_lockup_deposit c).

Definition set_staking_pool_status (s : TransactionStatus.t) : ML unit :=
c ← get_state;
info ← lift (expect (staking_information c) "Staking pool should be selected");
put_state (with_staking c (Some (mkStaking (staking_pool_account_id info) s (deposit_amount info)))).

Definition assert_no_staking_or_idle : ML unit :=
c ← get_state;
match staking_information c with
| Some info =>
match staking_status info with
| TransactionStatus.Idle => mret tt
| TransactionStatus.Busy => panicM "Contract is currently busy with another operation"
end
| None => mret tt
end.

(** Returns the selected pool, which the callers read next. *)
Definition assert_staking_pool_is_idle : ML StakingInformation :=
c ← get_state;
info ← lift (expect (staking_information c) "Staking pool is not selected");
match staking_status info with
| TransactionStatus.Idle => mret info
| TransactionStatus.Busy => panicM "Contract is currently busy with another operation"
end.

Definition assert_staking_pool_is_not_selected : ML unit :=
c ← get_state;
requireM (match staking_information c with None => true | Some _ => false end)
"Staking pool is already selected".

Definition assert_owner : ML unit :=
c ← get_state; p ← asks predecessor_account_id;
requireM (String.eqb p (owner_account_id c)) "Can only be called by the owner".

(** ** getters.rs *)
Definition get_known_deposited_balance (c : Lockup) : NearToken :=
match staking_information c with Some info => deposit_amount info | None => 0 end.

Definition get_balance (e : Env) (c : Lockup) : result NearToken :=
u128_add (account_balance e) (get_known_deposited_balance c).

Definition get_liquid_owners_balance (e : Env) (c : Lockup) : NearToken := get_account_balance e c.

Definition get_staking_pool_account_id (c : Lockup) : option AccountId :=
staking_pool_account_id <$> staking_information c.

(** ** venear.rs: internals *)
Definition venear_liquid_balance (e : Env) (c : Lockup) : result NearToken :=
total ← u128_add (account_balance e) (get_known_deposited_balance c);
r ← checked_op U128_MAX (total - venear_locked_balance c) "Illegal balance";
checked_op U128_MAX (r - venear_pending_balance c) "Illegal balance".

Definition set_venear_unlock_timestamp : ML unit :=
c ← get_state; now ← asks block_timestamp;
t ← lift (u64_add now (unlock_duration_ns c));
put_state (with_unlock_timestamp c t).

Definition venear_lockup_update : ML unit :=
c ← get_state; now ← asks block_timestamp;
nonce ← lift (u64_add (lockup_update_nonce c) 1);
put_state (with_nonce c nonce) ;;
emit (CallLockupUpdate (venear_account_id c) (version c) (owner_account_id c)
(LV1 (mkLockupUpdate (venear_locked_balance c) now nonce)) Gas.GAS_FOR_VENEAR_LOCKUP_UPDATE).

(** ** venear.rs: the owner's methods *)
Definition lock_near (amount : option NearToken) : ML unit :=
assert_owner ;; assert_one_yocto ;;
e ← asks (fun e => e);
c ← get_state;
a ← match amount with Some a => mret a | None => lift (venear_liquid_balance e c) end;
liquid ← lift (venear_liquid_balance e c);
requireM (a <=? liquid) "Invalid amount" ;;
locked ← lift (u128_add (venear_locked_balance c) a);
put_state (with_balances c locked (venear_pending_balance c)) ;;
emit (LEvent (lockup_action "lockup_lock_near" (current_account_id e) (version c)
(Some (lockup_update_nonce c)) (Some (block_timestamp e)) (Some a))) ;;
venear_lockup_update.

Definition begin_unlock_near (amount : option NearToken) : ML unit :=
assert_owner ;; assert_one_yocto ;;
c ← get_state;
let a := default (venear_locked_balance c) amount in
requireM (a <=? venear_locked_balance c) "Invalid amount" ;;
locked ← lift (u128_sub (venear_locked_balance c) a);
pending ← lift (u128_add (venear_pending_balance c) a);
put_state (with_balances c locked pending) ;;
set_venear_unlock_timestamp ;;
venear_lockup_update.

Definition end_unlock_near (amount : option NearToken) : ML unit :=
assert_owner ;; assert_one_yocto ;;
c ← get_state; now ← asks block_timestamp;
let a := default (venear_pending_balance c) amount in
requireM (a <=? venear_pending_balance c) "Invalid amount" ;;
requireM (venear_unlock_timestamp c <=? now) "Invalid unlock time" ;;
pending ← lift (u128_sub (venear_pending_balance c) a);
put_state (with_balances c (venear_locked_balance c) pending) ;;
venear_lockup_update.

Definition lock_pending_near (amount : option NearToken) : ML unit :=
assert_owner ;; assert_one_yocto ;;
c ← get_state;
let a := default (venear_pending_balance c) amount in
requireM (a <=? venear_pending_balance c) "Invalid amount" ;;
pending ← lift (u128_sub (venear_pending_balance c) a);
locked ← lift (u128_add (venear_locked_balance c) a);
put_state (with_balances c locked pending) ;;
venear_lockup_update.

(** ** owner.rs *)
Definition select_staking_pool (pool : AccountId) : ML unit :=
assert_owner ;; assert_one_yocto ;;
requireM (is_valid_account_id pool) "The staking pool account ID is invalid" ;;
assert_staking_pool_is_not_selected ;;
c ← get_state;
emit (CheckWhitelist (staking_pool_whitelist_account_id c) pool Gas.IS_WHITELISTED
Gas.ON_WHITELIST_IS_WHITELISTED).

Definition unselect_staking_pool : ML unit :=
assert_owner ;; assert_one_yocto ;;
info ← assert_staking_pool_is_idle;
requireM (deposit_amount info =? 0) "There is still a deposit on the staking pool" ;;
modify (fun c => with_staking c None).

Definition deposit_to_staking_pool (amount : NearToken) : ML unit :=
assert_owner ;; assert_one_yocto ;;
requireM (0 <? amount) "Amount should be positive" ;;
info ← assert_staking_pool_is_idle;
e ← asks (fun e => e); c ← get_state;
requireM (amount <=? get_account_balance e c)
"The balance that can be deposited to the staking pool is lower than the extra amount" ;;
set_staking_pool_status TransactionStatus.Busy ;;
emit (PoolCall (staking_pool_account_id info) (Deposit amount) amount Gas.DEPOSIT Gas.ON_STAKING_POOL_DEPOSIT).

Definition deposit_and_stake (amount : NearToken) : ML unit :=
assert_owner ;; assert_one_yocto ;;
requireM (0 <? amount) "Amount should be positive" ;;
info ← assert_staking_pool_is_idle;
e ← asks (fun e => e); c ← get_state;
requireM (amount <=? get_account_balance e c)
"The balance that can be deposited to the staking pool is lower than the extra amount" ;;
set_staking_pool_status TransactionStatus.Busy ;;
emit (PoolCall (staking_pool_account_id info) (DepositAndStake amount) amount Gas.DEPOSIT_AND_STAKE
Gas.ON_STAKING_POOL_DEPOSIT_AND_STAKE).

Definition refresh_staking_pool_balance : ML unit :=
assert_owner ;; assert_one_yocto ;;
info ← assert_staking_pool_is_idle;
set_staking_pool_status TransactionStatus.Busy ;;
emit (PoolCall (staking_pool_account_id info) GetTotalBalance 0 Gas.GET_ACCOUNT_TOTAL_BALANCE
Gas.ON_GET_ACCOUNT_TOTAL_BALANCE).

Definition withdraw_from_staking_pool (amount : NearToken) : ML unit :=
assert_owner ;; assert_one_yocto ;;
requireM (0 <? amount) "Amount should be positive" ;;
info ← assert_staking_pool_is_idle;
set_staking_pool_status TransactionStatus.Busy ;;
emit (PoolCall (staking_pool_account_id info) (Withdraw amount) 0 Gas.WITHDRAW Gas.ON_STAKING_POOL_WITHDRAW).

Definition withdraw_all_from_staking_pool : ML unit :=
assert_owner ;; assert_one_yocto ;;
info ← assert_staking_pool_is_idle;
set_staking_pool_status TransactionStatus.Busy ;;
emit (PoolCall (staking_pool_account_id info) GetUnstakedBalance 0 Gas.GET_ACCOUNT_UNSTAKED_BALANCE
Gas.ON_GET_ACCOUNT_UNSTAKED_BALANCE_TO_WITHDRAW_BY_OWNER).

Definition stake (amount : NearToken) : ML unit :=
assert_owner ;; assert_one_yocto ;;
requireM (0 <? amount) "Amount should be positive" ;;
info ← assert_staking_pool_is_idle;
set_staking_pool_status TransactionStatus.Busy ;;
emit (PoolCall (staking_pool_account_id info) (Stake amount) 0 Gas.STAKE Gas.ON_STAKING_POOL_STAKE).

Definition unstake (amount : NearToken) : ML unit :=
assert_owner ;; assert_one_yocto ;;
requireM (0 <? amount) "Amount should be positive" ;;
info ← assert_staking_pool_is_idle;
set_staking_pool_status TransactionStatus.Busy ;;
emit (PoolCall (staking_pool_account_id info) (Unstake amount) 0 Gas.UNSTAKE Gas.ON_STAKING_POOL_UNSTAKE).

Definition unstake_all : ML unit :=
assert_owner ;; assert_one_yocto ;;
info ← assert_staking_pool_is_idle;
set_staking_pool_status TransactionStatus.Busy ;;
emit (PoolCall (staking_pool_account_id info) UnstakeAll 0 Gas.UNSTAKE_ALL Gas.ON_STAKING_POOL_UNSTAKE_ALL).

Definition transfer (amount : NearToken) (receiver : AccountId) : ML unit :=
assert_owner ;; assert_one_yocto ;;
requireM (0 <? amount) "Amount should be positive" ;;
requireM (is_valid_account_id receiver) "The receiver account ID is invalid" ;;
assert_no_staking_or_idle ;;
e ← asks (fun e => e); c ← get_state;
requireM (amount <=? get_liquid_owners_balance e c) "The available liquid balance is smaller" ;;
liquid ← lift (venear_liquid_balance e c);
requireM (amount <=? liquid) "The available liquid balance is smaller" ;;
emit (LTransfer receiver amount).

Definition delete_lockup : ML unit :=
assert_owner ;; assert_one_yocto ;;
assert_no_staking_or_idle ;;
e ← asks (fun e => e); c ← get_state;
requireM (get_known_deposited_balance c =? 0) "Can't delete account with non-zero staked NEAR balance" ;;
requireM (venear_locked_balance c =? 0) "Can't delete account with non-zero locked venear balance" ;;
requireM (venear_pending_balance c =? 0) "Can't delete account with non-zero pending venear balance" ;;
emit (LEvent (lockup_action "lockup_delete" (predecessor_account_id e) (version c)
(Some (lockup_update_nonce c)) None None)) ;;
emit (DeleteAccount (owner_account_id c)).

(** ** owner_callbacks.rs: [#[callback]] arguments need a successful promise *)
Definition callback_arg {A} (value : A) : ML A :=
e ← asks (fun e => e);
requireM (match promise_results e with Successful :: _ => true | _ => false end)
"Callback computation 0 was not successful" ;;
mret value.

Definition on_whitelist_is_whitelisted (answer : bool) (pool : AccountId) : ML bool :=
assert_private ;;
is_whitelisted ← callback_arg answer;
requireM is_whitelisted "The given staking pool account ID is not whitelisted" ;;
assert_staking_pool_is_not_selected ;;
modify (fun c => with_staking c (Some (mkStaking pool TransactionStatus.Idle 0))) ;;
mret true.

Definition set_deposit (f : NearToken -> result NearToken) : ML unit :=
c ← get_state;
info ← lift (expect (staking_information c) unwrap_none);
d ← lift (f (deposit_amount info));
put_state (with_staking c (Some (mkStaking (staking_pool_account_id info) (staking_status info) d))).

Definition on_staking_pool_deposit_inner (amount : NearToken) (succeeded : bool) : ML bool :=
set_staking_pool_status TransactionStatus.Idle ;;
(if succeeded then set_deposit (fun d => u128_add d amount) else mret tt) ;;
mret succeeded.

Definition on_staking_pool_deposit (amount : NearToken) : ML bool :=
assert_private ;;
ok ← asks is_promise_success;
on_staking_pool_deposit_inner amount ok.

Definition on_staking_pool_deposit_and_stake (amount : NearToken) : ML bool :=
assert_private ;;
ok ← asks is_promise_success;
set_staking_pool_status TransactionStatus.Idle ;;
(if (ok : bool) then set_deposit (fun d => u128_add d amount) else mret tt) ;;
mret ok.

Definition on_staking_pool_withdraw_inner (amount : NearToken) (succeeded : bool) : ML bool :=
set_staking_pool_status TransactionStatus.Idle ;;
(if succeeded then set_deposit (fun d => mret (saturating_sub d amount)) else mret tt) ;;
mret succeeded.

Definition on_staking_pool_withdraw (amount : NearToken) : ML bool :=
assert_private ;;
ok ← asks is_promise_success;
on_staking_pool_withdraw_inner amount ok.

Definition on_staking_pool_stake_inner (amount : NearToken) (succeeded : bool) : ML bool :=
set_staking_pool_status TransactionStatus.Idle ;; mret succeeded.
Definition on_staking_pool_stake (amount : NearToken) : ML bool :=
assert_private ;; ok ← asks is_promise_success; on_staking_pool_stake_inner amount ok.

Definition on_staking_pool_unstake_inner (amount : NearToken) (succeeded : bool) : ML bool :=
set_staking_pool_status TransactionStatus.Idle ;; mret succeeded.
Definition on_staking_pool_unstake (amount : NearToken) : ML bool :=
assert_private ;; ok ← asks is_promise_success; on_staking_pool_unstake_inner amount ok.

Definition on_staking_pool_unstake_all : ML bool :=
assert_private ;; ok ← asks is_promise_success;
set_staking_pool_status TransactionStatus.Idle ;; mret ok.

Definition on_get_account_total_balance (answer : NearToken) : ML unit :=
assert_private ;;
total_balance ← callback_arg answer;
set_staking_pool_status TransactionStatus.Idle ;;
set_deposit (fun _ => mret total_balance).

Definition on_get_account_unstaked_balance_to_withdraw_by_owner (answer : NearToken) : ML unit :=
assert_private ;;
unstaked_balance ← callback_arg answer;
if 0 <? unstaked_balance then
c ← get_state;
info ← lift (expect (staking_information c) unwrap_none);
emit (PoolCall (staking_pool_account_id info) (Withdraw unstaked_balance) 0 Gas.WITHDRAW
Gas.ON_STAKING_POOL_WITHDRAW)
else set_staking_pool_status TransactionStatus.Idle.

(** ** transfer.rs *)
Definition ft_on_transfer : ML Z :=
c ← get_state; p ← asks predecessor_account_id;
requireM (bool_decide (Some p = get_staking_pool_account_id c)) "Only currently selected LST is accepted" ;;
mret 0.
End contract.
