(* ===== verification/LockupFacts.v ===== *)
(** * Executions of the lockup contract

    The calls and callbacks of the contract as data, what each of them does to
    the locked and pending balances, and traces of steps at increasing times. *)
From stdpp Require Import base gmap strings list.
From Stdlib Require Import ZArith Lia.
From S2P Require Import Prelude.
From S2P Require Import Near.
From S2P Require Import Common.
From S2P Require Import LockupContract.

Local Open Scope Z_scope.

Inductive LCall : Type :=
| LockNear (amount : option NearToken)
| BeginUnlock (amount : option NearToken)
| EndUnlock (amount : option NearToken)
| LockPending (amount : option NearToken)
| SelectPool (pool : AccountId)
| UnselectPool
| DepositToPool (amount : NearToken)
| DepositStake (amount : NearToken)
| RefreshBalance
| WithdrawFromPool (amount : NearToken)
| WithdrawAll
| StakeAt (amount : NearToken)
| UnstakeAt (amount : NearToken)
| UnstakeAllAt
| TransferOut (amount : NearToken) (receiver : AccountId)
| DeleteLockup.

(** Amounts are [u128]. *)
Definition lcall_ok (x : LCall) : Prop :=
  match x with
  | LockNear (Some a) | BeginUnlock (Some a) | EndUnlock (Some a) | LockPending (Some a) => 0 <= a
  | _ => True
  end.

Section facts.
Context `{LH : LockupHost}.

Definition lrun (x : LCall) : M LEffect Lockup unit :=
match x with
| LockNear a => lock_near a
| BeginUnlock a => begin_unlock_near a
| EndUnlock a => end_unlock_near a
| LockPending a => lock_pending_near a
| SelectPool p => select_staking_pool p
| UnselectPool => unselect_staking_pool
| DepositToPool a => deposit_to_staking_pool a
| DepositStake a => deposit_and_stake a
| RefreshBalance => refresh_staking_pool_balance
| WithdrawFromPool a => withdraw_from_staking_pool a
| WithdrawAll => withdraw_all_from_staking_pool
| StakeAt a => stake a
| UnstakeAt a => unstake a
| UnstakeAllAt => unstake_all
| TransferOut a r => transfer a r
| DeleteLockup => delete_lockup
end.

(** The callback of a pool call; [answer] is the value the pool returned. *)
Definition run_callback (op : PoolOp) (answer : NearToken) : M LEffect Lockup unit :=
match op with
| Deposit a => on_staking_pool_deposit a ;; mret tt
| DepositAndStake a => on_staking_pool_deposit_and_stake a ;; mret tt
| Withdraw a => on_staking_pool_withdraw a ;; mret tt
| Stake a => on_staking_pool_stake a ;; mret tt
| Unstake a => on_staking_pool_unstake a ;; mret tt
| UnstakeAll => on_staking_pool_unstake_all ;; mret tt
| GetTotalBalance => on_get_account_total_balance answer
| GetUnstakedBalance => on_get_account_unstaked_balance_to_withdraw_by_owner answer
end.

(** ** The four operations on locked NEAR *)

(** One report to veNEAR, with the next nonce and the new locked amount. *)
Definition report (c' : Lockup) (now : TimestampNs) : LEffect :=
CallLockupUpdate (venear_account_id c') (version c') (owner_account_id c')
(LV1 (mkLockupUpdate (venear_locked_balance c') now (lockup_update_nonce c'))) Gas.GAS_FOR_VENEAR_LOCKUP_UPDATE.

(** What a successful operation on the balances does. *)
Record relocked (c c' : Lockup) (e : Env) (locked pending ts : Z) (es : list LEffect) : Prop := mkRelocked {
rl_state : c' = with_nonce (with_unlock_timestamp (with_balances c locked pending) ts) (lockup_update_nonce c + 1);
rl_owner : predecessor_account_id e = owner_account_id c /\ attached_deposit e = 1;
rl_report : last es = Some (report c' (block_timestamp e)) /\
Forall (fun ef => match ef with LEvent _ => True | _ => False end) (removelast es);
rl_nonneg : 0 <= locked <= U128_MAX /\ 0 <= pending
}.

Lemma report_inv e c u c' es : venear_lockup_update e c = Ok (u, c', es) ->
c' = with_nonce c (lockup_update_nonce c + 1) /\ es = [report c' (block_timestamp e)].
Proof. intros H. unfold venear_lockup_update, u64_add in H. m_inv. res_inv. done. Qed.

Lemma owner_inv e c u c' es : assert_owner e c = Ok (u, c', es) ->
predecessor_account_id e = owner_account_id c /\ c' = c /\ es = [].
Proof.
intros H. unfold assert_owner in H. m_inv.
match goal with H : String.eqb _ _ = true |- _ => apply String.eqb_eq in H end. done.
Qed.

Lemma liquid_inv e c r : venear_liquid_balance e c = Ok r ->
r = account_balance e + get_known_deposited_balance c - venear_locked_balance c - venear_pending_balance c /\
0 <= r /\ venear_locked_balance c <= account_balance e + get_known_deposited_balance c.
Proof. unfold venear_liquid_balance, u128_add. intros H. res_inv. lia. Qed.

Ltac lk_start H :=
m_inv; repeat match goal with
| E : assert_owner _ _ = Ok _ |- _ => apply owner_inv in E as (? & -> & ->)
| E : venear_lockup_update _ _ = Ok _ |- _ => apply report_inv in E as [-> ->]
end; bool_prop.

Ltac relock := split; [done | done | split; [done | cbn; by repeat constructor] | cbn; lia].

Lemma lock_near_parts o e c u c' es : 0 <= venear_pending_balance c -> lock_near o e c = Ok (u, c', es) ->
exists a, a = default (account_balance e + get_known_deposited_balance c - venear_locked_balance c - venear_pending_balance c) o /\
venear_locked_balance c + a + venear_pending_balance c <= account_balance e + get_known_deposited_balance c /\
relocked c c' e (venear_locked_balance c + a) (venear_pending_balance c) (venear_unlock_timestamp c) es.
Proof.
intros Hp H. unfold lock_near in H. destruct o as [a|]; lk_start H.
all: repeat match goal with H : venear_liquid_balance _ _ = Ok ?x |- _ => apply liquid_inv in H as (-> & ? & ?) end.
all: unfold u128_add in *; res_inv; eexists; (split; [done|]); cbn; (split; [lia|]); relock.
Qed.

Lemma begin_unlock_parts o e c u c' es : 0 <= venear_pending_balance c -> begin_unlock_near o e c = Ok (u, c', es) ->
let a := default (venear_locked_balance c) o in
a <= venear_locked_balance c /\ block_timestamp e + unlock_duration_ns c <= U64_MAX /\
relocked c c' e (venear_locked_balance c - a) (venear_pending_balance c + a)
(block_timestamp e + unlock_duration_ns c) es.
Proof.
intros Hp H a. subst a. unfold begin_unlock_near, set_venear_unlock_timestamp in H. lk_start H.
unfold u128_add, u128_sub, u64_add in *. res_inv. cbn in *. split_and!; try lia. relock.
Qed.

Lemma end_unlock_parts o e c u c' es : 0 <= venear_locked_balance c <= U128_MAX -> end_unlock_near o e c = Ok (u, c', es) ->
let a := default (venear_pending_balance c) o in
a <= venear_pending_balance c /\ venear_unlock_timestamp c <= block_timestamp e /\
relocked c c' e (venear_locked_balance c) (venear_pending_balance c - a) (venear_unlock_timestamp c) es.
Proof.
intros Hp H a. subst a. unfold end_unlock_near in H. lk_start H.
unfold u128_sub in *. res_inv. split_and!; [lia | done |]. relock.
Qed.

Lemma lock_pending_parts o e c u c' es : lock_pending_near o e c = Ok (u, c', es) ->
let a := default (venear_pending_balance c) o in
a <= venear_pending_balance c /\
relocked c c' e (venear_locked_balance c + a) (venear_pending_balance c - a) (venear_unlock_timestamp c) es.
Proof.
intros H a. subst a. unfold lock_pending_near in H. lk_start H.
unfold u128_sub, u128_add in *. res_inv. split_and!; [lia |]. relock.
Qed.

(** ** The other calls and the callbacks leave the locked NEAR alone *)
Record same_locked (c c' : Lockup) (es : list LEffect) : Prop := mkSame {
sl_state : c' = with_staking c (staking_information c');
sl_quiet : Forall (fun ef => match ef with CallLockupUpdate _ _ _ _ _ => False | _ => True end) es
}.

Definition is_lock_call (x : LCall) : bool :=
match x with LockNear _ | BeginUnlock _ | EndUnlock _ | LockPending _ => true | _ => false end.

Lemma same_refl c : c = with_staking c (staking_information c).
Proof. by destruct c. Qed.

Lemma idle_inv e c info c' es : assert_staking_pool_is_idle e c = Ok (info, c', es) ->
c' = c /\ es = [] /\ staking_information c = Some info /\ staking_status info = TransactionStatus.Idle.
Proof.
intros H. unfold assert_staking_pool_is_idle in H. m_inv. res_inv.
destruct (staking_status _) eqn:E in H; m_inv; done.
Qed.

Lemma no_staking_inv e c u c' es : assert_no_staking_or_idle e c = Ok (u, c', es) ->
c' = c /\ es = [] /\ forall info, staking_information c = Some info -> staking_status info = TransactionStatus.Idle.
Proof.
intros H. unfold assert_no_staking_or_idle in H. m_inv. destruct (staking_information c) as [i|]; [|m_inv; done].
destruct (staking_status i) eqn:E; m_inv. split_and!; try done. by intros info [= <-].
Qed.

Lemma set_status_inv s e c u c' es : set_staking_pool_status s e c = Ok (u, c', es) ->
exists info, staking_information c = Some info /\
c' = with_staking c (Some (mkStaking (staking_pool_account_id info) s (deposit_amount info))) /\ es = [].
Proof. intros H. unfold set_staking_pool_status in H. m_inv. res_inv. eauto. Qed.

Lemma set_deposit_inv f e c u c' es : set_deposit f e c = Ok (u, c', es) ->
exists info d, staking_information c = Some info /\ f (deposit_amount info) = Ok d /\
c' = with_staking c (Some (mkStaking (staking_pool_account_id info) (staking_status info) d)) /\ es = [].
Proof. intros H. unfold set_deposit in H. m_inv. res_inv. eauto 8. Qed.
End facts.

Ltac lk_inv :=
  m_inv; repeat match goal with
  | E : assert_owner _ _ = Ok _ |- _ => apply owner_inv in E as (? & -> & ->)
  | E : assert_staking_pool_is_idle _ _ = Ok _ |- _ => apply idle_inv in E as (-> & -> & ? & ?)
  | E : assert_no_staking_or_idle _ _ = Ok _ |- _ => apply no_staking_inv in E as (-> & -> & ?)
  | E : set_staking_pool_status _ _ _ = Ok _ |- _ => apply set_status_inv in E as (? & ? & -> & ->)
  | E : set_deposit _ _ _ = Ok _ |- _ => apply set_deposit_inv in E as (? & ? & ? & ? & -> & ->)
  end; bool_prop.

Section steps.
Context `{LH : LockupHost}.

Lemma other_call_same x e c c' es : is_lock_call x = false -> lrun x e c = Ok (tt, c', es) ->
same_locked c c' es /\ predecessor_account_id e = owner_account_id c /\ attached_deposit e = 1.
Proof.
intros Hx H. destruct x; try discriminate; cbn [lrun] in H.
all: unfold select_staking_pool, unselect_staking_pool, deposit_to_staking_pool, deposit_and_stake,
refresh_staking_pool_balance, withdraw_from_staking_pool, withdraw_all_from_staking_pool, stake, unstake,
unstake_all, transfer, delete_lockup, assert_staking_pool_is_not_selected in H; lk_inv;
(split; [|done]); split; try (by destruct c); cbn; by repeat constructor.
Qed.

Lemma callback_same op answer e c c' es : run_callback op answer e c = Ok (tt, c', es) -> same_locked c c' es.
Proof.
intros H. destruct op; cbn [run_callback] in H;
unfold on_staking_pool_deposit, on_staking_pool_deposit_and_stake, on_staking_pool_withdraw, on_staking_pool_stake,
on_staking_pool_unstake, on_staking_pool_unstake_all, on_get_account_total_balance,
on_get_account_unstaked_balance_to_withdraw_by_owner, on_staking_pool_deposit_inner,
on_staking_pool_withdraw_inner, on_staking_pool_stake_inner, on_staking_pool_unstake_inner, callback_arg in H;
m_inv; repeat (m_case; m_inv); lk_inv; split; try (by destruct c); cbn; by repeat constructor.
Qed.

Lemma whitelisted_inv answer pool e c r c' es : on_whitelist_is_whitelisted answer pool e c = Ok (r, c', es) ->
answer = true /\ staking_information c = None /\ predecessor_account_id e = current_account_id e /\
promise_results e <> [] /\ c' = with_staking c (Some (mkStaking pool TransactionStatus.Idle 0)) /\ es = [].
Proof.
intros H. unfold on_whitelist_is_whitelisted, callback_arg, assert_staking_pool_is_not_selected in H. m_inv.
destruct (staking_information c); [discriminate|]. split_and!; try done. intros Hn. by rewrite Hn in *.
Qed.

(** ** Steps of one instance, each at the time of its block *)
Inductive lstep (e : Env) : Lockup -> list LEffect -> Lockup -> Prop :=
| ls_call x c c' es : lcall_ok x -> lrun x e c = Ok (tt, c', es) -> lstep e c es c'
| ls_callback op answer c c' es : run_callback op answer e c = Ok (tt, c', es) -> lstep e c es c'
| ls_whitelisted answer pool c r c' es : on_whitelist_is_whitelisted answer pool e c = Ok (r, c', es) ->
lstep e c es c'.

Inductive ltrace : TimestampNs -> Lockup -> list LEffect -> TimestampNs -> Lockup -> Prop :=
| lt_nil t c : ltrace t c [] t c
| lt_step t c e es c1 es' t' c' : t <= block_timestamp e -> lstep e c es c1 ->
ltrace (block_timestamp e) c1 es' t' c' -> ltrace t c (es ++ es') t' c'.

(** Balances of a lockup are [u128] values. *)
Definition lockup_ok (c : Lockup) : Prop :=
0 <= venear_locked_balance c <= U128_MAX /\ 0 <= venear_pending_balance c /\ 0 <= min_lockup_deposit c.

(** A step moves locked NEAR and reports it, or leaves it alone. *)
Lemma step_cases e c es c' : lockup_ok c -> lstep e c es c' ->
same_locked c c' es \/
exists x locked pending ts, is_lock_call x = true /\ lcall_ok x /\ lrun x e c = Ok (tt, c', es) /\
relocked c c' e locked pending ts es /\
(ts = venear_unlock_timestamp c \/ exists o, x = BeginUnlock o /\ ts = block_timestamp e + unlock_duration_ns c).
Proof.
intros (Hl & Hp & Hm) H. destruct H as [x c c' es Hx H | op answer c c' es H | answer pool c r c' es H].
- destruct (is_lock_call x) eqn:E; [|left; by apply other_call_same in H as [? _]]. right.
destruct x; try discriminate; cbn [lrun] in H; pose proof H as H'.
+ apply lock_near_parts in H' as (a & _ & _ & HR); [|done]. do 4 eexists. split_and!; eauto.
+ apply begin_unlock_parts in H' as (_ & _ & HR); [|done]. do 4 eexists. split_and!; eauto.
+ apply end_unlock_parts in H' as (_ & _ & HR); [|done]. do 4 eexists. split_and!; eauto.
+ apply lock_pending_parts in H' as (_ & HR). do 4 eexists. split_and!; eauto.
- left. by eapply callback_same.
- left. apply whitelisted_inv in H as (_ & _ & _ & _ & -> & ->). split; [by destruct c | constructor].
Qed.

Lemma step_ok e c es c' : lockup_ok c -> lstep e c es c' -> lockup_ok c' /\ unlock_duration_ns c' = unlock_duration_ns c /\
lockup_update_nonce c <= lockup_update_nonce c'.
Proof.
intros Hok H. destruct (step_cases _ _ _ _ Hok H) as [[-> _]|(x & l & p & ts & _ & _ & _ & [-> _ _ Hnn] & _)].
- done.
- destruct Hok as (_ & _ & ?). unfold lockup_ok. cbn. split_and!; try done; lia.
Qed.

(** The unlock time never moves back. *)
Lemma step_timestamp e c es c' T : lockup_ok c -> lstep e c es c' -> T <= block_timestamp e ->
T + unlock_duration_ns c <= venear_unlock_timestamp c -> T + unlock_duration_ns c <= venear_unlock_timestamp c'.
Proof.
intros Hok H HT Hu. destruct (step_cases _ _ _ _ Hok H) as [[-> _]|(x & l & p & ts & _ & _ & _ & [-> _ _ _] & Hts)].
- done.
- cbn. destruct Hts as [-> | (o & _ & ->)]; lia.
Qed.

Lemma trace_timestamp t c es t' c' T : ltrace t c es t' c' -> lockup_ok c -> T <= t ->
T + unlock_duration_ns c <= venear_unlock_timestamp c ->
T + unlock_duration_ns c <= venear_unlock_timestamp c' /\ lockup_ok c' /\ unlock_duration_ns c' = unlock_duration_ns c.
Proof.
induction 1 as [t c | t c e es c1 es' t' c' Ht Hs Htr IH]; intros Hok HT Hu; [done|].
destruct (step_ok _ _ _ _ Hok Hs) as (Hok1 & Hd & _). rewrite <- Hd. apply IH; [done | lia |].
rewrite Hd. apply (step_timestamp e c es); [done | done | lia | done].
Qed.

(** ** Reports *)
Definition report_of (ef : LEffect) : option LockupUpdateV1 :=
match ef with CallLockupUpdate _ _ _ (LV1 u) _ => Some u | _ => None end.
Definition reports (es : list LEffect) : list LockupUpdateV1 := omap report_of es.

Lemma reports_app es es' : reports (es ++ es') = reports es ++ reports es'.
Proof. apply omap_app. Qed.

Lemma step_reports e c es c' : lockup_ok c -> lstep e c es c' ->
(reports es = [] /\ venear_locked_balance c' = venear_locked_balance c /\ lockup_update_nonce c' = lockup_update_nonce c) \/
(lockup_update_nonce c' = lockup_update_nonce c + 1 /\
reports es = [mkLockupUpdate (venear_locked_balance c') (block_timestamp e) (lockup_update_nonce c')]).
Proof.
intros Hok H. destruct (step_cases _ _ _ _ Hok H) as [[Hc Hq]|(x & l & p & ts & _ & _ & _ & [Hc _ [Hl Hq] _] & _)].
- left. split; [|by rewrite Hc]. unfold reports. clear Hc H. induction Hq as [|ef es Hef Hq IH]; [done|].
cbn. by destruct ef.
- right. split; [by rewrite Hc|]. destruct (exists_last (l := es)) as (es0 & ef & ->); [by intros ->|].
rewrite last_snoc in Hl. injection Hl as ->. rewrite removelast_last in Hq. rewrite reports_app.
replace (reports es0) with (@nil LockupUpdateV1); [done|]. clear -Hq.
induction Hq as [|ef es0 Hef Hq IH]; [done|]. cbn. by destruct ef.
Qed.

(** The reports of a trace carry consecutive nonces, and the last one the
locked balance the lockup ends with. *)
Lemma trace_reports t c es t' c' : ltrace t c es t' c' -> lockup_ok c ->
map lu_nonce (reports es) = seqZ (lockup_update_nonce c + 1) (lockup_update_nonce c' - lockup_update_nonce c) /\
match last (reports es) with
| Some u => locked_near_balance u = venear_locked_balance c' /\ lu_nonce u = lockup_update_nonce c'
| None => venear_locked_balance c' = venear_locked_balance c /\ lockup_update_nonce c' = lockup_update_nonce c
end /\ lockup_ok c' /\ lockup_update_nonce c <= lockup_update_nonce c'.
Proof.
induction 1 as [t c | t c e es c1 es' t' c' Ht Hs Htr IH]; intros Hok.
- rewrite Z.sub_diag. cbn. split_and!; try done.
- destruct (step_ok _ _ _ _ Hok Hs) as (Hok1 & _). destruct (IH Hok1) as (Hn & Hl & Hok' & Hle). rewrite reports_app.
destruct (step_reports _ _ _ _ Hok Hs) as [(-> & Hb & Hnn)|(Hnn & ->)].
+ rewrite Hb, Hnn in *. done.
+ cbn [app map lu_nonce]. split_and!; try done; try lia.
* rewrite Hn, (seqZ_cons (lockup_update_nonce c + 1)) by lia. f_equal; [lia|]. f_equal; lia.
* rewrite last_cons. destruct (last (reports es')); [done|]. cbn. destruct Hl. lia.
Qed.
End steps.
