(* ===== verification/LockupWorld.v ===== *)
(** * A lockup with its balance and its staking pool

    The lockup contract keeps books over NEAR that is partly on its account
    and partly at a staking pool. A [World] is the contract state with the
    NEAR that is really there: on the account, at the pool, and on its way.
    The pool is documented behaviour of other code: it credits deposits,
    returns what is withdrawn, may add rewards, and any call of it may fail. *)
From stdpp Require Import base gmap strings list.
From Stdlib Require Import ZArith Lia.
From S2P Require Import Prelude.
From S2P Require Import Near.
From S2P Require Import Common.
From S2P Require Import LockupContract.
From S2P Require Import LockupFacts.

Local Open Scope Z_scope.

(** A pool call that has not been answered, or whose callback is to run. *)
Inductive Flight : Type :=
| Sent (op : PoolOp)
| Done (op : PoolOp) (r : PromiseResult) (answer : NearToken).

Record World : Type := mkWorld {
  lk : Lockup;
  w_balance : NearToken;
  w_pool : NearToken;
  w_incoming : NearToken;
  w_flight : option Flight
}.

(** NEAR that leaves the account with the receipts of a call. *)
Definition outflow (ef : LEffect) : Z :=
  match ef with
  | LTransfer _ a => a
  | PoolCall _ _ d _ _ => d
  | _ => 0
  end.
Definition outflows (es : list LEffect) : Z := list_sum_Z outflow es.

Fixpoint flight_of (es : list LEffect) (f : option Flight) : option Flight :=
  match es with
  | [] => f
  | PoolCall _ op _ _ _ :: es' => flight_of es' (Some (Sent op))
  | _ :: es' => flight_of es' f
  end.

Definition deposit_of (op : PoolOp) : Z :=
  match op with Deposit a | DepositAndStake a => a | _ => 0 end.

(** What the pool does with a call: the pool balance, the NEAR sent back, and
    the answer. *)
Inductive pool_exec (pool : Z) : PoolOp -> PromiseResult -> Z -> Z -> Z -> Prop :=
| px_credit op : deposit_of op <> 0 -> pool + deposit_of op <= U128_MAX ->
    pool_exec pool op Successful (pool + deposit_of op) 0 0
| px_failed op : pool_exec pool op Failed pool (deposit_of op) 0
| px_withdraw a : a <= pool -> pool_exec pool (Withdraw a) Successful (pool - a) a 0
| px_stake a : pool_exec pool (Stake a) Successful pool 0 0
| px_unstake a : pool_exec pool (Unstake a) Successful pool 0 0
| px_unstake_all : pool_exec pool UnstakeAll Successful pool 0 0
| px_total : pool_exec pool GetTotalBalance Successful pool 0 pool
| px_unstaked u : 0 <= u <= pool -> pool_exec pool GetUnstakedBalance Successful pool 0 u.

(** The window in which withdrawn NEAR is still recorded as deposited. *)
Definition settling (w : World) : bool :=
  match w_flight w with Some (Done (Withdraw _) Successful _) => true | _ => false end.

Section world.
Context `{LH : LockupHost}.

Definition after (w : World) (e : Env) (c' : Lockup) (es : list LEffect) : World :=
mkWorld c' (w_balance w + attached_deposit e - outflows es)
(match staking_information c' with None => 0 | Some _ => w_pool w end)
(w_incoming w) (flight_of es (w_flight w)).

(** [careful = true]: NEAR is not locked while a withdrawal settles. *)
Inductive wstep (careful : bool) : World -> World -> Prop :=
| ws_call w x e c' es : x <> DeleteLockup -> lcall_ok x -> env_ok e ->
account_balance e = w_balance w + attached_deposit e ->
(careful = true -> (exists o, x = LockNear o) -> settling w = false) ->
lrun x e (lk w) = Ok (tt, c', es) ->
wstep careful w (after w e c' es)
| ws_whitelisted w pool e c' r es p : on_whitelist_is_whitelisted true pool e (lk w) = Ok (r, c', es) ->
0 <= p <= U128_MAX -> attached_deposit e = 0 ->
wstep careful w (mkWorld c' (w_balance w) p (w_incoming w) (w_flight w))
| ws_pool w op r pool' back answer : w_flight w = Some (Sent op) ->
pool_exec (w_pool w) op r pool' back answer ->
wstep careful w (mkWorld (lk w) (w_balance w) pool' (w_incoming w + back) (Some (Done op r answer)))
| ws_callback w op r answer e c' es : w_flight w = Some (Done op r answer) ->
promise_results e = [r] -> attached_deposit e = 0 ->
run_callback op answer e (lk w) = Ok (tt, c', es) ->
wstep careful w (after (mkWorld (lk w) (w_balance w) (w_pool w) (w_incoming w) None) e c' es)
| ws_callback_panic w op r answer e msg : w_flight w = Some (Done op r answer) ->
promise_results e = [r] -> predecessor_account_id e = current_account_id e ->
run_callback op answer e (lk w) = Panic msg ->
wstep careful w (mkWorld (lk w) (w_balance w) (w_pool w) (w_incoming w) None)
| ws_arrive w a : 0 <= a <= w_incoming w ->
wstep careful w (mkWorld (lk w) (w_balance w + a) (w_pool w) (w_incoming w - a) (w_flight w))
| ws_receive w a : 0 <= a ->
wstep careful w (mkWorld (lk w) (w_balance w + a) (w_pool w) (w_incoming w) (w_flight w))
| ws_reward w a : 0 <= a -> w_pool w + a <= U128_MAX ->
wstep careful w (mkWorld (lk w) (w_balance w) (w_pool w + a) (w_incoming w) (w_flight w)).

(** A new lockup. *)
Definition world_new (c : Lockup) (balance : NearToken) : World := mkWorld c balance 0 0 None.

Inductive wreachable (careful : bool) : World -> Prop :=
| wr_new e owner venear d wl v nonce md c b : 0 <= b -> 0 <= md -> lockup_new e owner venear d wl v nonce md = Ok c ->
wreachable careful (world_new c b)
| wr_step w w' : wreachable careful w -> wstep careful w w' -> wreachable careful w'.

(** All NEAR the lockup owns. *)
Definition assets (w : World) : Z :=
w_balance w + w_incoming w + w_pool w +
match w_flight w with Some (Sent op) => deposit_of op | _ => 0 end.

Definition committed (c : Lockup) : Z := venear_locked_balance c + venear_pending_balance c.

(** ** The invariant *)

(** What the books will show once the pool call in flight is settled:
the deposit recorded, and NEAR between the account and the pool. *)
Definition net_deposit (w : World) : Z :=
let d := get_known_deposited_balance (lk w) in
match w_flight w with
| Some (Done (Withdraw a) Successful _) => saturating_sub d a
| Some (Done op Successful _) => d + deposit_of op
| _ => d
end.

Definition booked (w : World) : Z :=
w_balance w + w_incoming w + net_deposit w + match w_flight w with Some (Sent op) => deposit_of op | _ => 0 end.

Record WInv (w : World) : Prop := mkWInv {
wi_ok : lockup_ok (lk w);
wi_range : 0 <= w_incoming w /\ 0 <= w_pool w <= U128_MAX /\ 0 <= w_balance w;
wi_deposit : 0 <= get_known_deposited_balance (lk w);
wi_booked : committed (lk w) <= booked w;
wi_pool : net_deposit w <= w_pool w;
wi_flight : forall f, w_flight w = Some f -> exists info, staking_information (lk w) = Some info /\
staking_status info = TransactionStatus.Busy;
wi_op : match w_flight w with
| Some (Sent (Withdraw a)) | Some (Done (Withdraw a) _ _) => 0 < a
| Some (Done GetTotalBalance Successful t) => get_known_deposited_balance (lk w) <= t <= w_pool w
| Some (Sent (Deposit a)) | Some (Done (Deposit a) _ _) | Some (Sent (DepositAndStake a))
| Some (Done (DepositAndStake a) _ _) => 0 < a
| _ => True
end
}.

Lemma idle_no_flight w info : WInv w -> staking_information (lk w) = Some info ->
staking_status info = TransactionStatus.Idle -> w_flight w = None.
Proof.
intros HI Hs Hi. destruct (w_flight w) as [f|] eqn:E; [|done].
destruct (wi_flight w HI f E) as (info' & Hs' & Hb). congruence.
Qed.

Lemma none_no_flight w : WInv w -> staking_information (lk w) = None -> w_flight w = None.
Proof.
intros HI Hs. destruct (w_flight w) as [f|] eqn:E; [|done].
destruct (wi_flight w HI f E) as (info' & Hs' & Hb). congruence.
Qed.

(** ** Calls on the locked NEAR *)
Lemma relocked_flat c c' e l p ts es : relocked c c' e l p ts es -> outflows es = 0 /\ forall f, flight_of es f = f.
Proof.
intros [_ _ [Hl Hq] _]. assert (es <> []) as Hne by (intros ->; discriminate Hl).
destruct (exists_last Hne) as (es0 & ef & ->). clear Hne.
rewrite last_snoc in Hl. injection Hl as ->. rewrite removelast_last in Hq. unfold outflows.
induction Hq as [|ef es0 Hef Hq IH]; [done|]. by destruct ef.
Qed.

Lemma lock_call_inv w e c' es l p ts : WInv w -> relocked (lk w) c' e l p ts es ->
l + p <= booked w + attached_deposit e -> WInv (after w e c' es).
Proof.
intros HI HR Hle. destruct (relocked_flat _ _ _ _ _ _ _ HR) as [Ho Hf]. destruct HR as [-> [_ Ha] _ Hnn].
pose proof HI as [A1 A2 A3 A4 A5 A6 A7]. unfold after. rewrite Ho, Hf.
assert (match staking_information (lk w) with None => 0 | Some _ => w_pool w end = w_pool w \/
staking_information (lk w) = None /\ w_flight w = None) as Hpool.
{ destruct (staking_information (lk w)) eqn:E; [by left | right]. split; [done | by apply none_no_flight]. }
split; cbn; try done.
- destruct A1 as (_ & _ & ?). unfold lockup_ok. cbn. tauto.
- destruct (staking_information (lk w)); unfold U128_MAX in *; lia.
- unfold committed, booked, net_deposit, get_known_deposited_balance in *. cbn in *. lia.
- unfold net_deposit, get_known_deposited_balance in *. cbn in *.
destruct Hpool as [-> | [Hs ->]]; [done|]. by rewrite Hs.
- unfold get_known_deposited_balance in *. cbn.
destruct Hpool as [-> | [Hs ->]]; [done|]. done.
Qed.

Lemma settled_deposit w : WInv w -> settling w = false -> get_known_deposited_balance (lk w) <= net_deposit w.
Proof.
intros [_ _ Hd _ _ _ Hop] Hs. unfold settling, net_deposit in *.
destruct (w_flight w) as [[op|op r ans]|]; [lia| |lia]. destruct op, r; cbn in *; try lia; discriminate.
Qed.

Lemma lock_calls_inv w x e c' es : WInv w -> is_lock_call x = true -> lcall_ok x ->
account_balance e = w_balance w + attached_deposit e ->
((exists o, x = LockNear o) -> settling w = false) ->
lrun x e (lk w) = Ok (tt, c', es) -> WInv (after w e c' es).
Proof.
intros HI Hx Hok Hb Hset H. pose proof HI as [(A1 & A1' & A1'') A2 A3 A4 A5 A6 A7].
destruct x; try discriminate; cbn [lrun lcall_ok] in H, Hok.
- apply lock_near_parts in H as (a & _ & Hle & HR); [|done]. eapply lock_call_inv; [done | exact HR |].
pose proof (settled_deposit w HI (Hset ltac:(eauto))). unfold booked in *.
assert (0 <= match w_flight w with Some (Sent op) => deposit_of op | _ => 0 end).
{ destruct (w_flight w) as [[op|op r ans]|]; try lia. destruct op; cbn in *; lia. }
lia.
- apply begin_unlock_parts in H as (Hle & _ & HR); [|done]. pose proof HR as [_ [_ ?] _ _].
eapply lock_call_inv; [done | exact HR |]. unfold committed in *. lia.
- apply end_unlock_parts in H as (Hle & _ & HR); [|done]. pose proof HR as [_ [_ ?] _ _].
eapply lock_call_inv; [done | exact HR |]. unfold committed in *. destruct amount; cbn in *; lia.
- apply lock_pending_parts in H as (Hle & HR). pose proof HR as [_ [_ ?] _ _].
eapply lock_call_inv; [done | exact HR |]. unfold committed in *. lia.
Qed.

(** ** Calls that need an idle contract *)

(** Going busy with a call of the pool. *)
Lemma go_busy_inv w e info op d g cg : WInv w -> staking_information (lk w) = Some info ->
staking_status info = TransactionStatus.Idle -> attached_deposit e = 1 ->
d = deposit_of op -> 0 <= d <= w_balance w + 1 ->
match op with Withdraw a | Deposit a | DepositAndStake a => 0 < a | _ => True end ->
WInv (after w e (with_staking (lk w)
(Some (mkStaking (staking_pool_account_id info) TransactionStatus.Busy (deposit_amount info))))
[PoolCall (staking_pool_account_id info) op d g cg]).
Proof.
intros HI Hs Hi Ha -> Hd Hop. pose proof (idle_no_flight w info HI Hs Hi) as Hf.
pose proof HI as [A1 A2 A3 A4 A5 A6 A7]. unfold after, outflows. cbn.
unfold committed, booked, net_deposit, get_known_deposited_balance in *. rewrite Hf, Hs in *. split; cbn; try done.
- lia.
- unfold committed, booked, net_deposit, get_known_deposited_balance. cbn. lia.
- intros f _. by eexists.
Qed.

(** A call that only takes NEAR that is not committed. *)
Lemma no_flow_inv w e es : WInv w -> w_flight w = None -> (forall f, flight_of es f = f) -> 0 <= attached_deposit e ->
0 <= outflows es -> outflows es <= w_balance w + attached_deposit e ->
(outflows es = 0 \/ committed (lk w) + outflows es <= w_balance w + attached_deposit e + get_known_deposited_balance (lk w)) ->
WInv (after w e (lk w) es).
Proof.
intros HI Hf Hfl Ha Ho1 Ho2 Ho3. pose proof HI as [A1 A2 A3 A4 A5 A6 A7]. unfold after. rewrite Hfl, Hf.
unfold booked, net_deposit, get_known_deposited_balance in *. rewrite Hf in *.
split; cbn; try done.
- unfold U128_MAX in *. destruct (staking_information (lk w)); lia.
- unfold booked, net_deposit, get_known_deposited_balance. cbn. lia.
- unfold net_deposit, get_known_deposited_balance. cbn. by destruct (staking_information (lk w)).
Qed.

Lemma other_calls_inv w x e c' es : WInv w -> is_lock_call x = false -> x <> DeleteLockup ->
account_balance e = w_balance w + attached_deposit e ->
lrun x e (lk w) = Ok (tt, c', es) -> WInv (after w e c' es).
Proof.
intros HI Hx Hd Hb H. pose proof HI as [(A1 & A1' & A1'') A2 A3 A4 A5 A6 A7].
destruct x; try discriminate; try done; cbn [lrun] in H; 
unfold select_staking_pool, unselect_staking_pool, deposit_to_staking_pool, deposit_and_stake,
refresh_staking_pool_balance, withdraw_from_staking_pool, withdraw_all_from_staking_pool, stake, unstake,
unstake_all, transfer, assert_staking_pool_is_not_selected in H; lk_inv.
all: repeat match goal with H1 : staking_information ?c = Some ?x, H2 : staking_information ?c = Some ?y |- _ =>
replace y with x in * by congruence; clear H2 end.
all: try (apply go_busy_inv; try done; unfold get_account_balance, saturating_sub in *; cbn; lia).
all: cbn [app] in *.
- destruct (staking_information (lk w)) eqn:Es; [discriminate|]. apply no_flow_inv; try done; [by apply none_no_flight | lia | cbn; lia | by left].
- pose proof (idle_no_flight w _ HI ltac:(eassumption) ltac:(eassumption)) as Hf.
unfold after, outflows. cbn. unfold committed, booked, net_deposit, get_known_deposited_balance in *.
match goal with H : staking_information (lk w) = _ |- _ => rewrite H, Hf in * end.
split; cbn; try done; [unfold U128_MAX; lia|].
unfold committed, booked, net_deposit, get_known_deposited_balance. cbn. lia.
- match goal with H : venear_liquid_balance _ _ = Ok ?x |- _ => apply liquid_inv in H as (-> & ? & ?) end.
apply no_flow_inv; try done; unfold outflows, committed, get_liquid_owners_balance, get_account_balance, saturating_sub in *;
cbn; try lia.
destruct (staking_information (lk w)) as [info|] eqn:Es; [by eapply idle_no_flight; eauto | by apply none_no_flight].
Qed.

(** ** The pool answers *)
Lemma pool_inv w op r pool' back answer : WInv w -> w_flight w = Some (Sent op) ->
pool_exec (w_pool w) op r pool' back answer ->
WInv (mkWorld (lk w) (w_balance w) pool' (w_incoming w + back) (Some (Done op r answer))).
Proof.
intros HI Hf Hx. pose proof HI as [A1 A2 A3 A4 A5 A6 A7].
unfold booked, net_deposit in *. rewrite Hf in *. cbn in *. specialize (A6 _ eq_refl).
destruct Hx; split; cbn; try done; try (intros f _; exact A6); try lia.
all: unfold booked, net_deposit, saturating_sub; cbn; try lia.
all: try destruct op; cbn in *; unfold U128_MAX in *; try done; lia.
Qed.

(** ** The callback runs *)
Ltac cb_unfold H :=
unfold on_staking_pool_deposit, on_staking_pool_deposit_and_stake, on_staking_pool_withdraw, on_staking_pool_stake,
on_staking_pool_unstake, on_staking_pool_unstake_all, on_get_account_total_balance,
on_get_account_unstaked_balance_to_withdraw_by_owner, on_staking_pool_deposit_inner,
on_staking_pool_withdraw_inner, on_staking_pool_stake_inner, on_staking_pool_unstake_inner, callback_arg,
is_promise_success in H.

(** A world whose pool call is settled, with [d] recorded at the pool. *)
Lemma settled_world w e pool st d es : lockup_ok (lk w) ->
0 <= w_incoming w /\ 0 <= w_pool w <= U128_MAX /\ 0 <= w_balance w -> attached_deposit e = 0 -> es = [] ->
0 <= d <= w_pool w -> committed (lk w) <= w_balance w + w_incoming w + d ->
WInv (after (mkWorld (lk w) (w_balance w) (w_pool w) (w_incoming w) None) e
(with_staking (lk w) (Some (mkStaking pool st d))) es).
Proof.
intros Hok Hr Ha -> Hd Hc. unfold after, outflows. cbn. split; cbn; try done; try lia.
unfold committed, booked, net_deposit, get_known_deposited_balance in *. cbn. lia.
Qed.

Lemma callback_inv w op r answer e c' es : WInv w -> w_flight w = Some (Done op r answer) ->
promise_results e = [r] -> attached_deposit e = 0 -> run_callback op answer e (lk w) = Ok (tt, c', es) ->
WInv (after (mkWorld (lk w) (w_balance w) (w_pool w) (w_incoming w) None) e c' es).
Proof.
intros HI Hf Hr Ha H. pose proof HI as [A1 A2 A3 A4 A5 A6 A7]. destruct (A6 _ Hf) as (info & Hs & Hb).
unfold booked, net_deposit, get_known_deposited_balance in *. rewrite Hf, Hs in *.
destruct op; cbn [run_callback] in H; cb_unfold H; m_inv; rewrite ?Hr in *; destruct r; cbn in *;
repeat (m_case; m_inv); lk_inv; try discriminate.
all: repeat match goal with H1 : staking_information ?c = Some ?x, H2 : staking_information ?c = Some ?y |- _ =>
replace y with x in * by congruence; clear H2 end.
all: unfold saturating_sub, u128_add in *; repeat match goal with H : staking_information (with_staking _ _) = Some _ |- _ =>
cbn in H; injection H as <- end; res_inv; cbn in *.
all: try (apply settled_world; [done | done | done | done | lia | lia]).
unfold after, outflows. cbn. rewrite Hs. split; cbn; try done; try lia.
- by unfold get_known_deposited_balance; rewrite Hs.
- unfold booked, net_deposit, get_known_deposited_balance. cbn. rewrite Hs. lia.
- unfold net_deposit, get_known_deposited_balance. cbn. rewrite Hs. lia.
- intros f _. eauto.
Qed.

(** Only the answer of a failed query cannot be processed; the contract
stays busy and the books are as before. *)
Lemma callback_panic_inv w op r answer e msg : WInv w -> w_flight w = Some (Done op r answer) ->
promise_results e = [r] -> predecessor_account_id e = current_account_id e ->
run_callback op answer e (lk w) = Panic msg ->
r = Failed /\ (op = GetTotalBalance \/ op = GetUnstakedBalance) /\
WInv (mkWorld (lk w) (w_balance w) (w_pool w) (w_incoming w) None).
Proof.
intros HI Hf Hr Hp H. pose proof HI as [A1 A2 A3 A4 A5 A6 A7]. destruct (A6 _ Hf) as (info & Hs & Hb).
assert (r = Failed /\ (op = GetTotalBalance \/ op = GetUnstakedBalance)) as [-> Hop].
{ unfold booked, net_deposit, get_known_deposited_balance in *. rewrite Hf, Hs in *.
destruct op; cbn [run_callback] in H; cb_unfold H;
unfold assert_private, set_staking_pool_status, set_deposit, u128_add, requireM, mbind, M_bind, asks, get_state,
put_state, lift, require, mret, M_ret in H; cbn in H; rewrite Hp, String.eqb_refl in H; cbn in H;
rewrite ?Hr, ?Hs in H; destruct r; cbn in H; auto; try discriminate.
all: try (rewrite checked_op_Ok in H by (cbn in *; lia); discriminate).
all: destruct (0 <? answer); unfold get_state, put_state, lift, emit in H; cbn in H; rewrite ?Hs in H; discriminate. }
split_and!; try done. unfold booked, net_deposit in *. rewrite Hf in *.
split; cbn; try done; unfold booked, net_deposit; cbn; destruct Hop as [-> | ->]; done.
Qed.

Lemma wstep_inv w w' : WInv w -> wstep true w w' -> WInv w'.
Proof.
intros HI H. destruct H as [w x e c' es Hd Hok He Hb Hset H | w pool e c' r es p H Hp Ha
| w op r pool' back answer Hf Hx | w op r answer e c' es Hf Hr Ha H | w op r answer e msg Hf Hr Hp H
| w a Ha | w a Ha | w a Ha Hm].
- destruct (is_lock_call x) eqn:E; [by apply (lock_calls_inv w x); auto | by apply (other_calls_inv w x)].
- apply whitelisted_inv in H as (_ & Hs & _ & _ & -> & _). pose proof (none_no_flight w HI Hs) as Hf.
pose proof HI as [A1 A2 A3 A4 A5 A6 A7]. unfold booked, net_deposit, get_known_deposited_balance in *. rewrite Hs, Hf in *.
split; cbn; rewrite ?Hf; try done; try lia; unfold booked, net_deposit, get_known_deposited_balance; cbn; lia.
- by eapply pool_inv.
- by eapply callback_inv.
- by eapply callback_panic_inv.
- pose proof HI as [A1 A2 A3 A4 A5 A6 A7]. split; cbn; try done; try lia. unfold booked, net_deposit in *. cbn in *. lia.
- pose proof HI as [A1 A2 A3 A4 A5 A6 A7]. split; cbn; try done; try lia. unfold booked, net_deposit in *. cbn in *. lia.
- pose proof HI as [A1 A2 A3 A4 A5 A6 A7]. split; cbn; try done; try lia; unfold net_deposit in *; cbn in *; [lia|].
destruct (w_flight w) as [[op|op r ans]|]; try done. destruct op, r; try done. lia.
Qed.

Lemma wreachable_inv w : wreachable true w -> WInv w.
Proof.
induction 1 as [e owner venear d wl v nonce md c b Hb Hmd H | w w' _ IH Hs]; [|by eapply wstep_inv].
unfold lockup_new in H. res_inv. unfold world_new. split; cbn; try done; unfold U128_MAX; try lia.
- unfold committed, booked, net_deposit, get_known_deposited_balance. cbn. lia.
Qed.

(** The NEAR on the books is there. *)
Lemma booked_le_assets w : WInv w -> booked w <= assets w.
Proof.
intros [A1 A2 A3 A4 A5 A6 A7]. unfold booked, assets. lia.
Qed.
End world.
