(* ===== verification/LockupTheorems.v ===== *)
(** * Properties of the lockup contract *)
From stdpp Require Import base gmap strings list.
From Stdlib Require Import ZArith Lia.
From S2P Require Import Prelude.
From S2P Require Import Near.
From S2P Require Import Common.
From S2P Require Import LockupContract.
From S2P Require Import LockupFacts.
From S2P Require Import LockupWorld.

Local Open Scope Z_scope.

Section theorems.
Context `{LH : LockupHost}.


(** A transfer needs the owner and an idle contract, and takes only
NEAR that is neither locked nor pending nor needed for storage: what
stays on the account covers the minimum deposit, and with the known
deposit at the pool it covers the locked and the pending balance. *)
Theorem transfer_effect a r e c u c' es : 0 <= min_lockup_deposit c -> transfer a r e c = Ok (u, c', es) ->
c' = c /\ es = [LTransfer r a] /\ 0 < a /\ predecessor_account_id e = owner_account_id c /\ attached_deposit e = 1 /\
(forall info, staking_information c = Some info -> staking_status info = TransactionStatus.Idle) /\
min_lockup_deposit c <= account_balance e - a /\
committed c <= account_balance e - a + get_known_deposited_balance c.
Proof.
intros Hm H. unfold transfer in H. lk_inv.
match goal with H : venear_liquid_balance _ _ = Ok ?x |- _ => apply liquid_inv in H as (-> & ? & ?) end.
unfold get_liquid_owners_balance, get_account_balance, saturating_sub, committed in *. split_and!; try done; lia.
Qed.

(** C33. Unlocking takes the unlock duration: once the owner begins to unlock
at some block, the pending NEAR cannot be released by any call at any
later block until the full duration has passed since then, whatever
happens in between; and a release only ever takes pending NEAR. *)
Theorem unlock_takes_the_duration o1 e1 c u1 c1 es1 es t' c2 o2 e2 u2 c3 es3 :
lockup_ok c -> begin_unlock_near o1 e1 c = Ok (u1, c1, es1) ->
(forall a, o1 = Some a -> 0 <= a) ->
ltrace (block_timestamp e1) c1 es t' c2 -> t' <= block_timestamp e2 ->
end_unlock_near o2 e2 c2 = Ok (u2, c3, es3) ->
block_timestamp e1 + unlock_duration_ns c <= block_timestamp e2 /\
venear_pending_balance c3 = venear_pending_balance c2 - default (venear_pending_balance c2) o2 /\
venear_locked_balance c3 = venear_locked_balance c2.
Proof.
intros (Hl & Hp & Hm) H1 Ho Htr Ht H2. apply begin_unlock_parts in H1 as (Ha & _ & [-> _ _ Hnn]); [|done].
apply trace_timestamp with (T := block_timestamp e1) in Htr as (Hts & Hok2 & _).
- apply end_unlock_parts in H2 as (_ & Hrel & [-> _ _ _]); [|apply Hok2]. cbn in *. split_and!; [lia | done | done].
- unfold lockup_ok. cbn. tauto.
- lia.
- cbn. lia.
Qed.

(** veNEAR is told of every change: over any sequence of calls and
callbacks the reports carry consecutive nonces from the nonce before,
the last one carries the locked balance the lockup ends with, and
without a report the locked balance has not changed. *)
Theorem reports_track_locked t c es t' c' : lockup_ok c -> ltrace t c es t' c' ->
map lu_nonce (reports es) = seqZ (lockup_update_nonce c + 1) (lockup_update_nonce c' - lockup_update_nonce c) /\
match last (reports es) with
| Some u => locked_near_balance u = venear_locked_balance c' /\ lu_nonce u = lockup_update_nonce c'
| None => venear_locked_balance c' = venear_locked_balance c /\ lockup_update_nonce c' = lockup_update_nonce c
end.
Proof. intros Hok Ht. destruct (trace_reports _ _ _ _ _ Ht Hok) as (? & ? & _). done. Qed.

(** What each operation on locked NEAR does: locking takes liquid NEAR
(all of it by default), beginning to unlock moves locked NEAR to pending
and sets the unlock time, ending releases pending NEAR, and relocking
moves pending NEAR back; every one of them needs the owner and one
yoctoNEAR, reports the new locked balance with the next nonce, and
changes nothing else. *)
Theorem lock_operations c e :
lockup_ok c ->
(forall o u c' es, lock_near o e c = Ok (u, c', es) ->
exists a, a = default (account_balance e + get_known_deposited_balance c - committed c) o /\
committed c + a <= account_balance e + get_known_deposited_balance c /\
relocked c c' e (venear_locked_balance c + a) (venear_pending_balance c) (venear_unlock_timestamp c) es) /\
(forall o u c' es, begin_unlock_near o e c = Ok (u, c', es) ->
let a := default (venear_locked_balance c) o in
a <= venear_locked_balance c /\
relocked c c' e (venear_locked_balance c - a) (venear_pending_balance c + a)
(block_timestamp e + unlock_duration_ns c) es) /\
(forall o u c' es, end_unlock_near o e c = Ok (u, c', es) ->
let a := default (venear_pending_balance c) o in
a <= venear_pending_balance c /\ venear_unlock_timestamp c <= block_timestamp e /\
relocked c c' e (venear_locked_balance c) (venear_pending_balance c - a) (venear_unlock_timestamp c) es) /\
(forall o u c' es, lock_pending_near o e c = Ok (u, c', es) ->
let a := default (venear_pending_balance c) o in
a <= venear_pending_balance c /\
relocked c c' e (venear_locked_balance c + a) (venear_pending_balance c - a) (venear_unlock_timestamp c) es).
Proof.
intros (Hl & Hp & Hm). split_and!; intros o u c' es H.
- apply lock_near_parts in H as (a & -> & Hle & HR); [|done]. unfold committed.
eexists. rewrite Z.sub_add_distr. split_and!; [done | lia | done].
- apply begin_unlock_parts in H as (? & _ & ?); done.
- by apply end_unlock_parts in H.
- by apply lock_pending_parts in H.
Qed.

Lemma callback_settles op answer e c c' es : run_callback op answer e c = Ok (tt, c', es) ->
(exists info, staking_information c' = Some info /\ staking_status info = TransactionStatus.Idle) /\ es = [] \/
exists info, op = GetUnstakedBalance /\ 0 < answer /\ staking_information c = Some info /\ c' = c /\
es = [PoolCall (staking_pool_account_id info) (Withdraw answer) 0 Gas.WITHDRAW Gas.ON_STAKING_POOL_WITHDRAW].
Proof.
intros H. destruct op; cbn [run_callback] in H;
unfold on_staking_pool_deposit, on_staking_pool_deposit_and_stake, on_staking_pool_withdraw, on_staking_pool_stake,
on_staking_pool_unstake, on_staking_pool_unstake_all, on_get_account_total_balance,
on_get_account_unstaked_balance_to_withdraw_by_owner, on_staking_pool_deposit_inner,
on_staking_pool_withdraw_inner, on_staking_pool_stake_inner, on_staking_pool_unstake_inner, callback_arg in H;
m_inv; repeat (m_case; m_inv); lk_inv; cbn in *;
try (left; split; [eexists; split; [done|]; cbn in *; repeat match goal with H : Some _ = Some _ |- _ => injection H as <- end; done | done]).
right. res_inv. eauto 10.
Qed.

Lemma busy_refuses x e c info : staking_information c = Some info -> staking_status info = TransactionStatus.Busy ->
is_lock_call x = false -> is_ok (lrun x e c) = false.
Proof.
intros Hs Hb Hx. destruct (lrun x e c) as [[[[] c'] es]|] eqn:H; [|done]. exfalso.
destruct x; try discriminate; cbn [lrun] in H;
unfold select_staking_pool, unselect_staking_pool, deposit_to_staking_pool, deposit_and_stake,
refresh_staking_pool_balance, withdraw_from_staking_pool, withdraw_all_from_staking_pool, stake, unstake,
unstake_all, transfer, delete_lockup, assert_staking_pool_is_not_selected in H; lk_inv; try congruence.
- by rewrite Hs in *.
- naive_solver congruence.
- naive_solver congruence.
Qed.

(** Pool calls are exclusive and always settle: while one is in flight
the contract is busy and every other pool call, the transfer and the
deletion are refused; its callback succeeds, whether the pool call
succeeded or not, unless it was a balance query that failed, and leaves
the contract idle (or, for the query before a withdrawal of everything,
starts that withdrawal). *)
Theorem pool_calls_exclusive w f : wreachable true w -> w_flight w = Some f ->
(forall x e, is_lock_call x = false -> is_ok (lrun x e (lk w)) = false) /\
(forall op r answer e, f = Done op r answer -> promise_results e = [r] ->
predecessor_account_id e = current_account_id e ->
r = Successful \/ (op <> GetTotalBalance /\ op <> GetUnstakedBalance) ->
exists c' es, run_callback op answer e (lk w) = Ok (tt, c', es) /\
((exists info, staking_information c' = Some info /\ staking_status info = TransactionStatus.Idle) /\ es = [] \/
exists info, op = GetUnstakedBalance /\ 0 < answer /\ staking_information (lk w) = Some info /\ c' = lk w /\
es = [PoolCall (staking_pool_account_id info) (Withdraw answer) 0 Gas.WITHDRAW Gas.ON_STAKING_POOL_WITHDRAW])).
Proof.
intros HI%wreachable_inv Hf. destruct (wi_flight w HI f Hf) as (info & Hs & Hb). split.
- intros x e Hx. by eapply busy_refuses.
- intros op r answer e -> Hr Hp Hor. destruct (run_callback op answer e (lk w)) as [[[[] c'] es]|msg] eqn:E.
+ exists c', es. split; [done|]. by eapply callback_settles.
+ exfalso. destruct (callback_panic_inv _ _ _ _ _ _ HI Hf Hr Hp E) as (-> & [-> | ->] & _); naive_solver.
Qed.

(** ** Recovery from a failed balance query *)

(** Busy with no pool call in flight. *)
Definition stuck (w : World) : Prop :=
w_flight w = None /\ exists info, staking_information (lk w) = Some info /\ staking_status info = TransactionStatus.Busy.

Lemma stuck_step b w w' : lockup_ok (lk w) -> stuck w -> wstep b w w' -> stuck w' /\ lockup_ok (lk w').
Proof.
intros Hok (Hf & info & Hs & Hb) H. destruct H as [w x e c' es Hd Hx He Hbal Hset H | w pool e c' r es p H Hp Ha
| w op r pool' back answer Hf' Hx | w op r answer e c' es Hf' Hr Ha H | w op r answer e msg Hf' Hr Hp H
| w a Ha | w a Ha | w a Ha Hm]; try congruence; try (split; [|done]; split; [done | by eauto]).
- destruct (is_lock_call x) eqn:E; [|pose proof (busy_refuses x e (lk w) info Hs Hb E) as Hr; by rewrite H in Hr].
pose proof (step_ok e _ _ _ Hok (ls_call e x _ _ _ Hx H)) as [Hok' _].
destruct (step_cases _ _ _ _ Hok (ls_call e x _ _ _ Hx H)) as [[Hc Hq]|(y & l & p & ts & _ & _ & _ & HR & _)].
+ exfalso. clear Hc. destruct Hok as (H1 & H2 & H3). destruct x; try discriminate; cbn [lrun] in H.
* apply lock_near_parts in H as (a & _ & _ & [_ _ [Hl _] _]); [|done]. apply last_Some_elem_of in Hl.
rewrite Forall_forall in Hq. by apply Hq in Hl.
* apply begin_unlock_parts in H as (_ & _ & [_ _ [Hl _] _]); [|done]. apply last_Some_elem_of in Hl.
rewrite Forall_forall in Hq. by apply Hq in Hl.
* apply end_unlock_parts in H as (_ & _ & [_ _ [Hl _] _]); [|done]. apply last_Some_elem_of in Hl.
rewrite Forall_forall in Hq. by apply Hq in Hl.
* apply lock_pending_parts in H as (_ & [_ _ [Hl _] _]). apply last_Some_elem_of in Hl.
rewrite Forall_forall in Hq. by apply Hq in Hl.
+ split; [|done]. destruct (relocked_flat _ _ _ _ _ _ _ HR) as [_ Hfl]. destruct HR as [-> _ _ _].
split; cbn; [by rewrite Hfl | eauto].
- apply whitelisted_inv in H as (_ & Hn & _). congruence.
Qed.

(** C34. A balance query that fails blocks the contract for good: the
callback panics, the contract stays busy with no call in flight, and
from then on, whatever happens, every pool call, the transfer and the
deletion are refused. *)
Theorem failed_query_blocks_forever w op answer e :
wreachable true w -> w_flight w = Some (Done op Failed answer) ->
op = GetTotalBalance \/ op = GetUnstakedBalance -> promise_results e = [Failed] ->
is_ok (run_callback op answer e (lk w)) = false /\
forall b w', star (wstep b) (mkWorld (lk w) (w_balance w) (w_pool w) (w_incoming w) None) w' ->
forall x e', is_lock_call x = false -> is_ok (lrun x e' (lk w')) = false.
Proof.
intros HI%wreachable_inv Hf Hop Hr. destruct (wi_flight w HI _ Hf) as (info & Hs & Hb). split.
- destruct (run_callback op answer e (lk w)) as [[[[] c'] es]|] eqn:H; [|done]. exfalso.
destruct Hop as [-> | ->]; cbn [run_callback] in H;
unfold on_get_account_total_balance, on_get_account_unstaked_balance_to_withdraw_by_owner, callback_arg in H;
m_inv; by rewrite Hr in *.
- intros b w' Hst x e' Hx.
assert (stuck w' /\ lockup_ok (lk w')) as [(_ & info' & Hs' & Hb') _]; [|by eapply busy_refuses].
refine (star_invariant (wstep b) (fun y => stuck y /\ lockup_ok (lk y)) _ _ _ Hst _).
+ intros s s' [H1 H2] Hstep. by eapply stuck_step.
+ split; [split; [done | by eauto] | apply HI].
Qed.

(** Who may do what: every call needs the owner and one yoctoNEAR, and
every callback the contract itself; the deletion sends everything to
the owner, and only when nothing is locked, pending or known to be at
the pool and no pool call is in flight. *)
Theorem lockup_calls_authorised x e c c' es : lockup_ok c -> lcall_ok x -> lrun x e c = Ok (tt, c', es) ->
predecessor_account_id e = owner_account_id c /\ attached_deposit e = 1 /\
(x = DeleteLockup -> committed c = 0 /\ get_known_deposited_balance c = 0 /\
(forall info, staking_information c = Some info -> staking_status info = TransactionStatus.Idle) /\
DeleteAccount (owner_account_id c) ∈ es) /\
(DeleteAccount (owner_account_id c) ∈ es -> x = DeleteLockup) /\
(forall op answer e', is_ok (run_callback op answer e' c) = true ->
predecessor_account_id e' = current_account_id e').
Proof.
intros Hok Hx H.
assert (forall op answer e', is_ok (run_callback op answer e' c) = true ->
predecessor_account_id e' = current_account_id e') as Hpriv.
{ intros op answer e' Hr. destruct (run_callback op answer e' c) as [[[[] c1] es1]|] eqn:E; [|done].
destruct op; cbn [run_callback] in E; unfold on_staking_pool_deposit, on_staking_pool_deposit_and_stake, on_staking_pool_withdraw,
on_staking_pool_stake, on_staking_pool_unstake, on_staking_pool_unstake_all, on_get_account_total_balance,
on_get_account_unstaked_balance_to_withdraw_by_owner in E; m_inv; done. }
destruct (is_lock_call x) eqn:El.
- destruct Hok as (H1 & H2 & H3).
assert (exists l p ts, relocked c c' e l p ts es) as (l & p & ts & HR).
{ destruct x; try discriminate; cbn [lrun] in H.
- apply lock_near_parts in H as (a & _ & _ & ?); eauto.
- apply begin_unlock_parts in H as (_ & _ & ?); eauto.
- apply end_unlock_parts in H as (_ & _ & ?); eauto.
- apply lock_pending_parts in H as (_ & ?); eauto. }
pose proof HR as [_ [Ho Ha] [Hl Hq] _]. split_and!; try done; [by intros ->|].
intros Hin. exfalso. assert (es <> []) as Hne by (intros ->; discriminate Hl).
destruct (exists_last Hne) as (es0 & ef & ->). rewrite last_snoc in Hl. injection Hl as ->. rewrite removelast_last in Hq.
rewrite Forall_forall in Hq. apply elem_of_app in Hin as [Hin|Hin%list_elem_of_singleton]; [by apply Hq in Hin | done].
- pose proof H as H'. apply other_call_same in H' as (_ & Ho & Ha); [|done]. split_and!; try done.
+ intros ->. cbn [lrun] in H. unfold delete_lockup in H. lk_inv. unfold committed. split_and!; try done; [lia|]. set_solver.
+ destruct x; try discriminate; cbn [lrun] in H; try done; intros Hin; exfalso; 
unfold select_staking_pool, unselect_staking_pool, deposit_to_staking_pool, deposit_and_stake,
refresh_staking_pool_balance, withdraw_from_staking_pool, withdraw_all_from_staking_pool, stake, unstake,
unstake_all, transfer, assert_staking_pool_is_not_selected in H; lk_inv; set_solver.
Qed.

(** ** Locking while a withdrawal settles *)
Definition demo_env (who : AccountId) (balance deposit : NearToken) (results : list PromiseResult) : Env :=
mkEnv who "lockup" "owner" deposit 1000 1 balance 1 0 results 1 0.

Definition demo_lockup : Lockup := mkLockup "owner" "venear" "whitelist" None 100 0 0 0 0 1 10.

Ltac world_step H t :=
let H' := fresh in eassert (wreachable false _) as H'; [eapply wr_step; [exact H | t]|];
clear H; rename H' into H; vm_compute in H.
Ltac world_call H x e :=
world_step H ltac:(eapply (ws_call false _ x e); [done | exact I | by vm_compute | by vm_compute | done | vm_compute; reflexivity]).
Ltac world_callback H op e :=
world_step H ltac:(eapply (ws_callback false _ op Successful 0 e); vm_compute; reflexivity).

(** C35. The books count NEAR twice while a withdrawal settles: when the
withdrawn NEAR arrives before the callback runs, it is on the account
and still recorded as deposited, and [lock_near], which does not ask for
an idle contract as the transfer does, locks it a second time. Here 1000
yoctoNEAR back a locked balance of more than that. *)
Theorem lock_during_withdrawal_overcommits :
exists w, wreachable false w /\ w_flight w = None /\ w_incoming w = 0 /\
assets w = 1004 /\ committed (lk w) = 1504.
Proof.
assert (wreachable false (world_new demo_lockup 1000)) as H.
{ apply (wr_new false (demo_env "venear" 1000 0 []) "owner" "venear" 100 "whitelist" 1 0 10); [lia | lia | done]. }
unfold world_new in H.
world_step H ltac:(eapply (ws_whitelisted false _ "pool" (demo_env "lockup" 1000 0 [Successful]) _ _ _ 0);
[vm_compute; reflexivity | by vm_compute | done]).
world_call H (DepositToPool 500) (demo_env "owner" 1001 1 []).
world_step H ltac:(eapply (ws_pool false _ (Deposit 500)); [reflexivity | by apply px_credit]).
world_callback H (Deposit 500) (demo_env "lockup" 501 0 [Successful]).
world_call H (LockNear None) (demo_env "owner" 502 1 []).
world_call H (WithdrawFromPool 500) (demo_env "owner" 503 1 []).
world_step H ltac:(eapply (ws_pool false _ (Withdraw 500)); [reflexivity | by apply px_withdraw]).
world_step H ltac:(apply (ws_arrive false _ 500); by vm_compute).
world_call H (LockNear None) (demo_env "owner" 1004 1 []).
world_callback H (Withdraw 500) (demo_env "lockup" 1004 0 [Successful]).
eexists. split; [exact H|]. by vm_compute.
Qed.
End theorems.
