(* ===== verification/SandboxPool.v ===== *)
(** * The sandbox whitelist and pool (sandbox-staking-whitelist-contract/src/lib.rs)

    One contract plays the whitelist and the staking pool in the integration
    tests of the lockup contract. The theorems show that as a pool it behaves
    as the worlds of the lockup contract ([pool_exec]) assume. *)
From stdpp Require Import base gmap strings list.
From Stdlib Require Import ZArith Lia.
From S2P Require Import Prelude.
From S2P Require Import Near.
From S2P Require Import Common.
From S2P Require Import LockupContract.
From S2P Require Import LockupWorld.

Local Open Scope Z_scope.
Local Open Scope record_scope.

Module SandboxPool.

Module Account.
Record t : Type := mk { staked_balance : NearToken; unstaked_balance : NearToken; can_withdraw : bool }.
#[global] Instance eta : Eta t := fun x => mk (staked_balance x) (unstaked_balance x) (can_withdraw x).
#[global] Instance set_staked_balance : Setter staked_balance := ltac:(derive_setter).
#[global] Instance set_unstaked_balance : Setter unstaked_balance := ltac:(derive_setter).
#[global] Instance set_can_withdraw : Setter can_withdraw := ltac:(derive_setter).
(** [Account::default()]. *)
Definition new : t := mk 0 0 true.
End Account.

Record Sandbox : Type := mkSandbox { whitelist : gset AccountId; accounts : gmap AccountId Account.t }.
#[global] Instance eta_Sandbox : Eta Sandbox := fun x => mkSandbox (whitelist x) (accounts x).
#[global] Instance set_whitelist : Setter whitelist := ltac:(derive_setter).
#[global] Instance set_accounts : Setter accounts := ltac:(derive_setter).

(** [Promise::new(receiver).transfer(amount).detach()]. *)
Inductive XEffect : Type :=
| XTransfer (receiver : AccountId) (amount : NearToken).
Abbreviation MX := (M XEffect Sandbox).

Definition sandbox_new : Sandbox := mkSandbox ∅ ∅.

Definition sandbox_whitelist (staking_pool_account_id : AccountId) : MX unit :=
modify (fun c => c <| whitelist := {[staking_pool_account_id]} ∪ whitelist c |>).

Definition is_whitelisted (c : Sandbox) (staking_pool_account_id : AccountId) : bool :=
bool_decide (staking_pool_account_id ∈ whitelist c).

Definition sandbox_update_account (account_id : AccountId) (account : Account.t) : MX unit :=
modify (fun c => c <| accounts := <[account_id := account]> (accounts c) |>).

Definition get_account (c : Sandbox) (account_id : AccountId) : option Account.t := accounts c !! account_id.

Definition get_account_staked_balance (c : Sandbox) (account_id : AccountId) : NearToken :=
default 0 (Account.staked_balance <$> get_account c account_id).

Definition get_account_unstaked_balance (c : Sandbox) (account_id : AccountId) : NearToken :=
default 0 (Account.unstaked_balance <$> get_account c account_id).

Definition get_account_total_balance (c : Sandbox) (account_id : AccountId) : result NearToken :=
match get_account c account_id with
| Some account => u128_add (Account.staked_balance account) (Account.unstaked_balance account)
| None => Ok 0
end.

(** The methods of the pool load the caller's account or a fresh one, and store
it back. *)
Definition own_account : MX Account.t :=
account_id ← asks predecessor_account_id; c ← get_state; mret (default Account.new (get_account c account_id)).

Definition store_own_account (account : Account.t) : MX unit :=
account_id ← asks predecessor_account_id; modify (fun c => c <| accounts := <[account_id := account]> (accounts c) |>).

Definition deposit : MX unit :=
attached ← asks attached_deposit; account ← own_account;
u ← lift (u128_add (Account.unstaked_balance account) attached);
store_own_account (account <| Account.unstaked_balance := u |>).

Definition deposit_and_stake : MX unit :=
attached ← asks attached_deposit; account ← own_account;
s ← lift (u128_add (Account.staked_balance account) attached);
store_own_account (account <| Account.staked_balance := s |> <| Account.can_withdraw := false |>).

Definition withdraw (amount : NearToken) : MX unit :=
account_id ← asks predecessor_account_id; account ← own_account;
requireM (Account.can_withdraw account) "You cannot withdraw until the lockup period is over";;
requireM (amount <=? Account.unstaked_balance account) "Not enough unstaked balance";;
u ← lift (u128_sub (Account.unstaked_balance account) amount);
emit (XTransfer account_id amount);;
store_own_account (account <| Account.unstaked_balance := u |>).

Definition stake (amount : NearToken) : MX unit :=
account ← own_account;
requireM (amount <=? Account.unstaked_balance account) "Not enough unstaked balance";;
u ← lift (u128_sub (Account.unstaked_balance account) amount);
s ← lift (u128_add (Account.staked_balance account) amount);
store_own_account (account <| Account.unstaked_balance := u |> <| Account.staked_balance := s |>
<| Account.can_withdraw := false |>).

Definition unstake (amount : NearToken) : MX unit :=
account ← own_account;
requireM (amount <=? Account.staked_balance account) "Not enough staked balance";;
s ← lift (u128_sub (Account.staked_balance account) amount);
u ← lift (u128_add (Account.unstaked_balance account) amount);
store_own_account (account <| Account.staked_balance := s |> <| Account.unstaked_balance := u |>
<| Account.can_withdraw := false |>).

Definition unstake_all : MX unit :=
account ← own_account;
u ← lift (u128_add (Account.unstaked_balance account) (Account.staked_balance account));
store_own_account (account <| Account.unstaked_balance := u |> <| Account.staked_balance := 0 |>
<| Account.can_withdraw := false |>).

(** ** The pool behind the calls of a lockup contract *)

(** A call of the lockup: the pool after it, whether it succeeded, the NEAR it
sends (back) and the number it answers. *)
Definition serve (op : PoolOp) (e : Env) (c : Sandbox) : Sandbox * PromiseResult * NearToken * NearToken :=
let finish (back : Z) (m : MX unit) :=
match m e c with
| Ok (_, c', _) => (c', Successful, back, 0)
| Panic _ => (c, Failed, attached_deposit e, 0)
end in
let view (r : result Z) :=
match r with Ok n => (c, Successful, 0, n) | Panic _ => (c, Failed, 0, 0) end in
match op with
| Deposit _ => finish 0 deposit
| DepositAndStake _ => finish 0 deposit_and_stake
| Withdraw amount => finish amount (withdraw amount)
| Stake amount => finish 0 (stake amount)
| Unstake amount => finish 0 (unstake amount)
| UnstakeAll => finish 0 unstake_all
| GetTotalBalance => view (get_account_total_balance c (predecessor_account_id e))
| GetUnstakedBalance => view (Ok (get_account_unstaked_balance c (predecessor_account_id e)))
end.

(** The NEAR the pool keeps for an account. *)
Definition held (c : Sandbox) (account_id : AccountId) : Z :=
get_account_staked_balance c account_id + get_account_unstaked_balance c account_id.

Definition account_ok (c : Sandbox) (account_id : AccountId) : Prop :=
0 <= get_account_staked_balance c account_id /\ 0 <= get_account_unstaked_balance c account_id /\
held c account_id <= U128_MAX.

(** Storing an account back, seen through the getters. *)
Lemma stored_balances acc k (c : Sandbox) :
get_account_staked_balance (c <| accounts := <[k := acc]> (accounts c) |>) k = Account.staked_balance acc /\
get_account_unstaked_balance (c <| accounts := <[k := acc]> (accounts c) |>) k = Account.unstaked_balance acc.
Proof. unfold get_account_staked_balance, get_account_unstaked_balance, get_account. cbn. by rewrite lookup_insert_eq. Qed.

Lemma own_balances k (c : Sandbox) :
Account.staked_balance (default Account.new (get_account c k)) = get_account_staked_balance c k /\
Account.unstaked_balance (default Account.new (get_account c k)) = get_account_unstaked_balance c k.
Proof. unfold get_account_staked_balance, get_account_unstaked_balance, get_account. by destruct (accounts c !! k). Qed.

(** A method that succeeds has stored the caller's account with these balances. *)
Definition stores (e : Env) (c c' : Sandbox) (s u : Z) : Prop :=
get_account_staked_balance c' (predecessor_account_id e) = s /\
get_account_unstaked_balance c' (predecessor_account_id e) = u /\ 0 <= s /\ 0 <= u.

(** [method_spec H] opens a successful method and reads the stored account. *)
Ltac method_spec H :=
unfold deposit, deposit_and_stake, withdraw, stake, unstake, unstake_all, own_account, store_own_account,
u128_add, u128_sub in H; m_all; res_inv; bool_prop;
repeat match goal with B : context [default Account.new (get_account ?c ?k)] |- _ =>
progress (rewrite ?(proj1 (own_balances k c)), ?(proj2 (own_balances k c)) in B) end;
unfold stores;
match goal with |- context [?c <| accounts := <[?k := ?a]> (accounts ?c) |>] =>
rewrite (proj1 (stored_balances a k c)), (proj2 (stored_balances a k c));
cbn;
rewrite ?(proj1 (own_balances k c)), ?(proj2 (own_balances k c)) end.

Section methods.
Context (e : Env) (c c' : Sandbox) (un : unit) (es : list XEffect).
Let k := predecessor_account_id e.
Let s := get_account_staked_balance c k.
Let u := get_account_unstaked_balance c k.
Hypothesis Hok : account_ok c k.

Lemma deposit_stores : deposit e c = Ok (un, c', es) -> stores e c c' s (u + attached_deposit e).
Proof. destruct Hok as (? & ? & ?). intros HR. method_spec HR. subst k s u. cbv zeta in *. lia. Qed.

Lemma deposit_and_stake_stores : deposit_and_stake e c = Ok (un, c', es) -> stores e c c' (s + attached_deposit e) u.
Proof. destruct Hok as (? & ? & ?). intros HR. method_spec HR. subst k s u. cbv zeta in *. lia. Qed.

Lemma withdraw_stores n : withdraw n e c = Ok (un, c', es) -> stores e c c' s (u - n) /\ n <= u.
Proof. destruct Hok as (? & ? & ?). intros HR. method_spec HR. subst k s u. cbv zeta in *. lia. Qed.

Lemma stake_stores n : stake n e c = Ok (un, c', es) -> stores e c c' (s + n) (u - n).
Proof. destruct Hok as (? & ? & ?). intros HR. method_spec HR. subst k s u. cbv zeta in *. lia. Qed.

Lemma unstake_stores n : unstake n e c = Ok (un, c', es) -> stores e c c' (s - n) (u + n).
Proof. destruct Hok as (? & ? & ?). intros HR. method_spec HR. subst k s u. cbv zeta in *. lia. Qed.

Lemma unstake_all_stores : unstake_all e c = Ok (un, c', es) -> stores e c c' 0 (u + s).
Proof. destruct Hok as (? & ? & ?). intros HR. method_spec HR. subst k s u. cbv zeta in *. lia. Qed.
End methods.

(** The amounts of a call are [u128], a deposit is attached and is not zero. *)
Definition op_ok (op : PoolOp) (e : Env) : Prop :=
attached_deposit e = deposit_of op /\
match op with
| Deposit a | DepositAndStake a => 0 < a
| Withdraw a | Stake a | Unstake a => 0 <= a
| _ => True
end.

Lemma stores_ok e c c' s u : stores e c c' s u -> s + u <= U128_MAX ->
account_ok c' (predecessor_account_id e) /\ held c' (predecessor_account_id e) = s + u.
Proof. intros (H1 & H2 & ? & ?) Hle. unfold account_ok, held. rewrite H1, H2. lia. Qed.

(** A method that stores the account, or fails and returns its deposit. *)
Lemma finish_ok op (m : MX unit) e c back c' r b answer s u :
account_ok c (predecessor_account_id e) -> attached_deposit e = deposit_of op ->
(forall un c1 es, m e c = Ok (un, c1, es) -> stores e c c1 s u /\ s + u <= U128_MAX /\
pool_exec (held c (predecessor_account_id e)) op Successful (s + u) back 0) ->
match m e c with
| Ok (_, c1, _) => (c1, Successful, back, 0)
| Panic _ => (c, Failed, attached_deposit e, 0)
end = (c', r, b, answer) ->
account_ok c' (predecessor_account_id e) /\
pool_exec (held c (predecessor_account_id e)) op r (held c' (predecessor_account_id e)) b answer.
Proof.
intros Hok Hd Hm. destruct (m e c) as [[[un c1] es]|]; intros [= <- <- <- <-].
- destruct (Hm _ _ _ eq_refl) as (Hst & Hle & Hex). destruct (stores_ok _ _ _ _ _ Hst Hle) as [Hok' Hh].
split; [done|]. by rewrite Hh.
- split; [done|]. rewrite Hd. constructor.
Qed.

(** As a pool the sandbox contract behaves as the worlds of the lockup
contract assume: a call it serves takes the NEAR it keeps for the lockup, its
outcome, the NEAR it sends back and its answer to what [pool_exec] allows
(while the NEAR it keeps fits the width), and the account stays in range. *)
Theorem sandbox_pool_is_a_pool op e c c' r back answer :
account_ok c (predecessor_account_id e) -> op_ok op e ->
held c (predecessor_account_id e) + attached_deposit e <= U128_MAX ->
serve op e c = (c', r, back, answer) ->
account_ok c' (predecessor_account_id e) /\
pool_exec (held c (predecessor_account_id e)) op r (held c' (predecessor_account_id e)) back answer.
Proof.
intros Hok [Hd Hop] Hle. pose proof Hok as (Hs & Hu & Ht). unfold serve.
destruct op as [n|n|n|n|n| | |]; cbn [deposit_of] in Hd.
- apply finish_ok with (s := get_account_staked_balance c (predecessor_account_id e))
(u := get_account_unstaked_balance c (predecessor_account_id e) + attached_deposit e); [done | done |].
intros un c1 es E. split; [by eapply deposit_stores|]. unfold held in *. split; [lia|].
rewrite Hd, Z.add_assoc. apply (px_credit _ (Deposit n)); cbn; lia.
- apply finish_ok with (s := get_account_staked_balance c (predecessor_account_id e) + attached_deposit e)
(u := get_account_unstaked_balance c (predecessor_account_id e)); [done | done |].
intros un c1 es E. split; [by eapply deposit_and_stake_stores|]. unfold held in *. split; [lia|].
rewrite Hd, <- Z.add_assoc, (Z.add_comm n), Z.add_assoc. apply (px_credit _ (DepositAndStake n)); cbn; lia.
- apply finish_ok with (s := get_account_staked_balance c (predecessor_account_id e))
(u := get_account_unstaked_balance c (predecessor_account_id e) - n); [done | done |].
intros un c1 es E. destruct (withdraw_stores _ _ _ _ _ Hok _ E) as [Hst Hn]. split; [done|].
unfold held in *. split; [lia|]. rewrite Z.add_sub_assoc. constructor. lia.
- apply finish_ok with (s := get_account_staked_balance c (predecessor_account_id e) + n)
(u := get_account_unstaked_balance c (predecessor_account_id e) - n); [done | done |].
intros un c1 es E. split; [by eapply stake_stores|]. unfold held in *. split; [lia|].
replace (_ + n + (_ - n)) with (held c (predecessor_account_id e)) by (unfold held; lia). constructor.
- apply finish_ok with (s := get_account_staked_balance c (predecessor_account_id e) - n)
(u := get_account_unstaked_balance c (predecessor_account_id e) + n); [done | done |].
intros un c1 es E. split; [by eapply unstake_stores|]. unfold held in *. split; [lia|].
replace (_ - n + (_ + n)) with (held c (predecessor_account_id e)) by (unfold held; lia). constructor.
- apply finish_ok with (s := 0) (u := get_account_unstaked_balance c (predecessor_account_id e) +
get_account_staked_balance c (predecessor_account_id e)); [done | done |].
intros un c1 es E. split; [by eapply unstake_all_stores|]. unfold held in *. split; [lia|].
rewrite Z.add_0_l, Z.add_comm. constructor.
- unfold get_account_total_balance, held, get_account_staked_balance, get_account_unstaked_balance, u128_add in *.
destruct (get_account c (predecessor_account_id e)) as [acc|] eqn:E; cbn in *.
+ rewrite checked_op_Ok by lia. intros [= <- <- <- <-]. rewrite E. cbn. split; [done | constructor].
+ intros [= <- <- <- <-]. rewrite E. cbn. split; [done | exact (px_total 0)].
- intros [= <- <- <- <-]. split; [done|]. apply px_unstaked. unfold held. lia.
Qed.

End SandboxPool.
