(* ===== verification/SystemLockup.v ===== *)
(** * The lockups and veNEAR together

    veNEAR orders lockups, learns from a callback that one is there, and is
    told by reports what it has locked; a report carries a nonce and nobody
    waits for it. A [Sys] is the veNEAR contract, the lockups with their own
    worlds ([LockupWorld]), and what is on its way between them: the orders,
    the callbacks of the orders, the reports. Everything on its way is executed
    in any order; a report or a callback may fail and is then gone. *)
From stdpp Require Import base gmap strings list.
From Stdlib Require Import ZArith Lia.
From S2P Require Import Prelude.
From S2P Require Import Near.
From S2P Require Import Common.
From S2P Require Import CommonFacts.
From S2P Require Import MerkleTree.
From S2P Require Import MerkleFacts.
From S2P Require Import LockupContract.
From S2P Require Import LockupFacts.
From S2P Require Import LockupWorld.
From S2P Require Import VenearContract.
From S2P Require Import VenearLedger.
From S2P Require Import VenearInvariant.
From S2P Require Import VenearOps.
From S2P Require Import VenearMigrate.
From S2P Require Import VenearTheorems.

Local Open Scope Z_scope.

Abbreviation lockup_nonce := LockupContract.lockup_update_nonce (only parsing).

(** ** What is on its way *)
Record Report : Type := mkReport { rp_version : Version; rp_owner : AccountId; rp_update : LockupUpdateV1 }.

Definition report_mail (ef : LEffect) : option Report :=
match ef with CallLockupUpdate _ v o (LV1 u) _ => Some (mkReport v o u) | _ => None end.
Definition mail_of (es : list LEffect) : list Report := omap report_mail es.

(** An order is the batch that creates the account and calls [new]; its
    callback is [on_lockup_deployed]. *)
Abbreviation Order := (LockupInitArgs * OnLockupDeployedArgs)%type.
Definition order_of (ef : Effect) : option Order :=
match ef with DeployLockup _ _ init _ cb => Some (init, cb) | _ => None end.

(** A lockup's entry keeps the nonce it was created with. *)
Record Sys : Type := mkSys {
  ve : Contract;
  lks : gmap AccountId (World * Z);
  mail : list Report;
  orders : list Order;
  answers : list (OnLockupDeployedArgs * PromiseResult);
  clock : TimestampNs
}.

Definition public (x : Call) : bool :=
match x with OnLockupUpdate _ _ _ | OnLockupDeployed _ _ _ _ => false | _ => true end.

(** The nonce of an order is a million times the block height of the order, so
    it is above everything an earlier lockup of the account has sent: an
    assumption on the number of reports between two lockups of one account. *)
Definition fresh (s : Sys) (init : LockupInitArgs) : Prop :=
(forall r, r ∈ mail s -> rp_owner r = li_owner_account_id init -> lu_nonce (rp_update r) < li_lockup_update_nonce init) /\
(forall i, internals (ve s) !! li_owner_account_id init = Some i -> lockup_update_nonce i <= li_lockup_update_nonce init) /\
(forall cb, (cb, Successful) ∈ answers s -> od_account_id cb = li_owner_account_id init ->
   od_lockup_update_nonce cb <= li_lockup_update_nonce init).

Section system.
Context `{VH : VenearHost, LH : LockupHost} (careful : bool).

(** A step of a lockup's world with the receipts of the contract call in it. *)
Definition moved (w : World) (es : list LEffect) (w' : World) : Prop :=
wstep careful w w' /\ ((exists e, lstep e (lk w) es (lk w')) \/ (es = [] /\ lk w' = lk w)).

Inductive sstep : Sys -> Sys -> Prop :=
| ss_venear s x e c' es : public x = true -> env_ok e -> clock s <= block_timestamp e -> call_ok x ->
run x e (ve s) = Ok (tt, c', es) ->
sstep s (mkSys c' (lks s) (mail s) (orders s ++ omap order_of es) (answers s) (block_timestamp e))
| ss_create s o1 init cb o2 e b l : orders s = o1 ++ (init, cb) :: o2 ->
lks s !! li_owner_account_id init = None -> fresh s init -> 0 <= b ->
0 <= li_min_lockup_deposit init -> 0 <= li_lockup_update_nonce init ->
lockup_new e (li_owner_account_id init) (li_venear_account_id init) (li_unlock_duration_ns init)
(li_staking_pool_whitelist_account_id init) (li_version init) (li_lockup_update_nonce init)
(li_min_lockup_deposit init) = Ok l ->
sstep s (mkSys (ve s) (<[li_owner_account_id init := (world_new l b, li_lockup_update_nonce init)]> (lks s))
(mail s) (o1 ++ o2) (answers s ++ [(cb, Successful)]) (clock s))
| ss_create_fails s o1 init cb o2 : orders s = o1 ++ (init, cb) :: o2 ->
sstep s (mkSys (ve s) (lks s) (mail s) (o1 ++ o2) (answers s ++ [(cb, Failed)]) (clock s))
| ss_deployed s a1 cb r a2 e o c' es : answers s = a1 ++ (cb, r) :: a2 -> env_ok e -> clock s <= block_timestamp e ->
promise_results e = [r] ->
on_lockup_deployed (od_version cb) (od_account_id cb) (od_lockup_update_nonce cb) (od_lockup_deposit cb) e (ve s) =
Ok (o, c', es) ->
sstep s (mkSys c' (lks s) (mail s) (orders s) (a1 ++ a2) (block_timestamp e))
| ss_deployed_fails s a1 cb r a2 : answers s = a1 ++ (cb, r) :: a2 ->
sstep s (mkSys (ve s) (lks s) (mail s) (orders s) (a1 ++ a2) (clock s))
| ss_lockup s o w born es w' : lks s !! o = Some (w, born) -> moved w es w' ->
sstep s (mkSys (ve s) (<[o := (w', born)]> (lks s)) (mail s ++ mail_of es) (orders s) (answers s) (clock s))
| ss_delete s o w born e c' es : lks s !! o = Some (w, born) -> lrun DeleteLockup e (lk w) = Ok (tt, c', es) ->
sstep s (mkSys (ve s) (delete o (lks s)) (mail s) (orders s) (answers s) (clock s))
| ss_report s m1 r m2 e c' es : mail s = m1 ++ r :: m2 -> env_ok e -> clock s <= block_timestamp e ->
on_lockup_update (rp_version r) (rp_owner r) (LV1 (rp_update r)) e (ve s) = Ok (tt, c', es) ->
sstep s (mkSys c' (lks s) (m1 ++ m2) (orders s) (answers s) (block_timestamp e))
| ss_report_fails s m1 r m2 : mail s = m1 ++ r :: m2 ->
sstep s (mkSys (ve s) (lks s) (m1 ++ m2) (orders s) (answers s) (clock s)).

Inductive sreachable : Sys -> Prop :=
| sr_new e cfg growth c : env_ok e -> 0 <= numerator (annual_growth_rate_ns growth) ->
0 <= local_deposit cfg <= U128_MAX -> new_contract e cfg growth = Ok c ->
sreachable (mkSys c ∅ [] [] [] (block_timestamp e))
| sr_step s s' : sreachable s -> sstep s s' -> sreachable s'.

(** Every step of a lockup's world is one of the system. *)
Lemma wstep_moved w w' : wstep careful w w' -> exists es, moved w es w'.
Proof.
intros H. destruct H eqn:E; try (exists []; split; [done | by right]).
- exists es. split; [done|]. left. exists e. by eapply ls_call.
- exists es. split; [done|]. left. exists e. by eapply ls_whitelisted.
- exists es. split; [done|]. left. exists e. by eapply ls_callback.
Qed.

(** ** What a lockup sends *)
Definition newest (c : Lockup) (t : TimestampNs) : Report :=
mkReport (version c) (LockupContract.owner_account_id c)
(mkLockupUpdate (venear_locked_balance c) t (lockup_nonce c)).

Lemma mail_of_quiet es : Forall (fun ef => report_mail ef = None) es -> mail_of es = [].
Proof. induction 1 as [|ef es H _ IH]; [done|]. unfold mail_of. cbn. by rewrite H. Qed.

Lemma step_mail e c es c' : lockup_ok c -> lstep e c es c' ->
LockupContract.owner_account_id c' = LockupContract.owner_account_id c /\
((mail_of es = [] /\ venear_locked_balance c' = venear_locked_balance c /\ lockup_nonce c' = lockup_nonce c) \/
(lockup_nonce c' = lockup_nonce c + 1 /\ mail_of es = [newest c' (block_timestamp e)])).
Proof.
intros Hok H. destruct (step_cases _ _ _ _ Hok H) as [[Hc Hq]|(x & l & p & ts & _ & _ & _ & [Hc _ [Hl Hq] _] & _)].
- split; [by rewrite Hc|]. left. split; [|by rewrite Hc]. apply mail_of_quiet.
eapply Forall_impl; [exact Hq|]. by intros [].
- split; [by rewrite Hc|]. right. split; [by rewrite Hc|].
destruct (exists_last (l := es)) as (es0 & ef & ->); [by intros ->|].
rewrite last_snoc in Hl. injection Hl as ->. rewrite removelast_last in Hq. unfold mail_of. rewrite omap_app.
fold (mail_of es0). rewrite mail_of_quiet; [done|]. eapply Forall_impl; [exact Hq|]. by intros [].
Qed.

(** ** What a call does to the locked NEAR veNEAR has recorded *)
Definition near_of (c : Contract) (o : AccountId) : option Z :=
(fun x => near_balance (balance x)) <$> accts c !! o.

Lemma moves_near t f c c1 o : moves t f c c1 -> near_of c1 o = near_of c o /\ internals c1 = internals c.
Proof.
intros Hm. split; [|apply (mv_frame _ _ _ _ Hm)]. unfold near_of. destruct (accts c1 !! o) as [x1|] eqn:E.
- destruct (moves_same _ _ _ _ _ _ Hm E) as (x & -> & _ & H). cbn. by rewrite H.
- destruct (accts c !! o) eqn:E'; [|done]. pose proof (moves_lookup _ _ _ _ o Hm) as [_ H].
rewrite E, E' in H. destruct H as [? H]; [done|]. discriminate.
Qed.

Lemma near_of_insert c c1 a x : accts c1 = <[a := x]> (accts c) ->
forall o, near_of c1 o = if decide (a = o) then Some (near_balance (balance x)) else near_of c o.
Proof.
intros H o. unfold near_of. rewrite H. case_decide; [subst; by rewrite lookup_insert_eq | by rewrite lookup_insert_ne].
Qed.

Lemma near_of_snap t c a x : snap t c !! a = Some x -> near_of c a = Some (near_balance (balance x)).
Proof. rewrite snap_lookup. unfold near_of. destruct (accts c !! a); [|discriminate]. by intros [= <-]. Qed.

(** What a public call leaves of [o]'s record: all of it, or a new one. *)
Definition untouched (c c' : Contract) : Prop := forall o,
(internals c' !! o = internals c !! o /\ near_of c' o = near_of c o) \/
(internals c !! o = None /\ exists d, internals c' !! o = Some (mkInternal None d 0)).

Lemma untouched_same c c' : tree c' = tree c -> internals c' = internals c -> untouched c c'.
Proof. intros H1 H2 o. left. unfold near_of, accts. by rewrite H1, H2. Qed.

Lemma register_untouched a dep e c u c' es : PreInv c -> env_ok e ->
internal_register_account a dep e c = Ok (u, c', es) -> untouched c c'.
Proof.
intros HP He H. apply register_parts in H as (Ha & _ & Hacc & _ & _ & Hint & _); [|done..].
assert (internals c !! a = None) as Hn.
{ destruct (internals c !! a) eqn:E; [|done]. pose proof (proj1 (inv_internals c HP a) ltac:(eauto)) as [? ?]. congruence. }
intros o. rewrite Hint, (near_of_insert _ _ _ _ Hacc). destruct (decide (a = o)) as [<-|Hne].
- right. split; [done|]. rewrite lookup_insert_eq. eauto.
- left. by rewrite lookup_insert_ne.
Qed.

Lemma public_untouched x e c c' es : Inv c -> env_ok e -> call_ok x -> public x = true ->
run x e c = Ok (tt, c', es) -> untouched c c'.
Proof.
intros HI He Hx Hp H. pose proof (inv_pre c HI) as HP. destruct x; try discriminate Hp; cbn [run] in H; m_inv.
- apply set_delegations_parts in H as (ao & c1 & Hao & _ & _ & _ & _ & _ & Hm & Hf & Hacc); [|done..].
intros o. left. destruct (moves_near _ _ _ _ o Hm) as [Hn Hi]. rewrite (fr_internals _ _ Hf), Hi. split; [done|].
rewrite (near_of_insert _ _ _ _ Hacc). case_decide as Ho; [|done]. subst o. by rewrite (near_of_snap _ _ _ _ Hao).
- unfold storage_deposit, assert_not_paused in E. m_all; try (by apply untouched_same); by eapply register_untouched.
- unfold deploy_lockup, assert_not_paused, internal_deploy_lockup in H. m_inv. by apply untouched_same.
- unfold prepare_lockup_code, assert_not_paused in E. m_all; by apply untouched_same.
- unfold set_lockup_contract, VenearContract.assert_owner, internal_set_lockup in H. m_inv. by apply untouched_same.
- unfold set_local_deposit, owner_update, VenearContract.assert_owner in H. m_inv. by apply untouched_same.
- unfold set_staking_pool_whitelist_account_id, owner_update, VenearContract.assert_owner in H. m_inv. by apply untouched_same.
- unfold propose_new_owner_account_id, owner_update, VenearContract.assert_owner in H. m_inv. by apply untouched_same.
- unfold accept_ownership in H. m_inv. by apply untouched_same.
- unfold set_unlock_duration_sec, VenearContract.assert_owner in H. m_inv. by apply untouched_same.
- unfold set_lockup_code_deployers, owner_update, VenearContract.assert_owner in H. m_inv. by apply untouched_same.
- unfold set_guardians, owner_update, VenearContract.assert_owner in H. m_inv. by apply untouched_same.
- unfold set_max_delegations, owner_update, VenearContract.assert_owner in H. m_inv. by apply untouched_same.
- unfold pause, assert_guardian in H. m_inv. by apply untouched_same.
- unfold unpause, VenearContract.assert_owner in H. m_inv. by apply untouched_same.
- apply migrate_state_inv in H as [_ [f Hm]]; [|done..]. intros o. left. destruct (moves_near _ _ _ _ o Hm) as [-> ->]. done.
Qed.

(** An accepted report sets the owner's record and nothing else. *)
Lemma report_accepted v o u e c c' es : PreInv c -> env_ok e -> 0 <= locked_near_balance u ->
on_lockup_update v o (LV1 u) e c = Ok (tt, c', es) ->
exists i, internals c !! o = Some i /\ lockup_version i = Some v /\ lockup_update_nonce i < lu_nonce u /\
internals c' = <[o := mkInternal (lockup_version i) (deposit i) (lu_nonce u)]> (internals c) /\
forall a, near_of c' a = if decide (o = a) then Some (locked_near_balance u + deposit i) else near_of c a.
Proof.
intros HP He Hl H. unfold on_lockup_update in H. m_inv.
match goal with H : expect (internal_get_account_internal _ _) _ = Ok ?j |- _ => apply expect_Ok_inv in H; rename j into i end.
bool_prop.
apply lockup_update_parts in H as (ao & c1 & _ & _ & _ & _ & Hn & Hm & _ & Hacc & _ & _ & Hint & _); [|done..].
exists i. split_and!; try done. intros a. rewrite (near_of_insert _ _ _ _ Hacc). case_decide; [done|].
by apply (moves_near _ _ _ _ a Hm).
Qed.

Lemma deployed_recorded v o n d e c r c' es : on_lockup_deployed v o n d e c = Ok (r, c', es) ->
tree c' = tree c /\
(c' = c \/ is_promise_success e = true /\ exists i, internals c !! o = Some i /\ lockup_update_nonce i <= n /\
internals c' = <[o := mkInternal (Some v) (deposit i) n]> (internals c)).
Proof.
intros H. unfold on_lockup_deployed, internal_set_account_internal in H. m_all; [|by split; [|left]].
match goal with H : expect (internal_get_account_internal _ _) _ = Ok ?j |- _ => apply expect_Ok_inv in H end.
bool_prop. split; [done|]. right. eauto 6.
Qed.

(** ** The invariant *)

(** A lockup with the reports and callbacks of its owner on their way and the
record veNEAR has of it. *)
Record in_step (s : Sys) (o : AccountId) (w : World) (born : Z) : Prop := mkInStep {
is_ok_lockup : lockup_ok (lk w);
is_careful : careful = true -> wreachable true w;
is_owner : LockupContract.owner_account_id (lk w) = o;
is_born : 0 <= born <= lockup_nonce (lk w);
is_new : lockup_nonce (lk w) = born -> venear_locked_balance (lk w) = 0;
is_mail : forall r, r ∈ mail s -> rp_owner r = o -> lu_nonce (rp_update r) <= lockup_nonce (lk w) /\
(lu_nonce (rp_update r) = lockup_nonce (lk w) -> locked_near_balance (rp_update r) = venear_locked_balance (lk w));
is_answers : forall cb, (cb, Successful) ∈ answers s -> od_account_id cb = o -> od_lockup_update_nonce cb <= born;
is_record : forall i n, internals (ve s) !! o = Some i -> near_of (ve s) o = Some n ->
lockup_update_nonce i <= lockup_nonce (lk w) /\
(born < lockup_nonce (lk w) -> lockup_update_nonce i = lockup_nonce (lk w) ->
n = venear_locked_balance (lk w) + deposit i)
}.

(** The callback of an order names the owner and the nonce of the lockup. *)
Definition paired (x : Order) : Prop :=
od_account_id (snd x) = li_owner_account_id (fst x) /\ od_lockup_update_nonce (snd x) = li_lockup_update_nonce (fst x).

Record SInv (s : Sys) : Prop := mkSInv {
si_ve : reachable (clock s) (ve s);
si_mail : forall r, r ∈ mail s -> 0 <= locked_near_balance (rp_update r);
si_orders : Forall paired (orders s);
si_lockups : forall o w born, lks s !! o = Some (w, born) -> in_step s o w born
}.

Definition paired_effect (ef : Effect) : Prop := match order_of ef with Some x => paired x | None => True end.

Lemma run_paired x : emits paired_effect (run x).
Proof. destruct x; cbn [run]; emits_auto; done. Qed.

Lemma run_orders x e c c' es : run x e c = Ok (tt, c', es) -> Forall paired (omap order_of es).
Proof.
intros H%run_paired. induction H as [|ef es Hef _ IH]; [constructor|]. cbn. unfold paired_effect in Hef.
destruct (order_of ef); [by constructor | done].
Qed.

(** Steps that do not touch the lockup of [o]. *)
Lemma in_step_keep s s' o w born : in_step s o w born ->
(forall r, r ∈ mail s' -> r ∈ mail s) ->
(forall cb, (cb, Successful) ∈ answers s' -> od_account_id cb = o -> (cb, Successful) ∈ answers s) ->
(forall i n, internals (ve s') !! o = Some i -> near_of (ve s') o = Some n ->
lockup_update_nonce i <= lockup_nonce (lk w) /\
(born < lockup_nonce (lk w) -> lockup_update_nonce i = lockup_nonce (lk w) ->
n = venear_locked_balance (lk w) + deposit i)) ->
in_step s' o w born.
Proof. intros [] Hm Ha Hr. split; eauto. Qed.

Lemma in_step_same_ve s s' o w born : in_step s o w born -> ve s' = ve s ->
(forall r, r ∈ mail s' -> r ∈ mail s) ->
(forall cb, (cb, Successful) ∈ answers s' -> od_account_id cb = o -> (cb, Successful) ∈ answers s) ->
in_step s' o w born.
Proof. intros H E Hm Ha. eapply in_step_keep; [exact H | done..|]. rewrite E. apply H. Qed.

Lemma elem_of_rest {A} (x y : A) (l1 l2 : list A) : x ∈ l1 ++ l2 -> x ∈ l1 ++ y :: l2.
Proof. rewrite !elem_of_app, elem_of_cons. tauto. Qed.

Lemma venear_step_inv s x e c' es : SInv s -> public x = true -> env_ok e -> clock s <= block_timestamp e -> call_ok x ->
run x e (ve s) = Ok (tt, c', es) ->
SInv (mkSys c' (lks s) (mail s) (orders s ++ omap order_of es) (answers s) (block_timestamp e)).
Proof.
intros HI Hp He Hc Hx H. destruct (reachable_inv _ _ (si_ve s HI)) as [HV _]. split; cbn.
- eapply reach_call; [apply HI | done..].
- apply HI.
- apply Forall_app. split; [apply HI | by eapply run_orders].
- intros o w born Ho. apply (si_lockups s HI) in Ho as Hs. eapply in_step_keep; [exact Hs | done..|]. cbn.
intros i n Hi Hn. destruct (public_untouched _ _ _ _ _ HV He Hx Hp H o) as [[E1 E2]|[_ [d Hd]]].
+ rewrite E1 in Hi. rewrite E2 in Hn. by apply (is_record _ _ _ _ Hs).
+ pose proof (is_born _ _ _ _ Hs). rewrite Hd in Hi. injection Hi as <-. cbn. lia.
Qed.

Lemma create_step_inv s o1 init cb o2 e b l : SInv s -> orders s = o1 ++ (init, cb) :: o2 ->
lks s !! li_owner_account_id init = None -> fresh s init -> 0 <= b ->
0 <= li_min_lockup_deposit init -> 0 <= li_lockup_update_nonce init ->
lockup_new e (li_owner_account_id init) (li_venear_account_id init) (li_unlock_duration_ns init)
(li_staking_pool_whitelist_account_id init) (li_version init) (li_lockup_update_nonce init)
(li_min_lockup_deposit init) = Ok l ->
SInv (mkSys (ve s) (<[li_owner_account_id init := (world_new l b, li_lockup_update_nonce init)]> (lks s))
(mail s) (o1 ++ o2) (answers s ++ [(cb, Successful)]) (clock s)).
Proof.
intros HI Ho Hn (F1 & F2 & F3) Hb Hd H0 H. pose proof (si_orders s HI) as HO. rewrite Ho in HO.
apply Forall_app in HO as [HO1 [[Ecb Ecn] HO2]%Forall_cons]. cbn in Ecb, Ecn. split; cbn; [apply HI.. | by apply Forall_app |].
intros o w born. rewrite lookup_insert_Some. intros [[<- [= <- <-]]|[Hne Hw]].
- pose proof H as H'. unfold lockup_new in H'. res_inv. split; cbn; try done.
+ intros _. eapply wr_new; [exact Hb | exact Hd | exact H].
+ intros r Hr Hro. specialize (F1 r Hr Hro). lia.
+ intros k. rewrite elem_of_app, list_elem_of_singleton. intros [Hk|[= ->]] Hko; [by apply F3 | lia].
+ intros i n Hi _. specialize (F2 i Hi). lia.
- apply (si_lockups s HI) in Hw as Hs. eapply in_step_same_ve; [exact Hs | done..|]. cbn.
intros k. rewrite elem_of_app, list_elem_of_singleton. intros [Hk|[= ->]] Hko; [done | congruence].
Qed.

Lemma deployed_step_inv s a1 cb r a2 e o c' es : SInv s -> answers s = a1 ++ (cb, r) :: a2 -> env_ok e ->
clock s <= block_timestamp e -> promise_results e = [r] ->
on_lockup_deployed (od_version cb) (od_account_id cb) (od_lockup_update_nonce cb) (od_lockup_deposit cb) e (ve s) =
Ok (o, c', es) ->
SInv (mkSys c' (lks s) (mail s) (orders s) (a1 ++ a2) (block_timestamp e)).
Proof.
intros HI Ha He Hc Hr H. split; cbn.
- eapply (reach_call _ _ (OnLockupDeployed (od_version cb) (od_account_id cb) (od_lockup_update_nonce cb) (od_lockup_deposit cb)));
[apply HI | done | done | done|]. cbn [run]. by eapply bindM_Ok.
- apply HI.
- apply HI.
- intros a w born Hw. apply (si_lockups s HI) in Hw as Hs. eapply in_step_keep; [exact Hs | done | |]; cbn.
{ intros k Hk _. rewrite Ha. by apply elem_of_rest. }
apply deployed_recorded in H as [Ht Hrec]. unfold near_of, accts. rewrite Ht. fold (accts (ve s)). fold (near_of (ve s) a).
intros i n Hi Hn. destruct Hrec as [->|(Hok & i0 & Hi0 & Hle & Hint)]; [by apply (is_record _ _ _ _ Hs)|].
rewrite Hint, lookup_insert_Some in Hi. destruct Hi as [[<- <-]|[_ Hi]]; [|by apply (is_record _ _ _ _ Hs)].
unfold is_promise_success in Hok. rewrite Hr in Hok. destruct r; [|discriminate].
assert (od_lockup_update_nonce cb <= born) as Hb.
{ apply (is_answers _ _ _ _ Hs); [|done]. rewrite Ha, elem_of_app, elem_of_cons. tauto. }
pose proof (is_born _ _ _ _ Hs). cbn. lia.
Qed.

Lemma lockup_step_inv s o w born es w' : SInv s -> lks s !! o = Some (w, born) -> moved w es w' ->
SInv (mkSys (ve s) (<[o := (w', born)]> (lks s)) (mail s ++ mail_of es) (orders s) (answers s) (clock s)).
Proof.
intros HI Hw [Hst Hmv]. apply (si_lockups s HI) in Hw as Hs. pose proof Hs as [Hok Hcar How Hborn Hnew Hmail Hans Hrec].
assert (lockup_ok (lk w') /\ LockupContract.owner_account_id (lk w') = o /\
((mail_of es = [] /\ venear_locked_balance (lk w') = venear_locked_balance (lk w) /\ lockup_nonce (lk w') = lockup_nonce (lk w)) \/
(lockup_nonce (lk w') = lockup_nonce (lk w) + 1 /\ exists t, mail_of es = [newest (lk w') t]))) as (Hok' & How' & Hcase).
{ destruct Hmv as [[e Hl]|[-> ->]]; [|split_and!; [done | done | by left]]. destruct (step_mail _ _ _ _ Hok Hl) as [-> Hc].
split; [by eapply step_ok|]. split; [done|]. destruct Hc as [?|[? ?]]; eauto. }
split; cbn; [apply HI | | apply HI |].
- intros r. rewrite elem_of_app. intros [Hr|Hr]; [by apply HI|].
destruct Hcase as [(E & _)|(_ & t & E)]; rewrite E in Hr; [by apply not_elem_of_nil in Hr|].
apply list_elem_of_singleton in Hr as ->. cbn. apply Hok'.
- intros a v bo. rewrite lookup_insert_Some. intros [[<- [= <- <-]]|[Hne Ha]].
+ split; cbn; try done.
* intros Hc. specialize (Hcar Hc). rewrite Hc in Hst. by eapply wr_step.
* destruct Hcase as [(_ & _ & ->)|(-> & _)]; lia.
* destruct Hcase as [(_ & -> & ->)|(-> & _)]; [done | lia].
* intros r. rewrite elem_of_app. intros [Hr|Hr] Hro.
-- specialize (Hmail r Hr Hro). destruct Hcase as [(_ & -> & ->)|(-> & _)]; [done | lia].
-- destruct Hcase as [(E & _)|(_ & t & E)]; rewrite E in Hr; [by apply not_elem_of_nil in Hr|].
apply list_elem_of_singleton in Hr as ->. done.
* intros i n Hi Hn. specialize (Hrec i n Hi Hn). destruct Hcase as [(_ & -> & ->)|(-> & _)]; [done | lia].
+ apply (si_lockups s HI) in Ha as Hs'. destruct Hs' as [K1 K2 K3 K4 K5 K6 K7 K8]. split; cbn; try done.
intros r. rewrite elem_of_app. intros [Hr|Hr] Hro; [by apply K6|].
destruct Hcase as [(E & _)|(_ & t & E)]; rewrite E in Hr; [by apply not_elem_of_nil in Hr|].
apply list_elem_of_singleton in Hr as ->. cbn in Hro. congruence.
Qed.

Lemma report_step_inv s m1 r m2 e c' es : SInv s -> mail s = m1 ++ r :: m2 -> env_ok e -> clock s <= block_timestamp e ->
on_lockup_update (rp_version r) (rp_owner r) (LV1 (rp_update r)) e (ve s) = Ok (tt, c', es) ->
SInv (mkSys c' (lks s) (m1 ++ m2) (orders s) (answers s) (block_timestamp e)).
Proof.
intros HI Hm He Hc H. destruct (reachable_inv _ _ (si_ve s HI)) as [HV _].
assert (r ∈ mail s) as Hr by (rewrite Hm, elem_of_app, elem_of_cons; tauto).
pose proof (si_mail s HI r Hr) as Hl. split; cbn.
- eapply (reach_call _ _ (OnLockupUpdate (rp_version r) (rp_owner r) (LV1 (rp_update r)))); [apply HI | done..].
- intros r' Hr'. apply HI. rewrite Hm. by apply elem_of_rest.
- apply HI.
- apply report_accepted in H as (i & Hi & _ & Hlt & Hint & Hnear); [|apply HV | done..].
intros o w born Hw. apply (si_lockups s HI) in Hw as Hs. eapply in_step_keep; [exact Hs | | done |]; cbn.
{ intros r' Hr'. rewrite Hm. by apply elem_of_rest. }
intros j n. rewrite Hint, Hnear, lookup_insert_Some. intros [[<- <-]|[Hne Hj]] Hn.
+ rewrite decide_True in Hn by done. injection Hn as <-. cbn.
destruct (is_mail _ _ _ _ Hs r Hr eq_refl) as [H1 H2]. split; [done|]. intros _ E. by rewrite H2.
+ rewrite decide_False in Hn by done. by apply (is_record _ _ _ _ Hs).
Qed.

Lemma sstep_inv s s' : SInv s -> sstep s s' -> SInv s'.
Proof.
intros HI H. destruct H as [s x e c' es Hp He Hc Hx H|s o1 init cb o2 e b l Ho Hn Hf Hb Hd H0 H|s o1 init cb o2 Ho
|s a1 cb r a2 e o c' es Ha He Hc Hr H|s a1 cb r a2 Ha|s o w born es w' Hw Hmv|s o w born e c' es Hw H
|s m1 r m2 e c' es Hm He Hc H|s m1 r m2 Hm].
- by apply venear_step_inv with (x := x).
- by eapply create_step_inv.
- pose proof (si_orders s HI) as HO. rewrite Ho in HO. apply Forall_app in HO as [HO1 [_ HO2]%Forall_cons].
split; cbn; [apply HI.. | by apply Forall_app |]. intros o w born Hw%(si_lockups s HI).
eapply in_step_same_ve; [exact Hw | done..|]. cbn. intros k. rewrite elem_of_app, list_elem_of_singleton. by intros [?|[=]].
- by eapply deployed_step_inv.
- split; cbn; [apply HI..|]. intros o w born Hw%(si_lockups s HI). eapply in_step_same_ve; [exact Hw | done..|].
cbn. intros k Hk _. rewrite Ha. by apply elem_of_rest.
- by eapply lockup_step_inv.
- split; cbn; [apply HI..|]. intros a v bo [_ Hv]%lookup_delete_Some. apply (si_lockups s HI) in Hv.
by eapply in_step_same_ve.
- by eapply report_step_inv.
- assert (forall r', r' ∈ m1 ++ m2 -> r' ∈ mail s) as Hsub by (rewrite Hm; intros; by apply elem_of_rest).
split; cbn; [apply HI | intros r' Hr'; by apply HI, Hsub | apply HI |].
intros o w born Hw%(si_lockups s HI). eapply in_step_same_ve; [exact Hw | done | exact Hsub | done].
Qed.

Lemma sreachable_inv s : sreachable s -> SInv s.
Proof.
induction 1 as [e cfg growth c He Hn Hd H|s s' _ IH Hs]; [|by eapply sstep_inv].
split; cbn; [by eapply reach_new | by intros r Hr%not_elem_of_nil | constructor |].
intros o w born Hw. by rewrite lookup_empty in Hw.
Qed.
End system.

Section theorem.
Context `{VH : VenearHost, LH : LockupHost}.

(** C7. veNEAR and the lockups agree from a lockup's first report on: whatever
the owners, the pools and the other users do, in whatever order reports, orders
and callbacks arrive and whichever of them fail, veNEAR never records a nonce
its account's lockup has not used; once the lockup has sent a report (its nonce
is above the one it was created with) and veNEAR has recorded the lockup's last
nonce, the NEAR it counts for the account is its deposit and exactly the NEAR
that the lockup has locked; and the report that is still to bring that nonce
carries that amount. A lockup that has sent no report has locked nothing; until
its first report arrives veNEAR may still count what an earlier lockup of the
account has last reported. If nothing is locked while a withdrawal settles, the
NEAR veNEAR counts is in the lockup's hands. *)
Theorem venear_agrees_with_lockup careful s o w born i y : sreachable careful s ->
lks s !! o = Some (w, born) -> internals (ve s) !! o = Some i -> accts (ve s) !! o = Some y ->
lockup_update_nonce i <= lockup_nonce (lk w) /\ born <= lockup_nonce (lk w) /\
(born < lockup_nonce (lk w) -> lockup_update_nonce i = lockup_nonce (lk w) ->
near_balance (balance y) = venear_locked_balance (lk w) + deposit i /\
(careful = true -> near_balance (balance y) - deposit i <= assets w)) /\
(lockup_nonce (lk w) = born -> venear_locked_balance (lk w) = 0) /\
(forall r, r ∈ mail s -> rp_owner r = o -> lu_nonce (rp_update r) = lockup_nonce (lk w) ->
locked_near_balance (rp_update r) = venear_locked_balance (lk w)).
Proof.
intros HI%sreachable_inv Hw Hi Hy. apply (si_lockups _ s HI) in Hw as [Hok Hcar _ Hborn Hnew Hmail _ Hrec].
destruct (Hrec i (near_balance (balance y)) Hi) as [Hle Heq]; [unfold near_of; by rewrite Hy|].
split_and!; [done | lia | | done | intros r Hr Ho; by apply Hmail].
intros Hb En. specialize (Heq Hb En). split; [done|]. intros HW%Hcar%wreachable_inv.
pose proof (booked_le_assets w HW). pose proof (wi_booked w HW) as Hc. destruct Hok as (_ & ? & _). unfold committed in Hc. lia.
Qed.
End theorem.
