(* ===== verification/SystemSnapshot.v ===== *)
(** * Snapshots of veNEAR

    A snapshot the veNEAR contract hands out is the root of the account tree
    at the end of an earlier block: the tree of a state the contract was in
    between two calls. *)
From stdpp Require Import base gmap strings list.
From Stdlib Require Import ZArith Lia.
From S2P Require Import Prelude.
From S2P Require Import Near.
From S2P Require Import Common.
From S2P Require Import CommonFacts.
From S2P Require Import MerkleTree.
From S2P Require Import MerkleFacts.
From S2P Require Import VenearContract.
From S2P Require Import VenearLedger.
From S2P Require Import VenearInvariant.
From S2P Require Import VenearOps.
From S2P Require Import VenearMigrate.
From S2P Require Import VenearTheorems.

Local Open Scope Z_scope.

Create HintDb treads discriminated.

Section snapshot.
Context `{VH : VenearHost}.

(** A computation that changes the tree by the tree's own operations. *)
Definition treads {A} (m : M Effect Contract A) : Prop :=
forall e c a c' es, m e c = Ok (a, c', es) -> star (tree_step_at (block_height e)) (tree c) (tree c').

Lemma treads_bind {A B} (f : A -> M Effect Contract B) (m : M Effect Contract A) :
treads m -> (forall a, treads (f a)) -> treads (mbind f m).
Proof. intros Hm Hf e c a c' es H. m_inv. eapply star_trans; [by eapply Hm | by eapply Hf]. Qed.

Lemma treads_for_each {A} (l : list A) (body : A -> M Effect Contract unit) :
(forall x, treads (body x)) -> treads (for_each l body).
Proof.
intros Hb. induction l as [|x l IH]; cbn; [intros e c a c' es H; m_inv; constructor|].
apply treads_bind; [apply Hb | intros _; exact IH].
Qed.

(** Computations that do not touch the tree. *)
Lemma treads_same {A} (m : M Effect Contract A) :
(forall e c a c' es, m e c = Ok (a, c', es) -> tree c' = tree c) -> treads m.
Proof. intros Hm e c a c' es H. rewrite (Hm _ _ _ _ _ H). constructor. Qed.

Lemma treads_ret {A} (a : A) : treads (mret a : M Effect Contract A).
Proof. apply treads_same. intros e c b c' es H. by m_inv. Qed.
Lemma treads_lift {A} (r : result A) : treads (lift r : M Effect Contract A).
Proof. apply treads_same. intros e c b c' es H. by m_inv. Qed.
Lemma treads_get : treads get_state.
Proof. apply treads_same. intros e c b c' es H. by m_inv. Qed.
Lemma treads_asks {A} (f : Env -> A) : treads (asks f).
Proof. apply treads_same. intros e c b c' es H. by m_inv. Qed.
Lemma treads_emit ef : treads (emit ef).
Proof. apply treads_same. intros e c b c' es H. by m_inv. Qed.
Lemma treads_panic {A} msg : treads (panicM msg : M Effect Contract A).
Proof. intros e c b c' es H. discriminate. Qed.

Lemma treads_set_account a acc : treads (internal_set_account a acc).
Proof.
intros e c u c' es H. unfold internal_set_account in H. m_inv.
match goal with E : (if _ then _ else _) _ c = Ok (_, ?s, _) |- _ => assert (s = c) as -> by (m_all; done) end.
eapply star_step; [constructor | by eapply step_set].
Qed.

Lemma treads_set_global_state gs : treads (internal_set_global_state gs).
Proof.
intros e c u c' es H. unfold internal_set_global_state in H. m_inv.
eapply star_step; [constructor | apply step_set_global_state].
Qed.

Lemma treads_set_internal a i : treads (internal_set_account_internal a i).
Proof. apply treads_same. intros e c b c' es H. unfold internal_set_account_internal in H. by m_inv. Qed.

#[local] Hint Resolve treads_ret treads_lift treads_get treads_asks treads_emit treads_panic
treads_set_account treads_set_global_state treads_set_internal : treads.

Ltac treads_step :=
match goal with
| |- treads (mbind _ _) => apply treads_bind; [|intro]
| |- treads (for_each _ _) => apply treads_for_each; intro
| |- treads (requireM _ _) => apply treads_lift
| |- treads (if ?b then _ else _) => destruct b
| |- treads (match ?x with _ => _ end) => destruct x
| |- treads _ => solve [auto with treads nocore]
end.

Lemma run_treads x : treads (run x).
Proof.
destruct x; cbn [run].
all: try (unfold set_delegations, storage_deposit, deploy_lockup, on_lockup_update, on_lockup_deployed, migrate_state,
internal_register_account, internal_deploy_lockup, internal_lockup_update, rebase_delegation, remove_delegation,
add_delegation, write_recomputed, assert_not_paused, assert_private, internal_expect_account_updated,
internal_global_state_updated; repeat treads_step; fail).
all: apply treads_same; intros e c a c' es H;
unfold prepare_lockup_code, set_lockup_contract, internal_set_lockup, set_local_deposit,
set_staking_pool_whitelist_account_id, propose_new_owner_account_id, accept_ownership, set_unlock_duration_sec,
set_lockup_code_deployers, set_guardians, set_max_delegations, owner_update, pause, unpause, assert_owner,
assert_guardian, assert_not_paused in H; m_all; done.
Qed.

(** ** The states snapshots are taken of *)

(** [(s, g)] is the root, size and global state of a reachable state. *)
Definition genuine (now : Z) (sg : MerkleTreeSnapshot * VGlobalState) : Prop :=
exists now0 c0, reachable now0 c0 /\ now0 <= now /\
snap_root (fst sg) = root (tree c0) /\ snap_length (fst sg) = tree_length (tree c0) /\
snd sg = global_state (tree c0).

Lemma genuine_later now now' sg : now <= now' -> genuine now sg -> genuine now' sg.
Proof. intros Hle (n0 & c0 & ? & ? & ?). exists n0, c0. split_and!; [done | lia | naive_solver..]. Qed.

Lemma star_last_block bh (t t' : MerkleTree VAccount VGlobalState) : star (tree_step_at bh) t t' ->
t' = t \/ last_block_height t' = bh.
Proof. intros H. induction H as [|t1 t2 t3 _ IH Hs]; [by left|]. right. by apply get_snapshot_step in Hs as [_ ?]. Qed.

Lemma star_snapshot bh (t t' : MerkleTree VAccount VGlobalState) : star (tree_step_at bh) t t' ->
get_snapshot bh t' = get_snapshot bh t.
Proof. intros H. induction H as [|t1 t2 t3 _ IH Hs]; [done|]. apply get_snapshot_step in Hs as [-> _]. exact IH. Qed.

Lemma reachable_previous now c sg : reachable now c -> previous_snapshot (tree c) = Some sg -> genuine now sg.
Proof.
intros H. revert sg. induction H as [e cfg growth c He Hg Hl Hn | now c x e c' es H IH He Hnow Hx Hr]; intros sg Hsg.
- unfold new_contract in Hn. res_inv. discriminate.
- pose proof (run_treads x e c tt c' es Hr) as Hst. destruct (star_last_block _ _ _ Hst) as [Heq|Hbh].
+ rewrite Heq in Hsg. eapply genuine_later; [exact Hnow | by apply IH].
+ pose proof (star_snapshot _ _ _ Hst) as Hs. unfold get_snapshot in Hs at 1. rewrite Hbh, Z.eqb_refl, Hsg in Hs.
unfold get_snapshot in Hs. destruct (_ =? _).
* eapply genuine_later; [exact Hnow | by apply IH].
* injection Hs as ->. exists now, c. by split_and!.
Qed.

(** What [get_snapshot] returns is genuine. *)
Lemma snapshot_genuine now c e sg c' es : reachable now c -> get_snapshot_view e c = Ok (sg, c', es) -> genuine now sg.
Proof.
intros Hr H. unfold get_snapshot_view, assert_not_paused in H. m_inv.
match goal with H : expect _ _ = Ok _ |- _ => apply expect_Ok_inv in H as Hs end.
unfold get_snapshot in Hs. destruct (_ =? _).
- by eapply reachable_previous.
- injection Hs as <-. exists now, c. by split_and!.
Qed.
End snapshot.
