(* ===== verification/System.v ===== *)
(** * The contracts together

    The voting contract takes snapshots of veNEAR; the states of both
    contracts advance side by side, and a snapshot reaches the voting contract
    as an answer of the veNEAR contract. The lockup contract reports to veNEAR. *)
From stdpp Require Import base gmap strings list.
From Stdlib Require Import ZArith Lia.
From S2P Require Import Prelude.
From S2P Require Import Near.
From S2P Require Import Common.
From S2P Require Import CommonFacts.
From S2P Require Import MerkleTree.
From S2P Require Import MerkleFacts.
From S2P Require Import VenearContract.
From S2P Require Import VenearLedger.
From S2P Require Import VenearInvariant.
From S2P Require Import VenearOps.
From S2P Require Import VenearMigrate.
From S2P Require Import VenearTheorems.
From S2P Require Import VotingTypes.
From S2P Require Import VotingContract.
From S2P Require Import VotingFacts.
From S2P Require Import VotingInvariant.
From S2P Require Import VotingQueue.
From S2P Require Import VotingOps.
From S2P Require Import VotingCalls.
From S2P Require Import VotingTally.
From S2P Require Import SystemSnapshot.

Local Open Scope Z_scope.

(** ** Sums of voting power *)
Lemma tally_sum_le (w : AccountId -> Z) (pid : ProposalId) (f : Z -> bool) (R : gmap (AccountId * ProposalId) Z)
    {A} (L : gmap AccountId A) :
  (forall a, 0 <= w a) ->
  (forall a v, R !! (a, pid) = Some v -> w a <> 0 -> is_Some (L !! a)) ->
  tally_sum w pid f R <= map_sum (fun a _ => w a) L.
Proof.
  intros Hw. revert L. unfold tally_sum. induction R as [|[a q] v R Hk IH] using map_ind; intros L HL.
  - rewrite map_sum_empty. by apply map_sum_nonneg.
  - rewrite map_sum_insert_new by done. cbn [fst snd].
    assert (forall L' : gmap AccountId A, (forall b u, R !! (b, pid) = Some u -> w b <> 0 -> is_Some (L' !! b)) ->
      map_sum (fun k v => if bool_decide (k.2 = pid) && f v then w k.1 else 0) R <= map_sum (fun b _ => w b) L') as IH'.
    { intros L' HL'. by apply IH. }
    destruct (bool_decide (q = pid) && f v && negb (w a =? 0)) eqn:E; bool_prop.
    + subst q. assert (is_Some (L !! a)) as [x Hx] by (eapply (HL a v); [apply lookup_insert_eq | done]).
      rewrite (map_sum_delete _ _ _ _ Hx). match goal with H : f v = true |- _ => rewrite H end.
      rewrite bool_decide_eq_true_2 by done. cbn. apply Z.add_le_mono_l, IH'.
      intros b u Hb Hnz. destruct (decide (a = b)) as [->|Hne]; [congruence|]. rewrite lookup_delete_ne by done.
      apply (HL b u); [|done]. rewrite lookup_insert_ne by congruence. done.
    + replace (if bool_decide (q = pid) && f v then w a else 0) with 0.
      2:{ destruct (bool_decide (q = pid) && f v) eqn:E2; [|done]. cbn in E. by bool_prop. }
      rewrite Z.add_0_l. apply IH'. intros b u Hb. apply (HL b u). rewrite lookup_insert_ne by congruence. done.
Qed.

Section system.
Context {VH : VenearHost} `{IS : IterableSet} `{VT : !VotingHost} `{!IterableSetLaws IS}
`{!CryptoLaws vh_crypto} `{!BorshLaws VAccount vh_borsh}.

(** ** A genuine snapshot commits to the ledger of its state *)
Lemma genuine_opens now c (s : MerkleTreeSnapshot) : reachable now c ->
snap_root s = root (tree c) -> snap_length s = tree_length (tree c) ->
opens (forged (tree c)) s (view (tree c)).
Proof.
intros [HI _]%reachable_inv Hr Hl proof va [Hi Hp] Hv. pose proof (inv_pre c HI) as HP. pose proof (inv_tree c HP) as Hwf.
rewrite Hr, Hl in Hv. destruct (is_valid_sound _ _ _ Hwf Hi Hp Hv) as [Hd|]; [|by right]. left.
unfold get_by_index in Hd. assert (0 <= proof_index proof < tree_length (tree c)) as Hb
by (apply (wf_data _ Hwf); eauto).
destruct (wf_onto _ Hwf _ Hb) as [a Ha].
assert (view (tree c) !! a = Some va) as Hva by (unfold view; rewrite lookup_omap, Ha; done).
assert (accts c !! a = Some (account_from va)) as Hac by (unfold accts; by rewrite lookup_fmap, Hva).
destruct (inv_accounts c HP a _ Hac) as [-> _]. done.
Qed.

Lemma owned_at_nonneg g t a x : rate_ok g -> acc_ok a x -> update_timestamp x <= t -> 0 <= owned (acc_at g t x).
Proof.
intros Hg (_ & _ & _ & [Hn He] & [Hpn Hpe] & Hds) Ht.
pose proof (growth_nonneg g Hg (t - update_timestamp x) (near_balance (balance x)) ltac:(lia) ltac:(lia)).
pose proof (growth_nonneg g Hg (t - update_timestamp x) (near_balance (pool (delegated_balance x))) ltac:(lia) ltac:(lia)).
pose proof (contrib_sums_bounded (grow g (t - update_timestamp x) (balance x)) (delegations x) Hds
ltac:(unfold grow; cbn -[growth]; lia) ltac:(unfold grow; cbn -[growth]; lia)) as Hc.
unfold owned, bsum, acc_at, grow in *. cbn -[growth contrib_near_sum contrib_extra_sum] in *. lia.
Qed.

(** ** The power of all voters together is the total supply *)
Lemma snapshot_total t sg now c s : reachable now c -> snd sg = global_state (tree c) ->
snapshot_of t sg = Ok s ->
snapshot s = fst sg /\ timestamp_ns s = t /\ ss_growth_config s = rate c /\
ss_total_venear s = bsum (total_at (truncate_to_seconds t) c).
Proof.
intros [HI _]%reachable_inv Hg H. unfold snapshot_of in H. rewrite Hg in H. unfold GlobalState.update in H. res_inv.
cbn. split_and!; try done. apply pool_update_inv in E1 as [-> _]; [|apply HI]. by apply total_inv in E0 as [-> _].
Qed.

Lemma weight_owned t now c (s : SnapshotAndState) a va : reachable now c -> now <= t -> timestamp_ns s = t ->
ss_growth_config s = rate c -> view (tree c) !! a = Some va ->
0 <= weight s (view (tree c)) a <= owned (acc_at (rate c) (truncate_to_seconds t) (account_from va)).
Proof.
intros [HI Htm]%reachable_inv Hle Hts Hgr Hva. pose proof (inv_pre c HI) as HP.
assert (accts c !! a = Some (account_from va)) as Hac by (unfold accts; by rewrite lookup_fmap, Hva).
pose proof (inv_accounts c HP a _ Hac) as Hok. pose proof (timed_later _ _ _ Hle Htm) as [_ Ht].
pose proof (owned_at_nonneg _ _ _ _ (inv_rate c HP) Hok (Ht a _ Hac)) as Hnn.
unfold weight. rewrite Hva, Hts, Hgr. destruct (Account.total_balance _ _ _) as [b|] eqn:E; [|lia].
unfold Account.total_balance in E. res_inv. destruct Hok as (_ & _ & (_ & _ & _ & Hbps) & [Hn _] & _).
apply account_update_inv in E0 as (-> & _ & _ & Hb & _); [|apply HP].
apply owned_total_inv in E as [-> ?]; [lia | done | by split].
Qed.

Lemma weights_le_total t sg now c s : reachable now c -> now <= t -> snd sg = global_state (tree c) ->
snapshot_of t sg = Ok s ->
(forall a, 0 <= weight s (view (tree c)) a) /\
map_sum (fun a _ => weight s (view (tree c)) a) (view (tree c)) <= ss_total_venear s.
Proof.
intros Hr Hle Hg Hs. destruct (snapshot_total _ _ _ _ _ Hr Hg Hs) as (_ & Hts & Hgr & ->). split.
- intros a. destruct (view (tree c) !! a) as [va|] eqn:E; [by eapply weight_owned|]. unfold weight. by rewrite E.
- pose proof Hr as [HI _]%reachable_inv. pose proof (inv_pre c HI) as HP.
assert (aligned (truncate_to_seconds t)) as Ht by apply truncate_to_seconds_aligned.
rewrite <- (owned_sum_total (snap (truncate_to_seconds t) c)); [|by apply HI|by apply HP|].
+ unfold snap, ledger_at, accts. rewrite !map_sum_fmap. apply map_sum_le. intros a va Hva. by eapply weight_owned.
+ intros a x Ha. eapply Forall_impl; [exact (snap_delegates _ _ _ _ HP Ha)|].
cbn. intros d [? ?]. split; [done|]. by apply snap_is_Some.
Qed.

(** ** veNEAR and voting side by side

[sys now c B l v A]: the veNEAR contract is in state [c] and the voting
contract in state [v] after accepting the ballots [B], with the
executions [l] in flight. [A] are the snapshots veNEAR has returned; the
callback [on_get_snapshot] is called with one of them: the voting contract asks
this veNEAR contract throughout, and executed proposals call neither
[on_get_snapshot] nor [on_execute_proposal] of the voting contract itself. *)
Inductive sys : Z -> Contract -> list (ProposalId * (MerkleProof * VAccount)) -> list ProposalId -> Voting ->
list (MerkleTreeSnapshot * VGlobalState) -> Prop :=
| sys_init now now0 c k : reachable now0 c -> now0 <= now -> k_ok k -> sys now c [] [] (new_voting k) []
| sys_venear now c B l v A x e c' es : sys now c B l v A -> env_ok e -> now <= block_timestamp e -> call_ok x ->
run x e c = Ok (tt, c', es) -> sys (block_timestamp e) c' B l v A
| sys_answer now c B l v A e sg c' es : sys now c B l v A -> now <= block_timestamp e ->
get_snapshot_view e c = Ok (sg, c', es) -> sys (block_timestamp e) c B l v (sg :: A)
| sys_voting now c B l v A x e v' es : sys now c B l v A -> now <= block_timestamp e -> vcall_ok x -> callback_ok x l ->
(forall sg pid, x = OnGetSnapshot sg pid -> sg ∈ A) ->
vrun x e v = Ok (tt, v', es) -> sys (block_timestamp e) c (ballots_after x B) (inflight_after x l) v' A.

Record SInv (now : Z) (c : Contract) (B : list (ProposalId * (MerkleProof * VAccount))) (l : list ProposalId) (v : Voting)
(A : list (MerkleTreeSnapshot * VGlobalState)) : Prop := mkSInv {
si_venear : exists now0, reachable now0 c /\ now0 <= now;
si_voting : vhistory B l v;
si_answers : forall sg, sg ∈ A -> genuine now sg;
si_snapshots : forall pid p s, stored v pid = Some p -> snapshot_and_state p = Some s ->
exists sg t, genuine t sg /\ t <= now /\ snapshot_of t sg = Ok s
}.

Lemma touch_snap e x pid s : touch e x pid = Snap s ->
exists sg, x = OnGetSnapshot sg pid /\ snapshot_of (block_timestamp e) sg = Ok s.
Proof.
destruct x; cbn; unfold only; try (case_decide; done); try done.
destruct (snapshot_of _ _) eqn:E; [|done]. case_decide; [|done]. intros [= <-]. subst. eauto.
Qed.

Lemma sys_inv now c B l v A : sys now c B l v A -> SInv now c B l v A.
Proof.
induction 1 as [now now0 c k Hr Hle Hk | now c B l v A x e c' es _ [S1 S2 S3 S4] He Hnow Hx Hr
| now c B l v A e sg c' es _ [S1 S2 S3 S4] Hnow H | now c B l v A x e v' es _ [S1 S2 S3 S4] Hnow Hx Hcb Hsn Hr].
- split; [eauto | by constructor | by intros sg ?%elem_of_nil |]. intros pid p s Hp.
unfold stored, vec_get in Hp. cbn in Hp. destruct (0 <=? pid); by rewrite ?lookup_nil in Hp.
- destruct S1 as (n0 & Hr0 & Hn0). split; [| done | |].
+ exists (block_timestamp e). split; [|lia]. eapply (reach_call n0); eauto. lia.
+ intros sg Hsg. eapply genuine_later; [exact Hnow | by apply S3].
+ intros pid p s Hp Hs. destruct (S4 _ _ _ Hp Hs) as (sg & t & ? & ? & ?). exists sg, t. split_and!; [done | lia | done].
- destruct S1 as (n0 & Hr0 & Hn0). split; [exists n0; split; [done | lia] | done | |].
+ intros sg' [->|Hin]%elem_of_cons.
* eapply genuine_later; [|by eapply snapshot_genuine]. lia.
* eapply genuine_later; [exact Hnow | by apply S3].
+ intros pid p s Hp Hs. destruct (S4 _ _ _ Hp Hs) as (sg' & t & ? & ? & ?). exists sg', t. split_and!; [done | lia | done].
- destruct S1 as (n0 & Hr0 & Hn0). split; [exists n0; split; [done | lia] | by eapply vhist_call | |].
+ intros sg Hsg. eapply genuine_later; [exact Hnow | by apply S3].
+ intros pid p' s Hp' Hs. pose proof (vreachable_inv _ _ (vhistory_reachable _ _ _ S2)) as HR.
destruct (vrun_origin _ _ _ _ _ _ _ _ HR Hx Hcb Hr Hp') as [(p & Hp & He)|(_ & md & acts & fl & -> & _ & Hnew)].
* destruct (ev_snap _ _ He) as [Heq|[Hnone [Hany|(s' & Hk & Hs')]]].
-- rewrite Heq in Hs. destruct (S4 _ _ _ Hp Hs) as (sg & t & ? & ? & ?). exists sg, t. split_and!; [done | lia | done].
-- destruct (quiet_call x) eqn:Eq; [by destruct (touch_votes e x pid Eq)|].
destruct x; try discriminate. cbn in Hany. unfold only in Hany. by destruct (decide _).
-- apply touch_snap in Hk as (sg & -> & Hsg). replace s' with s in * by congruence.
exists sg, (block_timestamp e). split_and!; [|lia|done]. eapply genuine_later; [exact Hnow|].
apply S3. by eapply Hsn.
* apply new_proposal_ok in Hnew as (_ & _ & _ & _ & _ & _ & Hn & _); [|apply HR]. congruence.
Qed.
End system.

(** ** Properties of the system *)
Section theorems.
Context {VH : VenearHost} `{IS : IterableSet} `{VT : !VotingHost} `{!IterableSetLaws IS}
`{!CryptoLaws vh_crypto} `{!BorshLaws VAccount vh_borsh}.

(** C1. The votes counted on a proposal never exceed the veNEAR in existence.
However the two contracts run, the snapshot of a proposal is of a state
[c0] the veNEAR contract was in between two calls; unless a submitted
ballot carries a SHA-256 collision with the account tree of [c0], every
recorded voter is counted with exactly its balance in [c0] grown to the
time of the snapshot, the recorded total is the supply of [c0] at that
time, and the power counted for all options together is at most that. *)
Theorem votes_within_supply now c B l v A pid p s :
sys now c B l v A -> stored v pid = Some p -> snapshot_and_state p = Some s ->
exists now0 c0, reachable now0 c0 /\ now0 <= timestamp_ns s <= now /\
snap_root (snapshot s) = root (tree c0) /\
ss_total_venear s = bsum (total_at (truncate_to_seconds (timestamp_ns s)) c0) /\
((tallies total_venear (weight s (view (tree c0))) pid p (vote_records v) /\
total_venear (total_votes p) <= ss_total_venear s) \/
cheated (forged (tree c0)) pid B).
Proof.
intros H%sys_inv Hp Hs. destruct (si_snapshots _ _ _ _ _ _ H _ _ _ Hp Hs) as (sg & t & (n0 & c0 & Hr & Hn & Hroot & Hlen & Hg) & Ht & Hsn).
destruct (snapshot_total _ _ _ _ _ Hr Hg Hsn) as (Hsnap & Hts & _ & Htot).
exists n0, c0. rewrite Hts, Hsnap. split_and!; [done.. | |].
{ by rewrite Htot. }
pose proof (vhistory_tally _ _ _ (si_voting _ _ _ _ _ _ H)) as HT.
pose proof (to_power _ _ _ _ (ti_tally _ _ HT _ _ Hp)) as Hw. rewrite Hs in Hw.
destruct (Hw (forged (tree c0)) (view (tree c0))) as [Htl|]; [|left|by right].
{ rewrite Hsnap. by eapply genuine_opens. }
split; [done|]. destruct Htl as [_ ->]. destruct (weights_le_total _ _ _ _ _ Hr Hn Hg Hsn) as [Hnn Hle].
etrans; [|exact Hle]. apply tally_sum_le; [done|]. intros a u _ Hnz.
unfold weight in Hnz. destruct (view (tree c0) !! a); [eauto | done].
Qed.
End theorems.
