(* ===== verification/CliText.v ===== *)
(** * The staking CLI: text and JSON

    What the CLI uses of Rust's [str] and of [serde_json::Value]. A string is
    the list of the bytes of its UTF-8 text. An object of [serde_json] with
    [preserve_order] is an association list with distinct keys, compared
    without regard to the order; a number is the text it is displayed as. *)
From stdpp Require Import base strings list pretty sorting.
From Stdlib Require Import ZArith Lia Ascii.
From S2P Require Import Prelude.

Local Open Scope string_scope.

Module Text.
(** ** [str] *)
Definition bytes (l : list nat) : string := foldr (fun n s => String (ascii_of_nat n) s) "" l.

(** The characters [char::is_whitespace] accepts. *)
Definition whitespace : list string :=
map bytes ([[9]; [10]; [11]; [12]; [13]; [32]; [194; 133]; [194; 160]; [225; 154; 128]] ++
map (fun n => [226; 128; n]) (seq 128 11 ++ [168; 169; 175]) ++ [[226; 129; 159]; [227; 128; 128]])%nat%list.

(** [s] without the prefix [p]. *)
Fixpoint strip_prefix (p s : string) : option string :=
match p, s with
| "", _ => Some s
| String a p', String b s' => if Ascii.eqb a b then strip_prefix p' s' else None
| String _ _, "" => None
end.

(** The first of the prefixes [s] starts with is taken away. *)
Fixpoint strip_any (ps : list string) (s : string) : option string :=
match ps with
| [] => None
| p :: ps' => match strip_prefix p s with Some s' => Some s' | None => strip_any ps' s end
end.

Fixpoint trim_with (fuel : nat) (ps : list string) (s : string) : string :=
match fuel with
| O => s
| S fuel' => match strip_any ps s with Some s' => trim_with fuel' ps s' | None => s end
end.

(** [trim]: every round takes at least one byte away. *)
Definition trim_start (s : string) : string := trim_with (String.length s) whitespace s.
Definition trim_end (s : string) : string :=
String.rev (trim_with (String.length s) (map String.rev whitespace) (String.rev s)).
Definition trim (s : string) : string := trim_end (trim_start s).

Definition starts_with (p s : string) : bool := String.prefix p s.

(** [contains]. *)
Fixpoint contains (p s : string) : bool :=
starts_with p s || match s with "" => false | String _ s' => contains p s' end.

Definition is_ascii_upper (a : ascii) : bool := (65 <=? nat_of_ascii a)%nat && (nat_of_ascii a <=? 90)%nat.
Fixpoint to_ascii_lowercase (s : string) : string :=
match s with
| "" => ""
| String a s' => String (if is_ascii_upper a then ascii_of_nat (nat_of_ascii a + 32) else a) (to_ascii_lowercase s')
end.

Definition is_ascii_alphanumeric (a : ascii) : bool :=
let n := nat_of_ascii a in
((48 <=? n) && (n <=? 57) || (65 <=? n) && (n <=? 90) || (97 <=? n) && (n <=? 122))%nat.

Fixpoint chars_all (f : ascii -> bool) (s : string) : bool :=
match s with "" => true | String a s' => f a && chars_all f s' end.
Fixpoint char_in (a : ascii) (s : string) : bool :=
match s with "" => false | String b s' => Ascii.eqb a b || char_in a s' end.

(** [replace] of one character. *)
Fixpoint replace_char (a : ascii) (by_ s : string) : string :=
match s with
| "" => ""
| String b s' => if Ascii.eqb a b then by_ +:+ replace_char a by_ s' else String b (replace_char a by_ s')
end.

Fixpoint join (sep : string) (l : list string) : string :=
match l with [] => "" | [x] => x | x :: l' => x +:+ sep +:+ join sep l' end.

(** [sort_unstable] then [dedup] on strings, which are ordered by their bytes. *)
Definition string_le (x y : string) : Prop := String.leb x y = true.
#[global] Instance string_le_dec x y : Decision (string_le x y).
Proof. unfold string_le. apply _. Defined.
#[global] Typeclasses Opaque string_le.
Fixpoint dedup (l : list string) : list string :=
match l with
| [] => []
| x :: l' => match l' with
     | y :: _ => if String.eqb x y then dedup l' else x :: dedup l'
     | [] => [x]
     end
end.
Definition sorted_distinct (l : list string) : list string := dedup (merge_sort string_le l).
End Text.

(** ** [serde_json::Value] *)
Module Json.
Inductive Value : Type :=
| Null
| Bool (b : bool)
| Number (raw : string)
| Str (s : string)
| Array (l : list Value)
| Object (m : list (string * Value)).

(** [Map::get] and [Map::insert]: a new key goes to the end. *)
Fixpoint map_get {A} (k : string) (m : list (string * A)) : option A :=
match m with [] => None | (k', v) :: m' => if String.eqb k k' then Some v else map_get k m' end.
Fixpoint map_insert {A} (k : string) (v : A) (m : list (string * A)) : list (string * A) :=
match m with
| [] => [(k, v)]
| (k', v') :: m' => if String.eqb k k' then (k, v) :: m' else (k', v') :: map_insert k v m'
end.

Definition get (v : Value) (field : string) : option Value :=
match v with Object m => map_get field m | _ => None end.
Definition as_str (v : Value) : option string := match v with Str s => Some s | _ => None end.
Definition as_array (v : Value) : option (list Value) := match v with Array l => Some l | _ => None end.
Definition is_null (v : Value) : bool := match v with Null => true | _ => false end.

(** [stored.get(field).and_then(Value::as_str)]. *)
Definition str_field (v : Value) (field : string) : option string := f ← get v field; as_str f.

(** [PartialEq]: objects are equal as maps. *)
Fixpoint value_eqb (x y : Value) : bool :=
match x, y with
| Null, Null => true
| Bool a, Bool b => Bool.eqb a b
| Number a, Number b | Str a, Str b => String.eqb a b
| Array l, Array r =>
(fix go l r := match l, r with
           | [], [] => true
           | a :: l', b :: r' => value_eqb a b && go l' r'
           | _, _ => false
           end) l r
| Object l, Object r =>
(length l =? length r)%nat &&
(fix go l := match l with
         | [] => true
         | (k, a) :: l' => match map_get k r with Some b => value_eqb a b | None => false end && go l'
         end) l
| _, _ => false
end.

Definition option_eqb (x y : option Value) : bool :=
match x, y with None, None => true | Some a, Some b => value_eqb a b | _, _ => false end.
End Json.
