(* ===== verification/StakingTypes.v ===== *)
(** * Data of the staking contract (staking-contract/src)

    [types.rs], [config.rs], [gas.rs] and [events.rs]: the catalog, locks,
    subscriptions, farm positions and the books of a validator pool, with the
    arithmetic of its buckets. Every struct is a module with its record [t].
    The versioned wrappers ([VValidator], ...) have one variant and are left
    out. *)
From stdpp Require Import base gmap strings list.
From Stdlib Require Import ZArith Lia.
From S2P Require Import Prelude.
From S2P Require Import Near.

Local Open Scope Z_scope.

(** Ids are strings; a validator is named by the account of its pool. *)
Abbreviation ProductId := string (only parsing).
Abbreviation PriceId := string (only parsing).
Abbreviation SubscriptionId := string (only parsing).
Abbreviation LockId := string (only parsing).
Abbreviation PurchaseId := string (only parsing).
Abbreviation ValidatorId := string (only parsing).

(** ** types.rs: enumerations *)
Module PriceType.
Inductive t : Type := OneOff | Recurring | Farm.
#[global] Instance eq_dec : EqDecision t.
Proof. solve_decision. Defined.
End PriceType.

Module BillingPeriod.
Inductive t : Type := Monthly.
#[global] Instance eq_dec : EqDecision t.
Proof. solve_decision. Defined.
End BillingPeriod.

Module CatalogStatus.
Inductive t : Type := Active | Archived.
#[global] Instance eq_dec : EqDecision t.
Proof. solve_decision. Defined.
End CatalogStatus.

Module SubscriptionStatus.
Inductive t : Type := Active | Cancelled | Expired.
#[global] Instance eq_dec : EqDecision t.
Proof. solve_decision. Defined.
End SubscriptionStatus.

Module ValidatorStatus.
Inductive t : Type := Active | Paused | Removed.
#[global] Instance eq_dec : EqDecision t.
Proof. solve_decision. Defined.
End ValidatorStatus.

Module TransactionStatus.
Inductive t : Type := Idle | Busy.
#[global] Instance eq_dec : EqDecision t.
Proof. solve_decision. Defined.
End TransactionStatus.

Module LockStatus.
Inductive t : Type := Active | UnlockRequested | Withdrawn.
#[global] Instance eq_dec : EqDecision t.
Proof. solve_decision. Defined.
End LockStatus.

Module FarmStatus.
Inductive t : Type := Active | Closed.
#[global] Instance eq_dec : EqDecision t.
Proof. solve_decision. Defined.
End FarmStatus.

(** ** config.rs *)

Module Config.
Record t : Type := mk {
owner_account_id : AccountId;
proposed_new_owner_account_id : option AccountId;
guardians : list AccountId;
min_lock_duration_ns : Z;
max_lock_duration_ns : Z;
epoch_unstake_settle_epochs : Z;
min_storage_deposit : NearToken;
per_lock_storage_stake : NearToken;
per_farm_position_storage_stake : NearToken;
per_purchase_storage_stake : NearToken;
min_lock_amount : NearToken
}.
#[global] Instance eta : Eta t := fun x =>
mk (owner_account_id x) (proposed_new_owner_account_id x) (guardians x) (min_lock_duration_ns x)
(max_lock_duration_ns x) (epoch_unstake_settle_epochs x) (min_storage_deposit x) (per_lock_storage_stake
x) (per_farm_position_storage_stake x) (per_purchase_storage_stake x) (min_lock_amount x).
#[global] Instance set_owner_account_id : Setter owner_account_id := ltac:(derive_setter).
#[global] Instance set_proposed_new_owner_account_id : Setter proposed_new_owner_account_id := ltac:(derive_setter).
#[global] Instance set_guardians : Setter guardians := ltac:(derive_setter).
#[global] Instance set_min_lock_duration_ns : Setter min_lock_duration_ns := ltac:(derive_setter).
#[global] Instance set_max_lock_duration_ns : Setter max_lock_duration_ns := ltac:(derive_setter).
#[global] Instance set_epoch_unstake_settle_epochs : Setter epoch_unstake_settle_epochs := ltac:(derive_setter).
#[global] Instance set_min_storage_deposit : Setter min_storage_deposit := ltac:(derive_setter).
#[global] Instance set_per_lock_storage_stake : Setter per_lock_storage_stake := ltac:(derive_setter).
#[global] Instance set_per_farm_position_storage_stake : Setter per_farm_position_storage_stake := ltac:(derive_setter).
#[global] Instance set_per_purchase_storage_stake : Setter per_purchase_storage_stake := ltac:(derive_setter).
#[global] Instance set_min_lock_amount : Setter min_lock_amount := ltac:(derive_setter).
End Config.

Definition PROTOCOL_MIN_LOCK_AMOUNT_YOCTO : Z := 1_000_000_000_000_000_000_000_000.

Definition require_min_lock_amount_at_protocol_floor (min_lock_amount : NearToken) : result unit :=
  require (PROTOCOL_MIN_LOCK_AMOUNT_YOCTO <=? min_lock_amount)
    "min_lock_amount must be at least 1 NEAR (stake pool delegation minimum)".

(** ** types.rs: the pool's answer to [get_account] *)
Module PoolAccountView.
Record t : Type := mk { unstaked_balance : Z; staked_balance : Z; can_withdraw : bool }.
Definition unstaked (p : t) : NearToken := unstaked_balance p.
Definition total_balance (p : t) : NearToken :=
saturating_add U128_MAX (unstaked_balance p) (staked_balance p).
End PoolAccountView.

(** ** types.rs: validators *)

Module Validator.
Record t : Type := mk {
validator_id : ValidatorId;
catalog_manager_account_ids : list AccountId;
status : ValidatorStatus.t;
total_shares : Z;
total_staked_balance : NearToken;
last_balance_refresh_ns : Z;
pending_to_stake : NearToken;
pending_to_unstake : NearToken;
last_unstake_epoch : Z;
last_settlement_epoch : Z;
pending_to_withdraw : NearToken;
pending_to_claim : NearToken;
tx_status : TransactionStatus.t
}.
#[global] Instance eta : Eta t := fun x =>
mk (validator_id x) (catalog_manager_account_ids x) (status x) (total_shares x) (total_staked_balance x)
(last_balance_refresh_ns x) (pending_to_stake x) (pending_to_unstake x) (last_unstake_epoch x)
(last_settlement_epoch x) (pending_to_withdraw x) (pending_to_claim x) (tx_status x).
#[global] Instance set_catalog_manager_account_ids : Setter catalog_manager_account_ids := ltac:(derive_setter).
#[global] Instance set_status : Setter status := ltac:(derive_setter).
#[global] Instance set_total_shares : Setter total_shares := ltac:(derive_setter).
#[global] Instance set_total_staked_balance : Setter total_staked_balance := ltac:(derive_setter).
#[global] Instance set_last_balance_refresh_ns : Setter last_balance_refresh_ns := ltac:(derive_setter).
#[global] Instance set_pending_to_stake : Setter pending_to_stake := ltac:(derive_setter).
#[global] Instance set_pending_to_unstake : Setter pending_to_unstake := ltac:(derive_setter).
#[global] Instance set_last_unstake_epoch : Setter last_unstake_epoch := ltac:(derive_setter).
#[global] Instance set_last_settlement_epoch : Setter last_settlement_epoch := ltac:(derive_setter).
#[global] Instance set_pending_to_withdraw : Setter pending_to_withdraw := ltac:(derive_setter).
#[global] Instance set_pending_to_claim : Setter pending_to_claim := ltac:(derive_setter).
#[global] Instance set_tx_status : Setter tx_status := ltac:(derive_setter).

Definition pending_user_liability_yocto (v : t) : Z :=
saturating_add U128_MAX (saturating_add U128_MAX (pending_to_unstake v) (pending_to_withdraw v)) (pending_to_claim v).

Definition pending_not_in_contract_yocto (v : t) : Z :=
saturating_add U128_MAX (pending_to_unstake v) (pending_to_withdraw v).

Definition gross_stake_yocto (v : t) : Z :=
saturating_add U128_MAX (total_staked_balance v) (pending_to_stake v).

(** NEAR backing the circulating shares. *)
Definition net_stake_yocto (v : t) : Z :=
saturating_sub (gross_stake_yocto v) (pending_not_in_contract_yocto v).
End Validator.

Module PendingUnstakeTranche.
Record t : Type := mk {
amount : NearToken;
available_epoch_height : Z
}.
End PendingUnstakeTranche.

Module PendingUnstakeTrancheView.
Record t : Type := mk {
amount_yocto : Z;
available_epoch_height : Z;
is_epoch_eligible : bool
}.
End PendingUnstakeTrancheView.

Module AccountPendingUnstakeView.
Record t : Type := mk {
account_id : AccountId;
validator_id : ValidatorId;
current_epoch_height : Z;
epoch_unstake_settle_epochs : Z;
total_pending_yocto : Z;
epoch_eligible_yocto : Z;
withdrawable_yocto : Z;
next_available_epoch_height : option Z;
wait_epochs : option Z;
pending_to_claim_yocto : Z;
can_withdraw_now : bool;
tranches : list PendingUnstakeTrancheView.t
}.
End AccountPendingUnstakeView.

(** ** types.rs: accounts and the catalog *)
Module Account.
Record t : Type := mk {
storage_deposit : NearToken
}.
Definition default : t := mk 0.
End Account.

Module AccountView.
Record t : Type := mk {
account_id : AccountId;
storage_deposit : NearToken
}.
End AccountView.

(** near_contract_standards: the answers of NEP-145. *)
Module StorageBalance.
Record t : Type := mk {
total : NearToken;
available : NearToken
}.
End StorageBalance.

Module StorageBalanceBounds.
Record t : Type := mk {
min : NearToken;
max : option NearToken
}.
End StorageBalanceBounds.

Inductive OrderRef : Type :=
| ProductPurchase (product_id : ProductId) (price_id : PriceId)
| SubscriptionOrder (subscription_id : SubscriptionId) (price_id : PriceId) (period_start_ns period_end_ns : Z).

Module Product.
Record t : Type := mk {
product_id : ProductId;
validator_id : ValidatorId;
name : string;
description : string;
status : CatalogStatus.t;
created_ns : Z;
price_ids : list PriceId;
default_price_id : option PriceId;
usage_count : Z
}.
#[global] Instance eta : Eta t := fun x =>
mk (product_id x) (validator_id x) (name x) (description x) (status x) (created_ns x) (price_ids x)
(default_price_id x) (usage_count x).
#[global] Instance set_name : Setter name := ltac:(derive_setter).
#[global] Instance set_description : Setter description := ltac:(derive_setter).
#[global] Instance set_status : Setter status := ltac:(derive_setter).
#[global] Instance set_price_ids : Setter price_ids := ltac:(derive_setter).
#[global] Instance set_default_price_id : Setter default_price_id := ltac:(derive_setter).
#[global] Instance set_usage_count : Setter usage_count := ltac:(derive_setter).
End Product.

Module PriceMetadata.
Record t : Type := mk {
max_amount : option Z;
farm_reward_rate : option Z
}.
End PriceMetadata.

Module Price.
Record t : Type := mk {
price_id : PriceId;
product_id : ProductId;
name : string;
description : string;
amount : Z;
price_type : PriceType.t;
billing_period : option BillingPeriod.t;
lock_factor_near_months : Z;
metadata : option PriceMetadata.t;
status : CatalogStatus.t;
usage_count : Z
}.
#[global] Instance eta : Eta t := fun x =>
mk (price_id x) (product_id x) (name x) (description x) (amount x) (price_type x) (billing_period x)
(lock_factor_near_months x) (metadata x) (status x) (usage_count x).
#[global] Instance set_name : Setter name := ltac:(derive_setter).
#[global] Instance set_description : Setter description := ltac:(derive_setter).
#[global] Instance set_metadata : Setter metadata := ltac:(derive_setter).
#[global] Instance set_status : Setter status := ltac:(derive_setter).
#[global] Instance set_usage_count : Setter usage_count := ltac:(derive_setter).
End Price.

(** ** types.rs: subscriptions, locks, purchases *)
Module PendingSubscriptionUpdate.
Record t : Type := mk {
target_price_id : option PriceId;
target_amount : option NearToken;
apply_ns : Z
}.
End PendingSubscriptionUpdate.

Module Subscription.
Record t : Type := mk {
subscription_id : SubscriptionId;
account_id : AccountId;
product_id : ProductId;
price_id : PriceId;
start_ns : Z;
end_ns : Z;
anchor_day : Z;
last_lock_id : LockId;
status : SubscriptionStatus.t;
cancel_at_period_end : bool;
pending_update : option PendingSubscriptionUpdate.t
}.
#[global] Instance eta : Eta t := fun x =>
mk (subscription_id x) (account_id x) (product_id x) (price_id x) (start_ns x) (end_ns x) (anchor_day x)
(last_lock_id x) (status x) (cancel_at_period_end x) (pending_update x).
#[global] Instance set_product_id : Setter product_id := ltac:(derive_setter).
#[global] Instance set_price_id : Setter price_id := ltac:(derive_setter).
#[global] Instance set_start_ns : Setter start_ns := ltac:(derive_setter).
#[global] Instance set_end_ns : Setter end_ns := ltac:(derive_setter).
#[global] Instance set_last_lock_id : Setter last_lock_id := ltac:(derive_setter).
#[global] Instance set_status : Setter status := ltac:(derive_setter).
#[global] Instance set_cancel_at_period_end : Setter cancel_at_period_end := ltac:(derive_setter).
#[global] Instance set_pending_update : Setter pending_update := ltac:(derive_setter).
End Subscription.

Module SubscriptionPlanChangeOutcome.
Record t : Type := mk {
kind : string;
subscription_id : SubscriptionId;
target_price_id : PriceId;
target_amount : Z;
lock_id : option LockId;
immediate_plan_change : bool;
immediate_stake_increase : option Z;
pending_plan_change : bool;
pending_stake_decrease : option Z;
pending_apply_ns : option Z
}.
End SubscriptionPlanChangeOutcome.

Module Lock.
Record t : Type := mk {
lock_id : LockId;
account_id : AccountId;
validator_id : ValidatorId;
amount_near : NearToken;
shares : Z;
start_ns : Z;
end_ns : Z;
order : OrderRef;
status : LockStatus.t
}.
#[global] Instance eta : Eta t := fun x =>
mk (lock_id x) (account_id x) (validator_id x) (amount_near x) (shares x) (start_ns x) (end_ns x) (order x)
(status x).
#[global] Instance set_amount_near : Setter amount_near := ltac:(derive_setter).
#[global] Instance set_shares : Setter shares := ltac:(derive_setter).
#[global] Instance set_start_ns : Setter start_ns := ltac:(derive_setter).
#[global] Instance set_end_ns : Setter end_ns := ltac:(derive_setter).
#[global] Instance set_order : Setter order := ltac:(derive_setter).
#[global] Instance set_status : Setter status := ltac:(derive_setter).
End Lock.

Module Purchase.
Record t : Type := mk {
purchase_id : PurchaseId;
account_id : AccountId;
product_id : ProductId;
price_id : PriceId;
quantity : Z;
amount_paid : NearToken;
created_ns : Z
}.
End Purchase.

(** ** types.rs: farms *)
Module FarmPool.
Record t : Type := mk {
price_id : PriceId;
product_id : ProductId;
reward_rate : Z;
total_farm_shares : Z;
acc_reward_per_share : Z;
last_reward_settle_ns : Z
}.
#[global] Instance eta : Eta t := fun x =>
mk (price_id x) (product_id x) (reward_rate x) (total_farm_shares x) (acc_reward_per_share x)
(last_reward_settle_ns x).
#[global] Instance set_reward_rate : Setter reward_rate := ltac:(derive_setter).
#[global] Instance set_total_farm_shares : Setter total_farm_shares := ltac:(derive_setter).
#[global] Instance set_acc_reward_per_share : Setter acc_reward_per_share := ltac:(derive_setter).
#[global] Instance set_last_reward_settle_ns : Setter last_reward_settle_ns := ltac:(derive_setter).
End FarmPool.

Module FarmPosition.
Record t : Type := mk {
account_id : AccountId;
product_id : ProductId;
price_id : PriceId;
validator_id : ValidatorId;
shares : Z;
reward_debt : Z;
accrued_reward_units : Z;
status : FarmStatus.t;
created_ns : Z;
updated_ns : Z
}.
#[global] Instance eta : Eta t := fun x =>
mk (account_id x) (product_id x) (price_id x) (validator_id x) (shares x) (reward_debt x)
(accrued_reward_units x) (status x) (created_ns x) (updated_ns x).
#[global] Instance set_price_id : Setter price_id := ltac:(derive_setter).
#[global] Instance set_validator_id : Setter validator_id := ltac:(derive_setter).
#[global] Instance set_shares : Setter shares := ltac:(derive_setter).
#[global] Instance set_reward_debt : Setter reward_debt := ltac:(derive_setter).
#[global] Instance set_accrued_reward_units : Setter accrued_reward_units := ltac:(derive_setter).
#[global] Instance set_status : Setter status := ltac:(derive_setter).
#[global] Instance set_created_ns : Setter created_ns := ltac:(derive_setter).
#[global] Instance set_updated_ns : Setter updated_ns := ltac:(derive_setter).
End FarmPosition.

Module FarmPositionView.
Record t : Type := mk {
account_id : AccountId;
product_id : ProductId;
price_id : PriceId;
validator_id : ValidatorId;
shares : Z;
staked_near_amount : Z;
reward_debt : Z;
accrued_reward_units : Z;
pending_reward_units : Z;
total_earned_reward_units : Z;
status : FarmStatus.t;
created_ns : Z;
updated_ns : Z
}.
End FarmPositionView.

Module FarmAccount.
Record t : Type := mk {
account_id : AccountId;
accumulated_reward_units : Z;
active_position_count : Z;
last_update_ns : Z
}.
#[global] Instance eta : Eta t := fun x =>
mk (account_id x) (accumulated_reward_units x) (active_position_count x) (last_update_ns x).
#[global] Instance set_accumulated_reward_units : Setter accumulated_reward_units := ltac:(derive_setter).
#[global] Instance set_active_position_count : Setter active_position_count := ltac:(derive_setter).
#[global] Instance set_last_update_ns : Setter last_update_ns := ltac:(derive_setter).
End FarmAccount.

Module FarmAccountView.
Record t : Type := mk {
account_id : AccountId;
accumulated_reward_units : Z;
pending_reward_units : Z;
total_earned_reward_units : Z;
active_positions : list FarmPositionView.t
}.
End FarmAccountView.

(** ** types.rs: what a user action does once the pool is settled *)
Module UserAction.
Inductive t : Type :=
| CommitLock (validator_id : ValidatorId) (buyer : AccountId) (locked : NearToken) (duration_ns : Z) (order : OrderRef)
| CommitRecurringSubscriptionLock (validator_id : ValidatorId) (buyer : AccountId) (locked : NearToken) (price_id : PriceId)
| UnlockQueueUnstake (validator_id : ValidatorId) (lock_id : LockId) (account_id : AccountId) (shares_remove : Z)
| WithdrawUserTransfer (validator_id : ValidatorId) (account_id : AccountId)
| SettleOnly (validator_id : ValidatorId)
| SubscriptionUpdate (validator_id : ValidatorId) (buyer : AccountId) (deposit : NearToken)
(target_price_id : PriceId) (target_amount : Z) (subscription_id : SubscriptionId)
| CommitFarmStake (validator_id : ValidatorId) (account_id : AccountId) (deposit : NearToken)
(product_id : ProductId) (price_id : PriceId)
| FarmUnstakeQueue (validator_id : ValidatorId) (account_id : AccountId) (product_id : ProductId) (amount : option Z).

Definition validator_id (a : t) : ValidatorId :=
match a with
| CommitLock v _ _ _ _ | CommitRecurringSubscriptionLock v _ _ _ | UnlockQueueUnstake v _ _ _
| WithdrawUserTransfer v _ | SettleOnly v | SubscriptionUpdate v _ _ _ _ _
| CommitFarmStake v _ _ _ _ | FarmUnstakeQueue v _ _ _ => v
end.

Definition payable_refund (a : t) : option (AccountId * NearToken) :=
match a with
| CommitLock _ buyer locked _ _ => Some (buyer, locked)
| CommitRecurringSubscriptionLock _ buyer locked _ => Some (buyer, locked)
| SubscriptionUpdate _ buyer deposit _ _ _ => Some (buyer, deposit)
| CommitFarmStake _ account deposit _ _ => Some (account, deposit)
| _ => None
end.
End UserAction.

(** ** events.rs: one constructor per emitter *)
Inductive StakeEvent : Type :=
| log_validator_added (v : ValidatorId)
| log_validator_catalog_manager_add (v : ValidatorId) (manager : AccountId)
| log_validator_catalog_manager_remove (v : ValidatorId) (manager : AccountId)
| log_product_created (product : ProductId) (v : ValidatorId)
| log_subscription_cancel (account : AccountId) (sub : SubscriptionId) (product : ProductId) (price : PriceId)
| log_subscription_resume (account : AccountId) (sub : SubscriptionId) (product : ProductId) (price : PriceId)
| log_subscription_update (account : AccountId) (sub : SubscriptionId) (product : ProductId) (price : PriceId)
    (target_amount : Z) (update_kind : string)
| log_subscription_downgrade_prorate (account : AccountId) (sub : SubscriptionId) (product : ProductId)
    (price : PriceId) (lock : LockId) (near_yocto : Z)
| log_lock (lock : LockId) (account : AccountId)
| log_payment_create (purchase : PurchaseId) (account : AccountId) (product : ProductId) (price : PriceId)
    (quantity amount_paid : Z)
| log_revenue_withdraw (v : ValidatorId) (account : AccountId) (amount : Z)
| log_unlock (lock : LockId) (account : AccountId) (v : ValidatorId)
| log_withdraw (account : AccountId) (v : ValidatorId) (amount_yocto : Z)
| log_epoch_operation (epoch_action : string) (v : ValidatorId)
| log_validator_withdraw_in (amount_yocto : Z) (v : ValidatorId)
| log_farm_stake (account : AccountId) (product : ProductId) (price : PriceId) (v : ValidatorId) (amount_yocto shares : Z)
| log_farm_unstake (account : AccountId) (product : ProductId) (price : PriceId) (v : ValidatorId)
    (amount_yocto shares_removed remaining_shares : Z)
| log_farm_reward_rate_update (price : PriceId) (reward_rate : Z).

(** ** gas.rs *)
Module Gas.
Definition BASE_GAS : Z := 10_000_000_000_000.
Definition EPOCH_SETTLEMENT_MIN_GAS : Z := BASE_GAS * 30.
Definition DEPOSIT_AND_STAKE : Z := BASE_GAS * 3.
Definition UNSTAKE : Z := BASE_GAS * 3.
Definition WITHDRAW : Z := BASE_GAS * 3.
Definition GET_ACCOUNT : Z := BASE_GAS.
Definition GET_OWNER_ID : Z := BASE_GAS.
Definition ON_DEPOSIT_AND_STAKE : Z := BASE_GAS.
Definition ON_UNSTAKE : Z := BASE_GAS.
Definition ON_GET_UNSTAKED_FOR_WITHDRAW : Z := BASE_GAS * 19.
Definition ON_WITHDRAW_TRANSFER : Z := BASE_GAS * 2.
Definition ON_VALIDATOR_OWNER_CHECK : Z := BASE_GAS * 2.
Definition ON_EPOCH_SETTLEMENT_DISPATCH : Z := BASE_GAS * 12.
Definition ON_EPOCH_SETTLEMENT_AFTER_POOL_ACCOUNT : Z := BASE_GAS * 26.
Definition ON_LOCK_FINALLY_MINT : Z := BASE_GAS * 8.
Definition ON_UNLOCK_TAIL_AFTER_PRE_USER : Z := BASE_GAS * 8.
Definition ON_WITHDRAW_TAIL_AFTER_PRE_USER : Z := BASE_GAS * 8.
Definition ON_SUBSCRIPTION_UPDATE_AFTER_SETTLE : Z := BASE_GAS * 8.
Definition ON_FARM_STAKE_AFTER_SETTLE : Z := BASE_GAS * 8.
Definition ON_FARM_UNSTAKE_AFTER_SETTLE : Z := BASE_GAS * 8.
Definition ON_EPOCH_PIPELINE_TERMINAL_RELEASE : Z := BASE_GAS.
Definition ON_EPOCH_PIPELINE_RELEASE_WITH_LOCK_ID : Z := BASE_GAS * 2.
Definition ON_EPOCH_PIPELINE_RELEASE_WITH_SUBSCRIPTION_UPDATE_OUTCOME : Z := BASE_GAS * 2.
Definition ON_EPOCH_PIPELINE_RELEASE_WITH_FARM_POSITION : Z := BASE_GAS * 2.
End Gas.
