(* ===== verification/Events.v ===== *)
(** * The log lines

    The emitters of common/src/events.rs and of staking-contract/src/events.rs:
    what each puts into the JSON of its [EVENT_JSON:] line. A struct that
    derives [Serialize] is the object of its fields in their order; [U64],
    [U128] and [NearToken] are decimal strings, the plain integers are numbers,
    a [None] is [null]. [serde_json]'s text is the class [JsonText]. *)
From stdpp Require Import base gmap strings list pretty.
From Stdlib Require Import ZArith Lia Ascii.
From S2P Require Import Prelude.
From S2P Require Import Near.
From S2P Require Import Common.
From S2P Require Import CliText.
From S2P Require Import StakingTypes.
Import Json.

Local Open Scope string_scope.
Local Open Scope Z_scope.

(** ** [serde_json]: the text of a value and the value a text stands for *)
Class JsonText : Type := {
  to_string : Value -> string;
  from_str : string -> option Value
}.

(** The values whose text reads back: the numbers are [u64] integers, the
    strings are ASCII and the keys of an object are distinct. *)
Definition is_ascii (s : string) : bool := Text.chars_all (fun a => (nat_of_ascii a <? 128)%nat) s.

Definition is_u64 (raw : string) (n : Z) : bool := (0 <=? n) && (n <=? U64_MAX) && String.eqb raw (pretty n).

(** The number a run of decimal digits stands for. *)
Fixpoint decimal_from (acc : N) (s : string) : option N :=
match s with
| "" => Some acc
| String a s' =>
    let n := nat_of_ascii a in
    if ((48 <=? n) && (n <=? 57))%nat then decimal_from (acc * 10 + N.of_nat (n - 48))%N s' else None
end.
Definition decimal (s : string) : option Z := if String.eqb s "" then None else Z.of_N <$> decimal_from 0 s.

Fixpoint plain (v : Value) : bool :=
match v with
| Null | Bool _ => true
| Number raw => match decimal raw with Some n => is_u64 raw n | None => false end
| Str s => is_ascii s
| Array l => forallb plain l
| Object m =>
    bool_decide (NoDup (map fst m)) &&
    (fix go m := match m with [] => true | (k, x) :: m' => is_ascii k && plain x && go m' end) m
end.

(** Documented of [serde_json]: [from_str] reads what [to_string] writes. *)
Class JsonTextLaws (J : JsonText) : Prop :=
  from_str_to_string : forall v, plain v = true -> from_str (to_string v) = Some v.

(** [Serialize] of the field types. *)
Definition int (n : Z) : Value := Number (pretty n).
Definition dec (n : Z) : Value := Str (pretty n).
Definition opt {A} (f : A -> Value) (o : option A) : Value := match o with Some a => f a | None => Null end.

(** ** common/src/events.rs *)
Module Emit.
Definition LockupUpdateData (account_id : AccountId) (lockup_version : Z) (timestamp : option TimestampNs)
(lockup_update_nonce : option Z) (locked_near_balance : option NearToken) : Value :=
Object [("account_id", Str account_id); ("lockup_version", int lockup_version);
("timestamp", opt dec timestamp); ("lockup_update_nonce", opt dec lockup_update_nonce);
("locked_near_balance", opt dec locked_near_balance)].

Definition ProposalVoteData (account_id : AccountId) (proposal_id vote : Z) (account_balance : NearToken) : Value :=
Object [("account_id", Str account_id); ("proposal_id", int proposal_id); ("vote", int vote);
("account_balance", dec account_balance)].

Definition ApproveProposalData (account_id : AccountId) (proposal_id : Z) : Value :=
Object [("account_id", Str account_id); ("proposal_id", int proposal_id)].
Definition RejectProposalData (account_id : AccountId) (proposal_id : Z) : Value :=
Object [("account_id", Str account_id); ("proposal_id", int proposal_id)].
Definition VetoProposalData (account_id : AccountId) (proposal_id : Z) : Value :=
Object [("account_id", Str account_id); ("proposal_id", int proposal_id)].
Definition NoVetoProposalData (account_id : AccountId) (proposal_id : Z) : Value :=
Object [("account_id", Str account_id); ("proposal_id", int proposal_id)].
Definition ProposalData (proposer_id : AccountId) (proposal_id : Z) : Value :=
Object [("proposer_id", Str proposer_id); ("proposal_id", int proposal_id)].
Definition ExecuteProposalData (account_id : AccountId) (proposal_id : Z) : Value :=
Object [("account_id", Str account_id); ("proposal_id", int proposal_id)].
Definition ExecuteProposalResultData (proposal_id : Z) (success : bool) : Value :=
Object [("proposal_id", int proposal_id); ("success", Bool success)].
Definition SlashProposalData (account_id : AccountId) (proposal_id : Z) : Value :=
Object [("account_id", Str account_id); ("proposal_id", int proposal_id)].

Definition FtMintLog (owner_id : AccountId) (amount : NearToken) (memo : option string) : Value :=
Object [("owner_id", Str owner_id); ("amount", dec amount); ("memo", opt Str memo)].
Definition FtBurnLog (owner_id : AccountId) (amount : NearToken) (memo : option string) : Value :=
Object [("owner_id", Str owner_id); ("amount", dec amount); ("memo", opt Str memo)].

Definition entry_json (d : DelegationEntry) : Value :=
Object [("account_id", Str (delegate_id d)); ("bps", int (bps d))].
Definition DelegationChangeData (account_id : AccountId) (old new : list DelegationEntry) : Value :=
Object [("account_id", Str account_id); ("old", Array (map entry_json old)); ("new", Array (map entry_json new))].

Definition EventJson (standard version event : string) (data : list Value) : Value :=
Object [("standard", Str standard); ("version", Str version); ("event", Str event); ("data", Array data)].

(** What [log_event] hands to [serde_json::to_string]. *)
Definition log_event (standard event : string) (data : Value) : Value :=
EventJson standard "1.0.0" event [data].

Definition lockup_action (action : string) (account_id : AccountId) (lockup_version : Z)
(lockup_update_nonce : option Z) (timestamp : option TimestampNs) (locked_near_balance : option NearToken)
: Value :=
log_event "venear" action
(LockupUpdateData account_id lockup_version timestamp lockup_update_nonce locked_near_balance).
Definition proposal_vote_action (action : string) (account_id : AccountId) (proposal_id vote : Z)
(account_balance : NearToken) : Value :=
log_event "venear" action (ProposalVoteData account_id proposal_id vote account_balance).
Definition approve_proposal_action (account_id : AccountId) (proposal_id : Z) : Value :=
log_event "venear" "proposal_approve" (ApproveProposalData account_id proposal_id).
Definition reject_proposal_action (account_id : AccountId) (proposal_id : Z) : Value :=
log_event "venear" "proposal_reject" (RejectProposalData account_id proposal_id).
Definition veto_proposal_action (account_id : AccountId) (proposal_id : Z) : Value :=
log_event "venear" "proposal_veto" (VetoProposalData account_id proposal_id).
Definition noveto_proposal_action (account_id : AccountId) (proposal_id : Z) : Value :=
log_event "venear" "proposal_noveto" (NoVetoProposalData account_id proposal_id).
Definition create_proposal_action (action : string) (proposer_id : AccountId) (proposal_id : Z) : Value :=
log_event "venear" action (ProposalData proposer_id proposal_id).
Definition execute_proposal_action (account_id : AccountId) (proposal_id : Z) : Value :=
log_event "venear" "proposal_execute" (ExecuteProposalData account_id proposal_id).
Definition slash_proposal_action (account_id : AccountId) (proposal_id : Z) : Value :=
log_event "venear" "proposal_slash" (SlashProposalData account_id proposal_id).
Definition execute_proposal_result (proposal_id : Z) (success : bool) : Value :=
log_event "venear" "proposal_execute_result" (ExecuteProposalResultData proposal_id success).
Definition ft_mint (owner_id : AccountId) (amount : NearToken) : Value :=
log_event "nep141" "ft_mint" (FtMintLog owner_id amount None).
Definition ft_burn (owner_id : AccountId) (amount : NearToken) : Value :=
log_event "nep141" "ft_burn" (FtBurnLog owner_id amount None).
Definition delegation_change (account_id : AccountId) (old new : list DelegationEntry) : Value :=
log_event "venear" "delegation_change" (DelegationChangeData account_id old new).

Definition payload (ev : Event) : Value :=
match ev with
| Common.lockup_action action a v nonce ts locked => lockup_action action a v nonce ts locked
| Common.proposal_vote_action action a pid vote bal => proposal_vote_action action a pid vote bal
| Common.approve_proposal_action a pid => approve_proposal_action a pid
| Common.reject_proposal_action a pid => reject_proposal_action a pid
| Common.veto_proposal_action a pid => veto_proposal_action a pid
| Common.noveto_proposal_action a pid => noveto_proposal_action a pid
| Common.create_proposal_action action a pid => create_proposal_action action a pid
| Common.execute_proposal_action a pid => execute_proposal_action a pid
| Common.slash_proposal_action a pid => slash_proposal_action a pid
| Common.execute_proposal_result pid success => execute_proposal_result pid success
| Common.ft_mint a amount => ft_mint a amount
| Common.ft_burn a amount => ft_burn a amount
| Common.delegation_change a old new => delegation_change a old new
end.
End Emit.

(** ** staking-contract/src/events.rs *)
Module StakeEmit.
(** The [payload] of [emit]. *)
Definition emit (event : string) (data : Value) : Value :=
Object [("standard", Str "stake.dao"); ("version", Str "1.0.0"); ("event", Str event); ("data", data)].

Definition log_validator_added (validator_id : ValidatorId) : Value :=
emit "validator_add" (Object [("validator_id", Str validator_id)]).
Definition log_validator_catalog_manager_add (validator_id : ValidatorId) (manager : AccountId) : Value :=
emit "validator_catalog_manager_add"
(Object [("validator_id", Str validator_id); ("catalog_manager_account_id", Str manager)]).
Definition log_validator_catalog_manager_remove (validator_id : ValidatorId) (manager : AccountId) : Value :=
emit "validator_catalog_manager_remove"
(Object [("validator_id", Str validator_id); ("catalog_manager_account_id", Str manager)]).
Definition log_product_created (product_id : ProductId) (validator_id : ValidatorId) : Value :=
emit "product_create" (Object [("product_id", Str product_id); ("validator_id", Str validator_id)]).
Definition log_subscription_cancel (account : AccountId) (subscription_id : SubscriptionId)
(product_id : ProductId) (price_id : PriceId) : Value :=
emit "subscription_cancel"
(Object [("account_id", Str account); ("subscription_id", Str subscription_id);
   ("product_id", Str product_id); ("price_id", Str price_id)]).
Definition log_subscription_resume (account : AccountId) (subscription_id : SubscriptionId)
(product_id : ProductId) (price_id : PriceId) : Value :=
emit "subscription_resume"
(Object [("account_id", Str account); ("subscription_id", Str subscription_id);
   ("product_id", Str product_id); ("price_id", Str price_id)]).
Definition log_subscription_update (account : AccountId) (subscription_id : SubscriptionId)
(product_id : ProductId) (target_price_id : PriceId) (target_amount : Z) (update_kind : string) : Value :=
emit "subscription_update"
(Object [("account_id", Str account); ("subscription_id", Str subscription_id);
   ("product_id", Str product_id); ("target_price_id", Str target_price_id);
   ("target_amount", dec target_amount); ("update_kind", Str update_kind)]).
Definition log_subscription_downgrade_prorate (account : AccountId) (subscription_id : SubscriptionId)
(product_id : ProductId) (price_id : PriceId) (lock_id : LockId) (near_yocto : Z) : Value :=
emit "subscription_downgrade_prorate"
(Object [("account_id", Str account); ("subscription_id", Str subscription_id);
   ("product_id", Str product_id); ("price_id", Str price_id);
   ("lock_id", Str lock_id); ("near_yocto", dec near_yocto)]).
Definition log_lock (lock_id : LockId) (account : AccountId) : Value :=
emit "lock_create" (Object [("lock_id", Str lock_id); ("account_id", Str account)]).
Definition log_payment_create (purchase_id : PurchaseId) (account : AccountId) (product_id : ProductId)
(price_id : PriceId) (quantity amount_paid : Z) : Value :=
emit "payment_create"
(Object [("purchase_id", Str purchase_id); ("account_id", Str account); ("product_id", Str product_id);
   ("price_id", Str price_id); ("quantity", dec quantity); ("amount_paid", dec amount_paid)]).
Definition log_revenue_withdraw (validator_id : ValidatorId) (account : AccountId) (amount : Z) : Value :=
emit "revenue_withdraw"
(Object [("validator_id", Str validator_id); ("account_id", Str account); ("amount", dec amount)]).
Definition log_unlock (lock_id : LockId) (account : AccountId) (validator_id : ValidatorId) : Value :=
emit "unlock"
(Object [("lock_id", Str lock_id); ("account_id", Str account); ("validator_id", Str validator_id)]).
Definition log_withdraw (account : AccountId) (validator_id : ValidatorId) (amount_yocto : Z) : Value :=
emit "withdraw"
(Object [("account_id", Str account); ("validator_id", Str validator_id); ("amount_yocto", dec amount_yocto)]).
Definition log_epoch_operation (epoch_action : string) (validator_id : ValidatorId) : Value :=
emit epoch_action (Object [("epoch_action", Str epoch_action); ("validator_id", Str validator_id)]).
Definition log_validator_withdraw_in (amount_yocto : Z) (validator_id : ValidatorId) : Value :=
emit "validator_withdraw_in"
(Object [("validator_id", Str validator_id); ("amount_yocto", dec amount_yocto)]).
Definition log_farm_stake (account : AccountId) (product_id : ProductId) (price_id : PriceId)
(validator_id : ValidatorId) (amount_yocto shares : Z) : Value :=
emit "farm_stake"
(Object [("account_id", Str account); ("product_id", Str product_id); ("price_id", Str price_id);
   ("validator_id", Str validator_id); ("amount_yocto", dec amount_yocto); ("shares", dec shares)]).
Definition log_farm_unstake (account : AccountId) (product_id : ProductId) (price_id : PriceId)
(validator_id : ValidatorId) (amount_yocto shares_removed remaining_shares : Z) : Value :=
emit "farm_unstake"
(Object [("account_id", Str account); ("product_id", Str product_id); ("price_id", Str price_id);
   ("validator_id", Str validator_id); ("amount_yocto", dec amount_yocto);
   ("shares_removed", dec shares_removed); ("remaining_shares", dec remaining_shares)]).
Definition log_farm_reward_rate_update (price_id : PriceId) (reward_rate : Z) : Value :=
emit "farm_reward_rate_update" (Object [("price_id", Str price_id); ("reward_rate", dec reward_rate)]).

Definition payload (ev : StakeEvent) : Value :=
match ev with
| StakingTypes.log_validator_added v => log_validator_added v
| StakingTypes.log_validator_catalog_manager_add v m => log_validator_catalog_manager_add v m
| StakingTypes.log_validator_catalog_manager_remove v m => log_validator_catalog_manager_remove v m
| StakingTypes.log_product_created p v => log_product_created p v
| StakingTypes.log_subscription_cancel a s p q => log_subscription_cancel a s p q
| StakingTypes.log_subscription_resume a s p q => log_subscription_resume a s p q
| StakingTypes.log_subscription_update a s p q amount kind => log_subscription_update a s p q amount kind
| StakingTypes.log_subscription_downgrade_prorate a s p q l near => log_subscription_downgrade_prorate a s p q l near
| StakingTypes.log_lock l a => log_lock l a
| StakingTypes.log_payment_create id a p q n paid => log_payment_create id a p q n paid
| StakingTypes.log_revenue_withdraw v a amount => log_revenue_withdraw v a amount
| StakingTypes.log_unlock l a v => log_unlock l a v
| StakingTypes.log_withdraw a v amount => log_withdraw a v amount
| StakingTypes.log_epoch_operation action v => log_epoch_operation action v
| StakingTypes.log_validator_withdraw_in amount v => log_validator_withdraw_in amount v
| StakingTypes.log_farm_stake a p q v amount shares => log_farm_stake a p q v amount shares
| StakingTypes.log_farm_unstake a p q v amount removed remaining => log_farm_unstake a p q v amount removed remaining
| StakingTypes.log_farm_reward_rate_update q rate => log_farm_reward_rate_update q rate
end.
End StakeEmit.

(** ** The lines *)
Section lines.
Context {J : JsonText}.

(** [log!("EVENT_JSON:{}", ..)]. *)
Definition line (payload : Value) : string := "EVENT_JSON:" +:+ to_string payload.

(** An event of either module and the line it leaves. *)
Definition event_line (ev : Event + StakeEvent) : string :=
line (match ev with inl e => Emit.payload e | inr e => StakeEmit.payload e end).

(** What an indexer reads from a line. *)
Definition read_line (s : string) : option Value := Text.strip_prefix "EVENT_JSON:" s ≫= from_str.

Definition printable (ev : Event + StakeEvent) : bool :=
plain (match ev with inl e => Emit.payload e | inr e => StakeEmit.payload e end).
End lines.

(** ** Facts *)
Lemma strip_prefix_append p s : Text.strip_prefix p (p +:+ s) = Some s.
Proof.
induction p as [|a p IH]; [done|]. change (String a p +:+ s) with (String a (p +:+ s)).
cbn. by rewrite Ascii.eqb_refl.
Qed.

Lemma decimal_from_go x : forall s, decimal_from 0 (pretty_N_go x s) = decimal_from x s.
Proof.
induction (N.lt_wf_0 x) as [x _ IH]; intros s.
destruct (decide (x = 0)%N) as [->|Hx]; [by rewrite pretty_N_go_0|].
rewrite pretty_N_go_step by lia. rewrite IH by (apply N.div_lt; lia). cbn [decimal_from].
pose proof (N.mod_lt x 10 ltac:(done)) as Hm. pose proof (N.div_mod x 10 ltac:(done)) as Hd.
set (r := (x mod 10)%N) in *. set (q := (x / 10)%N) in *. clearbody r q. clear IH.
assert (r = 0 \/ r = 1 \/ r = 2 \/ r = 3 \/ r = 4 \/ r = 5 \/ r = 6 \/ r = 7 \/ r = 8 \/ r = 9)%N as Hr by lia.
destruct_or! Hr; subst r; cbn -[N.mul N.add]; f_equal;
match goal with |- context [N.of_nat ?t] => let k := eval vm_compute in (N.of_nat t) in change (N.of_nat t) with k end; lia.
Qed.

Lemma decimal_pretty n : 0 <= n -> decimal (pretty n) = Some n.
Proof.
intros Hn. unfold decimal. destruct n as [|p|p]; [done| |lia].
change (pretty (Z.pos p)) with (pretty (N.pos p)). unfold pretty, pretty_N. rewrite decide_False by done.
destruct (String.eqb_spec (pretty_N_go (N.pos p) "") "") as [E|_].
- pose proof (decimal_from_go (N.pos p) "") as H. by rewrite E in H.
- by rewrite decimal_from_go.
Qed.
#[export] Hint Rewrite decimal_pretty using lia : events.

#[global] Instance int_inj : Inj (=) (=) int.
Proof. intros a b [= H]. by apply (inj pretty). Qed.
#[global] Instance dec_inj : Inj (=) (=) dec.
Proof. intros a b [= H]. by apply (inj pretty). Qed.
#[global] Instance opt_dec_inj : Inj (=) (=) (opt dec).
Proof. intros [a|] [b|] H; cbn in H; try done. f_equal. by apply (inj dec). Qed.
#[global] Instance entry_json_inj : Inj (=) (=) Emit.entry_json.
Proof. intros [a x] [b y] [= -> H]. f_equal. by apply (inj pretty). Qed.

(** The value of an event names the emitter and every argument. *)
Ltac payload_inj :=
intros H; injection H; intros; simplify_eq;
repeat match goal with
| E : pretty _ = pretty _ |- _ => apply (inj pretty) in E
| E : opt dec _ = opt dec _ |- _ => apply (inj (opt dec)) in E
| E : map Emit.entry_json _ = map Emit.entry_json _ |- _ => apply (inj (fmap Emit.entry_json)) in E
end; congruence.

#[global] Instance emit_payload_inj : Inj (=) (=) Emit.payload.
Proof. intros x y. destruct x, y; (discriminate 1 || payload_inj). Qed.
#[global] Instance stake_payload_inj : Inj (=) (=) StakeEmit.payload.
Proof. intros x y. destruct x, y; (discriminate 1 || payload_inj). Qed.
Lemma payloads_differ x y : Emit.payload x <> StakeEmit.payload y.
Proof. destruct x, y; discriminate 1. Qed.

Section reading.
Context {J : JsonText} {JL : JsonTextLaws J}.

Lemma read_line_line v : plain v = true -> read_line (line v) = Some v.
Proof. intros Hv. unfold read_line, line. rewrite strip_prefix_append. by apply from_str_to_string. Qed.

(** C37. Different events leave different log lines: whatever is logged by the
veNEAR, voting, lockup and staking contracts, the line determines the emitter
and each of its arguments (numbers of at most 64 bits, ASCII text). *)
Theorem lines_are_distinct x y :
printable x = true -> printable y = true -> event_line x = event_line y -> x = y.
Proof.
intros Hx Hy E. apply (f_equal read_line) in E. unfold event_line in E.
rewrite !read_line_line in E by done. injection E as E.
destruct x as [x|x], y as [y|y]; [| by apply payloads_differ in E | by symmetry in E; apply payloads_differ in E |];
by apply (inj _) in E as ->.
Qed.
End reading.
