(* ===== verification/VenearReplay.v ===== *)
(** * The veNEAR token as its log shows it

    [internal_set_account] logs a mint or a burn for every change of what an
    account owns. An indexer that only reads the log lines of the contract and
    follows the fungible token standard therefore keeps a ledger of its own;
    this file states it and proves that the contract refines it: in every
    state the ledger of the log is the balance the contract has stored. *)
From stdpp Require Import base gmap strings list pretty.
From Stdlib Require Import ZArith Lia.
From S2P Require Import Prelude.
From S2P Require Import Near.
From S2P Require Import Common.
From S2P Require Import CommonFacts.
From S2P Require Import MerkleTree.
From S2P Require Import MerkleFacts.
From S2P Require Import CliText.
From S2P Require Import Events.
From S2P Require Import VenearContract.
From S2P Require Import VenearLedger.
From S2P Require Import VenearInvariant.
From S2P Require Import VenearOps.
From S2P Require Import VenearTheorems.
Import Json.

Local Open Scope string_scope.
Local Open Scope Z_scope.

(** ** Growth only adds to what an account owns *)
Lemma contrib_extra_sum_grow g p b ds : rate_ok g -> aligned p -> Forall (fun d => bps_ok (bps d)) ds ->
0 <= near_balance b ->
contrib_extra_sum (grow g p b) ds =
contrib_extra_sum b ds + contrib_extra_sum (grow g p (mkBalance (near_balance b) 0)) ds.
Proof.
intros Hg Hp Hds Hn. induction Hds as [|d ds Hd _ IH]; [done|].
unfold contrib_extra_sum in *. rewrite !list_sum_Z_cons, IH, !contrib_grow by done.
cbn -[growth Z.div Z.mul]. rewrite Z.mul_0_l, Zdiv_0_l. lia.
Qed.

Lemma owned_grows g t a x : rate_ok g -> aligned t -> acc_ok a x -> update_timestamp x <= t ->
owned x <= owned (acc_at g t x).
Proof.
intros Hg Ht (_ & _ & (Hal & _ & _ & Hbps) & [Hn He] & [Hpn Hpe] & Hds) Hle. set (p := t - update_timestamp x).
assert (aligned p) as Hp by (by apply aligned_sub).
pose proof (growth_nonneg g Hg p (near_balance (balance x)) ltac:(lia) ltac:(lia)) as G1.
pose proof (growth_nonneg g Hg p (near_balance (pool (delegated_balance x))) ltac:(lia) ltac:(lia)) as G2.
destruct (contrib_sums_bounded (grow g p (mkBalance (near_balance (balance x)) 0)) (delegations x) Hds
  ltac:(cbn; lia) ltac:(cbn -[growth]; lia)) as [_ Hc].
unfold owned, acc_at. cbn [balance delegated_balance delegations pool]. fold p.
rewrite contrib_extra_sum_grow by (done || lia).
change (contrib_near_sum (grow g p (balance x)) (delegations x)) with (contrib_near_sum (balance x) (delegations x)).
unfold bsum, grow in *. cbn -[growth contrib_near_sum contrib_extra_sum] in *. lia.
Qed.

(** ** The ledger of the log *)
Abbreviation Ledger := (gmap AccountId Z).
Definition bal (m : Ledger) (a : AccountId) : Z := default 0 (m !! a).

(** The token standard: a mint credits its owner, a burn debits it. *)
Definition ft_apply (m : Ledger) (event : string) (owner : AccountId) (amount : Z) : Ledger :=
if String.eqb event "ft_mint" then <[owner := bal m owner + amount]> m
else if String.eqb event "ft_burn" then <[owner := bal m owner - amount]> m
else m.

Section replay.
Context `{VH : VenearHost} {J : JsonText} {JL : JsonTextLaws J}.

(** One line of the log, read as JSON. *)
Definition index_value (m : Ledger) (v : Value) : Ledger :=
match str_field v "standard", str_field v "event", get v "data" with
| Some standard, Some event, Some (Array [d]) =>
if String.eqb standard "nep141" then
match str_field d "owner_id", str_field d "amount" ≫= decimal with
| Some owner, Some amount => ft_apply m event owner amount
| _, _ => m
end
else m
| _, _, _ => m
end.
Definition index_line (m : Ledger) (s : string) : Ledger :=
match read_line s with Some v => index_value m v | None => m end.

(** The lines a call leaves. *)
Definition effect_line (ef : Effect) : option string :=
match ef with
| Log ev => Some (event_line (inl ev))
| LogStr s => Some s
| _ => None
end.
Definition replay (es : list Effect) : Ledger := foldl index_line ∅ (omap effect_line es).

(** ** What a line does to the ledger *)
Definition effect_apply (m : Ledger) (ef : Effect) : Ledger :=
match ef with
| Log (ft_mint a x) => <[a := bal m a + x]> m
| Log (ft_burn a x) => <[a := bal m a - x]> m
| _ => m
end.

Definition readable (ef : Effect) : Prop :=
match ef with
| Log (ft_mint _ x) | Log (ft_burn _ x) => 0 <= x
| LogStr s => Text.strip_prefix "EVENT_JSON:" s = None
| _ => True
end.

Definition effect_printable (ef : Effect) : bool :=
match ef with Log ev => printable (inl ev) | _ => true end.

Lemma index_event m ev : readable (Log ev) -> printable (inl ev) = true ->
index_line m (event_line (inl ev)) = effect_apply m (Log ev).
Proof.
intros Hr Hp. unfold index_line, event_line. rewrite read_line_line by done.
destruct ev; try done; cbn in Hr |- *; unfold index_value; cbn; by rewrite decimal_pretty.
Qed.

Lemma index_lines es m : Forall readable es -> Forall (fun ef => effect_printable ef = true) es ->
foldl index_line m (omap effect_line es) = foldl effect_apply m es.
Proof.
intros Hr Hp. revert m. induction es as [|ef es IH]; intros m; [done|].
apply Forall_cons in Hr as [Hr1 Hr], Hp as [Hp1 Hp]. specialize (IH Hr Hp).
destruct ef; cbn -[index_line effect_apply]; rewrite <- ?IH; try done.
- f_equal. by apply index_event.
- f_equal. unfold index_line, read_line. by rewrite Hr1.
Qed.

(** ** The contract keeps the ledger of its log *)
Definition books (m : Ledger) (c : Contract) : Prop :=
forall a, match accts c !! a with
  | Some x => Account.owned_total x = Ok (bal m a)
  | None => bal m a = 0
  end.

Definition replays {A} (p : M Effect Contract A) : Prop :=
forall e c r c' es m, wf (tree c) -> books m c -> p e c = Ok (r, c', es) ->
wf (tree c') /\ books (foldl effect_apply m es) c' /\ Forall readable es.

Lemma bal_insert m a x b : bal (<[a := x]> m) b = if decide (a = b) then x else bal m b.
Proof. unfold bal. case_decide; [subst; by rewrite lookup_insert_eq | by rewrite lookup_insert_ne]. Qed.

Lemma books_same m c c' : accts c' = accts c -> books m c -> books m c'.
Proof. unfold books. by intros ->. Qed.

Lemma replays_bind {A B} (p : M Effect Contract A) (k : A -> M Effect Contract B) :
replays p -> (forall a, replays (k a)) -> replays (mbind k p).
Proof.
intros Hp Hk e c r c' es m Hw Hb H. m_inv.
edestruct Hp as (Hw1 & Hb1 & Hr1); [exact Hw | exact Hb | eassumption|].
edestruct Hk as (Hw2 & Hb2 & Hr2); [exact Hw1 | exact Hb1 | eassumption|].
rewrite foldl_app, Forall_app. done.
Qed.

(** A computation that leaves the accounts alone and logs no mint. *)
Definition quiet {A} (p : M Effect Contract A) : Prop :=
forall e c r c' es, p e c = Ok (r, c', es) ->
tree c' = tree c /\ Forall (fun ef => readable ef /\ forall m, effect_apply m ef = m) es.

Lemma replays_quiet {A} (p : M Effect Contract A) : quiet p -> replays p.
Proof.
intros Hp e c r c' es m Hw Hb H. apply Hp in H as [Ht He]. rewrite Ht. split; [done|].
split; [|by eapply Forall_impl; [exact He|]; intros ? []].
replace (foldl effect_apply m es) with m; [eapply books_same; [|exact Hb]; unfold accts; by rewrite Ht|].
clear Hb. induction He as [|ef es [_ E] _ IH]; [done|]. cbn. by rewrite E.
Qed.

(** The small steps. *)
Lemma replays_ret {A} (a : A) : replays (mret a).
Proof. apply replays_quiet. intros e c r c' es H. by m_inv. Qed.
Lemma replays_get : replays (get_state : M Effect Contract Contract).
Proof. apply replays_quiet. intros e c r c' es H. by m_inv. Qed.
Lemma replays_asks {A} (f : Env -> A) : replays (asks f).
Proof. apply replays_quiet. intros e c r c' es H. by m_inv. Qed.
Lemma replays_lift {A} (r : result A) : replays (lift r).
Proof. apply replays_quiet. intros e c x c' es H. by m_inv. Qed.
Lemma replays_require b msg : replays (requireM b msg).
Proof. apply replays_lift. Qed.
Lemma replays_panic {A} msg : replays (panicM msg : M Effect Contract A).
Proof. by intros e c r c' es m _ _ H. Qed.
Lemma replays_emit ef : readable ef -> (forall m, effect_apply m ef = m) -> replays (emit ef).
Proof. intros Hr He. apply replays_quiet. intros e c r c' es H. m_inv. by repeat constructor. Qed.
Lemma replays_for_each {A} (l : list A) (body : A -> M Effect Contract unit) :
(forall x, replays (body x)) -> replays (for_each l body).
Proof. intros Hb. induction l; [apply replays_ret|]. by apply replays_bind. Qed.

Lemma replays_set_internal a i : replays (internal_set_account_internal a i).
Proof. apply replays_quiet. intros e c r c' es H. unfold internal_set_account_internal in H. by m_inv. Qed.

Lemma replays_set_global gs : replays (internal_set_global_state gs).
Proof.
intros e c r c' es m Hw Hb H. pose proof H as H'. apply set_global_inv in H as (Hw' & _ & Ha & _); [|done].
unfold internal_set_global_state in H'. m_inv. split_and!; [done | by eapply books_same | constructor].
Qed.

(** The one place where balances change and mints and burns are logged. *)
Lemma books_insert m m' c c' a acc v : books m c -> accts c' = <[a := acc]> (accts c) ->
Account.owned_total acc = Ok v -> (forall b, bal m' b = if decide (a = b) then v else bal m b) -> books m' c'.
Proof.
intros Hb Ha Hv Hm b. rewrite Ha, Hm. destruct (decide (a = b)) as [<-|Hn].
- by rewrite lookup_insert_eq.
- rewrite lookup_insert_ne by done. apply Hb.
Qed.

Lemma books_old m c a old : books m c ->
match accts c !! a with Some x => Account.owned_total x | None => Ok 0 end = Ok old -> bal m a = old.
Proof. intros Hb. specialize (Hb a). destruct (accts c !! a); congruence. Qed.

Lemma replays_set_account a acc : replays (internal_set_account a acc).
Proof.
intros e c r c' es m Hw Hb H. pose proof H as H'. apply set_account_inv in H as [Hf Ha]; [|done].
split; [apply Hf|]. unfold internal_set_account in H'. m_inv.
rewrite accts_get in *. apply (books_old m) in B1; [|done].
m_all; bool_prop; cbn; (split; [eapply books_insert; [exact Hb | exact Ha | exact B0 |]; intros b | repeat constructor; cbn; lia]);
rewrite ?bal_insert; case_decide; subst; lia.
Qed.

End replay.

Create HintDb replays.
#[export] Hint Resolve replays_ret replays_get replays_asks replays_lift replays_require replays_panic
  replays_set_internal replays_set_global replays_set_account : replays.

Ltac replays_step :=
match goal with
| |- replays (mbind _ _) => apply replays_bind; [|intros ?]
| |- replays (for_each _ _) => apply replays_for_each; intros ?
| |- replays (emit _) => apply replays_emit; [done..]
| |- replays (if ?b then _ else _) => destruct b
| |- replays (match ?x with _ => _ end) => destruct x
| |- replays (let _ := _ in _) => cbv zeta
| |- replays _ => solve [auto with replays nocore]
end.
Ltac replays_walk := repeat replays_step.
Ltac quiet_call :=
apply replays_quiet; let H := fresh in intros ? ? ? ? ? H;
unfold owner_update, assert_owner, assert_guardian, assert_not_paused, internal_set_lockup in H; m_all;
(split; [done | cbn; repeat constructor]).

Section calls.
Context `{VH : VenearHost} {J : JsonText} {JL : JsonTextLaws J}.

Lemma replays_updated a : replays (internal_expect_account_updated a).
Proof. unfold internal_expect_account_updated. replays_walk. Qed.
#[local] Hint Resolve replays_updated : replays.
Lemma replays_register a dep : replays (internal_register_account a dep).
Proof. unfold internal_register_account, internal_global_state_updated. replays_walk. Qed.
Lemma replays_lockup_update a i u : replays (internal_lockup_update a i u).
Proof. unfold internal_lockup_update, internal_global_state_updated, rebase_delegation. replays_walk. Qed.
#[local] Hint Resolve replays_register replays_lockup_update : replays.

Lemma run_replays x : replays (run x).
Proof.
destruct x; cbn [run].
- unfold set_delegations, assert_not_paused, remove_delegation, add_delegation. replays_walk.
- unfold storage_deposit, assert_not_paused. replays_walk.
- unfold deploy_lockup, internal_deploy_lockup, assert_not_paused. replays_walk.
- unfold on_lockup_update. replays_walk.
- unfold on_lockup_deployed, assert_private. replays_walk.
- unfold prepare_lockup_code. quiet_call.
- unfold set_lockup_contract. quiet_call.
- unfold set_local_deposit. quiet_call.
- unfold set_staking_pool_whitelist_account_id. quiet_call.
- unfold propose_new_owner_account_id. quiet_call.
- unfold accept_ownership. quiet_call.
- unfold set_unlock_duration_sec. quiet_call.
- unfold set_lockup_code_deployers. quiet_call.
- unfold set_guardians. quiet_call.
- unfold set_max_delegations. quiet_call.
- unfold pause. quiet_call.
- unfold unpause. quiet_call.
- unfold migrate_state, assert_private, write_recomputed. replays_walk.
Qed.

(** The states of [reachable] with everything the calls have left. *)
Inductive history : Z -> Contract -> list Effect -> Prop :=
| hist_new e cfg growth c :
env_ok e -> 0 <= numerator (annual_growth_rate_ns growth) ->
0 <= local_deposit cfg <= U128_MAX -> new_contract e cfg growth = Ok c ->
history (block_timestamp e) c []
| hist_call now c past x e c' es :
history now c past -> env_ok e -> now <= block_timestamp e -> call_ok x ->
run x e c = Ok (tt, c', es) -> history (block_timestamp e) c' (past ++ es).

Lemma history_reachable now c es : history now c es -> reachable now c.
Proof. induction 1; [by eapply reach_new | by eapply reach_call]. Qed.

Lemma reachable_history now c : reachable now c -> exists es, history now c es.
Proof. induction 1 as [|now c x e c' es _ [past H]]; [eexists; by eapply hist_new | eexists; by eapply hist_call]. Qed.

Lemma history_books now c es : history now c es ->
wf (tree c) /\ books (foldl effect_apply ∅ es) c /\ Forall readable es.
Proof.
induction 1 as [e cfg growth c He Hn Hd H|now c past x e c' es _ (Hw & Hb & Hr) He Hnow Hx H].
- apply new_contract_inv in H as H'; [|done..]. split_and!; [apply H' | | constructor].
unfold new_contract in H. res_inv. intros a. unfold accts. cbn [tree]. by rewrite view_new, fmap_empty, lookup_empty.
- destruct (run_replays x e c tt c' es _ Hw Hb H) as (Hw' & Hb' & Hr'). rewrite foldl_app, Forall_app. done.
Qed.

(** C22. The log is the ledger: an indexer that reads nothing but the log lines
of the contract and applies the mints and burns of the token standard arrives,
for every account and after every sequence of calls, at exactly the balance
the contract has stored. What the token view reports later is that balance and
the growth since: never less, and the same within the second of the account's
last change. *)
Theorem log_is_the_ledger now c es e a r : history now c es ->
Forall (fun ef => effect_printable ef = true) es -> env_ok e -> now <= block_timestamp e ->
ft_balance_of e c a = Ok r ->
match internal_get_account c a with
| Some x => Account.owned_total x = Ok (bal (replay es) a) /\ bal (replay es) a <= r /\
    (update_timestamp x = truncate_to_seconds (block_timestamp e) -> r = bal (replay es) a)
| None => bal (replay es) a = 0 /\ r = 0
end.
Proof.
intros Hh Hp He Hnow H. pose proof (history_reachable _ _ _ Hh) as [HI Htm]%reachable_inv.
destruct (history_books _ _ _ Hh) as (_ & Hb & Hr). unfold replay. rewrite index_lines by done.
specialize (Hb a). rewrite accts_get. destruct (accts c !! a) as [x|] eqn:Ex.
2: { unfold ft_balance_of in H. rewrite accts_get, Ex in H. split; [done | congruence]. }
pose proof (inv_accounts c (inv_pre c HI) a x Ex) as Hok. pose proof (inv_rate c (inv_pre c HI)) as Hg.
apply ft_balance_of_inv with (x := x) in H as [-> _]; [|done..].
pose proof Hok as (_ & _ & (_ & _ & _ & Hbps) & Hbal & _). pose proof Hb as [E _]%owned_total_inv; [|done..]. rewrite E in Hb |- *.
apply (timed_later _ _ _ Hnow) in Htm as [_ Ht]. specialize (Ht a x Ex). cbn in Ht.
split; [done|]. split; [eapply owned_grows; [done | apply truncate_to_seconds_aligned | done | lia]|].
intros <-. by rewrite acc_at_id.
Qed.
End calls.
