(* ===== verification/StakingMath.v ===== *)
(** * Arithmetic of the staking contract

    [utils.rs], the formulas of [stake.rs], the calendar of
    [subscriptions.rs] and the generated ids of [ids.rs]. [U256] is
    [common::U256]: its products are checked, and [as_u128] panics when the
    value does not fit. *)
From stdpp Require Import base gmap strings list.
From Stdlib Require Import ZArith Lia Ascii.
From S2P Require Import Prelude.
From S2P Require Import Near.
From S2P Require Import MerkleTree.
From S2P Require Import StakingTypes.

Local Open Scope Z_scope.

Definition U256_MAX : Z := 2 ^ 256 - 1.
Definition u256_mul (a b : Z) : result Z := checked_op U256_MAX (a * b) "arithmetic operation overflow".
Definition as_u128 (z : Z) : result Z := checked_op U128_MAX z "Integer overflow when casting to u128".
Definition u128_saturating_add (a b : Z) : Z := saturating_add U128_MAX a b.
Definition u64_saturating_add (a b : Z) : Z := saturating_add U64_MAX a b.
Definition u32_saturating_add (a b : Z) : Z := saturating_add U32_MAX a b.
Definition u128_saturating_mul (a b : Z) : Z := Z.min U128_MAX (a * b).

(** ** utils.rs *)
Definition LOCK_FACTOR_DENOM : Z := 1_000_000_000_000_000_000_000_000.
Definition NS_PER_DAY : Z := 86_400_000_000_000.
Definition AVG_MONTH_NS : Z := NS_PER_DAY * 487 / 16.

Definition mint_shares (total_shares effective_total deposit_yocto : Z) : result Z :=
  if (total_shares =? 0) || (effective_total =? 0) then Ok deposit_yocto
  else
    num ← u256_mul deposit_yocto total_shares;
    as_u128 (num / effective_total).

Definition near_from_shares (shares effective_total total_shares : Z) : result Z :=
  if total_shares =? 0 then Ok 0
  else
    num ← u256_mul shares effective_total;
    as_u128 (num / total_shares).

Definition required_near_months (price : Price.t) : result Z :=
  num ← u256_mul (Price.amount price) (Price.lock_factor_near_months price);
  mret (num / LOCK_FACTOR_DENOM).

(** The error of [check_near_price_lock] is the message of the panic its
    callers raise. *)
Definition price_lock_error : string := "Locked NEAR or lock duration is too low for this catalog price".

(** [true] is [Ok(())], [false] is [Err(price_lock_error)]. *)
Definition check_near_price_lock (price : Price.t) (locked_yocto duration_ns : Z) : result bool :=
  lhs ← u256_mul locked_yocto duration_ns;
  months ← required_near_months price;
  rhs ← u256_mul months AVG_MONTH_NS;
  mret (rhs <=? lhs).

Definition check_near_recurring_price_lock (price : Price.t) (locked_yocto : Z) : result bool :=
  check_near_price_lock price locked_yocto AVG_MONTH_NS.

(** [collect_paginated]: the loop runs over the indexes from [from_index] to
    [total_len], so [total_len - from_index] rounds are enough. *)
Fixpoint collect_from {T} (fuel : nat) (i limit total_len : Z) (fetch : Z -> option T) (out : list T) : list T :=
  match fuel with
  | O => out
  | S fuel' =>
      if (i <? total_len) && (Z.of_nat (length out) <? limit)
      then collect_from fuel' (i + 1) limit total_len fetch
             (match fetch i with Some item => out ++ [item] | None => out end)
      else out
  end.
Definition collect_paginated {T} (from_index limit total_len : Z) (fetch : Z -> option T) : list T :=
  collect_from (Z.to_nat (total_len - from_index)) from_index limit total_len fetch [].

(** ** stake.rs: rewards *)
Definition FARM_REWARD_RATE_DENOM : Z := 1.
Definition FARM_ACC_REWARD_PER_SHARE_DENOM : Z := 1_000_000_000_000_000_000_000_000.
Definition YOCTO_PER_NEAR : Z := 1_000_000_000_000_000_000_000_000.
Definition NS_PER_SECOND : Z := 1_000_000_000.

Definition farm_delta_reward_units (total_farm_near_yocto elapsed_ns reward_rate : Z) : result Z :=
  a ← u256_mul total_farm_near_yocto elapsed_ns;
  b ← u256_mul a reward_rate;
  as_u128 (b / YOCTO_PER_NEAR / NS_PER_SECOND / FARM_REWARD_RATE_DENOM).

Definition farm_position_accumulated (shares acc_reward_per_share : Z) : result Z :=
  num ← u256_mul shares acc_reward_per_share;
  as_u128 (num / FARM_ACC_REWARD_PER_SHARE_DENOM).

(** [Ord::clamp] panics when the bounds are reversed. *)
Definition clamp (x lo hi : Z) : result Z :=
  require (lo <=? hi) "assertion failed: min <= max" ;; mret (Z.max lo (Z.min x hi)).

Definition farm_shares_for_amount_ceil (amount_yocto validator_total_shares net_stake_yocto max_shares : Z) : result Z :=
  numerator ← u256_mul amount_yocto validator_total_shares;
  shares ← as_u128 (numerator / net_stake_yocto);
  let shares' := if numerator mod net_stake_yocto =? 0 then shares else u128_saturating_add shares 1 in
  clamp shares' 1 max_shares.

(** ** subscriptions.rs: the calendar

    Divisions of [i64] and [i128] truncate towards zero ([Z.quot]);
    [div_euclid] and [rem_euclid] by a positive number are [/] and [mod]. *)
Definition civil_from_days (days_since_unix_epoch : Z) : Z * Z * Z :=
  let z := days_since_unix_epoch + 719468 in
  let era := Z.quot (if 0 <=? z then z else z - 146096) 146097 in
  let day_of_era := z - era * 146097 in
  let year_of_era :=
    Z.quot (day_of_era - Z.quot day_of_era 1460 + Z.quot day_of_era 36524 - Z.quot day_of_era 146096) 365 in
  let year := year_of_era + era * 400 in
  let day_of_year := day_of_era - (365 * year_of_era + Z.quot year_of_era 4 - Z.quot year_of_era 100) in
  let month_prime := Z.quot (5 * day_of_year + 2) 153 in
  let day := day_of_year - Z.quot (153 * month_prime + 2) 5 + 1 in
  let month := month_prime + (if month_prime <? 10 then 3 else -9) in
  (year + (if month <=? 2 then 1 else 0), month, day).

Definition days_from_civil (year month day : Z) : Z :=
  let year := year - (if month <=? 2 then 1 else 0) in
  let era := year / 400 in
  let year_of_era := year - era * 400 in
  let month_prime := month + (if 2 <? month then -3 else 9) in
  let day_of_year := Z.quot (153 * month_prime + 2) 5 + day - 1 in
  let day_of_era := year_of_era * 365 + Z.quot year_of_era 4 - Z.quot year_of_era 100 + day_of_year in
  era * 146097 + day_of_era - 719468.

Definition is_leap_year (year : Z) : bool :=
  (year mod 4 =? 0) && negb (year mod 100 =? 0) || (year mod 400 =? 0).

Definition last_day_of_month (year month : Z) : Z :=
  match month with
  | 1 | 3 | 5 | 7 | 8 | 10 | 12 => 31
  | 4 | 6 | 9 | 11 => 30
  | 2 => if is_leap_year year then 29 else 28
  | _ => 31
  end.

Definition add_months_stripe_style (anchor_day months from_ns : Z) : Z :=
  if months =? 0 then from_ns
  else
    let anchor_day := Z.max 1 (Z.min anchor_day 31) in
    let days := from_ns / NS_PER_DAY in
    let time_of_day_ns := from_ns mod NS_PER_DAY in
    let '(year, month, _) := civil_from_days days in
    let target_month_index := year * 12 + (month - 1) + months in
    let target_year := target_month_index / 12 in
    let target_month := target_month_index mod 12 + 1 in
    let target_day := Z.min anchor_day (last_day_of_month target_year target_month) in
    let target_days := days_from_civil target_year target_month target_day in
    let target_ns := target_days * NS_PER_DAY + time_of_day_ns in
    if in_range U64_MAX target_ns then target_ns else U64_MAX.

Definition billing_anchor_day_from_timestamp (ts : Z) : Z :=
  let '(_, _, day) := civil_from_days (ts / NS_PER_DAY) in day.

(** [projected_subscription_window_from]: the loop moves the window by one
    month while it has ended. It is [None] when the fuel runs out before. *)
Fixpoint window_loop (fuel : nat) (anchor_day start end_ now : Z) : option (Z * Z) :=
  if now <? end_ then Some (start, end_)
  else
    match fuel with
    | O => None
    | S fuel' => window_loop fuel' anchor_day end_ (add_months_stripe_style anchor_day 1 end_) now
    end.

(** Each round moves the window by at least a day ([window_loop_total]). *)
Definition window_fuel (start now : Z) : nat := Z.to_nat ((now - start) / NS_PER_DAY + 1).

Definition projected_subscription_window_from (anchor_day start now : Z) : result (Z * Z) :=
  expect (window_loop (window_fuel start now) anchor_day start (add_months_stripe_style anchor_day 1 start) now)
    "the window does not end".

(** ** ids.rs *)
Definition PROD_SUFFIX_LEN : nat := 14.
Definition PRICE_SUFFIX_LEN : nat := 24.
Definition SUB_LOCK_SUFFIX_LEN : nat := 17.
Definition PURCHASE_SUFFIX_LEN : nat := 17.

Definition BASE62 : string := "0123456789ABCDEFGHIJKLMNOPQRSTUVWXYZabcdefghijklmnopqrstuvwxyz".

Definition str_bytes (s : string) : bytes := map (fun c => Z.of_nat (nat_of_ascii c)) (String.list_ascii_of_string s).

(** [u64::to_be_bytes]. *)
Definition be_bytes (x : Z) : bytes := map (fun k => Z.land (Z.shiftr x (8 * k)) 255) [7; 6; 5; 4; 3; 2; 1; 0].

Section ids.
Context `{HC : Crypto}.

(** One round per character; the buffer is hashed again when it is used up. *)
Fixpoint base62_chars (n : nat) (buf : bytes) (idx : nat) : result string :=
match n with
| O => Ok EmptyString
| S n' =>
let '(buf, idx) := if (length buf <=? idx)%nat then (sha256 buf, O) else (buf, idx) in
b ← expect (buf !! idx) "index out of bounds";
c ← expect (String.get (Z.to_nat (b mod 62)) BASE62) "index out of bounds";
rest ← base62_chars n' buf (S idx);
mret (String c rest)
end.
Definition base62_from_hash (hash : bytes) (out_len : nat) : result string := base62_chars out_len hash O.

(** Returns the id and the next nonce. *)
Definition next_id (e : Env) (prefix : string) (suffix_len : nat) (nonce : Z) : result (string * Z) :=
let buf := str_bytes prefix ++ be_bytes nonce ++ be_bytes (block_height e) ++ be_bytes (block_timestamp e) ++
 str_bytes (predecessor_account_id e) in
encoded ← base62_from_hash (sha256 buf) suffix_len;
mret ((prefix ++ "_" ++ encoded)%string, u64_saturating_add nonce 1).

Definition next_product_id (e : Env) (nonce : Z) : result (string * Z) := next_id e "prod" PROD_SUFFIX_LEN nonce.
Definition next_price_id (e : Env) (nonce : Z) : result (string * Z) := next_id e "price" PRICE_SUFFIX_LEN nonce.
Definition next_subscription_id (e : Env) (nonce : Z) : result (string * Z) := next_id e "sub" SUB_LOCK_SUFFIX_LEN nonce.
Definition next_lock_id (e : Env) (nonce : Z) : result (string * Z) := next_id e "lock" SUB_LOCK_SUFFIX_LEN nonce.
Definition next_purchase_id (e : Env) (nonce : Z) : result (string * Z) := next_id e "pay" PURCHASE_SUFFIX_LEN nonce.

(** At most 64 attempts. *)
Fixpoint generate_unique (tries : nat) (generate : Z -> result (string * Z)) (contains : string -> bool)
(msg : string) (nonce : Z) : result (string * Z) :=
match tries with
| O => Panic msg
| S tries' =>
x ← generate nonce;
let '(id, nonce') := x in
if contains id then generate_unique tries' generate contains msg nonce' else mret (id, nonce')
end.
Definition next_unique_generated_id (generate : Z -> result (string * Z)) (contains : string -> bool)
(msg : string) (nonce : Z) : result (string * Z) :=
generate_unique 64 generate contains msg nonce.
End ids.
