(* ===== verification/StakingContract.v ===== *)
(** * The staking contract: state, accounts, validators

    The contract state of [lib.rs] with [config.rs], [governance.rs],
    [pause.rs], [accounts.rs] and [validators.rs]. Promises are data: a chain
    of receipts, each the call of a pool, a call of the contract itself or a
    transfer, executed one after the other. *)
From stdpp Require Import base gmap strings list.
From Stdlib Require Import ZArith Lia.
From S2P Require Import Prelude.
From S2P Require Import Near.
From S2P Require Import MerkleTree.
From S2P Require Import StakingTypes.
From S2P Require Import StakingMath.

Local Open Scope Z_scope.
Local Open Scope record_scope.

(** ** Collections of near-sdk

    [IterableSet<String>] and the keys of [IterableMap<String, ()>] are kept
    as the list of their iteration order, which the library chooses. A
    [Vector] is a list. *)
Class IdSet : Type := {
  ids_insert : string -> list string -> list string;
  ids_remove : string -> list string -> list string
}.

Class IdSetLaws (IS : IdSet) : Prop := {
  elem_of_ids_insert x y s : x ∈ ids_insert y s <-> x = y \/ x ∈ s;
  elem_of_ids_remove x y s : x ∈ ids_remove y s <-> x <> y /\ x ∈ s;
  NoDup_ids_insert x s : NoDup s -> NoDup (ids_insert x s);
  NoDup_ids_remove x s : NoDup s -> NoDup (ids_remove x s)
}.

(** ** Promises *)

(** The methods of a staking pool the contract calls ([ExtStakingPool]). *)
Inductive PoolCall : Type :=
| GetOwnerId
| DepositAndStake
| Unstake (amount : NearToken)
| Withdraw (amount : NearToken)
| GetAccount (account : AccountId).

(** The calls of the contract to itself ([ExtSelfEpoch], [ExtSelfValidators],
    [ExtSelfProducts], [ExtSelfPrices], [ExtSelfPayments]), without the
    results of the awaited promise. *)
Inductive SelfCall : Type :=
| OnEpochSettlementAfterPoolAccount (v : ValidatorId) (cont : UserAction.t)
| OnEpochWithdrawTransferDone (v : ValidatorId) (withdrawn : NearToken)
| OnAfterPoolWithdrawMaybeSettle (v : ValidatorId) (cont : UserAction.t)
| OnDepositAndStake (v : ValidatorId)
| OnUnstake (v : ValidatorId)
| OnEpochSettlementDispatchContinue (cont : UserAction.t)
| ResolveLock (buyer : AccountId) (locked : NearToken) (duration_ns : Z) (order : OrderRef) (v : ValidatorId)
| ResolveRecurringSubscriptionLockAfterSettle (buyer : AccountId) (locked : NearToken) (price : PriceId) (v : ValidatorId)
| ResolveFarmStake (account : AccountId) (deposit : NearToken) (product : ProductId) (price : PriceId) (v : ValidatorId)
| OnSubscriptionUpdateAfterSettle (buyer : AccountId) (deposit : NearToken) (target_price : PriceId) (target_amount : Z)
    (sub : SubscriptionId) (v : ValidatorId)
| ResolveUnlock (lock : LockId) (account : AccountId) (v : ValidatorId) (shares_remove : Z)
| ResolveFarmUnstake (account : AccountId) (product : ProductId) (v : ValidatorId) (amount : option Z)
| OnWithdrawUserTransferAfterSettle (account : AccountId) (v : ValidatorId)
| OnEpochPipelineTerminalRelease (v : ValidatorId)
| OnEpochPipelineReleaseWithLockId (v : ValidatorId) (cont : UserAction.t)
| OnEpochPipelineReleaseWithFarmPosition (v : ValidatorId) (cont : UserAction.t)
| OnEpochPipelineReleaseWithSubscriptionUpdateOutcome (v : ValidatorId) (cont : UserAction.t)
| AddValidatorCatalogManagerAfterGetOwner (v : ValidatorId) (manager expected_caller : AccountId)
| RemoveValidatorCatalogManagerAfterGetOwner (v : ValidatorId) (manager expected_caller : AccountId)
| CreateProductAfterGetOwner (v : ValidatorId) (name description : string) (expected_caller : AccountId)
| EditProductAfterGetOwner (product : ProductId) (name description : string) (expected_caller : AccountId)
| ArchiveProductAfterGetOwner (product : ProductId) (expected_caller : AccountId)
| DeleteProductAfterGetOwner (product : ProductId) (expected_caller : AccountId)
| UnarchiveProductAfterGetOwner (product : ProductId) (expected_caller : AccountId)
| SetProductDefaultPriceAfterGetOwner (product : ProductId) (price : option PriceId) (expected_caller : AccountId)
| CreatePriceAfterGetOwner (product : ProductId) (name description : string) (amount : Z) (price_type : PriceType.t)
    (billing_period : option BillingPeriod.t) (lock_factor_near_months : Z) (metadata : option PriceMetadata.t)
    (expected_caller : AccountId)
| EditPriceAfterGetOwner (price : PriceId) (name description : option string) (metadata : option PriceMetadata.t)
    (expected_caller : AccountId)
| ArchivePriceAfterGetOwner (price : PriceId) (expected_caller : AccountId)
| DeletePriceAfterGetOwner (price : PriceId) (expected_caller : AccountId)
| UnarchivePriceAfterGetOwner (price : PriceId) (expected_caller : AccountId)
| WithdrawRevenueAfterGetOwner (v : ValidatorId) (expected_caller : AccountId).

Inductive PStep : Type :=
| CallPool (pool : ValidatorId) (call : PoolCall) (deposit : NearToken) (gas : Z)
| CallSelf (call : SelfCall) (gas : Z)
| TransferTo (receiver : AccountId) (amount : NearToken).

(** [p.then(s)] is [p ++ [s]]: every promise of the contract is a chain. *)
Abbreviation Promise := (list PStep) (only parsing).
Definition then_ (p : Promise) (s : PStep) : Promise := p ++ [s].

Inductive PromiseOrValue (A : Type) : Type :=
| Value (a : A)
| Returned (p : Promise).
Arguments Value {A} a.
Arguments Returned {A} p.

(** What a call leaves behind beside the promise it returns; a promise it
    drops is always a transfer. *)
Inductive SEffect : Type :=
| SEvent (ev : StakeEvent)
| SLog (msg : string)
| Detached (receiver : AccountId) (amount : NearToken).

(** ** lib.rs *)
Record Contract : Type := mkContract {
  config : Config.t;
  paused : bool;
  validators : gmap ValidatorId Validator.t;
  validator_ids : list ValidatorId;
  product_ids : list ProductId;
  products : gmap ProductId Product.t;
  prices : gmap PriceId Price.t;
  accounts : gmap AccountId Account.t;
  account_ids : list AccountId;
  subscriptions : gmap SubscriptionId Subscription.t;
  locks : gmap LockId Lock.t;
  lock_ids : list LockId;
  locks_by_account : gmap AccountId (list LockId);
  user_validator_shares : gmap (AccountId * ValidatorId) Z;
  user_pending_unstake : gmap (AccountId * ValidatorId) (list PendingUnstakeTranche.t);
  user_pending_unstake_validator_count : gmap AccountId Z;
  user_lock_count : gmap AccountId Z;
  purchases : gmap PurchaseId Purchase.t;
  purchase_ids : list PurchaseId;
  purchases_by_account : gmap AccountId (list PurchaseId);
  purchases_by_product : gmap ProductId (list PurchaseId);
  user_purchase_count : gmap AccountId Z;
  revenue_by_validator : gmap ValidatorId NearToken;
  farm_pools : gmap PriceId FarmPool.t;
  farm_positions : gmap (AccountId * ProductId) FarmPosition.t;
  farm_position_products_by_account : gmap AccountId (list ProductId);
  user_farm_position_count : gmap AccountId Z;
  farm_accounts : gmap AccountId FarmAccount.t;
  subscription_by_account_product : gmap (AccountId * ProductId) SubscriptionId;
  subscriptions_by_account : gmap AccountId (list SubscriptionId);
  subscriptions_by_product : gmap ProductId (list SubscriptionId);
  subscription_ids : list SubscriptionId;
  pending_update_target_price_counts : gmap PriceId Z;
  pending_update_target_product_counts : gmap ProductId Z;
  id_nonce : Z
}.

#[global] Instance eta_Contract : Eta Contract := fun x =>
  mkContract (config x) (paused x) (validators x) (validator_ids x) (product_ids x) (products x) (prices x)
    (accounts x) (account_ids x) (subscriptions x) (locks x) (lock_ids x) (locks_by_account x)
    (user_validator_shares x) (user_pending_unstake x) (user_pending_unstake_validator_count x) (user_lock_count
    x) (purchases x) (purchase_ids x) (purchases_by_account x) (purchases_by_product x) (user_purchase_count x)
    (revenue_by_validator x) (farm_pools x) (farm_positions x) (farm_position_products_by_account x)
    (user_farm_position_count x) (farm_accounts x) (subscription_by_account_product x) (subscriptions_by_account
    x) (subscriptions_by_product x) (subscription_ids x) (pending_update_target_price_counts x)
    (pending_update_target_product_counts x) (id_nonce x).
#[global] Instance set_config : Setter config := ltac:(derive_setter).
#[global] Instance set_paused : Setter paused := ltac:(derive_setter).
#[global] Instance set_validators : Setter validators := ltac:(derive_setter).
#[global] Instance set_validator_ids : Setter validator_ids := ltac:(derive_setter).
#[global] Instance set_product_ids : Setter product_ids := ltac:(derive_setter).
#[global] Instance set_products : Setter products := ltac:(derive_setter).
#[global] Instance set_prices : Setter prices := ltac:(derive_setter).
#[global] Instance set_accounts : Setter accounts := ltac:(derive_setter).
#[global] Instance set_account_ids : Setter account_ids := ltac:(derive_setter).
#[global] Instance set_subscriptions : Setter subscriptions := ltac:(derive_setter).
#[global] Instance set_locks : Setter locks := ltac:(derive_setter).
#[global] Instance set_lock_ids : Setter lock_ids := ltac:(derive_setter).
#[global] Instance set_locks_by_account : Setter locks_by_account := ltac:(derive_setter).
#[global] Instance set_user_validator_shares : Setter user_validator_shares := ltac:(derive_setter).
#[global] Instance set_user_pending_unstake : Setter user_pending_unstake := ltac:(derive_setter).
#[global] Instance set_user_pending_unstake_validator_count : Setter user_pending_unstake_validator_count := ltac:(derive_setter).
#[global] Instance set_user_lock_count : Setter user_lock_count := ltac:(derive_setter).
#[global] Instance set_purchases : Setter purchases := ltac:(derive_setter).
#[global] Instance set_purchase_ids : Setter purchase_ids := ltac:(derive_setter).
#[global] Instance set_purchases_by_account : Setter purchases_by_account := ltac:(derive_setter).
#[global] Instance set_purchases_by_product : Setter purchases_by_product := ltac:(derive_setter).
#[global] Instance set_user_purchase_count : Setter user_purchase_count := ltac:(derive_setter).
#[global] Instance set_revenue_by_validator : Setter revenue_by_validator := ltac:(derive_setter).
#[global] Instance set_farm_pools : Setter farm_pools := ltac:(derive_setter).
#[global] Instance set_farm_positions : Setter farm_positions := ltac:(derive_setter).
#[global] Instance set_farm_position_products_by_account : Setter farm_position_products_by_account := ltac:(derive_setter).
#[global] Instance set_user_farm_position_count : Setter user_farm_position_count := ltac:(derive_setter).
#[global] Instance set_farm_accounts : Setter farm_accounts := ltac:(derive_setter).
#[global] Instance set_subscription_by_account_product : Setter subscription_by_account_product := ltac:(derive_setter).
#[global] Instance set_subscriptions_by_account : Setter subscriptions_by_account := ltac:(derive_setter).
#[global] Instance set_subscriptions_by_product : Setter subscriptions_by_product := ltac:(derive_setter).
#[global] Instance set_subscription_ids : Setter subscription_ids := ltac:(derive_setter).
#[global] Instance set_pending_update_target_price_counts : Setter pending_update_target_price_counts := ltac:(derive_setter).
#[global] Instance set_pending_update_target_product_counts : Setter pending_update_target_product_counts := ltac:(derive_setter).
#[global] Instance set_id_nonce : Setter id_nonce := ltac:(derive_setter).

Abbreviation MS := (M SEffect Contract).

Definition staking_new (cfg : Config.t) : result Contract :=
  require_min_lock_amount_at_protocol_floor (Config.min_lock_amount cfg) ;;
  mret (mkContract cfg false ∅ [] [] ∅ ∅ ∅ [] ∅ ∅ [] ∅ ∅ ∅ ∅ ∅ ∅ [] ∅ ∅ ∅ ∅ ∅ ∅ ∅ ∅ ∅ ∅ ∅ ∅ [] ∅ ∅ 0).

(** A value of a map with its default: [m.get(k).copied().unwrap_or(0)]. *)
Definition count {K} `{Countable K} (m : gmap K Z) (k : K) : Z := default 0 (m !! k).

(** ** pause.rs, governance.rs: guards *)
Definition assert_not_paused : MS unit :=
  c ← get_state;
  requireM (negb (paused c)) "The contract is paused; try again after it has been unpaused".

Definition assert_owner : MS unit :=
  c ← get_state; p ← asks predecessor_account_id;
  requireM (String.eqb p (Config.owner_account_id (config c))) "Only the contract owner can call this method".

Definition assert_guardian : MS unit :=
  c ← get_state; p ← asks predecessor_account_id;
  requireM (bool_decide (p ∈ Config.guardians (config c)) || String.eqb p (Config.owner_account_id (config c)))
    "Only a guardian or the contract owner can call this method".

Definition assert_owner_payable : MS unit := assert_one_yocto ;; assert_owner.

(** gas.rs *)
Definition require_enough_gas_for_epoch_settlement : MS unit :=
  g ← asks prepaid_gas;
  requireM (Gas.EPOCH_SETTLEMENT_MIN_GAS <=? g) "Insufficient gas".

(** ** pause.rs, governance.rs: methods *)
Definition pause : MS unit :=
  assert_one_yocto ;; assert_guardian ;; modify (fun c => c <| paused := true |>).

Definition unpause : MS unit :=
  assert_one_yocto ;; assert_owner ;; modify (fun c => c <| paused := false |>).

Definition update_config (f : Config.t -> Config.t) : MS unit :=
  modify (fun c => c <| config := f (config c) |>).

Definition propose_new_owner_account_id (new_owner : option AccountId) : MS unit :=
  assert_owner_payable ;; update_config (fun g => g <| Config.proposed_new_owner_account_id := new_owner |>).

Definition accept_ownership : MS unit :=
  assert_one_yocto ;;
  p ← asks predecessor_account_id; c ← get_state;
  requireM (bool_decide (Config.proposed_new_owner_account_id (config c) = Some p))
    "Only the proposed new owner can call this method" ;;
  update_config (fun g => g <| Config.owner_account_id := p |> <| Config.proposed_new_owner_account_id := None |>).

Definition set_guardians (guardians : list AccountId) : MS unit :=
  assert_owner_payable ;; update_config (fun g => g <| Config.guardians := guardians |>).

Definition set_per_lock_storage_stake (amount : NearToken) : MS unit :=
  assert_owner_payable ;; update_config (fun g => g <| Config.per_lock_storage_stake := amount |>).

Definition set_per_farm_position_storage_stake (amount : NearToken) : MS unit :=
  assert_owner_payable ;; update_config (fun g => g <| Config.per_farm_position_storage_stake := amount |>).

Definition set_per_purchase_storage_stake (amount : NearToken) : MS unit :=
  assert_owner_payable ;; update_config (fun g => g <| Config.per_purchase_storage_stake := amount |>).

Definition set_lock_bounds (min max : Z) : MS unit :=
  assert_owner_payable ;;
  requireM (min <=? max) "Minimum lock duration cannot exceed maximum lock duration" ;;
  update_config (fun g => g <| Config.min_lock_duration_ns := min |>) ;;
  update_config (fun g => g <| Config.max_lock_duration_ns := max |>).

Definition set_min_lock_amount (amount : NearToken) : MS unit :=
  assert_owner_payable ;;
  lift (require_min_lock_amount_at_protocol_floor amount) ;;
  update_config (fun g => g <| Config.min_lock_amount := amount |>).

Definition set_min_storage_deposit (amount : NearToken) : MS unit :=
  assert_owner_payable ;; update_config (fun g => g <| Config.min_storage_deposit := amount |>).

Definition set_epoch_unstake_settle_epochs (epochs : Z) : MS unit :=
  assert_owner_payable ;; update_config (fun g => g <| Config.epoch_unstake_settle_epochs := epochs |>).

(** ** accounts.rs: prepaid storage *)
Definition required_storage_deposit_yocto (c : Contract) (account : AccountId)
    (extra_locks extra_purchases extra_farm_positions : Z) : Z :=
  let g := config c in
  let total_locks := u128_saturating_add (count (user_lock_count c) account) extra_locks in
  let total_purchases := u128_saturating_add (count (user_purchase_count c) account) extra_purchases in
  let total_farm_positions := u128_saturating_add (count (user_farm_position_count c) account) extra_farm_positions in
  u128_saturating_add
    (u128_saturating_add
       (u128_saturating_add (Config.min_storage_deposit g)
          (u128_saturating_mul (Config.per_lock_storage_stake g) total_locks))
       (u128_saturating_mul (Config.per_purchase_storage_stake g) total_purchases))
    (u128_saturating_mul (Config.per_farm_position_storage_stake g) total_farm_positions).

Definition available_storage_yocto (c : Contract) (account_id : AccountId) (account : Account.t) : Z :=
  saturating_sub (Account.storage_deposit account) (required_storage_deposit_yocto c account_id 0 0 0).

Definition storage_balance_of (c : Contract) (account_id : AccountId) : option StorageBalance.t :=
  account ← accounts c !! account_id;
  Some (StorageBalance.mk (Account.storage_deposit account) (available_storage_yocto c account_id account)).

Definition storage_balance_bounds (c : Contract) : StorageBalanceBounds.t :=
  StorageBalanceBounds.mk (Config.min_storage_deposit (config c)) None.

Definition has_pending_unstake_tranches (c : Contract) (account : AccountId) : bool :=
  0 <? count (user_pending_unstake_validator_count c) account.

Definition has_retained_record_storage (c : Contract) (account : AccountId) : bool :=
  (0 <? count (user_lock_count c) account) ||
  (0 <? count (user_purchase_count c) account) ||
  (0 <? count (user_farm_position_count c) account) ||
  match subscriptions_by_account c !! account with Some ids => negb (bool_decide (ids = [])) | None => false end ||
  match farm_accounts c !! account with Some f => 0 <? FarmAccount.active_position_count f | None => false end ||
  has_pending_unstake_tranches c account.

Definition increment_pending_unstake_validator_count (account : AccountId) : MS unit :=
  c ← get_state;
  next ← lift (checked_op U32_MAX (count (user_pending_unstake_validator_count c) account + 1)
                 "pending unstake validator count overflow");
  put_state (c <| user_pending_unstake_validator_count :=
                    <[account := next]> (user_pending_unstake_validator_count c) |>).

Definition decrement_pending_unstake_validator_count (account : AccountId) : MS unit :=
  modify (fun c =>
    let counts := user_pending_unstake_validator_count c in
    let n := count counts account in
    c <| user_pending_unstake_validator_count :=
           if (n =? 0) || (n =? 1) then delete account counts else <[account := n - 1]> counts |>).

Definition set_user_pending_unstake_tranches (key : AccountId * ValidatorId)
    (tranches : list PendingUnstakeTranche.t) : MS unit :=
  c ← get_state;
  let had_tranches := match user_pending_unstake c !! key with
                      | Some existing => negb (bool_decide (existing = [])) | None => false end in
  let has_tranches := negb (bool_decide (tranches = [])) in
  put_state (c <| user_pending_unstake :=
                    if has_tranches then <[key := tranches]> (user_pending_unstake c)
                    else delete key (user_pending_unstake c) |>) ;;
  match had_tranches, has_tranches with
  | false, true => increment_pending_unstake_validator_count key.1
  | true, false => decrement_pending_unstake_validator_count key.1
  | _, _ => mret tt
  end.

Definition require_registered_account (account_id : AccountId) : MS Account.t :=
  c ← get_state; lift (expect (accounts c !! account_id) "Account not registered; call storage_deposit").

Definition ensure_min_base_storage (account_id : AccountId) : MS unit :=
  account ← require_registered_account account_id; c ← get_state;
  requireM (Config.min_storage_deposit (config c) <=? Account.storage_deposit account)
    "Top up storage (minimum prepaid)".

Definition ensure_min_storage_for_new_lock (account_id : AccountId) : MS unit :=
  account ← require_registered_account account_id; c ← get_state;
  requireM (required_storage_deposit_yocto c account_id 1 0 0 <=? Account.storage_deposit account)
    "Top up storage for another lock".

Definition ensure_min_storage_for_new_purchase (account_id : AccountId) : MS unit :=
  account ← require_registered_account account_id; c ← get_state;
  requireM (required_storage_deposit_yocto c account_id 0 1 0 <=? Account.storage_deposit account)
    "Top up storage for another purchase".

Definition ensure_min_storage_for_new_farm_position (account_id : AccountId) : MS unit :=
  account ← require_registered_account account_id; c ← get_state;
  requireM (required_storage_deposit_yocto c account_id 0 0 1 <=? Account.storage_deposit account)
    "Top up storage for another farm position".

Section storage.
Context `{IS : IdSet}.

Definition internal_set_account (id : AccountId) (account : Account.t) : MS unit :=
modify (fun c => c <| accounts := <[id := account]> (accounts c) |>
         <| account_ids := ids_insert id (account_ids c) |>).

Definition storage_deposit (account_id : option AccountId) (registration_only : option bool) : MS StorageBalance.t :=
assert_not_paused ;;
attached ← asks attached_deposit; predecessor ← asks predecessor_account_id; c ← get_state;
let account_id := default predecessor account_id in
let registration_only := default false registration_only in
let current := accounts c !! account_id in
let current_total := match current with Some a => Account.storage_deposit a | None => 0 end in
let min := StorageBalanceBounds.min (storage_balance_bounds c) in
accepted ← (if registration_only then mret (Z.min (saturating_sub min current_total) attached)
  else requireM (0 <? attached) "Attach NEAR for storage" ;; mret attached);
new_total ← lift (checked_op U128_MAX (current_total + accepted)
          "Storage deposit overflow; reduce the attached amount");
requireM (min <=? new_total) "Attached deposit is less than the minimum storage balance" ;;
internal_set_account account_id (Account.mk new_total) ;;
let refund := saturating_sub attached accepted in
(if 0 <? refund then emit (Detached predecessor refund) else mret tt) ;;
c' ← get_state;
lift (expect (storage_balance_of c' account_id) "Account was just registered").

Definition storage_withdraw (amount : option NearToken) : MS StorageBalance.t :=
assert_one_yocto ;; assert_not_paused ;;
account_id ← asks predecessor_account_id; c ← get_state;
account ← lift (expect (accounts c !! account_id) "Account not registered; call storage_deposit first");
let available := available_storage_yocto c account_id account in
withdraw ← match amount with
 | Some a =>
     requireM (0 <? a) "Withdraw amount must be greater than zero" ;;
     requireM (a <=? available) "Withdraw exceeds available storage" ;;
     mret a
 | None => mret available
 end;
(if withdraw =? 0 then mret tt
else
rest ← lift (checked_op U128_MAX (Account.storage_deposit account - withdraw)
        "Internal error: storage withdraw amount was not bounded correctly");
internal_set_account account_id (Account.mk rest) ;;
emit (Detached account_id withdraw)) ;;
c' ← get_state;
lift (expect (storage_balance_of c' account_id) "Registered account must have a storage balance").

Definition storage_unregister (force : option bool) : MS bool :=
assert_one_yocto ;; assert_not_paused ;;
requireM (negb (default false force)) "Force unregister is not supported" ;;
account_id ← asks predecessor_account_id; c ← get_state;
match accounts c !! account_id with
| None => mret false
| Some account =>
if has_retained_record_storage c account_id then mret false
else
put_state (c <| accounts := delete account_id (accounts c) |>
         <| account_ids := ids_remove account_id (account_ids c) |>) ;;
(if 0 <? Account.storage_deposit account
then emit (Detached account_id (Account.storage_deposit account)) else mret tt) ;;
mret true
end.
End storage.

Definition get_account_ids (c : Contract) (from_index limit : Z) : list AccountId :=
  take (Z.to_nat limit) (drop (Z.to_nat from_index) (account_ids c)).

Definition get_accounts (c : Contract) (from_index limit : Z) : list AccountView.t :=
  omap (fun id => account ← accounts c !! id; Some (AccountView.mk id (Account.storage_deposit account)))
    (get_account_ids c from_index limit).

(** ** validators.rs *)
Definition MAX_VALIDATORS : Z := 1000.
Definition MAX_VALIDATOR_CATALOG_MANAGERS : Z := 16.

Definition internal_set_validator (id : ValidatorId) (v : Validator.t) : MS unit :=
  modify (fun c => c <| validators := <[id := v]> (validators c) |>).

Definition require_validator (id : ValidatorId) : MS Validator.t :=
  c ← get_state; lift (expect (validators c !! id) "Validator not found on the allowlist").

Definition assert_validator_allowlisted (id : ValidatorId) : MS unit :=
  c ← get_state;
  requireM (match validators c !! id with Some _ => true | None => false end) "Validator not found on the allowlist".

Definition assert_validator_active_for_lock (id : ValidatorId) : MS unit :=
  v ← require_validator id;
  requireM (bool_decide (Validator.status v = ValidatorStatus.Active))
    "This validator is paused or removed; new locks are not allowed on it".

Definition assert_validator_idle_for_user_action (v : Validator.t) : MS unit :=
  requireM (bool_decide (Validator.tx_status v = TransactionStatus.Idle))
    "Validator pool is busy; wait for the in-flight pool call to finish".

Definition require_validator_idle (id : ValidatorId) : MS Validator.t :=
  v ← require_validator id; assert_validator_idle_for_user_action v ;; mret v.

Definition assert_validator_busy (v : Validator.t) (msg : string) : MS unit :=
  requireM (bool_decide (Validator.tx_status v = TransactionStatus.Busy)) msg.

Definition require_validator_busy (id : ValidatorId) (msg : string) : MS Validator.t :=
  v ← require_validator id; assert_validator_busy v msg ;; mret v.

Definition add_validator (id : ValidatorId) : MS unit :=
  assert_one_yocto ;; assert_owner ;;
  c ← get_state; now ← asks block_timestamp;
  requireM (match validators c !! id with Some _ => false | None => true end) "Validator already exists" ;;
  requireM (Z.of_nat (length (validator_ids c)) <? MAX_VALIDATORS) "Validator limit reached" ;;
  internal_set_validator id
    (Validator.mk id [] ValidatorStatus.Active 0 0 now 0 0 0 0 0 0 TransactionStatus.Idle) ;;
  modify (fun c => c <| validator_ids := validator_ids c ++ [id] |>) ;;
  emit (SEvent (log_validator_added id)).

Definition pause_validator (id : ValidatorId) : MS unit :=
  assert_one_yocto ;; assert_owner ;;
  v ← require_validator id;
  internal_set_validator id (v <| Validator.status := ValidatorStatus.Paused |>).

Definition remove_validator (id : ValidatorId) : MS unit :=
  assert_one_yocto ;; assert_owner ;;
  v ← require_validator id;
  requireM ((Validator.total_shares v =? 0) && (Validator.pending_to_stake v =? 0) &&
            (Validator.pending_to_unstake v =? 0) && (Validator.pending_to_withdraw v =? 0) &&
            (Validator.pending_to_claim v =? 0))
    "Cannot remove this validator: all stake, pending stake/unstake, and withdraw bucket must be cleared first" ;;
  internal_set_validator id (v <| Validator.status := ValidatorStatus.Removed |>).

Definition get_validators (c : Contract) (from_index limit : Z) : list Validator.t :=
  collect_paginated from_index limit (Z.of_nat (length (validator_ids c)))
    (fun index => id ← validator_ids c !! Z.to_nat index; validators c !! id).

(** After the pool's [get_owner_id]. The SDK panics before the method runs
    when the awaited call failed ([#[callback]]). *)
Definition callback_value (r : option AccountId) : MS AccountId :=
  lift (expect r "Callback computation 0 was not successful").

Definition assert_validator_owner (pool_owner caller : AccountId) : MS unit :=
  ok ← asks is_promise_success;
  requireM ok "Could not read the validator pool owner; try again later" ;;
  assert_not_paused ;;
  requireM (String.eqb pool_owner caller) "Only the validator owner can call this method".

Definition assert_validator_catalog_admin (pool_owner : AccountId) (id : ValidatorId) (caller : AccountId) : MS unit :=
  ok ← asks is_promise_success;
  requireM ok "Could not read the validator pool owner; try again later" ;;
  assert_not_paused ;;
  if String.eqb pool_owner caller then mret tt
  else
    v ← require_validator id;
    requireM (bool_decide (caller ∈ Validator.catalog_manager_account_ids v))
      "Only the validator owner or catalog manager can call this method".

(** Entry of the pool owner's methods: the caller, to be compared with the
    pool's answer. *)
Definition catalog_admin_entry_for_pool (id : ValidatorId) : MS AccountId :=
  assert_one_yocto ;; assert_not_paused ;; assert_validator_allowlisted id ;;
  asks predecessor_account_id.

Definition promise_pool_get_owner_id_then (id : ValidatorId) (tail : PStep) : Promise :=
  then_ [CallPool id GetOwnerId 0 Gas.GET_OWNER_ID] tail.

Definition add_validator_catalog_manager (id : ValidatorId) (manager : AccountId) : MS Promise :=
  caller ← catalog_admin_entry_for_pool id;
  mret (promise_pool_get_owner_id_then id
          (CallSelf (AddValidatorCatalogManagerAfterGetOwner id manager caller) Gas.ON_VALIDATOR_OWNER_CHECK)).

Definition remove_validator_catalog_manager (id : ValidatorId) (manager : AccountId) : MS Promise :=
  caller ← catalog_admin_entry_for_pool id;
  mret (promise_pool_get_owner_id_then id
          (CallSelf (RemoveValidatorCatalogManagerAfterGetOwner id manager caller) Gas.ON_VALIDATOR_OWNER_CHECK)).

Definition add_validator_catalog_manager_after_get_owner (r : option AccountId) (id : ValidatorId)
    (manager expected_caller : AccountId) : MS unit :=
  assert_private ;; pool_owner ← callback_value r;
  assert_validator_owner pool_owner expected_caller ;;
  v ← require_validator id;
  let managers := Validator.catalog_manager_account_ids v in
  if bool_decide (manager ∈ managers) then mret tt
  else
    requireM (Z.of_nat (length managers) <? MAX_VALIDATOR_CATALOG_MANAGERS) "Validator catalog manager limit reached" ;;
    internal_set_validator id (v <| Validator.catalog_manager_account_ids := managers ++ [manager] |>) ;;
    emit (SEvent (log_validator_catalog_manager_add id manager)).

Definition remove_validator_catalog_manager_after_get_owner (r : option AccountId) (id : ValidatorId)
    (manager expected_caller : AccountId) : MS unit :=
  assert_private ;; pool_owner ← callback_value r;
  assert_validator_owner pool_owner expected_caller ;;
  v ← require_validator id;
  let managers := Validator.catalog_manager_account_ids v in
  let kept := filter (fun m => m <> manager) managers in
  if (length kept =? length managers)%nat then mret tt
  else
    internal_set_validator id (v <| Validator.catalog_manager_account_ids := kept |>) ;;
    emit (SEvent (log_validator_catalog_manager_remove id manager)).

(** ** validators.rs: stake accounting *)
Definition validator_unstake_waiting_finished (e : Env) (c : Contract) (v : Validator.t) : bool :=
  (0 <? Validator.last_unstake_epoch v) &&
  (u64_saturating_add (Validator.last_unstake_epoch v) (Config.epoch_unstake_settle_epochs (config c)) <=? epoch_height e).

Definition pending_unstake_tranche_available_epoch_height (e : Env) (c : Contract) (v : Validator.t) : Z :=
  let settle := Config.epoch_unstake_settle_epochs (config c) in
  let next_epoch_height := u64_saturating_add (epoch_height e) 1 in
  let unstake_start_epoch := Z.max next_epoch_height (u64_saturating_add (Validator.last_unstake_epoch v) settle) in
  u64_saturating_add unstake_start_epoch settle.

Definition internal_stake (buyer : AccountId) (id : ValidatorId) (deposit : NearToken) : MS Z :=
  v ← require_validator id;
  let net_stake := Validator.net_stake_yocto v in
  let total := Validator.total_shares v in
  (if 0 <? total
   then requireM (0 <? net_stake) "No effective stake for share minting; wait for balance refresh or settlement"
   else mret tt) ;;
  new_shares ← lift (mint_shares total net_stake deposit);
  pending ← lift (checked_op U128_MAX (Validator.pending_to_stake v + deposit)
                    "pending_to_stake overflow when recording this lock");
  let v' := v <| Validator.total_shares := u128_saturating_add total new_shares |>
              <| Validator.pending_to_stake := pending |> in
  c ← get_state;
  let before := count (user_validator_shares c) (buyer, id) in
  put_state (c <| user_validator_shares :=
                    <[(buyer, id) := u128_saturating_add before new_shares]> (user_validator_shares c) |>) ;;
  internal_set_validator id v' ;;
  mret new_shares.

Definition internal_unstake (account : AccountId) (id : ValidatorId) (shares_remove : Z) : MS Z :=
  requireM (0 <? shares_remove) "Cannot exit shares: amount must be greater than zero" ;;
  v ← require_validator id;
  let total := Validator.total_shares v in
  requireM ((0 <? total) && (shares_remove <=? total))
    "Cannot exit shares: validator pool has no shares or amount exceeds pool total" ;;
  let net_stake := Validator.net_stake_yocto v in
  requireM (0 <? net_stake)
    "Cannot price this exit: no effective stake left for remaining shares; wait for stake or withdraw steps to finish, then retry" ;;
  near_amt ← lift (near_from_shares shares_remove net_stake total);
  pending ← lift (checked_op U128_MAX (Validator.pending_to_unstake v + near_amt) "pending_to_unstake overflow");
  let v' := v <| Validator.total_shares := total - shares_remove |> <| Validator.pending_to_unstake := pending |> in
  c ← get_state; e ← asks (fun e => e);
  let key := (account, id) in
  let user_shares := count (user_validator_shares c) key in
  requireM (shares_remove <=? user_shares)
    "Cannot exit shares: account does not hold enough shares on this validator" ;;
  put_state (c <| user_validator_shares :=
                    if user_shares =? shares_remove then delete key (user_validator_shares c)
                    else <[key := user_shares - shares_remove]> (user_validator_shares c) |>) ;;
  let available := pending_unstake_tranche_available_epoch_height e c v' in
  set_user_pending_unstake_tranches key
    (default [] (user_pending_unstake c !! key) ++ [PendingUnstakeTranche.mk near_amt available]) ;;
  internal_set_validator id v' ;;
  mret near_amt.
