(* ===== verification/StakingCatalog.v ===== *)
(** * The staking contract: catalog and payments

    [products.rs], [prices.rs], [payments.rs] and the reward accumulators of
    [stake.rs] that price changes settle. The methods of the pool's owner
    first ask the pool for its owner and act in the callback. *)
From stdpp Require Import base gmap strings list.
From Stdlib Require Import ZArith Lia.
From S2P Require Import Prelude.
From S2P Require Import Near.
From S2P Require Import MerkleTree.
From S2P Require Import StakingTypes.
From S2P Require Import StakingMath.
From S2P Require Import StakingContract.

Local Open Scope Z_scope.
Local Open Scope record_scope.

(** ** products.rs, prices.rs: reading and writing the catalog *)
Definition internal_set_product (id : ProductId) (p : Product.t) : MS unit :=
  modify (fun c => c <| products := <[id := p]> (products c) |>).

Definition internal_set_price (id : PriceId) (p : Price.t) : MS unit :=
  modify (fun c => c <| prices := <[id := p]> (prices c) |>).

Definition find_product (c : Contract) (id : ProductId) : result Product.t :=
  expect (products c !! id) "Product not found in the catalog".

Definition find_price (c : Contract) (id : PriceId) : result Price.t :=
  expect (prices c !! id) "Price not found in the catalog".

Definition require_product (id : ProductId) : MS Product.t := c ← get_state; lift (find_product c id).
Definition require_price (id : PriceId) : MS Price.t := c ← get_state; lift (find_price c id).

Definition require_price_and_product (id : PriceId) : MS (Price.t * Product.t) :=
  price ← require_price id; product ← require_product (Price.product_id price); mret (price, product).

Definition get_active_price_and_product (id : PriceId) : MS (Price.t * Product.t) :=
  price ← require_price id;
  requireM (bool_decide (Price.status price = CatalogStatus.Active)) "This price is not active; pick an active price" ;;
  product ← require_product (Price.product_id price);
  requireM (bool_decide (Product.status product = CatalogStatus.Active))
    "This product is not active; pick an active product" ;;
  mret (price, product).

Definition require_recurring_monthly_price (price : Price.t) : MS unit :=
  requireM (bool_decide (Price.price_type price = PriceType.Recurring))
    "This price is not a recurring subscription price" ;;
  requireM (bool_decide (Price.billing_period price = Some BillingPeriod.Monthly)) "Only monthly billing is supported".

Definition max_amount_of (m : option PriceMetadata.t) : option Z := md ← m; PriceMetadata.max_amount md.
Definition farm_reward_rate_of (m : option PriceMetadata.t) : option Z := md ← m; PriceMetadata.farm_reward_rate md.

(** subscriptions.rs: no pending update of a subscription names the entry. *)
Definition assert_no_pending_update_references_price (id : PriceId) : MS unit :=
  c ← get_state;
  requireM (count (pending_update_target_price_counts c) id =? 0)
    "Cannot archive or delete this price while it is referenced by a pending subscription update".

Definition assert_no_pending_update_references_product (id : ProductId) : MS unit :=
  c ← get_state;
  requireM (count (pending_update_target_product_counts c) id =? 0)
    "Cannot archive or delete this product while it is referenced by a pending subscription update".

Definition clear_product_default_price_field_if_matches (product_id : ProductId) (price_id : PriceId) : MS unit :=
  c ← get_state;
  match products c !! product_id with
  | None => mret tt
  | Some product =>
      if bool_decide (Product.default_price_id product = Some price_id)
      then internal_set_product product_id (product <| Product.default_price_id := None |>)
      else mret tt
  end.

(** ** stake.rs: reward accumulators *)
Definition internal_set_farm_pool (id : PriceId) (pool : FarmPool.t) : MS unit :=
  modify (fun c => c <| farm_pools := <[id := pool]> (farm_pools c) |>).

Definition find_farm_pool (c : Contract) (id : PriceId) : result FarmPool.t :=
  expect (farm_pools c !! id) "Farm pool not found".

Definition require_farm_pool (id : PriceId) : MS FarmPool.t := c ← get_state; lift (find_farm_pool c id).

Definition find_validator (c : Contract) (id : ValidatorId) : result Validator.t :=
  expect (validators c !! id) "Validator not found on the allowlist".

Definition simulate_settled_farm_pool (e : Env) (c : Contract) (pool : FarmPool.t) : result FarmPool.t :=
  let now_ns := block_timestamp e in
  if now_ns <=? FarmPool.last_reward_settle_ns pool then Ok pool
  else if FarmPool.total_farm_shares pool =? 0 then Ok (pool <| FarmPool.last_reward_settle_ns := now_ns |>)
  else
    product ← find_product c (FarmPool.product_id pool);
    v ← find_validator c (Product.validator_id product);
    total_farm_near ← near_from_shares (FarmPool.total_farm_shares pool) (Validator.net_stake_yocto v)
                        (Validator.total_shares v);
    delta ← farm_delta_reward_units total_farm_near (saturating_sub now_ns (FarmPool.last_reward_settle_ns pool))
              (FarmPool.reward_rate pool);
    acc ← (if 0 <? delta
           then num ← u256_mul delta FARM_ACC_REWARD_PER_SHARE_DENOM;
                delta_acc ← as_u128 (num / FarmPool.total_farm_shares pool);
                mret (u128_saturating_add (FarmPool.acc_reward_per_share pool) delta_acc)
           else mret (FarmPool.acc_reward_per_share pool));
    mret (pool <| FarmPool.acc_reward_per_share := acc |> <| FarmPool.last_reward_settle_ns := now_ns |>).

Definition settle_farm_pool (price_id : PriceId) : MS unit :=
  pool ← require_farm_pool price_id;
  c ← get_state; e ← asks (fun e => e);
  settled ← lift (simulate_settled_farm_pool e c pool);
  internal_set_farm_pool price_id settled.

Definition require_no_active_farm_price_for_product (product : Product.t) : MS unit :=
  c ← get_state;
  for_each (Product.price_ids product) (fun price_id =>
    match prices c !! price_id with
    | Some price =>
        requireM (negb (bool_decide (Price.price_type price = PriceType.Farm)) ||
                  negb (bool_decide (Price.status price = CatalogStatus.Active)))
          "Product already has an active farm price"
    | None => mret tt
    end).

(** ** Entries of the catalog administration *)
Definition promise_catalog_admin_on_pool (id : ValidatorId) (tail : AccountId -> SelfCall) : MS Promise :=
  caller ← catalog_admin_entry_for_pool id;
  mret (promise_pool_get_owner_id_then id (CallSelf (tail caller) Gas.ON_VALIDATOR_OWNER_CHECK)).

Definition promise_catalog_admin_on_product (id : ProductId) (tail : AccountId -> SelfCall) : MS Promise :=
  product ← require_product id;
  caller ← catalog_admin_entry_for_pool (Product.validator_id product);
  mret (promise_pool_get_owner_id_then (Product.validator_id product)
          (CallSelf (tail caller) Gas.ON_VALIDATOR_OWNER_CHECK)).

Definition promise_catalog_admin_on_price (id : PriceId) (tail : AccountId -> SelfCall) : MS Promise :=
  '(_, product) ← require_price_and_product id;
  caller ← catalog_admin_entry_for_pool (Product.validator_id product);
  mret (promise_pool_get_owner_id_then (Product.validator_id product)
          (CallSelf (tail caller) Gas.ON_VALIDATOR_OWNER_CHECK)).

(** ** products.rs *)
Definition create_product (id : ValidatorId) (name description : string) : MS Promise :=
  promise_catalog_admin_on_pool id (CreateProductAfterGetOwner id name description).
Definition edit_product (id : ProductId) (name description : string) : MS Promise :=
  promise_catalog_admin_on_product id (EditProductAfterGetOwner id name description).
Definition archive_product (id : ProductId) : MS Promise :=
  promise_catalog_admin_on_product id (ArchiveProductAfterGetOwner id).
Definition delete_product (id : ProductId) : MS Promise :=
  promise_catalog_admin_on_product id (DeleteProductAfterGetOwner id).
Definition unarchive_product (id : ProductId) : MS Promise :=
  promise_catalog_admin_on_product id (UnarchiveProductAfterGetOwner id).
Definition set_product_default_price (id : ProductId) (price_id : option PriceId) : MS Promise :=
  promise_catalog_admin_on_product id (SetProductDefaultPriceAfterGetOwner id price_id).

Definition edit_product_after_get_owner (r : option AccountId) (id : ProductId) (name description : string)
    (expected_caller : AccountId) : MS unit :=
  assert_private ;; pool_owner ← callback_value r;
  product ← require_product id;
  assert_validator_catalog_admin pool_owner (Product.validator_id product) expected_caller ;;
  internal_set_product id (product <| Product.name := name |> <| Product.description := description |>).

Definition archive_product_after_get_owner (r : option AccountId) (id : ProductId) (expected_caller : AccountId) : MS unit :=
  assert_private ;; pool_owner ← callback_value r;
  product ← require_product id;
  assert_validator_catalog_admin pool_owner (Product.validator_id product) expected_caller ;;
  assert_no_pending_update_references_product id ;;
  internal_set_product id (product <| Product.default_price_id := None |> <| Product.status := CatalogStatus.Archived |>).

(** [remove_product_id_from_list] drops the first occurrence. *)
Fixpoint remove_first (id : string) (l : list string) : list string :=
  match l with
  | [] => []
  | x :: l' => if String.eqb x id then l' else x :: remove_first id l'
  end.

Definition remove_product_id_from_list (id : ProductId) : MS unit :=
  modify (fun c => c <| product_ids := remove_first id (product_ids c) |>).

Definition delete_product_after_get_owner (r : option AccountId) (id : ProductId) (expected_caller : AccountId) : MS unit :=
  assert_private ;; pool_owner ← callback_value r;
  product ← require_product id;
  assert_validator_catalog_admin pool_owner (Product.validator_id product) expected_caller ;;
  requireM (Product.usage_count product =? 0) "Cannot delete this product while it is in use" ;;
  assert_no_pending_update_references_product id ;;
  requireM (bool_decide (Product.price_ids product = [])) "Remove or delete all prices for this product first" ;;
  remove_product_id_from_list id ;;
  modify (fun c => c <| products := delete id (products c) |>).

Definition unarchive_product_after_get_owner (r : option AccountId) (id : ProductId) (expected_caller : AccountId) : MS unit :=
  assert_private ;; pool_owner ← callback_value r;
  product ← require_product id;
  assert_validator_catalog_admin pool_owner (Product.validator_id product) expected_caller ;;
  requireM (bool_decide (Product.status product = CatalogStatus.Archived)) "Product is not archived" ;;
  internal_set_product id (product <| Product.status := CatalogStatus.Active |>).

Definition set_product_default_price_after_get_owner (r : option AccountId) (id : ProductId) (price_id : option PriceId)
    (expected_caller : AccountId) : MS unit :=
  assert_private ;; pool_owner ← callback_value r;
  product ← require_product id;
  assert_validator_catalog_admin pool_owner (Product.validator_id product) expected_caller ;;
  requireM (bool_decide (Product.status product = CatalogStatus.Active)) "This product is archived or inactive" ;;
  match price_id with
  | None => internal_set_product id (product <| Product.default_price_id := None |>)
  | Some pid =>
      price ← require_price pid;
      requireM (String.eqb (Price.product_id price) id) "Price does not belong to this product" ;;
      requireM (bool_decide (Price.status price = CatalogStatus.Active))
        "Only an active (unarchived) price can be the default" ;;
      requireM (bool_decide (pid ∈ Product.price_ids product)) "Price not listed on product" ;;
      internal_set_product id (product <| Product.default_price_id := Some pid |>)
  end.

Definition get_product_default_price (c : Contract) (id : ProductId) : option PriceId :=
  product ← products c !! id; Product.default_price_id product.

Definition get_products (c : Contract) (from_index limit : Z) : list Product.t :=
  collect_paginated from_index limit (Z.of_nat (length (product_ids c)))
    (fun index => id ← product_ids c !! Z.to_nat index; products c !! id).

(** ** prices.rs *)
Definition create_price (product_id : ProductId) (name description : string) (amount : Z) (price_type : PriceType.t)
    (billing_period : option BillingPeriod.t) (lock_factor : Z) (metadata : option PriceMetadata.t) : MS Promise :=
  promise_catalog_admin_on_product product_id
    (CreatePriceAfterGetOwner product_id name description amount price_type billing_period lock_factor metadata).
Definition edit_price (id : PriceId) (name description : option string) (metadata : option PriceMetadata.t) : MS Promise :=
  promise_catalog_admin_on_price id (EditPriceAfterGetOwner id name description metadata).
Definition archive_price (id : PriceId) : MS Promise :=
  promise_catalog_admin_on_price id (ArchivePriceAfterGetOwner id).
Definition unarchive_price (id : PriceId) : MS Promise :=
  promise_catalog_admin_on_price id (UnarchivePriceAfterGetOwner id).
Definition delete_price (id : PriceId) : MS Promise :=
  promise_catalog_admin_on_price id (DeletePriceAfterGetOwner id).

Definition max_amount_error : string := "Price max_amount must be greater than or equal to amount".

Definition validate_price_fields (price_type : PriceType.t) (billing_period : option BillingPeriod.t)
    (lock_factor amount : Z) (metadata : option PriceMetadata.t) : MS unit :=
  c ← get_state;
  match max_amount_of metadata with
  | Some m => requireM (amount <=? m) max_amount_error
  | None => mret tt
  end ;;
  match price_type with
  | PriceType.OneOff =>
      requireM (bool_decide (billing_period = None)) "One-off price must not set billing_period" ;;
      requireM (bool_decide (farm_reward_rate_of metadata = None)) "farm_reward_rate is only valid for Farm prices"
  | PriceType.Recurring =>
      requireM (bool_decide (billing_period = Some BillingPeriod.Monthly))
        "Recurring price must use monthly billing_period" ;;
      requireM (bool_decide (farm_reward_rate_of metadata = None)) "farm_reward_rate is only valid for Farm prices"
  | PriceType.Farm =>
      requireM (bool_decide (billing_period = None)) "Farm price must not set billing_period" ;;
      requireM (lock_factor =? 0) "Farm price lock_factor_near_months must be zero" ;;
      requireM (Config.min_lock_amount (config c) <=? amount) "Farm price amount is below min_lock_amount" ;;
      requireM (bool_decide (is_Some (farm_reward_rate_of metadata))) "Farm price requires farm_reward_rate"
  end.

Definition edit_price_after_get_owner (r : option AccountId) (id : PriceId) (name description : option string)
    (metadata : option PriceMetadata.t) (expected_caller : AccountId) : MS unit :=
  assert_private ;; pool_owner ← callback_value r;
  price ← require_price id;
  product ← require_product (Price.product_id price);
  assert_validator_catalog_admin pool_owner (Product.validator_id product) expected_caller ;;
  let price := price <| Price.name := default (Price.name price) name |>
                     <| Price.description := default (Price.description price) description |> in
  price ← match metadata with
          | None => mret price
          | Some md =>
              match Price.price_type price with
              | PriceType.Farm =>
                  match PriceMetadata.max_amount md with
                  | Some m => requireM (Price.amount price <=? m) max_amount_error
                  | None => mret tt
                  end ;;
                  let old_rate := farm_reward_rate_of (Price.metadata price) in
                  new_rate ← match PriceMetadata.farm_reward_rate md with
                             | Some rate => mret rate
                             | None => lift (expect old_rate "Farm price must have a reward rate")
                             end;
                  (if bool_decide (Some new_rate = old_rate) then mret tt
                   else
                     settle_farm_pool id ;;
                     pool ← require_farm_pool id;
                     internal_set_farm_pool id (pool <| FarmPool.reward_rate := new_rate |>) ;;
                     emit (SEvent (log_farm_reward_rate_update id new_rate))) ;;
                  mret (price <| Price.metadata := Some (PriceMetadata.mk (PriceMetadata.max_amount md) (Some new_rate)) |>)
              | PriceType.OneOff | PriceType.Recurring =>
                  requireM (bool_decide (PriceMetadata.farm_reward_rate md = None))
                    "farm_reward_rate is only valid for Farm prices" ;;
                  match PriceMetadata.max_amount md with
                  | Some m => requireM (Price.amount price <=? m) max_amount_error
                  | None => mret tt
                  end ;;
                  mret (price <| Price.metadata := Some md |>)
              end
          end;
  internal_set_price id price.

Definition archive_price_after_get_owner (r : option AccountId) (id : PriceId) (expected_caller : AccountId) : MS unit :=
  assert_private ;; pool_owner ← callback_value r;
  price ← require_price id;
  product ← require_product (Price.product_id price);
  assert_validator_catalog_admin pool_owner (Product.validator_id product) expected_caller ;;
  assert_no_pending_update_references_price id ;;
  (if bool_decide (Price.price_type price = PriceType.Farm)
   then pool ← require_farm_pool id;
        requireM (FarmPool.total_farm_shares pool =? 0) "Cannot archive a farm price while it has active stake"
   else mret tt) ;;
  internal_set_price id (price <| Price.status := CatalogStatus.Archived |>) ;;
  clear_product_default_price_field_if_matches (Price.product_id price) id.

Definition delete_price_after_get_owner (r : option AccountId) (id : PriceId) (expected_caller : AccountId) : MS unit :=
  assert_private ;; pool_owner ← callback_value r;
  price ← require_price id;
  product ← require_product (Price.product_id price);
  assert_validator_catalog_admin pool_owner (Product.validator_id product) expected_caller ;;
  requireM (Price.usage_count price =? 0) "Cannot delete this price while it is in use" ;;
  c ← get_state;
  (if bool_decide (Price.price_type price = PriceType.Farm)
   then match farm_pools c !! id with
        | Some pool =>
            requireM (FarmPool.total_farm_shares pool =? 0) "Cannot delete a farm price while it has active stake" ;;
            modify (fun c => c <| farm_pools := delete id (farm_pools c) |>)
        | None => mret tt
        end
   else mret tt) ;;
  assert_no_pending_update_references_price id ;;
  internal_set_product (Price.product_id price)
    (product <| Product.price_ids := filter (fun x => x <> id) (Product.price_ids product) |>) ;;
  modify (fun c => c <| prices := delete id (prices c) |>) ;;
  clear_product_default_price_field_if_matches (Price.product_id price) id.

Definition unarchive_price_after_get_owner (r : option AccountId) (id : PriceId) (expected_caller : AccountId) : MS unit :=
  assert_private ;; pool_owner ← callback_value r;
  price ← require_price id;
  product ← require_product (Price.product_id price);
  assert_validator_catalog_admin pool_owner (Product.validator_id product) expected_caller ;;
  requireM (bool_decide (Price.status price = CatalogStatus.Archived)) "Price is not archived" ;;
  (if bool_decide (Price.price_type price = PriceType.Farm)
   then require_no_active_farm_price_for_product product else mret tt) ;;
  internal_set_price id (price <| Price.status := CatalogStatus.Active |>).

(** ** lock.rs: which price a lock or a payment is for *)
Definition resolve_price_id_for_lock (price_id : option PriceId) (product_id : option ProductId) : MS PriceId :=
  c ← get_state;
  match price_id, product_id with
  | Some pid, None => mret pid
  | None, Some prod_id =>
      pr_id ← lift (expect (product ← products c !! prod_id; Product.default_price_id product)
                      "No default price for this product");
      pr ← require_price pr_id;
      requireM (String.eqb (Price.product_id pr) prod_id) "Default price does not belong to this product" ;;
      mret pr_id
  | Some _, Some _ => panicM "Provide only one of price_id or product_id"
  | None, None => panicM "Provide price_id or product_id"
  end.

Section creating.
Context `{HC : Crypto}.

(** An id that no entry of the map has. *)
Definition fresh_id (next : Env -> Z -> result (string * Z)) (taken : Contract -> string -> bool) (msg : string) : MS string :=
e ← asks (fun e => e); c ← get_state;
x ← lift (next_unique_generated_id (next e) (taken c) msg (id_nonce c));
put_state (c <| id_nonce := x.2 |>) ;;
mret x.1.

Definition next_unique_product_id : MS ProductId :=
fresh_id next_product_id (fun c id => bool_decide (is_Some (products c !! id)))
"Could not allocate a unique product id; try again".
Definition next_unique_price_id : MS PriceId :=
fresh_id next_price_id (fun c id => bool_decide (is_Some (prices c !! id)))
"Could not allocate a unique price id; try again".
Definition next_unique_purchase_id : MS PurchaseId :=
fresh_id next_purchase_id (fun c id => bool_decide (is_Some (purchases c !! id)))
"Could not allocate a unique purchase id; try again".

Definition create_product_after_get_owner (r : option AccountId) (validator_id : ValidatorId) (name description : string)
(expected_caller : AccountId) : MS ProductId :=
assert_private ;; pool_owner ← callback_value r;
assert_validator_catalog_admin pool_owner validator_id expected_caller ;;
id ← next_unique_product_id; now ← asks block_timestamp;
internal_set_product id (Product.mk id validator_id name description CatalogStatus.Active now [] None 0) ;;
modify (fun c => c <| product_ids := product_ids c ++ [id] |>) ;;
emit (SEvent (log_product_created id validator_id)) ;;
mret id.

Definition create_price_after_get_owner (r : option AccountId) (product_id : ProductId) (name description : string)
(amount : Z) (price_type : PriceType.t) (billing_period : option BillingPeriod.t) (lock_factor : Z)
(metadata : option PriceMetadata.t) (expected_caller : AccountId) : MS PriceId :=
assert_private ;; pool_owner ← callback_value r;
product ← require_product product_id;
assert_validator_catalog_admin pool_owner (Product.validator_id product) expected_caller ;;
requireM (bool_decide (Product.status product = CatalogStatus.Active)) "This product is archived or inactive" ;;
validate_price_fields price_type billing_period lock_factor amount metadata ;;
(if bool_decide (price_type = PriceType.Farm)
then require_no_active_farm_price_for_product product else mret tt) ;;
id ← next_unique_price_id; now ← asks block_timestamp;
internal_set_price id (Price.mk id product_id name description amount price_type billing_period lock_factor metadata
               CatalogStatus.Active 0) ;;
(if bool_decide (price_type = PriceType.Farm)
then rate ← lift (expect (farm_reward_rate_of metadata) "Farm price metadata must contain farm_reward_rate");
internal_set_farm_pool id (FarmPool.mk id product_id rate 0 0 now)
else mret tt) ;;
internal_set_product product_id (product <| Product.price_ids := Product.price_ids product ++ [id] |>) ;;
mret id.

(** ** payments.rs *)
Definition push_index {K} `{Countable K} (m : gmap K (list string)) (k : K) (id : string) : gmap K (list string) :=
<[k := default [] (m !! k) ++ [id]]> m.

Definition add_revenue_to_validator (id : ValidatorId) (amount : NearToken) : MS unit :=
c ← get_state;
next ← lift (checked_op U128_MAX (count (revenue_by_validator c) id + amount)
     "Validator revenue overflow; reduce payment amount");
put_state (c <| revenue_by_validator := <[id := next]> (revenue_by_validator c) |>).

Definition pay (price_id : option PriceId) (product_id : option ProductId) (quantity : Z) : MS PurchaseId :=
assert_not_paused ;;
requireM (0 <? quantity) "Quantity must be greater than zero" ;;
buyer ← asks predecessor_account_id;
ensure_min_storage_for_new_purchase buyer ;;
resolved ← resolve_price_id_for_lock price_id product_id;
'(price, product) ← get_active_price_and_product resolved;
assert_validator_active_for_lock (Product.validator_id product) ;;
requireM (bool_decide (Price.price_type price = PriceType.OneOff)) "This price is not a one-off product price" ;;
requireM (bool_decide (Price.billing_period price = None)) "One-off price must not set billing_period" ;;
expected ← lift (checked_op U128_MAX (Price.amount price * quantity) "Payment amount overflow; reduce the quantity");
paid ← asks attached_deposit; now ← asks block_timestamp;
requireM (paid =? expected) "Attached deposit must equal price amount times quantity" ;;
id ← next_unique_purchase_id;
modify (fun c => c <| purchases := <[id := Purchase.mk id buyer (Product.product_id product) (Price.price_id price)
                                   quantity paid now]> (purchases c) |>
         <| purchase_ids := purchase_ids c ++ [id] |>
         <| purchases_by_account := push_index (purchases_by_account c) buyer id |>
         <| purchases_by_product := push_index (purchases_by_product c) (Product.product_id product) id |>
         <| user_purchase_count := <[buyer := u32_saturating_add (count (user_purchase_count c) buyer) 1]>
                                     (user_purchase_count c) |>) ;;
add_revenue_to_validator (Product.validator_id product) paid ;;
internal_set_price (Price.price_id price)
(price <| Price.usage_count := u64_saturating_add (Price.usage_count price) 1 |>) ;;
internal_set_product (Product.product_id product)
(product <| Product.usage_count := u64_saturating_add (Product.usage_count product) 1 |>) ;;
emit (SEvent (log_payment_create id buyer (Product.product_id product) (Price.price_id price) quantity paid)) ;;
mret id.
End creating.

Definition withdraw_revenue (id : ValidatorId) : MS Promise :=
  assert_one_yocto ;; assert_not_paused ;;
  caller ← catalog_admin_entry_for_pool id;
  mret (promise_pool_get_owner_id_then id (CallSelf (WithdrawRevenueAfterGetOwner id caller) Gas.ON_VALIDATOR_OWNER_CHECK)).

Definition withdraw_revenue_after_get_owner (r : option AccountId) (id : ValidatorId) (expected_caller : AccountId) : MS Promise :=
  assert_private ;; pool_owner ← callback_value r;
  assert_validator_owner pool_owner expected_caller ;;
  c ← get_state;
  let balance := count (revenue_by_validator c) id in
  requireM (0 <? balance) "No revenue available to withdraw" ;;
  put_state (c <| revenue_by_validator := <[id := 0]> (revenue_by_validator c) |>) ;;
  emit (SEvent (log_revenue_withdraw id pool_owner balance)) ;;
  mret [TransferTo pool_owner balance].

Definition get_purchases (c : Contract) (from_index limit : Z) : list Purchase.t :=
  collect_paginated from_index limit (Z.of_nat (length (purchase_ids c)))
    (fun index => id ← purchase_ids c !! Z.to_nat index; purchases c !! id).

Definition get_purchases_for_account (c : Contract) (account : AccountId) (from_index limit : Z) : list Purchase.t :=
  match purchases_by_account c !! account with
  | None => []
  | Some ids => collect_paginated from_index limit (Z.of_nat (length ids))
                  (fun index => id ← ids !! Z.to_nat index; purchases c !! id)
  end.

Definition get_purchases_for_product (c : Contract) (product : ProductId) (from_index limit : Z) : list Purchase.t :=
  match purchases_by_product c !! product with
  | None => []
  | Some ids => collect_paginated from_index limit (Z.of_nat (length ids))
                  (fun index => id ← ids !! Z.to_nat index; purchases c !! id)
  end.

Definition get_revenue_balance_for_validator (c : Contract) (id : ValidatorId) : NearToken :=
  count (revenue_by_validator c) id.
