(* ===== verification/StakingEpoch.v ===== *)
(** * The staking contract: the epoch pipeline ([epoch.rs])

    Every user action on a validator pool first settles the pool for the
    current epoch: read the balances, withdraw what is unstaked, then at most
    one deposit or unstake. The steps are callbacks of each other; the pool is
    [Busy] from the entry to the release. *)
From stdpp Require Import base gmap strings list.
From Stdlib Require Import ZArith Lia.
From S2P Require Import Prelude.
From S2P Require Import Near.
From S2P Require Import StakingTypes.
From S2P Require Import StakingMath.
From S2P Require Import StakingContract.

Local Open Scope Z_scope.
Local Open Scope record_scope.

Definition log_epoch (action : string) (id : ValidatorId) : MS unit := emit (SEvent (log_epoch_operation action id)).

(** ** Pipeline 6: release *)
Definition release_validator_pool_pipeline (id : ValidatorId) : MS unit :=
  v ← require_validator id;
  internal_set_validator id (v <| Validator.tx_status := TransactionStatus.Idle |>).

Definition refund_payable_pipeline (id : ValidatorId) (buyer : AccountId) (amount : NearToken) : MS Promise :=
  release_validator_pool_pipeline id ;;
  log_epoch "epoch_payable_pipeline_refund" id ;;
  mret [TransferTo buyer amount].

Definition on_epoch_pipeline_terminal_release (id : ValidatorId) : MS unit :=
  assert_private ;; release_validator_pool_pipeline id.

(** The result of the tail is [None] when it failed. *)
Definition on_epoch_pipeline_release_with_lock_id (r : option LockId) (id : ValidatorId) (cont : UserAction.t)
    : MS (PromiseOrValue LockId) :=
  assert_private ;;
  match r with
  | Some lock_id => release_validator_pool_pipeline id ;; mret (Value lock_id)
  | None =>
      log_epoch "epoch_lock_pipeline_tail_failed" id ;;
      '(buyer, amount) ← lift (expect (UserAction.payable_refund cont) "WithLockId continuation must be payable");
      p ← refund_payable_pipeline id buyer amount;
      mret (Returned p)
  end.

Definition on_epoch_pipeline_release_with_farm_position (r : option FarmPosition.t) (id : ValidatorId)
    (cont : UserAction.t) : MS (PromiseOrValue FarmPosition.t) :=
  assert_private ;;
  match r with
  | Some position => release_validator_pool_pipeline id ;; mret (Value position)
  | None =>
      log_epoch "epoch_farm_stake_pipeline_tail_failed" id ;;
      '(buyer, amount) ← lift (expect (UserAction.payable_refund cont) "farm stake continuation must be payable");
      p ← refund_payable_pipeline id buyer amount;
      mret (Returned p)
  end.

Definition on_epoch_pipeline_release_with_subscription_update_outcome
    (r : option SubscriptionPlanChangeOutcome.t) (id : ValidatorId) (cont : UserAction.t)
    : MS (PromiseOrValue SubscriptionPlanChangeOutcome.t) :=
  assert_private ;;
  match r with
  | Some outcome => release_validator_pool_pipeline id ;; mret (Value outcome)
  | None =>
      log_epoch "epoch_subscription_update_pipeline_tail_failed" id ;;
      '(buyer, amount) ← lift (expect (UserAction.payable_refund cont)
                                 "subscription update continuation must be payable");
      p ← refund_payable_pipeline id buyer amount;
      mret (Returned p)
  end.

(** ** Pipeline 4: the user's action, then the release *)
Inductive ReleaseKind : Type := Terminal | WithLockId | WithSubscriptionUpdateOutcome | WithFarmPosition.

Definition release_step (kind : ReleaseKind) (id : ValidatorId) (cont : UserAction.t) : PStep :=
  match kind with
  | Terminal => CallSelf (OnEpochPipelineTerminalRelease id) Gas.ON_EPOCH_PIPELINE_TERMINAL_RELEASE
  | WithLockId =>
      CallSelf (OnEpochPipelineReleaseWithLockId id cont) Gas.ON_EPOCH_PIPELINE_RELEASE_WITH_LOCK_ID
  | WithSubscriptionUpdateOutcome =>
      CallSelf (OnEpochPipelineReleaseWithSubscriptionUpdateOutcome id cont)
        Gas.ON_EPOCH_PIPELINE_RELEASE_WITH_SUBSCRIPTION_UPDATE_OUTCOME
  | WithFarmPosition =>
      CallSelf (OnEpochPipelineReleaseWithFarmPosition id cont) Gas.ON_EPOCH_PIPELINE_RELEASE_WITH_FARM_POSITION
  end.

(** The promise [on_epoch_settlement_dispatch_continue] builds; it reads and
    changes no state. [None] is the early return of [SettleOnly]. *)
Definition tail_of (cont : UserAction.t) : option (PStep * ReleaseKind) :=
  match cont with
  | UserAction.CommitLock v buyer locked duration_ns order =>
      Some (CallSelf (ResolveLock buyer locked duration_ns order v) Gas.ON_LOCK_FINALLY_MINT, WithLockId)
  | UserAction.CommitRecurringSubscriptionLock v buyer locked price_id =>
      Some (CallSelf (ResolveRecurringSubscriptionLockAfterSettle buyer locked price_id v) Gas.ON_LOCK_FINALLY_MINT,
            WithLockId)
  | UserAction.SubscriptionUpdate v buyer deposit target_price_id target_amount subscription_id =>
      Some (CallSelf (OnSubscriptionUpdateAfterSettle buyer deposit target_price_id target_amount subscription_id v)
              Gas.ON_SUBSCRIPTION_UPDATE_AFTER_SETTLE, WithSubscriptionUpdateOutcome)
  | UserAction.CommitFarmStake v account deposit product_id price_id =>
      Some (CallSelf (ResolveFarmStake account deposit product_id price_id v) Gas.ON_FARM_STAKE_AFTER_SETTLE,
            WithFarmPosition)
  | UserAction.FarmUnstakeQueue v account product_id amount =>
      Some (CallSelf (ResolveFarmUnstake account product_id v amount) Gas.ON_FARM_UNSTAKE_AFTER_SETTLE, Terminal)
  | UserAction.UnlockQueueUnstake v lock_id account shares_remove =>
      Some (CallSelf (ResolveUnlock lock_id account v shares_remove) Gas.ON_UNLOCK_TAIL_AFTER_PRE_USER, Terminal)
  | UserAction.WithdrawUserTransfer v account =>
      Some (CallSelf (OnWithdrawUserTransferAfterSettle account v) Gas.ON_WITHDRAW_TAIL_AFTER_PRE_USER, Terminal)
  | UserAction.SettleOnly _ => None
  end.

(** Called from the other steps; as a callback it is private, which
    [run_self_call] checks. *)
Definition on_epoch_settlement_dispatch_continue (cont : UserAction.t) : Promise :=
  let id := UserAction.validator_id cont in
  match tail_of cont with
  | None => [release_step Terminal id cont]
  | Some (tail, kind) => then_ [tail] (release_step kind id cont)
  end.

(** ** Pipeline 3: at most one stake or unstake of the pool per epoch *)
Definition mark_epoch_settlement_handled (id : ValidatorId) (action : string) : MS unit :=
  v ← require_validator id; now ← asks epoch_height;
  internal_set_validator id (v <| Validator.last_settlement_epoch := now |>) ;;
  log_epoch action id.

Definition apply_net_zero_pending_matched_clear (id : ValidatorId) (matched : Z) : MS bool :=
  v ← require_validator id; now ← asks epoch_height;
  if negb (Validator.pending_to_stake v =? matched) || negb (Validator.pending_to_unstake v =? matched)
  then log_epoch "epoch_settle_net_zero_state_changed" id ;; mret false
  else
    let claim := if 0 <? matched then u128_saturating_add (Validator.pending_to_claim v) matched
                 else Validator.pending_to_claim v in
    internal_set_validator id
      (v <| Validator.pending_to_stake := 0 |> <| Validator.pending_to_unstake := 0 |>
         <| Validator.pending_to_claim := claim |> <| Validator.last_settlement_epoch := now |>) ;;
    mret true.

Definition try_epoch_stake_or_unstake (id : ValidatorId) (dispatch_after : UserAction.t) : MS Promise :=
  v ← require_validator id;
  assert_validator_busy v "Validator pool must be busy for this settle step" ;;
  e ← asks (fun e => e); c ← get_state;
  let pending_stake := Validator.pending_to_stake v in
  let pending_unstake := Validator.pending_to_unstake v in
  let has_pending := (0 <? pending_stake) || (0 <? pending_unstake) in
  let can_settle := Validator.last_settlement_epoch v <? epoch_height e in
  let continue := on_epoch_settlement_dispatch_continue dispatch_after in
  let dispatch := CallSelf (OnEpochSettlementDispatchContinue dispatch_after) Gas.ON_EPOCH_SETTLEMENT_DISPATCH in
  if negb has_pending || negb can_settle then
    (if negb has_pending && can_settle then mark_epoch_settlement_handled id "epoch_settle_noop" else mret tt) ;;
    mret continue
  else if (pending_stake =? pending_unstake) && (0 <? pending_stake) then
    log_epoch "epoch_settle_net_zero" id ;;
    apply_net_zero_pending_matched_clear id pending_stake ;;
    mret continue
  else if pending_unstake <? pending_stake then
    log_epoch "epoch_settle_stake" id ;;
    mret (then_ (then_ [CallPool id DepositAndStake (pending_stake - pending_unstake) Gas.DEPOSIT_AND_STAKE]
                   (CallSelf (OnDepositAndStake id) Gas.ON_DEPOSIT_AND_STAKE))
            dispatch)
  else if (0 <? Validator.last_unstake_epoch v) && negb (validator_unstake_waiting_finished e c v) then
    mark_epoch_settlement_handled id "epoch_settle_unstake_waiting" ;;
    mret continue
  else
    log_epoch "epoch_settle_unstake" id ;;
    mret (then_ (then_ [CallPool id (Unstake (pending_unstake - pending_stake)) 0 Gas.UNSTAKE]
                   (CallSelf (OnUnstake id) Gas.ON_UNSTAKE))
            dispatch).

(** Pipeline 3b. *)
Definition on_deposit_and_stake (id : ValidatorId) : MS bool :=
  assert_private ;;
  ok ← asks is_promise_success;
  if negb ok then mret false
  else
    v ← require_validator id; now ← asks epoch_height;
    let pending_stake := Validator.pending_to_stake v in
    let pending_unstake := Validator.pending_to_unstake v in
    requireM (pending_unstake <? pending_stake)
      "deposit_and_stake callback requires pending_to_stake > pending_to_unstake" ;;
    let claim := if 0 <? pending_unstake then u128_saturating_add (Validator.pending_to_claim v) pending_unstake
                 else Validator.pending_to_claim v in
    total ← lift (checked_op U128_MAX (Validator.total_staked_balance v + (pending_stake - pending_unstake))
                    "total_staked_balance overflow after stake");
    internal_set_validator id
      (v <| Validator.pending_to_claim := claim |> <| Validator.pending_to_stake := 0 |>
         <| Validator.pending_to_unstake := 0 |> <| Validator.total_staked_balance := total |>
         <| Validator.last_settlement_epoch := now |>) ;;
    mret true.

(** Pipeline 3c. *)
Definition on_unstake (id : ValidatorId) : MS bool :=
  assert_private ;;
  ok ← asks is_promise_success;
  if negb ok then mret false
  else
    v ← require_validator id; now ← asks epoch_height;
    let pending_stake := Validator.pending_to_stake v in
    let pending_unstake := Validator.pending_to_unstake v in
    requireM (pending_stake <? pending_unstake) "unstake callback requires pending_to_unstake > pending_to_stake" ;;
    let claim := if 0 <? pending_stake then u128_saturating_add (Validator.pending_to_claim v) pending_stake
                 else Validator.pending_to_claim v in
    internal_set_validator id
      (v <| Validator.pending_to_claim := claim |> <| Validator.pending_to_unstake := 0 |>
         <| Validator.pending_to_stake := 0 |>
         <| Validator.pending_to_withdraw :=
              u128_saturating_add (Validator.pending_to_withdraw v) (pending_unstake - pending_stake) |>
         <| Validator.last_unstake_epoch := now |> <| Validator.last_settlement_epoch := now |>) ;;
    mret true.

(** ** Pipeline 2: withdraw from the pool *)
Definition promise_epoch_withdraw_unstaked (id : ValidatorId) (unstaked : NearToken) : Promise :=
  then_ [CallPool id (Withdraw unstaked) 0 Gas.WITHDRAW]
    (CallSelf (OnEpochWithdrawTransferDone id unstaked) Gas.ON_WITHDRAW_TRANSFER).

Definition try_epoch_withdraw_known_unstaked (id : ValidatorId) (unstaked : NearToken) (pool_can_withdraw : bool)
    : MS Promise :=
  requireM (0 <? unstaked) "Withdraw requires positive unstaked balance from the pool" ;;
  requireM pool_can_withdraw "Pool reports unstaked balance is not yet withdrawable" ;;
  log_epoch "epoch_withdraw" id ;;
  v ← require_validator id;
  assert_validator_busy v "Validator pool must be busy for this withdraw step" ;;
  mret (promise_epoch_withdraw_unstaked id unstaked).

Definition on_epoch_withdraw_transfer_done (id : ValidatorId) (withdrawn : NearToken) : MS bool :=
  assert_private ;;
  ok ← asks is_promise_success;
  v ← require_validator id;
  let credited := if (ok : bool) then withdrawn else 0 in
  (if ok && (0 <? credited) then
     let pending_withdraw := Validator.pending_to_withdraw v in
     let bal := Validator.total_staked_balance v in
     requireM (credited <=? bal)
       "Recorded pool balance is less than the withdrawn amount; retry after the next successful balance refresh from the pool" ;;
     (if pending_withdraw <? credited
      then emit (SLog "on_epoch_withdraw_transfer_done: pending_to_withdraw lower than withdrawn; clamped to zero")
      else mret tt) ;;
     claim ← lift (checked_op U128_MAX (Validator.pending_to_claim v + credited)
                     "pending_to_claim overflow after pool transfer");
     emit (SEvent (log_validator_withdraw_in credited id)) ;;
     internal_set_validator id
       (v <| Validator.total_staked_balance := bal - credited |>
          <| Validator.pending_to_withdraw := saturating_sub pending_withdraw credited |>
          <| Validator.pending_to_claim := claim |>)
   else internal_set_validator id v) ;;
  mret ok.

(** The result of 2b is [None] when it panicked. *)
Definition on_after_pool_withdraw_maybe_settle (withdraw_result : option bool) (id : ValidatorId) (cont : UserAction.t)
    : MS (PromiseOrValue bool) :=
  assert_private ;;
  v ← require_validator id;
  assert_validator_busy v "Validator pool must be busy for post-withdraw settle" ;;
  match withdraw_result with
  | Some true => p ← try_epoch_stake_or_unstake id cont; mret (Returned p)
  | _ =>
      log_epoch "epoch_withdraw_failed_skip_settle" id ;;
      mret (Returned (on_epoch_settlement_dispatch_continue cont))
  end.

(** ** Pipeline 1: the balances of the pool *)
Definition on_epoch_settlement_after_pool_account (r : option PoolAccountView.t) (id : ValidatorId) (cont : UserAction.t)
    : MS Promise :=
  assert_private ;;
  match r with
  | None =>
      match UserAction.payable_refund cont with
      | Some (buyer, amount) => refund_payable_pipeline id buyer amount
      | None =>
          log_epoch "epoch_get_account_failed_release" id ;;
          mret [release_step Terminal id cont]
      end
  | Some pool_account =>
      v ← require_validator id;
      assert_validator_busy v "Validator pool must be busy for settlement after get_account" ;;
      now ← asks block_timestamp;
      internal_set_validator id
        (v <| Validator.total_staked_balance := PoolAccountView.total_balance pool_account |>
           <| Validator.last_balance_refresh_ns := now |>) ;;
      let unstaked := PoolAccountView.unstaked pool_account in
      if (0 <? unstaked) && PoolAccountView.can_withdraw pool_account then
        p ← try_epoch_withdraw_known_unstaked id unstaked (PoolAccountView.can_withdraw pool_account);
        mret (then_ p (CallSelf (OnAfterPoolWithdrawMaybeSettle id cont) Gas.ON_GET_UNSTAKED_FOR_WITHDRAW))
      else try_epoch_stake_or_unstake id cont
  end.

(** ** Pipeline 0: entry *)
Definition promise_get_validator_pool_account (id : ValidatorId) : MS Promise :=
  me ← asks current_account_id;
  mret [CallPool id (GetAccount me) 0 Gas.GET_ACCOUNT].

Definition promise_validator_per_epoch_settlement_then (id : ValidatorId) (cont : UserAction.t) : MS Promise :=
  v ← require_validator_idle id; now ← asks epoch_height;
  internal_set_validator id (v <| Validator.tx_status := TransactionStatus.Busy |>) ;;
  if negb (Validator.last_settlement_epoch v <? now) then mret (on_epoch_settlement_dispatch_continue cont)
  else
    p ← promise_get_validator_pool_account id;
    mret (then_ p (CallSelf (OnEpochSettlementAfterPoolAccount id cont) Gas.ON_EPOCH_SETTLEMENT_AFTER_POOL_ACCOUNT)).

Definition epoch_settle (id : ValidatorId) : MS Promise :=
  assert_not_paused ;; require_enough_gas_for_epoch_settlement ;;
  promise_validator_per_epoch_settlement_then id (UserAction.SettleOnly id).
