(* ===== verification/StakingSubscriptions.v ===== *)
(** * The staking contract: locks and subscriptions

    [lock.rs] and [subscriptions.rs]. A subscription has one lock, a billing
    window of a calendar month that views move forward virtually, and at most
    one pending update that is applied at a window boundary. *)
From stdpp Require Import base gmap strings list.
From Stdlib Require Import ZArith Lia.
From S2P Require Import Prelude.
From S2P Require Import Near.
From S2P Require Import MerkleTree.
From S2P Require Import StakingTypes.
From S2P Require Import StakingMath.
From S2P Require Import StakingContract.
From S2P Require Import StakingCatalog.
From S2P Require Import StakingEpoch.

Local Open Scope Z_scope.
Local Open Scope record_scope.

(** [result.unwrap_or_else(|e| env::panic_str(e))] on a price check. *)
Definition require_price_lock (r : result bool) : MS unit :=
  ok ← lift r; requireM ok price_lock_error.

(** ** subscriptions.rs: storage and pending-update references *)
Definition pending_update_target_price_id (sub : Subscription.t) : option PriceId :=
  pending ← Subscription.pending_update sub; PendingSubscriptionUpdate.target_price_id pending.

Definition increment_count {K} `{Countable K} (counts : gmap K Z) (key : K) : gmap K Z :=
  <[key := u32_saturating_add (count counts key) 1]> counts.

Definition decrement_count {K} `{Countable K} (counts : gmap K Z) (key : K) : gmap K Z :=
  match counts !! key with
  | None => counts
  | Some current => if current <=? 1 then delete key counts else <[key := current - 1]> counts
  end.

Definition add_pending_update_target_refs (sub : Subscription.t) (c : Contract) : Contract :=
  match pending_update_target_price_id sub with
  | None => c
  | Some price_id =>
      let c := c <| pending_update_target_price_counts :=
                      increment_count (pending_update_target_price_counts c) price_id |> in
      match prices c !! price_id with
      | Some price => c <| pending_update_target_product_counts :=
                             increment_count (pending_update_target_product_counts c) (Price.product_id price) |>
      | None => c
      end
  end.

Definition remove_pending_update_target_refs (sub : Subscription.t) (c : Contract) : Contract :=
  match pending_update_target_price_id sub with
  | None => c
  | Some price_id =>
      let c := c <| pending_update_target_price_counts :=
                      decrement_count (pending_update_target_price_counts c) price_id |> in
      match prices c !! price_id with
      | Some price => c <| pending_update_target_product_counts :=
                             decrement_count (pending_update_target_product_counts c) (Price.product_id price) |>
      | None => c
      end
  end.

Definition internal_set_subscription (id : SubscriptionId) (sub : Subscription.t) : MS unit :=
  modify (fun c =>
    let c := match subscriptions c !! id with Some old => remove_pending_update_target_refs old c | None => c end in
    let c := add_pending_update_target_refs sub c in
    c <| subscriptions := <[id := sub]> (subscriptions c) |>).

Definition internal_remove_subscription (id : SubscriptionId) : MS unit :=
  modify (fun c =>
    let c := match subscriptions c !! id with Some old => remove_pending_update_target_refs old c | None => c end in
    c <| subscriptions := delete id (subscriptions c) |>).

Definition find_subscription (c : Contract) (id : SubscriptionId) : result Subscription.t :=
  expect (subscriptions c !! id) "Subscription not found".
Definition require_subscription_by_id (id : SubscriptionId) : MS Subscription.t :=
  c ← get_state; lift (find_subscription c id).

Definition subscription_owner_error : string := "Only the subscription owner can perform this action".

Definition require_subscription_owned_by_id (buyer : AccountId) (id : SubscriptionId) : MS Subscription.t :=
  sub ← require_subscription_by_id id;
  requireM (String.eqb (Subscription.account_id sub) buyer) subscription_owner_error ;;
  mret sub.

Definition assert_subscription_active (sub : Subscription.t) : MS unit :=
  requireM (bool_decide (Subscription.status sub = SubscriptionStatus.Active))
    "This subscription is not active (cancelled, expired, or not yet started)".

Definition subscription_ids_for_account_view (c : Contract) (account : AccountId) : list SubscriptionId :=
  default [] (subscriptions_by_account c !! account).

(** ** subscriptions.rs: projection to the current time *)
Definition clear_pending_update (sub : Subscription.t) : Subscription.t := sub <| Subscription.pending_update := None |>.

Definition project_due_update_fields (c : Contract) (sub : Subscription.t) (pending : PendingSubscriptionUpdate.t)
    : result Subscription.t :=
  sub ← match PendingSubscriptionUpdate.target_price_id pending with
        | Some target_price_id =>
            price ← find_price c target_price_id;
            mret (sub <| Subscription.product_id := Price.product_id price |>
                      <| Subscription.price_id := target_price_id |>)
        | None => mret sub
        end;
  mret (clear_pending_update sub).

Definition project_subscription_view_now (e : Env) (c : Contract) (sub : Subscription.t) : result Subscription.t :=
  if negb (bool_decide (Subscription.status sub = SubscriptionStatus.Active)) then Ok sub
  else
    let now := block_timestamp e in
    if Subscription.cancel_at_period_end sub then
      Ok (if Subscription.end_ns sub <=? now then sub <| Subscription.status := SubscriptionStatus.Expired |> else sub)
    else
      x ← match Subscription.pending_update sub with
          | Some pending =>
              if PendingSubscriptionUpdate.apply_ns pending <=? now
              then sub' ← project_due_update_fields c sub pending;
                   mret (PendingSubscriptionUpdate.apply_ns pending, sub')
              else mret (Subscription.start_ns sub, sub)
          | None => mret (Subscription.start_ns sub, sub)
          end;
      let '(projection_start_ns, sub) := x in
      w ← projected_subscription_window_from (Subscription.anchor_day sub) projection_start_ns now;
      mret (sub <| Subscription.start_ns := w.1 |> <| Subscription.end_ns := w.2 |>).

(** The subscription of an account whose projection is for a product. *)
Fixpoint find_projected (e : Env) (c : Contract) (buyer : AccountId) (product_id : ProductId)
    (ids : list SubscriptionId) : result (option (SubscriptionId * Subscription.t)) :=
  match ids with
  | [] => Ok None
  | sid :: rest =>
      stored ← find_subscription c sid;
      if negb (String.eqb (Subscription.account_id stored) buyer) ||
         negb (bool_decide (Subscription.status stored = SubscriptionStatus.Active))
      then find_projected e c buyer product_id rest
      else
        projected ← project_subscription_view_now e c stored;
        if String.eqb (Subscription.product_id projected) product_id then mret (Some (sid, projected))
        else find_projected e c buyer product_id rest
  end.

Definition find_subscription_by_projected_product (e : Env) (c : Contract) (buyer : AccountId) (product_id : ProductId)
    : result (option (SubscriptionId * Subscription.t)) :=
  indexed ← match subscription_by_account_product c !! (buyer, product_id) with
            | Some sid =>
                stored ← find_subscription c sid;
                require (String.eqb (Subscription.account_id stored) buyer) subscription_owner_error ;;
                projected ← project_subscription_view_now e c stored;
                mret (if String.eqb (Subscription.product_id projected) product_id then Some (sid, projected) else None)
            | None => mret None
            end;
  match indexed with
  | Some found => mret (Some found)
  | None => find_projected e c buyer product_id (subscription_ids_for_account_view c buyer)
  end.

(** ** subscriptions.rs: indexes *)
Section indexes.
Context `{IS : IdSet}.

Definition add_subscription_to_product_index_for_product (product_id : ProductId) (id : SubscriptionId) : MS unit :=
modify (fun c => c <| subscriptions_by_product :=
<[product_id := ids_insert id (default [] (subscriptions_by_product c !! product_id))]> (subscriptions_by_product c) |>).

Definition remove_subscription_from_product_index_for_product (product_id : ProductId) (id : SubscriptionId) : MS unit :=
modify (fun c =>
match subscriptions_by_product c !! product_id with
| None => c
| Some ids =>
let ids' := ids_remove id ids in
c <| subscriptions_by_product :=
   if bool_decide (ids' = []) then delete product_id (subscriptions_by_product c)
   else <[product_id := ids']> (subscriptions_by_product c) |>
end).

Definition add_subscription_to_product_index (account : AccountId) (id : SubscriptionId) : MS unit :=
c ← get_state;
match subscriptions c !! id with
| None => mret tt
| Some sub =>
if String.eqb (Subscription.account_id sub) account
then add_subscription_to_product_index_for_product (Subscription.product_id sub) id
else mret tt
end.

Definition remove_subscription_from_product_index (id : SubscriptionId) : MS unit :=
c ← get_state;
match subscriptions c !! id with
| None => mret tt
| Some sub => remove_subscription_from_product_index_for_product (Subscription.product_id sub) id
end.

Definition add_subscription_to_indexes (account : AccountId) (id : SubscriptionId) (add_global : bool) : MS unit :=
c ← get_state;
let ids := default [] (subscriptions_by_account c !! account) in
if bool_decide (id ∈ ids) then mret tt
else
put_state (c <| subscriptions_by_account := <[account := ids ++ [id]]> (subscriptions_by_account c) |>) ;;
add_subscription_to_product_index account id ;;
if add_global then modify (fun c => c <| subscription_ids := ids_insert id (subscription_ids c) |>) else mret tt.

Definition remove_subscription_from_indexes (account : AccountId) (id : SubscriptionId) (remove_global : bool) : MS unit :=
c ← get_state;
match subscriptions_by_account c !! account with
| None => mret tt
| Some ids =>
let kept := filter (fun x => x <> id) ids in
if (length kept =? length ids)%nat then mret tt
else
put_state (c <| subscriptions_by_account :=
              if bool_decide (kept = []) then delete account (subscriptions_by_account c)
              else <[account := kept]> (subscriptions_by_account c) |>) ;;
remove_subscription_from_product_index id ;;
if remove_global then modify (fun c => c <| subscription_ids := ids_remove id (subscription_ids c) |>) else mret tt
end.

Definition move_subscription_product_index (buyer : AccountId) (id : SubscriptionId) (old_product new_product : ProductId)
: MS unit :=
if String.eqb old_product new_product then mret tt
else
c ← get_state;
match subscription_by_account_product c !! (buyer, new_product) with
| Some existing => requireM (String.eqb existing id) "Subscription already exists for target product"
| None => put_state (c <| subscription_by_account_product :=
                    <[(buyer, new_product) := id]> (subscription_by_account_product c) |>)
end ;;
c ← get_state;
match subscription_by_account_product c !! (buyer, old_product) with
| Some existing =>
if String.eqb existing id
then put_state (c <| subscription_by_account_product :=
                   delete (buyer, old_product) (subscription_by_account_product c) |>)
else mret tt
| None => mret tt
end ;;
remove_subscription_from_product_index_for_product old_product id ;;
add_subscription_to_product_index_for_product new_product id.
End indexes.

(** ** subscriptions.rs: checks *)
Definition validate_subscription_target_amount (price : Price.t) (target_amount : Z) : MS unit :=
  requireM (Price.amount price <=? target_amount) "Target stake amount is below the price minimum" ;;
  match max_amount_of (Price.metadata price) with
  | Some m => requireM (target_amount <=? m) "Target stake amount is above the price maximum"
  | None => mret tt
  end.

(** Some other active subscription of the account has a pending update to the
    product. *)
Definition product_reserved (c : Contract) (buyer : AccountId) (product_id : ProductId)
    (allowed : option SubscriptionId) : bool :=
  existsb (fun sid =>
    negb (bool_decide (allowed = Some sid)) &&
    match subscriptions c !! sid with
    | Some sub =>
        bool_decide (Subscription.status sub = SubscriptionStatus.Active) &&
        match pending_update_target_price_id sub with
        | Some target => match prices c !! target with
                         | Some price => String.eqb (Price.product_id price) product_id
                         | None => false
                         end
        | None => false
        end
    | None => false
    end) (subscription_ids_for_account_view c buyer).

Definition assert_product_not_reserved_by_pending_update (buyer : AccountId) (product_id : ProductId)
    (allowed : option SubscriptionId) : MS unit :=
  c ← get_state;
  requireM (negb (product_reserved c buyer product_id allowed))
    "Subscription already has a pending update for target product".

Definition price_supports_recurring_amount (price : Price.t) (amount : Z) : result bool :=
  if amount <? Price.amount price then Ok false
  else if match max_amount_of (Price.metadata price) with Some m => m <? amount | None => false end then Ok false
  else check_near_recurring_price_lock price amount.

(** ** lock.rs, unlock.rs: locks *)
Definition internal_set_lock (id : LockId) (lock : Lock.t) : MS unit :=
  modify (fun c => c <| locks := <[id := lock]> (locks c) |>).

Definition require_lock (id : LockId) (msg : string) : MS Lock.t :=
  c ← get_state; lift (expect (locks c !! id) msg).

Definition require_subscription_lock_owned_by (sub : Subscription.t) (buyer : AccountId) : MS Lock.t :=
  lock ← require_lock (Subscription.last_lock_id sub) "No lock is linked to this subscription";
  requireM (String.eqb (Lock.account_id lock) buyer) "Only the lock owner can change this subscription lock" ;;
  requireM (bool_decide (Lock.status lock = LockStatus.Active)) "Lock is not active" ;;
  mret lock.

Definition sync_lock_window_fields (lock : Lock.t) (sub : Subscription.t) : Lock.t :=
  let lock := lock <| Lock.start_ns := Subscription.start_ns sub |> <| Lock.end_ns := Subscription.end_ns sub |> in
  match Lock.order lock with
  | SubscriptionOrder sid _ _ _ =>
      if String.eqb sid (Subscription.subscription_id sub)
      then lock <| Lock.order := SubscriptionOrder sid (Subscription.price_id sub) (Subscription.start_ns sub)
                                   (Subscription.end_ns sub) |>
      else lock
  | ProductPurchase _ _ => lock
  end.

Definition sync_subscription_lock_window (sub : Subscription.t) : MS unit :=
  c ← get_state;
  match locks c !! Subscription.last_lock_id sub with
  | None => mret tt
  | Some lock =>
      if negb (String.eqb (Lock.account_id lock) (Subscription.account_id sub)) ||
         negb (bool_decide (Lock.status lock = LockStatus.Active))
      then mret tt
      else internal_set_lock (Lock.lock_id lock) (sync_lock_window_fields lock sub)
  end.

(** Shares and NEAR a scheduled decrease takes out of a lock; [None] when
    there is nothing to take. *)
Definition surplus_shares (v : Validator.t) (lock : Lock.t) (target_amount : NearToken) : result (option Z) :=
  let surplus_target := saturating_sub (Lock.amount_near lock) target_amount in
  if surplus_target =? 0 then Ok None
  else
    lock_near_val ← near_from_shares (Lock.shares lock) (Validator.net_stake_yocto v) (Validator.total_shares v);
    if lock_near_val =? 0 then Ok None
    else
      num ← u256_mul (Lock.shares lock) (Z.min surplus_target lock_near_val);
      s ← as_u128 (num / lock_near_val);
      let shares_remove := Z.min s (Lock.shares lock) in
      mret (if shares_remove =? 0 then None else Some shares_remove).

(** The lock after [shares_remove] shares worth [near_amt] left it. *)
Definition shrink_lock (lock : Lock.t) (shares_remove near_amt : Z) : Lock.t :=
  let lock := lock <| Lock.shares := saturating_sub (Lock.shares lock) shares_remove |>
                   <| Lock.amount_near := saturating_sub (Lock.amount_near lock) near_amt |> in
  if Lock.shares lock =? 0 then lock <| Lock.status := LockStatus.UnlockRequested |> else lock.

Definition apply_scheduled_stake_decrease_at_renewal (buyer : AccountId) (sub : Subscription.t)
    (target_amount : NearToken) : MS unit :=
  c ← get_state;
  match locks c !! Subscription.last_lock_id sub with
  | None => mret tt
  | Some lock =>
      if negb (String.eqb (Lock.account_id lock) buyer) || negb (bool_decide (Lock.status lock = LockStatus.Active))
      then mret tt
      else if saturating_sub (Lock.amount_near lock) target_amount =? 0 then mret tt
      else
        v ← require_validator (Lock.validator_id lock);
        s ← lift (surplus_shares v lock target_amount);
        match s with
        | None => mret tt
        | Some shares_remove =>
            near_amt ← internal_unstake buyer (Lock.validator_id lock) shares_remove;
            internal_set_lock (Lock.lock_id lock) (shrink_lock lock shares_remove near_amt) ;;
            emit (SEvent (log_subscription_downgrade_prorate buyer (Subscription.subscription_id sub)
                            (Subscription.product_id sub) (Subscription.price_id sub) (Lock.lock_id lock) near_amt))
        end
  end.

Section subscriptions.
Context `{IS : IdSet}.

(** ** subscriptions.rs: a due pending update *)
Definition apply_due_subscription_update (id : SubscriptionId) : MS bool :=
c ← get_state; e ← asks (fun e => e);
match subscriptions c !! id with
| None => mret false
| Some stored =>
if negb (bool_decide (Subscription.status stored = SubscriptionStatus.Active)) ||
Subscription.cancel_at_period_end stored then mret false
else
match Subscription.pending_update stored with
| None => mret false
| Some pending =>
let apply_ns := PendingSubscriptionUpdate.apply_ns pending in
let now := block_timestamp e in
if now <? apply_ns then mret false
else
  target ← match PendingSubscriptionUpdate.target_price_id pending with
           | Some target_price_id =>
               price ← require_price target_price_id;
               product ← require_product (Price.product_id price);
               mret (Some (price, product))
           | None => mret None
           end;
  let old_product_id := Subscription.product_id stored in
  let new_product_id := match target with Some (_, product) => Product.product_id product
                        | None => old_product_id end in
  let buyer := Subscription.account_id stored in
  match PendingSubscriptionUpdate.target_amount pending with
  | Some target_amount =>
      match locks c !! Subscription.last_lock_id stored with
      | Some lock =>
          v ← require_validator (Lock.validator_id lock);
          requireM (epoch_height e <=? Validator.last_settlement_epoch v)
            "Pending stake decrease requires validator settlement before apply"
      | None => mret tt
      end ;;
      apply_scheduled_stake_decrease_at_renewal buyer stored target_amount
  | None => mret tt
  end ;;
  w ← lift (projected_subscription_window_from (Subscription.anchor_day stored) apply_ns now);
  let updated := match target with
                 | Some (price, _) => stored <| Subscription.product_id := new_product_id |>
                                             <| Subscription.price_id := Price.price_id price |>
                 | None => stored
                 end in
  let updated := clear_pending_update
                   (updated <| Subscription.start_ns := w.1 |> <| Subscription.end_ns := w.2 |>) in
  sync_subscription_lock_window updated ;;
  (if String.eqb old_product_id new_product_id then mret tt
   else move_subscription_product_index buyer id old_product_id new_product_id) ;;
  internal_set_subscription id updated ;;
  match target with
  | Some (price, product) =>
      internal_set_price (Price.price_id price)
        (price <| Price.usage_count := u64_saturating_add (Price.usage_count price) 1 |>) ;;
      internal_set_product (Product.product_id product)
        (product <| Product.usage_count := u64_saturating_add (Product.usage_count product) 1 |>)
  | None => mret tt
  end ;;
  c' ← get_state;
  let lock_amount := match locks c' !! Subscription.last_lock_id updated with
                     | Some lock => Lock.amount_near lock | None => 0 end in
  emit (SEvent (log_subscription_update buyer id (Subscription.product_id updated)
                  (Subscription.price_id updated) lock_amount "applied_pending_update")) ;;
  mret true
end
end.

(** ** subscriptions.rs: cancel and resume *)
Definition cancel_subscription (id : SubscriptionId) : MS unit :=
assert_one_yocto ;; assert_not_paused ;;
buyer ← asks predecessor_account_id;
stored ← require_subscription_owned_by_id buyer id;
c ← get_state; e ← asks (fun e => e);
sub ← lift (project_subscription_view_now e c stored);
assert_subscription_active sub ;;
let sub := clear_pending_update sub in
sync_subscription_lock_window sub ;;
(if String.eqb (Subscription.product_id stored) (Subscription.product_id sub) then mret tt
else move_subscription_product_index buyer id (Subscription.product_id stored) (Subscription.product_id sub)) ;;
internal_set_subscription id (sub <| Subscription.cancel_at_period_end := true |>) ;;
emit (SEvent (log_subscription_cancel buyer id (Subscription.product_id sub) (Subscription.price_id sub))).

Definition resume_subscription (id : SubscriptionId) : MS unit :=
assert_one_yocto ;; assert_not_paused ;;
buyer ← asks predecessor_account_id;
sub ← require_subscription_owned_by_id buyer id;
assert_subscription_active sub ;;
requireM (Subscription.cancel_at_period_end sub) "Subscription is not scheduled to cancel at period end" ;;
now ← asks block_timestamp;
requireM (now <? Subscription.end_ns sub) "Current billing period has ended; subscribe again with lock instead" ;;
internal_set_subscription id (sub <| Subscription.cancel_at_period_end := false |>) ;;
emit (SEvent (log_subscription_resume buyer id (Subscription.product_id sub) (Subscription.price_id sub))).

(** ** subscriptions.rs: updates *)
Record SubscriptionUpdateInputs : Type := mkInputs {
in_sub : Subscription.t;
in_current_price : Price.t;
in_target_price : Price.t;
in_target_product : Product.t;
in_lock : Lock.t
}.

Record SubscriptionUpdateDecision : Type := mkDecision {
immediate_plan_change : bool;
immediate_stake_increase : option NearToken;
pending_plan_change : bool;
pending_stake_decrease_target : option NearToken;
pending_apply_ns : option Z
}.

Definition has_immediate_change (d : SubscriptionUpdateDecision) : bool :=
immediate_plan_change d || bool_decide (is_Some (immediate_stake_increase d)).
Definition has_pending_change (d : SubscriptionUpdateDecision) : bool :=
pending_plan_change d || bool_decide (is_Some (pending_stake_decrease_target d)).

Definition checked_subscription_update_inputs (buyer : AccountId) (target_price_id : PriceId) (target_amount : Z)
(id : SubscriptionId) (expected_validator_id : option ValidatorId) : MS SubscriptionUpdateInputs :=
'(target_price, target_product) ← get_active_price_and_product target_price_id;
require_recurring_monthly_price target_price ;;
validate_subscription_target_amount target_price target_amount ;;
sub ← require_subscription_owned_by_id buyer id;
assert_subscription_active sub ;;
requireM (negb (Subscription.cancel_at_period_end sub)) "Resume subscription before updating" ;;
c ← get_state; e ← asks (fun e => e);
(if String.eqb (Product.product_id target_product) (Subscription.product_id sub) then mret tt
else
match subscription_by_account_product c !! (buyer, Product.product_id target_product) with
| Some existing => requireM (String.eqb existing id) "Subscription already exists for target product"
| None => mret tt
end ;;
assert_product_not_reserved_by_pending_update buyer (Product.product_id target_product) (Some id)) ;;
sub ← lift (project_subscription_view_now e c sub);
current_price ← require_price (Subscription.price_id sub);
lock ← require_subscription_lock_owned_by sub buyer;
requireM (String.eqb (Product.validator_id target_product) (Lock.validator_id lock))
"Target product validator must match subscription lock validator" ;;
match expected_validator_id with
| Some expected =>
requireM (String.eqb (Product.validator_id target_product) expected)
"Catalog validator for this price does not match the pool used for this subscription update" ;;
requireM (String.eqb (Lock.validator_id lock) expected)
"Subscription lock validator does not match the update validator"
| None => mret tt
end ;;
requireM (block_timestamp e <? Subscription.end_ns sub) "Current period already ended; renew instead" ;;
mret (mkInputs sub current_price target_price target_product lock).

Definition build_subscription_update_decision (inputs : SubscriptionUpdateInputs) (target_price_id : PriceId)
(target_amount : Z) : MS SubscriptionUpdateDecision :=
let current_amount := Lock.amount_near (in_lock inputs) in
let plan_changes := negb (String.eqb target_price_id (Subscription.price_id (in_sub inputs))) in
let increase := if current_amount <? target_amount then Some (saturating_sub target_amount current_amount) else None in
let decrease := if target_amount <? current_amount then Some target_amount else None in
immediate_plan ←
(if negb plan_changes then mret false
else if Price.amount (in_target_price inputs) <? Price.amount (in_current_price inputs) then mret false
else match decrease with
| Some _ => lift (price_supports_recurring_amount (in_target_price inputs) current_amount)
| None => mret true
end);
let pending_plan := plan_changes && negb immediate_plan in
(if immediate_plan || bool_decide (is_Some increase)
then require_price_lock (check_near_recurring_price_lock
(if immediate_plan : bool then in_target_price inputs else in_current_price inputs)
(match increase with Some _ => target_amount | None => current_amount end))
else mret tt) ;;
(if pending_plan || bool_decide (is_Some decrease)
then require_price_lock (check_near_recurring_price_lock (in_target_price inputs) target_amount)
else mret tt) ;;
mret (mkDecision immediate_plan increase pending_plan decrease
(if pending_plan || bool_decide (is_Some decrease) then Some (Subscription.end_ns (in_sub inputs)) else None)).

Definition subscription_update_kind (d : SubscriptionUpdateDecision) : string :=
match has_immediate_change d, has_pending_change d with
| false, false => "no_op"
| true, false => "changed_immediately"
| false, true => "scheduled_for_period_end"
| true, true => "changed_immediately_and_scheduled_for_period_end"
end.

Definition subscription_update_outcome (kind : string) (id : SubscriptionId) (target_price_id : PriceId)
(target_amount : Z) (lock_id : option LockId) (d : SubscriptionUpdateDecision) (current_amount : Z)
: SubscriptionPlanChangeOutcome.t :=
SubscriptionPlanChangeOutcome.mk kind id target_price_id target_amount lock_id
(immediate_plan_change d) (immediate_stake_increase d) (pending_plan_change d)
(saturating_sub current_amount <$> pending_stake_decrease_target d) (pending_apply_ns d).

(** Returns the subscription, price, product and lock after the change. *)
Definition apply_subscription_update_state (target_price_id : PriceId) (d : SubscriptionUpdateDecision)
(sub : Subscription.t) (target_price : Price.t) (target_product : Product.t) (lock : Lock.t)
: result (Subscription.t * Price.t * Product.t * Lock.t) :=
let sub := clear_pending_update sub in
let '(lock, sub, target_price, target_product) :=
if immediate_plan_change d then
(lock <| Lock.order := SubscriptionOrder (Subscription.subscription_id sub) target_price_id
                   (Subscription.start_ns sub) (Subscription.end_ns sub) |>,
sub <| Subscription.product_id := Price.product_id target_price |> <| Subscription.price_id := target_price_id |>,
target_price <| Price.usage_count := u64_saturating_add (Price.usage_count target_price) 1 |>,
target_product <| Product.usage_count := u64_saturating_add (Product.usage_count target_product) 1 |>)
else (lock, sub, target_price, target_product) in
sub ← (if has_pending_change d then
apply_ns ← expect (pending_apply_ns d) "pending apply timestamp";
mret (sub <| Subscription.pending_update := Some (PendingSubscriptionUpdate.mk
              (if pending_plan_change d then Some target_price_id else None)
              (pending_stake_decrease_target d) apply_ns) |>)
else mret sub);
mret (sub, target_price, target_product, sync_lock_window_fields lock sub).

Definition commit_subscription_update_after_settle (buyer : AccountId) (deposit : NearToken) (target_price_id : PriceId)
(target_amount : Z) (id : SubscriptionId) (expected_validator_id : ValidatorId) : MS SubscriptionPlanChangeOutcome.t :=
apply_due_subscription_update id ;;
inputs ← checked_subscription_update_inputs buyer target_price_id target_amount id (Some expected_validator_id);
d ← build_subscription_update_decision inputs target_price_id target_amount;
let lock := in_lock inputs in
let current_amount := Lock.amount_near lock in
c ← get_state;
x ← match immediate_stake_increase d with
| Some expected_delta =>
requireM (deposit =? expected_delta) "Attached NEAR must equal the target stake increase" ;;
requireM (Config.min_lock_amount (config c) <=? deposit)
"Attached NEAR is below the contract minimum lock amount (min_lock_amount)" ;;
add_shares ← internal_stake buyer expected_validator_id deposit;
requireM (0 <? add_shares) "Stake increase must mint at least one share" ;;
amount ← lift (checked_op U128_MAX (Lock.amount_near lock + deposit) "lock amount_near overflow");
mret (lock <| Lock.amount_near := amount |>
         <| Lock.shares := u128_saturating_add (Lock.shares lock) add_shares |>, Some (Lock.lock_id lock))
| None =>
requireM (deposit =? 1) "Requires attached deposit of exactly 1 yoctoNEAR" ;;
mret (lock, None)
end;
let '(lock, lock_id_out) := x in
let old_product_id := Subscription.product_id (in_sub inputs) in
let new_product_id := Price.product_id (in_target_price inputs) in
y ← lift (apply_subscription_update_state target_price_id d (in_sub inputs) (in_target_price inputs)
  (in_target_product inputs) lock);
let '(sub, target_price, target_product, lock) := y in
internal_set_lock (Lock.lock_id lock) lock ;;
(if immediate_plan_change d then move_subscription_product_index buyer id old_product_id new_product_id else mret tt) ;;
internal_set_subscription id sub ;;
(if immediate_plan_change d then
internal_set_price (Price.price_id target_price) target_price ;;
internal_set_product (Product.product_id target_product) target_product
else mret tt) ;;
let kind := subscription_update_kind d in
emit (SEvent (log_subscription_update buyer id (Product.product_id target_product) target_price_id target_amount kind)) ;;
match lock_id_out with Some lock_id => emit (SEvent (log_lock lock_id buyer)) | None => mret tt end ;;
mret (subscription_update_outcome kind id target_price_id target_amount lock_id_out d current_amount).

Definition on_subscription_update_after_settle (buyer : AccountId) (deposit : NearToken) (target_price_id : PriceId)
(target_amount : Z) (id : SubscriptionId) (validator_id : ValidatorId) : MS SubscriptionPlanChangeOutcome.t :=
assert_private ;;
outcome ← commit_subscription_update_after_settle buyer deposit target_price_id target_amount id validator_id;
require_validator_busy validator_id "Validator pool must be busy after per-epoch settlement" ;;
mret outcome.
End subscriptions.

Definition update_subscription (id : SubscriptionId) (target_price_id : PriceId) (target_amount : Z) : MS Promise :=
  assert_not_paused ;;
  buyer ← asks predecessor_account_id; deposit ← asks attached_deposit;
  inputs ← checked_subscription_update_inputs buyer target_price_id target_amount id None;
  let validator_id := Product.validator_id (in_target_product inputs) in
  assert_validator_active_for_lock validator_id ;;
  require_enough_gas_for_epoch_settlement ;;
  require_validator_idle validator_id ;;
  promise_validator_per_epoch_settlement_then validator_id
    (UserAction.SubscriptionUpdate validator_id buyer deposit target_price_id target_amount id).
