(* ===== verification/StakingLocks.v ===== *)
(** * The staking contract: locking, unlocking, withdrawing

    [lock.rs], [unlock.rs] and [withdraw.rs]: the entries that start the epoch
    pipeline, the tails that run once the pool is settled, and the views. *)
From stdpp Require Import base gmap strings list.
From Stdlib Require Import ZArith Lia.
From S2P Require Import Prelude.
From S2P Require Import Near.
From S2P Require Import MerkleTree.
From S2P Require Import StakingTypes.
From S2P Require Import StakingMath.
From S2P Require Import StakingContract.
From S2P Require Import StakingCatalog.
From S2P Require Import StakingEpoch.
From S2P Require Import StakingSubscriptions.

Local Open Scope Z_scope.
Local Open Scope record_scope.

(** ** lock.rs: views *)
Definition project_scheduled_stake_decrease_lock (c : Contract) (lock : Lock.t) (target_amount : NearToken) : result Lock.t :=
  if saturating_sub (Lock.amount_near lock) target_amount =? 0 then Ok lock
  else
    v ← find_validator c (Lock.validator_id lock);
    s ← surplus_shares v lock target_amount;
    match s with
    | None => mret lock
    | Some shares_remove =>
        near_amt ← near_from_shares shares_remove (Validator.net_stake_yocto v) (Validator.total_shares v);
        mret (shrink_lock lock shares_remove near_amt)
    end.

Definition project_lock_view_now (e : Env) (c : Contract) (lock : Lock.t) : result Lock.t :=
  match Lock.order lock with
  | ProductPurchase _ _ => Ok lock
  | SubscriptionOrder subscription_id _ _ _ =>
      match subscriptions c !! subscription_id with
      | None => Ok lock
      | Some sub =>
          if negb (String.eqb (Subscription.last_lock_id sub) (Lock.lock_id lock)) ||
             negb (String.eqb (Subscription.account_id sub) (Lock.account_id lock)) ||
             negb (bool_decide (Lock.status lock = LockStatus.Active)) then Ok lock
          else if negb (bool_decide (Subscription.status sub = SubscriptionStatus.Active)) ||
                  Subscription.cancel_at_period_end sub then Ok lock
          else
            match Subscription.pending_update sub with
            | None => Ok lock
            | Some pending =>
                let now := block_timestamp e in
                if now <? PendingSubscriptionUpdate.apply_ns pending then Ok lock
                else
                  lock ← match PendingSubscriptionUpdate.target_amount pending with
                         | Some target_amount => project_scheduled_stake_decrease_lock c lock target_amount
                         | None => mret lock
                         end;
                  if negb (bool_decide (Lock.status lock = LockStatus.Active)) then mret lock
                  else
                    w ← projected_subscription_window_from (Subscription.anchor_day sub)
                          (PendingSubscriptionUpdate.apply_ns pending) now;
                    let lock := lock <| Lock.start_ns := w.1 |> <| Lock.end_ns := w.2 |> in
                    let price_id := default (Subscription.price_id sub)
                                      (PendingSubscriptionUpdate.target_price_id pending) in
                    mret (match Lock.order lock with
                          | SubscriptionOrder sid _ _ _ =>
                              if String.eqb sid (Subscription.subscription_id sub)
                              then lock <| Lock.order := SubscriptionOrder sid price_id w.1 w.2 |>
                              else lock
                          | ProductPurchase _ _ => lock
                          end)
            end
      end
  end.

Definition lock_view (e : Env) (c : Contract) (lock : Lock.t) (effective : option bool) : result Lock.t :=
  if bool_decide (effective = Some true) then project_lock_view_now e c lock else Ok lock.

Definition get_lock (e : Env) (c : Contract) (id : LockId) (effective : option bool) : result (option Lock.t) :=
  match locks c !! id with
  | None => Ok None
  | Some lock => l ← lock_view e c lock effective; mret (Some l)
  end.

Definition add_lock_to_indexes `{IS : IdSet} (account : AccountId) (id : LockId) : MS unit :=
  modify (fun c => c <| lock_ids := ids_insert id (lock_ids c) |>
                     <| locks_by_account := push_index (locks_by_account c) account id |>).

(** ** lock.rs: entries *)
Definition lock_entry_preamble : MS (AccountId * NearToken) :=
  assert_not_paused ;;
  buyer ← asks predecessor_account_id;
  ensure_min_storage_for_new_lock buyer ;;
  locked ← asks attached_deposit; c ← get_state;
  requireM (Config.min_lock_amount (config c) <=? locked)
    "Attached NEAR is below the contract minimum lock amount (min_lock_amount)" ;;
  mret (buyer, locked).

Definition lock_one_off_with_catalog (buyer : AccountId) (locked : NearToken) (price : Price.t) (product : Product.t)
    (duration_ns : Z) : MS Promise :=
  c ← get_state;
  requireM ((Config.min_lock_duration_ns (config c) <=? duration_ns) && (duration_ns <=? Config.max_lock_duration_ns (config c)))
    "Lock duration is outside the allowed range for this contract" ;;
  requireM (bool_decide (Price.price_type price = PriceType.OneOff)) "This price is not a one-off product price" ;;
  requireM (bool_decide (Price.billing_period price = None)) "One-off price must not set billing_period" ;;
  let validator_id := Product.validator_id product in
  assert_validator_active_for_lock validator_id ;;
  require_price_lock (check_near_price_lock price locked duration_ns) ;;
  require_validator_idle validator_id ;;
  promise_validator_per_epoch_settlement_then validator_id
    (UserAction.CommitLock validator_id buyer locked duration_ns
       (ProductPurchase (Product.product_id product) (Price.price_id price))).

Definition lock_recurring_subscription_with_catalog (buyer : AccountId) (locked : NearToken) (price : Price.t)
    (product : Product.t) : MS Promise :=
  require_recurring_monthly_price price ;;
  let validator_id := Product.validator_id product in
  assert_validator_active_for_lock validator_id ;;
  validate_subscription_target_amount price locked ;;
  promise_validator_per_epoch_settlement_then validator_id
    (UserAction.CommitRecurringSubscriptionLock validator_id buyer locked (Price.price_id price)).

Definition lock_with_price_id (price_id : PriceId) (duration_ns : option Z) : MS Promise :=
  require_enough_gas_for_epoch_settlement ;;
  '(buyer, locked) ← lock_entry_preamble;
  '(price, product) ← get_active_price_and_product price_id;
  match Price.price_type price with
  | PriceType.OneOff =>
      duration ← lift (expect duration_ns "duration_ns is required for one-off prices");
      lock_one_off_with_catalog buyer locked price product duration
  | PriceType.Recurring =>
      requireM (bool_decide (duration_ns = None)) "duration_ns must be omitted for recurring subscription prices" ;;
      lock_recurring_subscription_with_catalog buyer locked price product
  | PriceType.Farm => panicM "Use stake for farm prices"
  end.

Definition lock (price_id : option PriceId) (product_id : option ProductId) (duration_ns : option Z) : MS Promise :=
  resolved ← resolve_price_id_for_lock price_id product_id;
  lock_with_price_id resolved duration_ns.

(** ** lock.rs: tails *)
Section tails.
Context `{HC : Crypto} `{IS : IdSet}.

Definition new_subscription_for_lock (buyer : AccountId) (product : Product.t) (price_id : PriceId) (start_ns : Z)
: MS (SubscriptionId * Subscription.t) :=
let anchor := billing_anchor_day_from_timestamp start_ns in
let end_ns := add_months_stripe_style anchor 1 start_ns in
c ← get_state; e ← asks (fun e => e);
x ← lift (next_subscription_id e (id_nonce c));
put_state (c <| id_nonce := x.2 |>) ;;
mret (x.1, Subscription.mk x.1 buyer (Product.product_id product) price_id start_ns end_ns anchor "" 
   SubscriptionStatus.Active false None).

Definition order_price (order : OrderRef) : PriceId :=
match order with ProductPurchase _ price_id | SubscriptionOrder _ price_id _ _ => price_id end.

Definition commit_catalog_lock (buyer : AccountId) (locked : NearToken) (duration_ns : Z) (order : OrderRef)
(validator_id : ValidatorId) (followup : option (Subscription.t * SubscriptionId * bool)) : MS LockId :=
'(price, product) ← get_active_price_and_product (order_price order);
requireM (String.eqb (Product.validator_id product) validator_id)
"Catalog validator for this price does not match the pool used for this lock" ;;
new_shares ← internal_stake buyer validator_id locked;
c ← get_state; e ← asks (fun e => e);
x ← lift (next_lock_id e (id_nonce c));
put_state (c <| id_nonce := x.2 |>) ;;
let lock_id := x.1 in
let now := block_timestamp e in
let duration := if duration_ns <=? U64_MAX then duration_ns else U64_MAX in
internal_set_lock lock_id
(Lock.mk lock_id buyer validator_id locked new_shares now (u64_saturating_add now duration) order LockStatus.Active) ;;
add_lock_to_indexes buyer lock_id ;;
internal_set_price (Price.price_id price)
(price <| Price.usage_count := u64_saturating_add (Price.usage_count price) 1 |>) ;;
internal_set_product (Product.product_id product)
(product <| Product.usage_count := u64_saturating_add (Product.usage_count product) 1 |>) ;;
modify (fun c => c <| user_lock_count := <[buyer := u32_saturating_add (count (user_lock_count c) buyer) 1]>
                                 (user_lock_count c) |>) ;;
match followup with
| Some (sub, sub_id, is_new_index) =>
let sub := sub <| Subscription.last_lock_id := lock_id |> in
internal_set_subscription sub_id sub ;;
add_subscription_to_indexes buyer sub_id is_new_index ;;
if is_new_index : bool
then modify (fun c => c <| subscription_by_account_product :=
 <[(Subscription.account_id sub, Subscription.product_id sub) := sub_id]> (subscription_by_account_product c) |>)
else mret tt
| None => mret tt
end ;;
emit (SEvent (log_lock lock_id buyer)) ;;
mret lock_id.

Definition resolve_lock (buyer : AccountId) (locked : NearToken) (duration_ns : Z) (order : OrderRef)
(validator_id : ValidatorId) : MS LockId :=
assert_private ;;
lock_id ← commit_catalog_lock buyer locked duration_ns order validator_id None;
require_validator_busy validator_id "Validator pool must be busy after per-epoch settlement" ;;
mret lock_id.

(** The subscription a recurring lock is for, the time it is taken at, and
whether it is new. *)
Definition resolve_recurring_subscription (buyer : AccountId) (price_id : PriceId) (product : Product.t)
: MS (Subscription.t * SubscriptionId * bool * Z) :=
c ← get_state; e ← asks (fun e => e);
let now := block_timestamp e in
let product_id := Product.product_id product in
existing ← match subscription_by_account_product c !! (buyer, product_id) with
 | Some sid => mret (Some sid)
 | None => found ← lift (find_subscription_by_projected_product e c buyer product_id); mret (fst <$> found)
 end;
(match existing with
| None => assert_product_not_reserved_by_pending_update buyer product_id None
| Some _ => mret tt
end) ;;
match existing with
| Some sid =>
apply_due_subscription_update sid ;;
sub ← require_subscription_by_id sid;
requireM (String.eqb (Subscription.account_id sub) buyer) subscription_owner_error ;;
c ← get_state;
if now <? Subscription.end_ns sub then
match locks c !! Subscription.last_lock_id sub with
| Some prev => requireM (negb (bool_decide (Lock.status prev = LockStatus.Active)))
             "This subscription period already has an active lock"
| None => mret tt
end ;;
mret (sub, sid, false, now)
else if Subscription.cancel_at_period_end sub then
put_state (c <| subscription_by_account_product :=
              delete (buyer, Subscription.product_id sub) (subscription_by_account_product c) |>) ;;
remove_subscription_from_indexes buyer sid true ;;
internal_remove_subscription sid ;;
'(sid_new, sub_new) ← new_subscription_for_lock buyer product price_id now;
mret (sub_new, sid_new, true, now)
else
w ← lift (projected_subscription_window_from (Subscription.anchor_day sub) (Subscription.start_ns sub) now);
mret (sub <| Subscription.start_ns := w.1 |> <| Subscription.end_ns := w.2 |>
      <| Subscription.status := SubscriptionStatus.Active |>, sid, false, now)
| None =>
'(sid, sub) ← new_subscription_for_lock buyer product price_id now;
mret (sub, sid, true, now)
end.

Definition commit_recurring_subscription_lock_after_settle (buyer : AccountId) (locked : NearToken) (price_id : PriceId)
(validator_id : ValidatorId) : MS LockId :=
'(price, product) ← get_active_price_and_product price_id;
require_recurring_monthly_price price ;;
requireM (String.eqb (Product.validator_id product) validator_id)
"Catalog validator for this price does not match the pool used for this lock" ;;
assert_validator_active_for_lock validator_id ;;
'(sub, sub_id, is_new_index, subscription_now) ← resolve_recurring_subscription buyer price_id product;
validate_subscription_target_amount price locked ;;
c ← get_state;
(if is_new_index : bool then mret tt
else
requireM (String.eqb price_id (Subscription.price_id sub)) "price_id must match current subscription tier" ;;
match locks c !! Subscription.last_lock_id sub with
| Some prev => requireM (locked =? Lock.amount_near prev) "Locked NEAR must match current subscription stake amount"
| None => mret tt
end) ;;
requireM (subscription_now <? Subscription.end_ns sub) "Subscription billing period has already ended" ;;
let duration_ns := saturating_sub (Subscription.end_ns sub) subscription_now in
requireM (0 <? duration_ns) "Lock duration must be positive" ;;
require_price_lock (check_near_recurring_price_lock price locked) ;;
commit_catalog_lock buyer locked duration_ns
(SubscriptionOrder sub_id price_id (Subscription.start_ns sub) (Subscription.end_ns sub)) validator_id
(Some (sub, sub_id, is_new_index)).

Definition resolve_recurring_subscription_lock_after_settle (buyer : AccountId) (locked : NearToken) (price_id : PriceId)
(validator_id : ValidatorId) : MS LockId :=
assert_private ;;
require_validator_busy validator_id "Validator pool must be busy after per-epoch settlement" ;;
commit_recurring_subscription_lock_after_settle buyer locked price_id validator_id.
End tails.

(** ** unlock.rs *)
Definition require_lock_owned_by (id : LockId) (owner : AccountId) (not_found_msg owner_mismatch_msg : string) : MS Lock.t :=
  lock ← require_lock id not_found_msg;
  requireM (String.eqb (Lock.account_id lock) owner) owner_mismatch_msg ;;
  mret lock.

Definition assert_subscription_lock_can_unlock (lock : Lock.t) : MS unit :=
  c ← get_state; e ← asks (fun e => e);
  match Lock.order lock with
  | ProductPurchase _ _ => mret tt
  | SubscriptionOrder subscription_id _ _ _ =>
      match subscriptions c !! subscription_id with
      | None => mret tt
      | Some sub =>
          if negb (bool_decide (Subscription.status sub = SubscriptionStatus.Active)) ||
             Subscription.cancel_at_period_end sub then mret tt
          else
            projected ← lift (project_subscription_view_now e c sub);
            requireM (Subscription.end_ns projected <=? block_timestamp e)
              "Active subscription lock cannot be unlocked; cancel the subscription first"
      end
  end.

Definition unlock (id : LockId) : MS Promise :=
  require_enough_gas_for_epoch_settlement ;; assert_one_yocto ;; assert_not_paused ;;
  buyer ← asks predecessor_account_id;
  lock ← require_lock_owned_by id buyer "Lock not found; check the lock id" "Only the lock owner can unlock";
  requireM (bool_decide (Lock.status lock = LockStatus.Active)) "Lock is not active" ;;
  assert_subscription_lock_can_unlock lock ;;
  now ← asks block_timestamp;
  requireM (Lock.end_ns lock <=? now) "Lock period has not ended yet" ;;
  require_validator_idle (Lock.validator_id lock) ;;
  promise_validator_per_epoch_settlement_then (Lock.validator_id lock)
    (UserAction.UnlockQueueUnstake (Lock.validator_id lock) id (Lock.account_id lock) (Lock.shares lock)).

Definition resolve_unlock (id : LockId) (account_id : AccountId) (validator_id : ValidatorId) (shares_remove : Z) : MS unit :=
  assert_private ;;
  require_validator_busy validator_id "Validator pool must be busy after per-epoch settlement" ;;
  lock ← require_lock id "Lock not found";
  requireM (String.eqb (Lock.account_id lock) account_id) "Unlock no longer matches the lock owner; retry" ;;
  requireM (bool_decide (Lock.status lock = LockStatus.Active)) "Lock is no longer active; nothing to unlock" ;;
  requireM (String.eqb (Lock.validator_id lock) validator_id) "Lock validator mismatch" ;;
  requireM (Lock.shares lock =? shares_remove) "Lock shares changed; retry" ;;
  internal_unstake account_id validator_id shares_remove ;;
  emit (SEvent (log_unlock id (Lock.account_id lock) (Lock.validator_id lock))) ;;
  internal_set_lock id (lock <| Lock.status := LockStatus.UnlockRequested |>).

(** ** withdraw.rs *)
Definition tranche_sum (ts : list PendingUnstakeTranche.t) : Z :=
  foldl u128_saturating_add 0 (PendingUnstakeTranche.amount <$> ts).

Definition sum_user_unstake_tranches_yocto (c : Contract) (key : AccountId * ValidatorId) : Z :=
  match user_pending_unstake c !! key with Some ts => tranche_sum ts | None => 0 end.

Definition claimable (at_epoch : Z) (t : PendingUnstakeTranche.t) : bool :=
  PendingUnstakeTranche.available_epoch_height t <=? at_epoch.

Definition remove_claimable_tranches (key : AccountId * ValidatorId) (at_epoch : Z) : MS (Z * bool) :=
  c ← get_state;
  let tranches := default [] (user_pending_unstake c !! key) in
  let claimable_yocto := tranche_sum (List.filter (claimable at_epoch) tranches) in
  let kept := List.filter (fun t => negb (claimable at_epoch t)) tranches in
  set_user_pending_unstake_tranches key kept ;;
  mret (claimable_yocto, bool_decide (kept = [])).

Definition claim_from_withdraw_bucket (account_id : AccountId) (validator_id : ValidatorId) : MS NearToken :=
  v ← require_validator validator_id;
  let bucket := Validator.pending_to_claim v in
  requireM (0 <? bucket)
    "No NEAR is claimable yet; wait until unstaked funds are withdrawn from the pool into this contract, then retry" ;;
  eh ← asks epoch_height;
  '(credit, _) ← remove_claimable_tranches (account_id, validator_id) eh;
  requireM (0 <? credit)
    "Nothing to claim yet: wait until `epoch_height >=` your tranche's available epoch height" ;;
  requireM (credit <=? bucket)
    "Claim bucket cannot cover all claimable tranches yet; call withdraw again after more pool funds arrive" ;;
  rest ← lift (checked_op U128_MAX (bucket - credit)
                 "pending_to_claim accounting mismatch; contact the contract maintainers");
  internal_set_validator validator_id (v <| Validator.pending_to_claim := rest |>) ;;
  emit (SEvent (log_withdraw account_id validator_id credit)) ;;
  mret credit.

Definition payout_user_withdraw (account_id : AccountId) (validator_id : ValidatorId) : MS Promise :=
  credit ← claim_from_withdraw_bucket account_id validator_id;
  balance ← asks account_balance;
  requireM (credit <=? balance)
    "Contract does not hold enough NEAR to complete this withdraw transfer yet; retry after pool funds arrive" ;;
  mret [TransferTo account_id credit].

Definition withdraw (validator_id : ValidatorId) : MS Promise :=
  assert_one_yocto ;; require_enough_gas_for_epoch_settlement ;; assert_not_paused ;;
  account_id ← asks predecessor_account_id;
  ensure_min_base_storage account_id ;;
  c ← get_state;
  requireM (0 <? sum_user_unstake_tranches_yocto c (account_id, validator_id))
    "You have no unlocked NEAR waiting to claim for this validator" ;;
  require_validator_idle validator_id ;;
  promise_validator_per_epoch_settlement_then validator_id (UserAction.WithdrawUserTransfer validator_id account_id).

Definition on_withdraw_user_transfer_after_settle (account_id : AccountId) (validator_id : ValidatorId) : MS Promise :=
  assert_private ;; payout_user_withdraw account_id validator_id.

(** The running values of [get_account_pending_unstake]: total, eligible and
    the earliest future epoch. *)
Definition pending_step (epoch : Z) (acc : Z * Z * option Z) (t : PendingUnstakeTranche.t) : Z * Z * option Z :=
  let '(total, eligible, next) := acc in
  let amount := PendingUnstakeTranche.amount t in
  let h := PendingUnstakeTranche.available_epoch_height t in
  if claimable epoch t then (u128_saturating_add total amount, u128_saturating_add eligible amount, next)
  else (u128_saturating_add total amount, eligible, Some (match next with Some n => Z.min n h | None => h end)).

Definition get_account_pending_unstake (e : Env) (c : Contract) (account_id : AccountId) (validator_id : ValidatorId)
    : result AccountPendingUnstakeView.t :=
  v ← find_validator c validator_id;
  let epoch := epoch_height e in
  let tranches := default [] (user_pending_unstake c !! (account_id, validator_id)) in
  let '(total, eligible, next) := foldl (pending_step epoch) (0, 0, None) tranches in
  let bucket := Validator.pending_to_claim v in
  let can_withdraw_now := negb (paused c) && bool_decide (Validator.tx_status v = TransactionStatus.Idle) &&
                          (0 <? eligible) && (eligible <=? bucket) in
  mret (AccountPendingUnstakeView.mk account_id validator_id epoch (Config.epoch_unstake_settle_epochs (config c))
          total eligible (if can_withdraw_now then eligible else 0) next
          ((fun h => saturating_sub h epoch) <$> next) bucket can_withdraw_now
          ((fun t => PendingUnstakeTrancheView.mk (PendingUnstakeTranche.amount t)
                       (PendingUnstakeTranche.available_epoch_height t) (claimable epoch t)) <$> tranches)).
