(* ===== verification/StakingFarm.v ===== *)
(** * The staking contract: farms ([stake.rs])

    A farm position holds validator shares that earn reward units; rewards are
    shared by an accumulator per farm price. *)
From stdpp Require Import base gmap strings list.
From Stdlib Require Import ZArith Lia.
From S2P Require Import Prelude.
From S2P Require Import Near.
From S2P Require Import StakingTypes.
From S2P Require Import StakingMath.
From S2P Require Import StakingContract.
From S2P Require Import StakingCatalog.
From S2P Require Import StakingEpoch.

Local Open Scope Z_scope.
Local Open Scope record_scope.

Definition internal_set_farm_position (p : FarmPosition.t) : MS unit :=
  modify (fun c => c <| farm_positions := <[(FarmPosition.account_id p, FarmPosition.product_id p) := p]> (farm_positions c) |>).

Definition internal_set_farm_account (account_id : AccountId) (a : FarmAccount.t) : MS unit :=
  modify (fun c => c <| farm_accounts := <[account_id := a]> (farm_accounts c) |>).

Definition require_farm_price_for_product (price : Price.t) (product_id : ProductId) : MS unit :=
  requireM (bool_decide (Price.price_type price = PriceType.Farm)) "This price is not a farm price" ;;
  requireM (String.eqb (Price.product_id price) product_id) "Farm price does not belong to this product".

Definition require_active_farm_position (account_id : AccountId) (product_id : ProductId) : MS FarmPosition.t :=
  c ← get_state;
  p ← lift (expect (farm_positions c !! (account_id, product_id)) "Farm position not found");
  requireM (bool_decide (FarmPosition.status p = FarmStatus.Active)) "Farm position is not active" ;;
  requireM (0 <? FarmPosition.shares p) "Farm position has no shares" ;;
  mret p.

(** The only active farm price of a product. *)
Fixpoint find_active_farm_price (c : Contract) (ids : list PriceId) (found : option PriceId) : result (option PriceId) :=
  match ids with
  | [] => Ok found
  | candidate :: rest =>
      match prices c !! candidate with
      | Some price =>
          if bool_decide (Price.price_type price = PriceType.Farm) && bool_decide (Price.status price = CatalogStatus.Active)
          then require (bool_decide (found = None)) "Product has multiple active farm prices" ;;
               find_active_farm_price c rest (Some candidate)
          else find_active_farm_price c rest found
      | None => find_active_farm_price c rest found
      end
  end.

Definition resolve_farm_price_id (product_id : ProductId) (price_id : option PriceId) : MS PriceId :=
  match price_id with
  | Some id =>
      price ← require_price id;
      require_farm_price_for_product price product_id ;;
      requireM (bool_decide (Price.status price = CatalogStatus.Active)) "This farm price is archived or inactive" ;;
      mret id
  | None =>
      product ← require_product product_id; c ← get_state;
      found ← lift (find_active_farm_price c (Product.price_ids product) None);
      lift (expect found "No active farm price for this product")
  end.

Definition validate_farm_max_amount (account_id : AccountId) (product_id : ProductId) (price : Price.t) (deposit : Z) : MS unit :=
  c ← get_state;
  match max_amount_of (Price.metadata price) with
  | None => mret tt
  | Some max_amount =>
      current ← match farm_positions c !! (account_id, product_id) with
                | Some p =>
                    if bool_decide (FarmPosition.status p = FarmStatus.Active) then
                      v ← require_validator (FarmPosition.validator_id p);
                      lift (near_from_shares (FarmPosition.shares p) (Validator.net_stake_yocto v) (Validator.total_shares v))
                    else mret 0
                | None => mret 0
                end;
      requireM (u128_saturating_add current deposit <=? max_amount) "Farm stake exceeds max_amount"
  end.

(** ** Rewards *)
Definition settle_farm_position (account_id : AccountId) (product_id : ProductId) : MS Z :=
  p ← require_active_farm_position account_id product_id;
  settle_farm_pool (FarmPosition.price_id p) ;;
  pool ← require_farm_pool (FarmPosition.price_id p);
  accumulated ← lift (farm_position_accumulated (FarmPosition.shares p) (FarmPool.acc_reward_per_share pool));
  let pending := saturating_sub accumulated (FarmPosition.reward_debt p) in
  now ← asks block_timestamp;
  internal_set_farm_position
    (p <| FarmPosition.accrued_reward_units := u128_saturating_add (FarmPosition.accrued_reward_units p) pending |>
       <| FarmPosition.reward_debt := accumulated |> <| FarmPosition.updated_ns := now |>) ;;
  mret pending.

Definition preview_farm_position_pending (e : Env) (c : Contract) (p : FarmPosition.t) : result Z :=
  stored ← find_farm_pool c (FarmPosition.price_id p);
  pool ← simulate_settled_farm_pool e c stored;
  accumulated ← farm_position_accumulated (FarmPosition.shares p) (FarmPool.acc_reward_per_share pool);
  mret (u128_saturating_add (FarmPosition.accrued_reward_units p) (saturating_sub accumulated (FarmPosition.reward_debt p))).

Definition position_earns (p : FarmPosition.t) : bool :=
  bool_decide (FarmPosition.status p = FarmStatus.Active) && (0 <? FarmPosition.shares p).

Definition farm_position_view (e : Env) (c : Contract) (p : FarmPosition.t) : result FarmPositionView.t :=
  staked ← (if position_earns p then
              v ← find_validator c (FarmPosition.validator_id p);
              near_from_shares (FarmPosition.shares p) (Validator.net_stake_yocto v) (Validator.total_shares v)
            else mret 0);
  pending ← (if position_earns p then preview_farm_position_pending e c p
             else mret (FarmPosition.accrued_reward_units p));
  mret (FarmPositionView.mk (FarmPosition.account_id p) (FarmPosition.product_id p) (FarmPosition.price_id p)
          (FarmPosition.validator_id p) (FarmPosition.shares p) staked (FarmPosition.reward_debt p)
          (FarmPosition.accrued_reward_units p) pending pending (FarmPosition.status p)
          (FarmPosition.created_ns p) (FarmPosition.updated_ns p)).

Definition get_farm_position (e : Env) (c : Contract) (account_id : AccountId) (product_id : ProductId)
    : result (option FarmPositionView.t) :=
  match farm_positions c !! (account_id, product_id) with
  | None => Ok None
  | Some p => view ← farm_position_view e c p; mret (Some view)
  end.

(** ** Entries *)
Definition stake (product_id : ProductId) (price_id : option PriceId) : MS Promise :=
  require_enough_gas_for_epoch_settlement ;; assert_not_paused ;;
  account_id ← asks predecessor_account_id;
  ensure_min_base_storage account_id ;;
  deposit ← asks attached_deposit; c ← get_state;
  requireM (Config.min_lock_amount (config c) <=? deposit)
    "Attached NEAR is below the contract minimum lock amount (min_lock_amount)" ;;
  price_id ← resolve_farm_price_id product_id price_id;
  '(price, product) ← get_active_price_and_product price_id;
  require_farm_price_for_product price product_id ;;
  assert_validator_active_for_lock (Product.validator_id product) ;;
  requireM (Price.amount price <=? deposit) "Attached NEAR is below the farm price minimum amount" ;;
  validate_farm_max_amount account_id product_id price deposit ;;
  match farm_positions c !! (account_id, product_id) with
  | Some p =>
      if bool_decide (FarmPosition.status p = FarmStatus.Active)
      then requireM (String.eqb (FarmPosition.price_id p) price_id) "Existing farm position uses a different price"
      else mret tt
  | None => ensure_min_storage_for_new_farm_position account_id
  end ;;
  require_validator_idle (Product.validator_id product) ;;
  promise_validator_per_epoch_settlement_then (Product.validator_id product)
    (UserAction.CommitFarmStake (Product.validator_id product) account_id deposit product_id price_id).

Definition unstake (product_id : ProductId) (amount : option Z) : MS Promise :=
  require_enough_gas_for_epoch_settlement ;; assert_one_yocto ;; assert_not_paused ;;
  account_id ← asks predecessor_account_id;
  ensure_min_base_storage account_id ;;
  p ← require_active_farm_position account_id product_id;
  require_validator_idle (FarmPosition.validator_id p) ;;
  promise_validator_per_epoch_settlement_then (FarmPosition.validator_id p)
    (UserAction.FarmUnstakeQueue (FarmPosition.validator_id p) account_id product_id amount).

(** ** Tails *)
Definition add_farm_position_product_to_account (account_id : AccountId) (product_id : ProductId) : MS unit :=
  modify (fun c =>
    let ids := default [] (farm_position_products_by_account c !! account_id) in
    if bool_decide (product_id ∈ ids) then c
    else c <| farm_position_products_by_account := <[account_id := ids ++ [product_id]]> (farm_position_products_by_account c) |>).

Definition increment_active_farm_position_count (account_id : AccountId) : MS unit :=
  now ← asks block_timestamp; c ← get_state;
  let a := default (FarmAccount.mk account_id 0 0 now) (farm_accounts c !! account_id) in
  internal_set_farm_account account_id
    (a <| FarmAccount.active_position_count := u32_saturating_add (FarmAccount.active_position_count a) 1 |>
       <| FarmAccount.last_update_ns := now |>).

Definition increment_farm_position_storage_count (account_id : AccountId) : MS unit :=
  modify (fun c => c <| user_farm_position_count :=
    <[account_id := u32_saturating_add (count (user_farm_position_count c) account_id) 1]> (user_farm_position_count c) |>).

Definition commit_farm_stake (account_id : AccountId) (deposit : NearToken) (product_id : ProductId) (price_id : PriceId)
    (validator_id : ValidatorId) : MS FarmPosition.t :=
  '(price, product) ← get_active_price_and_product price_id;
  require_farm_price_for_product price product_id ;;
  requireM (String.eqb (Product.validator_id product) validator_id)
    "Catalog validator for this farm price does not match the pool used for this stake" ;;
  validate_farm_max_amount account_id product_id price deposit ;;
  c ← get_state;
  let existing := farm_positions c !! (account_id, product_id) in
  let is_new_position := bool_decide (existing = None) in
  (if is_new_position then ensure_min_storage_for_new_farm_position account_id else mret tt) ;;
  match existing with
  | Some p =>
      if bool_decide (FarmPosition.status p = FarmStatus.Active)
      then settle_farm_position account_id product_id ;; mret tt
      else settle_farm_pool price_id
  | None => settle_farm_pool price_id
  end ;;
  added_shares ← internal_stake account_id validator_id deposit;
  pool ← require_farm_pool price_id;
  let pool := pool <| FarmPool.total_farm_shares := u128_saturating_add (FarmPool.total_farm_shares pool) added_shares |> in
  internal_set_farm_pool price_id pool ;;
  now ← asks block_timestamp; c ← get_state;
  let p := default (FarmPosition.mk account_id product_id price_id validator_id 0 0 0 FarmStatus.Active now now)
             (farm_positions c !! (account_id, product_id)) in
  let was_inactive := negb (bool_decide (FarmPosition.status p = FarmStatus.Active)) || (FarmPosition.shares p =? 0) in
  let p := if bool_decide (FarmPosition.status p = FarmStatus.Closed) then
             p <| FarmPosition.price_id := price_id |> <| FarmPosition.validator_id := validator_id |>
               <| FarmPosition.shares := 0 |> <| FarmPosition.reward_debt := 0 |>
               <| FarmPosition.accrued_reward_units := 0 |> <| FarmPosition.status := FarmStatus.Active |>
               <| FarmPosition.created_ns := now |>
           else p in
  let shares := u128_saturating_add (FarmPosition.shares p) added_shares in
  debt ← lift (farm_position_accumulated shares (FarmPool.acc_reward_per_share pool));
  let p := p <| FarmPosition.shares := shares |> <| FarmPosition.reward_debt := debt |> <| FarmPosition.updated_ns := now |> in
  internal_set_farm_position p ;;
  (if was_inactive then increment_active_farm_position_count account_id else mret tt) ;;
  (if is_new_position then increment_farm_position_storage_count account_id else mret tt) ;;
  add_farm_position_product_to_account account_id product_id ;;
  internal_set_price price_id (price <| Price.usage_count := u64_saturating_add (Price.usage_count price) 1 |>) ;;
  internal_set_product product_id (product <| Product.usage_count := u64_saturating_add (Product.usage_count product) 1 |>) ;;
  emit (SEvent (log_farm_stake account_id product_id price_id validator_id deposit added_shares)) ;;
  mret p.

Definition commit_farm_unstake (account_id : AccountId) (product_id : ProductId) (validator_id : ValidatorId)
    (shares_remove : Z) : MS unit :=
  settle_farm_position account_id product_id ;;
  p ← require_active_farm_position account_id product_id;
  requireM (String.eqb (FarmPosition.validator_id p) validator_id) "Farm validator mismatch" ;;
  requireM (shares_remove <=? FarmPosition.shares p) "Cannot unstake more farm shares than the position holds" ;;
  near_yocto ← internal_unstake account_id validator_id shares_remove;
  pool ← require_farm_pool (FarmPosition.price_id p);
  requireM (shares_remove <=? FarmPool.total_farm_shares pool) "Farm pool shares underflow" ;;
  let pool := pool <| FarmPool.total_farm_shares := FarmPool.total_farm_shares pool - shares_remove |> in
  internal_set_farm_pool (FarmPosition.price_id p) pool ;;
  now ← asks block_timestamp; c ← get_state;
  let shares := FarmPosition.shares p - shares_remove in
  debt ← lift (farm_position_accumulated shares (FarmPool.acc_reward_per_share pool));
  let p := p <| FarmPosition.shares := shares |> <| FarmPosition.reward_debt := debt |> <| FarmPosition.updated_ns := now |> in
  p ← (if FarmPosition.shares p =? 0 then
         let a := default (FarmAccount.mk account_id 0 0 0) (farm_accounts c !! account_id) in
         internal_set_farm_account account_id
           (a <| FarmAccount.accumulated_reward_units :=
                   u128_saturating_add (FarmAccount.accumulated_reward_units a) (FarmPosition.accrued_reward_units p) |>
              <| FarmAccount.active_position_count := saturating_sub (FarmAccount.active_position_count a) 1 |>
              <| FarmAccount.last_update_ns := now |>) ;;
         mret (p <| FarmPosition.accrued_reward_units := 0 |> <| FarmPosition.status := FarmStatus.Closed |>)
       else mret p);
  internal_set_farm_position p ;;
  emit (SEvent (log_farm_unstake account_id product_id (FarmPosition.price_id p) validator_id near_yocto shares_remove
                  (FarmPosition.shares p))).

Definition farm_unstake_shares_for_amount (p : FarmPosition.t) (v : Validator.t) (amount : option Z) : result Z :=
  match amount with
  | None => Ok (FarmPosition.shares p)
  | Some amount =>
      require (0 <? amount) "Unstake amount must be greater than zero" ;;
      let net_stake := Validator.net_stake_yocto v in
      require (0 <? net_stake) "Cannot price farm unstake with no effective stake" ;;
      position_near ← near_from_shares (FarmPosition.shares p) net_stake (Validator.total_shares v);
      if position_near <=? amount then mret (FarmPosition.shares p)
      else farm_shares_for_amount_ceil amount (Validator.total_shares v) net_stake (FarmPosition.shares p)
  end.

Definition resolve_farm_stake (account_id : AccountId) (deposit : NearToken) (product_id : ProductId) (price_id : PriceId)
    (validator_id : ValidatorId) : MS FarmPosition.t :=
  assert_private ;;
  require_validator_busy validator_id "Validator pool must be busy after per-epoch settlement" ;;
  commit_farm_stake account_id deposit product_id price_id validator_id.

Definition resolve_farm_unstake (account_id : AccountId) (product_id : ProductId) (validator_id : ValidatorId)
    (amount : option Z) : MS unit :=
  assert_private ;;
  v ← require_validator_busy validator_id "Validator pool must be busy after per-epoch settlement";
  p ← require_active_farm_position account_id product_id;
  shares_remove ← lift (farm_unstake_shares_for_amount p v amount);
  commit_farm_unstake account_id product_id validator_id shares_remove.
