(* ===== verification/Upgrade.v ===== *)
(** * Upgrades

    [upgrade.rs] of the veNEAR, voting and staking contracts. [upgrade] takes
    the new code as its input and returns one batch of actions on the contract's
    own account: deploy the code, call its [migrate_state], call its
    [get_config]. A batch is one receipt: when an action fails, the runtime
    takes all of them back. *)
From stdpp Require Import base gmap strings list.
From Stdlib Require Import ZArith Lia.
From S2P Require Import Prelude.
From S2P Require Import Near.
From S2P Require Import Common.
From S2P Require Import CommonFacts.
From S2P Require Import MerkleTree.
From S2P Require Import VenearContract.
From S2P Require Import VenearLedger.
From S2P Require Import VenearInvariant.
From S2P Require Import VenearMigrate.
From S2P Require Import VotingTypes.
From S2P Require Import VotingContract.
From S2P Require Import StakingTypes.
From S2P Require Import StakingContract.

Local Open Scope Z_scope.

Module Upgrade.
Definition MIGRATE_STATE_GAS : Z := 50_000_000_000_000.
Definition GET_CONFIG_GAS : Z := 5_000_000_000_000.

Section upgrade.
Context {Eff S : Type}.

(** Contract code: the methods of the new code an upgrade calls. *)
Record Code : Type := mkCode { version : string; migrate_state : M Eff S unit; get_config : M Eff S unit }.
Record Account : Type := mkAccount { code : Code; state : S }.

Inductive Action : Type :=
| DeployContract (new_code : Code)
| FunctionCallWeight (method : string) (gas weight : Z)
| FunctionCall (method : string) (gas : Z).

(** The actions of the batch; [assert_owner] is that of the contract. *)
Definition upgrade (assert_owner : M Eff S unit) (input : Code) : M Eff S (list Action) :=
assert_owner ;;
mret [DeployContract input; FunctionCallWeight "migrate_state" MIGRATE_STATE_GAS 1; FunctionCall "get_config" GET_CONFIG_GAS].

(** The execution of an action and of a batch on the account. *)
Definition call (method : string) (e : Env) (a : Account) : result Account :=
let run m := match m e (state a) with Ok (_, s, _) => Ok (mkAccount (code a) s) | Panic msg => Panic msg end in
if String.eqb method "migrate_state" then run (migrate_state (code a))
else if String.eqb method "get_config" then run (get_config (code a))
else Panic "MethodNotFound".
Definition act (e : Env) (a : Account) (x : Action) : result Account :=
match x with
| DeployContract new_code => Ok (mkAccount new_code (state a))
| FunctionCallWeight method _ _ | FunctionCall method _ => call method e a
end.
Fixpoint act_all (e : Env) (a : Account) (batch : list Action) : result Account :=
match batch with [] => Ok a | x :: rest => a' ← act e a x; act_all e a' rest end.
Definition run_batch (e : Env) (a : Account) (batch : list Action) : Account :=
match act_all e a batch with Ok a' => a' | Panic _ => a end.

(** The batch of an upgrade is all or nothing. *)
Lemma run_upgrade guard input e e' a batch s es : upgrade guard input e (state a) = Ok (batch, s, es) ->
(exists es', guard e (state a) = Ok (tt, s, es')) /\
run_batch e' a batch =
match migrate_state input e' (state a) with
| Ok (_, s1, _) => match get_config input e' s1 with Ok (_, s2, _) => mkAccount input s2 | Panic _ => a end
| Panic _ => a
end.
Proof.
unfold upgrade. intros H. m_inv. split; [eauto|]. unfold run_batch. cbn.
destruct (migrate_state input e' (state a)) as [[[[] s1] es1]|]; cbn; [|done].
by destruct (get_config input e' s1) as [[[[] s2] es2]|].
Qed.
End upgrade.
Arguments Code : clear implicits.
Arguments Account : clear implicits.

(** ** The code of this repository *)
Definition CARGO_PKG_VERSION : string := "1.1.1".
Definition venear_code `{VH : VenearHost} : Code Effect VenearContract.Contract :=
mkCode CARGO_PKG_VERSION VenearContract.migrate_state (get_state ;; mret tt).
(** [migrate_state] of the other two reads the state as it is. *)
Definition voting_code `{VT : VotingHost} : Code VEffect Voting := mkCode CARGO_PKG_VERSION assert_private (get_state ;; mret tt).
Definition staking_code : Code SEffect StakingContract.Contract := mkCode CARGO_PKG_VERSION assert_private (get_state ;; mret tt).

(** C23. An upgrade of veNEAR to this version loses nothing and rebuilds the
pools: only the owner can start it; the batch is all or nothing (the account
with its old code and state when the migration panics); when the migration
runs, the new code has every account of the old state, with its own balance,
its delegations and its time, and no other; the lockup records, the
configuration, the supply, the pause and the stored code are the old ones; the
pool of every delegate is what its delegators' balances add up to, whatever the
old state had there, so the full invariant holds from any sound account table;
and a ledger that was exact is not changed. *)
Theorem upgrade_is_safe `{VH : VenearHost} e e' a batch c es : PreInv (state a) -> env_ok e' ->
upgrade VenearContract.assert_owner venear_code e (state a) = Ok (batch, c, es) ->
let t := truncate_to_seconds (block_timestamp e') in
predecessor_account_id e = VenearContract.owner_account_id (VenearContract.config (state a)) /\
run_batch e' a batch =
match VenearContract.migrate_state e' (state a) with Ok (_, c', _) => mkAccount venear_code c' | Panic _ => a end /\
(forall u c' es', VenearContract.migrate_state e' (state a) = Ok (u, c', es') ->
VenearInvariant.Inv c' /\ snap t c' = rebuilt (snap t (state a)) /\ frame (state a) c' /\
(VenearInvariant.Inv (state a) -> snap t c' = snap t (state a))).
Proof.
intros HP He H t. apply (run_upgrade _ _ _ e') in H as [[es' Ho] Hb]. split_and!.
- unfold VenearContract.assert_owner in Ho. m_inv. by apply String.eqb_eq.
- rewrite Hb. cbn. by destruct (VenearContract.migrate_state e' (state a)) as [[[[] ?] ?]|].
- intros u c' es1 Hm. apply migrate_rebuilds in Hm as (HI & Hf & Hs); [|done..]. split_and!; try done.
intros HI0. fold t in Hs. rewrite Hs. apply rebuilt_exact, HI0, truncate_to_seconds_aligned.
Qed.
End Upgrade.
