(* ===== verification/StakingWorld.v ===== *)
(** * Executions of the staking contract

    The entry points as data, the dispatch of the contract's calls to itself,
    and worlds: the contract with its NEAR and the promise chains in flight.
    The chains advance one receipt at a time and interleave freely; a pool may
    answer or fail at every call. *)
From stdpp Require Import base gmap strings list.
From Stdlib Require Import ZArith Lia.
From S2P Require Import Prelude.
From S2P Require Import Near.
From S2P Require Import MerkleTree.
From S2P Require Import StakingTypes.
From S2P Require Import StakingMath.
From S2P Require Import StakingContract.
From S2P Require Import StakingCatalog.
From S2P Require Import StakingEpoch.
From S2P Require Import StakingSubscriptions.
From S2P Require Import StakingLocks.
From S2P Require Import StakingFarm.

Local Open Scope Z_scope.

(** ** What an executed receipt answers *)
Inductive Answer : Type :=
| Failure
| Done
| ABool (b : bool)
| AId (id : string)
| APosition (p : FarmPosition.t)
| AOutcome (o : SubscriptionPlanChangeOutcome.t)
| AAccount (view : PoolAccountView.t).

Definition answer_bool (r : option Answer) : option bool := match r with Some (ABool b) => Some b | _ => None end.
Definition answer_id (r : option Answer) : option string := match r with Some (AId x) => Some x | _ => None end.
Definition answer_position (r : option Answer) : option FarmPosition.t :=
  match r with Some (APosition p) => Some p | _ => None end.
Definition answer_outcome (r : option Answer) : option SubscriptionPlanChangeOutcome.t :=
  match r with Some (AOutcome o) => Some o | _ => None end.
Definition answer_account (r : option Answer) : option PoolAccountView.t :=
  match r with Some (AAccount view) => Some view | _ => None end.

(** The promise results a callback sees; the first receipt of a chain awaits
    nothing. *)
Definition results_of (r : option Answer) : list PromiseResult :=
  match r with None => [] | Some Failure => [Failed] | Some _ => [Successful] end.

Section world.
Context `{HC : Crypto} `{IS : IdSet}.

Definition giving {A} (f : A -> Answer) (m : MS A) : MS (PromiseOrValue Answer) := a ← m; mret (Value (f a)).
Definition returning (m : MS Promise) : MS (PromiseOrValue Answer) := p ← m; mret (Returned p).
Definition mapping {A} (f : A -> Answer) (m : MS (PromiseOrValue A)) : MS (PromiseOrValue Answer) :=
x ← m; mret (match x with Value a => Value (f a) | Returned p => Returned p end).

(** A call of the contract to itself, with the answer it awaits. *)
Definition run_self_call (call : SelfCall) (r : option Answer) : MS (PromiseOrValue Answer) :=
match call with
| OnEpochSettlementAfterPoolAccount v cont => returning (on_epoch_settlement_after_pool_account (answer_account r) v cont)
| OnEpochWithdrawTransferDone v withdrawn => giving ABool (on_epoch_withdraw_transfer_done v withdrawn)
| OnAfterPoolWithdrawMaybeSettle v cont => mapping ABool (on_after_pool_withdraw_maybe_settle (answer_bool r) v cont)
| OnDepositAndStake v => giving ABool (on_deposit_and_stake v)
| OnUnstake v => giving ABool (on_unstake v)
| OnEpochSettlementDispatchContinue cont =>
returning (assert_private ;; mret (on_epoch_settlement_dispatch_continue cont))
| ResolveLock buyer locked duration_ns order v => giving AId (resolve_lock buyer locked duration_ns order v)
| ResolveRecurringSubscriptionLockAfterSettle buyer locked price v =>
giving AId (resolve_recurring_subscription_lock_after_settle buyer locked price v)
| ResolveFarmStake account deposit product price v => giving APosition (resolve_farm_stake account deposit product price v)
| OnSubscriptionUpdateAfterSettle buyer deposit price amount sub v =>
giving AOutcome (on_subscription_update_after_settle buyer deposit price amount sub v)
| ResolveUnlock lock account v shares => giving (fun _ => Done) (resolve_unlock lock account v shares)
| ResolveFarmUnstake account product v amount => giving (fun _ => Done) (resolve_farm_unstake account product v amount)
| OnWithdrawUserTransferAfterSettle account v => returning (on_withdraw_user_transfer_after_settle account v)
| OnEpochPipelineTerminalRelease v => giving (fun _ => Done) (on_epoch_pipeline_terminal_release v)
| OnEpochPipelineReleaseWithLockId v cont =>
mapping AId (on_epoch_pipeline_release_with_lock_id (answer_id r) v cont)
| OnEpochPipelineReleaseWithFarmPosition v cont =>
mapping APosition (on_epoch_pipeline_release_with_farm_position (answer_position r) v cont)
| OnEpochPipelineReleaseWithSubscriptionUpdateOutcome v cont =>
mapping AOutcome (on_epoch_pipeline_release_with_subscription_update_outcome (answer_outcome r) v cont)
| AddValidatorCatalogManagerAfterGetOwner v m caller =>
giving (fun _ => Done) (add_validator_catalog_manager_after_get_owner (answer_id r) v m caller)
| RemoveValidatorCatalogManagerAfterGetOwner v m caller =>
giving (fun _ => Done) (remove_validator_catalog_manager_after_get_owner (answer_id r) v m caller)
| CreateProductAfterGetOwner v name description caller =>
giving AId (create_product_after_get_owner (answer_id r) v name description caller)
| EditProductAfterGetOwner p name description caller =>
giving (fun _ => Done) (edit_product_after_get_owner (answer_id r) p name description caller)
| ArchiveProductAfterGetOwner p caller => giving (fun _ => Done) (archive_product_after_get_owner (answer_id r) p caller)
| DeleteProductAfterGetOwner p caller => giving (fun _ => Done) (delete_product_after_get_owner (answer_id r) p caller)
| UnarchiveProductAfterGetOwner p caller => giving (fun _ => Done) (unarchive_product_after_get_owner (answer_id r) p caller)
| SetProductDefaultPriceAfterGetOwner p price caller =>
giving (fun _ => Done) (set_product_default_price_after_get_owner (answer_id r) p price caller)
| CreatePriceAfterGetOwner p name description amount ty period factor metadata caller =>
giving AId (create_price_after_get_owner (answer_id r) p name description amount ty period factor metadata caller)
| EditPriceAfterGetOwner p name description metadata caller =>
giving (fun _ => Done) (edit_price_after_get_owner (answer_id r) p name description metadata caller)
| ArchivePriceAfterGetOwner p caller => giving (fun _ => Done) (archive_price_after_get_owner (answer_id r) p caller)
| DeletePriceAfterGetOwner p caller => giving (fun _ => Done) (delete_price_after_get_owner (answer_id r) p caller)
| UnarchivePriceAfterGetOwner p caller => giving (fun _ => Done) (unarchive_price_after_get_owner (answer_id r) p caller)
| WithdrawRevenueAfterGetOwner v caller => returning (withdraw_revenue_after_get_owner (answer_id r) v caller)
end.

(** ** The public methods that change state *)
Inductive Call : Type :=
| CPause | CUnpause
| CProposeNewOwner (o : option AccountId) | CAcceptOwnership | CSetGuardians (l : list AccountId)
| CSetPerLockStorageStake (x : NearToken) | CSetPerFarmPositionStorageStake (x : NearToken)
| CSetPerPurchaseStorageStake (x : NearToken) | CSetLockBounds (min max : Z) | CSetMinLockAmount (x : NearToken)
| CSetMinStorageDeposit (x : NearToken) | CSetEpochUnstakeSettleEpochs (x : Z)
| CStorageDeposit (account : option AccountId) (registration_only : option bool)
| CStorageWithdraw (amount : option NearToken) | CStorageUnregister (force : option bool)
| CAddValidator (v : ValidatorId) | CPauseValidator (v : ValidatorId) | CRemoveValidator (v : ValidatorId)
| CAddManager (v : ValidatorId) (m : AccountId) | CRemoveManager (v : ValidatorId) (m : AccountId)
| CCreateProduct (v : ValidatorId) (name description : string) | CEditProduct (p : ProductId) (name description : string)
| CArchiveProduct (p : ProductId) | CDeleteProduct (p : ProductId) | CUnarchiveProduct (p : ProductId)
| CSetProductDefaultPrice (p : ProductId) (price : option PriceId)
| CCreatePrice (p : ProductId) (name description : string) (amount : Z) (ty : PriceType.t)
(period : option BillingPeriod.t) (factor : Z) (metadata : option PriceMetadata.t)
| CEditPrice (p : PriceId) (name description : option string) (metadata : option PriceMetadata.t)
| CArchivePrice (p : PriceId) | CUnarchivePrice (p : PriceId) | CDeletePrice (p : PriceId)
| CPay (price : option PriceId) (product : option ProductId) (quantity : Z)
| CWithdrawRevenue (v : ValidatorId)
| CLock (price : option PriceId) (product : option ProductId) (duration_ns : option Z)
| CUnlock (lock : LockId) | CWithdraw (v : ValidatorId) | CEpochSettle (v : ValidatorId)
| CStake (product : ProductId) (price : option PriceId) | CUnstake (product : ProductId) (amount : option Z)
| CCancelSubscription (sub : SubscriptionId) | CResumeSubscription (sub : SubscriptionId)
| CUpdateSubscription (sub : SubscriptionId) (price : PriceId) (amount : Z).

Definition alone {A} (m : MS A) : MS Promise := m ;; mret [].

(** A public call, with the promise chain it returns. *)
Definition exec (x : Call) : MS Promise :=
match x with
| CPause => alone pause
| CUnpause => alone unpause
| CProposeNewOwner o => alone (propose_new_owner_account_id o)
| CAcceptOwnership => alone accept_ownership
| CSetGuardians l => alone (set_guardians l)
| CSetPerLockStorageStake x => alone (set_per_lock_storage_stake x)
| CSetPerFarmPositionStorageStake x => alone (set_per_farm_position_storage_stake x)
| CSetPerPurchaseStorageStake x => alone (set_per_purchase_storage_stake x)
| CSetLockBounds min max => alone (set_lock_bounds min max)
| CSetMinLockAmount x => alone (set_min_lock_amount x)
| CSetMinStorageDeposit x => alone (set_min_storage_deposit x)
| CSetEpochUnstakeSettleEpochs x => alone (set_epoch_unstake_settle_epochs x)
| CStorageDeposit account only => alone (storage_deposit account only)
| CStorageWithdraw amount => alone (storage_withdraw amount)
| CStorageUnregister force => alone (storage_unregister force)
| CAddValidator v => alone (add_validator v)
| CPauseValidator v => alone (pause_validator v)
| CRemoveValidator v => alone (remove_validator v)
| CAddManager v m => add_validator_catalog_manager v m
| CRemoveManager v m => remove_validator_catalog_manager v m
| CCreateProduct v name description => create_product v name description
| CEditProduct p name description => edit_product p name description
| CArchiveProduct p => archive_product p
| CDeleteProduct p => delete_product p
| CUnarchiveProduct p => unarchive_product p
| CSetProductDefaultPrice p price => set_product_default_price p price
| CCreatePrice p name description amount ty period factor metadata =>
create_price p name description amount ty period factor metadata
| CEditPrice p name description metadata => edit_price p name description metadata
| CArchivePrice p => archive_price p
| CUnarchivePrice p => unarchive_price p
| CDeletePrice p => delete_price p
| CPay price product quantity => alone (pay price product quantity)
| CWithdrawRevenue v => withdraw_revenue v
| CLock price product duration_ns => lock price product duration_ns
| CUnlock l => unlock l
| CWithdraw v => withdraw v
| CEpochSettle v => epoch_settle v
| CStake product price => stake product price
| CUnstake product amount => unstake product amount
| CCancelSubscription sub => alone (cancel_subscription sub)
| CResumeSubscription sub => alone (resume_subscription sub)
| CUpdateSubscription sub price amount => update_subscription sub price amount
end.

(** ** Worlds *)
Record Chain : Type := mkChain { steps : list PStep; awaited : option Answer }.

Record World : Type := mkWorld {
contract : Contract;
balance : Z;
chains : list Chain
}.

(** NEAR leaves the account when the receipt that carries it is created: with
its first receipt for a chain, since the contract is charged when the
call that creates the chain ends. *)
Definition step_deposit (s : PStep) : Z :=
match s with CallPool _ _ deposit _ => deposit | CallSelf _ _ => 0 | TransferTo _ amount => amount end.
Definition chain_deposit (p : Promise) : Z := list_sum_Z step_deposit p.

Definition detached (es : list SEffect) : list Promise :=
omap (fun ef => match ef with Detached receiver amount => Some [TransferTo receiver amount] | _ => None end) es.

Definition spent (p : Promise) (es : list SEffect) : Z := chain_deposit p + list_sum_Z chain_deposit (detached es).

Definition started (ps : list Promise) : list Chain := (fun p => mkChain p None) <$> ps.

(** What a pool may answer: balances are not negative. *)
Definition pool_answers (call : PoolCall) (a : Answer) : Prop :=
match call, a with
| _, Failure => True
| GetOwnerId, AId _ => True
| DepositAndStake, Done | Unstake _, Done | Withdraw _, Done => True
| GetAccount _, AAccount view =>
0 <= PoolAccountView.unstaked_balance view <= U128_MAX /\ 0 <= PoolAccountView.staked_balance view <= U128_MAX
| _, _ => False
end.

(** NEAR that comes (back) to the account with the answer of a receipt: a
failed receipt returns its deposit, a withdrawal pays. *)
Definition received (s : PStep) (a : Answer) : Z :=
match s, a with
| CallPool _ _ deposit _, Failure => deposit
| TransferTo _ amount, Failure => amount
| CallPool _ (Withdraw amount) _ _, _ => amount
| _, _ => 0
end.

(** ** Steps

[step_at o w w']: a step, with the host [o] of the receipt the contract runs
in it, if it runs one. *)
Inductive step_at : option Env -> World -> World -> Prop :=
| step_call w e x p c' es :
env_ok e -> account_balance e = balance w + attached_deposit e -> promise_results e = [] ->
predecessor_account_id e <> current_account_id e ->
exec x e (contract w) = Ok (p, c', es) ->
step_at (Some e) w (mkWorld c' (balance w + attached_deposit e - spent p es)
   (chains w ++ started (p :: detached es)))
| step_pool w i pool call deposit gas rest r a :
chains w !! i = Some (mkChain (CallPool pool call deposit gas :: rest) r) -> pool_answers call a ->
step_at None w (mkWorld (contract w) (balance w + received (CallPool pool call deposit gas) a)
   (<[i := mkChain rest (Some a)]> (chains w)))
| step_transfer w i receiver amount rest r a :
chains w !! i = Some (mkChain (TransferTo receiver amount :: rest) r) -> a = Done \/ a = Failure ->
step_at None w (mkWorld (contract w) (balance w + received (TransferTo receiver amount) a)
   (<[i := mkChain rest (Some a)]> (chains w)))
| step_self_value w i call gas rest r e a c' es :
chains w !! i = Some (mkChain (CallSelf call gas :: rest) r) ->
env_ok e -> account_balance e = balance w -> attached_deposit e = 0 -> promise_results e = results_of r ->
predecessor_account_id e = current_account_id e ->
run_self_call call r e (contract w) = Ok (Value a, c', es) ->
step_at (Some e) w (mkWorld c' (balance w - spent [] es)
   (<[i := mkChain rest (Some a)]> (chains w) ++ started (detached es)))
| step_self_promise w i call gas rest r e p c' es :
chains w !! i = Some (mkChain (CallSelf call gas :: rest) r) ->
env_ok e -> account_balance e = balance w -> attached_deposit e = 0 -> promise_results e = results_of r ->
predecessor_account_id e = current_account_id e ->
run_self_call call r e (contract w) = Ok (Returned p, c', es) ->
step_at (Some e) w (mkWorld c' (balance w - spent p es)
   (<[i := mkChain (p ++ rest) None]> (chains w) ++ started (detached es)))
| step_self_panic w i call gas rest r e msg :
chains w !! i = Some (mkChain (CallSelf call gas :: rest) r) ->
env_ok e -> account_balance e = balance w -> attached_deposit e = 0 -> promise_results e = results_of r ->
predecessor_account_id e = current_account_id e ->
run_self_call call r e (contract w) = Panic msg ->
step_at (Some e) w (mkWorld (contract w) (balance w) (<[i := mkChain rest (Some Failure)]> (chains w)))
| step_income w n : 0 <= n -> step_at None w (mkWorld (contract w) (balance w + n) (chains w)).

Definition wstep (w w' : World) : Prop := exists o, step_at o w w'.
End world.
