(* ===== verification/MockPool.v ===== *)
(** * The mock staking pool (mock-staking-pool-contract/src/lib.rs)

    The pool the staking contract runs against in its integration tests: the
    methods of [ExtStakingPool] over two maps of balances. The theorems show
    that it is one of the pools the worlds of the staking contract allow: its
    answers have the shape [pool_answers] asks for, and the NEAR it takes and
    gives is the NEAR the worlds count ([step_deposit], [received]). *)
From stdpp Require Import base gmap strings list.
From Stdlib Require Import ZArith Lia.
From S2P Require Import Prelude.
From S2P Require Import Near.
From S2P Require Import MerkleTree.
From S2P Require Import StakingTypes.
From S2P Require Import StakingContract.
From S2P Require Import StakingWorld.

Local Open Scope Z_scope.
Local Open Scope record_scope.

Module MockPool.

Record MockStakingPoolContract : Type := mkMock {
owner_id : AccountId;
unstaked : gmap AccountId NearToken;
staked : gmap AccountId NearToken;
fail_get_account : bool;
fail_next_withdraw : bool
}.

(** [Promise::new(receiver).transfer(amount)]. *)
Inductive MEffect : Type :=
| MTransfer (receiver : AccountId) (amount : NearToken).

Abbreviation MP := (M MEffect MockStakingPoolContract).

#[global] Instance eta_Mock : Eta MockStakingPoolContract := fun x =>
mkMock (owner_id x) (unstaked x) (staked x) (fail_get_account x) (fail_next_withdraw x).
#[global] Instance set_unstaked : Setter unstaked := ltac:(derive_setter).
#[global] Instance set_staked : Setter staked := ltac:(derive_setter).
#[global] Instance set_fail_get_account_flag : Setter fail_get_account := ltac:(derive_setter).
#[global] Instance set_fail_next_withdraw_flag : Setter fail_next_withdraw := ltac:(derive_setter).

Definition mock_new (owner : AccountId) : MockStakingPoolContract := mkMock owner ∅ ∅ false false.

(** Zero when there is no entry. *)
Definition get_unstaked (c : MockStakingPoolContract) (account_id : AccountId) : NearToken :=
default 0 (unstaked c !! account_id).

Definition get_staked (c : MockStakingPoolContract) (account_id : AccountId) : NearToken :=
default 0 (staked c !! account_id).

Definition insert_staked (account_id : AccountId) (value : NearToken) (c : MockStakingPoolContract) :
MockStakingPoolContract :=
if value =? 0 then c <| staked := delete account_id (staked c) |> else c <| staked := <[account_id := value]> (staked c) |>.

Definition get_owner_id : MP AccountId := c ← get_state; mret (owner_id c).

Definition set_fail_get_account (fail : bool) : MP unit :=
c ← get_state; p ← asks predecessor_account_id;
requireM (String.eqb p (owner_id c)) "Only pool owner can set test failure flags";;
modify (fun c => c <| fail_get_account := fail |>).

Definition set_fail_next_withdraw (fail : bool) : MP unit :=
c ← get_state; p ← asks predecessor_account_id;
requireM (String.eqb p (owner_id c)) "Only pool owner can set test failure flags";;
modify (fun c => c <| fail_next_withdraw := fail |>).

Definition deposit_and_stake : MP unit :=
account_id ← asks predecessor_account_id; deposit ← asks attached_deposit;
requireM (0 <? deposit) "deposit_and_stake requires attached deposit";;
c ← get_state;
next ← lift (checked_op U128_MAX (get_staked c account_id + deposit) "staked overflow");
modify (fun c => c <| staked := <[account_id := next]> (staked c) |>).

Definition unstake (amount : NearToken) : MP unit :=
account_id ← asks predecessor_account_id;
requireM (0 <? amount) "unstake amount must be positive";;
c ← get_state;
let have := get_staked c account_id in
let move_yocto := Z.min amount have in
requireM (0 <? move_yocto) "insufficient staked balance";;
new_staked ← lift (u128_sub have move_yocto);
modify (insert_staked account_id new_staked);;
c ← get_state;
new_u ← lift (checked_op U128_MAX (get_unstaked c account_id + move_yocto) "unstaked overflow");
modify (fun c => c <| unstaked := <[account_id := new_u]> (unstaked c) |>).

Definition get_account (account_id : AccountId) : MP PoolAccountView.t :=
c ← get_state;
if fail_get_account c then panicM "mock pool forced get_account failure"
else mret (PoolAccountView.mk (get_unstaked c account_id) (get_staked c account_id) true).

Definition get_account_unstaked_balance (account_id : AccountId) : MP NearToken :=
c ← get_state; mret (get_unstaked c account_id).

Definition get_account_total_balance (account_id : AccountId) : MP NearToken :=
acct ← get_account account_id;
lift (u128_add (PoolAccountView.unstaked_balance acct) (PoolAccountView.staked_balance acct)).

Definition withdraw (amount : NearToken) : MP unit :=
c ← get_state;
(if fail_next_withdraw c then
modify (fun c => c <| fail_next_withdraw := false |>);;
panicM "mock pool forced withdraw failure"
else mret tt);;
account_id ← asks predecessor_account_id;
c ← get_state;
let us := get_unstaked c account_id in
requireM (amount <=? us) "insufficient unstaked balance";;
new_u ← lift (checked_op U128_MAX (us - amount) "unstaked underflow");
modify (fun c => if new_u =? 0 then c <| unstaked := delete account_id (unstaked c) |>
       else c <| unstaked := <[account_id := new_u]> (unstaked c) |>);;
emit (MTransfer account_id amount).

(** ** The pool behind the calls of the staking contract *)

(** A call of the staking contract: the pool's state after it and the answer
the caller's callback awaits. A method that panics leaves the pool as it was
and its deposit goes back. *)
Definition serve (call : PoolCall) (e : Env) (c : MockStakingPoolContract) : MockStakingPoolContract * Answer :=
let finish {A} (answer : A -> Answer) (m : MP A) :=
match m e c with Ok (a, c', _) => (c', answer a) | Panic _ => (c, Failure) end in
match call with
| GetOwnerId => finish AId get_owner_id
| DepositAndStake => finish (fun _ => Done) deposit_and_stake
| Unstake amount => finish (fun _ => Done) (unstake amount)
| Withdraw amount => finish (fun _ => Done) (withdraw amount)
| GetAccount account => finish AAccount (get_account account)
end.

(** The NEAR the pool owes to its accounts. *)
Definition holdings (c : MockStakingPoolContract) : Z :=
map_sum (fun _ x => x) (staked c) + map_sum (fun _ x => x) (unstaked c).

(** Balances are [u128]. *)
Definition mock_ok (c : MockStakingPoolContract) : Prop :=
(forall k x, staked c !! k = Some x -> 0 <= x <= U128_MAX) /\
(forall k x, unstaked c !! k = Some x -> 0 <= x <= U128_MAX).

(** ** Sums of balances *)
Lemma sum_put (m : gmap AccountId Z) k v :
map_sum (fun _ x => x) (<[k := v]> m) = map_sum (fun _ x => x) m - default 0 (m !! k) + v.
Proof.
destruct (m !! k) as [x|] eqn:E; cbn.
- by rewrite (map_sum_insert_old _ m k x).
- rewrite map_sum_insert_new by done. lia.
Qed.

Lemma sum_drop (m : gmap AccountId Z) k :
map_sum (fun _ x => x) (delete k m) = map_sum (fun _ x => x) m - default 0 (m !! k).
Proof.
destruct (m !! k) as [x|] eqn:E; cbn.
- rewrite (map_sum_delete _ m k x E). lia.
- rewrite delete_id by done. lia.
Qed.

Lemma balance_range (m : gmap AccountId Z) k :
(forall k x, m !! k = Some x -> 0 <= x <= U128_MAX) -> 0 <= default 0 (m !! k) <= U128_MAX.
Proof. intros H. destruct (m !! k) eqn:E; cbn; [by eapply H | done]. Qed.

Lemma put_range (m : gmap AccountId Z) k v : 0 <= v <= U128_MAX ->
(forall k x, m !! k = Some x -> 0 <= x <= U128_MAX) ->
forall k' x, <[k := v]> m !! k' = Some x -> 0 <= x <= U128_MAX.
Proof. intros Hv Hm k' x [[<- <-]|[_ H]]%lookup_insert_Some; [done | by eapply Hm]. Qed.

Lemma drop_range (m : gmap AccountId Z) k :
(forall k x, m !! k = Some x -> 0 <= x <= U128_MAX) ->
forall k' x, delete k m !! k' = Some x -> 0 <= x <= U128_MAX.
Proof. intros Hm k' x [_ H]%lookup_delete_Some. by eapply Hm. Qed.

(** ** The methods *)
Lemma deposit_and_stake_spec e c u c' es : mock_ok c -> deposit_and_stake e c = Ok (u, c', es) ->
mock_ok c' /\ es = [] /\ 0 < attached_deposit e /\ holdings c' = holdings c + attached_deposit e /\
get_staked c' (predecessor_account_id e) = get_staked c (predecessor_account_id e) + attached_deposit e.
Proof.
intros [H1 H2] H. unfold deposit_and_stake in H. m_all. res_inv. bool_prop. split_and!; try done.
- split; [cbn; by apply put_range | exact H2].
- unfold holdings. cbn. rewrite sum_put. unfold get_staked. lia.
- unfold get_staked. cbn. by rewrite lookup_insert_eq.
Qed.

Lemma insert_staked_spec k v c : 0 <= v <= U128_MAX -> mock_ok c ->
mock_ok (insert_staked k v c) /\ unstaked (insert_staked k v c) = unstaked c /\
holdings (insert_staked k v c) = holdings c - get_staked c k + v.
Proof.
intros Hv [H1 H2]. unfold insert_staked, holdings, get_staked. destruct (v =? 0) eqn:E; bool_prop; cbn.
- split_and!; [split; [by apply drop_range | done] | done | rewrite sum_drop; lia].
- split_and!; [split; [by apply put_range | done] | done | rewrite sum_put; lia].
Qed.

Lemma unstake_spec amount e c u c' es : mock_ok c -> unstake amount e c = Ok (u, c', es) ->
mock_ok c' /\ es = [] /\ holdings c' = holdings c /\
get_unstaked c' (predecessor_account_id e) =
get_unstaked c (predecessor_account_id e) + Z.min amount (get_staked c (predecessor_account_id e)).
Proof.
intros Hok H. unfold unstake, u128_sub in H. m_all. res_inv. bool_prop.
match goal with R : 0 <= get_staked c ?k - ?m <= _ |- _ =>
destruct (insert_staked_spec k (get_staked c k - m) c R Hok) as ([K1 K2] & Hu & Hh) end.
unfold get_unstaked in *. rewrite Hu in *. split_and!; try done.
- split; [exact K1 | cbn; by apply put_range].
- unfold holdings in *. cbn. rewrite Hu, sum_put in *. lia.
- cbn. by rewrite lookup_insert_eq.
Qed.

Lemma withdraw_spec amount e c u c' es : 0 <= amount -> mock_ok c -> withdraw amount e c = Ok (u, c', es) ->
mock_ok c' /\ es = [MTransfer (predecessor_account_id e) amount] /\ holdings c' = holdings c - amount /\
fail_next_withdraw c = false.
Proof.
intros Ha [H1 H2] H. unfold withdraw in H. m_all. res_inv. bool_prop.
unfold holdings. destruct (_ =? 0) eqn:E; bool_prop; cbn; unfold get_unstaked in *.
- split_and!; try done; [split; [done | by apply drop_range] | rewrite sum_drop; lia].
- split_and!; try done; [split; [done | by apply put_range] | rewrite sum_put; lia].
Qed.

Lemma get_account_spec account e c view c' es : mock_ok c -> get_account account e c = Ok (view, c', es) ->
c' = c /\ es = [] /\ view = PoolAccountView.mk (get_unstaked c account) (get_staked c account) true /\
0 <= get_unstaked c account <= U128_MAX /\ 0 <= get_staked c account <= U128_MAX.
Proof.
intros [H1 H2] H. unfold get_account in H. m_all.
unfold get_unstaked, get_staked. split_and!; try done; by apply balance_range.
Qed.

Lemma serve_ok pool call gas e c c' a :
mock_ok c -> 0 <= attached_deposit e -> (call = DepositAndStake \/ attached_deposit e = 0) ->
(forall n, call = Withdraw n -> 0 <= n) ->
serve call e c = (c', a) ->
mock_ok c' /\ pool_answers call a /\
received (CallPool pool call (attached_deposit e) gas) a = attached_deposit e + holdings c - holdings c'.
Proof.
intros Hok Hd Hpay Hn. unfold serve. destruct call as [| |n|n|acc].
- intros [= <- <-]. cbn. split_and!; try done. destruct Hpay; [done | lia].
- destruct (deposit_and_stake e c) as [[[u c1] es]|] eqn:E; intros [= <- <-]; cbn; split_and!; try done; try lia.
+ by destruct (deposit_and_stake_spec _ _ _ _ _ Hok E).
+ destruct (deposit_and_stake_spec _ _ _ _ _ Hok E) as (_ & _ & _ & Hh & _). lia.
- destruct (unstake n e c) as [[[u c1] es]|] eqn:E; intros [= <- <-]; cbn; split_and!; try done; try lia.
+ by destruct (unstake_spec _ _ _ _ _ _ Hok E).
+ destruct (unstake_spec _ _ _ _ _ _ Hok E) as (_ & _ & Hh & _). destruct Hpay; [done | lia].
- destruct (withdraw n e c) as [[[u c1] es]|] eqn:E; intros [= <- <-]; cbn; split_and!; try done; try lia.
+ by destruct (withdraw_spec _ _ _ _ _ _ (Hn n eq_refl) Hok E).
+ destruct (withdraw_spec _ _ _ _ _ _ (Hn n eq_refl) Hok E) as (_ & _ & Hh & _). destruct Hpay; [done | lia].
- destruct (get_account acc e c) as [[[u c1] es]|] eqn:E; intros [= <- <-]; cbn.
+ destruct (get_account_spec _ _ _ _ _ _ Hok E) as (-> & _ & -> & ?). split; [done | split; [done|]].
destruct Hpay; [done | lia].
+ split; [done | split; [done | lia]].
Qed.

(** The mock pool is a pool of the staking worlds: when it serves the call at
the head of a chain, the answer makes a step of the world, the pool's
balances stay [u128], and the NEAR is conserved: what the pool owes and what
the staking contract has grow together by the deposit of the call. *)
Theorem mock_pool_is_a_pool `{HC : Crypto} `{IS : IdSet} w i pool call gas rest r e c c' a :
chains w !! i = Some (mkChain (CallPool pool call (attached_deposit e) gas :: rest) r) ->
mock_ok c -> 0 <= attached_deposit e -> (call = DepositAndStake \/ attached_deposit e = 0) ->
(forall n, call = Withdraw n -> 0 <= n) ->
serve call e c = (c', a) ->
mock_ok c' /\
exists w', wstep w w' /\ contract w' = contract w /\ chains w' = <[i := mkChain rest (Some a)]> (chains w) /\
balance w' + holdings c' = balance w + holdings c + attached_deposit e.
Proof.
intros Hi Hok Hd Hpay Hn Hs.
destruct (serve_ok pool call gas e c c' a Hok Hd Hpay Hn Hs) as (Hok' & Ha & Hr). split; [exact Hok'|].
eexists. split; [eexists; by eapply (step_pool w i pool call (attached_deposit e) gas rest r a)|]. cbn [contract chains balance].
split; [done | split; [done | lia]].
Qed.

(** Once the owner has armed it, the forced failure of [withdraw] does not end
with the next withdrawal: the panic drops the reset of the flag, so every
withdrawal fails until the owner clears the flag. *)
Theorem armed_withdraw_fails_for_ever (amounts : list (Env * NearToken)) c :
fail_next_withdraw c = true ->
foldl (fun st '(e, n) => (serve (Withdraw n) e (fst st))) (c, Failure) amounts = (c, Failure).
Proof.
intros Hf. induction amounts as [|[e n] l IH]; [done|]. cbn [foldl fst].
replace (serve (Withdraw n) e c) with (c, Failure); [exact IH|].
unfold serve, withdraw, mbind, M_bind, get_state, modify, panicM. by rewrite Hf.
Qed.

End MockPool.
