(* ===== verification/StakingBooks.v ===== *)
(** * The books of the staking contract

    What the stake accounting does to shares, buckets and tranches, which
    computations leave the books alone, and the invariant of the books: the
    shares of a pool are the shares of its users, a user's shares are those of
    the active locks and farm positions, and every promised tranche is covered
    by the buckets of the pool. *)
From stdpp Require Import base gmap strings list.
From Stdlib Require Import ZArith Lia.
From S2P Require Import Prelude.
From S2P Require Import Near.
From S2P Require Import MerkleTree.
From S2P Require Import StakingTypes.
From S2P Require Import StakingMath.
From S2P Require Import StakingContract.
From S2P Require Import StakingCatalog.
From S2P Require Import StakingEpoch.
From S2P Require Import StakingSubscriptions.
From S2P Require Import StakingLocks.
From S2P Require Import StakingFarm.

Local Open Scope Z_scope.
Local Open Scope record_scope.

(** ** The part of the state that is money or shares *)
Definition ledger (c : Contract) :=
  (validators c, user_validator_shares c, user_pending_unstake c, locks c, farm_positions c, farm_pools c).
Definition books (c : Contract) := (ledger c, revenue_by_validator c, accounts c, user_lock_count c).

(** The books with the catalog. *)
Definition core (c : Contract) := (books c, prices c, products c).

Definition at_books b (c : Contract) : Prop := books c = b.
Definition at_core b (c : Contract) : Prop := core c = b.

(** A computation that changes no book, or nothing of the core, whatever they
    are. *)
Abbreviation same_books m := (forall b, keeps (at_books b) m) (only parsing).
Abbreviation same_core m := (forall b, keeps (at_core b) m) (only parsing).

Lemma same_books_inv {A} (m : MS A) e c a c' es : same_books m -> m e c = Ok (a, c', es) -> books c' = books c.
Proof. intros Hm H. by apply (Hm (books c) e c a c' es). Qed.
Lemma same_core_inv {A} (m : MS A) e c a c' es : same_core m -> m e c = Ok (a, c', es) -> core c' = core c.
Proof. intros Hm H. by apply (Hm (core c) e c a c' es). Qed.

Lemma core_books c c' : core c' = core c -> books c' = books c.
Proof. unfold core. congruence. Qed.
Lemma same_core_books {A} (m : MS A) : same_core m -> same_books m.
Proof. intros Hm b e c a c' es Hb H. unfold at_books in *. rewrite <- Hb. apply core_books. by eapply same_core_inv. Qed.
#[export] Hint Resolve same_core_books : keeps.

Ltac same := intros; keeps_walk; try assumption.

(** Changes of other fields. *)
Section same.
Context `{HC : Crypto} `{IS : IdSet}.

Lemma same_assert_not_paused : same_core assert_not_paused.
Proof. unfold assert_not_paused. same. Qed.
Lemma same_assert_owner : same_core assert_owner.
Proof. unfold assert_owner. same. Qed.
Lemma same_assert_guardian : same_core assert_guardian.
Proof. unfold assert_guardian. same. Qed.
Lemma same_gas : same_core require_enough_gas_for_epoch_settlement.
Proof. unfold require_enough_gas_for_epoch_settlement. same. Qed.
Lemma same_update_config f : same_core (update_config f).
Proof. unfold update_config. same. Qed.
Lemma same_require_validator v : same_core (require_validator v).
Proof. unfold require_validator. same. Qed.
#[local] Hint Resolve same_require_validator : keeps.
Lemma same_require_validator_idle v : same_core (require_validator_idle v).
Proof. unfold require_validator_idle, assert_validator_idle_for_user_action. same. Qed.
Lemma same_require_validator_busy v msg : same_core (require_validator_busy v msg).
Proof. unfold require_validator_busy, assert_validator_busy. same. Qed.
Lemma same_assert_validator_busy v msg : same_core (assert_validator_busy v msg).
Proof. unfold assert_validator_busy. same. Qed.
Lemma same_assert_validator_active v : same_core (assert_validator_active_for_lock v).
Proof. unfold assert_validator_active_for_lock. same. Qed.
Lemma same_require_product p : same_core (require_product p).
Proof. unfold require_product. same. Qed.
Lemma same_require_price p : same_core (require_price p).
Proof. unfold require_price. same. Qed.
#[local] Hint Resolve same_assert_not_paused same_assert_owner same_require_product same_require_price : keeps.
Lemma same_callback_value r : same_core (callback_value r).
Proof. unfold callback_value. same. Qed.
Lemma same_assert_validator_owner p q : same_core (assert_validator_owner p q).
Proof. unfold assert_validator_owner. same. Qed.
Lemma same_assert_catalog_admin p v q : same_core (assert_validator_catalog_admin p v q).
Proof. unfold assert_validator_catalog_admin. same. Qed.
Lemma same_admin_entry v : same_core (catalog_admin_entry_for_pool v).
Proof. unfold catalog_admin_entry_for_pool, assert_validator_allowlisted. same. Qed.
Lemma same_registered a : same_core (require_registered_account a).
Proof. unfold require_registered_account. same. Qed.
#[local] Hint Resolve same_registered : keeps.
Lemma same_min_base a : same_core (ensure_min_base_storage a).
Proof. unfold ensure_min_base_storage. same. Qed.
Lemma same_min_lock a : same_core (ensure_min_storage_for_new_lock a).
Proof. unfold ensure_min_storage_for_new_lock. same. Qed.
Lemma same_min_purchase a : same_core (ensure_min_storage_for_new_purchase a).
Proof. unfold ensure_min_storage_for_new_purchase. same. Qed.
Lemma same_min_position a : same_core (ensure_min_storage_for_new_farm_position a).
Proof. unfold ensure_min_storage_for_new_farm_position. same. Qed.
Lemma same_active_price p : same_core (get_active_price_and_product p).
Proof. unfold get_active_price_and_product. same. Qed.
Lemma same_price_and_product p : same_core (require_price_and_product p).
Proof. unfold require_price_and_product. same. Qed.
Lemma same_set_product p x : same_books (internal_set_product p x).
Proof. unfold internal_set_product. same. Qed.
Lemma same_set_price p x : same_books (internal_set_price p x).
Proof. unfold internal_set_price. same. Qed.
#[local] Hint Resolve same_set_product : keeps.
Lemma same_clear_default p q : same_books (clear_product_default_price_field_if_matches p q).
Proof. unfold clear_product_default_price_field_if_matches. same. Qed.
Lemma same_no_pending_price p : same_core (assert_no_pending_update_references_price p).
Proof. unfold assert_no_pending_update_references_price. same. Qed.
Lemma same_no_pending_product p : same_core (assert_no_pending_update_references_product p).
Proof. unfold assert_no_pending_update_references_product. same. Qed.
Lemma same_no_active_farm p : same_core (require_no_active_farm_price_for_product p).
Proof. unfold require_no_active_farm_price_for_product. same. Qed.
Lemma same_require_farm_pool p : same_core (require_farm_pool p).
Proof. unfold require_farm_pool. same. Qed.
Lemma same_recurring p : same_core (require_recurring_monthly_price p).
Proof. unfold require_recurring_monthly_price. same. Qed.
Lemma same_resolve_price a b : same_core (resolve_price_id_for_lock a b).
Proof. unfold resolve_price_id_for_lock. same. Qed.
Lemma same_validate_price a b x y z : same_core (validate_price_fields a b x y z).
Proof. unfold validate_price_fields. same. Qed.
Lemma same_fresh_id f g msg : same_core (fresh_id f g msg).
Proof. unfold fresh_id. same. Qed.
#[local] Hint Resolve same_fresh_id : keeps.
Lemma same_product_id : same_core next_unique_product_id.
Proof. unfold next_unique_product_id. same. Qed.
Lemma same_price_id : same_core next_unique_price_id.
Proof. unfold next_unique_price_id. same. Qed.
Lemma same_purchase_id : same_core next_unique_purchase_id.
Proof. unfold next_unique_purchase_id. same. Qed.
Lemma same_log_epoch a v : same_core (log_epoch a v).
Proof. unfold log_epoch. same. Qed.
Lemma same_price_lock r : same_core (require_price_lock r).
Proof. unfold require_price_lock. same. Qed.
Lemma same_set_subscription s x : same_core (internal_set_subscription s x).
Proof.
unfold internal_set_subscription, remove_pending_update_target_refs, add_pending_update_target_refs.
same. unfold at_core in *. repeat (case_match; try assumption).
Qed.
Lemma same_remove_subscription s : same_core (internal_remove_subscription s).
Proof.
unfold internal_remove_subscription, remove_pending_update_target_refs.
same. unfold at_core in *. repeat (case_match; try assumption).
Qed.
Lemma same_require_subscription s : same_core (require_subscription_by_id s).
Proof. unfold require_subscription_by_id. same. Qed.
#[local] Hint Resolve same_require_subscription : keeps.
Lemma same_require_subscription_owned a s : same_core (require_subscription_owned_by_id a s).
Proof. unfold require_subscription_owned_by_id. same. Qed.
Lemma same_assert_subscription_active s : same_core (assert_subscription_active s).
Proof. unfold assert_subscription_active. same. Qed.
Lemma same_index_add p s : same_core (add_subscription_to_product_index_for_product p s).
Proof. unfold add_subscription_to_product_index_for_product. same. Qed.
Lemma same_index_remove p s : same_core (remove_subscription_from_product_index_for_product p s).
Proof. unfold remove_subscription_from_product_index_for_product. same. unfold at_core in *. by case_match. Qed.
#[local] Hint Resolve same_index_add same_index_remove : keeps.
Lemma same_add_indexes a s b : same_core (add_subscription_to_indexes a s b).
Proof. unfold add_subscription_to_indexes, add_subscription_to_product_index. same. Qed.
Lemma same_remove_indexes a s b : same_core (remove_subscription_from_indexes a s b).
Proof. unfold remove_subscription_from_indexes, remove_subscription_from_product_index. same. Qed.
Lemma same_move_index a s p q : same_core (move_subscription_product_index a s p q).
Proof. unfold move_subscription_product_index. same. Qed.
Lemma same_validate_amount p x : same_core (validate_subscription_target_amount p x).
Proof. unfold validate_subscription_target_amount. same. Qed.
Lemma same_not_reserved a p s : same_core (assert_product_not_reserved_by_pending_update a p s).
Proof. unfold assert_product_not_reserved_by_pending_update. same. Qed.
Lemma same_require_lock l msg : same_core (require_lock l msg).
Proof. unfold require_lock. same. Qed.
#[local] Hint Resolve same_require_lock : keeps.
Lemma same_require_sub_lock s a : same_core (require_subscription_lock_owned_by s a).
Proof. unfold require_subscription_lock_owned_by. same. Qed.
Lemma same_require_lock_owned l a m1 m2 : same_core (require_lock_owned_by l a m1 m2).
Proof. unfold require_lock_owned_by. same. Qed.
Lemma same_can_unlock l : same_core (assert_subscription_lock_can_unlock l).
Proof. unfold assert_subscription_lock_can_unlock. same. Qed.
Lemma same_new_subscription a p q t : same_core (new_subscription_for_lock a p q t).
Proof. unfold new_subscription_for_lock. same. Qed.
Lemma same_lock_indexes a l : same_core (add_lock_to_indexes a l).
Proof. unfold add_lock_to_indexes. same. Qed.
Lemma same_farm_price p q : same_core (require_farm_price_for_product p q).
Proof. unfold require_farm_price_for_product. same. Qed.
#[local] Hint Resolve same_farm_price : keeps.
Lemma same_active_position a p : same_core (require_active_farm_position a p).
Proof. unfold require_active_farm_position. same. Qed.
Lemma same_resolve_farm_price p q : same_core (resolve_farm_price_id p q).
Proof. unfold resolve_farm_price_id. same. Qed.
Lemma same_farm_max a p q d : same_core (validate_farm_max_amount a p q d).
Proof. unfold validate_farm_max_amount. same. Qed.
Lemma same_farm_products a p : same_core (add_farm_position_product_to_account a p).
Proof. unfold add_farm_position_product_to_account. same. unfold at_core in *. by case_match. Qed.
Lemma same_set_farm_account a x : same_core (internal_set_farm_account a x).
Proof. unfold internal_set_farm_account. same. Qed.
#[local] Hint Resolve same_set_farm_account : keeps.
Lemma same_farm_count a : same_core (increment_active_farm_position_count a).
Proof. unfold increment_active_farm_position_count. same. Qed.
Lemma same_farm_storage a : same_core (increment_farm_position_storage_count a).
Proof. unfold increment_farm_position_storage_count. same. Qed.
End same.

#[export] Hint Resolve same_assert_not_paused same_assert_owner same_assert_guardian same_gas same_update_config
  same_require_validator same_require_validator_idle same_require_validator_busy same_assert_validator_busy
  same_assert_validator_active same_require_product same_require_price same_callback_value same_assert_validator_owner
  same_assert_catalog_admin same_admin_entry same_registered same_min_base same_min_lock same_min_purchase
  same_min_position same_active_price same_price_and_product same_set_product same_set_price same_clear_default
  same_no_pending_price same_no_pending_product same_no_active_farm same_require_farm_pool same_recurring
  same_resolve_price same_validate_price same_fresh_id same_log_epoch same_price_lock same_set_subscription
  same_remove_subscription same_require_subscription same_require_subscription_owned same_assert_subscription_active
  same_index_add same_index_remove same_add_indexes same_remove_indexes same_move_index same_validate_amount
  same_not_reserved same_require_lock same_require_sub_lock same_require_lock_owned same_can_unlock
  same_new_subscription same_lock_indexes same_farm_price same_active_position same_resolve_farm_price same_farm_max
  same_farm_products same_set_farm_account same_farm_count same_farm_storage
  same_product_id same_price_id same_purchase_id : keeps.

(** ** Sums of the books *)
Definition shares_of (uvs : gmap (AccountId * ValidatorId) Z) (v : ValidatorId) : Z :=
  map_sum (fun k s => if bool_decide (k.2 = v) then s else 0) uvs.

Definition lock_in (a : AccountId) (v : ValidatorId) (l : Lock.t) : Z :=
  if bool_decide (Lock.account_id l = a /\ Lock.validator_id l = v /\ Lock.status l = LockStatus.Active)
  then Lock.shares l else 0.
Definition lock_shares (ls : gmap LockId Lock.t) (a : AccountId) (v : ValidatorId) : Z :=
  map_sum (fun _ => lock_in a v) ls.

Definition position_in (a : AccountId) (v : ValidatorId) (p : FarmPosition.t) : Z :=
  if bool_decide (FarmPosition.account_id p = a /\ FarmPosition.validator_id p = v /\ FarmPosition.status p = FarmStatus.Active)
  then FarmPosition.shares p else 0.
Definition farm_shares (ps : gmap (AccountId * ProductId) FarmPosition.t) (a : AccountId) (v : ValidatorId) : Z :=
  map_sum (fun _ => position_in a v) ps.

Definition position_of_price (pr : PriceId) (p : FarmPosition.t) : Z :=
  if bool_decide (FarmPosition.price_id p = pr /\ FarmPosition.status p = FarmStatus.Active) then FarmPosition.shares p else 0.
Definition price_shares (ps : gmap (AccountId * ProductId) FarmPosition.t) (pr : PriceId) : Z :=
  map_sum (fun _ => position_of_price pr) ps.

Definition tranches_total (ts : list PendingUnstakeTranche.t) : Z := list_sum_Z PendingUnstakeTranche.amount ts.
Definition promised (pend : gmap (AccountId * ValidatorId) (list PendingUnstakeTranche.t)) (v : ValidatorId) : Z :=
  map_sum (fun k ts => if bool_decide (k.2 = v) then tranches_total ts else 0) pend.

(** The buckets that pay the tranches of a pool. *)
Definition liability (x : Validator.t) : Z :=
  Validator.pending_to_unstake x + Validator.pending_to_withdraw x + Validator.pending_to_claim x.

Definition validator_ok (x : Validator.t) : Prop :=
  0 <= Validator.total_shares x /\ 0 <= Validator.total_staked_balance x /\ 0 <= Validator.pending_to_stake x /\
  0 <= Validator.pending_to_unstake x /\ 0 <= Validator.pending_to_withdraw x /\ 0 <= Validator.pending_to_claim x.

(** ** The invariant

    [InvD d fd] is the invariant in the middle of an operation: [d a v] shares
    of [a] at [v] are not yet (or no longer) held by a lock or a position, and
    [fd pr] shares of a farm price are not yet in a position. *)
Record InvD (d : AccountId -> ValidatorId -> Z) (fd : PriceId -> Z) (c : Contract) : Prop := {
  inv_validator v x : validators c !! v = Some x -> validator_ok x;
  inv_total v x : validators c !! v = Some x -> Validator.total_shares x = shares_of (user_validator_shares c) v;
  inv_user a v : count (user_validator_shares c) (a, v) =
                 lock_shares (locks c) a v + farm_shares (farm_positions c) a v + d a v;
  inv_farm pr : match farm_pools c !! pr with
                | Some pool => FarmPool.total_farm_shares pool = price_shares (farm_positions c) pr + fd pr
                | None => price_shares (farm_positions c) pr + fd pr = 0
                end;
  inv_liability v x : validators c !! v = Some x -> promised (user_pending_unstake c) v <= liability x;
  inv_share_pos k s : user_validator_shares c !! k = Some s -> 0 <= s /\ is_Some (validators c !! k.2);
  inv_lock l x : locks c !! l = Some x -> Lock.lock_id x = l /\ 0 <= Lock.shares x;
  inv_position k p : farm_positions c !! k = Some p ->
    k = (FarmPosition.account_id p, FarmPosition.product_id p) /\ 0 <= FarmPosition.shares p;
  inv_tranche k ts : user_pending_unstake c !! k = Some ts ->
    Forall (fun t => 0 <= PendingUnstakeTranche.amount t) ts /\ is_Some (validators c !! k.2)
}.

Definition none2 : AccountId -> ValidatorId -> Z := fun _ _ => 0.
Definition none1 : PriceId -> Z := fun _ => 0.
Definition Inv (c : Contract) : Prop := InvD none2 none1 c.

(** [n] shares of [a] at [v]. *)
Definition only (a : AccountId) (v : ValidatorId) (n : Z) : AccountId -> ValidatorId -> Z :=
  fun a' v' => if bool_decide (a' = a /\ v' = v) then n else 0.

(** The amounts of the books are of NEAR that exists (less than [2^120] yocto),
    no total of shares reaches the width of its type, and no id of a lock was
    given twice: the locks ever taken are all stored. *)
Definition FITS : Z := 2 ^ 120.
Record fits (c : Contract) : Prop := {
  fit_validator v x : validators c !! v = Some x ->
    Validator.total_shares x < U128_MAX /\ Validator.total_staked_balance x <= FITS /\
    Validator.pending_to_stake x <= FITS /\ Validator.pending_to_unstake x <= FITS /\
    Validator.pending_to_withdraw x <= FITS /\ Validator.pending_to_claim x <= FITS;
  fit_pool pr l : farm_pools c !! pr = Some l -> FarmPool.total_farm_shares l < U128_MAX;
  fit_lock_count a : count (user_lock_count c) a < U32_MAX;
  fit_locks : map_sum (fun _ n => n) (user_lock_count c) = Z.of_nat (size (locks c))
}.

(** ** Laws of the sums *)
Lemma count_insert {K} `{Countable K} (m : gmap K Z) k x : count (<[k := x]> m) k = x.
Proof. unfold count. by rewrite lookup_insert_eq. Qed.
Lemma count_insert_ne {K} `{Countable K} (m : gmap K Z) k j x : k <> j -> count (<[k := x]> m) j = count m j.
Proof. intros Hne. unfold count. by rewrite lookup_insert_ne. Qed.
Lemma count_delete {K} `{Countable K} (m : gmap K Z) k : count (delete k m) k = 0.
Proof. unfold count. by rewrite lookup_delete_eq. Qed.
Lemma count_delete_ne {K} `{Countable K} (m : gmap K Z) k j : k <> j -> count (delete k m) j = count m j.
Proof. intros Hne. unfold count. by rewrite lookup_delete_ne. Qed.

(** Writing one key moves a sum by the difference at the key. *)
Lemma map_sum_insert {K V} `{Countable K} (f : K -> V -> Z) (m : gmap K V) k x :
  map_sum f (<[k := x]> m) = map_sum f m - match m !! k with Some y => f k y | None => 0 end + f k x.
Proof.
  destruct (m !! k) as [y|] eqn:E; [by apply map_sum_insert_old | rewrite map_sum_insert_new by done; lia].
Qed.
Lemma map_sum_delete_any {K V} `{Countable K} (f : K -> V -> Z) (m : gmap K V) k :
  map_sum f (delete k m) = map_sum f m - match m !! k with Some y => f k y | None => 0 end.
Proof.
  destruct (m !! k) as [y|] eqn:E; [rewrite (map_sum_delete f m k y E); lia | rewrite delete_id by done; lia].
Qed.

(** Decide a proposition wherever it is tested. *)
Ltac by_cases P :=
  let H := fresh "D" in
  destruct (decide P) as [H|H];
  [rewrite ?(bool_decide_eq_true_2 P H) in * | rewrite ?(bool_decide_eq_false_2 P H) in *].

Lemma shares_of_insert uvs a v s w :
  shares_of (<[(a, v) := s]> uvs) w =
  shares_of uvs w + (if bool_decide (v = w) then s - count uvs (a, v) else 0).
Proof.
  unfold shares_of, count. rewrite map_sum_insert. cbn [fst snd]. by_cases (v = w); destruct (uvs !! (a, v)); cbn; lia.
Qed.
Lemma shares_of_delete uvs a v w :
  shares_of (delete (a, v) uvs) w = shares_of uvs w - (if bool_decide (v = w) then count uvs (a, v) else 0).
Proof.
  unfold shares_of, count. rewrite map_sum_delete_any. cbn [fst snd]. by_cases (v = w); destruct (uvs !! (a, v)); cbn; lia.
Qed.

Lemma lock_shares_insert ls l x a v :
  lock_shares (<[l := x]> ls) a v =
  lock_shares ls a v - match ls !! l with Some y => lock_in a v y | None => 0 end + lock_in a v x.
Proof. unfold lock_shares. by rewrite map_sum_insert. Qed.

Lemma farm_shares_insert ps k x a v :
  farm_shares (<[k := x]> ps) a v =
  farm_shares ps a v - match ps !! k with Some y => position_in a v y | None => 0 end + position_in a v x.
Proof. unfold farm_shares. by rewrite map_sum_insert. Qed.

Lemma price_shares_insert ps k x pr :
  price_shares (<[k := x]> ps) pr =
  price_shares ps pr - match ps !! k with Some y => position_of_price pr y | None => 0 end + position_of_price pr x.
Proof. unfold price_shares. by rewrite map_sum_insert. Qed.

Lemma tranches_total_nil : tranches_total [] = 0.
Proof. done. Qed.
Lemma tranches_total_app ts1 ts2 : tranches_total (ts1 ++ ts2) = tranches_total ts1 + tranches_total ts2.
Proof. apply list_sum_Z_app. Qed.
Lemma tranches_total_one x h : tranches_total [PendingUnstakeTranche.mk x h] = x.
Proof. unfold tranches_total. cbn. lia. Qed.
#[global] Arguments tranches_total : simpl never.

Lemma promised_insert pend a v ts w :
  promised (<[(a, v) := ts]> pend) w =
  promised pend w + (if bool_decide (v = w) then tranches_total ts - tranches_total (default [] (pend !! (a, v))) else 0).
Proof.
  unfold promised. rewrite map_sum_insert. cbn [fst snd]. by_cases (v = w); destruct (pend !! (a, v)); cbn; rewrite ?tranches_total_nil; lia.
Qed.
Lemma promised_delete pend a v w :
  promised (delete (a, v) pend) w =
  promised pend w - (if bool_decide (v = w) then tranches_total (default [] (pend !! (a, v))) else 0).
Proof.
  unfold promised. rewrite map_sum_delete_any. cbn [fst snd]. by_cases (v = w); destruct (pend !! (a, v)); cbn; rewrite ?tranches_total_nil; lia.
Qed.
