(* ===== verification/StakingStake.v ===== *)
(** * Staking and unstaking in the books

    The effect of [internal_stake] and [internal_unstake], of writing a lock, a
    position or a pool, and of the claim of tranches, on the invariant of the
    books. *)
From stdpp Require Import base gmap strings list.
From Stdlib Require Import ZArith Lia.
From S2P Require Import Prelude.
From S2P Require Import Near.
From S2P Require Import StakingTypes.
From S2P Require Import StakingMath.
From S2P Require Import StakingContract.
From S2P Require Import StakingCatalog.
From S2P Require Import StakingEpoch.
From S2P Require Import StakingSubscriptions.
From S2P Require Import StakingLocks.
From S2P Require Import StakingFarm.
From S2P Require Import StakingBooks.

Local Open Scope Z_scope.
Local Open Scope record_scope.

(** ** Reading *)
Lemma require_validator_inv id e c v c' es :
  require_validator id e c = Ok (v, c', es) -> validators c !! id = Some v /\ c' = c /\ es = [].
Proof. unfold require_validator. intros H. m_inv. by res_inv. Qed.

Lemma require_validator_idle_inv id e c v c' es : require_validator_idle id e c = Ok (v, c', es) ->
  validators c !! id = Some v /\ Validator.tx_status v = TransactionStatus.Idle /\ c' = c /\ es = [].
Proof.
  unfold require_validator_idle, assert_validator_idle_for_user_action. intros H. m_inv.
  apply require_validator_inv in E as (? & -> & ->). by bool_prop.
Qed.

Lemma require_validator_busy_inv id msg e c v c' es : require_validator_busy id msg e c = Ok (v, c', es) ->
  validators c !! id = Some v /\ Validator.tx_status v = TransactionStatus.Busy /\ c' = c /\ es = [].
Proof.
  unfold require_validator_busy, assert_validator_busy. intros H. m_inv.
  apply require_validator_inv in E as (? & -> & ->). by bool_prop.
Qed.

Lemma set_validator_inv id v e c u c' es : internal_set_validator id v e c = Ok (u, c', es) ->
  c' = c <| validators := <[id := v]> (validators c) |> /\ es = [].
Proof. unfold internal_set_validator. intros H. by m_inv. Qed.

Lemma assert_busy_inv v msg e c u c' es : assert_validator_busy v msg e c = Ok (u, c', es) ->
  Validator.tx_status v = TransactionStatus.Busy /\ c' = c /\ es = [].
Proof. unfold assert_validator_busy. intros H. m_inv. by bool_prop. Qed.

Lemma log_epoch_inv a v e c u c' es : log_epoch a v e c = Ok (u, c', es) ->
  c' = c /\ es = [SEvent (log_epoch_operation a v)].
Proof. unfold log_epoch. intros H. by m_inv. Qed.

Ltac read :=
  repeat match goal with
  | H : assert_validator_busy _ _ _ _ = Ok _ |- _ =>
      let Ht := fresh "Ht" in apply assert_busy_inv in H as (Ht & -> & ->)
  | H : log_epoch _ _ _ _ = Ok _ |- _ => apply log_epoch_inv in H as (-> & ->)
  | H : require_validator _ _ _ = Ok _ |- _ =>
      let Hv := fresh "Hv" in apply require_validator_inv in H as (Hv & -> & ->)
  | H : require_validator_idle _ _ _ = Ok _ |- _ =>
      let Hv := fresh "Hv" in let Ht := fresh "Ht" in apply require_validator_idle_inv in H as (Hv & Ht & -> & ->)
  | H : require_validator_busy _ _ _ _ = Ok _ |- _ =>
      let Hv := fresh "Hv" in let Ht := fresh "Ht" in apply require_validator_busy_inv in H as (Hv & Ht & -> & ->)
  | H : internal_set_validator _ _ _ _ = Ok _ |- _ => apply set_validator_inv in H as (-> & ->)
  end.

(** ** The effect of the stake accounting *)
Lemma internal_stake_inv buyer id deposit e c n c' es :
  internal_stake buyer id deposit e c = Ok (n, c', es) ->
  exists v, validators c !! id = Some v /\
    mint_shares (Validator.total_shares v) (Validator.net_stake_yocto v) deposit = Ok n /\
    (0 < Validator.total_shares v -> 0 < Validator.net_stake_yocto v) /\
    0 <= Validator.pending_to_stake v + deposit <= U128_MAX /\ es = [] /\
    c' = c <| user_validator_shares :=
                <[(buyer, id) := u128_saturating_add (count (user_validator_shares c) (buyer, id)) n]> (user_validator_shares c) |>
           <| validators := <[id := v <| Validator.total_shares := u128_saturating_add (Validator.total_shares v) n |>
                                      <| Validator.pending_to_stake := Validator.pending_to_stake v + deposit |>]>
                              (validators c) |>.
Proof.
  unfold internal_stake. intros H. m_all; read; res_inv; bool_prop; eexists; split_and!; eauto; lia.
Qed.

Lemma set_tranches_inv a v ts e c u c' es :
  set_user_pending_unstake_tranches (a, v) ts e c = Ok (u, c', es) ->
  es = [] /\ exists counts,
    c' = c <| user_pending_unstake :=
                if bool_decide (ts = []) then delete (a, v) (user_pending_unstake c)
                else <[(a, v) := ts]> (user_pending_unstake c) |>
           <| user_pending_unstake_validator_count := counts |>.
Proof.
  unfold set_user_pending_unstake_tranches, increment_pending_unstake_validator_count,
    decrement_pending_unstake_validator_count.
  intros H. m_inv. cbn [fst] in *.
  by_cases (ts = []); cbn [negb] in *; (case_match; m_inv; res_inv; (split; [done|]); eexists; reflexivity).
Qed.

Lemma internal_unstake_inv a id n e c near c' es :
  internal_unstake a id n e c = Ok (near, c', es) ->
  exists v counts h, validators c !! id = Some v /\ 0 < n <= Validator.total_shares v /\
    n <= count (user_validator_shares c) (a, id) /\ 0 < Validator.net_stake_yocto v /\
    near_from_shares n (Validator.net_stake_yocto v) (Validator.total_shares v) = Ok near /\
    0 <= Validator.pending_to_unstake v + near <= U128_MAX /\ es = [] /\
    h = pending_unstake_tranche_available_epoch_height e c v /\
    c' = c <| user_validator_shares :=
                if count (user_validator_shares c) (a, id) =? n then delete (a, id) (user_validator_shares c)
                else <[(a, id) := count (user_validator_shares c) (a, id) - n]> (user_validator_shares c) |>
           <| user_pending_unstake :=
                <[(a, id) := default [] (user_pending_unstake c !! (a, id)) ++ [PendingUnstakeTranche.mk near h]]>
                  (user_pending_unstake c) |>
           <| user_pending_unstake_validator_count := counts |>
           <| validators := <[id := v <| Validator.total_shares := Validator.total_shares v - n |>
                                      <| Validator.pending_to_unstake := Validator.pending_to_unstake v + near |>]>
                              (validators c) |>.
Proof.
  unfold internal_unstake. intros H. m_inv. read. res_inv. bool_prop.
  match goal with H : set_user_pending_unstake_tranches _ _ _ _ = Ok _ |- _ => apply set_tranches_inv in H as (-> & counts & ->) end.
  rewrite bool_decide_eq_false_2 by (intros [_ ?]%app_eq_nil; done).
  eexists _, counts, _. split_and!; eauto; try lia; try reflexivity.
Qed.

(** ** Bounds *)
Lemma mint_shares_nonneg t n d s : 0 <= d -> mint_shares t n d = Ok s -> 0 <= s.
Proof. unfold mint_shares, as_u128. intros Hd H. destruct (_ || _); res_inv; lia. Qed.

Lemma near_from_shares_nonneg s n t x : near_from_shares s n t = Ok x -> 0 <= x <= U128_MAX.
Proof.
  unfold near_from_shares, as_u128. intros H. destruct (_ =? _); res_inv; [unfold U128_MAX; lia | lia].
Qed.

Lemma count_le_shares_of uvs a v : (forall k s, uvs !! k = Some s -> 0 <= s) -> count uvs (a, v) <= shares_of uvs v.
Proof.
  intros Hpos. unfold count, shares_of. destruct (uvs !! (a, v)) as [s|] eqn:E; cbn.
  - transitivity (if bool_decide ((a, v).2 = v) then s else 0); [by rewrite bool_decide_eq_true_2|].
    apply (map_sum_term_le (fun k s => if bool_decide (k.2 = v) then s else 0) uvs (a, v) s); [|done].
    intros k x Hk. case_bool_decide; [by eapply Hpos | lia].
  - apply map_sum_nonneg. intros k x Hk. case_bool_decide; [by eapply Hpos | lia].
Qed.

(** ** Transport of the invariant *)
Section transport.
Context (d : AccountId -> ValidatorId -> Z) (fd : PriceId -> Z).
Implicit Types c : Contract.

Lemma InvD_ledger c c' : ledger c' = ledger c -> InvD d fd c -> InvD d fd c'.
Proof. intros [= E1 E2 E3 E4 E5 E6] [H1 H2 H3 H4 H5 H6 H7 H8 H9]. by split; rewrite ?E1, ?E2, ?E3, ?E4, ?E5, ?E6. Qed.
Lemma InvD_books c c' : books c' = books c -> InvD d fd c -> InvD d fd c'.
Proof. intros E. apply InvD_ledger. unfold books in E. congruence. Qed.

Lemma InvD_ext d' fd' c : (forall a v, d' a v = d a v) -> (forall pr, fd' pr = fd pr) -> InvD d fd c -> InvD d' fd' c.
Proof.
intros Hd Hf [H1 H2 H3 H4 H5 H6 H7 H8 H9]. split; try done.
- intros a v. by rewrite Hd.
- intros pr. rewrite Hf. apply H4.
Qed.

(** A write of a validator that keeps its shares and does not lower its
liability. *)
Lemma InvD_set_validator c v x x' : InvD d fd c -> validators c !! v = Some x ->
validator_ok x' -> Validator.total_shares x' = Validator.total_shares x -> liability x <= liability x' ->
InvD d fd (c <| validators := <[v := x']> (validators c) |>).
Proof.
intros [H1 H2 H3 H4 H5 H6 H7 H8 H9] Hv Hok Ht Hl. split; cbn; try done.
- intros w y [[<- <-]|[_ Hy]]%lookup_insert_Some; [done | by eapply H1].
- intros w y [[<- <-]|[_ Hy]]%lookup_insert_Some; [rewrite Ht; by apply H2 | by apply H2].
- intros w y [[<- <-]|[_ Hy]]%lookup_insert_Some; [specialize (H5 _ _ Hv); lia | by apply H5].
- intros k s Hk. apply H6 in Hk as [? Hs]. split; [done|]. rewrite lookup_insert_is_Some'. tauto.
- intros k ts Hk. apply H9 in Hk as [? Hs]. split; [done|]. rewrite lookup_insert_is_Some'. tauto.
Qed.

(** A new validator. *)
Lemma InvD_new_validator c v x : InvD d fd c -> validators c !! v = None ->
validator_ok x -> Validator.total_shares x = 0 -> 0 <= liability x ->
InvD d fd (c <| validators := <[v := x]> (validators c) |>).
Proof.
intros [H1 H2 H3 H4 H5 H6 H7 H8 H9] Hv Hok Ht Hl. split; cbn; try done.
- intros w y [[<- <-]|[_ Hy]]%lookup_insert_Some; [done | by eapply H1].
- intros w y [[<- <-]|[_ Hy]]%lookup_insert_Some; [|by apply H2]. rewrite Ht. symmetry. apply map_sum_0.
intros k s Hk. case_bool_decide as Hw; [|done]. apply H6 in Hk as [_ [? Hs]]. by rewrite Hw, Hv in Hs.
- intros w y [[<- <-]|[_ Hy]]%lookup_insert_Some; [|by apply H5]. unfold promised. rewrite map_sum_0; [done|].
intros k ts Hk. case_bool_decide as Hw; [|done]. apply H9 in Hk as [_ [? Hs]]. by rewrite Hw, Hv in Hs.
- intros k s Hk. apply H6 in Hk as [? Hs]. split; [done|]. rewrite lookup_insert_is_Some'. tauto.
- intros k ts Hk. apply H9 in Hk as [? Hs]. split; [done|]. rewrite lookup_insert_is_Some'. tauto.
Qed.

(** Writing a lock moves shares between the lock and the difference. *)
Lemma InvD_set_lock d' c l x : InvD d fd c -> Lock.lock_id x = l -> 0 <= Lock.shares x ->
(forall a v, d' a v + lock_in a v x = d a v + match locks c !! l with Some y => lock_in a v y | None => 0 end) ->
InvD d' fd (c <| locks := <[l := x]> (locks c) |>).
Proof.
intros [H1 H2 H3 H4 H5 H6 H7 H8 H9] Hid Hpos Hd. split; cbn; try done.
- intros a v. rewrite lock_shares_insert, H3. specialize (Hd a v). lia.
- intros k y [[<- <-]|[_ Hy]]%lookup_insert_Some; [done | by apply H7].
Qed.

(** Writing a position. *)
Lemma InvD_set_position d' fd' c k x : InvD d fd c ->
k = (FarmPosition.account_id x, FarmPosition.product_id x) -> 0 <= FarmPosition.shares x ->
(forall a v, d' a v + position_in a v x =
d a v + match farm_positions c !! k with Some y => position_in a v y | None => 0 end) ->
(forall pr, fd' pr + position_of_price pr x =
fd pr + match farm_positions c !! k with Some y => position_of_price pr y | None => 0 end) ->
InvD d' fd' (c <| farm_positions := <[k := x]> (farm_positions c) |>).
Proof.
intros [H1 H2 H3 H4 H5 H6 H7 H8 H9] Hk Hpos Hd Hfd. split; cbn; try done.
- intros a v. rewrite farm_shares_insert, H3. specialize (Hd a v). lia.
- intros pr. rewrite price_shares_insert. specialize (Hfd pr). specialize (H4 pr).
destruct (farm_pools c !! pr); lia.
- intros j y [[<- <-]|[_ Hy]]%lookup_insert_Some; [done | by apply H8].
Qed.

(** Writing a pool. *)
Lemma InvD_set_pool fd' c pr pool : InvD d fd c ->
FarmPool.total_farm_shares pool = price_shares (farm_positions c) pr + fd' pr ->
(forall q, q <> pr -> fd' q = fd q) ->
InvD d fd' (c <| farm_pools := <[pr := pool]> (farm_pools c) |>).
Proof.
intros [H1 H2 H3 H4 H5 H6 H7 H8 H9] Hp Hq. split; cbn; try done.
intros q. destruct (decide (pr = q)) as [<-|Hne].
- by rewrite lookup_insert_eq.
- rewrite lookup_insert_ne by done. rewrite Hq by done. apply H4.
Qed.
End transport.

(** ** Staking and unstaking *)
Lemma stake_InvD d fd buyer id deposit e c n c' es : InvD d fd c -> 0 <= deposit ->
  internal_stake buyer id deposit e c = Ok (n, c', es) ->
  (forall x, validators c' !! id = Some x -> Validator.total_shares x < U128_MAX) ->
  0 <= n /\ InvD (fun a v => d a v + only buyer id n a v) fd c'.
Proof.
  intros HI Hd H Hfit. apply internal_stake_inv in H as (v & Hv & Hm & _ & Hp & -> & ->). cbn in *.
  pose proof (mint_shares_nonneg _ _ _ _ Hd Hm) as Hn. split; [done|].
  specialize (Hfit _ (lookup_insert_eq _ _ _)). cbn in Hfit.
  destruct HI as [H1 H2 H3 H4 H5 H6 H7 H8 H9]. pose proof (H1 _ _ Hv) as Hok. pose proof (H2 _ _ Hv) as Ht.
  assert (u128_saturating_add (Validator.total_shares v) n = Validator.total_shares v + n) as Et
    by (unfold u128_saturating_add, saturating_add in *; lia).
  pose proof (count_le_shares_of (user_validator_shares c) buyer id (fun k s Hk => proj1 (H6 k s Hk))) as Hc.
  assert (u128_saturating_add (count (user_validator_shares c) (buyer, id)) n = count (user_validator_shares c) (buyer, id) + n) as Eu
    by (rewrite Et in Hfit; unfold u128_saturating_add, saturating_add in *; lia).
  rewrite Eu, Et. split; cbn; try done.
  - intros w y [[<- <-]|[_ Hy]]%lookup_insert_Some; [|by eapply H1]. unfold validator_ok in *. cbn. lia.
  - intros w y [[<- <-]|[Hne Hy]]%lookup_insert_Some; rewrite shares_of_insert.
    + rewrite bool_decide_eq_true_2 by done. cbn. lia.
    + rewrite bool_decide_eq_false_2 by done. rewrite (H2 _ _ Hy). lia.
  - intros a w. unfold only. by_cases (a = buyer /\ w = id).
    + destruct D as [-> ->]. rewrite count_insert, H3. lia.
    + rewrite count_insert_ne by (intros [= <- <-]; by apply D). rewrite H3. lia.
  - intros w y [[<- <-]|[Hne Hy]]%lookup_insert_Some; [|by apply H5]. apply (H5 _ _ Hv).
  - intros k s Hk. rewrite lookup_insert_is_Some'. apply lookup_insert_Some in Hk as [[<- <-]|[_ Hk]].
    + cbn. split; [|by left]. pose proof (H6 (buyer, id)). unfold count in *.
      destruct (user_validator_shares c !! (buyer, id)) as [s|] eqn:E; cbn; [specialize (H6 _ _ E) as [? _]|]; lia.
    + apply H6 in Hk as [? ?]. tauto.
  - intros k ts Hk. apply H9 in Hk as [? ?]. rewrite lookup_insert_is_Some'. tauto.
Qed.

Lemma unstake_InvD d fd a id n e c near c' es : InvD d fd c ->
  internal_unstake a id n e c = Ok (near, c', es) ->
  0 < n /\ 0 <= near /\ InvD (fun a' v' => d a' v' - only a id n a' v') fd c'.
Proof.
  intros HI H. apply internal_unstake_inv in H as (v & counts & h & Hv & Hn & Hc & Hnet & Hnear & Hp & -> & _ & ->). cbn in *.
  pose proof (near_from_shares_nonneg _ _ _ _ Hnear) as Hnn. split; [lia|]. split; [lia|].
  destruct HI as [H1 H2 H3 H4 H5 H6 H7 H8 H9]. pose proof (H1 _ _ Hv) as Hok. pose proof (H2 _ _ Hv) as Ht.
  set (uvs := if _ =? n then _ else _).
  assert (forall w, shares_of uvs w = shares_of (user_validator_shares c) w - (if bool_decide (id = w) then n else 0)) as Hs.
  { intros w. unfold uvs. destruct (_ =? n) eqn:E; bool_prop; [rewrite shares_of_delete | rewrite shares_of_insert];
      by_cases (id = w); lia. }
  assert (forall a' v', count uvs (a', v') = count (user_validator_shares c) (a', v') - only a id n a' v') as Hcnt.
  { intros a' v'. unfold only, uvs. by_cases (a' = a /\ v' = id).
    - destruct D as [-> ->]. destruct (_ =? n) eqn:E; bool_prop; rewrite ?count_delete, ?count_insert; lia.
    - assert ((a, id) <> (a', v')) by (intros [= <- <-]; by apply D).
      destruct (_ =? n); rewrite ?count_delete_ne, ?count_insert_ne by done; lia. }
  split; cbn; try done.
  - intros w y [[<- <-]|[_ Hy]]%lookup_insert_Some; [|by eapply H1]. unfold validator_ok in *. cbn. lia.
  - intros w y [[<- <-]|[Hne Hy]]%lookup_insert_Some; rewrite Hs.
    + rewrite bool_decide_eq_true_2 by done. cbn. lia.
    + rewrite bool_decide_eq_false_2 by done. rewrite (H2 _ _ Hy). lia.
  - intros a' v'. rewrite Hcnt, H3. lia.
  - intros w y [[<- <-]|[Hne Hy]]%lookup_insert_Some; rewrite promised_insert.
    + rewrite bool_decide_eq_true_2 by done. rewrite tranches_total_app, tranches_total_one.
      specialize (H5 _ _ Hv). unfold liability in *. cbn. lia.
    + rewrite bool_decide_eq_false_2 by done. specialize (H5 _ _ Hy). lia.
  - intros k s Hk. rewrite lookup_insert_is_Some'. unfold uvs in Hk. destruct (_ =? n) eqn:E; bool_prop.
    + apply lookup_delete_Some in Hk as [_ Hk]. apply H6 in Hk as [? ?]. tauto.
    + apply lookup_insert_Some in Hk as [[<- <-]|[_ Hk]]; [cbn; split; [lia | by left]|]. apply H6 in Hk as [? ?]. tauto.
  - intros k ts [[<- <-]|[_ Hk]]%lookup_insert_Some; rewrite lookup_insert_is_Some'.
    + split; [|by left]. apply Forall_app. split; [|repeat constructor; cbn; lia].
      destruct (user_pending_unstake c !! (a, id)) eqn:E; cbn; [by eapply H9 | done].
    + apply H9 in Hk as [? ?]. tauto.
Qed.
