(* ===== verification/StakingInvariant.v ===== *)
(** * Every call keeps the books

    The invariant of the books is kept by the steps of the epoch pipeline, by
    the tails of the user actions and by the catalog. *)
From stdpp Require Import base gmap strings list.
From Stdlib Require Import ZArith Lia.
From S2P Require Import Prelude.
From S2P Require Import Near.
From S2P Require Import MerkleTree.
From S2P Require Import StakingTypes.
From S2P Require Import StakingMath.
From S2P Require Import StakingContract.
From S2P Require Import StakingCatalog.
From S2P Require Import StakingEpoch.
From S2P Require Import StakingSubscriptions.
From S2P Require Import StakingLocks.
From S2P Require Import StakingFarm.
From S2P Require Import StakingBooks.
From S2P Require Import StakingStake.

Local Open Scope Z_scope.
Local Open Scope record_scope.

(** Each part of a run that leaves the books alone becomes an equation. *)
Ltac frame :=
  repeat match goal with
  | H : ?m ?e ?c = Ok (_, ?c', _) |- _ =>
      apply same_books_inv in H; [|solve [intros; auto with keeps nocore]]
  end.

(** The state of the goal is the known one up to other fields. *)
Ltac by_ledger H := eapply InvD_ledger; [|exact H]; reflexivity.

(** ** Epoch pipeline *)
Lemma set_tx_status_Inv d fd c v x s : InvD d fd c -> validators c !! v = Some x ->
  InvD d fd (c <| validators := <[v := x <| Validator.tx_status := s |>]> (validators c) |>).
Proof.
  intros HI Hv. eapply InvD_set_validator; [done | exact Hv | | done | done].
  apply (inv_validator _ _ _ HI) in Hv. exact Hv.
Qed.

Lemma release_Inv id e c u c' es : Inv c -> release_validator_pool_pipeline id e c = Ok (u, c', es) -> Inv c'.
Proof. unfold release_validator_pool_pipeline. intros HI H. m_inv. read. by apply set_tx_status_Inv. Qed.

Lemma settlement_then_Inv id cont e c p c' es : Inv c ->
  promise_validator_per_epoch_settlement_then id cont e c = Ok (p, c', es) -> Inv c'.
Proof.
  unfold promise_validator_per_epoch_settlement_then, promise_get_validator_pool_account.
  intros HI H. m_all; read; by apply set_tx_status_Inv.
Qed.

Lemma mark_Inv id action e c u c' es : Inv c -> mark_epoch_settlement_handled id action e c = Ok (u, c', es) -> Inv c'.
Proof.
  unfold mark_epoch_settlement_handled. intros HI H. m_inv. read.
  eapply InvD_set_validator; [done | eassumption | | done | done]. by apply (inv_validator _ _ _ HI) in Hv.
Qed.

(** The buckets of a pool are far from the width of their type. *)
Definition pending_fits (c : Contract) : Prop := forall v x, validators c !! v = Some x ->
  Validator.pending_to_stake x <= FITS /\ Validator.pending_to_unstake x <= FITS /\
  Validator.pending_to_withdraw x <= FITS /\ Validator.pending_to_claim x <= FITS.

Lemma fits_pending c : fits c -> pending_fits c.
Proof. intros Hf v x Hv. apply (fit_validator _ Hf) in Hv. tauto. Qed.

Lemma saturating_fits a b : a <= FITS -> b <= FITS -> u128_saturating_add a b = a + b.
Proof. unfold u128_saturating_add, saturating_add, FITS, U128_MAX. lia. Qed.

Lemma claim_add claim m : claim <= FITS -> 0 <= m <= FITS ->
  (if 0 <? m then u128_saturating_add claim m else claim) = claim + m.
Proof. intros. destruct (0 <? m) eqn:C; bool_prop; [apply saturating_fits; lia | lia]. Qed.

Lemma net_zero_Inv id m e c b c' es : Inv c -> pending_fits c -> 0 < m ->
  apply_net_zero_pending_matched_clear id m e c = Ok (b, c', es) -> Inv c'.
Proof.
  unfold apply_net_zero_pending_matched_clear. intros HI Hf Hm H. m_all; read; [done|].
  bool_prop. pose proof (inv_validator _ _ _ HI _ _ Hv) as Hok. pose proof (Hf _ _ Hv). rewrite claim_add by lia.
  eapply InvD_set_validator; [done | exact Hv | unfold validator_ok in *; cbn; lia | done | unfold liability; cbn; lia].
Qed.

Lemma try_epoch_Inv id cont e c p c' es : Inv c -> pending_fits c ->
  try_epoch_stake_or_unstake id cont e c = Ok (p, c', es) -> Inv c'.
Proof.
  unfold try_epoch_stake_or_unstake. intros HI Hf H.
  m_all; read; try done; bool_prop; try (by eapply mark_Inv). eapply net_zero_Inv; [exact HI | exact Hf | | eassumption]. lia.
Qed.

Lemma deposit_done_Inv id e c b c' es : Inv c -> pending_fits c -> on_deposit_and_stake id e c = Ok (b, c', es) -> Inv c'.
Proof.
  unfold on_deposit_and_stake. intros HI Hf H. m_all; read; res_inv; try done; bool_prop.
  pose proof (inv_validator _ _ _ HI _ _ Hv) as Hok. pose proof (Hf _ _ Hv). unfold validator_ok in Hok.
  rewrite claim_add by lia.
  eapply InvD_set_validator; [done | exact Hv | unfold validator_ok; cbn; lia | done | unfold liability; cbn; lia].
Qed.

Lemma unstake_done_Inv id e c b c' es : Inv c -> pending_fits c -> on_unstake id e c = Ok (b, c', es) -> Inv c'.
Proof.
  unfold on_unstake. intros HI Hf H. m_all; read; try done; bool_prop.
  pose proof (inv_validator _ _ _ HI _ _ Hv) as Hok. pose proof (Hf _ _ Hv). unfold validator_ok in Hok.
  rewrite claim_add, saturating_fits by lia.
  eapply InvD_set_validator; [done | exact Hv | unfold validator_ok; cbn; lia | done | unfold liability; cbn; lia].
Qed.

Lemma withdraw_done_Inv id n e c b c' es : Inv c -> on_epoch_withdraw_transfer_done id n e c = Ok (b, c', es) -> Inv c'.
Proof.
  unfold on_epoch_withdraw_transfer_done. intros HI H. m_all; read; res_inv; bool_prop;
    pose proof (inv_validator _ _ _ HI _ _ Hv) as Hok;
    (eapply InvD_set_validator; [done | exact Hv | | done | ]);
    unfold validator_ok, liability, saturating_sub in *; cbn; lia.
Qed.

Lemma maybe_settle_Inv r id cont e c p c' es : Inv c -> pending_fits c ->
  on_after_pool_withdraw_maybe_settle r id cont e c = Ok (p, c', es) -> Inv c'.
Proof.
  unfold on_after_pool_withdraw_maybe_settle. intros HI Hf H. m_inv. read.
  destruct r as [[]|]; m_inv; read; try done. by eapply try_epoch_Inv.
Qed.

Definition account_view_ok (r : option PoolAccountView.t) : Prop :=
  match r with
  | Some view => 0 <= PoolAccountView.unstaked_balance view /\ 0 <= PoolAccountView.staked_balance view
  | None => True
  end.

Lemma after_pool_account_Inv r id cont e c p c' es : Inv c -> pending_fits c -> account_view_ok r ->
  on_epoch_settlement_after_pool_account r id cont e c = Ok (p, c', es) -> Inv c'.
Proof.
  unfold on_epoch_settlement_after_pool_account, refund_payable_pipeline,
    try_epoch_withdraw_known_unstaked. intros HI Hf Hr H. m_inv. destruct r as [view|].
  - m_inv. read. set (x1 := a <| Validator.total_staked_balance := _ |> <| Validator.last_balance_refresh_ns := _ |>) in *.
    set (c1 := c <| validators := _ |>) in *.
    assert (Inv c1) as HI1.
    { pose proof (inv_validator _ _ _ HI _ _ Hv) as Hok. destruct Hr.
      eapply InvD_set_validator; [done | exact Hv | | done | done].
      unfold validator_ok, PoolAccountView.total_balance, saturating_add, U128_MAX in *. cbn. lia. }
    assert (pending_fits c1) as Hf1.
    { intros v x Hx. cbn in Hx. apply lookup_insert_Some in Hx as [[<- <-]|[_ Hx]]; [exact (Hf _ _ Hv) | exact (Hf _ _ Hx)]. }
    destruct (_ && _); m_inv; read; [done|]. by eapply try_epoch_Inv.
  - destruct (UserAction.payable_refund cont) as [[]|]; m_inv; read; [|done].
    by eapply release_Inv.
Qed.

(** ** Release and refund *)
Lemma refund_Inv id buyer amount e c p c' es : Inv c -> refund_payable_pipeline id buyer amount e c = Ok (p, c', es) -> Inv c'.
Proof. unfold refund_payable_pipeline. intros HI H. m_inv. read. by eapply release_Inv. Qed.

Lemma terminal_release_Inv id e c u c' es : Inv c -> on_epoch_pipeline_terminal_release id e c = Ok (u, c', es) -> Inv c'.
Proof. unfold on_epoch_pipeline_terminal_release. intros HI H. m_inv. by eapply release_Inv. Qed.

Lemma release_lock_Inv r id cont e c p c' es : Inv c ->
  on_epoch_pipeline_release_with_lock_id r id cont e c = Ok (p, c', es) -> Inv c'.
Proof.
  unfold on_epoch_pipeline_release_with_lock_id. intros HI H. m_inv. destruct r; m_inv; read; [by eapply release_Inv | by eapply refund_Inv].
Qed.
Lemma release_position_Inv r id cont e c p c' es : Inv c ->
  on_epoch_pipeline_release_with_farm_position r id cont e c = Ok (p, c', es) -> Inv c'.
Proof.
  unfold on_epoch_pipeline_release_with_farm_position. intros HI H. m_inv. destruct r; m_inv; read; [by eapply release_Inv | by eapply refund_Inv].
Qed.
Lemma release_outcome_Inv r id cont e c p c' es : Inv c ->
  on_epoch_pipeline_release_with_subscription_update_outcome r id cont e c = Ok (p, c', es) -> Inv c'.
Proof.
  unfold on_epoch_pipeline_release_with_subscription_update_outcome. intros HI H. m_inv.
  destruct r; m_inv; read; [by eapply release_Inv | by eapply refund_Inv].
Qed.

(** ** Claims *)
Abbreviation amounts_nonneg ts := (Forall (fun t => 0 <= PendingUnstakeTranche.amount t) ts) (only parsing).

Lemma tranche_fold_exact ts acc : amounts_nonneg ts -> 0 <= acc -> acc + tranches_total ts <= U128_MAX ->
  foldl u128_saturating_add acc (PendingUnstakeTranche.amount <$> ts) = acc + tranches_total ts.
Proof.
  intros Hts. revert acc. unfold tranches_total.
  induction Hts as [|t ts Ht Hts IH]; intros acc Ha Hb; rewrite ?fmap_cons; cbn -[u128_saturating_add] in *; [lia|].
  fold (list_sum_Z PendingUnstakeTranche.amount ts) in *.
  pose proof (list_sum_Z_nonneg PendingUnstakeTranche.amount ts (proj1 (Forall_forall _ _) Hts)).
  assert (u128_saturating_add acc (PendingUnstakeTranche.amount t) = acc + PendingUnstakeTranche.amount t) as ->
    by (unfold u128_saturating_add, saturating_add; lia).
  rewrite IH; lia.
Qed.

Lemma tranche_sum_exact ts : amounts_nonneg ts -> tranches_total ts <= U128_MAX -> tranche_sum ts = tranches_total ts.
Proof. intros. unfold tranche_sum. rewrite tranche_fold_exact; [lia | done | lia | lia]. Qed.

(** The tranches a claim at an epoch pays, and those it keeps. *)
Definition due (at_epoch : Z) (ts : list PendingUnstakeTranche.t) := List.filter (claimable at_epoch) ts.
Definition kept (at_epoch : Z) (ts : list PendingUnstakeTranche.t) := List.filter (fun t => negb (claimable at_epoch t)) ts.

Lemma due_kept_total h ts : tranches_total (due h ts) + tranches_total (kept h ts) = tranches_total ts.
Proof.
  unfold due, kept, tranches_total. induction ts as [|t ts IH]; cbn; [done|].
  destruct (claimable h t); cbn; unfold list_sum_Z in *; lia.
Qed.
Lemma Forall_due {P : PendingUnstakeTranche.t -> Prop} h ts : Forall P ts -> Forall P (due h ts).
Proof. unfold due. intros H. apply Forall_forall. intros t Ht. apply list_elem_of_In, filter_In in Ht as [Ht _]. eapply Forall_forall; [exact H | by apply list_elem_of_In]. Qed.
Lemma Forall_kept {P : PendingUnstakeTranche.t -> Prop} h ts : Forall P ts -> Forall P (kept h ts).
Proof. unfold kept. intros H. apply Forall_forall. intros t Ht. apply list_elem_of_In, filter_In in Ht as [Ht _]. eapply Forall_forall; [exact H | by apply list_elem_of_In]. Qed.

Lemma claim_inv a v e c credit c' es : claim_from_withdraw_bucket a v e c = Ok (credit, c', es) ->
  exists x counts, validators c !! v = Some x /\
    credit = tranche_sum (due (epoch_height e) (default [] (user_pending_unstake c !! (a, v)))) /\
    0 < credit <= Validator.pending_to_claim x /\ es = [SEvent (log_withdraw a v credit)] /\
    c' = c <| user_pending_unstake :=
                let ts := kept (epoch_height e) (default [] (user_pending_unstake c !! (a, v))) in
                if bool_decide (ts = []) then delete (a, v) (user_pending_unstake c)
                else <[(a, v) := ts]> (user_pending_unstake c) |>
           <| user_pending_unstake_validator_count := counts |>
           <| validators := <[v := x <| Validator.pending_to_claim := Validator.pending_to_claim x - credit |>]> (validators c) |>.
Proof.
  unfold claim_from_withdraw_bucket, remove_claimable_tranches. intros H. m_inv. read.
  match goal with H : set_user_pending_unstake_tranches _ _ _ _ = Ok _ |- _ => apply set_tranches_inv in H as (-> & counts & ->) end.
  res_inv. bool_prop. eexists _, counts. split_and!; eauto; try lia.
Qed.

Lemma promised_nonneg c v : Inv c -> 0 <= promised (user_pending_unstake c) v.
Proof.
  intros HI. apply map_sum_nonneg. intros k ts Hk. case_bool_decide; [|done].
  apply list_sum_Z_nonneg, Forall_forall. by apply (inv_tranche _ _ _ HI) in Hk as [? _].
Qed.

(** What one account may claim is within the buckets of the pool. *)
Lemma tranches_within_liability c a v x : Inv c -> validators c !! v = Some x ->
  amounts_nonneg (default [] (user_pending_unstake c !! (a, v))) /\
  0 <= tranches_total (default [] (user_pending_unstake c !! (a, v))) <= liability x.
Proof.
  intros HI Hv. pose proof (inv_liability _ _ _ HI _ _ Hv) as Hl. destruct (user_pending_unstake c !! (a, v)) as [ts|] eqn:E; cbn.
  - pose proof (inv_tranche _ _ _ HI _ _ E) as [Hts _]. split; [done|]. split; [by apply list_sum_Z_nonneg, Forall_forall|].
    etransitivity; [|exact Hl]. unfold promised.
    transitivity (if bool_decide ((a, v).2 = v) then tranches_total ts else 0); [by rewrite bool_decide_eq_true_2|].
    apply (map_sum_term_le (fun k ts => if bool_decide (k.2 = v) then tranches_total ts else 0) _ (a, v) ts); [|done].
    intros k ts' Hk. case_bool_decide; [|done]. apply list_sum_Z_nonneg, Forall_forall. by apply (inv_tranche _ _ _ HI) in Hk as [? _].
  - split; [done|]. rewrite tranches_total_nil. pose proof (promised_nonneg c v HI). lia.
Qed.

Lemma due_exact c a v x h : Inv c -> pending_fits c -> validators c !! v = Some x ->
  tranche_sum (due h (default [] (user_pending_unstake c !! (a, v)))) =
  tranches_total (due h (default [] (user_pending_unstake c !! (a, v)))).
Proof.
  intros HI Hf Hv. destruct (tranches_within_liability c a v x HI Hv) as [Hts Hb]. pose proof (Hf _ _ Hv).
  apply tranche_sum_exact; [by apply Forall_due|].
  pose proof (due_kept_total h (default [] (user_pending_unstake c !! (a, v)))).
  assert (0 <= tranches_total (kept h (default [] (user_pending_unstake c !! (a, v)))))
    by (by apply list_sum_Z_nonneg, Forall_forall, Forall_kept).
  unfold liability, FITS, U128_MAX in *. lia.
Qed.

Lemma claim_Inv a v e c credit c' es : Inv c -> pending_fits c ->
  claim_from_withdraw_bucket a v e c = Ok (credit, c', es) -> Inv c'.
Proof.
  intros HI Hf H. apply claim_inv in H as (x & counts & Hv & Hc & Hb & _ & ->). cbv zeta.
  rewrite (due_exact c a v x _ HI Hf Hv) in Hc.
  destruct (tranches_within_liability c a v x HI Hv) as [Hts _].
  set (ts := default [] (user_pending_unstake c !! (a, v))) in *. pose proof (due_kept_total (epoch_height e) ts) as Hsum.
  destruct HI as [H1 H2 H3 H4 H5 H6 H7 H8 H9]. pose proof (H1 _ _ Hv) as Hok. pose proof (H5 _ _ Hv) as Hl.
  set (pend := if bool_decide _ then _ else _).
  assert (forall w, promised pend w = promised (user_pending_unstake c) w - (if bool_decide (v = w) then credit else 0)) as Hp.
  { intros w. unfold pend. by_cases (kept (epoch_height e) ts = []).
    - rewrite promised_delete. fold ts. rewrite D, tranches_total_nil in Hsum. by_cases (v = w); lia.
    - rewrite promised_insert. fold ts. by_cases (v = w); lia. }
  split; cbn; try done.
  - intros w y [[<- <-]|[_ Hy]]%lookup_insert_Some; [|by eapply H1]. unfold validator_ok in *. cbn. lia.
  - intros w y [[<- <-]|[_ Hy]]%lookup_insert_Some; [|by eapply H2]. cbn. by apply H2.
  - intros w y [[<- <-]|[Hne Hy]]%lookup_insert_Some; rewrite Hp.
    + rewrite bool_decide_eq_true_2 by done. unfold liability in *. cbn. lia.
    + rewrite bool_decide_eq_false_2 by done. specialize (H5 _ _ Hy). lia.
  - intros k s Hk. rewrite lookup_insert_is_Some'. apply H6 in Hk. tauto.
  - intros k ts' Hk. rewrite lookup_insert_is_Some'. unfold pend in Hk. by_cases (kept (epoch_height e) ts = []).
    + apply lookup_delete_Some in Hk as [_ Hk]. apply H9 in Hk. tauto.
    + apply lookup_insert_Some in Hk as [[<- <-]|[_ Hk]]; [|apply H9 in Hk; tauto].
      split; [by apply Forall_kept | by left].
Qed.

Lemma payout_Inv a v e c p c' es : Inv c -> pending_fits c -> payout_user_withdraw a v e c = Ok (p, c', es) -> Inv c'.
Proof. unfold payout_user_withdraw. intros HI Hf H. m_inv. by eapply claim_Inv. Qed.

(** ** Locks *)
Lemma set_lock_inv l x e c u c' es : internal_set_lock l x e c = Ok (u, c', es) ->
  c' = c <| locks := <[l := x]> (locks c) |> /\ es = [].
Proof. unfold internal_set_lock. intros H. by m_inv. Qed.

Lemma require_lock_inv l msg e c x c' es : require_lock l msg e c = Ok (x, c', es) ->
  locks c !! l = Some x /\ c' = c /\ es = [].
Proof. unfold require_lock. intros H. m_inv. by res_inv. Qed.

(** A lock that only changes its window or order. *)
Lemma InvD_relabel_lock d fd c l x y : InvD d fd c -> locks c !! l = Some x ->
  Lock.lock_id y = Lock.lock_id x -> Lock.account_id y = Lock.account_id x -> Lock.validator_id y = Lock.validator_id x ->
  Lock.shares y = Lock.shares x -> Lock.status y = Lock.status x ->
  InvD d fd (c <| locks := <[l := y]> (locks c) |>).
Proof.
  intros HI Hl E1 E2 E3 E4 E5. pose proof (inv_lock _ _ _ HI _ _ Hl) as [Hid Hs].
  eapply InvD_set_lock; [exact HI | congruence | congruence |]. intros a v. rewrite Hl.
  unfold lock_in. by rewrite E2, E3, E4, E5.
Qed.

Lemma sync_fields lock sub : let y := sync_lock_window_fields lock sub in
  Lock.lock_id y = Lock.lock_id lock /\ Lock.account_id y = Lock.account_id lock /\
  Lock.validator_id y = Lock.validator_id lock /\ Lock.shares y = Lock.shares lock /\ Lock.status y = Lock.status lock /\
  Lock.amount_near y = Lock.amount_near lock.
Proof. unfold sync_lock_window_fields. cbn. destruct (Lock.order lock); cbn; [done|]. by case_match. Qed.

(** The locks ever taken are all stored. *)
Definition census (c : Contract) : Prop := map_sum (fun _ n => n) (user_lock_count c) = Z.of_nat (size (locks c)).

Lemma census_books c c' : books c' = books c -> census c -> census c'.
Proof. unfold census, books, ledger. intros [= E1 E2 E3 E4 E5 E6 E7 E8 E9]. by rewrite E9, E4. Qed.

Lemma census_set_lock c l x y : locks c !! l = Some x -> census c -> census (c <| locks := <[l := y]> (locks c) |>).
Proof. unfold census. intros Hl. cbn. rewrite map_size_insert, Hl. done. Qed.

Lemma sync_window_Inv d fd sub e c u c' es : InvD d fd c ->
  sync_subscription_lock_window sub e c = Ok (u, c', es) -> InvD d fd c' /\ (census c -> census c').
Proof.
  unfold sync_subscription_lock_window. intros HI H. m_inv. destruct (locks c !! _) as [x|] eqn:Hx; m_inv; [|done].
  destruct (_ || _); m_inv; [done|]. apply set_lock_inv in H as (-> & ->).
  pose proof (inv_lock _ _ _ HI _ _ Hx) as [Hid _]. rewrite Hid.
  destruct (sync_fields x sub) as (? & ? & ? & ? & ? & ?).
  split; [by eapply InvD_relabel_lock | by eapply census_set_lock].
Qed.
