(* ===== verification/StakingTails.v ===== *)
(** * The user actions keep the books

    The tails of the pipeline (locks, subscriptions, farm stakes and exits)
    move shares between the validator, the user's total and the lock or
    position that holds them. *)
From stdpp Require Import base gmap strings list.
From Stdlib Require Import ZArith Lia.
From S2P Require Import Prelude.
From S2P Require Import Near.
From S2P Require Import MerkleTree.
From S2P Require Import StakingTypes.
From S2P Require Import StakingMath.
From S2P Require Import StakingContract.
From S2P Require Import StakingCatalog.
From S2P Require Import StakingEpoch.
From S2P Require Import StakingSubscriptions.
From S2P Require Import StakingLocks.
From S2P Require Import StakingFarm.
From S2P Require Import StakingBooks.
From S2P Require Import StakingStake.
From S2P Require Import StakingInvariant.

Local Open Scope Z_scope.
Local Open Scope record_scope.

(** Equal ids. *)
Ltac str_prop :=
  repeat match goal with
  | H : String.eqb _ _ = true |- _ => apply String.eqb_eq in H
  | H : String.eqb _ _ = false |- _ => apply String.eqb_neq in H
  end.

(** The invariant with the census of the locks. *)
Definition Bk (d : AccountId -> ValidatorId -> Z) (fd : PriceId -> Z) (c : Contract) : Prop := InvD d fd c /\ census c.

Lemma Bk_books d fd c c' : books c' = books c -> Bk d fd c -> Bk d fd c'.
Proof. intros E [HI Hc]. split; [by eapply InvD_books | by eapply census_books]. Qed.

(** What leaves the books alone keeps the invariant. *)
Lemma keeps_same {A} d fd (m : MS A) : same_books m -> keeps (Bk d fd) m.
Proof. intros Hm e c a c' es HB H. eapply Bk_books; [|exact HB]. by eapply same_books_inv. Qed.
#[export] Hint Resolve keeps_same : keeps.

Lemma unstake_Bk d fd a id n e c near c' es : Bk d fd c -> internal_unstake a id n e c = Ok (near, c', es) ->
  0 < n /\ 0 <= near /\ locks c' = locks c /\ farm_positions c' = farm_positions c /\ farm_pools c' = farm_pools c /\
  Bk (fun a' v' => d a' v' - only a id n a' v') fd c'.
Proof.
  intros [HI Hc] H. pose proof H as H'. apply unstake_InvD with (1 := HI) in H' as (? & ? & ?).
  apply internal_unstake_inv in H as (v & counts & h & _ & _ & _ & _ & _ & _ & _ & _ & ->). by split_and!.
Qed.

Lemma stake_Bk d fd buyer id deposit e c n c' es : Bk d fd c -> 0 <= deposit ->
  internal_stake buyer id deposit e c = Ok (n, c', es) ->
  (forall x, validators c' !! id = Some x -> Validator.total_shares x < U128_MAX) ->
  0 <= n /\ locks c' = locks c /\ farm_positions c' = farm_positions c /\ farm_pools c' = farm_pools c /\
  Bk (fun a v => d a v + only buyer id n a v) fd c'.
Proof.
  intros [HI Hc] Hd H Hf. pose proof H as H'. apply stake_InvD with (d := d) (fd := fd) in H' as (? & ?); [|done..].
  apply internal_stake_inv in H as (v & _ & _ & _ & _ & _ & ->). by split_and!.
Qed.

(** A lock rewritten with [n] shares less, or inactive. *)
Lemma lock_in_only a v x : Lock.status x = LockStatus.Active ->
  lock_in a v x = only (Lock.account_id x) (Lock.validator_id x) (Lock.shares x) a v.
Proof.
  intros Hs. unfold lock_in, only. by_cases (a = Lock.account_id x /\ v = Lock.validator_id x).
  - destruct D as [-> ->]. by rewrite bool_decide_eq_true_2.
  - rewrite bool_decide_eq_false_2; [done|]. intros (? & ? & _). by apply D.
Qed.
Lemma lock_in_inactive a v x : Lock.status x <> LockStatus.Active -> lock_in a v x = 0.
Proof. intros Hs. unfold lock_in. rewrite bool_decide_eq_false_2; [done|]. by intros (_ & _ & ?). Qed.

Lemma set_lock_Bk d d' fd c x y : Bk d fd c -> locks c !! Lock.lock_id y = Some x -> 0 <= Lock.shares y ->
  (forall a v, d' a v + lock_in a v y = d a v + lock_in a v x) ->
  Bk d' fd (c <| locks := <[Lock.lock_id y := y]> (locks c) |>).
Proof.
  intros [HI Hc] Hx Hs Hd. split; [|by eapply census_set_lock].
  eapply InvD_set_lock; [exact HI | done | done |]. by rewrite Hx.
Qed.

(** ** Unlocking *)
Lemma resolve_unlock_Bk id a v n : keeps (Bk none2 none1) (resolve_unlock id a v n).
Proof.
  unfold resolve_unlock, require_lock. intros e c u c' es HB H. m_inv. read. res_inv. bool_prop. str_prop. subst.
  match goal with H : locks _ !! id = Some ?l |- _ => rename H into Hl; rename l into x end.
  pose proof (inv_lock _ _ _ (proj1 HB) _ _ Hl) as [Hid Hs].
  match goal with H : internal_unstake _ _ _ _ _ = Ok _ |- _ =>
    apply unstake_Bk with (1 := HB) in H as (Hn & _ & El & _ & _ & HB1) end.
  match goal with H : internal_set_lock _ _ _ _ = Ok _ |- _ => apply set_lock_inv in H as (-> & ->) end.
  set (y := x <| Lock.status := LockStatus.UnlockRequested |>). replace id with (Lock.lock_id y) by done.
  eapply set_lock_Bk; [exact HB1 | cbn; rewrite El, Hid; exact Hl | done |].
  intros a v. rewrite (lock_in_only a v x), (lock_in_inactive a v y) by done. unfold none2. lia.
Qed.

(** ** Subscriptions *)
Lemma surplus_shares_bound v x t n : 0 <= Lock.shares x -> surplus_shares v x t = Ok (Some n) -> n <= Lock.shares x.
Proof. unfold surplus_shares. intros Hs H. repeat (case_match; res_inv; simplify_eq). lia. Qed.

Lemma shrink_fields x n near : let y := shrink_lock x n near in
  Lock.lock_id y = Lock.lock_id x /\ Lock.account_id y = Lock.account_id x /\ Lock.validator_id y = Lock.validator_id x /\
  Lock.shares y = saturating_sub (Lock.shares x) n /\
  (Lock.status y = Lock.status x \/ Lock.status y = LockStatus.UnlockRequested /\ Lock.shares y = 0).
Proof. unfold shrink_lock. cbn -[saturating_sub]. case_match; bool_prop; cbn -[saturating_sub]; tauto. Qed.

Lemma shrink_in x n near a v : Lock.status x = LockStatus.Active -> 0 <= n <= Lock.shares x ->
  lock_in a v (shrink_lock x n near) = lock_in a v x - only (Lock.account_id x) (Lock.validator_id x) n a v.
Proof.
  intros Hs Hn. destruct (shrink_fields x n near) as (_ & Ea & Ev & En & Est). rewrite (lock_in_only a v x Hs).
  assert (Lock.shares (shrink_lock x n near) = Lock.shares x - n) as En' by (rewrite En; unfold saturating_sub; lia).
  destruct Est as [Est|[Est E0]].
  - rewrite lock_in_only by congruence. rewrite Ea, Ev, En'. unfold only. case_bool_decide; lia.
  - rewrite lock_in_inactive by congruence. unfold only. case_bool_decide; lia.
Qed.

Lemma decrease_Bk d fd buyer sub t : keeps (Bk d fd) (apply_scheduled_stake_decrease_at_renewal buyer sub t).
Proof.
  unfold apply_scheduled_stake_decrease_at_renewal. intros e c u c' es HB H. m_inv.
  destruct (locks c !! _) as [x|] eqn:Hx; m_inv; [|done]. m_all; try done. read. bool_prop. str_prop. subst.
  match goal with H : surplus_shares _ _ _ = Ok ?o |- _ => destruct o as [n|]; m_inv; [|done]; rename H into Hn end.
  pose proof (inv_lock _ _ _ (proj1 HB) _ _ Hx) as [Hid Hs]. apply surplus_shares_bound in Hn; [|done].
  match goal with H : internal_unstake _ _ _ _ _ = Ok _ |- _ =>
    apply unstake_Bk with (1 := HB) in H as (Hpos & _ & El & _ & _ & HB1) end.
  match goal with H : internal_set_lock _ _ _ _ = Ok _ |- _ => apply set_lock_inv in H as (-> & ->) end.
  destruct (shrink_fields x n a0) as (Ei & _ & _ & En & _). rewrite <- Ei.
  eapply set_lock_Bk; [exact HB1 | rewrite Ei, El, Hid; exact Hx | rewrite En; unfold saturating_sub; lia |].
  intros a1 v1. rewrite shrink_in by (done || lia). lia.
Qed.

Lemma sync_window_Bk d fd sub : keeps (Bk d fd) (sync_subscription_lock_window sub).
Proof. intros e c u c' es [HI Hc] H. eapply sync_window_Inv in H as [? ?]; [|exact HI]. split; auto. Qed.
#[export] Hint Resolve decrease_Bk sync_window_Bk : keeps.

Section subscriptions.
Context `{IS : IdSet}.

Lemma apply_due_Bk d fd id : keeps (Bk d fd) (apply_due_subscription_update id).
Proof. unfold apply_due_subscription_update. keeps_walk. Qed.

Lemma cancel_Bk d fd id : keeps (Bk d fd) (cancel_subscription id).
Proof. unfold cancel_subscription. keeps_walk. Qed.
Lemma resume_Bk d fd id : keeps (Bk d fd) (resume_subscription id).
Proof. unfold resume_subscription. keeps_walk. Qed.
End subscriptions.
#[export] Hint Resolve apply_due_Bk cancel_Bk resume_Bk : keeps.

(** ** Taking a lock *)
Lemma fits_census c : fits c -> census c.
Proof. apply fit_locks. Qed.

(** An id that raises the number of locks with the number of taken locks is
    new. *)
Lemma census_fresh (counts : gmap AccountId Z) (ls : gmap LockId Lock.t) a l x :
  map_sum (fun _ n => n) counts = Z.of_nat (size ls) ->
  map_sum (fun _ n => n) (<[a := u32_saturating_add (count counts a) 1]> counts) = Z.of_nat (size (<[l := x]> ls)) ->
  u32_saturating_add (count counts a) 1 < U32_MAX -> ls !! l = None.
Proof.
  intros H1 H2 Hb. rewrite map_sum_insert, map_size_insert in H2. destruct (ls !! l); [exfalso|done].
  unfold count, u32_saturating_add, saturating_add in *. destruct (counts !! a); cbn in *; lia.
Qed.

(** The lock of [n] new shares, and its count. *)
Lemma take_lock_Bk buyer v n x c : Bk (fun a w => none2 a w + only buyer v n a w) none1 c -> 0 <= n ->
  Lock.account_id x = buyer -> Lock.validator_id x = v -> Lock.shares x = n -> Lock.status x = LockStatus.Active ->
  let c' := c <| locks := <[Lock.lock_id x := x]> (locks c) |>
              <| user_lock_count := <[buyer := u32_saturating_add (count (user_lock_count c) buyer) 1]> (user_lock_count c) |> in
  fits c' -> Bk none2 none1 c'.
Proof.
  intros [HI Hc] Hn <- <- <- Hs c' Hf. split; [|by apply fits_census].
  assert (locks c !! Lock.lock_id x = None) as Hnew.
  { eapply census_fresh; [exact Hc | exact (fit_locks _ Hf) |]. specialize (fit_lock_count _ Hf (Lock.account_id x)).
    cbn. by rewrite count_insert. }
  eapply InvD_ledger with (c := c <| locks := <[Lock.lock_id x := x]> (locks c) |>); [done|].
  eapply InvD_set_lock; [exact HI | done | done |]. intros a w. rewrite Hnew, (lock_in_only a w x Hs). unfold none2. lia.
Qed.

Lemma books_count f c c' : books c = books c' ->
  books (c <| user_lock_count := f (user_lock_count c) |>) = books (c' <| user_lock_count := f (user_lock_count c') |>).
Proof. unfold books, ledger. intros [= E1 E2 E3 E4 E5 E6 E7 E8 E9]. cbn. congruence. Qed.

Lemma fits_books c c' : books c' = books c -> fits c -> fits c'.
Proof.
  unfold books, ledger. intros [= E1 E2 E3 E4 E5 E6 E7 E8 E9] [H1 H0 H2 H3].
  split; [by rewrite E1 | by rewrite E6 | by rewrite E9 | by rewrite E9, E4].
Qed.

(** Move the invariant over the next step of a run. *)
Ltac carry HB :=
  repeat match type of HB with
  | ?P ?s =>
      match goal with
      | E : ?m ?e s = Ok (_, _, _) |- _ =>
          let K := fresh "K" in
          assert (K : keeps P m) by (solve [keeps_walk]); apply (K _ _ _ _ _ HB) in E;
          clear K HB; rename E into HB
      end
  end.

Section locks.
Context `{HC : Crypto} `{IS : IdSet}.

Lemma followup_books buyer l (f : option (Subscription.t * SubscriptionId * bool)) : same_books (
match f with
| Some (sub, sub_id, is_new_index) =>
let sub := sub <| Subscription.last_lock_id := l |> in
internal_set_subscription sub_id sub ;;
add_subscription_to_indexes buyer sub_id is_new_index ;;
if is_new_index : bool
then modify (fun c => c <| subscription_by_account_product :=
 <[(Subscription.account_id sub, Subscription.product_id sub) := sub_id]> (subscription_by_account_product c) |>)
else mret tt
| None => mret tt
end).
Proof. same. Qed.

Lemma commit_lock_Bk buyer locked dur order v f e c l c' es : Bk none2 none1 c -> 0 <= locked ->
commit_catalog_lock buyer locked dur order v f e c = Ok (l, c', es) -> fits c' -> Bk none2 none1 c'.
Proof.
unfold commit_catalog_lock. intros HB Hl H Hf. m_inv. read. frame.
apply (Bk_books _ _ _ _ E) in HB. apply set_lock_inv in E6 as (-> & ->).
eapply same_books_inv in E11; [|apply followup_books].
rewrite E8, E7 in E9. clear E E7 E8.
set (x1 := Lock.mk _ _ _ _ _ _ _ _ _) in *.
set (c2 := s1 <| locks := <[Lock.lock_id x1 := x1]> (locks s1) |>).
assert (books s11 = books (c2 <| user_lock_count := <[buyer := u32_saturating_add (count (user_lock_count c2) buyer) 1]>
                                            (user_lock_count c2) |>)) as E.
{ rewrite E11. by apply (books_count (fun m => <[buyer := u32_saturating_add (count m buyer) 1]> m)). }
apply (fits_books _ _ (eq_sym E)) in Hf. apply (Bk_books _ _ _ _ E).
apply stake_Bk with (1 := HB) (2 := Hl) in E1 as (Hn & _ & _ & _ & HB1); [|intros w Hw; exact (proj1 (fit_validator _ Hf _ _ Hw))].
by apply (take_lock_Bk buyer v a0 x1 s1).
Qed.

Lemma resolve_lock_Bk buyer locked dur order v e c l c' es : Bk none2 none1 c -> 0 <= locked ->
resolve_lock buyer locked dur order v e c = Ok (l, c', es) -> fits c' -> Bk none2 none1 c'.
Proof. unfold resolve_lock. intros HB Hl H Hf. m_inv. read. by eapply commit_lock_Bk. Qed.

Lemma resolve_recurring_Bk d fd buyer p product : keeps (Bk d fd) (resolve_recurring_subscription buyer p product).
Proof. unfold resolve_recurring_subscription. keeps_walk; try (eapply Bk_books; [|eassumption]; done). Qed.
#[local] Hint Resolve resolve_recurring_Bk : keeps.

Lemma recurring_lock_Bk buyer locked p v e c l c' es : Bk none2 none1 c -> 0 <= locked ->
resolve_recurring_subscription_lock_after_settle buyer locked p v e c = Ok (l, c', es) -> fits c' -> Bk none2 none1 c'.
Proof.
unfold resolve_recurring_subscription_lock_after_settle, commit_recurring_subscription_lock_after_settle.
intros HB Hl H Hf. m_inv. read. carry HB.
by eapply commit_lock_Bk.
Qed.
End locks.

(** ** Updates of a subscription *)
Lemma checked_inputs_inv buyer p t id expected e c inputs c' es :
  checked_subscription_update_inputs buyer p t id expected e c = Ok (inputs, c', es) ->
  c' = c /\ locks c !! Subscription.last_lock_id (in_sub inputs) = Some (in_lock inputs) /\
  Lock.account_id (in_lock inputs) = buyer /\ Lock.status (in_lock inputs) = LockStatus.Active /\
  (forall v, expected = Some v -> Lock.validator_id (in_lock inputs) = v).
Proof.
  unfold checked_subscription_update_inputs, get_active_price_and_product, require_price, require_product,
    require_recurring_monthly_price, validate_subscription_target_amount, require_subscription_owned_by_id,
    require_subscription_by_id, assert_subscription_active, assert_product_not_reserved_by_pending_update,
    require_subscription_lock_owned_by, require_lock.
  intros H. m_inv. repeat (case_match; m_inv).
  all: cbn; res_inv; bool_prop; str_prop; split_and!; try done; intros ? [=]; congruence.
Qed.

Lemma update_state_inv p d sub price product x sub' price' product' y :
  apply_subscription_update_state p d sub price product x = Ok (sub', price', product', y) ->
  Lock.lock_id y = Lock.lock_id x /\ Lock.account_id y = Lock.account_id x /\
  Lock.validator_id y = Lock.validator_id x /\ Lock.shares y = Lock.shares x /\ Lock.status y = Lock.status x.
Proof.
  unfold apply_subscription_update_state. intros H. destruct (immediate_plan_change d); res_inv;
    match goal with |- context [sync_lock_window_fields ?l ?s] => destruct (sync_fields l s) as (? & ? & ? & ? & ? & _) end;
    by split_and!.
Qed.

(** ** Bounds of the parts *)
Lemma lock_shares_ge d fd c l x : InvD d fd c -> locks c !! l = Some x -> Lock.status x = LockStatus.Active ->
  Lock.shares x <= lock_shares (locks c) (Lock.account_id x) (Lock.validator_id x).
Proof.
  intros HI Hl Hs. transitivity (lock_in (Lock.account_id x) (Lock.validator_id x) x).
  { rewrite lock_in_only by done. unfold only. by rewrite bool_decide_eq_true_2. }
  apply (map_sum_term_le (fun _ => lock_in (Lock.account_id x) (Lock.validator_id x)) (locks c) l x); [|done].
  intros k y Hy. unfold lock_in. case_bool_decide; [exact (proj2 (inv_lock _ _ _ HI _ _ Hy)) | done].
Qed.

Lemma lock_shares_nonneg d fd c a v : InvD d fd c -> 0 <= lock_shares (locks c) a v.
Proof. intros HI. apply map_sum_nonneg. intros k y Hy. unfold lock_in. case_bool_decide; [exact (proj2 (inv_lock _ _ _ HI _ _ Hy)) | done]. Qed.
Lemma farm_shares_nonneg d fd c a v : InvD d fd c -> 0 <= farm_shares (farm_positions c) a v.
Proof. intros HI. apply map_sum_nonneg. intros k y Hy. unfold position_in. case_bool_decide; [exact (proj2 (inv_position _ _ _ HI _ _ Hy)) | done]. Qed.

Lemma user_within d fd c a v y : InvD d fd c -> validators c !! v = Some y ->
  lock_shares (locks c) a v + farm_shares (farm_positions c) a v + d a v <= Validator.total_shares y.
Proof.
  intros HI Hv. rewrite <- (inv_user _ _ _ HI), (inv_total _ _ _ HI _ _ Hv).
  apply count_le_shares_of. intros k s Hk. exact (proj1 (inv_share_pos _ _ _ HI _ _ Hk)).
Qed.

Lemma frame_step {A} (m : MS A) e c a c' es : m e c = Ok (a, c', es) -> same_books m -> books c' = books c.
Proof. intros H Hm. by eapply same_books_inv. Qed.
Ltac frame_walk :=
  repeat match goal with
  | H : _ _ _ = Ok (_, _, _) |- _ => apply frame_step in H; [|solve [same]]
  end.

(** The lock with [n] more shares. *)
Lemma grow_lock_Bk n x y c : let a := Lock.account_id x in let v := Lock.validator_id x in
  Bk (fun a' v' => none2 a' v' + only a v n a' v') none1 c -> 0 <= n ->
  locks c !! Lock.lock_id x = Some x -> Lock.status x = LockStatus.Active ->
  (exists w, validators c !! v = Some w /\ Validator.total_shares w < U128_MAX) ->
  Lock.lock_id y = Lock.lock_id x -> Lock.account_id y = a -> Lock.validator_id y = v ->
  Lock.shares y = u128_saturating_add (Lock.shares x) n -> Lock.status y = LockStatus.Active ->
  Bk none2 none1 (c <| locks := <[Lock.lock_id y := y]> (locks c) |>).
Proof.
  intros a v HB Hn Hx Hs (w & Hw & Hf) Ei Ea Ev En Est. pose proof (proj1 HB) as HI.
  pose proof (lock_shares_ge _ _ _ _ _ HI Hx Hs). pose proof (farm_shares_nonneg _ _ _ a v HI).
  pose proof (user_within _ _ _ a v w HI Hw) as Hu.
  pose proof (inv_lock _ _ _ HI _ _ Hx) as [_ Hpos].
  assert (only a v n a v = n) as Eo by (unfold only; by rewrite bool_decide_eq_true_2).
  cbv beta in Hu. rewrite Eo in Hu. fold a v in H. unfold none2 in Hu.
  assert (Lock.shares y = Lock.shares x + n) as En' by (rewrite En; unfold u128_saturating_add, saturating_add; lia).
  eapply set_lock_Bk; [exact HB | by rewrite Ei | lia |]. intros a' v'.
  rewrite (lock_in_only a' v' x), (lock_in_only a' v' y), Ea, Ev, En' by done. fold a v. unfold none2, only.
  case_bool_decide; lia.
Qed.

Lemma decision_same inputs p t : same_core (build_subscription_update_decision inputs p t).
Proof. unfold build_subscription_update_decision. same. Qed.
#[export] Hint Resolve decision_same : keeps.

Section updates.
Context `{IS : IdSet}.

Lemma subscription_update_Bk buyer deposit p t id v e c o c' es : Bk none2 none1 c -> 0 <= deposit ->
on_subscription_update_after_settle buyer deposit p t id v e c = Ok (o, c', es) -> fits c' -> Bk none2 none1 c'.
Proof.
unfold on_subscription_update_after_settle, commit_subscription_update_after_settle.
intros HB Hd H Hf. m_inv. read.
match goal with E : apply_due_subscription_update _ _ _ = Ok _ |- _ =>
apply (apply_due_Bk _ _ _ _ _ _ _ _ HB) in E; clear HB; rename E into HB end.
match goal with E : checked_subscription_update_inputs _ _ _ _ _ _ _ = Ok (?i, _, _) |- _ =>
apply checked_inputs_inv in E as (-> & Hx & Ha & Hs & Hv1); set (lk := in_lock i) in * end.
match goal with E : apply_subscription_update_state _ _ _ _ _ _ = Ok _ |- _ =>
apply update_state_inv in E as (Ei & Ea & Ev & En & Est) end.
match goal with E : internal_set_lock _ _ _ _ = Ok _ |- _ => apply set_lock_inv in E as (-> & ->) end.
specialize (Hv1 _ eq_refl). pose proof (inv_lock _ _ _ (proj1 HB) _ _ Hx) as [Hid _]. rewrite <- Hid in Hx.
frame_walk.
match goal with E : books ?s = books (?s6 <| locks := _ |>), F : books s10 = _ |- _ =>
assert (books s10 = books (s6 <| locks := <[Lock.lock_id y0 := y0]> (locks s6) |>)) as Eb by congruence end.
apply (fits_books _ _ (eq_sym Eb)) in Hf. apply (Bk_books _ _ _ _ Eb).
match goal with E : books ?s = books s2 |- _ =>
apply (Bk_books _ _ _ _ E) in HB; assert (locks s = locks s2) as El by (unfold books, ledger in E; congruence) end.
rewrite <- El in Hx. subst v buyer. destruct (immediate_stake_increase a4); m_inv; res_inv.
- match goal with E : internal_stake _ _ _ _ _ = Ok _ |- _ => rename E into Es end.
apply stake_Bk with (1 := HB) (2 := Hd) in Es as (Hn & El1 & _ & _ & HB1);
[|intros w' Hw'; exact (proj1 (fit_validator _ Hf _ _ Hw'))].
eapply grow_lock_Bk; [exact HB1 | done | by rewrite El1 | done | | done | done | done | done | by rewrite Est].
assert (validators s1 !! Lock.validator_id lk = Some a1) as Hw by (unfold books, ledger in Eb; cbn in Eb; congruence).
exists a1. split; [done|]. exact (proj1 (fit_validator _ Hf _ _ Hw)).
- eapply set_lock_Bk; [exact HB | by rewrite Ei | |].
+ rewrite En. exact (proj2 (inv_lock _ _ _ (proj1 HB) _ _ Hx)).
+ intros a v. unfold lock_in. by rewrite Ea, Ev, En, Est.
Qed.
End updates.
