(* ===== verification/StakingShelf.v ===== *)
(** * The catalog of the staking contract

    Prices, products, farm pools and farm positions refer to each other by id.
    [Cat] is what keeps these references right: every price is listed by its
    product, a product has at most one active farm price, a farm pool with
    stake has an active farm price, and a farm position is on the validator of
    its product. *)
From stdpp Require Import base gmap strings list.
From Stdlib Require Import ZArith Lia.
From S2P Require Import Prelude.
From S2P Require Import Near.
From S2P Require Import MerkleTree.
From S2P Require Import StakingTypes.
From S2P Require Import StakingMath.
From S2P Require Import StakingContract.
From S2P Require Import StakingCatalog.
From S2P Require Import StakingEpoch.
From S2P Require Import StakingSubscriptions.
From S2P Require Import StakingLocks.
From S2P Require Import StakingFarm.
From S2P Require Import StakingBooks.
From S2P Require Import StakingStake.
From S2P Require Import StakingInvariant.
From S2P Require Import StakingTails.

Local Open Scope Z_scope.
Local Open Scope record_scope.

(** ** The parts of a price and a product that are fixed by a sale *)
Definition pview (p : Price.t) := (Price.price_id p, Price.product_id p, Price.price_type p, Price.status p).
Definition qview (p : Product.t) := (Product.product_id p, Product.price_ids p, Product.validator_id p).
Abbreviation PView := (PriceId * ProductId * PriceType.t * CatalogStatus.t)%type.
Abbreviation QView := (ProductId * list PriceId * ValidatorId)%type.

Definition pviews (c : Contract) : gmap PriceId PView := pview <$> prices c.
Definition qviews (c : Contract) : gmap ProductId QView := qview <$> products c.
(** Pools and positions without their rewards. *)
Definition lview (x : FarmPool.t) : FarmPool.t :=
  x <| FarmPool.reward_rate := 0 |> <| FarmPool.acc_reward_per_share := 0 |> <| FarmPool.last_reward_settle_ns := 0 |>.
Definition oview (x : FarmPosition.t) : FarmPosition.t :=
  x <| FarmPosition.reward_debt := 0 |> <| FarmPosition.accrued_reward_units := 0 |>
    <| FarmPosition.created_ns := 0 |> <| FarmPosition.updated_ns := 0 |>.
Definition lviews (c : Contract) : gmap PriceId FarmPool.t := lview <$> farm_pools c.
Definition oviews (c : Contract) : gmap (AccountId * ProductId) FarmPosition.t := oview <$> farm_positions c.
Definition shelf (c : Contract) := (pviews c, qviews c, lviews c, oviews c).
Definition at_shelf b (c : Contract) : Prop := shelf c = b.

(** An active farm price of a product. *)
Definition farm_price_of (product : ProductId) (x : PView) : Prop :=
  let '(_, p, ty, st) := x in p = product /\ ty = PriceType.Farm /\ st = CatalogStatus.Active.

Record CatS (pv : gmap PriceId PView) (qv : gmap ProductId QView) (pools : gmap PriceId FarmPool.t)
    (ps : gmap (AccountId * ProductId) FarmPosition.t) : Prop := {
  cat_price id x : pv !! id = Some x -> x.1.1.1 = id /\ exists y, qv !! x.1.1.2 = Some y /\ id ∈ y.1.2;
  cat_product id y : qv !! id = Some y -> y.1.1 = id;
  cat_unique id1 id2 x1 x2 p : pv !! id1 = Some x1 -> pv !! id2 = Some x2 ->
    farm_price_of p x1 -> farm_price_of p x2 -> id1 = id2;
  cat_pool id pool : pools !! id = Some pool ->
    exists x, pv !! id = Some x /\ x.1.1.2 = FarmPool.product_id pool /\ x.1.2 = PriceType.Farm /\
      (0 < FarmPool.total_farm_shares pool -> x.2 = CatalogStatus.Active);
  cat_key k p : ps !! k = Some p -> k = (FarmPosition.account_id p, FarmPosition.product_id p);
  cat_position k p : ps !! k = Some p -> FarmPosition.status p = FarmStatus.Active -> 0 < FarmPosition.shares p ->
    exists pool y, pools !! FarmPosition.price_id p = Some pool /\ FarmPool.product_id pool = FarmPosition.product_id p /\
      qv !! FarmPosition.product_id p = Some y /\ y.2 = FarmPosition.validator_id p
}.
Definition Cat (c : Contract) : Prop := CatS (pviews c) (qviews c) (lviews c) (oviews c).

Lemma Cat_shelf c c' : shelf c' = shelf c -> Cat c -> Cat c'.
Proof. unfold shelf, Cat. intros [= -> -> -> ->]. done. Qed.

Lemma core_shelf c c' : core c' = core c -> shelf c' = shelf c.
Proof. unfold core, books, ledger, shelf, pviews, qviews, lviews, oviews. congruence. Qed.

Lemma shelf_core {A} (m : MS A) b : same_core m -> keeps (at_shelf b) m.
Proof. intros Hm e c a c' es Hb H. unfold at_shelf in *. rewrite <- Hb. apply core_shelf. by eapply same_core_inv. Qed.
#[export] Hint Resolve shelf_core : keeps.

(** A computation that keeps the shelf keeps the catalog in order. *)
Lemma Cat_keeps {A} (m : MS A) : (forall c, Cat c -> keeps (at_shelf (shelf c)) m) -> keeps Cat m.
Proof. intros Hm e c a c' es HC H. eapply Cat_shelf; [|exact HC]. by apply (Hm c HC e c a c' es). Qed.

(** ** The stake accounting and the pipeline do not touch the catalog *)
Section shelf.
Context (b : gmap PriceId PView * gmap ProductId QView * gmap PriceId FarmPool.t *
 gmap (AccountId * ProductId) FarmPosition.t).
Abbreviation on_shelf m := (keeps (at_shelf b) m).
Ltac shelf := keeps_walk; try assumption.

Lemma shelf_set_validator v x : on_shelf (internal_set_validator v x).
Proof. unfold internal_set_validator. shelf. Qed.
Lemma shelf_set_lock v x : on_shelf (internal_set_lock v x).
Proof. unfold internal_set_lock. shelf. Qed.
Lemma shelf_tranches k ts : on_shelf (set_user_pending_unstake_tranches k ts).
Proof.
unfold set_user_pending_unstake_tranches, increment_pending_unstake_validator_count,
decrement_pending_unstake_validator_count. shelf.
Qed.
#[local] Hint Resolve shelf_set_validator shelf_set_lock shelf_tranches : keeps.
Lemma shelf_stake a v n : on_shelf (internal_stake a v n).
Proof. unfold internal_stake. shelf. Qed.
Lemma shelf_unstake a v n : on_shelf (internal_unstake a v n).
Proof. unfold internal_unstake. shelf. Qed.
#[local] Hint Resolve shelf_stake shelf_unstake : keeps.

Lemma shelf_release v : on_shelf (release_validator_pool_pipeline v).
Proof. unfold release_validator_pool_pipeline. shelf. Qed.
#[local] Hint Resolve shelf_release : keeps.
Lemma shelf_refund v a n : on_shelf (refund_payable_pipeline v a n).
Proof. unfold refund_payable_pipeline. shelf. Qed.
Lemma shelf_mark v a : on_shelf (mark_epoch_settlement_handled v a).
Proof. unfold mark_epoch_settlement_handled. shelf. Qed.
Lemma shelf_net_zero v n : on_shelf (apply_net_zero_pending_matched_clear v n).
Proof. unfold apply_net_zero_pending_matched_clear. shelf. Qed.
#[local] Hint Resolve shelf_refund shelf_mark shelf_net_zero : keeps.
Lemma shelf_try_epoch v k : on_shelf (try_epoch_stake_or_unstake v k).
Proof. unfold try_epoch_stake_or_unstake. shelf. Qed.
#[local] Hint Resolve shelf_try_epoch : keeps.
Lemma shelf_settlement v k : on_shelf (promise_validator_per_epoch_settlement_then v k).
Proof. unfold promise_validator_per_epoch_settlement_then, promise_get_validator_pool_account. shelf. Qed.
Lemma shelf_after_account r v k : on_shelf (on_epoch_settlement_after_pool_account r v k).
Proof. unfold on_epoch_settlement_after_pool_account, try_epoch_withdraw_known_unstaked. shelf. Qed.
Lemma shelf_deposit_done v : on_shelf (on_deposit_and_stake v).
Proof. unfold on_deposit_and_stake. shelf. Qed.
Lemma shelf_unstake_done v : on_shelf (on_unstake v).
Proof. unfold on_unstake. shelf. Qed.
Lemma shelf_withdraw_done v n : on_shelf (on_epoch_withdraw_transfer_done v n).
Proof. unfold on_epoch_withdraw_transfer_done. shelf. Qed.
Lemma shelf_maybe_settle r v k : on_shelf (on_after_pool_withdraw_maybe_settle r v k).
Proof. unfold on_after_pool_withdraw_maybe_settle. shelf. Qed.
Lemma shelf_terminal v : on_shelf (on_epoch_pipeline_terminal_release v).
Proof. unfold on_epoch_pipeline_terminal_release. shelf. Qed.
Lemma shelf_release_lock r v k : on_shelf (on_epoch_pipeline_release_with_lock_id r v k).
Proof. unfold on_epoch_pipeline_release_with_lock_id. shelf. Qed.
Lemma shelf_release_position r v k : on_shelf (on_epoch_pipeline_release_with_farm_position r v k).
Proof. unfold on_epoch_pipeline_release_with_farm_position. shelf. Qed.
Lemma shelf_release_outcome r v k : on_shelf (on_epoch_pipeline_release_with_subscription_update_outcome r v k).
Proof. unfold on_epoch_pipeline_release_with_subscription_update_outcome. shelf. Qed.
Lemma shelf_unlock l a v n : on_shelf (resolve_unlock l a v n).
Proof. unfold resolve_unlock. shelf. Qed.
Lemma shelf_claim a v : on_shelf (on_withdraw_user_transfer_after_settle a v).
Proof.
unfold on_withdraw_user_transfer_after_settle, payout_user_withdraw, claim_from_withdraw_bucket, remove_claimable_tranches. shelf.
Qed.
Lemma shelf_decrease a s t : on_shelf (apply_scheduled_stake_decrease_at_renewal a s t).
Proof. unfold apply_scheduled_stake_decrease_at_renewal. shelf. Qed.
Lemma shelf_sync s : on_shelf (sync_subscription_lock_window s).
Proof. unfold sync_subscription_lock_window. shelf. Qed.
End shelf.
#[export] Hint Resolve shelf_set_validator shelf_set_lock shelf_tranches shelf_stake shelf_unstake shelf_release shelf_refund
  shelf_mark shelf_net_zero shelf_try_epoch shelf_settlement shelf_after_account shelf_deposit_done shelf_unstake_done
  shelf_withdraw_done shelf_maybe_settle shelf_terminal shelf_release_lock shelf_release_position shelf_release_outcome
  shelf_unlock shelf_claim shelf_decrease shelf_sync : keeps.

(** ** Sales: usage counts only *)
Definition keyed (b : gmap PriceId PView * gmap ProductId QView * gmap PriceId FarmPool.t *
                      gmap (AccountId * ProductId) FarmPosition.t) : Prop :=
  (forall id x, b.1.1.1 !! id = Some x -> x.1.1.1 = id) /\ (forall id y, b.1.1.2 !! id = Some y -> y.1.1 = id) /\
  (forall k p, b.2 !! k = Some p -> k = (FarmPosition.account_id p, FarmPosition.product_id p)).

Lemma Cat_keyed c : Cat c -> keyed (shelf c).
Proof. intros HC. split_and!; cbn; [|apply (cat_product _ _ _ _ HC) | apply (cat_key _ _ _ _ HC)]. intros id x Hx. exact (proj1 (cat_price _ _ _ _ HC _ _ Hx)). Qed.

Section sales.
Context (b : gmap PriceId PView * gmap ProductId QView * gmap PriceId FarmPool.t *
 gmap (AccountId * ProductId) FarmPosition.t).
Abbreviation on_shelf m := (keeps (at_shelf b) m).

(** The price and the product are those of the shelf. *)
Definition stocked_price (p : Price.t) : Prop := b.1.1.1 !! Price.price_id p = Some (pview p).
Definition stocked_product (q : Product.t) : Prop := b.1.1.2 !! Product.product_id q = Some (qview q).
Definition stocked (x : Price.t * Product.t) : Prop := stocked_price x.1 /\ stocked_product x.2.

Lemma shelf_restock_price p p' : stocked_price p -> pview p' = pview p -> on_shelf (internal_set_price (Price.price_id p) p').
Proof.
unfold internal_set_price, stocked_price. intros Hp E. apply keeps_modify. intros s Hs. unfold at_shelf in *. rewrite <- Hs in Hp |- *.
unfold shelf, pviews in *. cbn in *. by rewrite fmap_insert, E, insert_id.
Qed.
Lemma shelf_restock_product q q' : stocked_product q -> qview q' = qview q ->
on_shelf (internal_set_product (Product.product_id q) q').
Proof.
unfold internal_set_product, stocked_product. intros Hq E. apply keeps_modify. intros s Hs. unfold at_shelf in *. rewrite <- Hs in Hq |- *.
unfold shelf, qviews in *. cbn in *. by rewrite fmap_insert, E, insert_id.
Qed.

Context (Hb : keyed b).

Lemma price_stocked c id p : at_shelf b c -> prices c !! id = Some p -> stocked_price p /\ Price.price_id p = id.
Proof.
intros Hc Hp. assert (b.1.1.1 !! id = Some (pview p)) as Hv
by (unfold at_shelf in Hc; rewrite <- Hc; cbn; unfold pviews; by rewrite lookup_fmap, Hp).
pose proof (proj1 Hb _ _ Hv) as E. cbn in E. unfold stocked_price. rewrite E. split; [exact Hv | done].
Qed.
Lemma product_stocked c id q : at_shelf b c -> products c !! id = Some q -> stocked_product q /\ Product.product_id q = id.
Proof.
intros Hc Hp. assert (b.1.1.2 !! id = Some (qview q)) as Hv
by (unfold at_shelf in Hc; rewrite <- Hc; cbn; unfold qviews; by rewrite lookup_fmap, Hp).
pose proof (proj1 (proj2 Hb) _ _ Hv) as E. cbn in E. unfold stocked_product. rewrite E. split; [exact Hv | done].
Qed.

Lemma active_stocked id e c x c' es : at_shelf b c -> get_active_price_and_product id e c = Ok (x, c', es) ->
at_shelf b c' /\ (stocked x /\ Price.price_id x.1 = id).
Proof.
unfold get_active_price_and_product, require_price, require_product, find_price, find_product. intros Hc H. m_inv. res_inv.
split; [done|]. cbn.
repeat match goal with H : prices _ !! _ = Some _ |- _ => apply (price_stocked _ _ _ Hc) in H as []
           | H : products _ !! _ = Some _ |- _ => apply (product_stocked _ _ _ Hc) in H as [] end.
done.
Qed.

(** Walk, with the writes of stocked entries. *)
Ltac restock := first
[ apply shelf_restock_price; [solve [eauto] | done]
| apply shelf_restock_product; [solve [eauto] | done] ].
Ltac sale := keeps_walk; try restock; try assumption.

Lemma shelf_commit_lock `{HC : Crypto} `{IS : IdSet} a n d o v f : on_shelf (commit_catalog_lock a n d o v f).
Proof.
unfold commit_catalog_lock. eapply keeps_post; [apply active_stocked|]. intros [p q] [[Hp Hq] _]. cbn in *. sale.
Qed.
#[local] Hint Resolve shelf_commit_lock : keeps.
Lemma shelf_resolve_lock `{HC : Crypto} `{IS : IdSet} a n d o v : on_shelf (resolve_lock a n d o v).
Proof. unfold resolve_lock. sale. Qed.

Lemma shelf_apply_due `{IS : IdSet} id : on_shelf (apply_due_subscription_update id).
Proof.
unfold apply_due_subscription_update. apply keeps_get. intros c0 _. apply keeps_bind; [auto with keeps nocore|intros e0].
destruct (subscriptions c0 !! id) as [stored|]; [|sale]. destruct (_ || _); [sale|].
destruct (Subscription.pending_update stored) as [pending|]; [|sale]. cbv zeta. destruct (_ <? _); [sale|].
eapply keeps_post with (Q := fun t => match t with Some x => stocked x | None => True end).
{ unfold require_price, require_product, find_price, find_product. intros ? ? ? ? ? Hc1 H1. case_match; m_inv; res_inv; [|done].
split; [done|]. split; [by eapply price_stocked | by eapply product_stocked]. }
intros [[p q]|] Ht; [destruct Ht as [Hp Hq]; cbn in *|]; sale.
Qed.
#[local] Hint Resolve shelf_apply_due : keeps.

Lemma shelf_recurring `{HC : Crypto} `{IS : IdSet} a p q : on_shelf (resolve_recurring_subscription a p q).
Proof. unfold resolve_recurring_subscription. sale. Qed.
#[local] Hint Resolve shelf_recurring : keeps.
Lemma shelf_recurring_lock `{HC : Crypto} `{IS : IdSet} a n p v : on_shelf (resolve_recurring_subscription_lock_after_settle a n p v).
Proof. unfold resolve_recurring_subscription_lock_after_settle, commit_recurring_subscription_lock_after_settle. sale. Qed.

Lemma inputs_stocked a p t id expected e c i c' es : at_shelf b c ->
checked_subscription_update_inputs a p t id expected e c = Ok (i, c', es) ->
at_shelf b c' /\ stocked (in_target_price i, in_target_product i).
Proof.
intros Hc H. pose proof H as H'. apply checked_inputs_inv in H' as (-> & _). split; [done|].
unfold checked_subscription_update_inputs in H. m_inv.
match goal with E : get_active_price_and_product _ _ _ = Ok _ |- _ => by apply (active_stocked _ _ _ _ _ _ Hc) in E as (_ & ? & _) end.
Qed.

Lemma update_views p d s x y l s' x' y' l' : apply_subscription_update_state p d s x y l = Ok (s', x', y', l') ->
pview x' = pview x /\ qview y' = qview y.
Proof. unfold apply_subscription_update_state. intros H. destruct (immediate_plan_change d); by res_inv. Qed.

Lemma shelf_subscription_update `{IS : IdSet} a n p t id v : on_shelf (on_subscription_update_after_settle a n p t id v).
Proof.
unfold on_subscription_update_after_settle, commit_subscription_update_after_settle.
apply keeps_bind; [solve [keeps_walk]|intro]. apply keeps_bind; [|intro; solve [keeps_walk]].
apply keeps_bind; [solve [keeps_walk]|intro]. eapply keeps_post; [apply inputs_stocked|]. intros i [Hp Hq]. cbn in *.
apply keeps_bind; [solve [keeps_walk]|intro d]. cbv zeta. apply keeps_get. intros c0 _.
apply keeps_bind; [solve [keeps_walk]|intros [l o]].
eapply keeps_post with (Q := fun y => apply_subscription_update_state p d (in_sub i) (in_target_price i) (in_target_product i) l = Ok y).
{ intros ? ? ? ? ? Hc H. by m_inv. }
intros [[[s x] y] l'] Hu. apply update_views in Hu as [Ex Ey].
assert (Price.price_id x = Price.price_id (in_target_price i)) as Ei by (unfold pview in Ex; congruence).
assert (Product.product_id y = Product.product_id (in_target_product i)) as Ej by (unfold qview in Ey; congruence).
cbv zeta. rewrite Ei, Ej. keeps_walk; [by apply shelf_restock_price | by apply shelf_restock_product].
Qed.

Lemma shelf_pay `{HC : Crypto} p q n : on_shelf (pay p q n).
Proof.
unfold pay, add_revenue_to_validator. do 5 (apply keeps_bind; [solve [keeps_walk]|intro]).
eapply keeps_post; [apply active_stocked|]. intros [p1 q1] [[Hp Hq] _]. cbn in *. sale.
Qed.
End sales.
