(* ===== verification/StakingCat.v ===== *)
(** * The catalog administration and the farms keep the catalog in order *)
From stdpp Require Import base gmap strings list.
From Stdlib Require Import ZArith Lia.
From S2P Require Import Prelude.
From S2P Require Import Near.
From S2P Require Import MerkleTree.
From S2P Require Import StakingTypes.
From S2P Require Import StakingMath.
From S2P Require Import StakingContract.
From S2P Require Import StakingCatalog.
From S2P Require Import StakingEpoch.
From S2P Require Import StakingSubscriptions.
From S2P Require Import StakingLocks.
From S2P Require Import StakingFarm.
From S2P Require Import StakingBooks.
From S2P Require Import StakingStake.
From S2P Require Import StakingInvariant.
From S2P Require Import StakingTails.
From S2P Require Import StakingShelf.

Local Open Scope Z_scope.
Local Open Scope record_scope.

(** ** Writes of the maps *)
Section writes.
Context (pv : gmap PriceId PView) (qv : gmap ProductId QView) (pools : gmap PriceId FarmPool.t)
(ps : gmap (AccountId * ProductId) FarmPosition.t).
Hypothesis HC : CatS pv qv pools ps.

(** A new product. *)
Lemma CatS_new_product id v : qv !! id = None -> CatS pv (<[id := (id, [], v)]> qv) pools ps.
Proof.
intros Hid. destruct HC as [H1 H2 H3 H4 H6 H5]. split; try done.
- intros p x Hx. destruct (H1 p x Hx) as (? & y & Hy & ?). split; [done|]. exists y. rewrite lookup_insert_ne; [done|].
congruence.
- intros k y [[<- <-]|[_ Hy]]%lookup_insert_Some; [done | by apply H2].
- intros k p Hp Ha Hs. destruct (H5 k p Hp Ha Hs) as (pool & y & ? & ? & Hy & ?). exists pool, y. rewrite lookup_insert_ne; [done|].
congruence.
Qed.

(** A product without prices is deleted. *)
Lemma CatS_delete_product id y : qv !! id = Some y -> y.1.2 = [] -> CatS pv (delete id qv) pools ps.
Proof.
intros Hy He. destruct HC as [H1 H2 H3 H4 H6 H5].
assert (forall p x, pv !! p = Some x -> x.1.1.2 <> id) as Hno.
{ intros p x Hx <-. destruct (H1 p x Hx) as (_ & y' & Hy' & Hin). rewrite Hy in Hy'. injection Hy' as <-. rewrite He in Hin. by apply elem_of_nil in Hin. }
split; try done.
- intros p x Hx. destruct (H1 p x Hx) as (? & y' & Hy' & ?). split; [done|]. exists y'. rewrite lookup_delete_ne; [done|].
intros E. by apply (Hno _ _ Hx).
- intros k z [_ Hz]%lookup_delete_Some. by apply H2.
- intros k p Hp Ha Hs. destruct (H5 k p Hp Ha Hs) as (pool & z & Hpool & Hprod & Hz & ?). exists pool, z. rewrite lookup_delete_ne; [done|].
intros Hid. destruct (H4 _ _ Hpool) as (x & Hx & Ex & _). apply (Hno _ _ Hx). by rewrite Ex, Hprod.
Qed.

(** A new price of a product, with its pool when it is a farm price. *)
Lemma CatS_new_price id q y ty (pools' : gmap PriceId FarmPool.t) : pv !! id = None -> qv !! q = Some y ->
(ty = PriceType.Farm -> forall p x, pv !! p = Some x -> ~ farm_price_of q x) ->
(forall p pool, pools' !! p = Some pool -> pools !! p = Some pool \/
p = id /\ FarmPool.product_id pool = q /\ ty = PriceType.Farm /\ FarmPool.total_farm_shares pool = 0) ->
(forall p pool, pools !! p = Some pool -> pools' !! p = Some pool) ->
CatS (<[id := (id, q, ty, CatalogStatus.Active)]> pv) (<[q := (y.1.1, y.1.2 ++ [id], y.2)]> qv) pools' ps.
Proof.
intros Hid Hq Hty Hpools Hpools'. destruct HC as [H1 H2 H3 H4 H6 H5]. split.
- intros p x [[<- <-]|[Hne Hx]]%lookup_insert_Some; cbn.
+ split; [done|]. eexists. rewrite lookup_insert_eq. split; [done|]. cbn. set_solver.
+ destruct (H1 p x Hx) as (? & y' & Hy' & ?). split; [done|]. destruct (decide (q = x.1.1.2)) as [E|E].
* eexists. rewrite <- E, lookup_insert_eq. split; [done|]. cbn. rewrite <- E, Hq in Hy'. injection Hy' as <-. set_solver.
* exists y'. by rewrite lookup_insert_ne.
- intros k z [[<- <-]|[_ Hz]]%lookup_insert_Some; [by apply H2 in Hq | by apply H2].
- intros id1 id2 x1 x2 p [[<- <-]|[_ Hx1]]%lookup_insert_Some [[<- <-]|[_ Hx2]]%lookup_insert_Some F1 F2; [done | | | by eapply H3].
+ destruct F1 as (<- & -> & _). by destruct (Hty eq_refl _ _ Hx2).
+ destruct F2 as (<- & -> & _). by destruct (Hty eq_refl _ _ Hx1).
- intros p pool Hp. destruct (Hpools _ _ Hp) as [Hold|(-> & E1 & -> & E0)].
+ destruct (H4 _ _ Hold) as (x & Hx & ?). exists x. rewrite lookup_insert_ne; [done|]. congruence.
+ eexists. rewrite lookup_insert_eq. split; [done|]. cbn. by rewrite E1.
- exact H6.
- intros k p Hp Ha Hs. destruct (H5 k p Hp Ha Hs) as (pool & z & ? & E & Hz & ?).
destruct (decide (q = FarmPosition.product_id p)) as [Eq|Hne].
+ rewrite <- Eq in *. eexists pool, _. rewrite lookup_insert_eq. rewrite Hq in Hz. injection Hz as <-. by split_and!; [apply Hpools' | | | ].
+ exists pool, z. rewrite lookup_insert_ne by done. by split_and!; [apply Hpools' | | | ].
Qed.

(** A price is archived, or made active. *)
Lemma CatS_set_status id x st : pv !! id = Some x ->
(st = CatalogStatus.Archived -> forall pool, pools !! id = Some pool -> FarmPool.total_farm_shares pool <= 0) ->
(st = CatalogStatus.Active -> x.1.2 = PriceType.Farm ->
forall p z, pv !! p = Some z -> farm_price_of x.1.1.2 z -> p = id) ->
CatS (<[id := (x.1, st)]> pv) qv pools ps.
Proof.
intros Hx Harch Hact. destruct HC as [H1 H2 H3 H4 H6 H5]. split; try done.
- intros p z [[<- <-]|[_ Hz]]%lookup_insert_Some; [by apply (H1 _ _ Hx) | by apply H1].
- intros id1 id2 x1 x2 p [[<- <-]|[_ Hx1]]%lookup_insert_Some [[<- <-]|[_ Hx2]]%lookup_insert_Some F1 F2; [done | | | by eapply H3].
+ destruct x as [[[? ?] ?] ?], F1 as (<- & E & ->). symmetry. by eapply (Hact eq_refl).
+ destruct x as [[[? ?] ?] ?], F2 as (<- & E & ->). by eapply (Hact eq_refl).
- intros p pool Hp. destruct (H4 _ _ Hp) as (z & Hz & E1 & E2 & E3). destruct (decide (id = p)) as [<-|Hne].
+ rewrite Hx in Hz. injection Hz as <-. exists (x.1, st). rewrite lookup_insert_eq. split_and!; [done..|].
intros Hpos. cbn. destruct st; [done|]. specialize (Harch eq_refl _ Hp). lia.
+ exists z. by rewrite lookup_insert_ne.
Qed.

(** A price is deleted, with its empty pool. *)
Lemma CatS_delete_price id x y : pv !! id = Some x -> qv !! x.1.1.2 = Some y ->
(forall pool, pools !! id = Some pool -> FarmPool.total_farm_shares pool <= 0) ->
(forall k p, ps !! k = Some p -> FarmPosition.status p = FarmStatus.Active -> 0 < FarmPosition.shares p ->
FarmPosition.price_id p <> id) ->
CatS (delete id pv) (<[x.1.1.2 := (y.1.1, filter (fun z => z <> id) y.1.2, y.2)]> qv) (delete id pools) ps.
Proof.
intros Hx Hy Hpool Hps. destruct HC as [H1 H2 H3 H4 H6 H5]. split.
- intros p z [Hne Hz]%lookup_delete_Some. destruct (H1 p z Hz) as (? & w & Hw & ?). split; [done|].
destruct (decide (x.1.1.2 = z.1.1.2)) as [E|E].
+ rewrite <- E in *. rewrite Hy in Hw. injection Hw as <-. eexists. rewrite lookup_insert_eq. split; [done|]. cbn.
apply list_elem_of_filter. done.
+ exists w. by rewrite lookup_insert_ne.
- intros k z [[<- <-]|[_ Hz]]%lookup_insert_Some; [by apply H2 in Hy | by apply H2].
- intros id1 id2 x1 x2 p [_ Hx1]%lookup_delete_Some [_ Hx2]%lookup_delete_Some. by eapply H3.
- intros p pool [Hne Hp]%lookup_delete_Some. destruct (H4 _ _ Hp) as (z & ? & ?). exists z. by rewrite lookup_delete_ne.
- exact H6.
- intros k p Hp Ha Hs. pose proof (Hps _ _ Hp Ha Hs). destruct (H5 k p Hp Ha Hs) as (pool & z & ? & E & Hz & ?).
destruct (decide (x.1.1.2 = FarmPosition.product_id p)) as [Eq|Hne].
+ eexists pool, _. rewrite Eq, lookup_insert_eq. rewrite Eq, Hz in Hy. injection Hy as <-. rewrite lookup_delete_ne by done. by split_and!.
+ exists pool, z. rewrite lookup_insert_ne, lookup_delete_ne by done. by split_and!.
Qed.

(** The stake of a farm changes: an active price of a position with shares. *)
Lemma CatS_set_stake k p id pool' :
(exists pool x, pools !! id = Some pool /\ FarmPool.product_id pool' = FarmPool.product_id pool /\ pv !! id = Some x /\
(0 < FarmPool.total_farm_shares pool' -> x.2 = CatalogStatus.Active)) ->
FarmPosition.price_id p = id ->
(FarmPosition.status p = FarmStatus.Active -> 0 < FarmPosition.shares p ->
FarmPool.product_id pool' = FarmPosition.product_id p /\
exists y, qv !! FarmPosition.product_id p = Some y /\ y.2 = FarmPosition.validator_id p) ->
k = (FarmPosition.account_id p, FarmPosition.product_id p) ->
CatS pv qv (<[id := pool']> pools) (<[k := p]> ps).
Proof.
intros (pool & x & Hpool & E & Hx & Hst) Hid Hp Hk. destruct HC as [H1 H2 H3 H4 H6 H5]. split; try done.
- intros q z [[<- <-]|[_ Hz]]%lookup_insert_Some; [|by apply H4].
destruct (H4 _ _ Hpool) as (x' & Hx' & E1 & E2 & _). rewrite Hx in Hx'. injection Hx' as <-. exists x. rewrite E. done.
- intros j q [[<- <-]|[_ Hq]]%lookup_insert_Some; [done | by apply H6].
- intros j q [[<- <-]|[_ Hq]]%lookup_insert_Some Ha Hs.
+ destruct (Hp Ha Hs) as (E1 & y & Hy & Ey). exists pool', y. by rewrite Hid, lookup_insert_eq.
+ destruct (H5 _ _ Hq Ha Hs) as (pool1 & y & Hpool1 & E1 & Hy & Ey). destruct (decide (id = FarmPosition.price_id q)) as [Eq|Hne].
* rewrite <- Eq in *. rewrite Hpool in Hpool1. injection Hpool1 as <-. exists pool', y. rewrite lookup_insert_eq. by rewrite E.
* exists pool1, y. by rewrite lookup_insert_ne.
Qed.
End writes.

(** ** Reads *)
Lemma require_product_inv id e c q c' es : require_product id e c = Ok (q, c', es) -> products c !! id = Some q /\ c' = c /\ es = [].
Proof. unfold require_product, find_product. intros H. m_inv. by res_inv. Qed.
Lemma require_price_inv id e c q c' es : require_price id e c = Ok (q, c', es) -> prices c !! id = Some q /\ c' = c /\ es = [].
Proof. unfold require_price, find_price. intros H. m_inv. by res_inv. Qed.
Lemma require_farm_pool_inv id e c q c' es : require_farm_pool id e c = Ok (q, c', es) -> farm_pools c !! id = Some q /\ c' = c /\ es = [].
Proof. unfold require_farm_pool, find_farm_pool. intros H. m_inv. by res_inv. Qed.
Lemma require_pool_inv r e c q c' es : callback_value r e c = Ok (q, c', es) -> r = Some q /\ c' = c /\ es = [].
Proof. unfold callback_value. intros H. m_inv. by res_inv. Qed.
Lemma admin_inv o v a e c u c' es : assert_validator_catalog_admin o v a e c = Ok (u, c', es) -> c' = c /\ es = [].
Proof. unfold assert_validator_catalog_admin, assert_not_paused. intros H. m_all; by read. Qed.

Ltac read_cat :=
  repeat match goal with
  | H : require_product _ _ _ = Ok _ |- _ => let Hq := fresh "Hq" in apply require_product_inv in H as (Hq & -> & ->)
  | H : require_price _ _ _ = Ok _ |- _ => let Hp := fresh "Hp" in apply require_price_inv in H as (Hp & -> & ->)
  | H : require_farm_pool _ _ _ = Ok _ |- _ => let Hl := fresh "Hl" in apply require_farm_pool_inv in H as (Hl & -> & ->)
  | H : callback_value _ _ _ = Ok _ |- _ => apply require_pool_inv in H as (-> & -> & ->)
  | H : assert_validator_catalog_admin _ _ _ _ _ = Ok _ |- _ => apply admin_inv in H as (-> & ->)
  end.

Lemma pviews_Some c id p : prices c !! id = Some p -> pviews c !! id = Some (pview p).
Proof. unfold pviews. intros H. by rewrite lookup_fmap, H. Qed.
Lemma qviews_Some c id q : products c !! id = Some q -> qviews c !! id = Some (qview q).
Proof. unfold qviews. intros H. by rewrite lookup_fmap, H. Qed.
Lemma lviews_Some c id l : farm_pools c !! id = Some l -> lviews c !! id = Some (lview l).
Proof. unfold lviews. intros H. by rewrite lookup_fmap, H. Qed.
Lemma lviews_inv c id l : lviews c !! id = Some l -> exists l', farm_pools c !! id = Some l' /\ l = lview l'.
Proof. unfold lviews. rewrite lookup_fmap. destruct (farm_pools c !! id); cbn; [|done]. intros [= <-]. eauto. Qed.
Lemma pviews_inv c id x : pviews c !! id = Some x -> exists p, prices c !! id = Some p /\ x = pview p.
Proof. unfold pviews. rewrite lookup_fmap. destruct (prices c !! id); cbn; [|done]. intros [= <-]. eauto. Qed.

(** ** Edits *)
Section edits.
Context (b : gmap PriceId PView * gmap ProductId QView * gmap PriceId FarmPool.t *
 gmap (AccountId * ProductId) FarmPosition.t) (Hb : keyed b).
Abbreviation on_shelf m := (keeps (at_shelf b) m).

Lemma product_post id e c q c' es : at_shelf b c -> require_product id e c = Ok (q, c', es) ->
at_shelf b c' /\ (stocked_product b q /\ Product.product_id q = id).
Proof. intros Hc (Hq & -> & ->)%require_product_inv. split; [done|]. by eapply product_stocked. Qed.
Lemma price_post id e c p c' es : at_shelf b c -> require_price id e c = Ok (p, c', es) ->
at_shelf b c' /\ (stocked_price b p /\ Price.price_id p = id).
Proof. intros Hc (Hp & -> & ->)%require_price_inv. split; [done|]. by eapply price_stocked. Qed.

Ltac entry := do 2 (apply keeps_bind; [solve [keeps_walk]|intro]).
Ltac stock := first [apply shelf_restock_price | apply shelf_restock_product]; done.

Lemma shelf_edit_product r id n d a : on_shelf (edit_product_after_get_owner r id n d a).
Proof. unfold edit_product_after_get_owner. entry. eapply keeps_post; [apply product_post|]. intros q [Hq <-]. keeps_walk. stock. Qed.
Lemma shelf_archive_product r id a : on_shelf (archive_product_after_get_owner r id a).
Proof. unfold archive_product_after_get_owner. entry. eapply keeps_post; [apply product_post|]. intros q [Hq <-]. keeps_walk. stock. Qed.
Lemma shelf_unarchive_product r id a : on_shelf (unarchive_product_after_get_owner r id a).
Proof. unfold unarchive_product_after_get_owner. entry. eapply keeps_post; [apply product_post|]. intros q [Hq <-]. keeps_walk. stock. Qed.
Lemma shelf_default_price r id p a : on_shelf (set_product_default_price_after_get_owner r id p a).
Proof. unfold set_product_default_price_after_get_owner. entry. eapply keeps_post; [apply product_post|]. intros q [Hq <-]. keeps_walk; stock. Qed.

Lemma shelf_clear_default p q : on_shelf (clear_product_default_price_field_if_matches p q).
Proof.
unfold clear_product_default_price_field_if_matches. apply keeps_get. intros c Hc. destruct (products c !! p) as [x|] eqn:Hx; keeps_walk.
eapply product_stocked in Hx as [Hs <-]; [|done..]. stock.
Qed.

Lemma simulate_lview e c l l' : simulate_settled_farm_pool e c l = Ok l' -> lview l' = lview l.
Proof. unfold simulate_settled_farm_pool. intros H. repeat (case_match; res_inv; try done). Qed.

Lemma shelf_restock_pool id l : b.1.2 !! id = Some (lview l) -> on_shelf (internal_set_farm_pool id l).
Proof.
unfold internal_set_farm_pool. intros Hl. apply keeps_modify. intros s Hs. unfold at_shelf in *. rewrite <- Hs in Hl |- *.
unfold shelf, lviews in *. cbn in *. by rewrite fmap_insert, insert_id.
Qed.
Lemma pool_post id e c l c' es : at_shelf b c -> require_farm_pool id e c = Ok (l, c', es) ->
at_shelf b c' /\ b.1.2 !! id = Some (lview l).
Proof. intros Hc (Hl & -> & ->)%require_farm_pool_inv. split; [done|]. unfold at_shelf in Hc. rewrite <- Hc. by apply lviews_Some. Qed.

Lemma shelf_settle_pool id : on_shelf (settle_farm_pool id).
Proof.
unfold settle_farm_pool. eapply keeps_post; [apply pool_post|]. intros l Hl. apply keeps_get. intros c _.
apply keeps_bind; [auto with keeps nocore|intro e]. eapply keeps_post with (Q := fun l' => lview l' = lview l).
{ intros ? ? ? ? ? ? H. m_inv. split; [done|]. by eapply simulate_lview. }
intros l' E. apply shelf_restock_pool. by rewrite E.
Qed.
#[local] Hint Resolve shelf_settle_pool shelf_clear_default : keeps.

Lemma shelf_edit_price r id n d m a : on_shelf (edit_price_after_get_owner r id n d m a).
Proof.
unfold edit_price_after_get_owner. entry. eapply keeps_post; [apply price_post|]. intros p [Hp <-].
do 2 (apply keeps_bind; [solve [keeps_walk]|intro]). cbv zeta.
eapply keeps_post with (Q := fun p' => pview p' = pview p); [|intros p' E; by apply shelf_restock_price].
intros e s p' s' es Hs H. split; [|repeat (case_match; m_inv); done]. revert e s p' s' es Hs H.
match goal with |- forall e s a s' es, _ -> ?x e s = _ -> _ => change (keeps (at_shelf b) x) end.
repeat lazymatch goal with
| |- keeps _ (mbind _ (require_farm_pool _)) => eapply keeps_post; [apply pool_post|]; intros ? ?
| |- _ => keeps_step
end. by apply shelf_restock_pool.
Qed.
End edits.

(** The rest of what the books are about. *)
Definition rest (c : Contract) :=
  (validators c, user_validator_shares c, user_pending_unstake c, locks c, user_lock_count c).

Lemma core_rest c c' : core c' = core c -> rest c' = rest c.
Proof. unfold core, books, ledger, rest. congruence. Qed.
Lemma core_farms c c' : core c' = core c -> farm_pools c' = farm_pools c /\ farm_positions c' = farm_positions c.
Proof. unfold core, books, ledger. split; congruence. Qed.

(** ** New, archived and deleted entries *)
Lemma fresh_id_inv `{HC : Crypto} next taken msg e c id c' es : fresh_id next taken msg e c = Ok (id, c', es) ->
  taken c id = false /\ core c' = core c.
Proof.
  unfold fresh_id. intros H. m_inv. split; [|done].
  match goal with E : next_unique_generated_id _ _ _ ?n = Ok ?x |- _ => revert x E; generalize n end.
  unfold next_unique_generated_id. generalize 64%nat. intros tries. induction tries as [|tries IH]; intros n x E; cbn in E; [done|].
  res_inv. match goal with E : (if ?b then _ else _) = Ok _ |- _ => destruct b eqn:Hb; [by eapply IH in E | by res_inv] end.
Qed.

Lemma no_active_farm_inv q e c u c' es : require_no_active_farm_price_for_product q e c = Ok (u, c', es) ->
  c' = c /\ forall id p, id ∈ Product.price_ids q -> prices c !! id = Some p ->
    Price.price_type p <> PriceType.Farm \/ Price.status p <> CatalogStatus.Active.
Proof.
  unfold require_no_active_farm_price_for_product. intros H. m_inv.
  match goal with H : for_each _ _ _ _ = Ok (_, _, ?l) |- _ => revert l H end.
  induction (Product.price_ids q) as [|id ids IH]; intros l H; cbn in H; m_inv.
  { split; [done|]. intros id p Hid. by apply elem_of_nil in Hid. }
  assert (s = c) as ->.
  { match goal with E : (match prices c !! id with _ => _ end) _ _ = Ok _ |- _ => destruct (prices c !! id); by m_inv end. }
  apply IH in H as [-> H]. split; [done|]. intros j p [->|Hj]%elem_of_cons Hp; [|by eapply H].
  rewrite Hp in E. apply requireM_Ok_inv in E as (B & _ & _). apply orb_prop in B as [B|B]; bool_prop; tauto.
Qed.

Lemma insert_pviews c id p : pview <$> <[id := p]> (prices c) = <[id := pview p]> (pviews c).
Proof. apply fmap_insert. Qed.
Lemma insert_qviews c id q : qview <$> <[id := q]> (products c) = <[id := qview q]> (qviews c).
Proof. apply fmap_insert. Qed.
Lemma insert_lviews c id l : lview <$> <[id := l]> (farm_pools c) = <[id := lview l]> (lviews c).
Proof. apply fmap_insert. Qed.

Section admin.
Context `{HC : Crypto}.

Lemma create_product_Cat r v n d a : keeps Cat (create_product_after_get_owner r v n d a).
Proof.
unfold create_product_after_get_owner, next_unique_product_id, internal_set_product. intros e c id c' es HC0 H. m_inv. read_cat.
match goal with E : fresh_id _ _ _ _ _ = Ok _ |- _ => apply fresh_id_inv in E as [Hid Ec] end.
bool_prop. rewrite <- eq_None_not_Some in Hid. pose proof (core_shelf _ _ Ec) as Es.
unfold Cat, shelf, pviews, qviews, lviews, oviews in *. cbn in *. injection Es as E1 E2 E3 E4. rewrite fmap_insert, E1, E2, E3, E4.
eapply CatS_new_product; [done|]. cbn. by rewrite lookup_fmap, Hid.
Qed.

Lemma delete_product_Cat r id a : keeps Cat (delete_product_after_get_owner r id a).
Proof.
unfold delete_product_after_get_owner, remove_product_id_from_list, assert_no_pending_update_references_product.
intros e c u c' es HC0 H. m_inv. read_cat. bool_prop.
unfold Cat, pviews, qviews, lviews, oviews in *. cbn in *. rewrite fmap_delete.
eapply CatS_delete_product; [done | by rewrite lookup_fmap, Hq | done].
Qed.

Lemma validate_price_inv ty per f x md e c u c' es : validate_price_fields ty per f x md e c = Ok (u, c', es) -> c' = c.
Proof. unfold validate_price_fields. intros H. m_inv. destruct (max_amount_of md); m_inv; destruct ty; by m_inv. Qed.

Lemma create_price_inv r q n d x ty per f md a e c id c' es :
create_price_after_get_owner r q n d x ty per f md a e c = Ok (id, c', es) ->
exists q0 pool, products c !! q = Some q0 /\ prices c !! id = None /\
(ty = PriceType.Farm -> forall j p, j ∈ Product.price_ids q0 -> prices c !! j = Some p ->
Price.price_type p <> PriceType.Farm \/ Price.status p <> CatalogStatus.Active) /\
FarmPool.product_id pool = q /\ FarmPool.total_farm_shares pool = 0 /\
pviews c' = <[id := (id, q, ty, CatalogStatus.Active)]> (pviews c) /\
qviews c' = <[q := (Product.product_id q0, Product.price_ids q0 ++ [id], Product.validator_id q0)]> (qviews c) /\
farm_pools c' = (if bool_decide (ty = PriceType.Farm) then <[id := pool]> (farm_pools c) else farm_pools c) /\
farm_positions c' = farm_positions c /\ rest c' = rest c.
Proof.
unfold create_price_after_get_owner, next_unique_price_id, internal_set_product, internal_set_price, internal_set_farm_pool.
intros H. m_inv. read_cat.
match goal with E : validate_price_fields _ _ _ _ _ _ _ = Ok _ |- _ => apply validate_price_inv in E as -> end.
match goal with E : (if _ then require_no_active_farm_price_for_product ?p else _) _ _ = Ok (_, ?s, _) |- _ =>
assert (s = c /\ (ty = PriceType.Farm -> forall j y, j ∈ Product.price_ids p -> prices c !! j = Some y ->
Price.price_type y <> PriceType.Farm \/ Price.status y <> CatalogStatus.Active)) as [-> Hno]
by (by_cases (ty = PriceType.Farm); [by apply no_active_farm_inv in E as [-> ?] | by m_inv]) end.
match goal with E : fresh_id _ _ _ _ _ = Ok (_, ?s, _) |- _ => apply fresh_id_inv in E as [Hid Ec]; set (s1 := s) in * end.
bool_prop. rewrite <- eq_None_not_Some in Hid.
pose proof (core_shelf _ _ Ec) as [= F1 F2 _ _]. pose proof (core_farms _ _ Ec) as [F3 F4].
pose proof (core_rest _ _ Ec) as F5. exists a2, (FarmPool.mk a7 q (default 0 (farm_reward_rate_of md)) 0 0 (block_timestamp e)).
by_cases (ty = PriceType.Farm); m_inv; res_inv; split_and!; try done; unfold pviews, qviews in *; cbn;
rewrite ?fmap_insert, ?F1, ?F2, ?F3; try done. by rewrite B1.
Qed.

Lemma create_price_Cat r q n d x ty per f md a : keeps Cat (create_price_after_get_owner r q n d x ty per f md a).
Proof.
intros e c id c' es HC0 H.
apply create_price_inv in H as (q0 & pool & Hq & Hid & Hno & Ep & Et & E1 & E2 & E3 & E4 & _).
apply qviews_Some in Hq. unfold Cat. unfold lviews, oviews. rewrite E1, E2, E3, E4.
apply (CatS_new_price _ _ _ _ HC0 id q (qview q0) ty); [unfold pviews; by rewrite lookup_fmap, Hid | exact Hq | | |].
- intros Hty j z Hz Hf. pose proof (cat_price _ _ _ _ HC0 _ _ Hz) as (_ & y & Hy & Hin).
apply pviews_inv in Hz as (p & Hp & ->). destruct Hf as (<- & E5 & E6). cbn in *.
rewrite Hq in Hy. injection Hy as <-. by destruct (Hno Hty _ _ Hin Hp).
- intros j z Hz. by_cases (ty = PriceType.Farm); [|by left]. rewrite insert_lviews in Hz.
apply lookup_insert_Some in Hz as [[<- <-]|[_ Hz]]; [right; by rewrite <- Ep | by left].
- intros j z Hz. by_cases (ty = PriceType.Farm); [|done]. rewrite insert_lviews, lookup_insert_ne; [done|].
intros <-. apply (cat_pool _ _ _ _ HC0) in Hz as (w & Hw & _). apply pviews_inv in Hw as (p & Hp & _). congruence.
Qed.

Lemma clear_default_Cat p q : keeps Cat (clear_product_default_price_field_if_matches p q).
Proof. apply Cat_keeps. intros c HC0. by apply shelf_clear_default, Cat_keyed. Qed.

Lemma archive_price_Cat r id a : keeps Cat (archive_price_after_get_owner r id a).
Proof.
unfold archive_price_after_get_owner, assert_no_pending_update_references_price, internal_set_price. intros e c u c' es HC0 H. m_inv. read_cat.
match goal with E : clear_product_default_price_field_if_matches _ _ _ _ = Ok _ |- _ => eapply clear_default_Cat; [|exact E] end.
match goal with E : (if bool_decide (?t = _) then _ else _) _ _ = Ok (_, ?s, _) |- _ =>
assert (s = c /\ forall l, t = PriceType.Farm -> farm_pools c !! id = Some l -> FarmPool.total_farm_shares l = 0) as [-> Hl] end.
{ by_cases (Price.price_type a2 = PriceType.Farm); m_inv; read_cat; bool_prop; [|done]. split; [done|]. intros l _ Hl'. congruence. }
unfold Cat. cbn. unfold pviews. cbn. rewrite fmap_insert.
apply (CatS_set_status _ _ _ _ HC0 id (pview a2) CatalogStatus.Archived); [by apply pviews_Some | | done].
intros _ l Hl'. pose proof (cat_pool _ _ _ _ HC0 _ _ Hl') as (x & Hx & _ & Hf & _). apply lviews_inv in Hl' as (l' & Hl' & ->).
rewrite (pviews_Some _ _ _ Hp) in Hx. injection Hx as <-. cbn. by rewrite (Hl _ Hf Hl').
Qed.

Lemma unarchive_price_Cat r id a : keeps Cat (unarchive_price_after_get_owner r id a).
Proof.
unfold unarchive_price_after_get_owner, internal_set_price. intros e c u c' es HC0 H. m_inv. read_cat.
match goal with E : (if bool_decide (?t = _) then require_no_active_farm_price_for_product ?q else _) _ _ = Ok (_, ?s, _) |- _ =>
assert (s = c /\ (t = PriceType.Farm -> forall j p, j ∈ Product.price_ids q -> prices c !! j = Some p ->
Price.price_type p <> PriceType.Farm \/ Price.status p <> CatalogStatus.Active)) as [-> Hno] end.
{ by_cases (Price.price_type a2 = PriceType.Farm); [|by m_inv].
match goal with E : require_no_active_farm_price_for_product _ _ _ = Ok _ |- _ => by apply no_active_farm_inv in E as [-> ?] end. }
unfold Cat. cbn. unfold pviews. cbn. rewrite fmap_insert.
apply (CatS_set_status _ _ _ _ HC0 id (pview a2) CatalogStatus.Active); [by apply pviews_Some | done |].
intros _ Hf j z Hz Hz'. pose proof (cat_price _ _ _ _ HC0 _ _ Hz) as (_ & y & Hy & Hin).
apply pviews_inv in Hz as (p & Hpj & ->). destruct Hz' as (E1 & E2 & E3). cbn in *. rewrite E1, (qviews_Some _ _ _ Hq) in Hy.
injection Hy as <-. by destruct (Hno Hf _ _ Hin Hpj).
Qed.
End admin.

(** ** The books and the catalog together *)
Definition Good (c : Contract) : Prop := Bk none2 none1 c /\ Cat c.

Lemma position_le_price d fd c k p : InvD d fd c -> farm_positions c !! k = Some p -> FarmPosition.status p = FarmStatus.Active ->
  FarmPosition.shares p <= price_shares (farm_positions c) (FarmPosition.price_id p).
Proof.
  intros HI Hk Hs. transitivity (position_of_price (FarmPosition.price_id p) p).
  { unfold position_of_price. by rewrite bool_decide_eq_true_2. }
  apply (map_sum_term_le (fun _ => position_of_price (FarmPosition.price_id p)) (farm_positions c) k p); [|done].
  intros j y Hy. unfold position_of_price. case_bool_decide; [exact (proj2 (inv_position _ _ _ HI _ _ Hy)) | done].
Qed.

(** Pools come and go empty. *)
Lemma Bk_new_pool c id l : Bk none2 none1 c -> farm_pools c !! id = None -> FarmPool.total_farm_shares l = 0 ->
  Bk none2 none1 (c <| farm_pools := <[id := l]> (farm_pools c) |>).
Proof.
  intros [HI Hc] Hid Hl. split; [|done]. eapply InvD_set_pool; [exact HI | | done].
  pose proof (inv_farm _ _ _ HI id) as H. rewrite Hid in H. lia.
Qed.
Lemma Bk_delete_pool c id l : Bk none2 none1 c -> farm_pools c !! id = Some l -> FarmPool.total_farm_shares l = 0 ->
  Bk none2 none1 (c <| farm_pools := delete id (farm_pools c) |>).
Proof.
  intros [HI Hc] Hid Hl. split; [|done]. destruct HI as [H1 H2 H3 H4 H5 H6 H7 H8 H9]. split; cbn; try done.
  intros pr. destruct (decide (id = pr)) as [<-|Hne]; [rewrite lookup_delete_eq | rewrite lookup_delete_ne by done; apply H4].
  specialize (H4 id). rewrite Hid in H4. lia.
Qed.

Lemma delete_price_Good r id a : keeps Good (delete_price_after_get_owner r id a).
Proof.
  unfold delete_price_after_get_owner, assert_no_pending_update_references_price, internal_set_product. intros e c u c' es [HB HC0] H.
  m_inv. read_cat.
  match goal with E : (if bool_decide (_ = PriceType.Farm) then _ else _) _ _ = Ok (_, ?s, _) |- _ =>
    assert (Bk none2 none1 s /\ prices s = prices c /\ products s = products c /\ farm_positions s = farm_positions c /\
      farm_pools s = delete id (farm_pools c) /\ (forall l, farm_pools c !! id = Some l -> FarmPool.total_farm_shares l = 0))
      as (HB1 & E1 & E2 & E3 & E4 & Hl) end.
  { assert (forall l, farm_pools c !! id = Some l -> Price.price_type a2 = PriceType.Farm) as Hty.
    { intros l Hl. apply lviews_Some, (cat_pool _ _ _ _ HC0) in Hl as (x & Hx & _ & Hf & _).
      rewrite (pviews_Some _ _ _ Hp) in Hx. by injection Hx as <-. }
    destruct (farm_pools c !! id) as [l|] eqn:Hl.
    - rewrite bool_decide_eq_true_2 in * by (by eapply Hty). m_inv. bool_prop. split_and!; try done; [by eapply Bk_delete_pool|].
      by intros ? [= <-].
    - match goal with E : _ _ _ = Ok (_, s6, _) |- _ => case_bool_decide; m_inv end; by rewrite delete_id. }
  match goal with H : clear_product_default_price_field_if_matches _ _ _ ?s = Ok _ |- _ => assert (Good s) as [HB2 HC2] end.
  { split; [eapply Bk_books; [|exact HB1]; done|]. unfold Cat, pviews, qviews, lviews, oviews. cbn.
    rewrite E1, E2, E3, E4, fmap_insert, !fmap_delete.
    apply (CatS_delete_price _ _ _ _ HC0 id (pview a2) (qview a3)); [by apply pviews_Some | by apply qviews_Some | |].
    - intros l (l' & Hl' & ->)%lviews_inv. cbn. by rewrite (Hl _ Hl').
    - intros k p Hk Ha Hs <-. unfold oviews in Hk. rewrite lookup_fmap in Hk. destruct (farm_positions c !! k) as [p'|] eqn:Hk'; [|done].
      injection Hk as <-. cbn in *. pose proof (position_le_price _ _ _ _ _ (proj1 HB) Hk' Ha).
      pose proof (inv_farm _ _ _ (proj1 HB) (FarmPosition.price_id p')) as Hi.
      destruct (farm_pools c !! FarmPosition.price_id p') as [l|] eqn:El; [specialize (Hl _ eq_refl)|]; unfold none1 in Hi; lia. }
  split; [eapply keeps_same; [intros; apply same_clear_default | exact HB2 | eassumption] | by eapply clear_default_Cat].
Qed.

(** ** Rewards are not in the books *)

Lemma price_shares_views c pr : price_shares (oviews c) pr = price_shares (farm_positions c) pr.
Proof. unfold price_shares, oviews. by rewrite map_sum_fmap. Qed.
Lemma farm_shares_views c a v : farm_shares (oviews c) a v = farm_shares (farm_positions c) a v.
Proof. unfold farm_shares, oviews. by rewrite map_sum_fmap. Qed.

Lemma Bk_views d fd c c' : rest c' = rest c -> lviews c' = lviews c -> oviews c' = oviews c -> Bk d fd c -> Bk d fd c'.
Proof.
  unfold rest. intros [= E1 E2 E3 E4 E5] El Eo [HI Hc]. split; [|unfold census in *; congruence].
  destruct HI as [H1 H2 H3 H4 H5 H6 H7 H8 H9]. split; try (by rewrite ?E1, ?E2, ?E3, ?E4).
  - intros a v. rewrite E2, E4, <- farm_shares_views, Eo, farm_shares_views. apply H3.
  - intros pr. rewrite <- price_shares_views, Eo, price_shares_views. specialize (H4 pr).
    assert (lview <$> farm_pools c' !! pr = lview <$> farm_pools c !! pr) as E by (rewrite <- !lookup_fmap; by apply (f_equal (lookup pr)) in El).
    destruct (farm_pools c' !! pr), (farm_pools c !! pr); cbn in E; try done. assert (lview t = lview t0) as El' by congruence.
    apply (f_equal FarmPool.total_farm_shares) in El'. cbn in El'. congruence.
  - intros k p Hk. assert (oviews c !! k = Some (oview p)) as Hk' by (rewrite <- Eo; unfold oviews; by rewrite lookup_fmap, Hk).
    unfold oviews in Hk'. rewrite lookup_fmap in Hk'. destruct (farm_positions c !! k) as [p'|] eqn:E; [|done]. cbn in Hk'.
    assert (oview p' = oview p) as Ep by congruence.
    pose proof (f_equal FarmPosition.account_id Ep) as F1. pose proof (f_equal FarmPosition.product_id Ep) as F2.
    pose proof (f_equal FarmPosition.shares Ep) as F3. cbn in *. rewrite <- F1, <- F2, <- F3. by apply H8.
Qed.

Definition at_rest b (c : Contract) : Prop := rest c = b.
Lemma rest_core {A} (m : MS A) b : same_core m -> keeps (at_rest b) m.
Proof. intros Hm e c a c' es Hb H. unfold at_rest in *. rewrite <- Hb. apply core_rest. by eapply same_core_inv. Qed.
#[export] Hint Resolve rest_core : keeps.

Ltac at_rest := keeps_walk; try assumption.
Lemma rest_set_pool b id l : keeps (at_rest b) (internal_set_farm_pool id l).
Proof. unfold internal_set_farm_pool. at_rest. Qed.
Lemma rest_set_position b p : keeps (at_rest b) (internal_set_farm_position p).
Proof. unfold internal_set_farm_position. at_rest. Qed.
Lemma rest_set_price b id p : keeps (at_rest b) (internal_set_price id p).
Proof. unfold internal_set_price. at_rest. Qed.
Lemma rest_set_product b id p : keeps (at_rest b) (internal_set_product id p).
Proof. unfold internal_set_product. at_rest. Qed.
#[export] Hint Resolve rest_set_pool rest_set_position rest_set_price rest_set_product : keeps.
Lemma rest_settle_pool b id : keeps (at_rest b) (settle_farm_pool id).
Proof. unfold settle_farm_pool. at_rest. Qed.
#[export] Hint Resolve rest_settle_pool : keeps.
Lemma rest_edit_price b r id n d m a : keeps (at_rest b) (edit_price_after_get_owner r id n d m a).
Proof. unfold edit_price_after_get_owner. at_rest. Qed.

(** What keeps the shelf and the rest keeps everything. *)
Lemma Good_views {A} (m : MS A) : (forall b, keyed b -> keeps (at_shelf b) m) -> (forall b, keeps (at_rest b) m) -> keeps Good m.
Proof.
  intros Hs Hr e c a c' es [HB HC] H. pose proof (Hs _ (Cat_keyed _ HC) e c a c' es eq_refl H) as Es.
  pose proof (Hr _ e c a c' es eq_refl H) as Er. unfold at_shelf, at_rest in *. split; [|by eapply Cat_shelf].
  unfold shelf in Es. eapply Bk_views; [exact Er | congruence | congruence | done].
Qed.

Lemma edit_price_Good r id n d m a : keeps Good (edit_price_after_get_owner r id n d m a).
Proof. apply Good_views; [intros b Hb; by apply shelf_edit_price | intros; apply rest_edit_price]. Qed.

Lemma create_price_Good `{HC : Crypto} r q n d x ty per f md a : keeps Good (create_price_after_get_owner r q n d x ty per f md a).
Proof.
  intros e c id c' es [HB HC0] H. split; [|by eapply create_price_Cat].
  apply create_price_inv in H as (q0 & pool & Hq & Hid & Hno & Ep & Et & E1 & E2 & E3 & E4 & E5).
  by_cases (ty = PriceType.Farm).
  - eapply Bk_views with (c := c <| farm_pools := <[id := pool]> (farm_pools c) |>); [done | unfold lviews; by rewrite E3 | unfold oviews; by rewrite E4 |].
    apply Bk_new_pool; [done | | done]. destruct (farm_pools c !! id) as [l|] eqn:El; [|done].
    apply lviews_Some, (cat_pool _ _ _ _ HC0) in El as (z & Hz & _). apply pviews_inv in Hz as (p & Hp & _). congruence.
  - eapply Bk_views; [done | unfold lviews; by rewrite E3 | unfold oviews; by rewrite E4 | done].
Qed.
