(* ===== verification/StakingFarms.v ===== *)
(** * Farm stakes and exits keep the books and the catalog *)
From stdpp Require Import base gmap strings list.
From Stdlib Require Import ZArith Lia.
From S2P Require Import Prelude.
From S2P Require Import Near.
From S2P Require Import StakingTypes.
From S2P Require Import StakingMath.
From S2P Require Import StakingContract.
From S2P Require Import StakingCatalog.
From S2P Require Import StakingFarm.
From S2P Require Import StakingBooks.
From S2P Require Import StakingStake.
From S2P Require Import StakingInvariant.
From S2P Require Import StakingTails.
From S2P Require Import StakingShelf.
From S2P Require Import StakingCat.

Local Open Scope Z_scope.
Local Open Scope record_scope.

Lemma active_position_inv a q e c p c' es : require_active_farm_position a q e c = Ok (p, c', es) ->
  farm_positions c !! (a, q) = Some p /\ FarmPosition.status p = FarmStatus.Active /\ 0 < FarmPosition.shares p /\ c' = c /\ es = [].
Proof. unfold require_active_farm_position. intros H. m_inv. res_inv. by bool_prop. Qed.

Lemma oviews_Some c k p : farm_positions c !! k = Some p -> oviews c !! k = Some (oview p).
Proof. unfold oviews. intros H. by rewrite lookup_fmap, H. Qed.
Lemma oviews_inv c k p : oviews c !! k = Some p -> exists p', farm_positions c !! k = Some p' /\ p = oview p'.
Proof. unfold oviews. rewrite lookup_fmap. destruct (farm_positions c !! k); cbn; [|done]. intros [= <-]. eauto. Qed.

Section settle.
Context (b : gmap PriceId PView * gmap ProductId QView * gmap PriceId FarmPool.t *
 gmap (AccountId * ProductId) FarmPosition.t) (Hb : keyed b).

Lemma shelf_settle_position a q : keeps (at_shelf b) (settle_farm_position a q).
Proof.
unfold settle_farm_position. eapply keeps_post with (Q := fun p =>
b.2 !! (FarmPosition.account_id p, FarmPosition.product_id p) = Some (oview p)).
{ intros e c p c' es Hc (Hp & _ & _ & -> & _)%active_position_inv. split; [done|]. apply oviews_Some in Hp.
unfold at_shelf in Hc. assert (b.2 !! (a, q) = Some (oview p)) as Hv by (rewrite <- Hc; exact Hp).
pose proof (proj2 (proj2 Hb) _ _ Hv) as E. cbn in E. by rewrite <- E. }
intros p Hp. apply keeps_bind; [apply shelf_settle_pool|intro]. keeps_walk.
unfold internal_set_farm_position. apply keeps_modify. intros s Hs. unfold at_shelf in *. rewrite <- Hs in Hp |- *.
unfold shelf, oviews in *. cbn in *. by rewrite fmap_insert, insert_id.
Qed.
End settle.

Lemma rest_settle_position b a q : keeps (at_rest b) (settle_farm_position a q).
Proof. unfold settle_farm_position. keeps_walk. Qed.

Lemma settle_position_Good a q : keeps Good (settle_farm_position a q).
Proof. apply Good_views; [intros b Hb; by apply shelf_settle_position | intros; apply rest_settle_position]. Qed.
Lemma settle_pool_Good id : keeps Good (settle_farm_pool id).
Proof. apply Good_views; [intros b Hb; apply shelf_settle_pool | intros; apply rest_settle_pool]. Qed.

(** ** The effect of a position on the sums *)
Lemma position_in_only a v x : FarmPosition.status x = FarmStatus.Active ->
  position_in a v x = only (FarmPosition.account_id x) (FarmPosition.validator_id x) (FarmPosition.shares x) a v.
Proof.
  intros Hs. unfold position_in, only. by_cases (a = FarmPosition.account_id x /\ v = FarmPosition.validator_id x).
  - destruct D as [-> ->]. by rewrite bool_decide_eq_true_2.
  - rewrite bool_decide_eq_false_2; [done|]. intros (? & ? & _). by apply D.
Qed.
Definition only1 (pr : PriceId) (n : Z) : PriceId -> Z := fun pr' => if bool_decide (pr' = pr) then n else 0.
Lemma position_price_only pr x : FarmPosition.status x = FarmStatus.Active ->
  position_of_price pr x = only1 (FarmPosition.price_id x) (FarmPosition.shares x) pr.
Proof.
  intros Hs. unfold position_of_price, only1. by_cases (pr = FarmPosition.price_id x).
  - subst. by rewrite bool_decide_eq_true_2.
  - rewrite bool_decide_eq_false_2; [done|]. intros (? & _). by apply D.
Qed.
Lemma position_in_closed a v x : FarmPosition.status x <> FarmStatus.Active -> position_in a v x = 0.
Proof. intros Hs. unfold position_in. rewrite bool_decide_eq_false_2; [done|]. by intros (_ & _ & ?). Qed.
Lemma position_price_closed pr x : FarmPosition.status x <> FarmStatus.Active -> position_of_price pr x = 0.
Proof. intros Hs. unfold position_of_price. rewrite bool_decide_eq_false_2; [done|]. by intros (_ & ?). Qed.

(** [p1] takes the place of what is stored, with [n] shares more (or less),
    and the pool follows. *)
Lemma set_stake_Bk n c pr l l' p0 p1 :
  let a := FarmPosition.account_id p0 in let q := FarmPosition.product_id p0 in let v := FarmPosition.validator_id p0 in
  Bk (fun a' v' => none2 a' v' + only a v n a' v') none1 c -> farm_pools c !! pr = Some l ->
  FarmPool.total_farm_shares l' = FarmPool.total_farm_shares l + n ->
  FarmPosition.status p0 = FarmStatus.Active -> FarmPosition.price_id p0 = pr ->
  (forall a' v', position_in a' v' p0 = match farm_positions c !! (a, q) with Some y => position_in a' v' y | None => 0 end) ->
  (forall pr', position_of_price pr' p0 = match farm_positions c !! (a, q) with Some y => position_of_price pr' y | None => 0 end) ->
  FarmPosition.account_id p1 = a -> FarmPosition.product_id p1 = q -> FarmPosition.validator_id p1 = v ->
  FarmPosition.price_id p1 = pr -> 0 <= FarmPosition.shares p1 -> FarmPosition.shares p1 = FarmPosition.shares p0 + n ->
  (FarmPosition.status p1 = FarmStatus.Active \/ FarmPosition.shares p1 = 0) ->
  Bk none2 none1 (c <| farm_pools := <[pr := l']> (farm_pools c) |> <| farm_positions := <[(a, q) := p1]> (farm_positions c) |>).
Proof.
  intros a q v [HI Hc] Hl Hn Hs0 Hpr Hin Hof Ea Eq Ev Epr Hpos Hsh Hst. split; [|done].
  assert (forall a' v', position_in a' v' p1 = position_in a' v' p0 + only a v n a' v') as H1.
  { intros a' v'. rewrite (position_in_only _ _ p0 Hs0). fold a v. destruct Hst as [Hst|Hst].
    - rewrite position_in_only, Ea, Ev, Hsh by done. unfold only. case_bool_decide; lia.
    - assert (position_in a' v' p1 = 0) as -> by (unfold position_in; case_bool_decide; lia). unfold only. case_bool_decide; lia. }
  assert (forall pr', position_of_price pr' p1 = position_of_price pr' p0 + only1 pr n pr') as H2.
  { intros pr'. rewrite (position_price_only _ p0 Hs0), Hpr. destruct Hst as [Hst|Hst].
    - rewrite position_price_only, Epr, Hsh by done. unfold only1. case_bool_decide; lia.
    - assert (position_of_price pr' p1 = 0) as -> by (unfold position_of_price; case_bool_decide; lia). unfold only1. case_bool_decide; lia. }
  set (c1 := c <| farm_pools := <[pr := l']> (farm_pools c) |>).
  eapply (InvD_ledger _ _ (c1 <| farm_positions := <[(a, q) := p1]> (farm_positions c1) |>)); [done|].
  apply (InvD_set_position (fun a' v' => none2 a' v' + only a v n a' v') (only1 pr n) none2 none1
    c1 (a, q) p1); [| by rewrite Ea, Eq | done | |].
  - eapply InvD_set_pool; [exact HI | |].
    + pose proof (inv_farm _ _ _ HI pr) as Hi. rewrite Hl in Hi. unfold none1, only1 in *. rewrite bool_decide_eq_true_2 by done. lia.
    + intros pr' Hne. unfold only1. by rewrite bool_decide_eq_false_2.
  - intros a' v'. cbn. rewrite H1, Hin. unfold none2. lia.
  - intros pr'. cbn. rewrite H2, Hof. unfold none1. lia.
Qed.

(** ** Staking *)
Lemma farm_price_inv p q e c u c' es : require_farm_price_for_product p q e c = Ok (u, c', es) ->
  c' = c /\ Price.price_type p = PriceType.Farm /\ Price.product_id p = q.
Proof. unfold require_farm_price_for_product. intros H. m_inv. bool_prop. by str_prop. Qed.

Lemma active_inv id e c x c' es : get_active_price_and_product id e c = Ok (x, c', es) ->
  c' = c /\ prices c !! id = Some x.1 /\ Price.status x.1 = CatalogStatus.Active /\ products c !! Price.product_id x.1 = Some x.2.
Proof.
  unfold get_active_price_and_product, require_price, require_product, find_price, find_product. intros H. m_inv. res_inv.
  by bool_prop.
Qed.

(** An active position is on the active farm price of its product. *)
Lemma position_price c a q p id pr : Good c -> farm_positions c !! (a, q) = Some p -> FarmPosition.status p = FarmStatus.Active ->
  0 < FarmPosition.shares p -> prices c !! id = Some pr -> Price.status pr = CatalogStatus.Active ->
  Price.price_type pr = PriceType.Farm -> Price.product_id pr = q ->
  FarmPosition.price_id p = id /\ exists x, products c !! q = Some x /\ Product.validator_id x = FarmPosition.validator_id p.
Proof.
  intros [HB HC] Hp Ha Hs Hpr Hst Hty Hq. pose proof (oviews_Some _ _ _ Hp) as Hv.
  pose proof (cat_key _ _ _ _ HC _ _ Hv) as [= _ Eq]. cbn in Eq.
  destruct (cat_position _ _ _ _ HC _ _ Hv Ha Hs) as (l & y & Hl & El & Hy & Ey). cbn in *.
  destruct (cat_pool _ _ _ _ HC _ _ Hl) as (x & Hx & Ex & Et & Eact). apply lviews_inv in Hl as (l' & Hl & ->). cbn in *.
  pose proof (position_le_price _ _ _ _ _ (proj1 HB) Hp Ha) as Hle. pose proof (inv_farm _ _ _ (proj1 HB) (FarmPosition.price_id p)) as Hi.
  rewrite Hl in Hi. unfold none1 in Hi. split.
  - eapply (cat_unique _ _ _ _ HC _ _ _ _ q Hx (pviews_Some _ _ _ Hpr)); [|done].
    destruct x as [[[x1 x2] x3] x4]. cbn in *. split_and!; [congruence | done | apply Eact; lia].
  - unfold qviews in Hy. rewrite lookup_fmap, <- Eq in Hy. destruct (products c !! q) as [x'|]; [|done]. cbn in Hy. exists x'. split; [done|].
    injection Hy as <-. done.
Qed.

Lemma Good_core c c' : core c' = core c -> Good c -> Good c'.
Proof. intros E [HB HC]. split; [eapply Bk_books; [by apply core_books|done] | eapply Cat_shelf; [by apply core_shelf|done]]. Qed.

(** Before the new shares: rewards are settled, nothing else moved. *)
Lemma stake_prefix a q id old e c u c' es : Good c -> old = farm_positions c !! (a, q) ->
  match old with
  | Some p => if bool_decide (FarmPosition.status p = FarmStatus.Active) then settle_farm_position a q ;; mret tt else settle_farm_pool id
  | None => settle_farm_pool id
  end e c = Ok (u, c', es) ->
  Good c' /\ shelf c' = shelf c /\ prices c' = prices c /\ products c' = products c /\
  (forall p, farm_positions c' !! (a, q) = Some p -> FarmPosition.status p = FarmStatus.Active -> 0 < FarmPosition.shares p).
Proof.
  intros HG -> H.
  assert (Good c' /\ shelf c' = shelf c) as [HG' Es].
  { pose proof (Cat_keyed _ (proj2 HG)) as Hk.
    destruct (farm_positions c !! (a, q)) as [p|]; [case_bool_decide|]; m_inv; split;
      try (by eapply settle_position_Good); try (by eapply settle_pool_Good);
      first [by eapply (shelf_settle_position _ Hk) | by eapply (shelf_settle_pool (shelf c))]. }
  assert (prices c' = prices c /\ products c' = products c) as [E1 E2].
  { unfold settle_farm_position, settle_farm_pool, internal_set_farm_pool, internal_set_farm_position in H.
    destruct (farm_positions c !! (a, q)) as [p|]; [case_bool_decide|]; m_inv; read_cat;
      repeat match goal with H : require_active_farm_position _ _ _ _ = Ok _ |- _ => apply active_position_inv in H as (? & ? & ? & -> & ->) end;
      done. }
  split_and!; try done. intros p Hp Ha. apply oviews_Some in Hp. assert (oviews c !! (a, q) = Some (oview p)) as Hp' by (unfold shelf in Es; congruence).
  apply oviews_inv in Hp' as (p' & Hp' & Ep). pose proof (f_equal FarmPosition.status Ep) as Es'. pose proof (f_equal FarmPosition.shares Ep) as Eh.
  cbn in *. rewrite Hp' in H. rewrite bool_decide_eq_true_2 in H by congruence. unfold settle_farm_position in H. m_inv.
  match goal with H : require_active_farm_position _ _ _ _ = Ok _ |- _ => apply active_position_inv in H as (? & ? & ? & _ & _) end.
  rewrite Hp' in *. simplify_eq. congruence.
Qed.

(** The position new shares are added to. *)
Definition farm_base (a : AccountId) (q : ProductId) (id : PriceId) (v : ValidatorId) (now : Z) (old : option FarmPosition.t) : FarmPosition.t :=
  let p := default (FarmPosition.mk a q id v 0 0 0 FarmStatus.Active now now) old in
  if bool_decide (FarmPosition.status p = FarmStatus.Closed) then
    p <| FarmPosition.price_id := id |> <| FarmPosition.validator_id := v |>
      <| FarmPosition.shares := 0 |> <| FarmPosition.reward_debt := 0 |>
      <| FarmPosition.accrued_reward_units := 0 |> <| FarmPosition.status := FarmStatus.Active |>
      <| FarmPosition.created_ns := now |>
  else p.

Lemma farm_base_spec c a q id v now pr x : Good c -> let old := farm_positions c !! (a, q) in let p0 := farm_base a q id v now old in
  (forall p, old = Some p -> FarmPosition.status p = FarmStatus.Active -> 0 < FarmPosition.shares p) ->
  prices c !! id = Some pr -> Price.status pr = CatalogStatus.Active -> Price.price_type pr = PriceType.Farm -> Price.product_id pr = q ->
  products c !! q = Some x -> Product.validator_id x = v ->
  FarmPosition.account_id p0 = a /\ FarmPosition.product_id p0 = q /\ FarmPosition.validator_id p0 = v /\ FarmPosition.price_id p0 = id /\
  FarmPosition.status p0 = FarmStatus.Active /\ 0 <= FarmPosition.shares p0 <= price_shares (farm_positions c) id /\
  (forall a' v', position_in a' v' p0 = match old with Some y => position_in a' v' y | None => 0 end) /\
  (forall pr', position_of_price pr' p0 = match old with Some y => position_of_price pr' y | None => 0 end).
Proof.
  intros HG old p0 Hact Hpr Hst Hty Hprod Hx Hv. pose proof (proj1 (proj1 HG)) as HI.
  assert (0 <= price_shares (farm_positions c) id) as Hnn.
  { apply map_sum_nonneg. intros k y Hy. unfold position_of_price. case_bool_decide; [exact (proj2 (inv_position _ _ _ HI _ _ Hy)) | done]. }
  unfold p0, farm_base, old in *. destruct (farm_positions c !! (a, q)) as [p|] eqn:Hp; cbn.
  - pose proof (inv_position _ _ _ HI _ _ Hp) as [[= Ea Eq] Hs]. destruct (FarmPosition.status p) eqn:Hstat; cbn.
    + destruct (position_price c a q p id pr HG Hp Hstat (Hact _ eq_refl Hstat) Hpr Hst Hty Hprod) as (E1 & x' & Hx' & E2).
      pose proof (position_le_price _ _ _ _ _ HI Hp Hstat) as Hle. rewrite E1 in Hle. assert (x' = x) as -> by congruence.
      rewrite bool_decide_eq_false_2 by done. split_and!; try done; congruence.
    + rewrite bool_decide_eq_true_2 by done. split_and!; try done; try lia; [intros a' v' | intros pr'].
      * rewrite (position_in_closed _ _ p) by congruence. unfold position_in. cbn. by case_bool_decide.
      * rewrite (position_price_closed _ p) by congruence. unfold position_of_price. cbn. by case_bool_decide.
  - split_and!; try done; try lia; [intros a' v' | intros pr'].
    + unfold position_in. cbn. by case_bool_decide.
    + unfold position_of_price. cbn. by case_bool_decide.
Qed.

Lemma insert_same {A B} `{Countable K} (f : A -> B) (m : gmap K A) k x x' : m !! k = Some x -> f x' = f x ->
  f <$> <[k := x']> m = f <$> m.
Proof. intros Hk E. rewrite fmap_insert, E. apply insert_id. by rewrite lookup_fmap, Hk. Qed.

Lemma stake_frame buyer id n e c m c' es : internal_stake buyer id n e c = Ok (m, c', es) ->
  shelf c' = shelf c /\ farm_pools c' = farm_pools c /\ farm_positions c' = farm_positions c /\ prices c' = prices c /\ products c' = products c.
Proof. intros H. apply internal_stake_inv in H as (? & _ & _ & _ & _ & _ & ->). done. Qed.

(** New shares go to the position and its pool. *)
Lemma stake_suffix c s c' a q id v n m now debt l pr x e es : Good c -> 0 <= n ->
  (forall p, farm_positions c !! (a, q) = Some p -> FarmPosition.status p = FarmStatus.Active -> 0 < FarmPosition.shares p) ->
  prices c !! id = Some pr -> Price.status pr = CatalogStatus.Active -> Price.price_type pr = PriceType.Farm -> Price.product_id pr = q ->
  products c !! q = Some x -> Product.validator_id x = v ->
  internal_stake a v n e c = Ok (m, s, es) -> farm_pools s !! id = Some l ->
  let p0 := farm_base a q id v now (farm_positions s !! (a, q)) in
  let p1 := p0 <| FarmPosition.shares := u128_saturating_add (FarmPosition.shares p0) m |> <| FarmPosition.reward_debt := debt |>
               <| FarmPosition.updated_ns := now |> in
  let l' := l <| FarmPool.total_farm_shares := u128_saturating_add (FarmPool.total_farm_shares l) m |> in
  rest c' = rest s -> pviews c' = pviews s -> qviews c' = qviews s -> farm_pools c' = <[id := l']> (farm_pools s) ->
  farm_positions c' = <[(FarmPosition.account_id p1, FarmPosition.product_id p1) := p1]> (farm_positions s) -> fits c' -> Good c'.
Proof.
  intros HG Hn Hact Hpr Hst Hty Hprod Hx Hv Hstake Hl p0 p1 l' E1 E2 E3 E4 E5 Hf. destruct (stake_frame _ _ _ _ _ _ _ _ Hstake) as (Es & El & Eo & _ & _).
  pose proof (farm_base_spec c a q id v now pr x HG Hact Hpr Hst Hty Hprod Hx Hv) as (B1 & B2 & B3 & B4 & B5 & B6 & B7 & B8).
  rewrite <- Eo in B1, B2, B3, B4, B5, B6, B7, B8. fold p0 in B1, B2, B3, B4, B5, B6, B7, B8.
  pose proof (stake_Bk _ _ _ _ _ _ _ _ _ _ (proj1 HG) Hn Hstake) as (Hm & _ & _ & _ & HB).
  { intros y Hy. assert (validators c' !! v = Some y) as Hy' by (unfold rest in E1; congruence). exact (proj1 (fit_validator _ Hf _ _ Hy')). }
  pose proof (inv_farm _ _ _ (proj1 HB) id) as Hi. rewrite Hl in Hi. unfold none1 in Hi.
  assert (FarmPool.total_farm_shares l' < U128_MAX) as Hb by (apply (fit_pool _ Hf id); by rewrite E4, lookup_insert_eq).
  assert (FarmPool.total_farm_shares l' = FarmPool.total_farm_shares l + m) as Et
    by (cbn in Hb |- *; unfold u128_saturating_add, saturating_add in *; lia).
  assert (FarmPosition.shares p1 = FarmPosition.shares p0 + m) as Eh
    by (cbn; unfold u128_saturating_add, saturating_add in *; rewrite Et in Hb; lia).
  assert (Hp1 : FarmPosition.account_id p1 = a /\ FarmPosition.product_id p1 = q /\ FarmPosition.validator_id p1 = v /\
    FarmPosition.price_id p1 = id /\ FarmPosition.status p1 = FarmStatus.Active) by done.
  destruct Hp1 as (P1 & P2 & P3 & P4 & P5). rewrite P1, P2 in E5.
  split.
  - eapply Bk_views with (c := s <| farm_pools := <[id := l']> (farm_pools s) |> <| farm_positions := <[(a, q) := p1]> (farm_positions s) |>);
      [done | unfold lviews; by rewrite E4 | unfold oviews; by rewrite E5 |].
    rewrite <- B1, <- B2. eapply (set_stake_Bk m s id l l' p0 p1); rewrite ?B1, ?B2, ?B3; try done; try lia. by left.
  - unfold Cat. unfold shelf in Es. rewrite E2, E3. assert (pviews s = pviews c /\ qviews s = qviews c) as [-> ->] by (split; congruence).
    unfold lviews, oviews. rewrite E4, E5, !fmap_insert, El, Eo.
    eapply (CatS_set_stake _ _ _ _ (proj2 HG) (a, q) (oview p1) id (lview l')).
    + exists (lview l), (pview pr). split_and!; [apply lviews_Some; congruence | done | by apply pviews_Some | done].
    + done.
    + intros _ _. change (FarmPosition.product_id (oview p1)) with (FarmPosition.product_id p1).
      change (FarmPosition.validator_id (oview p1)) with (FarmPosition.validator_id p1). rewrite P2, P3.
      split; [|exists (qview x); split; [by apply qviews_Some | exact Hv]].
      rewrite El in Hl. apply lviews_Some, (cat_pool _ _ _ _ (proj2 HG)) in Hl as (z & Hz & Ez & _).
      rewrite (pviews_Some _ _ _ Hpr) in Hz. injection Hz as <-. cbn in *. congruence.
    + cbn. congruence.
Qed.

Lemma commit_stake_Good a n q id v e c p c' es : Good c -> 0 <= n ->
  commit_farm_stake a n q id v e c = Ok (p, c', es) -> fits c' -> Good c'.
Proof.
  unfold commit_farm_stake. intros HG Hn H Hf. m_inv.
  match goal with E : get_active_price_and_product _ _ _ = Ok _ |- _ => apply active_inv in E as (-> & Hpr & Hst & Hq) end.
  match goal with E : require_farm_price_for_product _ _ _ _ = Ok _ |- _ => apply farm_price_inv in E as (-> & Hty & Hprod) end.
  cbn [fst snd] in *. str_prop. rewrite Hprod in Hq. read_cat.
  eapply same_core_inv in E2; [|solve [same]]. eapply same_core_inv in E4; [|solve [same]].
  assert (core s4 = core c) as Ec by congruence. clear E4.
  assert (farm_positions s2 !! (a, q) = farm_positions s4 !! (a, q)) as Eo
    by (destruct (core_farms _ _ E2), (core_farms _ _ Ec); congruence). clear E2.
  apply (stake_prefix a q id _ e s4) in E5 as (HG5 & Es5 & Ep5 & Eq5 & Hact); [|by apply (Good_core _ _ Ec)|exact Eo].
  assert (prices s5 = prices c /\ products s5 = products c) as [Epc Eqc] by (unfold core in Ec; split; congruence).
  pose proof (stake_frame _ _ _ _ _ _ _ _ E6) as (Es6 & _ & _ & Ep6 & Eq6).
  unfold internal_set_farm_pool, internal_set_farm_position in *. m_inv.
  repeat match goal with E : _ _ _ = Ok (_, ?s, _) |- _ =>
    lazymatch type of E with
    | internal_stake _ _ _ _ _ = _ => fail
    | internal_set_price _ _ _ _ = _ => unfold internal_set_price in E; m_inv
    | internal_set_product _ _ _ _ = _ => unfold internal_set_product in E; m_inv
    | _ => eapply same_core_inv in E; [|solve [same]]
    end end.
  match type of E13 with _ = core ?t => assert (core s15 = core t) as E15' by congruence end. clear E13 E14 E15.
  destruct (core_farms _ _ E15') as [F1 F2]. assert (prices s15 = prices s6 /\ products s15 = products s6) as [F3 F4]
    by (unfold core in E15'; cbn in E15'; split; congruence).
  eapply (stake_suffix s5 s6 _ a q id v n a6 (block_timestamp e) a11 a7 x y e es6); try done; try congruence.
  - transitivity (rest s15); [done|]. by apply core_rest in E15'.
  - unfold pviews. cbn. rewrite F3. apply insert_same with (x := x); [congruence | done].
  - unfold qviews. cbn. rewrite F4. apply insert_same with (x := y); [congruence | done].
Qed.

Lemma resolve_stake_Good a n q id v e c p c' es : Good c -> 0 <= n ->
  resolve_farm_stake a n q id v e c = Ok (p, c', es) -> fits c' -> Good c'.
Proof. unfold resolve_farm_stake. intros HG Hn H Hf. m_inv. read. by eapply commit_stake_Good. Qed.

(** ** Exits *)
Lemma unstake_frame a id n e c m c' es : internal_unstake a id n e c = Ok (m, c', es) ->
  shelf c' = shelf c /\ farm_pools c' = farm_pools c /\ farm_positions c' = farm_positions c.
Proof. intros H. apply internal_unstake_inv in H as (? & ? & ? & _ & _ & _ & _ & _ & _ & _ & _ & ->). done. Qed.

Lemma Bk_ext d d' fd c : (forall a v, d' a v = d a v) -> Bk d fd c -> Bk d' fd c.
Proof. intros Hd [HI Hc]. split; [by eapply InvD_ext | done]. Qed.

Lemma unstake_suffix c s c' q p p1 l n near e es : Good c ->
  let a := FarmPosition.account_id p in let v := FarmPosition.validator_id p in let id := FarmPosition.price_id p in
  farm_positions c !! (a, q) = Some p -> FarmPosition.status p = FarmStatus.Active -> 0 < FarmPosition.shares p ->
  n <= FarmPosition.shares p ->
  internal_unstake a v n e c = Ok (near, s, es) -> farm_pools s !! id = Some l ->
  FarmPosition.account_id p1 = a -> FarmPosition.product_id p1 = FarmPosition.product_id p -> FarmPosition.validator_id p1 = v ->
  FarmPosition.price_id p1 = id -> FarmPosition.shares p1 = FarmPosition.shares p - n ->
  (FarmPosition.status p1 = FarmStatus.Active \/ FarmPosition.shares p1 = 0) ->
  let l' := l <| FarmPool.total_farm_shares := FarmPool.total_farm_shares l - n |> in
  rest c' = rest s -> pviews c' = pviews s -> qviews c' = qviews s -> farm_pools c' = <[id := l']> (farm_pools s) ->
  farm_positions c' = <[(a, FarmPosition.product_id p) := p1]> (farm_positions s) -> Good c'.
Proof.
  intros HG a v id Hp Ha Hs Hn Hu Hl P1 P2 P3 P4 P5 P6 l' E1 E2 E3 E4 E5. pose proof (proj1 (proj1 HG)) as HI.
  destruct (unstake_frame _ _ _ _ _ _ _ _ Hu) as (Es & El & Eo). pose proof (inv_position _ _ _ HI _ _ Hp) as [[= Eq] _]. subst q.
  pose proof (unstake_Bk _ _ _ _ _ _ _ _ _ _ (proj1 HG) Hu) as (Hpos & _ & _ & _ & _ & HB).
  split.
  - eapply Bk_views with (c := s <| farm_pools := <[id := l']> (farm_pools s) |>
                                 <| farm_positions := <[(a, FarmPosition.product_id p) := p1]> (farm_positions s) |>);
      [done | unfold lviews; by rewrite E4 | unfold oviews; by rewrite E5 |].
    apply (set_stake_Bk (- n) s id l l' p p1); [|done | cbn; lia | done | done | | | done | done | done | done | lia | lia | done].
    + eapply Bk_ext; [|exact HB]. intros a' v'. unfold only. fold a v. cbn. case_bool_decide; lia.
    + intros a' v'. rewrite Eo. fold a. by rewrite Hp.
    + intros pr'. rewrite Eo. fold a. by rewrite Hp.
  - unfold Cat. unfold shelf in Es. rewrite E2, E3. assert (pviews s = pviews c /\ qviews s = qviews c) as [-> ->] by (split; congruence).
    unfold lviews, oviews. rewrite E4, E5, !fmap_insert, El, Eo. rewrite El in Hl.
    destruct (cat_position _ _ _ _ (proj2 HG) _ _ (oviews_Some _ _ _ Hp) Ha Hs) as (l1 & y & Hl1 & F1 & Hy & F2). cbn in Hl1, F1, Hy, F2.
    fold id in Hl1. rewrite (lviews_Some _ _ _ Hl) in Hl1. injection Hl1 as <-. cbn in F1.
    destruct (cat_pool _ _ _ _ (proj2 HG) _ _ (lviews_Some _ _ _ Hl)) as (z & Hz & _ & _ & Hact). cbn in Hact.
    eapply (CatS_set_stake _ _ _ _ (proj2 HG) (a, FarmPosition.product_id p) (oview p1) id (lview l')).
    + exists (lview l), z. split_and!; [by apply lviews_Some | done | done |]. cbn. intros ?. apply Hact. lia.
    + done.
    + intros _ _. cbn. rewrite P2, P3. split; [done|]. by exists y.
    + cbn. congruence.
Qed.

Lemma commit_unstake_Good a q v n : keeps Good (commit_farm_unstake a q v n).
Proof.
  unfold commit_farm_unstake. intros e c u c' es HG H. m_inv.
  match goal with E : settle_farm_position _ _ _ _ = Ok _ |- _ => apply (settle_position_Good _ _ _ _ _ _ _ HG) in E; clear HG; rename E into HG end.
  match goal with E : require_active_farm_position _ _ _ _ = Ok _ |- _ => apply active_position_inv in E as (Hp & Ha & Hs & -> & ->) end.
  read_cat. bool_prop. str_prop. subst v.
  match goal with E : internal_unstake _ _ _ _ _ = Ok _ |- _ => rename E into Hu end.
  pose proof (inv_position _ _ _ (proj1 (proj1 HG)) _ _ Hp) as [[= -> ->] _].
  unfold internal_set_farm_pool, internal_set_farm_position, internal_set_farm_account in *. m_all; bool_prop;
    (lazymatch goal with |- Good (_ <| farm_positions := <[_ := ?p1]> _ |>) => eapply (unstake_suffix _ _ _ _ _ p1) end;
    [exact HG | exact Hp | done | done | eassumption | exact Hu | exact Hl | done | done | done | done | done
      | cbn in *; tauto | done | done | done | done | done]).
Qed.

Lemma resolve_unstake_Good a q v n : keeps Good (resolve_farm_unstake a q v n).
Proof. unfold resolve_farm_unstake. intros e c u c' es HG H. m_inv. read.
  match goal with E : require_active_farm_position _ _ _ _ = Ok _ |- _ => apply active_position_inv in E as (_ & _ & _ & -> & ->) end.
  by eapply commit_unstake_Good.
Qed.
