(* ===== verification/StakingReach.v ===== *)
(** * Reachable worlds of the staking contract

    Every public call, every callback and every answer of a pool keeps the
    books and the catalog in order ([reachable_Good]). *)
From stdpp Require Import base gmap strings list.
From Stdlib Require Import ZArith Lia.
From S2P Require Import Prelude.
From S2P Require Import Near.
From S2P Require Import MerkleTree.
From S2P Require Import StakingTypes.
From S2P Require Import StakingMath.
From S2P Require Import StakingContract.
From S2P Require Import StakingCatalog.
From S2P Require Import StakingEpoch.
From S2P Require Import StakingSubscriptions.
From S2P Require Import StakingLocks.
From S2P Require Import StakingFarm.
From S2P Require Import StakingWorld.
From S2P Require Import StakingBooks.
From S2P Require Import StakingStake.
From S2P Require Import StakingInvariant.
From S2P Require Import StakingTails.
From S2P Require Import StakingShelf.
From S2P Require Import StakingCat.
From S2P Require Import StakingFarms.

Local Open Scope Z_scope.
Local Open Scope record_scope.

(** ** The promises a call returns carry deposits that were attached *)
Definition action_ok (k : UserAction.t) : Prop :=
  match k with
  | UserAction.CommitLock _ _ n _ _ | UserAction.CommitRecurringSubscriptionLock _ _ n _
  | UserAction.SubscriptionUpdate _ _ n _ _ _ | UserAction.CommitFarmStake _ _ n _ _ => 0 <= n
  | _ => True
  end.

Definition call_ok (x : SelfCall) : Prop :=
  match x with
  | OnEpochSettlementAfterPoolAccount _ k | OnAfterPoolWithdrawMaybeSettle _ k | OnEpochSettlementDispatchContinue k
  | OnEpochPipelineReleaseWithLockId _ k | OnEpochPipelineReleaseWithFarmPosition _ k
  | OnEpochPipelineReleaseWithSubscriptionUpdateOutcome _ k => action_ok k
  | ResolveLock _ n _ _ _ | ResolveRecurringSubscriptionLockAfterSettle _ n _ _ | ResolveFarmStake _ n _ _ _
  | OnSubscriptionUpdateAfterSettle _ n _ _ _ _ => 0 <= n
  | _ => True
  end.

Definition step_ok (s : PStep) : Prop := match s with CallSelf x _ => call_ok x | _ => True end.
Abbreviation promise_ok p := (Forall step_ok p) (only parsing).

(** [yields e Q m]: what [m] returns under [e] satisfies [Q]. *)
Definition yields {A} (e : Env) (Q : A -> Prop) (m : MS A) : Prop := forall c a c' es, m e c = Ok (a, c', es) -> Q a.

Lemma yields_post {A B} e (Q1 : A -> Prop) (Q : B -> Prop) (f : A -> MS B) m : yields e Q1 m -> (forall a, Q1 a -> yields e Q (f a)) -> yields e Q (mbind f m).
Proof. intros Hm Hf c b c' es H. m_inv. eapply Hf; [by eapply Hm | exact H]. Qed.
Lemma yields_bind {A B} e (Q : B -> Prop) (f : A -> MS B) m : (forall a, yields e Q (f a)) -> yields e Q (mbind f m).
Proof. intros Hf. apply (yields_post e (fun _ => True)); [done | auto]. Qed.
Lemma yields_asks {A B} e (Q : B -> Prop) (g : Env -> A) (f : A -> MS B) : yields e Q (f (g e)) -> yields e Q (mbind f (asks g)).
Proof. intros Hf c b c' es H. m_inv. by eapply Hf. Qed.
Lemma yields_ret {A} e (Q : A -> Prop) a : Q a -> yields e Q (mret a).
Proof. intros HQ c b c' es H. m_inv. done. Qed.
Lemma yields_panic {A} e (Q : A -> Prop) msg : yields e Q (panicM msg).
Proof. intros c b c' es H. done. Qed.

Create HintDb yields discriminated.
Ltac yields_step :=
  match goal with
  | |- yields _ _ (mbind _ (asks _)) => apply yields_asks
  | |- yields _ _ (mret _) => apply yields_ret
  | |- yields _ _ (panicM _) => apply yields_panic
  | |- yields _ _ (if ?b then _ else _) => destruct b
  | |- yields _ _ (match ?x with _ => _ end) => destruct x
  | |- yields _ _ (let _ := _ in _) => cbv zeta
  | |- yields _ _ _ => solve [auto with yields nocore]
  | |- yields _ _ (mbind _ _) => apply yields_bind; intro
  end.
Ltac yields_walk := repeat yields_step.

Lemma dispatch_ok k : action_ok k -> promise_ok (on_epoch_settlement_dispatch_continue k).
Proof. intros Hk. unfold on_epoch_settlement_dispatch_continue, then_. destruct k; cbn in *; by repeat constructor. Qed.

Lemma try_epoch_ok e v k : action_ok k -> yields e (Forall step_ok) (try_epoch_stake_or_unstake v k).
Proof. intros Hk. pose proof (dispatch_ok _ Hk). unfold try_epoch_stake_or_unstake, then_. yields_walk; try done; by repeat constructor. Qed.
Lemma settlement_ok e v k : action_ok k -> yields e (Forall step_ok) (promise_validator_per_epoch_settlement_then v k).
Proof.
  intros Hk. pose proof (dispatch_ok _ Hk). unfold promise_validator_per_epoch_settlement_then, promise_get_validator_pool_account, then_.
  apply yields_bind. intro. apply yields_asks. apply yields_bind. intro. destruct (negb _); [by apply yields_ret|].
  eapply (yields_post e (Forall step_ok)); [yields_walk; by repeat constructor|]. intros p Hp. apply yields_ret.
  apply Forall_app. split; [done|by repeat constructor].
Qed.
#[export] Hint Resolve try_epoch_ok settlement_ok : yields.

Section exec.
Context `{HC : Crypto} `{IS : IdSet} (e : Env) (He : env_ok e).

Lemma attached_nonneg : 0 <= attached_deposit e.
Proof. unfold env_ok in He. lia. Qed.

Lemma preamble_ok : yields e (fun x => 0 <= x.2) lock_entry_preamble.
Proof. unfold lock_entry_preamble. yields_walk. apply attached_nonneg. Qed.

Lemma alone_ok {A} (m : MS A) : yields e (Forall step_ok) (alone m).
Proof. unfold alone. yields_walk. constructor. Qed.
Lemma admin_pool_ok v f : (forall a, call_ok (f a)) -> yields e (Forall step_ok) (promise_catalog_admin_on_pool v f).
Proof. intros Hf. unfold promise_catalog_admin_on_pool, promise_pool_get_owner_id_then, then_. yields_walk. repeat constructor. apply Hf. Qed.
Lemma admin_product_ok v f : (forall a, call_ok (f a)) -> yields e (Forall step_ok) (promise_catalog_admin_on_product v f).
Proof. intros Hf. unfold promise_catalog_admin_on_product, promise_pool_get_owner_id_then, then_. yields_walk. repeat constructor. apply Hf. Qed.
Lemma admin_price_ok v f : (forall a, call_ok (f a)) -> yields e (Forall step_ok) (promise_catalog_admin_on_price v f).
Proof. intros Hf. unfold promise_catalog_admin_on_price, promise_pool_get_owner_id_then, then_. yields_walk. repeat constructor. apply Hf. Qed.

Lemma lock_ok p q d : yields e (Forall step_ok) (StakingLocks.lock p q d).
Proof.
unfold StakingLocks.lock, lock_with_price_id. apply yields_bind. intro id. apply yields_bind. intro.
eapply yields_post; [apply preamble_ok|]. intros [buyer locked] Hn. cbn in Hn.
unfold lock_one_off_with_catalog, lock_recurring_subscription_with_catalog. yields_walk; by apply settlement_ok.
Qed.

Lemma exec_ok x : yields e (Forall step_ok) (exec x).
Proof.
destruct x; cbn [exec]; try apply alone_ok;
try (apply admin_pool_ok; done); try (apply admin_product_ok; done); try (apply admin_price_ok; done);
try (unfold add_validator_catalog_manager, remove_validator_catalog_manager, withdraw_revenue, promise_pool_get_owner_id_then, then_;
yields_walk; by repeat constructor).
- apply lock_ok.
- unfold unlock. yields_walk. by apply settlement_ok.
- unfold StakingLocks.withdraw. yields_walk. by apply settlement_ok.
- unfold epoch_settle. yields_walk. by apply settlement_ok.
- unfold stake. yields_walk. apply settlement_ok, attached_nonneg.
- unfold unstake. yields_walk. by apply settlement_ok.
- unfold update_subscription. yields_walk. apply settlement_ok, attached_nonneg.
Qed.

Definition returned_ok (x : PromiseOrValue Answer) : Prop :=
match x with Returned p => Forall step_ok p | Value (AAccount _) => False | Value _ => True end.

Definition pov_ok {A} (x : PromiseOrValue A) : Prop := match x with Returned p => Forall step_ok p | Value _ => True end.

Lemma returning_ok m : yields e (Forall step_ok) m -> yields e returned_ok (returning m).
Proof. intros Hm. unfold returning. eapply yields_post; [exact Hm|]. intros p Hp. by apply yields_ret. Qed.
Lemma mapping_ok {A} (f : A -> Answer) m : (forall a, match f a with AAccount _ => False | _ => True end) ->
yields e pov_ok m -> yields e returned_ok (mapping f m).
Proof.
intros Hf Hm. unfold mapping. eapply yields_post; [exact Hm|]. intros [a|p] Hp; apply yields_ret; [|done]. cbn. specialize (Hf a). by destruct (f a).
Qed.

Lemma refund_ok v a n : yields e (Forall step_ok) (refund_payable_pipeline v a n).
Proof. unfold refund_payable_pipeline. yields_walk. by repeat constructor. Qed.
#[local] Hint Resolve refund_ok : yields.

Lemma refunding {A} v a n : yields e (@pov_ok A) (p ← refund_payable_pipeline v a n; mret (Returned p)).
Proof. eapply yields_post; [apply refund_ok|]. intros p Hp. by apply yields_ret. Qed.
#[local] Hint Resolve refunding : yields.

Lemma after_account_ok r v k : action_ok k -> yields e (Forall step_ok) (on_epoch_settlement_after_pool_account r v k).
Proof.
intros Hk. unfold on_epoch_settlement_after_pool_account, try_epoch_withdraw_known_unstaked, promise_epoch_withdraw_unstaked, then_.
apply yields_bind. intro. destruct r as [view|].
- apply yields_bind. intro x. apply yields_bind. intro. apply yields_asks. apply yields_bind. intro. cbv zeta. destruct (_ && _); [|by apply try_epoch_ok].
eapply (yields_post e (Forall step_ok)); [yields_walk; by repeat constructor|]. intros p Hp. apply yields_ret.
apply Forall_app. split; [done|by repeat constructor].
- destruct (UserAction.payable_refund k) as [[]|]; yields_walk. by repeat constructor.
Qed.

Lemma run_ok x r : call_ok x -> yields e returned_ok (run_self_call x r).
Proof.
intros Hx. destruct x; cbn [run_self_call] in *; try (unfold giving; yields_walk; cbn; done);
first [apply returning_ok | apply mapping_ok; [done|]].
- by apply after_account_ok.
- unfold on_after_pool_withdraw_maybe_settle. apply yields_bind. intro. apply yields_bind. intro. apply yields_bind. intro.
pose proof (dispatch_ok _ Hx). destruct (answer_bool r) as [[]|];
[eapply yields_post; [by apply try_epoch_ok|]; intros p Hp; by apply yields_ret | yields_walk; done..].
- yields_walk. by apply dispatch_ok.
- unfold on_withdraw_user_transfer_after_settle, payout_user_withdraw. yields_walk. by repeat constructor.
- unfold on_epoch_pipeline_release_with_lock_id. yields_walk; done.
- unfold on_epoch_pipeline_release_with_farm_position. yields_walk; done.
- unfold on_epoch_pipeline_release_with_subscription_update_outcome. yields_walk; done.
- unfold withdraw_revenue_after_get_owner. yields_walk. by repeat constructor.
Qed.
End exec.

(** ** Public calls *)
Lemma Good_same {A} (m : MS A) : same_core m -> keeps Good m.
Proof. intros Hm e c a c' es HG H. eapply Good_core; [|exact HG]. by eapply same_core_inv. Qed.
#[export] Hint Resolve Good_same : keeps.

Lemma Good_set_validator c v x x' : Good c -> validators c !! v = Some x -> validator_ok x' ->
  Validator.total_shares x' = Validator.total_shares x -> liability x <= liability x' ->
  Good (c <| validators := <[v := x']> (validators c) |>).
Proof.
  intros [[HI Hc] HC] Hv Hok Ht Hl. split; [|done]. split; [by eapply InvD_set_validator | done].
Qed.
Lemma Good_relabel_validator c v x x' : Good c -> validators c !! v = Some x ->
  (Validator.total_shares x', Validator.total_staked_balance x', Validator.pending_to_stake x', Validator.pending_to_unstake x',
   Validator.pending_to_withdraw x', Validator.pending_to_claim x') =
  (Validator.total_shares x, Validator.total_staked_balance x, Validator.pending_to_stake x, Validator.pending_to_unstake x,
   Validator.pending_to_withdraw x, Validator.pending_to_claim x) ->
  Good (c <| validators := <[v := x']> (validators c) |>).
Proof.
  intros HG Hv [= E1 E2 E3 E4 E5 E6]. eapply Good_set_validator; [done | exact Hv | | done | unfold liability; lia].
  pose proof (inv_validator _ _ _ (proj1 (proj1 HG)) _ _ Hv) as Hok. unfold validator_ok in *. rewrite E1, E2, E3, E4, E5, E6. done.
Qed.

Lemma settlement_Good v k : keeps Good (promise_validator_per_epoch_settlement_then v k).
Proof.
  unfold promise_validator_per_epoch_settlement_then, promise_get_validator_pool_account. intros e c p c' es HG H.
  m_all; read; by eapply Good_relabel_validator.
Qed.
#[export] Hint Resolve settlement_Good : keeps.

Section calls.
Context `{HC : Crypto} `{IS : IdSet}.

Lemma add_validator_Good v : keeps Good (add_validator v).
Proof.
unfold add_validator. intros e c u c' es HG H. m_inv. carry HG. read.
match goal with B : match ?x with _ => _ end = true |- _ => destruct x eqn:Hv; [done|] end. destruct HG as [[HI Hc] HC0].
split; [|done]. split; [|done]. eapply InvD_ledger; [|apply InvD_new_validator; [exact HI | exact Hv | | | ]]; done.
Qed.

Ltac relabel HG := intros e c u c' es HG H; m_all; read; carry HG; try done; by eapply Good_relabel_validator.
Lemma pause_validator_Good v : keeps Good (pause_validator v).
Proof. unfold pause_validator. relabel HG. Qed.
Lemma remove_validator_Good v : keeps Good (remove_validator v).
Proof. unfold remove_validator. relabel HG. Qed.
Lemma add_manager_Good r v m a : keeps Good (add_validator_catalog_manager_after_get_owner r v m a).
Proof. unfold add_validator_catalog_manager_after_get_owner. relabel HG. Qed.
Lemma remove_manager_Good r v m a : keeps Good (remove_validator_catalog_manager_after_get_owner r v m a).
Proof. unfold remove_validator_catalog_manager_after_get_owner. relabel HG. Qed.
#[local] Hint Resolve add_validator_Good pause_validator_Good remove_validator_Good : keeps.

(** Deposits for storage, payments, revenue: outside the books. *)
Lemma shelf_set_account b a x : keeps (at_shelf b) (internal_set_account a x).
Proof. unfold internal_set_account. keeps_walk. assumption. Qed.
Lemma rest_set_account b a x : keeps (at_rest b) (internal_set_account a x).
Proof. unfold internal_set_account. keeps_walk. assumption. Qed.
#[local] Hint Resolve shelf_set_account rest_set_account : keeps.
Ltac outside := apply Good_views; intros; keeps_walk; try assumption.

Lemma storage_deposit_Good a b : keeps Good (storage_deposit a b).
Proof. unfold storage_deposit. outside. Qed.
Lemma storage_withdraw_Good n : keeps Good (storage_withdraw n).
Proof. unfold storage_withdraw. outside. Qed.
Lemma storage_unregister_Good f : keeps Good (storage_unregister f).
Proof. unfold storage_unregister. outside. Qed.
Lemma pay_Good p q n : keeps Good (pay p q n).
Proof. apply Good_views; [intros; by apply shelf_pay|]. intros. unfold pay, add_revenue_to_validator. keeps_walk; try assumption. Qed.
Lemma withdraw_revenue_Good r v a : keeps Good (withdraw_revenue_after_get_owner r v a).
Proof. unfold withdraw_revenue_after_get_owner. outside. Qed.
#[local] Hint Resolve storage_deposit_Good storage_withdraw_Good storage_unregister_Good pay_Good : keeps.

Lemma Good_Bk_shelf {A} (m : MS A) : keeps (Bk none2 none1) m -> (forall b, keyed b -> keeps (at_shelf b) m) -> keeps Good m.
Proof.
intros Hb Hs e c a c' es [HB HC0] H. split; [by eapply Hb|]. eapply Cat_shelf; [|exact HC0].
by apply (Hs _ (Cat_keyed _ HC0) e c a c' es).
Qed.
Lemma cancel_Good id : keeps Good (cancel_subscription id).
Proof. apply Good_Bk_shelf; [apply cancel_Bk|]. intros. unfold cancel_subscription. keeps_walk. Qed.
Lemma resume_Good id : keeps Good (resume_subscription id).
Proof. apply Good_same. intros. unfold resume_subscription. keeps_walk. Qed.
#[local] Hint Resolve cancel_Good resume_Good : keeps.

Lemma exec_Good x : keeps Good (exec x).
Proof.
destruct x; cbn [exec]; unfold alone;
unfold pause, unpause, propose_new_owner_account_id, accept_ownership, set_guardians, set_per_lock_storage_stake,
set_per_farm_position_storage_stake, set_per_purchase_storage_stake, set_lock_bounds, set_min_lock_amount,
set_min_storage_deposit, set_epoch_unstake_settle_epochs, assert_owner_payable, add_validator_catalog_manager,
remove_validator_catalog_manager, create_product, edit_product, archive_product, delete_product, unarchive_product,
set_product_default_price, create_price, edit_price, archive_price, unarchive_price, delete_price,
promise_catalog_admin_on_pool, promise_catalog_admin_on_product, promise_catalog_admin_on_price, withdraw_revenue,
StakingLocks.lock, lock_with_price_id, lock_entry_preamble, lock_one_off_with_catalog, lock_recurring_subscription_with_catalog,
unlock, StakingLocks.withdraw, epoch_settle, stake, unstake, update_subscription; keeps_walk.
- by apply (Good_core s).
- by apply (Good_core s).
- intros e c i c' es HG H. by apply checked_inputs_inv in H as (-> & _).
Qed.

(** The catalog administration changes no book. *)
Lemma same_create_product r v n d a : same_books (create_product_after_get_owner r v n d a).
Proof. unfold create_product_after_get_owner. same. Qed.
Lemma same_edit_product r id n d a : same_books (edit_product_after_get_owner r id n d a).
Proof. unfold edit_product_after_get_owner. same. Qed.
Lemma same_archive_product r id a : same_books (archive_product_after_get_owner r id a).
Proof. unfold archive_product_after_get_owner. same. Qed.
Lemma same_delete_product r id a : same_books (delete_product_after_get_owner r id a).
Proof. unfold delete_product_after_get_owner, remove_product_id_from_list. same. Qed.
Lemma same_unarchive_product r id a : same_books (unarchive_product_after_get_owner r id a).
Proof. unfold unarchive_product_after_get_owner. same. Qed.
Lemma same_set_product_default_price r id p a : same_books (set_product_default_price_after_get_owner r id p a).
Proof. unfold set_product_default_price_after_get_owner. same. Qed.
Lemma same_archive_price r id a : same_books (archive_price_after_get_owner r id a).
Proof. unfold archive_price_after_get_owner. same. Qed.
Lemma same_unarchive_price r id a : same_books (unarchive_price_after_get_owner r id a).
Proof. unfold unarchive_price_after_get_owner. same. Qed.

(** ** Callbacks *)
Lemma giving_inv {A} (f : A -> Answer) m e c x c' es : giving f m e c = Ok (x, c', es) -> exists a es', m e c = Ok (a, c', es').
Proof. unfold giving. intros H. m_inv. eauto. Qed.
Lemma mapping_inv {A} (f : A -> Answer) m e c x c' es : mapping f m e c = Ok (x, c', es) -> exists a es', m e c = Ok (a, c', es').
Proof. unfold mapping. intros H. m_inv. eauto. Qed.
Lemma returning_inv m e c x c' es : returning m e c = Ok (x, c', es) -> exists a es', m e c = Ok (a, c', es').
Proof. unfold returning. intros H. m_inv. eauto. Qed.

Definition answer_ok (r : option Answer) : Prop := account_view_ok (answer_account r).

(** A part of the pipeline that keeps the books, up to the census. *)
Lemma Good_pipeline {A} (m : MS A) e c a c' es : Good c -> fits c' -> (Inv c -> Inv c') -> (forall b, keeps (at_shelf b) m) ->
m e c = Ok (a, c', es) -> Good c'.
Proof.
intros [[HI Hc] HC0] Hf Hi Hs H. split; [split; [by apply Hi | by apply fits_census]|].
eapply Cat_shelf; [|exact HC0]. by apply (Hs _ e c a c' es).
Qed.

Lemma Good_tail {A} (m : MS A) e c a c' es : Good c -> (Bk none2 none1 c -> Bk none2 none1 c') ->
(forall b, keyed b -> keeps (at_shelf b) m) -> m e c = Ok (a, c', es) -> Good c'.
Proof.
intros [HB HC0] Hb Hs H. split; [by apply Hb|]. eapply Cat_shelf; [|exact HC0]. by apply (Hs _ (Cat_keyed _ HC0) e c a c' es).
Qed.

Lemma run_Good x r e c a c' es : Good c -> fits c -> fits c' -> call_ok x -> answer_ok r ->
run_self_call x r e c = Ok (a, c', es) -> Good c'.
Proof.
intros HG Hf Hf' Hx Hr H. pose proof (fits_pending _ Hf) as Hp.
destruct x; cbn [run_self_call call_ok] in *;
first [apply giving_inv in H as (y & es' & H) | apply mapping_inv in H as (y & es' & H) | apply returning_inv in H as (y & es' & H)].
- refine (Good_pipeline _ _ _ _ _ _ HG Hf' _ _ H); [intros HI; by eapply after_pool_account_Inv | auto with keeps nocore].
- refine (Good_pipeline _ _ _ _ _ _ HG Hf' _ _ H); [intros HI; by eapply withdraw_done_Inv | auto with keeps nocore].
- refine (Good_pipeline _ _ _ _ _ _ HG Hf' _ _ H); [intros HI; by eapply maybe_settle_Inv | auto with keeps nocore].
- refine (Good_pipeline _ _ _ _ _ _ HG Hf' _ _ H); [intros HI; by eapply deposit_done_Inv | auto with keeps nocore].
- refine (Good_pipeline _ _ _ _ _ _ HG Hf' _ _ H); [intros HI; by eapply unstake_done_Inv | auto with keeps nocore].
- by m_inv.
- refine (Good_tail _ _ _ _ _ _ HG _ _ H); [intros HB; by eapply resolve_lock_Bk | intros; by apply shelf_resolve_lock].
- refine (Good_tail _ _ _ _ _ _ HG _ _ H); [intros HB; by eapply recurring_lock_Bk | intros; by apply shelf_recurring_lock].
- by eapply resolve_stake_Good.
- refine (Good_tail _ _ _ _ _ _ HG _ _ H); [intros HB; by eapply subscription_update_Bk | intros; by apply shelf_subscription_update].
- refine (Good_tail _ _ _ _ _ _ HG _ _ H); [intros HB; by eapply resolve_unlock_Bk | intros; apply shelf_unlock].
- by eapply resolve_unstake_Good.
- refine (Good_pipeline _ _ _ _ _ _ HG Hf' _ _ H); [|auto with keeps nocore].
unfold on_withdraw_user_transfer_after_settle in H. m_inv. intros HI. by eapply payout_Inv.
- refine (Good_pipeline _ _ _ _ _ _ HG Hf' _ _ H); [intros HI; by eapply terminal_release_Inv | auto with keeps nocore].
- refine (Good_pipeline _ _ _ _ _ _ HG Hf' _ _ H); [intros HI; by eapply release_lock_Inv | auto with keeps nocore].
- refine (Good_pipeline _ _ _ _ _ _ HG Hf' _ _ H); [intros HI; by eapply release_position_Inv | auto with keeps nocore].
- refine (Good_pipeline _ _ _ _ _ _ HG Hf' _ _ H); [intros HI; by eapply release_outcome_Inv | auto with keeps nocore].
- by eapply add_manager_Good.
- by eapply remove_manager_Good.
- split; [|by eapply create_product_Cat; [apply HG|]]. eapply keeps_same; [|apply HG | exact H]. intros; apply same_create_product.
- refine (Good_tail _ _ _ _ _ _ HG _ _ H); [| intros; by apply shelf_edit_product]. intros HB. eapply keeps_same; [|exact HB | exact H]. intros; apply same_edit_product.
- refine (Good_tail _ _ _ _ _ _ HG _ _ H); [| intros; by apply shelf_archive_product]. intros HB. eapply keeps_same; [|exact HB | exact H]. intros; apply same_archive_product.
- split; [|by eapply delete_product_Cat; [apply HG|]]. eapply keeps_same; [|apply HG | exact H]. intros; apply same_delete_product.
- refine (Good_tail _ _ _ _ _ _ HG _ _ H); [| intros; by apply shelf_unarchive_product]. intros HB. eapply keeps_same; [|exact HB | exact H]. intros; apply same_unarchive_product.
- refine (Good_tail _ _ _ _ _ _ HG _ _ H); [| intros; by apply shelf_default_price]. intros HB. eapply keeps_same; [|exact HB | exact H]. intros; apply same_set_product_default_price.
- by eapply create_price_Good.
- by eapply edit_price_Good.
- split; [|by eapply archive_price_Cat; [apply HG|]]. eapply keeps_same; [|apply HG | exact H]. intros; apply same_archive_price.
- by eapply delete_price_Good.
- split; [|by eapply unarchive_price_Cat; [apply HG|]]. eapply keeps_same; [|apply HG | exact H]. intros; apply same_unarchive_price.
- by eapply withdraw_revenue_Good.
Qed.
End calls.

(** ** Worlds *)
Section reach.
Context `{HC : Crypto} `{IS : IdSet}.

(** The worlds the contract can come to while amounts and counts stay within
the width of their types ([fits]). *)
Inductive reachable : World -> Prop :=
| reach_new cfg c b : staking_new cfg = Ok c -> 0 <= b -> reachable (mkWorld c b [])
| reach_step w w' : reachable w -> wstep w w' -> fits (contract w') -> reachable w'.

Definition chain_ok (x : Chain) : Prop := Forall step_ok (steps x) /\ answer_ok (awaited x).

Record Healthy (w : World) : Prop := {
healthy_good : Good (contract w);
healthy_fits : fits (contract w);
healthy_chains : Forall chain_ok (chains w)
}.

Lemma new_Good cfg c : staking_new cfg = Ok c -> Good c /\ fits c.
Proof.
unfold staking_new. intros H. res_inv. split; [split; [split|]|].
- split; cbn; try done.
- done.
- split; cbn; done.
- split; cbn; done.
Qed.

Lemma started_ok ps : Forall (Forall step_ok) ps -> Forall chain_ok (started ps).
Proof. intros H. unfold started. apply Forall_fmap. eapply Forall_impl; [exact H|]. intros p Hp. by split. Qed.
Lemma detached_ok es : Forall (Forall step_ok) (detached es).
Proof.
apply Forall_forall. intros p Hp. unfold detached in Hp. apply list_elem_of_omap in Hp as (ef & _ & E).
destruct ef; [done..|]. injection E as <-. by repeat constructor.
Qed.

Lemma chain_at w i x : Forall chain_ok (chains w) -> chains w !! i = Some x -> chain_ok x.
Proof. intros H Hi. by eapply Forall_lookup_1. Qed.

Lemma received_ok call a : pool_answers call a -> answer_ok (Some a).
Proof. destruct call, a; cbn; try done. unfold answer_ok. cbn. lia. Qed.

Lemma returned_answer a : returned_ok (Value a) -> answer_ok (Some a).
Proof. by destruct a. Qed.

Lemma step_healthy w w' : Healthy w -> wstep w w' -> fits (contract w') -> Healthy w'.
Proof.
intros [HG Hf Hc] [o Hs] Hf'. destruct Hs as
[w e x p c' es He _ _ _ H | w i pool call dep gas rest r a Hi Ha | w i rcv n rest r a Hi Ha
| w i call gas rest r e a c' es Hi He _ _ _ _ H | w i call gas rest r e p c' es Hi He _ _ _ _ H
| w i call gas rest r e msg Hi He _ _ _ _ H | w n Hn]; cbn in *.
- split; [by eapply exec_Good | done |]. cbn. apply Forall_app. split; [done|]. apply (started_ok (p :: detached es)).
constructor; [by eapply exec_ok | apply detached_ok].
- split; [done..|]. cbn. destruct (chain_at _ _ _ Hc Hi) as [Hst _]. cbn in Hst. apply Forall_cons in Hst as [_ Hst].
apply Forall_insert; [done|]. split; [done | by eapply received_ok].
- split; [done..|]. cbn. destruct (chain_at _ _ _ Hc Hi) as [Hst _]. cbn in Hst. apply Forall_cons in Hst as [_ Hst].
apply Forall_insert; [done|]. split; [done | by destruct Ha as [-> | ->]].
- destruct (chain_at _ _ _ Hc Hi) as [Hst Hr]. cbn in Hst, Hr. apply Forall_cons in Hst as [Hcall Hst].
split; [by eapply run_Good | done |]. cbn. apply Forall_app. split; [|apply started_ok, detached_ok].
apply Forall_insert; [done|]. split; [done|]. apply returned_answer. by eapply (run_ok e call r Hcall).
- destruct (chain_at _ _ _ Hc Hi) as [Hst Hr]. cbn in Hst, Hr. apply Forall_cons in Hst as [Hcall Hst].
split; [by eapply run_Good | done |]. cbn. apply Forall_app. split; [|apply started_ok, detached_ok].
apply Forall_insert; [done|]. split; [|done]. apply Forall_app. split; [|done]. by apply (run_ok e call r Hcall) in H.
- split; [done..|]. cbn. destruct (chain_at _ _ _ Hc Hi) as [Hst _]. cbn in Hst. apply Forall_cons in Hst as [_ Hst].
apply Forall_insert; [done|]. by split.
- by split.
Qed.

Lemma reachable_healthy w : reachable w -> Healthy w.
Proof.
induction 1 as [cfg c b H Hb | w w' Hr IH Hs Hf]; [|by eapply step_healthy].
destruct (new_Good _ _ H) as [HG Hf]. by split.
Qed.
End reach.
