(* ===== verification/StakingPricing.v ===== *)
(** * The share price of a staking pool

    Shares are minted and burnt at the net stake per share, rounded against
    the user: no deposit and no exit lowers the price for the others, and
    shares are never worth more than what was paid for them. *)
From stdpp Require Import base gmap strings list.
From Stdlib Require Import ZArith Lia.
From S2P Require Import Prelude.
From S2P Require Import Near.
From S2P Require Import StakingTypes.
From S2P Require Import StakingMath.
From S2P Require Import StakingContract.
From S2P Require Import StakingBooks.
From S2P Require Import StakingStake.

Local Open Scope Z_scope.
Local Open Scope record_scope.

(** ** Rounding *)
Lemma mint_shares_inv t n d s : mint_shares t n d = Ok s ->
  (t = 0 \/ n = 0) /\ s = d \/ t <> 0 /\ n <> 0 /\ s = d * t / n /\ 0 <= s <= U128_MAX.
Proof.
  unfold mint_shares, u256_mul, as_u128. intros H. destruct (_ || _) eqn:E; res_inv.
  - apply orb_prop in E. bool_prop. left. split; [|done]. destruct E as [E|E]; bool_prop; tauto.
  - bool_prop. right. split_and!; try done; lia.
Qed.

Lemma near_from_shares_inv s n t x : near_from_shares s n t = Ok x ->
  t = 0 /\ x = 0 \/ t <> 0 /\ x = s * n / t /\ 0 <= x <= U128_MAX /\ 0 <= s * n <= U256_MAX.
Proof.
  unfold near_from_shares, u256_mul, as_u128. intros H. destruct (_ =? _) eqn:E; bool_prop; res_inv; [by left|].
  right. split_and!; try done; lia.
Qed.

(** What new shares are worth, and the price of a share after a deposit. *)
Lemma mint_rounds_down t n d s : 0 < t -> 0 < n -> 0 <= d -> mint_shares t n d = Ok s -> s * n <= d * t.
Proof. intros Ht Hn Hd [[[-> | ->] _]|(_ & _ & -> & _)]%mint_shares_inv; [lia..|]. pose proof (Z.mul_div_le (d * t) n Hn). lia. Qed.
Lemma burn_rounds_down t n s x : 0 < t -> near_from_shares s n t = Ok x -> x * t <= s * n.
Proof. intros Ht [[-> _]|(_ & -> & _)]%near_from_shares_inv; [lia|]. pose proof (Z.mul_div_le (s * n) t Ht). lia. Qed.

(** ** The net stake of a pool *)
Definition small (x : Validator.t) : Prop :=
  0 <= Validator.total_staked_balance x <= FITS /\ 0 <= Validator.pending_to_stake x <= FITS /\
  0 <= Validator.pending_to_unstake x <= FITS /\ 0 <= Validator.pending_to_withdraw x <= FITS.

Lemma net_stake_small x : small x -> Validator.net_stake_yocto x =
  Z.max 0 (Validator.total_staked_balance x + Validator.pending_to_stake x - (Validator.pending_to_unstake x + Validator.pending_to_withdraw x)).
Proof.
  unfold small, Validator.net_stake_yocto, Validator.gross_stake_yocto, Validator.pending_not_in_contract_yocto,
    saturating_sub, saturating_add, FITS, U128_MAX. lia.
Qed.

Definition staked (x : Validator.t) (s d : Z) : Validator.t :=
  x <| Validator.total_shares := s |> <| Validator.pending_to_stake := Validator.pending_to_stake x + d |>.
Definition exited (x : Validator.t) (s d : Z) : Validator.t :=
  x <| Validator.total_shares := s |> <| Validator.pending_to_unstake := Validator.pending_to_unstake x + d |>.

Lemma net_stake_staked x s d : small x -> 0 <= d <= FITS -> 0 < Validator.net_stake_yocto x ->
  Validator.net_stake_yocto (staked x s d) = Validator.net_stake_yocto x + d.
Proof.
  intros Hx Hd. rewrite (net_stake_small x Hx).
  unfold small, Validator.net_stake_yocto, Validator.gross_stake_yocto, Validator.pending_not_in_contract_yocto, staked,
    saturating_sub, saturating_add, FITS, U128_MAX in *. cbn. lia.
Qed.
Lemma net_stake_exited x s d : small x -> 0 <= d <= Validator.net_stake_yocto x ->
  Validator.net_stake_yocto (exited x s d) = Validator.net_stake_yocto x - d.
Proof.
  intros Hx. rewrite (net_stake_small x Hx).
  unfold small, Validator.net_stake_yocto, Validator.gross_stake_yocto, Validator.pending_not_in_contract_yocto, exited,
    saturating_sub, saturating_add, FITS, U128_MAX in *. cbn. lia.
Qed.

(** The price after minting and burning: [net' / total' >= net / total]. *)
Lemma mint_price t n d s : 0 < t -> 0 < n -> 0 <= d -> mint_shares t n d = Ok s ->
  n * (t + s) <= (n + d) * t /\ s * (n + d) <= d * (t + s).
Proof. intros Ht Hn Hd H. pose proof (mint_rounds_down _ _ _ _ Ht Hn Hd H). nia. Qed.
Lemma burn_price t n s x : 0 < t -> near_from_shares s n t = Ok x -> n * (t - s) <= (n - x) * t.
Proof. intros Ht H. pose proof (burn_rounds_down _ _ _ _ Ht H). nia. Qed.
Lemma burn_bounded t n s x : 0 < t -> 0 <= n -> s <= t -> near_from_shares s n t = Ok x -> 0 <= x <= n.
Proof.
  intros Ht Hn Hs [[-> ->]|(_ & -> & Hx & Hb)]%near_from_shares_inv; [lia|]. split; [lia|]. apply Z.div_le_upper_bound; nia.
Qed.
(** Burning cannot overflow. *)
Lemma burn_total t n s : 0 < t -> 0 <= s <= t -> 0 <= n <= U128_MAX -> t <= U128_MAX ->
  near_from_shares s n t = Ok (s * n / t) /\ 0 <= s * n / t <= n.
Proof.
  intros Ht Hs Hn Htm. unfold near_from_shares, u256_mul, as_u128. rewrite (proj2 (Z.eqb_neq _ _)) by lia.
  assert (0 <= s * n / t <= n) by (split; [apply Z.div_pos; nia | apply Z.div_le_upper_bound; nia]).
  rewrite checked_op_Ok by (unfold U256_MAX, U128_MAX in *; nia). cbn. rewrite checked_op_Ok by lia. done.
Qed.
