(* ===== verification/StakingExits.v ===== *)
(** * Exits of the staking contract

    That a user's exit goes through: the burning of the shares of an active
    lock, and the claim of the tranches that are due. The inversion lemmas say
    what a successful run does; here are the conditions a run succeeds under. *)
From stdpp Require Import base gmap strings list.
From Stdlib Require Import ZArith Lia.
From S2P Require Import Prelude.
From S2P Require Import Near.
From S2P Require Import StakingTypes.
From S2P Require Import StakingMath.
From S2P Require Import StakingContract.
From S2P Require Import StakingCatalog.
From S2P Require Import StakingEpoch.
From S2P Require Import StakingSubscriptions.
From S2P Require Import StakingLocks.
From S2P Require Import StakingFarm.
From S2P Require Import StakingBooks.
From S2P Require Import StakingStake.
From S2P Require Import StakingInvariant.
From S2P Require Import StakingPricing.

Local Open Scope Z_scope.
Local Open Scope record_scope.

(** ** Runs that succeed *)
Definition succeeds {A} (m : MS A) (e : Env) (c : Contract) : Prop := exists a c' es, m e c = Ok (a, c', es).

Lemma succeeds_bind {A B} (m : MS A) (f : A -> MS B) e c a c1 es :
  m e c = Ok (a, c1, es) -> succeeds (f a) e c1 -> succeeds (mbind f m) e c.
Proof. intros Hm (b & c2 & es2 & Hf). unfold succeeds, mbind, M_bind. rewrite Hm, Hf. eauto. Qed.
Lemma succeeds_require {A} b msg (f : unit -> MS A) e c : b = true -> succeeds (f tt) e c -> succeeds (mbind f (requireM b msg)) e c.
Proof. intros -> H. eapply succeeds_bind; [reflexivity | exact H]. Qed.
Lemma succeeds_lift {A B} (r : result A) a (f : A -> MS B) e c : r = Ok a -> succeeds (f a) e c -> succeeds (mbind f (lift r)) e c.
Proof. intros -> H. eapply succeeds_bind; [reflexivity | exact H]. Qed.
Lemma succeeds_get {A} (f : Contract -> MS A) e c : succeeds (f c) e c -> succeeds (mbind f get_state) e c.
Proof. intros H. eapply succeeds_bind; [reflexivity | exact H]. Qed.
Lemma succeeds_asks {A B} (g : Env -> A) (f : A -> MS B) e c : succeeds (f (g e)) e c -> succeeds (mbind f (asks g)) e c.
Proof. intros H. eapply succeeds_bind; [reflexivity | exact H]. Qed.
Lemma succeeds_put {A} c1 (f : unit -> MS A) e c : succeeds (f tt) e c1 -> succeeds (mbind f (put_state c1)) e c.
Proof. intros H. eapply succeeds_bind; [reflexivity | exact H]. Qed.
Lemma succeeds_emit {A} ef (f : unit -> MS A) e c : succeeds (f tt) e c -> succeeds (mbind f (emit ef)) e c.
Proof. intros H. eapply succeeds_bind; [reflexivity | exact H]. Qed.
Lemma succeeds_then {A B} (m : MS A) (f : A -> MS B) e c :
  succeeds m e c -> (forall a c1 es, m e c = Ok (a, c1, es) -> succeeds (f a) e c1) -> succeeds (mbind f m) e c.
Proof. intros (a & c1 & es & H) Hf. eapply succeeds_bind; [exact H | by eapply Hf]. Qed.
Lemma succeeds_ret {A} (a : A) e c : succeeds (mret a) e c.
Proof. by eexists _, _, _. Qed.

Ltac ok_step :=
  match goal with
  | |- succeeds (mbind _ (requireM _ _)) _ _ => apply succeeds_require
  | |- succeeds (mbind _ get_state) _ _ => apply succeeds_get
  | |- succeeds (mbind _ (asks _)) _ _ => apply succeeds_asks
  | |- succeeds (mbind _ (put_state _)) _ _ => apply succeeds_put
  | |- succeeds (mbind _ (emit _)) _ _ => apply succeeds_emit
  | |- succeeds (mret _) _ _ => apply succeeds_ret
  | |- succeeds (let _ := _ in _) _ _ => cbv zeta
  end.

Lemma require_validator_run id x e c : validators c !! id = Some x -> require_validator id e c = Ok (x, c, []).
Proof. intros H. unfold require_validator, get_state, lift, mbind, M_bind. cbn. by rewrite H. Qed.
Lemma require_validator_busy_run id msg x e c : validators c !! id = Some x -> Validator.tx_status x = TransactionStatus.Busy ->
  require_validator_busy id msg e c = Ok (x, c, []).
Proof.
  intros H Hb. unfold require_validator_busy, assert_validator_busy, mbind, M_bind. rewrite (require_validator_run id x) by done.
  rewrite Hb. done.
Qed.
Lemma assert_private_run e c : predecessor_account_id e = current_account_id e -> (assert_private : MS unit) e c = Ok (tt, c, []).
Proof. intros H. unfold assert_private, asks, mbind, M_bind, requireM, lift, require. rewrite H, String.eqb_refl. done. Qed.
Definition has_tranches (c : Contract) (k : AccountId * ValidatorId) : bool :=
  match user_pending_unstake c !! k with Some ts => negb (bool_decide (ts = [])) | None => false end.

Lemma set_tranches_run a v ts e c :
  has_tranches c (a, v) = true \/ 0 <= count (user_pending_unstake_validator_count c) a < U32_MAX ->
  succeeds (set_user_pending_unstake_tranches (a, v) ts) e c.
Proof.
  intros Hc. unfold set_user_pending_unstake_tranches. repeat ok_step. cbn [fst]. fold (has_tranches c (a, v)).
  destruct (has_tranches c (a, v)), (negb (bool_decide (ts = []))); try apply succeeds_ret.
  - by eexists _, _, _.
  - destruct Hc as [|Hc]; [done|]. unfold increment_pending_unstake_validator_count. ok_step. cbn.
    eapply succeeds_lift; [apply checked_op_Ok; lia|]. by eexists _, _, _.
Qed.

(** ** The exit of shares *)
Lemma fits_small c v x : Inv c -> fits c -> validators c !! v = Some x -> small x.
Proof.
  intros HI Hf Hv. pose proof (inv_validator _ _ _ HI _ _ Hv). pose proof (fit_validator _ Hf _ _ Hv). unfold small, validator_ok in *. lia.
Qed.
Lemma net_bounds c v x : Inv c -> fits c -> validators c !! v = Some x -> 0 <= Validator.net_stake_yocto x <= 2 * FITS.
Proof. intros HI Hf Hv. pose proof (fits_small _ _ _ HI Hf Hv) as Hs. rewrite (net_stake_small _ Hs). unfold small in Hs. lia. Qed.

Lemma user_within_total c a v x : Inv c -> validators c !! v = Some x ->
  count (user_validator_shares c) (a, v) <= Validator.total_shares x.
Proof.
  intros HI Hv. rewrite (inv_total _ _ _ HI _ _ Hv). apply count_le_shares_of. intros k s Hk. by apply (inv_share_pos _ _ _ HI) in Hk as [? _].
Qed.

(** What the shares burnt are worth. *)
Definition exit_value (x : Validator.t) (n : Z) : Z := n * Validator.net_stake_yocto x / Validator.total_shares x.

Lemma exit_priced c a v x n : Inv c -> fits c -> validators c !! v = Some x -> 0 < n <= count (user_validator_shares c) (a, v) ->
  near_from_shares n (Validator.net_stake_yocto x) (Validator.total_shares x) = Ok (exit_value x n) /\
  0 <= exit_value x n <= Validator.net_stake_yocto x.
Proof.
  intros HI Hf Hv Hn. pose proof (user_within_total c a v x HI Hv). pose proof (net_bounds _ _ _ HI Hf Hv).
  pose proof (fit_validator _ Hf _ _ Hv). apply burn_total; unfold FITS, U128_MAX in *; lia.
Qed.

Lemma internal_unstake_run a v x n e c : Inv c -> fits c -> validators c !! v = Some x ->
  0 < n <= count (user_validator_shares c) (a, v) -> 0 < Validator.net_stake_yocto x ->
  0 <= count (user_pending_unstake_validator_count c) a < U32_MAX -> succeeds (internal_unstake a v n) e c.
Proof.
  intros HI Hf Hv Hn Hnet Hcnt. pose proof (user_within_total c a v x HI Hv). destruct (exit_priced c a v x n HI Hf Hv Hn) as [Hp Hb].
  pose proof (net_bounds _ _ _ HI Hf Hv). pose proof (fit_validator _ Hf _ _ Hv). pose proof (inv_validator _ _ _ HI _ _ Hv) as Hok.
  unfold internal_unstake. ok_step; [apply Z.ltb_lt; lia|]. eapply succeeds_bind; [by apply require_validator_run|]. cbv zeta.
  ok_step; [apply andb_true_intro; split; [apply Z.ltb_lt | apply Z.leb_le]; lia|]. ok_step; [by apply Z.ltb_lt|].
  eapply succeeds_lift; [exact Hp|]. eapply succeeds_lift; [apply checked_op_Ok; unfold validator_ok, FITS, U128_MAX in *; lia|].
  repeat ok_step; [apply Z.leb_le; lia|]. repeat ok_step. apply succeeds_then; [apply set_tranches_run; right; cbn; lia|].
  intros u c1 es _. unfold internal_set_validator. by eexists _, _, _.
Qed.

(** The shares of an active lock are in the account of its owner. *)
Lemma lock_in_nonneg c : Inv c -> forall a v l y, locks c !! l = Some y -> 0 <= lock_in a v y.
Proof. intros HI a v l y Hl. unfold lock_in. case_bool_decide; [|done]. by apply (inv_lock _ _ _ HI) in Hl as [_ ?]. Qed.
Lemma position_in_nonneg c : Inv c -> forall a v k y, farm_positions c !! k = Some y -> 0 <= position_in a v y.
Proof. intros HI a v k y Hk. unfold position_in. case_bool_decide; [|done]. by apply (inv_position _ _ _ HI) in Hk as [_ ?]. Qed.

Lemma lock_within_user c l y : Inv c -> locks c !! l = Some y -> Lock.status y = LockStatus.Active ->
  Lock.shares y <= count (user_validator_shares c) (Lock.account_id y, Lock.validator_id y).
Proof.
  intros HI Hl Hs. rewrite (inv_user _ _ _ HI). unfold none2.
  assert (0 <= farm_shares (farm_positions c) (Lock.account_id y) (Lock.validator_id y))
    by (apply map_sum_nonneg; intros k p Hk; by eapply position_in_nonneg).
  assert (lock_in (Lock.account_id y) (Lock.validator_id y) y <= lock_shares (locks c) (Lock.account_id y) (Lock.validator_id y)) as Hle.
  { apply (map_sum_term_le (fun _ => lock_in (Lock.account_id y) (Lock.validator_id y)) (locks c) l y); [|done]. intros k p Hk. by eapply lock_in_nonneg. }
  unfold lock_in in Hle. rewrite bool_decide_eq_true_2 in Hle by done. lia.
Qed.

Lemma position_within_user c k p : Inv c -> farm_positions c !! k = Some p -> FarmPosition.status p = FarmStatus.Active ->
  FarmPosition.shares p <= count (user_validator_shares c) (FarmPosition.account_id p, FarmPosition.validator_id p).
Proof.
  intros HI Hl Hs. rewrite (inv_user _ _ _ HI). unfold none2.
  assert (0 <= lock_shares (locks c) (FarmPosition.account_id p) (FarmPosition.validator_id p))
    by (apply map_sum_nonneg; intros l y Hy; by eapply lock_in_nonneg).
  assert (position_in (FarmPosition.account_id p) (FarmPosition.validator_id p) p <= farm_shares (farm_positions c) (FarmPosition.account_id p) (FarmPosition.validator_id p)) as Hle.
  { apply (map_sum_term_le (fun _ => position_in (FarmPosition.account_id p) (FarmPosition.validator_id p)) (farm_positions c) k p); [|done].
    intros k' p' Hk. by eapply position_in_nonneg. }
  unfold position_in in Hle. rewrite bool_decide_eq_true_2 in Hle by done. lia.
Qed.

Lemma resolve_unlock_run l y x e c : Inv c -> fits c -> predecessor_account_id e = current_account_id e ->
  locks c !! l = Some y -> Lock.status y = LockStatus.Active -> 0 < Lock.shares y ->
  validators c !! Lock.validator_id y = Some x -> Validator.tx_status x = TransactionStatus.Busy -> 0 < Validator.net_stake_yocto x ->
  0 <= count (user_pending_unstake_validator_count c) (Lock.account_id y) < U32_MAX ->
  succeeds (resolve_unlock l (Lock.account_id y) (Lock.validator_id y) (Lock.shares y)) e c.
Proof.
  intros HI Hf He Hl Hs Hn Hv Hb Hnet Hcnt. unfold resolve_unlock.
  eapply succeeds_bind; [by apply assert_private_run|]. eapply succeeds_bind; [by eapply require_validator_busy_run|].
  eapply succeeds_bind; [unfold require_lock, get_state, lift, mbind, M_bind; cbn; rewrite Hl; reflexivity|].
  do 4 (ok_step; [first [apply String.eqb_refl | by apply bool_decide_eq_true_2 | apply Z.eqb_refl]|]).
  apply succeeds_then; [eapply internal_unstake_run; try done; pose proof (lock_within_user _ _ _ HI Hl Hs); lia|].
  intros near c1 es _. ok_step. unfold internal_set_lock. by eexists _, _, _.
Qed.

(** An exit burns a positive number of shares of a pool that is worth something. *)
Lemma resolve_unlock_priced l a v n e c c' es : resolve_unlock l a v n e c = Ok (tt, c', es) ->
  exists x, validators c !! v = Some x /\ 0 < n /\ 0 < Validator.net_stake_yocto x.
Proof.
  intros H. unfold resolve_unlock in H. m_inv. read.
  match goal with H : require_lock _ _ _ _ = Ok _ |- _ => apply require_lock_inv in H as (_ & -> & ->) end.
  match goal with H : internal_unstake _ _ _ _ _ = Ok _ |- _ => unfold internal_unstake in H; m_inv; read end.
  bool_prop. eauto.
Qed.

(** ** The claim of what is due *)
Abbreviation tranches_of c a v := (default [] (user_pending_unstake c !! (a, v))) (only parsing).

Lemma due_has_tranches c a v h : 0 < tranches_total (due h (tranches_of c a v)) -> has_tranches c (a, v) = true.
Proof.
  unfold has_tranches. destruct (user_pending_unstake c !! (a, v)) as [ts|]; cbn; [|rewrite tranches_total_nil; lia].
  intros H. destruct ts; [cbn in H; rewrite tranches_total_nil in H; lia|]. by rewrite bool_decide_eq_false_2.
Qed.

Lemma payout_run a v x e c : Inv c -> pending_fits c -> validators c !! v = Some x ->
  let amount := tranches_total (due (epoch_height e) (tranches_of c a v)) in
  0 < amount <= Validator.pending_to_claim x -> amount <= account_balance e -> succeeds (payout_user_withdraw a v) e c.
Proof.
  intros HI Hf Hv amount Ha Hb. pose proof (due_exact c a v x (epoch_height e) HI Hf Hv) as Hd. fold amount in Hd.
  assert (Hclaim : exists c' es, claim_from_withdraw_bucket a v e c = Ok (amount, c', es)).
  { assert (succeeds (claim_from_withdraw_bucket a v) e c) as (credit & c' & es & H).
    - pose proof (Hf _ _ Hv). unfold claim_from_withdraw_bucket. eapply succeeds_bind; [by apply require_validator_run|]. cbv zeta.
      repeat (ok_step; try (apply Z.ltb_lt; lia)). apply succeeds_then.
      + unfold remove_claimable_tranches. repeat ok_step. apply succeeds_then; [|intros; apply succeeds_ret].
        apply set_tranches_run. left. apply (due_has_tranches c a v (epoch_height e)). fold amount. lia.
      + intros [credit none] c1 es Hr. unfold remove_claimable_tranches in Hr. m_inv.
        injection R as -> _. fold (due (epoch_height e) (tranches_of c a v)).
        rewrite Hd. repeat (ok_step; [first [apply Z.ltb_lt | apply Z.leb_le]; lia|]).
        eapply succeeds_lift; [apply checked_op_Ok; unfold FITS, U128_MAX in *; lia|].
        eapply succeeds_bind; [reflexivity|]. ok_step. apply succeeds_ret.
    - exists c', es. pose proof (claim_inv _ _ _ _ _ _ _ H) as (x' & counts & _ & Hc & _). by rewrite Hc, Hd in H. }
  destruct Hclaim as (c' & es & H). unfold payout_user_withdraw. eapply succeeds_bind; [exact H|]. ok_step.
  ok_step; [by apply Z.leb_le|]. apply succeeds_ret.
Qed.

Lemma payout_inv a v x e c p c' es : Inv c -> pending_fits c -> validators c !! v = Some x ->
  let ts := tranches_of c a v in let amount := tranches_total (due (epoch_height e) ts) in
  payout_user_withdraw a v e c = Ok (p, c', es) ->
  0 < amount <= Validator.pending_to_claim x /\ amount <= account_balance e /\ p = [TransferTo a amount] /\
  tranches_of c' a v = kept (epoch_height e) ts /\
  (forall k, k <> (a, v) -> user_pending_unstake c' !! k = user_pending_unstake c !! k) /\
  validators c' = <[v := x <| Validator.pending_to_claim := Validator.pending_to_claim x - amount |>]> (validators c).
Proof.
  intros HI Hf Hv. cbv zeta. unfold payout_user_withdraw. intros H. m_inv.
  match goal with H : claim_from_withdraw_bucket _ _ _ _ = Ok _ |- _ => apply claim_inv in H as (x' & counts & Hv' & -> & Hc & _ & ->) end.
  rewrite Hv in Hv'. injection Hv' as <-. rewrite (due_exact c a v x _ HI Hf Hv) in *. bool_prop. cbv zeta. cbn.
  split_and!; try done; try lia.
  - case_bool_decide as Hk; [by rewrite lookup_delete_eq, Hk | by rewrite lookup_insert_eq].
  - intros k Hne. case_bool_decide; [by rewrite lookup_delete_ne | by rewrite lookup_insert_ne].
Qed.

(** The fold of the view. *)
Lemma pending_fold h ts t el n : exists n',
  foldl (pending_step h) (t, el, n) ts =
  (foldl u128_saturating_add t (PendingUnstakeTranche.amount <$> ts),
   foldl u128_saturating_add el (PendingUnstakeTranche.amount <$> due h ts), n').
Proof.
  revert t el n. induction ts as [|x ts IH]; intros t el n; [by exists n|].
  unfold due in *. cbn [foldl pending_step List.filter]. destruct (claimable h x); cbn [foldl fmap list_fmap]; apply IH.
Qed.
