(* ===== verification/StakingCalendar.v ===== *)
(** * The calendar of the subscriptions

    The proleptic Gregorian calendar as the number of the day a month starts
    on ([month_start]). [civil_from_days] and [days_from_civil] are inverse to
    each other, months are added without drift, and the loop that moves a
    billing window to the present ends. *)
From stdpp Require Import base gmap strings list.
From Stdlib Require Import ZArith Lia.
From S2P Require Import Prelude.
From S2P Require Import Near.
From S2P Require Import StakingTypes.
From S2P Require Import StakingMath.

Local Open Scope Z_scope.

(** ** The reference calendar

    Months are numbered from March of the year 0, so that the leap day is the
    last day of a year. *)
Definition year_start (Y : Z) : Z := 365 * Y + Y / 4 - Y / 100 + Y / 400 - 719468.
Definition month_start (n : Z) : Z := year_start (n / 12) + (153 * (n mod 12) + 2) / 5.
Definition month_number (year month : Z) : Z := 12 * year + month - 3.

Lemma quot_div a b : 0 <= a -> 0 < b -> Z.quot a b = a / b.
Proof. intros. by apply Z.quot_div_nonneg. Qed.

Ltac by_division := Z.to_euclidean_division_equations; lia.

Lemma month_number_div y m : 3 <= m <= 12 \/ 1 <= m <= 2 ->
  month_number y m / 12 = (if m <=? 2 then y - 1 else y) /\ month_number y m mod 12 = (if m <=? 2 then m + 9 else m - 3).
Proof. unfold month_number. intros H. destruct (Z.leb_spec m 2); by_division. Qed.

Lemma days_from_civil_start y m d : 1 <= m <= 12 -> days_from_civil y m d = month_start (month_number y m) + d - 1.
Proof.
  intros Hm. unfold month_start, days_from_civil, year_start. destruct (month_number_div y m ltac:(lia)) as [-> ->].
  rewrite (Z.ltb_antisym m 2). destruct (Z.leb_spec m 2); cbn [negb]; rewrite !quot_div by by_division; by_division.
Qed.

(** The months partition the days. *)
Lemma year_length Y : 365 <= year_start (Y + 1) - year_start Y <= 366.
Proof. unfold year_start. by_division. Qed.

Lemma month_split n : n = 12 * (n / 12) + n mod 12 /\ 0 <= n mod 12 < 12.
Proof. pose proof (Z.div_mod n 12). pose proof (Z.mod_pos_bound n 12). lia. Qed.

Lemma month_start_at Y i : 0 <= i < 12 -> month_start (12 * Y + i) = year_start Y + (153 * i + 2) / 5.
Proof. intros Hi. unfold month_start. f_equal; [f_equal; by_division | do 3 f_equal; by_division]. Qed.

Lemma month_length n : 28 <= month_start (n + 1) - month_start n <= 31.
Proof.
  destruct (month_split n) as [E Hi]. set (Y := n / 12) in *. set (i := n mod 12) in *. rewrite E.
  rewrite (month_start_at Y i) by done. destruct (decide (i = 11)) as [->|].
  - replace (12 * Y + 11 + 1) with (12 * (Y + 1) + 0) by lia. rewrite month_start_at by lia. pose proof (year_length Y). by_division.
  - replace (12 * Y + i + 1) with (12 * Y + (i + 1)) by lia. rewrite month_start_at by lia. by_division.
Qed.

Lemma month_start_le n k : 0 <= k -> month_start n + 28 * k <= month_start (n + k) <= month_start n + 31 * k.
Proof.
  intros Hk. pattern k. apply natlike_ind; [|clear k Hk | done].
  - replace (n + 0) with n by lia. lia.
  - intros k Hk IH. replace (n + Z.succ k) with (n + k + 1) by lia. pose proof (month_length (n + k)). lia.
Qed.

Lemma month_unique n m z : month_start n <= z < month_start (n + 1) -> month_start m <= z < month_start (m + 1) -> n = m.
Proof.
  intros Hn Hm. destruct (Z.lt_trichotomy n m) as [L|[E|L]]; [|done|]; exfalso.
  - pose proof (month_start_le (n + 1) (m - (n + 1))). replace (n + 1 + (m - (n + 1))) with m in * by lia. lia.
  - pose proof (month_start_le (m + 1) (n - (m + 1))). replace (m + 1 + (n - (m + 1))) with n in * by lia. lia.
Qed.

(** ** The date of a day *)
Lemma era_of_day doe : 0 <= doe < 146097 ->
  let yoe := (doe - doe / 1460 + doe / 36524 - doe / 146096) / 365 in
  let doy := doe - (365 * yoe + yoe / 4 - yoe / 100) in
  0 <= yoe <= 399 /\ 0 <= doy <= 365 /\
  (doy = 365 -> (yoe + 1) / 4 - yoe / 4 - ((yoe + 1) / 100 - yoe / 100) + (yoe + 1) / 400 = 1).
Proof. intros Hd. cbv zeta. by_division. Qed.

Lemma era_floor z : Z.quot (if 0 <=? z then z else z - 146096) 146097 = z / 146097.
Proof. destruct (Z.leb_spec 0 z); by_division. Qed.

Lemma month_of_year doy : 0 <= doy <= 365 ->
  let mp := (5 * doy + 2) / 153 in
  0 <= mp <= 11 /\ (153 * mp + 2) / 5 <= doy <= (153 * mp + 2) / 5 + 30 /\ (mp < 11 -> doy < (153 * (mp + 1) + 2) / 5) /\
  (mp = 11 -> doy <= 364 + (doy / 365)).
Proof. intros Hd. cbv zeta. by_division. Qed.

Lemma year_start_era era yoe : 0 <= yoe <= 399 ->
  year_start (yoe + era * 400) = era * 146097 + 365 * yoe + yoe / 4 - yoe / 100 - 719468.
Proof. unfold year_start. intros. by_division. Qed.

(** A day lies in the month of its date, at the day of its date. *)
Lemma civil_from_days_spec z y m d : civil_from_days z = (y, m, d) ->
  1 <= m <= 12 /\ 1 <= d <= 31 /\ z = month_start (month_number y m) + d - 1 /\ z < month_start (month_number y m + 1).
Proof.
  unfold civil_from_days. cbv zeta. rewrite era_floor. set (z' := z + 719468). set (era := z' / 146097).
  assert (Hdoe : 0 <= z' - era * 146097 < 146097) by (unfold era; by_division).
  set (doe := z' - era * 146097) in *. destruct (era_of_day doe Hdoe) as (Hy & Hd & Hleap).
  rewrite (quot_div doe 1460), (quot_div doe 36524), (quot_div doe 146096) by lia.
  rewrite (quot_div (doe - _ + _ - _) 365) by by_division.
  set (yoe := (doe - _ + _ - _) / 365) in *. rewrite (quot_div yoe 4), (quot_div yoe 100) by lia.
  set (doy := doe - (365 * yoe + yoe / 4 - yoe / 100)) in *. destruct (month_of_year doy Hd) as (Hm & Hday & Hnext & Hlast).
  rewrite (quot_div (5 * doy + 2) 153) by lia. set (mp := (5 * doy + 2) / 153) in *.
  rewrite (quot_div (153 * mp + 2) 5) by lia. intros E. injection E as Ey Em Ed.
  assert (1 <= m <= 12 /\ month_number y m = 12 * (yoe + era * 400) + mp) as [Hm' En].
  { revert Ey Em. unfold month_number. destruct (Z.ltb_spec mp 10); destruct (Z.leb_spec (mp + 3) 2), (Z.leb_spec (mp + -9) 2); lia. }
  rewrite En, month_start_at, year_start_era by lia. split_and!; try (unfold doy in *; lia).
  destruct (decide (mp = 11)) as [E11|].
  - replace (12 * (yoe + era * 400) + mp + 1) with (12 * (yoe + 1 + era * 400) + 0) by lia. rewrite month_start_at by lia.
    assert (doy < 365 \/ doy = 365) as [Hlt|He] by lia.
    + pose proof (year_length (yoe + era * 400)) as Hl. replace (yoe + era * 400 + 1) with (yoe + 1 + era * 400) in Hl by lia.
      rewrite (year_start_era era yoe) in Hl by lia. change ((153 * 0 + 2) / 5) with 0. unfold doy in *. lia.
    + specialize (Hleap He). unfold year_start. change ((153 * 0 + 2) / 5) with 0. unfold doy in He. clearbody yoe mp. clear - Hy Hleap He. unfold doe, z' in He.
      assert ((yoe + 1 + era * 400) / 4 = (yoe + 1) / 4 + era * 100) by by_division.
      assert ((yoe + 1 + era * 400) / 100 = (yoe + 1) / 100 + era * 4) by by_division.
      assert ((yoe + 1 + era * 400) / 400 = (yoe + 1) / 400 + era) by by_division. lia.
  - replace (12 * (yoe + era * 400) + mp + 1) with (12 * (yoe + era * 400) + (mp + 1)) by lia.
    rewrite month_start_at, year_start_era by lia. unfold doy in *. lia.
Qed.

(** ** Round trips *)
Lemma days_of_date z : let '(y, m, d) := civil_from_days z in days_from_civil y m d = z.
Proof.
  destruct (civil_from_days z) as [[y m] d] eqn:E. apply civil_from_days_spec in E as (Hm & _ & Hz & _).
  rewrite days_from_civil_start by done. lia.
Qed.

Lemma last_day_spec y m : 1 <= m <= 12 ->
  last_day_of_month y m = month_start (month_number y m + 1) - month_start (month_number y m).
Proof.
  intros Hm. assert (Hn : forall i Y, 0 <= i <= 10 -> month_start (12 * Y + i + 1) - month_start (12 * Y + i) = (153 * (i + 1) + 2) / 5 - (153 * i + 2) / 5).
  { intros i Y Hi. rewrite <- Z.add_assoc, !month_start_at by lia. lia. }
  unfold month_number. destruct (decide (m = 2)) as [->|].
  - replace (12 * y + 2 - 3 + 1) with (12 * y + 0) by lia. replace (12 * y + 2 - 3) with (12 * (y - 1) + 11) by lia.
    rewrite !month_start_at by lia. cbn [last_day_of_month]. unfold is_leap_year, year_start.
    destruct (Z.eqb_spec (y mod 4) 0), (Z.eqb_spec (y mod 100) 0), (Z.eqb_spec (y mod 400) 0); cbn; by_division.
  - destruct (decide (m = 1)) as [->|].
    + replace (12 * y + 1 - 3) with (12 * (y - 1) + 10) by lia. by rewrite Hn by lia.
    + replace (12 * y + m - 3) with (12 * y + (m - 3)) by lia. rewrite Hn by lia.
      assert (m = 3 \/ m = 4 \/ m = 5 \/ m = 6 \/ m = 7 \/ m = 8 \/ m = 9 \/ m = 10 \/ m = 11 \/ m = 12) as Hc by lia.
      by repeat (destruct Hc as [-> | Hc]; [reflexivity|]); subst.
Qed.

(** The date of a day is the only valid date of the day. *)
Lemma date_of_days y m d : 1 <= m <= 12 -> 1 <= d <= last_day_of_month y m -> civil_from_days (days_from_civil y m d) = (y, m, d).
Proof.
  intros Hm Hd. rewrite last_day_spec in Hd by done. rewrite days_from_civil_start by done.
  destruct (civil_from_days _) as [[y' m'] d'] eqn:E. apply civil_from_days_spec in E as (Hm' & Hd' & Hz & Hlt).
  assert (En : month_number y' m' = month_number y m) by (eapply month_unique; split; [| exact Hlt | |]; lia).
  rewrite En in *. unfold month_number in En. repeat f_equal; lia.
Qed.

(** ** Adding months *)
Definition DAY : Z := NS_PER_DAY.
Lemma DAY_pos : 0 < DAY.
Proof. done. Qed.
#[global] Opaque DAY.

(** The number of the month a time lies in. *)
Definition month_of (t : Z) : Z := let '(y, m, _) := civil_from_days (t / DAY) in month_number y m.

(** The day of month [n] that a subscription anchored at [anchor] renews on. *)
Definition renewal_day (anchor n : Z) : Z :=
  month_start n + Z.min (Z.max 1 (Z.min anchor 31)) (month_start (n + 1) - month_start n) - 1.

Definition clip (t : Z) : Z := if in_range U64_MAX t then t else U64_MAX.

Lemma clip_id t : 0 <= t <= U64_MAX -> clip t = t.
Proof. intros Ht. unfold clip, in_range. by rewrite (proj2 (Z.leb_le 0 t)), (proj2 (Z.leb_le t U64_MAX)) by lia. Qed.

Lemma month_of_spec t : month_start (month_of t) <= t / DAY < month_start (month_of t + 1).
Proof.
  unfold month_of. destruct (civil_from_days _) as [[y m] d] eqn:E. apply civil_from_days_spec in E. lia.
Qed.
Lemma month_of_unique t n : month_start n <= t / DAY < month_start (n + 1) -> month_of t = n.
Proof. intros H. eapply month_unique; [apply month_of_spec | exact H]. Qed.

Lemma add_months_spec anchor k t : k <> 0 ->
  add_months_stripe_style anchor k t = clip (renewal_day anchor (month_of t + k) * DAY + t mod DAY).
Proof.
  intros Hk. unfold add_months_stripe_style, month_of, clip. rewrite (proj2 (Z.eqb_neq _ _) Hk).
  change NS_PER_DAY with DAY. destruct (civil_from_days _) as [[y m] d] eqn:E.
  apply civil_from_days_spec in E as (Hm & _). cbv zeta. set (i := y * 12 + (m - 1) + k).
  assert (Hi : 1 <= i mod 12 + 1 <= 12) by (pose proof (Z.mod_pos_bound i 12); lia).
  rewrite days_from_civil_start, last_day_spec by done.
  replace (month_number (i / 12) (i mod 12 + 1)) with (month_number y m + k) by (unfold month_number, i; by_division). done.
Qed.

Lemma renewal_in_month anchor n : month_start n <= renewal_day anchor n < month_start (n + 1).
Proof. unfold renewal_day. pose proof (month_length n). lia. Qed.

Lemma renewal_time anchor n t : month_of (renewal_day anchor n * DAY + t mod DAY) = n /\ (renewal_day anchor n * DAY + t mod DAY) mod DAY = t mod DAY.
Proof.
  pose proof DAY_pos. pose proof (Z.mod_pos_bound t DAY). split.
  - apply month_of_unique. rewrite Z.div_add_l by lia. rewrite (Z.div_small (t mod DAY)) by lia. rewrite Z.add_0_r. apply renewal_in_month.
  - rewrite Z.add_comm, Z.mod_add by lia. by apply Z.mod_mod; lia.
Qed.

(** At least a day is added. *)
Lemma renewal_later anchor k t : 0 < k -> t + DAY <= renewal_day anchor (month_of t + k) * DAY + t mod DAY.
Proof.
  intros Hk. pose proof (renewal_in_month anchor (month_of t + k)). pose proof (month_of_spec t). pose proof DAY_pos.
  pose proof (month_start_le (month_of t + 1) (k - 1) ltac:(lia)) as Hl. replace (month_of t + 1 + (k - 1)) with (month_of t + k) in Hl by lia.
  pose proof (Z.div_mod t DAY). nia.
Qed.

(** Months are added one after the other without drift. *)
Lemma add_months_add anchor j k t : 0 < j -> 0 < k -> renewal_day anchor (month_of t + j) * DAY + t mod DAY <= U64_MAX -> 0 <= t ->
  add_months_stripe_style anchor k (add_months_stripe_style anchor j t) = add_months_stripe_style anchor (j + k) t.
Proof.
  intros Hj Hk Hs Ht. rewrite (add_months_spec anchor j t), (add_months_spec anchor (j + k) t) by lia.
  assert (Hpos := renewal_later anchor j t Hj). pose proof DAY_pos.
  rewrite (clip_id (renewal_day anchor (month_of t + j) * DAY + t mod DAY)) by lia.
  rewrite add_months_spec by lia. destruct (renewal_time anchor (month_of t + j) t) as [-> ->]. by rewrite Z.add_assoc.
Qed.

(** The day the months lead to, as a date. *)
Lemma renewal_date anchor k y m : let i := y * 12 + (m - 1) + k in
  civil_from_days (renewal_day anchor (month_number y m + k)) =
  (i / 12, i mod 12 + 1, Z.min (Z.max 1 (Z.min anchor 31)) (last_day_of_month (i / 12) (i mod 12 + 1))).
Proof.
  intros i. assert (Hi : 1 <= i mod 12 + 1 <= 12) by (pose proof (Z.mod_pos_bound i 12); lia).
  assert (En : month_number (i / 12) (i mod 12 + 1) = month_number y m + k) by (unfold month_number, i; by_division).
  pose proof (month_length (month_number y m + k)). pose proof (last_day_spec (i / 12) (i mod 12 + 1) Hi) as El. rewrite En in El.
  rewrite <- date_of_days by lia. rewrite days_from_civil_start, En, El by done. done.
Qed.

Lemma clip_later u x : u <= x -> Z.min U64_MAX u <= clip x <= U64_MAX.
Proof. intros H. unfold clip. destruct (in_range _ _) eqn:E; [unfold in_range in E; bool_prop|]; lia. Qed.

Lemma add_month_later anchor k t : 0 < k -> Z.min U64_MAX (t + DAY) <= add_months_stripe_style anchor k t <= U64_MAX.
Proof. intros Hk. rewrite add_months_spec by lia. apply clip_later, renewal_later, Hk. Qed.

(** ** The billing window

    [add_months_stripe_style] with no month is the start itself, so the [k]-th
    window starts [k] months after the first. *)
Lemma add_months_0 anchor t : add_months_stripe_style anchor 0 t = t.
Proof. reflexivity. Qed.
Lemma clip_below x : clip x < U64_MAX -> clip x = x /\ x <= U64_MAX.
Proof. unfold clip. destruct (in_range _ _) eqn:E; [unfold in_range in E; bool_prop|]; lia. Qed.
#[global] Opaque add_months_stripe_style.

Lemma add_months_succ anchor k start : 0 <= start -> 0 <= k -> add_months_stripe_style anchor k start < U64_MAX ->
  add_months_stripe_style anchor 1 (add_months_stripe_style anchor k start) = add_months_stripe_style anchor (k + 1) start.
Proof.
  intros Hs Hk Hlt. destruct (decide (k = 0)) as [->|]; [by rewrite add_months_0, Z.add_0_l|].
  apply add_months_add; [lia..| |done]. rewrite add_months_spec in Hlt by done. by apply clip_below in Hlt as [_ ?].
Qed.

Lemma window_next anchor k start now : 0 <= start -> 0 <= k -> now < U64_MAX ->
  let s := add_months_stripe_style anchor k start in s <= now \/ k = 0 ->
  Z.min U64_MAX (s + DAY) <= add_months_stripe_style anchor (k + 1) start.
Proof.
  intros Hs Hk Hn. cbv zeta. intros [Hle| ->]; [|rewrite add_months_0; by apply add_month_later].
  rewrite <- add_months_succ by lia. by apply add_month_later.
Qed.

Lemma window_loop_total fuel anchor start k now :
  0 <= start -> 0 <= k -> now < U64_MAX ->
  let s := add_months_stripe_style anchor k start in
  start <= s -> s <= now \/ k = 0 -> (now - s) / DAY + 1 <= Z.of_nat fuel ->
  exists j, k <= j /\
    window_loop fuel anchor s (add_months_stripe_style anchor (k + 1) start) now =
      Some (add_months_stripe_style anchor j start, add_months_stripe_style anchor (j + 1) start) /\
    (add_months_stripe_style anchor j start <= now \/ j = 0) /\ now < add_months_stripe_style anchor (j + 1) start.
Proof.
  intros Hstart Hk Hnow. revert k Hk. induction fuel as [|fuel IH]; intros k Hk s Hs Hle Hf; cbn [window_loop];
    destruct (Z.ltb_spec now (add_months_stripe_style anchor (k + 1) start)) as [Hl|Hl]; try (exists k; split_and!; [lia | done..]).
  all: assert (Hd : s + DAY <= now) by (pose proof (window_next anchor k start now Hstart Hk Hnow Hle); subst s; lia).
  - pose proof (Z.div_le_mono DAY (now - s) DAY DAY_pos ltac:(lia)). rewrite Z.div_same in * by (pose proof DAY_pos; lia). lia.
  - assert (Hend := window_next anchor k start now Hstart Hk Hnow Hle). fold s in Hend.
    destruct (IH (k + 1)) as (j & Hj & E & H); [lia | pose proof DAY_pos; lia | by left | |].
    + pose proof (Z.div_le_mono (now - add_months_stripe_style anchor (k + 1) start) (now - s + (-1) * DAY) DAY DAY_pos ltac:(lia)) as Hdiv.
      rewrite Z.div_add in Hdiv by (pose proof DAY_pos; lia). lia.
    + exists j. split_and!; [lia | | apply H..]. rewrite <- E. f_equal. apply add_months_succ; [done | lia | lia].
Qed.
