(* ===== verification/StakingPipeline.v ===== *)
(** * One pipeline per validator

    A user's action on a pool first marks the validator busy and then runs as
    a chain of promises that ends in a release. Each chain in flight holds the
    tickets of the validators it will release; a validator is busy exactly
    when one ticket is out, so no two actions on a pool overlap, and no
    receipt that holds a ticket can panic, so no validator stays busy for
    ever. *)
From stdpp Require Import base gmap strings list.
From Stdlib Require Import ZArith Lia.
From S2P Require Import Prelude.
From S2P Require Import Near.
From S2P Require Import MerkleTree.
From S2P Require Import StakingTypes.
From S2P Require Import StakingMath.
From S2P Require Import StakingContract.
From S2P Require Import StakingCatalog.
From S2P Require Import StakingEpoch.
From S2P Require Import StakingSubscriptions.
From S2P Require Import StakingLocks.
From S2P Require Import StakingFarm.
From S2P Require Import StakingWorld.
From S2P Require Import StakingBooks.
From S2P Require Import StakingStake.
From S2P Require Import StakingInvariant.
From S2P Require Import StakingTails.
From S2P Require Import StakingCat.
From S2P Require Import StakingReach.
From S2P Require Import StakingExits.

Local Open Scope Z_scope.
Local Open Scope record_scope.

(** ** Busy validators *)
Definition busy_flag (x : Validator.t) : Z := if bool_decide (Validator.tx_status x = TransactionStatus.Busy) then 1 else 0.
Definition busy (c : Contract) (v : ValidatorId) : Z := match validators c !! v with Some x => busy_flag x | None => 0 end.
Definition at_busy (b : ValidatorId -> Z) (c : Contract) : Prop := forall v, busy c v = b v.
Abbreviation same_busy m := (forall b, keeps (at_busy b) m) (only parsing).

Lemma busy_books {A} (m : MS A) : same_books m -> same_busy m.
Proof.
  intros Hm b e c a c' es Hb H v. rewrite <- Hb. unfold busy. apply (same_books_inv _ _ _ _ _ _ Hm) in H.
  unfold books, ledger in H. injection H as -> _. done.
Qed.
#[export] Hint Resolve busy_books : keeps.

Lemma busy_set c v x : busy (c <| validators := <[v := x]> (validators c) |>) v = busy_flag x.
Proof. unfold busy. cbn. by rewrite lookup_insert_eq. Qed.
Lemma busy_set_ne c v x w : v <> w -> busy (c <| validators := <[v := x]> (validators c) |>) w = busy c w.
Proof. intros Hne. unfold busy. cbn. by rewrite lookup_insert_ne. Qed.
Lemma at_busy_write b c c' v x x' : at_busy b c -> validators c !! v = Some x -> validators c' = <[v := x']> (validators c) ->
  Validator.tx_status x' = Validator.tx_status x -> at_busy b c'.
Proof.
  intros Hb Hv E Et w. rewrite <- Hb. unfold busy, busy_flag. rewrite E. destruct (decide (v = w)) as [<-|].
  - by rewrite lookup_insert_eq, Hv, Et.
  - by rewrite lookup_insert_ne.
Qed.
Lemma at_busy_validators b c c' : validators c' = validators c -> at_busy b c -> at_busy b c'.
Proof. intros E Hb v. rewrite <- Hb. unfold busy. by rewrite E. Qed.

(** A computation that writes validators with their status kept. *)
Ltac frame_busy Hb :=
  match goal with
  | H : ?m ?e ?c = Ok (_, ?c', _) |- _ =>
      match type of Hb with at_busy ?b c =>
        let K := fresh "K" in assert (K : keeps (at_busy b) m) by solve [auto with keeps nocore];
        apply (K _ _ _ _ _ Hb) in H; clear K Hb; rename H into Hb end
  end.
Ltac restatus := intros b e c u c' es Hb H; m_all; read; repeat frame_busy Hb; try done; (eapply at_busy_write; [exact Hb | eassumption | reflexivity | done]).

Section same_busy.
Context `{HC : Crypto} `{IS : IdSet}.

Lemma busy_stake a v n : same_busy (internal_stake a v n).
Proof.
intros b e c u c' es Hb H. apply internal_stake_inv in H as (x & Hv & _ & _ & _ & _ & ->).
by eapply at_busy_write; [exact Hb | exact Hv | reflexivity |].
Qed.
Lemma busy_unstake a v n : same_busy (internal_unstake a v n).
Proof.
intros b e c u c' es Hb H. apply internal_unstake_inv in H as (x & counts & h & Hv & _ & _ & _ & _ & _ & _ & _ & ->).
by eapply at_busy_write; [exact Hb | exact Hv | reflexivity |].
Qed.
Lemma busy_claim a v : same_busy (claim_from_withdraw_bucket a v).
Proof.
intros b e c u c' es Hb H. apply claim_inv in H as (x & counts & Hv & _ & _ & _ & ->).
by eapply at_busy_write; [exact Hb | exact Hv | reflexivity |].
Qed.
Lemma busy_mark v a : same_busy (mark_epoch_settlement_handled v a).
Proof. unfold mark_epoch_settlement_handled. restatus. Qed.
Lemma busy_net_zero v n : same_busy (apply_net_zero_pending_matched_clear v n).
Proof. unfold apply_net_zero_pending_matched_clear. restatus. Qed.
Lemma busy_deposit_done v : same_busy (on_deposit_and_stake v).
Proof. unfold on_deposit_and_stake. restatus. Qed.
Lemma busy_unstake_done v : same_busy (on_unstake v).
Proof. unfold on_unstake. restatus. Qed.
Lemma busy_withdraw_done v n : same_busy (on_epoch_withdraw_transfer_done v n).
Proof. unfold on_epoch_withdraw_transfer_done. restatus. Qed.
Lemma busy_pause_validator v : same_busy (pause_validator v).
Proof. unfold pause_validator. restatus. Qed.
Lemma busy_remove_validator v : same_busy (remove_validator v).
Proof. unfold remove_validator. restatus. Qed.
Lemma busy_add_manager r v m a : same_busy (add_validator_catalog_manager_after_get_owner r v m a).
Proof. unfold add_validator_catalog_manager_after_get_owner. restatus. Qed.
Lemma busy_remove_manager r v m a : same_busy (remove_validator_catalog_manager_after_get_owner r v m a).
Proof. unfold remove_validator_catalog_manager_after_get_owner. restatus. Qed.
Lemma busy_add_validator v : same_busy (add_validator v).
Proof.
unfold add_validator. intros b e c u c' es Hb H. m_inv. repeat frame_busy Hb. read.
match goal with B : match ?x with _ => _ end = true |- _ => destruct x eqn:Hv; [done|] end.
intros w. rewrite <- Hb. unfold busy. cbn. destruct (decide (v = w)) as [<-|]; [by rewrite lookup_insert_eq, Hv | by rewrite lookup_insert_ne].
Qed.

(** Everything else does not touch a validator. *)
Ltac untouched := intros b; keeps_walk; try (eapply at_busy_validators; [|eassumption]; reflexivity).
Lemma busy_set_lock l x : same_busy (internal_set_lock l x).
Proof. unfold internal_set_lock. untouched. Qed.
Lemma busy_set_position p : same_busy (internal_set_farm_position p).
Proof. unfold internal_set_farm_position. untouched. Qed.
Lemma busy_set_pool id l : same_busy (internal_set_farm_pool id l).
Proof. unfold internal_set_farm_pool. untouched. Qed.
Lemma busy_set_account a x : same_busy (internal_set_account a x).
Proof. unfold internal_set_account. untouched. Qed.
#[local] Hint Resolve busy_stake busy_unstake busy_claim busy_mark busy_net_zero busy_set_lock busy_set_position busy_set_pool
busy_set_account : keeps.
Lemma busy_settle_pool id : same_busy (settle_farm_pool id).
Proof. unfold settle_farm_pool. untouched. Qed.
#[local] Hint Resolve busy_settle_pool : keeps.
Lemma busy_settle_position a q : same_busy (settle_farm_position a q).
Proof. unfold settle_farm_position. untouched. Qed.
#[local] Hint Resolve busy_settle_position : keeps.
Lemma busy_sync s : same_busy (sync_subscription_lock_window s).
Proof. unfold sync_subscription_lock_window. untouched. Qed.
#[local] Hint Resolve busy_sync : keeps.
Lemma busy_decrease a s t : same_busy (apply_scheduled_stake_decrease_at_renewal a s t).
Proof. unfold apply_scheduled_stake_decrease_at_renewal. untouched. Qed.
#[local] Hint Resolve busy_decrease : keeps.

Lemma busy_resolve_unlock l a v n : same_busy (resolve_unlock l a v n).
Proof. unfold resolve_unlock. untouched. Qed.
Lemma busy_commit_lock a n d o v f : same_busy (commit_catalog_lock a n d o v f).
Proof. unfold commit_catalog_lock. untouched. Qed.
#[local] Hint Resolve busy_commit_lock : keeps.
Lemma busy_resolve_lock a n d o v : same_busy (resolve_lock a n d o v).
Proof. unfold resolve_lock. untouched. Qed.
Lemma busy_apply_due id : same_busy (apply_due_subscription_update id).
Proof. unfold apply_due_subscription_update. untouched. Qed.
#[local] Hint Resolve busy_apply_due : keeps.
Lemma busy_recurring a p q : same_busy (resolve_recurring_subscription a p q).
Proof. unfold resolve_recurring_subscription. untouched. Qed.
#[local] Hint Resolve busy_recurring : keeps.
Lemma busy_recurring_lock a n p v : same_busy (resolve_recurring_subscription_lock_after_settle a n p v).
Proof. unfold resolve_recurring_subscription_lock_after_settle, commit_recurring_subscription_lock_after_settle. untouched. Qed.
Lemma busy_update_inputs a p t id x : same_busy (checked_subscription_update_inputs a p t id x).
Proof. intros b e c i c' es Hb H. by apply checked_inputs_inv in H as (-> & _). Qed.
#[local] Hint Resolve busy_update_inputs : keeps.
Lemma busy_subscription_update a n p t id v : same_busy (on_subscription_update_after_settle a n p t id v).
Proof. unfold on_subscription_update_after_settle, commit_subscription_update_after_settle. untouched. Qed.
Lemma busy_farm_stake a n q p v : same_busy (resolve_farm_stake a n q p v).
Proof. unfold resolve_farm_stake, commit_farm_stake. untouched. Qed.
Lemma busy_farm_unstake a q v n : same_busy (resolve_farm_unstake a q v n).
Proof. unfold resolve_farm_unstake, commit_farm_unstake. untouched. Qed.
Lemma busy_payout a v : same_busy (payout_user_withdraw a v).
Proof. unfold payout_user_withdraw. untouched. Qed.
#[local] Hint Resolve busy_payout : keeps.
Lemma busy_payout_tail a v : same_busy (on_withdraw_user_transfer_after_settle a v).
Proof. unfold on_withdraw_user_transfer_after_settle. untouched. Qed.
Lemma busy_pay p q n : same_busy (pay p q n).
Proof. unfold pay, add_revenue_to_validator. untouched. Qed.
Lemma busy_withdraw_revenue r v a : same_busy (withdraw_revenue_after_get_owner r v a).
Proof. unfold withdraw_revenue_after_get_owner. untouched. Qed.
Lemma busy_create_price r q n d x ty pe f m a : same_busy (create_price_after_get_owner r q n d x ty pe f m a).
Proof. unfold create_price_after_get_owner. untouched. Qed.
Lemma busy_edit_price r p n d m a : same_busy (edit_price_after_get_owner r p n d m a).
Proof. unfold edit_price_after_get_owner. untouched. Qed.
Lemma busy_delete_price r p a : same_busy (delete_price_after_get_owner r p a).
Proof. unfold delete_price_after_get_owner. untouched. Qed.
Lemma busy_storage_deposit a o : same_busy (storage_deposit a o).
Proof. unfold storage_deposit. untouched. Qed.
Lemma busy_storage_withdraw n : same_busy (storage_withdraw n).
Proof. unfold storage_withdraw. untouched. Qed.
Lemma busy_storage_unregister f : same_busy (storage_unregister f).
Proof. unfold storage_unregister. untouched. Qed.
Lemma busy_cancel id : same_busy (cancel_subscription id).
Proof. unfold cancel_subscription. untouched. Qed.
Lemma busy_resume id : same_busy (resume_subscription id).
Proof. unfold resume_subscription. untouched. Qed.
End same_busy.
#[export] Hint Resolve busy_claim busy_stake busy_unstake busy_set_lock busy_set_position busy_set_pool busy_set_account busy_settle_pool
  busy_settle_position busy_sync busy_decrease busy_apply_due busy_payout busy_mark busy_net_zero busy_deposit_done busy_unstake_done busy_withdraw_done busy_pause_validator
  busy_remove_validator busy_add_manager busy_remove_manager busy_add_validator busy_resolve_unlock busy_resolve_lock
  busy_recurring_lock busy_update_inputs busy_subscription_update busy_farm_stake busy_farm_unstake busy_payout_tail busy_pay
  busy_withdraw_revenue busy_create_price busy_edit_price busy_delete_price busy_storage_deposit busy_storage_withdraw
  busy_storage_unregister busy_cancel busy_resume : keeps.

#[export] Hint Resolve same_create_product same_edit_product same_archive_product same_delete_product same_unarchive_product
  same_set_product_default_price same_archive_price same_unarchive_price : keeps.

(** ** Tickets *)
Definition ticket_call (x : SelfCall) : option ValidatorId :=
  match x with
  | OnEpochSettlementAfterPoolAccount v _ | OnAfterPoolWithdrawMaybeSettle v _ => Some v
  | OnEpochSettlementDispatchContinue k => Some (UserAction.validator_id k)
  | OnEpochPipelineTerminalRelease v | OnEpochPipelineReleaseWithLockId v _ | OnEpochPipelineReleaseWithFarmPosition v _
  | OnEpochPipelineReleaseWithSubscriptionUpdateOutcome v _ => Some v
  | _ => None
  end.
Definition one (v w : ValidatorId) : Z := if bool_decide (v = w) then 1 else 0.
Definition tickets_of (o : option ValidatorId) (w : ValidatorId) : Z := match o with Some v => one v w | None => 0 end.
Definition step_tickets (w : ValidatorId) (s : PStep) : Z := match s with CallSelf x _ => tickets_of (ticket_call x) w | _ => 0 end.
Definition tickets (w : ValidatorId) (p : Promise) : Z := list_sum_Z (step_tickets w) p.
Definition in_flight (w : ValidatorId) (l : list Chain) : Z := list_sum_Z (fun x => tickets w (steps x)) l.

(** A call on a pool is on the pool of its action, and a release that may
    refund has something to refund. *)
Definition tidy_call (x : SelfCall) : Prop :=
  match x with
  | OnEpochSettlementAfterPoolAccount v k | OnAfterPoolWithdrawMaybeSettle v k => UserAction.validator_id k = v
  | OnEpochPipelineReleaseWithLockId _ k | OnEpochPipelineReleaseWithFarmPosition _ k
  | OnEpochPipelineReleaseWithSubscriptionUpdateOutcome _ k => is_Some (UserAction.payable_refund k)
  | _ => True
  end.
Definition tidy (s : PStep) : Prop := match s with CallSelf x _ => tidy_call x | _ => True end.

(** How many receipts a step may still lead to. *)
Definition weight_call (x : SelfCall) : Z :=
  match x with
  | OnEpochSettlementAfterPoolAccount _ _ => 13
  | OnAfterPoolWithdrawMaybeSettle _ _ => 9
  | OnEpochSettlementDispatchContinue _ => 5
  | _ => 2
  end.
Definition weight_step (s : PStep) : Z := match s with CallSelf x _ => weight_call x | _ => 1 end.
Definition weight (p : Promise) : Z := list_sum_Z weight_step p.

(** ** What a computation does to the tickets

    [balanced pr e t m]: [m], run by a receipt that holds the tickets [t] of
    busy validators, leaves as many validators busy as it issues tickets in
    the promise [pr] of its result. *)
Definition balanced {A} (pr : A -> Promise) (e : Env) (t : ValidatorId -> Z) (m : MS A) : Prop :=
  forall c a c' es, (forall v, t v <= busy c v) -> m e c = Ok (a, c', es) -> forall v, busy c' v + t v = busy c v + tickets v (pr a).

Section balanced.
Context {A : Type} (pr : A -> Promise) (e : Env) (t : ValidatorId -> Z).

Lemma balanced_bind {B} (m : MS B) (f : B -> MS A) : same_busy m -> (forall b, balanced pr e t (f b)) -> balanced pr e t (mbind f m).
Proof.
intros Hm Hf c a c' es Ht H v. apply bindM_Ok_inv in H as (b & c1 & es1 & es2 & H1 & H2 & ->).
assert (at_busy (busy c) c1) as Hc1 by (by eapply Hm; [|exact H1]). rewrite <- (Hc1 v).
eapply Hf; [|exact H2]. intros w. rewrite Hc1. apply Ht.
Qed.
Lemma balanced_ret a : (forall v, tickets v (pr a) = t v) -> balanced pr e t (mret a).
Proof. intros Ha c b c' es Ht H v. m_inv. rewrite Ha. done. Qed.
Lemma balanced_panic msg : balanced pr e t (panicM msg).
Proof. intros c b c' es Ht H v. done. Qed.
Lemma balanced_map {B} (pr' : B -> Promise) (f : A -> B) m : (forall a, pr' (f a) = pr a) -> balanced pr e t m -> balanced pr' e t (a ← m; mret (f a)).
Proof. intros Hf Hm c b c' es Ht H v. apply bindM_Ok_inv in H as (a & c1 & es1 & es2 & H1 & H2 & ->). m_inv. rewrite Hf. by eapply Hm. Qed.
Lemma balanced_frame m : same_busy m -> yields e (fun a => forall v, tickets v (pr a) = 0) m -> balanced pr e (fun _ => 0) m.
Proof.
intros Hm Hy c a c' es _ H v. rewrite (Hy _ _ _ _ H). rewrite (Hm (busy c) _ _ _ _ _ (fun _ => eq_refl) H v). lia.
Qed.
End balanced.

Definition promise_of {A} (x : PromiseOrValue A) : Promise := match x with Value _ => [] | Returned p => p end.
Abbreviation self p := (p : Promise) (only parsing).
Definition no_tickets : ValidatorId -> Z := fun _ => 0.

Lemma tickets_app v p q : tickets v (p ++ q) = tickets v p + tickets v q.
Proof. apply list_sum_Z_app. Qed.
Lemma one_same v : one v v = 1.
Proof. unfold one. by rewrite bool_decide_eq_true_2. Qed.

Lemma dispatch_tickets k v : tickets v (on_epoch_settlement_dispatch_continue k) = one (UserAction.validator_id k) v.
Proof. unfold on_epoch_settlement_dispatch_continue, then_, tickets. destruct k; cbn; unfold one; lia. Qed.

Lemma release_busy v e c u c' es : release_validator_pool_pipeline v e c = Ok (u, c', es) -> 1 <= busy c v ->
  forall w, busy c' w + one v w = busy c w.
Proof.
  unfold release_validator_pool_pipeline. intros H Ht w. m_inv. read. unfold one. case_bool_decide as D.
  - subst w. rewrite busy_set. unfold busy, busy_flag in *. rewrite Hv in *. cbn. case_bool_decide; [done|]. case_bool_decide; lia.
  - rewrite busy_set_ne by done. lia.
Qed.
Lemma release_balanced {A} (pr : A -> Promise) e v a : (forall w, tickets w (pr a) = 0) ->
  balanced pr e (one v) (release_validator_pool_pipeline v ;; mret a).
Proof.
  intros Ha c b c' es Ht H w. m_inv. rewrite Ha. specialize (Ht v). rewrite one_same in Ht.
  match goal with E : release_validator_pool_pipeline _ _ _ = Ok _ |- _ => apply release_busy with (w := w) in E; lia end.
Qed.

(** ** Entries *)
Lemma settlement_balanced e v k : UserAction.validator_id k = v ->
  balanced (fun p => p) e no_tickets (promise_validator_per_epoch_settlement_then v k).
Proof.
  intros Hk c p c' es _ H w. unfold promise_validator_per_epoch_settlement_then, promise_get_validator_pool_account in H.
  assert (Hp : tickets w p = one v w /\ exists x, validators c !! v = Some x /\ Validator.tx_status x = TransactionStatus.Idle /\
    c' = c <| validators := <[v := x <| Validator.tx_status := TransactionStatus.Busy |>]> (validators c) |>).
  { m_all; read; (split; [|by eexists]); [by rewrite dispatch_tickets, Hk | unfold tickets, then_; cbn; lia]. }
  destruct Hp as (-> & x & Hv & Hx & ->). unfold no_tickets, one. case_bool_decide as D.
  - subst w. rewrite busy_set. unfold busy, busy_flag. rewrite Hv, Hx. done.
  - rewrite busy_set_ne by done. lia.
Qed.

Create HintDb balanced discriminated.
#[export] Hint Resolve settlement_balanced : balanced.
Ltac same_busy_solve := solve [intros ?; keeps_walk; try (eapply at_busy_validators; [|eassumption]; reflexivity)].
Ltac balanced_step :=
  match goal with
  | |- balanced _ _ _ (mret _) => apply balanced_ret
  | |- balanced _ _ _ (panicM _) => apply balanced_panic
  | |- balanced _ _ _ (if ?b then _ else _) => destruct b
  | |- balanced _ _ _ (match ?x with _ => _ end) => destruct x
  | |- balanced _ _ _ (let _ := _ in _) => cbv zeta
  | |- balanced _ _ _ _ => solve [auto with balanced nocore]
  | |- balanced _ _ _ (mbind _ _) => apply balanced_bind; [same_busy_solve|intro]
  end.
Ltac balanced_walk := repeat balanced_step.

Section entries.
Context `{HC : Crypto} `{IS : IdSet} (e : Env).

Lemma alone_balanced {A} (m : MS A) : same_busy m -> balanced (fun p => p) e no_tickets (alone m).
Proof. intros Hm. unfold alone. apply balanced_bind; [done|]. intro. by apply balanced_ret. Qed.

Lemma exec_balanced x : balanced (fun p => p) e no_tickets (exec x).
Proof.
destruct x; cbn [exec]; try (apply alone_balanced;
unfold pause, unpause, propose_new_owner_account_id, accept_ownership, set_guardians, set_per_lock_storage_stake,
set_per_farm_position_storage_stake, set_per_purchase_storage_stake, set_lock_bounds, set_min_lock_amount,
set_min_storage_deposit, set_epoch_unstake_settle_epochs, assert_owner_payable; same_busy_solve);
unfold add_validator_catalog_manager,
remove_validator_catalog_manager, create_product, edit_product, archive_product, delete_product, unarchive_product,
set_product_default_price, create_price, edit_price, archive_price, unarchive_price, delete_price,
promise_catalog_admin_on_pool, promise_catalog_admin_on_product, promise_catalog_admin_on_price, promise_pool_get_owner_id_then, withdraw_revenue,
StakingLocks.lock, lock_with_price_id, lock_entry_preamble, lock_one_off_with_catalog, lock_recurring_subscription_with_catalog,
unlock, StakingLocks.withdraw, epoch_settle, stake, unstake, update_subscription; balanced_walk; try done; by apply settlement_balanced.
Qed.
End entries.

(** ** Callbacks *)
Section callbacks.
Context `{HC : Crypto} `{IS : IdSet} (e : Env).

Lemma try_epoch_balanced v k : UserAction.validator_id k = v -> balanced (fun p => p) e (one v) (try_epoch_stake_or_unstake v k).
Proof.
intros Hk. unfold try_epoch_stake_or_unstake. balanced_walk; intros w; rewrite ?dispatch_tickets, ?Hk; try done;
unfold tickets, then_; cbn; rewrite Hk; lia.
Qed.
Lemma refund_balanced v a n : balanced (fun p => p) e (one v) (refund_payable_pipeline v a n).
Proof.
intros c p c' es Ht H w. unfold refund_payable_pipeline in H. m_inv. read. specialize (Ht v). rewrite one_same in Ht.
match goal with E : release_validator_pool_pipeline _ _ _ = Ok _ |- _ => apply release_busy with (w := w) in E; [|done] end.
unfold tickets. cbn. lia.
Qed.
Lemma after_account_balanced r v k : UserAction.validator_id k = v ->
balanced (fun p => p) e (one v) (on_epoch_settlement_after_pool_account r v k).
Proof.
intros Hk c p c' es Ht H w. unfold on_epoch_settlement_after_pool_account, try_epoch_withdraw_known_unstaked in H. m_inv. destruct r as [view|].
- m_inv. read. match goal with E : _ e ?c1 = Ok (p, c', _) |- _ => assert (at_busy (busy c) c1) as Hb
by (eapply at_busy_write; [by intros x | eassumption | reflexivity | done]); set (c1' := c1) in *; clearbody c1' end.
destruct (_ && _); m_inv; read.
+ rewrite Hb. unfold tickets, then_, promise_epoch_withdraw_unstaked. cbn. lia.
+ rewrite <- Hb. eapply try_epoch_balanced; [done | | eassumption]. intros x. rewrite Hb. apply Ht.
- destruct (UserAction.payable_refund k) as [[a n]|].
+ by eapply refund_balanced.
+ m_inv. read. unfold tickets. cbn. lia.
Qed.
Lemma maybe_settle_balanced r v k : UserAction.validator_id k = v ->
balanced promise_of e (one v) (on_after_pool_withdraw_maybe_settle r v k).
Proof.
intros Hk. unfold on_after_pool_withdraw_maybe_settle. do 3 (apply balanced_bind; [same_busy_solve|intro]).
destruct r as [[]|]; [eapply balanced_map; [|by apply try_epoch_balanced]; done|..];
(apply balanced_bind; [same_busy_solve|intro]; apply balanced_ret; intros w; cbn [promise_of]; by rewrite dispatch_tickets, Hk).
Qed.

Lemma release_with_balanced {A} (r : option A) v k msg1 msg2 :
balanced promise_of e (one v)
(assert_private ;;
match r with
| Some a => release_validator_pool_pipeline v ;; mret (Value a)
| None =>
log_epoch msg1 v ;;
'(buyer, amount) ← lift (expect (UserAction.payable_refund k) msg2);
p ← refund_payable_pipeline v buyer amount;
mret (Returned p)
end).
Proof.
apply balanced_bind; [same_busy_solve|intro]. destruct r as [a|]; [by apply release_balanced|].
do 2 (apply balanced_bind; [same_busy_solve|intro]). destruct b1 as [buyer amount]. eapply balanced_map; [|apply refund_balanced]. done.
Qed.

(** The tickets of the receipt that runs a call. *)
Definition held (x : SelfCall) : ValidatorId -> Z := tickets_of (ticket_call x).

Lemma giving_balanced {A} (f : A -> Answer) m : same_busy m -> balanced promise_of e no_tickets (giving f m).
Proof. intros Hm. unfold giving. apply balanced_bind; [done|]. intro. by apply balanced_ret. Qed.
Lemma returning_balanced t m : balanced (fun p => p) e t m -> balanced promise_of e t (returning m).
Proof. intros Hm. unfold returning. by eapply balanced_map; [|exact Hm]. Qed.
Lemma mapping_balanced {A} t (f : A -> Answer) m : balanced promise_of e t m -> balanced promise_of e t (mapping f m).
Proof. intros Hm. unfold mapping. eapply balanced_map; [|exact Hm]. by intros []. Qed.

Lemma run_balanced x r : tidy_call x -> balanced promise_of e (held x) (run_self_call x r).
Proof.
intros Hx. destruct x; cbn [run_self_call tidy_call] in *; try (apply giving_balanced; same_busy_solve).
- by apply returning_balanced, after_account_balanced.
- by apply mapping_balanced, maybe_settle_balanced.
- apply returning_balanced. balanced_walk. intros w. apply dispatch_tickets.
- apply returning_balanced. unfold on_withdraw_user_transfer_after_settle, payout_user_withdraw. balanced_walk. done.
- intros c a c' es Ht H w. unfold giving, on_epoch_pipeline_terminal_release in H. m_inv.
unfold held in Ht. cbn in Ht |- *. specialize (Ht v). rewrite one_same in Ht.
match goal with E : release_validator_pool_pipeline _ _ _ = Ok _ |- _ => apply release_busy with (w := w) in E; [|done] end.
unfold held, tickets. cbn. lia.
- apply mapping_balanced, release_with_balanced.
- apply mapping_balanced, release_with_balanced.
- apply mapping_balanced, release_with_balanced.
- apply returning_balanced, balanced_frame; [same_busy_solve|]. unfold withdraw_revenue_after_get_owner. yields_walk. done.
Qed.
End callbacks.

(** ** Chains stay tidy and get shorter *)
Definition short (n : Z) (p : Promise) : Prop := Forall tidy p /\ weight p <= n.

Lemma weight_app p q : weight (p ++ q) = weight p + weight q.
Proof. apply list_sum_Z_app. Qed.
Lemma short_le n m p : n <= m -> short n p -> short m p.
Proof. unfold short. intros ? []. split; [done | lia]. Qed.
Lemma short_app n m p q : short n p -> short m q -> short (n + m) (p ++ q).
Proof. intros [H1 H2] [H3 H4]. split; [by apply Forall_app | rewrite weight_app; lia]. Qed.

Ltac by_short := split; [cbn; repeat (apply Forall_cons; split; [done|]); done | by cbv].

Lemma dispatch_short k : short 4 (on_epoch_settlement_dispatch_continue k).
Proof. unfold on_epoch_settlement_dispatch_continue, then_. destruct k; split; cbn; repeat constructor; cbn; eauto; by cbv. Qed.

Section short.
Context `{HC : Crypto} `{IS : IdSet} (e : Env).

Lemma try_epoch_short v k : yields e (short 8) (try_epoch_stake_or_unstake v k).
Proof.
assert (H := short_le 4 8 _ ltac:(lia) (dispatch_short k)). unfold try_epoch_stake_or_unstake, then_. yields_walk; try done; by_short.
Qed.
Lemma settlement_short v k : UserAction.validator_id k = v -> yields e (short 14) (promise_validator_per_epoch_settlement_then v k).
Proof.
intros Hk. assert (H := short_le 4 14 _ ltac:(lia) (dispatch_short k)).
unfold promise_validator_per_epoch_settlement_then, promise_get_validator_pool_account, then_.
apply yields_bind. intro. apply yields_asks. apply yields_bind. intro. destruct (negb _); [by apply yields_ret|].
apply (yields_post e (short 1)); [yields_walk; by_short|]. intros p Hp. apply yields_ret. apply (short_app 1 13); [done|].
by_short.
Qed.
Lemma after_account_short r v k : UserAction.validator_id k = v -> yields e (short 12) (on_epoch_settlement_after_pool_account r v k).
Proof.
intros Hk. unfold on_epoch_settlement_after_pool_account, try_epoch_withdraw_known_unstaked, promise_epoch_withdraw_unstaked, refund_payable_pipeline, then_.
apply yields_bind. intro. destruct r as [view|].
- apply yields_bind. intro x. apply yields_bind. intro. apply yields_asks. apply yields_bind. intro. cbv zeta. destruct (_ && _).
+ apply (yields_post e (short 3)); [yields_walk; by_short|]. intros p Hp. apply yields_ret. apply (short_app 3 9); [done|].
by_short.
+ intros c p c' es H. eapply short_le; [|by eapply try_epoch_short]. lia.
- destruct (UserAction.payable_refund k) as [[]|]; yields_walk; by_short.
Qed.

Definition shorter (n : Z) (x : PromiseOrValue Answer) : Prop := short n (promise_of x).

Lemma giving_short {A} n (f : A -> Answer) m : 0 <= n -> yields e (shorter n) (giving f m).
Proof. intros Hn. unfold giving. yields_walk. split; [done | cbn; lia]. Qed.
Lemma returning_short n m : yields e (short n) m -> yields e (shorter n) (returning m).
Proof. intros Hm. unfold returning. eapply yields_post; [exact Hm|]. intros p Hp. by apply yields_ret. Qed.
Lemma mapping_short {A} n (f : A -> Answer) m : yields e (fun x => short n (promise_of x)) m -> yields e (shorter n) (mapping f m).
Proof. intros Hm. unfold mapping. eapply yields_post; [exact Hm|]. intros [] Hp; by apply yields_ret. Qed.
Lemma refund_short v a n : yields e (short 1) (refund_payable_pipeline v a n).
Proof. unfold refund_payable_pipeline. yields_walk. by_short. Qed.
Lemma returned_refund_short {A} v a n : yields e (fun x : PromiseOrValue A => short 1 (promise_of x)) (p ← refund_payable_pipeline v a n; mret (Returned p)).
Proof. eapply yields_post; [apply refund_short|]. intros p Hp. by apply yields_ret. Qed.
#[local] Hint Resolve returned_refund_short : yields.

Lemma run_short x r : tidy_call x -> yields e (shorter (weight_call x - 1)) (run_self_call x r).
Proof.
intros Hx. destruct x; cbn [run_self_call tidy_call weight_call] in *; try (by apply giving_short);
first [apply returning_short | apply mapping_short].
- by apply after_account_short.
- unfold on_after_pool_withdraw_maybe_settle. do 3 (apply yields_bind; intro). assert (H := short_le 4 8 _ ltac:(lia) (dispatch_short cont)).
destruct (answer_bool r) as [[]|]; [eapply yields_post; [apply try_epoch_short|]; intros p Hp; by apply yields_ret|..]; yields_walk; done.
- yields_walk. apply dispatch_short.
- unfold on_withdraw_user_transfer_after_settle, payout_user_withdraw. yields_walk. by_short.
- unfold on_epoch_pipeline_release_with_lock_id. yields_walk; by_short.
- unfold on_epoch_pipeline_release_with_farm_position. yields_walk; by_short.
- unfold on_epoch_pipeline_release_with_subscription_update_outcome. yields_walk; by_short.
- unfold withdraw_revenue_after_get_owner. yields_walk. by_short.
Qed.

Lemma exec_short x : yields e (short 14) (exec x).
Proof.
destruct x; cbn [exec]; unfold alone; try (yields_walk; by_short);
unfold add_validator_catalog_manager,
remove_validator_catalog_manager, create_product, edit_product, archive_product, delete_product, unarchive_product,
set_product_default_price, create_price, edit_price, archive_price, unarchive_price, delete_price,
promise_catalog_admin_on_pool, promise_catalog_admin_on_product, promise_catalog_admin_on_price, promise_pool_get_owner_id_then, withdraw_revenue, then_,
StakingLocks.lock, lock_with_price_id, lock_one_off_with_catalog, lock_recurring_subscription_with_catalog,
unlock, StakingLocks.withdraw, epoch_settle, stake, unstake, update_subscription; yields_walk;
first [by_short | by apply settlement_short].
Qed.
End short.

(** ** Receipts that hold a ticket do not panic *)
Lemma busy_validator c v : 1 <= busy c v -> exists x, validators c !! v = Some x /\ Validator.tx_status x = TransactionStatus.Busy.
Proof. unfold busy, busy_flag. destruct (validators c !! v) as [x|]; [|lia]. case_bool_decide; [eauto | lia]. Qed.

Lemma assert_busy_run x msg e c : Validator.tx_status x = TransactionStatus.Busy -> assert_validator_busy x msg e c = Ok (tt, c, []).
Proof. intros H. unfold assert_validator_busy. rewrite H. done. Qed.
Lemma set_validator_run id v e c : internal_set_validator id v e c = Ok (tt, c <| validators := <[id := v]> (validators c) |>, []).
Proof. done. Qed.
Lemma log_epoch_run a v e c : log_epoch a v e c = Ok (tt, c, [SEvent (log_epoch_operation a v)]).
Proof. done. Qed.

Lemma release_run v x e c : validators c !! v = Some x -> succeeds (release_validator_pool_pipeline v) e c.
Proof. intros Hv. unfold release_validator_pool_pipeline. eapply succeeds_bind; [by apply require_validator_run|]. by eexists _, _, _. Qed.
Lemma refund_run v a n x e c : validators c !! v = Some x -> succeeds (refund_payable_pipeline v a n) e c.
Proof.
  intros Hv. unfold refund_payable_pipeline. apply succeeds_then; [by eapply release_run|]. intros u c1 es _.
  eapply succeeds_bind; [apply log_epoch_run|]. apply succeeds_ret.
Qed.
Lemma mark_run v a x e c : validators c !! v = Some x -> succeeds (mark_epoch_settlement_handled v a) e c.
Proof.
  intros Hv. unfold mark_epoch_settlement_handled. eapply succeeds_bind; [by apply require_validator_run|]. ok_step.
  eapply succeeds_bind; [apply set_validator_run|]. by eexists _, _, _.
Qed.
Lemma net_zero_run v n x e c : validators c !! v = Some x -> succeeds (apply_net_zero_pending_matched_clear v n) e c.
Proof.
  intros Hv. unfold apply_net_zero_pending_matched_clear. eapply succeeds_bind; [by apply require_validator_run|]. ok_step.
  destruct (_ || _); [eapply succeeds_bind; [apply log_epoch_run|]; apply succeeds_ret|].
  eapply succeeds_bind; [apply set_validator_run|]. apply succeeds_ret.
Qed.
Lemma try_epoch_run v k x e c : validators c !! v = Some x -> Validator.tx_status x = TransactionStatus.Busy ->
  succeeds (try_epoch_stake_or_unstake v k) e c.
Proof.
  intros Hv Hb. unfold try_epoch_stake_or_unstake. eapply succeeds_bind; [by apply require_validator_run|].
  eapply succeeds_bind; [by apply assert_busy_run|]. repeat ok_step.
  destruct (negb _ || negb _); [|destruct (_ && _); [|destruct (_ <? _); [|destruct (_ && _)]]].
  - destruct (_ && _); (apply succeeds_then; [|intros; apply succeeds_ret]); [by eapply mark_run | apply succeeds_ret].
  - eapply succeeds_bind; [apply log_epoch_run|]. apply succeeds_then; [by eapply net_zero_run|]. intros. apply succeeds_ret.
  - eapply succeeds_bind; [apply log_epoch_run|]. apply succeeds_ret.
  - apply succeeds_then; [by eapply mark_run|]. intros. apply succeeds_ret.
  - eapply succeeds_bind; [apply log_epoch_run|]. apply succeeds_ret.
Qed.

Section progress.
Context `{HC : Crypto} `{IS : IdSet} (e : Env) (He : predecessor_account_id e = current_account_id e).
Ltac private := eapply succeeds_bind; [by apply assert_private_run|].

Lemma after_account_run r v k x c : validators c !! v = Some x -> Validator.tx_status x = TransactionStatus.Busy ->
succeeds (on_epoch_settlement_after_pool_account r v k) e c.
Proof.
intros Hv Hb. unfold on_epoch_settlement_after_pool_account. private. destruct r as [view|].
- eapply succeeds_bind; [by apply require_validator_run|]. eapply succeeds_bind; [by apply assert_busy_run|]. ok_step.
eapply succeeds_bind; [apply set_validator_run|]. cbv zeta. destruct (_ && _) eqn:E.
+ apply andb_prop in E as [E1 E2]. unfold try_epoch_withdraw_known_unstaked. rewrite E1, E2.
apply succeeds_then; [|intros; apply succeeds_ret]. do 2 (apply succeeds_require; [done|]).
eapply succeeds_bind; [apply log_epoch_run|]. eapply succeeds_bind; [apply require_validator_run; cbn; apply lookup_insert_eq|].
eapply succeeds_bind; [by apply assert_busy_run|]. apply succeeds_ret.
+ eapply try_epoch_run; [cbn; apply lookup_insert_eq | done].
- destruct (UserAction.payable_refund k) as [[]|]; [by eapply refund_run|].
eapply succeeds_bind; [apply log_epoch_run|]. apply succeeds_ret.
Qed.
Lemma maybe_settle_run r v k x c : validators c !! v = Some x -> Validator.tx_status x = TransactionStatus.Busy ->
succeeds (on_after_pool_withdraw_maybe_settle r v k) e c.
Proof.
intros Hv Hb. unfold on_after_pool_withdraw_maybe_settle. private. eapply succeeds_bind; [by apply require_validator_run|].
eapply succeeds_bind; [by apply assert_busy_run|].
destruct r as [[]|]; [apply succeeds_then; [by eapply try_epoch_run | intros; apply succeeds_ret]|..];
(eapply succeeds_bind; [apply log_epoch_run|]; apply succeeds_ret).
Qed.
Lemma release_with_run {A} (r : option A) v k msg1 msg2 x c : validators c !! v = Some x -> is_Some (UserAction.payable_refund k) ->
succeeds
(assert_private ;;
match r with
| Some a => release_validator_pool_pipeline v ;; mret (Value a)
| None =>
log_epoch msg1 v ;;
'(buyer, amount) ← lift (expect (UserAction.payable_refund k) msg2);
p ← refund_payable_pipeline v buyer amount;
mret (Returned p)
end) e c.
Proof.
intros Hv [[b n] Hk]. private. destruct r as [a|]; [apply succeeds_then; [by eapply release_run | intros; apply succeeds_ret]|].
eapply succeeds_bind; [apply log_epoch_run|]. rewrite Hk. eapply succeeds_lift; [reflexivity|].
apply succeeds_then; [by eapply refund_run | intros; apply succeeds_ret].
Qed.

Lemma ticket_runs x r v c : tidy_call x -> ticket_call x = Some v -> 1 <= busy c v -> succeeds (run_self_call x r) e c.
Proof.
intros Hx Ht (y & Hv & Hb)%busy_validator. destruct x; try done; injection Ht as <-; cbn [run_self_call tidy_call] in *;
try (unfold mapping; apply succeeds_then; [by eapply release_with_run | intros; apply succeeds_ret]).
- unfold returning. apply succeeds_then; [by eapply after_account_run | intros; apply succeeds_ret].
- unfold mapping. apply succeeds_then; [by eapply maybe_settle_run | intros; apply succeeds_ret].
- unfold returning. apply succeeds_then; [private; apply succeeds_ret | intros; apply succeeds_ret].
- unfold giving, on_epoch_pipeline_terminal_release. apply succeeds_then; [private; by eapply release_run | intros; apply succeeds_ret].
Qed.
End progress.

(** ** Worlds *)
Section worlds.
Context `{HC : Crypto} `{IS : IdSet}.

Record Piped (w : World) : Prop := {
piped_busy v : in_flight v (chains w) = busy (contract w) v;
piped_tidy : Forall (fun x => Forall tidy (steps x)) (chains w)
}.

Lemma one_nonneg v w : 0 <= one v w.
Proof. unfold one. case_bool_decide; lia. Qed.
Lemma step_tickets_nonneg v s : 0 <= step_tickets v s.
Proof. destruct s as [| x ?|]; cbn; try done. destruct (ticket_call x); cbn; [apply one_nonneg | done]. Qed.
Lemma tickets_nonneg v p : 0 <= tickets v p.
Proof. apply list_sum_Z_nonneg. intros. apply step_tickets_nonneg. Qed.
Lemma tickets_cons v s p : tickets v (s :: p) = step_tickets v s + tickets v p.
Proof. unfold tickets, list_sum_Z. cbn. lia. Qed.

Lemma in_flight_app v l1 l2 : in_flight v (l1 ++ l2) = in_flight v l1 + in_flight v l2.
Proof. apply list_sum_Z_app. Qed.
Lemma in_flight_insert v l i x y : l !! i = Some x -> in_flight v (<[i := y]> l) = in_flight v l - tickets v (steps x) + tickets v (steps y).
Proof.
revert i. induction l as [|z l IH]; intros [|i] H; [done..| |]; unfold in_flight in *; cbn in H; cbn [insert list_insert]; rewrite !list_sum_Z_cons.
- injection H as ->. lia.
- etransitivity; [apply Z.add_cancel_l, (IH _ H)|]. lia.
Qed.
Lemma in_flight_detached v es : in_flight v (started (detached es)) = 0.
Proof.
induction es as [|ef es IH]; [done|]. unfold in_flight, started, detached, list_sum_Z in *. cbn.
destruct ef; cbn; try exact IH.
Qed.
Lemma in_flight_one v p : in_flight v (started [p]) = tickets v p.
Proof. unfold in_flight, started. cbn [fmap list_fmap]. rewrite list_sum_Z_cons. cbn [steps]. change (list_sum_Z _ []) with 0. lia. Qed.
Lemma held_le_flight v l i x gas rest r : l !! i = Some (mkChain (CallSelf x gas :: rest) r) -> held x v <= in_flight v l.
Proof.
intros Hi. pose proof (in_flight_insert v l i _ (mkChain [] None) Hi) as E. cbn [steps] in E. rewrite tickets_cons in E. cbn [step_tickets] in E.
assert (0 <= in_flight v (<[i := mkChain [] None]> l)) by (apply list_sum_Z_nonneg; intros; apply tickets_nonneg).
pose proof (tickets_nonneg v rest). unfold held. change (tickets v []) with 0 in E. lia.
Qed.

Lemma tidy_started es : Forall (fun x => Forall tidy (steps x)) (started (detached es)).
Proof.
unfold started. apply Forall_fmap, Forall_forall. intros p Hp. unfold detached in Hp. apply list_elem_of_omap in Hp as (ef & _ & E).
destruct ef; [done..|]. injection E as <-. by repeat constructor.
Qed.
Lemma tidy_at l i s rest r : Forall (fun x => Forall tidy (steps x)) l -> l !! i = Some (mkChain (s :: rest) r) -> tidy s /\ Forall tidy rest.
Proof. intros H Hi. eapply Forall_lookup_1 in H; [|exact Hi]. by apply Forall_cons in H. Qed.

Lemma new_piped cfg c b : staking_new cfg = Ok c -> Piped (mkWorld c b []).
Proof. unfold staking_new. intros H. res_inv. by split. Qed.

(** A step of a chain that runs no call of the contract. *)
Lemma piped_outside w c' b i s rest r a : Piped w -> contract w = c' -> chains w !! i = Some (mkChain (s :: rest) r) ->
(forall v, step_tickets v s = 0) -> Piped (mkWorld c' b (<[i := mkChain rest a]> (chains w))).
Proof.
intros [Hb Ht] <- Hi Hs. destruct (tidy_at _ _ _ _ _ Ht Hi) as [_ Hrest]. split; cbn [contract chains].
- intros v. rewrite (in_flight_insert v _ _ _ _ Hi). cbn [steps]. rewrite tickets_cons, Hs, <- Hb. lia.
- by apply Forall_insert.
Qed.

(** A step that runs a call of the contract to itself. *)
Lemma piped_call w i x gas rest r r' e ans c' es b : Piped w -> chains w !! i = Some (mkChain (CallSelf x gas :: rest) r) ->
run_self_call x r e (contract w) = Ok (ans, c', es) ->
Piped (mkWorld c' b (<[i := mkChain (promise_of ans ++ rest) r']> (chains w) ++ started (detached es))).
Proof.
intros [Hb Ht] Hi H. destruct (tidy_at _ _ _ _ _ Ht Hi) as [Hx Hrest]. split; cbn [contract chains].
- intros v. rewrite in_flight_app, in_flight_detached, (in_flight_insert v _ _ _ _ Hi). cbn [steps]. rewrite tickets_cons, tickets_app, Hb.
assert (forall u, held x u <= busy (contract w) u) as Hheld by (intros u; rewrite <- Hb; by eapply held_le_flight).
pose proof (run_balanced e x r Hx _ _ _ _ Hheld H v) as E. unfold held in E. cbn [step_tickets]. lia.
- apply Forall_app. split; [|apply tidy_started]. apply Forall_insert; [done|]. cbn. apply Forall_app. split; [|done].
by apply (run_short e x r Hx) in H as [? _].
Qed.

Lemma step_piped w w' : Piped w -> wstep w w' -> Piped w'.
Proof.
intros HP [o Hs]. destruct Hs as
[w e x p c' es He _ _ _ H | w i pool call dep gas rest r a Hi Ha | w i rcv n rest r a Hi Ha
| w i call gas rest r e a c' es Hi He _ _ _ _ H | w i call gas rest r e p c' es Hi He _ _ _ _ H
| w i call gas rest r e msg Hi He _ _ _ Hp H | w n Hn].
- destruct HP as [Hb Ht]. split; cbn [contract chains].
+ intros v. rewrite in_flight_app. change (started (p :: detached es)) with (started [p] ++ started (detached es)).
rewrite in_flight_app, in_flight_detached, in_flight_one, Hb.
assert (forall u, no_tickets u <= busy (contract w) u) as H0 by (intros u; unfold no_tickets, busy, busy_flag; repeat case_match; lia).
pose proof (exec_balanced e x _ _ _ _ H0 H v) as E. unfold no_tickets in E. lia.
+ apply Forall_app. split; [done|]. apply (Forall_app _ (started [p])). split; [|apply tidy_started].
constructor; [|done]. cbn. by apply exec_short in H as [? _].
- by eapply piped_outside.
- by eapply piped_outside.
- by apply (piped_call w i call gas rest r (Some a) e (Value a) c' es).
- by apply (piped_call w i call gas rest r None e (Returned p) c' es).
- destruct HP as [Hb Ht]. destruct (ticket_call call) as [v|] eqn:E.
+ exfalso. destruct (tidy_at _ _ _ _ _ Ht Hi) as [Hx _].
destruct (ticket_runs e Hp call r v (contract w) Hx E) as (? & ? & ? & H'); [|by rewrite H' in H].
rewrite <- Hb. pose proof (held_le_flight v _ _ _ _ _ _ Hi) as Hh. unfold held in Hh. rewrite E in Hh. cbn in Hh. by rewrite one_same in Hh.
+ eapply piped_outside; [done | done | exact Hi |]. intros v. cbn. by rewrite E.
- destruct HP as [Hb Ht]. by split.
Qed.

Lemma reachable_piped w : reachable w -> Piped w.
Proof. induction 1 as [cfg c b H Hb | w w' Hr IH Hs Hf]; [by eapply new_piped | by eapply step_piped]. Qed.

(** ** Chains run out *)
Lemma weight_cons x p : weight (x :: p) = weight_step x + weight p.
Proof. apply list_sum_Z_cons. Qed.
Lemma weight_step_pos x : 1 <= weight_step x.
Proof. destruct x as [|[]|]; cbn; lia. Qed.

(** The chain after a step is the chain before it or a lighter one. *)
Definition lighter (x x' : Chain) : Prop := x' = x \/ weight (steps x') < weight (steps x).

Lemma chain_insert (l : list Chain) i j x y z : l !! i = Some y -> l !! j = Some x -> weight (steps z) < weight (steps y) ->
exists x', (<[i := z]> l) !! j = Some x' /\ lighter x x'.
Proof.
intros Hi Hj Hw. destruct (decide (i = j)) as [<-|Hne].
- exists z. rewrite Hi in Hj. injection Hj as ->. split; [|by right]. apply list_lookup_insert_eq. by eapply lookup_lt_Some.
- exists x. split; [by rewrite list_lookup_insert_ne | by left].
Qed.
Lemma chain_app (l l' : list Chain) j x : l !! j = Some x -> (l ++ l') !! j = Some x.
Proof. apply lookup_app_l_Some. Qed.

Lemma run_lighter e x r c ans c' es gas rest : tidy_call x -> run_self_call x r e c = Ok (ans, c', es) ->
weight (promise_of ans ++ rest) < weight (CallSelf x gas :: rest).
Proof. intros Hx H. apply (run_short e x r Hx) in H as [_ Hw]. rewrite weight_app, weight_cons. cbn [weight_step]. lia. Qed.

Lemma step_lighter w w' j x : Piped w -> wstep w w' -> chains w !! j = Some x -> exists x', chains w' !! j = Some x' /\ lighter x x'.
Proof.
intros [_ Ht] [o Hs] Hj.
assert (forall i s rest r a, chains w !! i = Some (mkChain (s :: rest) r) -> exists x', (<[i := mkChain rest a]> (chains w)) !! j = Some x' /\ lighter x x') as Hpop.
{ intros i s rest r a Hi. eapply chain_insert; [exact Hi | exact Hj|]. cbn [steps]. rewrite weight_cons. pose proof (weight_step_pos s). lia. }
assert (forall i y gas rest r e ans c' es a, chains w !! i = Some (mkChain (CallSelf y gas :: rest) r) ->
run_self_call y r e (contract w) = Ok (ans, c', es) ->
exists x', (<[i := mkChain (promise_of ans ++ rest) a]> (chains w) ++ started (detached es)) !! j = Some x' /\ lighter x x') as Hrun.
{ intros i y gas rest r e ans c' es a Hi H. destruct (tidy_at _ _ _ _ _ Ht Hi) as [Hy _].
destruct (chain_insert (chains w) i j x _ (mkChain (promise_of ans ++ rest) a) Hi Hj) as (x' & Hx' & Hl); [by eapply run_lighter|].
exists x'. split; [by apply chain_app | done]. }
destruct Hs as [w e x0 p c' es | | | w i call gas rest r e a c' es | w i call gas rest r e p c' es | |]; cbn [chains]; try by eapply Hpop.
- exists x. split; [by apply chain_app | by left].
- by eapply (Hrun i call gas rest r e (Value a)).
- by eapply (Hrun i call gas rest r e (Returned p)).
- exists x. split; [done | by left].
Qed.

(** A chain with receipts left can take a step. *)
Lemma chain_advances w i x e : Piped w -> chains w !! i = Some x -> steps x <> [] -> env_ok e -> account_balance e = balance w ->
attached_deposit e = 0 -> promise_results e = results_of (awaited x) -> predecessor_account_id e = current_account_id e ->
exists w' x', wstep w w' /\ chains w' !! i = Some x' /\ weight (steps x') < weight (steps x).
Proof.
intros HP Hi Hne He Hb Ha Hr Hp. destruct x as [[|s rest] r]; [done|]. clear Hne. cbn [steps awaited] in *.
assert (forall a, weight (steps (mkChain rest a)) < weight (s :: rest)) as Hpop
by (intros a; rewrite weight_cons; cbn [steps]; pose proof (weight_step_pos s); lia).
assert (forall y, (<[i := y]> (chains w)) !! i = Some y) as Hins by (intros; apply list_lookup_insert_eq; by eapply lookup_lt_Some).
destruct s as [pool call dep gas | call gas | rcv n].
- eexists _, _. split; [eexists; eapply (step_pool w i pool call dep gas rest r Failure Hi); by destruct call|]. split; [apply Hins | apply Hpop].
- destruct (tidy_at _ _ _ _ _ (piped_tidy _ HP) Hi) as [Hx _].
destruct (run_self_call call r e (contract w)) as [[[[a|p] c'] es]|msg] eqn:E.
+ eexists _, _. split; [eexists; by eapply step_self_value|]. split; [apply lookup_app_l_Some, Hins | apply Hpop].
+ eexists _, _. split; [eexists; by eapply step_self_promise|]. split; [apply lookup_app_l_Some, Hins | by apply (run_lighter e call r _ _ _ _ gas rest Hx E)].
+ eexists _, _. split; [eexists; by eapply step_self_panic|]. split; [apply Hins | apply Hpop].
- eexists _, _. split; [eexists; eapply (step_transfer w i rcv n rest r Done Hi); by left|]. split; [apply Hins | apply Hpop].
Qed.

Abbreviation light l := (Forall (fun x => weight (steps x) <= 14) l) (only parsing).

Lemma light_started es : light (started (detached es)).
Proof.
unfold started. apply Forall_fmap, Forall_forall. intros p Hp. unfold detached in Hp. apply list_elem_of_omap in Hp as (ef & _ & E).
destruct ef; [done..|]. injection E as <-. by cbv.
Qed.
Lemma light_insert l i x y : light l -> l !! i = Some x -> weight (steps y) < weight (steps x) -> light (<[i := y]> l).
Proof. intros Hl Hi Hw. apply Forall_insert; [done|]. pose proof (Forall_lookup_1 _ _ _ _ Hl Hi) as H. cbn in H. lia. Qed.

Lemma step_light w w' : Piped w -> light (chains w) -> wstep w w' -> light (chains w').
Proof.
intros [_ Ht] Hl [o Hs].
assert (forall i s rest r a, chains w !! i = Some (mkChain (s :: rest) r) -> light (<[i := mkChain rest a]> (chains w))) as Hpop.
{ intros i s rest r a Hi. eapply light_insert; [done | exact Hi|]. cbn [steps]. rewrite weight_cons. pose proof (weight_step_pos s). lia. }
assert (forall i y gas rest r e ans c' es a, chains w !! i = Some (mkChain (CallSelf y gas :: rest) r) ->
run_self_call y r e (contract w) = Ok (ans, c', es) ->
light (<[i := mkChain (promise_of ans ++ rest) a]> (chains w) ++ started (detached es))) as Hrun.
{ intros i y gas rest r e ans c' es a Hi H. destruct (tidy_at _ _ _ _ _ Ht Hi) as [Hy _]. apply Forall_app. split; [|apply light_started].
eapply light_insert; [done | exact Hi | by eapply run_lighter]. }
destruct Hs as [w e x p c' es He _ _ _ H | | | w i call gas rest r e a c' es | w i call gas rest r e p c' es | |]; cbn [chains];
try by eapply Hpop.
- apply Forall_app. split; [done|]. apply (Forall_app _ (started [p])). split; [|apply light_started].
constructor; [|done]. cbn. by apply exec_short in H as [_ ?].
- by eapply (Hrun i call gas rest r e (Value a)).
- by eapply (Hrun i call gas rest r e (Returned p)).
- done.
Qed.

Lemma reachable_light w : reachable w -> light (chains w).
Proof.
induction 1 as [cfg c b H Hb | w w' Hr IH Hs Hf]; [done|]. by apply (step_light w w'); [apply reachable_piped|..].
Qed.
End worlds.
