(* ===== verification/StakingMoney.v ===== *)
(** * The NEAR the staking contract owes

    [owed] is the NEAR of others the contract keeps on its own account: stake
    that is not yet at a pool, withdrawals that are back from it, revenue, and
    storage deposits. [costs] bounds what a computation adds to it, with the
    transfers it starts and the promise it returns, by the NEAR it was given. *)
From stdpp Require Import base gmap strings list.
From Stdlib Require Import ZArith Lia.
From S2P Require Import Prelude.
From S2P Require Import Near.
From S2P Require Import MerkleTree.
From S2P Require Import StakingTypes.
From S2P Require Import StakingMath.
From S2P Require Import StakingContract.
From S2P Require Import StakingCatalog.
From S2P Require Import StakingEpoch.
From S2P Require Import StakingSubscriptions.
From S2P Require Import StakingLocks.
From S2P Require Import StakingFarm.
From S2P Require Import StakingWorld.
From S2P Require Import StakingBooks.
From S2P Require Import StakingStake.
From S2P Require Import StakingInvariant.
From S2P Require Import StakingTails.
From S2P Require Import StakingCat.
From S2P Require Import StakingReach.
From S2P Require Import StakingExits.
From S2P Require Import StakingPipeline.

Local Open Scope Z_scope.
Local Open Scope record_scope.

(** ** What is owed *)
Definition on_hand (x : Validator.t) : Z := Validator.pending_to_stake x + Validator.pending_to_claim x.
Definition storage_total (c : Contract) : Z := map_sum (fun _ => Account.storage_deposit) (accounts c).
Definition revenue_total (c : Contract) : Z := map_sum (fun _ n => n) (revenue_by_validator c).
Definition owed (c : Contract) : Z := map_sum (fun _ => on_hand) (validators c) + revenue_total c + storage_total c.

(** Deposits for storage and revenue are not negative. *)
Definition purse_ok (c : Contract) : Prop :=
  (forall a x, accounts c !! a = Some x -> 0 <= Account.storage_deposit x) /\
  (forall v n, revenue_by_validator c !! v = Some n -> 0 <= n).

(** The NEAR that leaves with detached transfers. *)
Definition paid (es : list SEffect) : Z := list_sum_Z chain_deposit (detached es).

Lemma paid_app es1 es2 : paid (es1 ++ es2) = paid es1 + paid es2.
Proof. unfold paid, detached. by rewrite omap_app, list_sum_Z_app. Qed.

Definition stays (ef : SEffect) : Prop := match ef with Detached _ _ => False | _ => True end.
Lemma paid_stays es : Forall stays es -> paid es = 0.
Proof. induction 1 as [|ef es Hef _ IH]; [done|]. by destruct ef. Qed.

Lemma paid_emits {A} (m : MS A) e c a c' es : m e c = Ok (a, c', es) -> emits stays m -> paid es = 0.
Proof. intros H Hm. by eapply paid_stays, Hm. Qed.

(** ** What a computation costs

    [costs e q t m]: run under [e] with [t] NEAR at hand, [m] adds to what is
    owed and pays out at most what it does not leave over, [q] of its result. *)
Definition costs {A} (e : Env) (q : A -> Z) (t : Z) (m : MS A) : Prop :=
  forall c a c' es, purse_ok c -> m e c = Ok (a, c', es) -> purse_ok c' /\ owed c' + q a + paid es <= owed c + t.

Abbreviation quiet m := (forall e t, costs e (fun _ => t) t m) (only parsing).

Section costs.
Context {A : Type} (e : Env).

Lemma costs_bind {B} (q1 : B -> Z) (q : A -> Z) t (m : MS B) (f : B -> MS A) :
costs e q1 t m -> (forall b, costs e q (q1 b) (f b)) -> costs e q t (mbind f m).
Proof.
intros Hm Hf c a c' es Hp H. apply bindM_Ok_inv in H as (b & c1 & es1 & es2 & H1 & H2 & ->).
destruct (Hm _ _ _ _ Hp H1) as [Hp1 Hm1]. destruct (Hf b _ _ _ _ Hp1 H2) as [Hp2 Hf1].
split; [done|]. rewrite paid_app. lia.
Qed.
Lemma costs_ret q t (a : A) : q a <= t -> costs e q t (mret a).
Proof. intros Hq c b c' es Hp H. m_inv. split; [done|]. unfold paid. cbn. lia. Qed.
Lemma costs_panic q t msg : costs e q t (panicM msg : MS A).
Proof. intros c b c' es Hp H. done. Qed.
Lemma costs_le q t t' (m : MS A) : t <= t' -> costs e q t m -> costs e q t' m.
Proof. intros Ht Hm c a c' es Hp H. destruct (Hm _ _ _ _ Hp H). split; [done | lia]. Qed.
Lemma costs_asks {B} (q : A -> Z) t (g : Env -> B) (f : B -> MS A) : costs e q t (f (g e)) -> costs e q t (mbind f (asks g)).
Proof. intros Hf. intros c b c' es Hp H. m_inv. rewrite app_nil_l. by eapply Hf. Qed.
Lemma costs_require q t b msg (f : unit -> MS A) : (b = true -> costs e q t (f tt)) -> costs e q t (mbind f (requireM b msg)).
Proof. intros Hf c a c' es Hp H. m_inv. rewrite app_nil_l. by eapply Hf. Qed.
Lemma costs_frame s q t (m : MS A) : costs e q t m -> costs e (fun a => q a + s) (t + s) m.
Proof. intros Hm c a c' es Hp H. destruct (Hm _ _ _ _ Hp H). split; [done | lia]. Qed.
End costs.

(** ** Computations that move no NEAR *)
Definition dues (c : Contract) := (owed c, revenue_by_validator c, accounts c).
Definition at_due b (c : Contract) : Prop := dues c = b.
Abbreviation same_due m := (forall b, keeps (at_due b) m) (only parsing).

Lemma same_due_inv {A} (m : MS A) e c a c' es : same_due m -> m e c = Ok (a, c', es) -> dues c' = dues c.
Proof. intros Hm H. by apply (Hm (dues c) e c a c' es). Qed.
Lemma due_fields c c' : validators c' = validators c -> revenue_by_validator c' = revenue_by_validator c ->
  accounts c' = accounts c -> dues c' = dues c.
Proof. unfold dues, owed, revenue_total, storage_total. by intros -> -> ->. Qed.
Lemma due_same_books {A} (m : MS A) : same_books m -> same_due m.
Proof.
  intros Hm b e c a c' es Hb H. unfold at_due in *. rewrite <- Hb. apply (same_books_inv _ _ _ _ _ _ Hm) in H.
  unfold books, ledger in H. injection H. intros. by apply due_fields.
Qed.
#[export] Hint Resolve due_same_books : keeps.

Lemma due_purse c c' : dues c' = dues c -> purse_ok c -> purse_ok c'.
Proof. unfold dues, purse_ok. intros [= _ -> ->]. done. Qed.
Lemma quiet_due {A} (m : MS A) : same_due m -> emits stays m -> quiet m.
Proof.
  intros Hm He e t c a c' es Hp H. rewrite (paid_stays es) by (by eapply He).
  apply (same_due_inv _ _ _ _ _ _ Hm) in H. split; [by eapply due_purse|]. unfold dues in H. injection H as -> _ _. lia.
Qed.

(** Writing one validator. *)
Lemma owed_write c c' v x x' : validators c !! v = Some x -> validators c' = <[v := x']> (validators c) ->
  revenue_by_validator c' = revenue_by_validator c -> accounts c' = accounts c -> owed c' = owed c - on_hand x + on_hand x'.
Proof.
  intros Hv E1 E2 E3. unfold owed, revenue_total, storage_total. rewrite E1, E2, E3, map_sum_insert, Hv. lia.
Qed.
Lemma due_write c c' v x x' : validators c !! v = Some x -> validators c' = <[v := x']> (validators c) ->
  revenue_by_validator c' = revenue_by_validator c -> accounts c' = accounts c -> on_hand x' = on_hand x -> dues c' = dues c.
Proof. intros Hv E1 E2 E3 Eh. unfold dues. rewrite (owed_write c c' v x x' Hv E1 E2 E3), E2, E3, Eh. f_equal. f_equal. lia. Qed.
Lemma write_purse c c' : revenue_by_validator c' = revenue_by_validator c -> accounts c' = accounts c -> purse_ok c -> purse_ok c'.
Proof. unfold purse_ok. by intros -> ->. Qed.

(** A computation that writes validators and leaves their NEAR. *)
Ltac frame_due Hb :=
  match goal with
  | H : ?m ?e ?c = Ok (_, ?c', _) |- _ =>
      match type of Hb with at_due ?b c =>
        let K := fresh "K" in assert (K : keeps (at_due b) m) by solve [auto with keeps nocore];
        apply (K _ _ _ _ _ Hb) in H; clear K Hb; rename H into Hb end
  end.
Ltac rewrite_validator :=
  intros b e c u c' es Hb H; m_all; read; repeat frame_due Hb; try done;
  (unfold at_due in *; rewrite <- Hb; eapply due_write; [eassumption | reflexivity | reflexivity | reflexivity | unfold on_hand; cbn; lia]).
Ltac no_money := intros b; keeps_walk; unfold at_due in *; try (etransitivity; [|eassumption]; by apply due_fields).

Section same_due.
Context `{HC : Crypto} `{IS : IdSet}.

Lemma due_unstake a v n : same_due (internal_unstake a v n).
Proof.
intros b e c u c' es Hb H. apply internal_unstake_inv in H as (x & counts & h & Hv & _ & _ & _ & _ & _ & _ & _ & ->).
unfold at_due in *. rewrite <- Hb. by eapply due_write; [exact Hv | | | |].
Qed.
Lemma due_mark v a : same_due (mark_epoch_settlement_handled v a).
Proof. unfold mark_epoch_settlement_handled. rewrite_validator. Qed.
Lemma due_release v : same_due (release_validator_pool_pipeline v).
Proof. unfold release_validator_pool_pipeline. rewrite_validator. Qed.
Lemma due_settlement v k : same_due (promise_validator_per_epoch_settlement_then v k).
Proof. unfold promise_validator_per_epoch_settlement_then, promise_get_validator_pool_account. rewrite_validator. Qed.
Lemma due_pause_validator v : same_due (pause_validator v).
Proof. unfold pause_validator. rewrite_validator. Qed.
Lemma due_remove_validator v : same_due (remove_validator v).
Proof. unfold remove_validator. rewrite_validator. Qed.
Lemma due_add_manager r v m a : same_due (add_validator_catalog_manager_after_get_owner r v m a).
Proof. unfold add_validator_catalog_manager_after_get_owner. rewrite_validator. Qed.
Lemma due_remove_manager r v m a : same_due (remove_validator_catalog_manager_after_get_owner r v m a).
Proof. unfold remove_validator_catalog_manager_after_get_owner. rewrite_validator. Qed.
Lemma due_add_validator v : same_due (add_validator v).
Proof.
unfold add_validator. intros b e c u c' es Hb H. m_inv. repeat frame_due Hb. read.
match goal with B : match ?x with _ => _ end = true |- _ => destruct x eqn:Hv; [done|] end.
unfold at_due in *. rewrite <- Hb. unfold dues, owed, revenue_total, storage_total. cbn. rewrite map_sum_insert, Hv. unfold on_hand at 2. cbn.
f_equal. f_equal. lia.
Qed.
Lemma due_set_lock l x : same_due (internal_set_lock l x).
Proof. unfold internal_set_lock. no_money. Qed.
Lemma due_set_position p : same_due (internal_set_farm_position p).
Proof. unfold internal_set_farm_position. no_money. Qed.
Lemma due_set_pool id l : same_due (internal_set_farm_pool id l).
Proof. unfold internal_set_farm_pool. no_money. Qed.
#[local] Hint Resolve due_unstake due_mark due_release due_settlement due_set_lock due_set_position due_set_pool : keeps.
Lemma due_settle_pool id : same_due (settle_farm_pool id).
Proof. unfold settle_farm_pool. no_money. Qed.
#[local] Hint Resolve due_settle_pool : keeps.
Lemma due_settle_position a q : same_due (settle_farm_position a q).
Proof. unfold settle_farm_position. no_money. Qed.
#[local] Hint Resolve due_settle_position : keeps.
Lemma due_sync s : same_due (sync_subscription_lock_window s).
Proof. unfold sync_subscription_lock_window. no_money. Qed.
#[local] Hint Resolve due_sync : keeps.
Lemma due_decrease a s t : same_due (apply_scheduled_stake_decrease_at_renewal a s t).
Proof. unfold apply_scheduled_stake_decrease_at_renewal. no_money. Qed.
#[local] Hint Resolve due_decrease : keeps.
Lemma due_apply_due id : same_due (apply_due_subscription_update id).
Proof. unfold apply_due_subscription_update. no_money. Qed.
#[local] Hint Resolve due_apply_due : keeps.
Lemma due_recurring a p q : same_due (resolve_recurring_subscription a p q).
Proof. unfold resolve_recurring_subscription. no_money. Qed.
Lemma due_update_inputs a p t id x : same_due (checked_subscription_update_inputs a p t id x).
Proof. unfold checked_subscription_update_inputs. no_money. Qed.
Lemma due_resolve_unlock l a v n : same_due (resolve_unlock l a v n).
Proof. unfold resolve_unlock. no_money. Qed.
Lemma due_farm_unstake a q v n : same_due (resolve_farm_unstake a q v n).
Proof. unfold resolve_farm_unstake, commit_farm_unstake. no_money. Qed.
Lemma due_create_price r q n d x ty pe f m a : same_due (create_price_after_get_owner r q n d x ty pe f m a).
Proof. unfold create_price_after_get_owner. no_money. Qed.
Lemma due_edit_price r p n d m a : same_due (edit_price_after_get_owner r p n d m a).
Proof. unfold edit_price_after_get_owner. no_money. Qed.
Lemma due_delete_price r p a : same_due (delete_price_after_get_owner r p a).
Proof. unfold delete_price_after_get_owner. no_money. Qed.
Lemma due_cancel id : same_due (cancel_subscription id).
Proof. unfold cancel_subscription. no_money. Qed.
Lemma due_resume id : same_due (resume_subscription id).
Proof. unfold resume_subscription. no_money. Qed.
End same_due.
#[export] Hint Resolve due_unstake due_mark due_release due_settlement due_pause_validator due_remove_validator due_add_manager
  due_remove_manager due_add_validator due_set_lock due_set_position due_set_pool due_settle_pool due_settle_position due_sync
  due_decrease due_apply_due due_recurring due_update_inputs due_resolve_unlock due_farm_unstake due_create_price due_edit_price
  due_delete_price due_cancel due_resume : keeps.

(** ** Deposits that become stake *)
Definition plus_due (n : Z) (b : Z * gmap ValidatorId NearToken * gmap AccountId Account.t) := (b.1.1 + n, b.1.2, b.2).

Lemma stake_due a v n e c s c' es : internal_stake a v n e c = Ok (s, c', es) -> dues c' = plus_due n (dues c).
Proof.
  intros H. apply internal_stake_inv in H as (x & Hv & _ & _ & _ & _ & ->). unfold dues, plus_due. cbn [fst snd].
  erewrite (owed_write c _ v x); [|exact Hv|reflexivity..]. cbn. unfold on_hand. cbn. f_equal. f_equal. lia.
Qed.
Lemma plus_purse n c c' : dues c' = plus_due n (dues c) -> purse_ok c -> purse_ok c'.
Proof. unfold dues, plus_due, purse_ok. cbn. intros [= _ -> ->]. done. Qed.
Lemma costs_plus {A} e n t (m : MS A) : emits stays m -> (forall c a c' es, m e c = Ok (a, c', es) -> dues c' = plus_due n (dues c)) ->
  costs e (fun _ => t) (n + t) m.
Proof.
  intros He Hm c a c' es Hp H. rewrite (paid_stays es) by (by eapply He). apply Hm in H. split; [by eapply plus_purse|].
  unfold dues, plus_due in H. cbn in H. injection H as -> _ _. lia.
Qed.

(** [push Hb] carries a fact on what is due through the computations that move no NEAR. *)
Ltac push Hb :=
  repeat match goal with
  | H : ?m ?e ?c = Ok (_, ?c', _) |- _ =>
      match type of Hb with at_due ?b _ =>
        let K := fresh "K" in
        assert (K : keeps (at_due b) m)
          by solve [keeps_walk; unfold at_due in *; try (etransitivity; [|eassumption]; by apply due_fields)];
        let H0 := fresh "Hb" in assert (H0 : at_due b c) by exact Hb;
        apply (K _ _ _ _ _ H0) in H; clear K Hb H0; rename H into Hb end
  end.
Ltac after_stake Hb :=
  match goal with H : internal_stake _ _ _ _ ?c = Ok (_, ?c', _) |- _ =>
    apply stake_due in H; match type of Hb with at_due ?b _ => let E := fresh in assert (E : dues c = b) by exact Hb; rewrite E in H; clear E Hb; rename H into Hb;
    match type of Hb with dues ?x = ?y => change (at_due y x) in Hb end end end.

Section stakes.
Context `{HC : Crypto} `{IS : IdSet}.
Lemma commit_lock_due a n d o v f e c l c' es : commit_catalog_lock a n d o v f e c = Ok (l, c', es) -> dues c' = plus_due n (dues c).
Proof. intros H. unfold commit_catalog_lock in H. assert (Hb : at_due (dues c) c) by done. m_inv. push Hb. after_stake Hb. by push Hb. Qed.
Lemma resolve_lock_due a n d o v e c l c' es : resolve_lock a n d o v e c = Ok (l, c', es) -> dues c' = plus_due n (dues c).
Proof. unfold resolve_lock. intros H. m_inv. read. by eapply commit_lock_due. Qed.
Lemma recurring_lock_due a n p v e c l c' es :
resolve_recurring_subscription_lock_after_settle a n p v e c = Ok (l, c', es) -> dues c' = plus_due n (dues c).
Proof.
unfold resolve_recurring_subscription_lock_after_settle, commit_recurring_subscription_lock_after_settle. intros H.
assert (Hb : at_due (dues c) c) by done. m_inv. push Hb. rewrite <- Hb. by eapply commit_lock_due.
Qed.
Lemma farm_stake_due a n q p v e c x c' es : resolve_farm_stake a n q p v e c = Ok (x, c', es) -> dues c' = plus_due n (dues c).
Proof.
unfold resolve_farm_stake, commit_farm_stake. intros H. assert (Hb : at_due (dues c) c) by done. m_inv. push Hb. after_stake Hb. by push Hb.
Qed.
(** An update stakes its deposit, or keeps the one yocto that came with it. *)
Lemma subscription_update_due a n p t id v e c o c' es : on_subscription_update_after_settle a n p t id v e c = Ok (o, c', es) ->
exists k, dues c' = plus_due k (dues c) /\ (k = n \/ k = 0 /\ n = 1).
Proof.
unfold on_subscription_update_after_settle, commit_subscription_update_after_settle. intros H.
assert (Hb : at_due (dues c) c) by done. m_inv. push Hb.
match goal with E : match immediate_stake_increase ?d with _ => _ end _ _ = Ok _ |- _ => destruct (immediate_stake_increase d) end; m_inv; bool_prop.
- exists n. split; [|by left]. after_stake Hb. by push Hb.
- exists 0. split; [|by right]. push Hb. unfold at_due in Hb. rewrite Hb. unfold plus_due, dues. cbn. f_equal. f_equal. lia.
Qed.
End stakes.

(** [costs_walk] passes the computations that move no NEAR. *)
Create HintDb costs discriminated.
Ltac quiet_solve :=
  solve [auto with costs nocore
        | apply quiet_due; [intros ?; keeps_walk; unfold at_due in *; try (etransitivity; [|eassumption]; by apply due_fields) | emits_auto]].
Ltac costs_step :=
  match goal with
  | |- costs _ _ _ (mret _) => apply costs_ret
  | |- costs _ _ _ (panicM _) => apply costs_panic
  | |- costs _ _ _ (mbind _ (asks _)) => apply costs_asks
  | |- costs _ _ _ (mbind _ (requireM _ _)) => apply costs_require; intro
  | |- costs _ _ _ (if ?b then _ else _) => destruct b eqn:?
  | |- costs _ _ _ (match ?x with _ => _ end) => destruct x eqn:?
  | |- costs _ _ _ (let _ := _ in _) => cbv zeta
  | |- costs ?e _ ?t (mbind _ _) => apply (costs_bind e (fun _ => t)); [quiet_solve|intro]
  end.
Ltac costs_walk := repeat costs_step.

(** ** NEAR on its way

    [hold_call]: the deposit a receipt still has to place. A deposit on its way
    to a pool ([sent_step]) is counted as stake until the pool has answered. *)
Definition escrow_of (k : UserAction.t) : Z := match UserAction.payable_refund k with Some (_, n) => n | None => 0 end.

Definition hold_call (x : SelfCall) : Z :=
  match x with
  | OnEpochSettlementAfterPoolAccount _ k | OnAfterPoolWithdrawMaybeSettle _ k | OnEpochSettlementDispatchContinue k => escrow_of k
  | ResolveLock _ n _ _ _ | ResolveRecurringSubscriptionLockAfterSettle _ n _ _ | ResolveFarmStake _ n _ _ _
  | OnSubscriptionUpdateAfterSettle _ n _ _ _ _ => n
  | _ => 0
  end.
Definition hold_step (s : PStep) : Z := match s with CallSelf x _ => hold_call x | _ => 0 end.
Definition sent_step (s : PStep) : Z := match s with CallPool _ DepositAndStake n _ => n | _ => 0 end.
Definition load (p : Promise) : Z := list_sum_Z (fun s => hold_step s + step_deposit s - sent_step s) p.

(** What the receipt at the head of a chain has at hand, given the answer it
    awaits: the deposit of a tail that failed, the NEAR of a withdrawal from
    the pool; and the stake that has arrived at the pool but is not booked. *)
Definition answered (r : option Answer) : bool := match r with None | Some Failure => false | Some _ => true end.
Definition head_hold (r : option Answer) (x : SelfCall) : Z :=
  match x with
  | OnEpochPipelineReleaseWithLockId _ k => if answer_id r then 0 else escrow_of k
  | OnEpochPipelineReleaseWithFarmPosition _ k => if answer_position r then 0 else escrow_of k
  | OnEpochPipelineReleaseWithSubscriptionUpdateOutcome _ k => if answer_outcome r then 0 else escrow_of k
  | OnEpochWithdrawTransferDone _ n => if answered r then n else 0
  | _ => 0
  end.
Definition head_sent (c : Contract) (r : option Answer) (x : SelfCall) : Z :=
  match x with
  | OnDepositAndStake v =>
      if answered r then match validators c !! v with Some y => Validator.pending_to_stake y - Validator.pending_to_unstake y | None => 0 end else 0
  | _ => 0
  end.

Lemma load_app p q : load (p ++ q) = load p + load q.
Proof. apply list_sum_Z_app. Qed.

Section pipeline.
Context (e : Env).

Lemma dispatch_load k : load (on_epoch_settlement_dispatch_continue k) = escrow_of k.
Proof. destruct k; unfold load, list_sum_Z; cbn; unfold escrow_of; cbn; lia. Qed.

Lemma net_zero_costs v n t : 0 < n -> costs e (fun _ => t) t (apply_net_zero_pending_matched_clear v n).
Proof.
intros Hn c b c' es Hp H. unfold apply_net_zero_pending_matched_clear in H. m_all; read.
- split; [done|]. unfold paid. cbn. lia.
- bool_prop. split; [done|]. erewrite (owed_write c _ v); [|eassumption|reflexivity..]. unfold paid, on_hand, u128_saturating_add, saturating_add. cbn.
match goal with |- context [0 <? ?x] => destruct (0 <? x) eqn:E end; bool_prop; lia.
Qed.

Lemma try_epoch_costs v k : costs e load (escrow_of k) (try_epoch_stake_or_unstake v k).
Proof.
assert (load (on_epoch_settlement_dispatch_continue k) <= escrow_of k) by (rewrite dispatch_load; lia).
unfold try_epoch_stake_or_unstake. costs_walk; try done; try (unfold load, list_sum_Z, then_; cbn; lia).
apply (costs_bind e (fun _ => escrow_of k)); [apply net_zero_costs; bool_prop; lia | intro]. by apply costs_ret.
Qed.
Lemma refund_costs v a n : costs e load n (refund_payable_pipeline v a n).
Proof. unfold refund_payable_pipeline. costs_walk. unfold load, list_sum_Z. cbn. lia. Qed.
Lemma after_account_costs r v k : costs e load (escrow_of k) (on_epoch_settlement_after_pool_account r v k).
Proof.
unfold on_epoch_settlement_after_pool_account. costs_step. destruct r as [view|].
- intros c p c' es Hp H. m_inv. read.
match goal with H : _ e ?c1 = Ok (p, c', _), Hv : validators c !! v = Some ?x |- _ =>
assert (owed c1 = owed c /\ purse_ok c1) as [<- Hp1];
[split; [rewrite (owed_write c c1 v x _ Hv eq_refl eq_refl eq_refl); unfold on_hand; cbn; lia | by apply (write_purse c c1)]|];
set (c1' := c1) in *; clearbody c1' end.
rewrite !app_nil_l. destruct (_ && _).
+ unfold try_epoch_withdraw_known_unstaked in H. m_inv. read. split; [done|]. unfold load, list_sum_Z, paid, promise_epoch_withdraw_unstaked, then_. cbn. lia.
+ by eapply try_epoch_costs.
- unfold escrow_of. destruct (UserAction.payable_refund k) as [[a n]|]; [apply refund_costs|]. costs_walk. by cbv.
Qed.
Lemma maybe_settle_costs r v k : costs e (fun x => load (promise_of x)) (escrow_of k) (on_after_pool_withdraw_maybe_settle r v k).
Proof.
assert (load (on_epoch_settlement_dispatch_continue k) <= escrow_of k) by (rewrite dispatch_load; lia).
unfold on_after_pool_withdraw_maybe_settle. do 3 costs_step. destruct r as [[]|].
- eapply costs_bind; [apply try_epoch_costs|]. intro. by apply costs_ret.
- by costs_walk.
- by costs_walk.
Qed.
Lemma release_with_costs {A} (r : option A) v k msg1 msg2 :
costs e (fun x : PromiseOrValue A => load (promise_of x)) (if r then 0 else escrow_of k)
(assert_private ;;
match r with
| Some a => release_validator_pool_pipeline v ;; mret (Value a)
| None =>
log_epoch msg1 v ;;
'(buyer, amount) ← lift (expect (UserAction.payable_refund k) msg2);
p ← refund_payable_pipeline v buyer amount;
mret (Returned p)
end).
Proof.
costs_step. destruct r as [a|]; [by costs_walk|]. costs_step. unfold escrow_of. destruct (UserAction.payable_refund k) as [[who n]|].
- apply (costs_bind e (fun x => x.2)).
+ intros c x c' es Hp H. m_inv. split; [done|]. res_inv. simplify_eq. unfold paid. cbn. lia.
+ intros [b' n']. eapply costs_bind; [apply refund_costs|]. intro. by apply costs_ret.
- intros c x c' es Hp H. m_inv. done.
Qed.
Lemma withdraw_done_costs v n t : 0 <= n ->
costs e (fun _ => t) ((if is_promise_success e then n else 0) + t) (on_epoch_withdraw_transfer_done v n).
Proof.
intros Hn c b c' es Hp H. rewrite (paid_emits _ _ _ _ _ _ H) by emits_auto.
unfold on_epoch_withdraw_transfer_done in H. m_inv. read.
destruct (is_promise_success e); cbn [andb] in *; [destruct (0 <? n) eqn:E|]; m_inv; read; res_inv.
- m_all; (split; [by apply (write_purse c)|]);
(erewrite (owed_write c _ v); [|eassumption|reflexivity..]); unfold on_hand; cbn; lia.
- split; [by apply (write_purse c)|]. erewrite (owed_write c _ v); [|eassumption|reflexivity..]. lia.
- split; [by apply (write_purse c)|]. erewrite (owed_write c _ v); [|eassumption|reflexivity..]. lia.
Qed.

(** The pool has taken the stake: it is no longer on hand. *)
Lemma deposit_done_owed v c b c' es : Inv c -> purse_ok c -> on_deposit_and_stake v e c = Ok (b, c', es) ->
purse_ok c' /\ paid es = 0 /\
owed c' <= owed c - (if is_promise_success e then match validators c !! v with
            Some y => Validator.pending_to_stake y - Validator.pending_to_unstake y | None => 0 end else 0).
Proof.
intros HI Hp H. rewrite (paid_emits _ _ _ _ _ _ H) by emits_auto.
unfold on_deposit_and_stake in H. m_inv. destruct (is_promise_success e); cbn [negb] in *; m_inv; [|split_and!; try done; lia].
read. res_inv. bool_prop. split; [by apply (write_purse c)|]. split; [done|].
match goal with Hv : validators c !! v = Some _ |- _ => rewrite Hv; pose proof (inv_validator _ _ _ HI _ _ Hv) as Hok; unfold validator_ok in Hok end.
erewrite (owed_write c _ v); [|eassumption|reflexivity..]. unfold on_hand, u128_saturating_add, saturating_add. cbn.
match goal with |- context [0 <? ?x] => destruct (0 <? x) eqn:E end; bool_prop; lia.
Qed.
Lemma unstake_done_owed v c b c' es : Inv c -> purse_ok c -> on_unstake v e c = Ok (b, c', es) ->
purse_ok c' /\ paid es = 0 /\ owed c' <= owed c.
Proof.
intros HI Hp H. rewrite (paid_emits _ _ _ _ _ _ H) by emits_auto.
unfold on_unstake in H. m_inv. destruct (is_promise_success e); cbn [negb] in *; m_inv; [|split_and!; try done; lia].
read. res_inv. bool_prop. split; [by apply (write_purse c)|]. split; [done|].
match goal with Hv : validators c !! v = Some _ |- _ => pose proof (inv_validator _ _ _ HI _ _ Hv) as Hok; unfold validator_ok in Hok end.
erewrite (owed_write c _ v); [|eassumption|reflexivity..]. unfold on_hand, u128_saturating_add, saturating_add. cbn.
match goal with |- context [0 <? ?x] => destruct (0 <? x) eqn:E end; bool_prop; lia.
Qed.

(** ** Payments *)
Lemma payout_costs a v : costs e load 0 (payout_user_withdraw a v).
Proof.
intros c p c' es Hp H. unfold payout_user_withdraw in H. m_inv.
match goal with E : claim_from_withdraw_bucket _ _ _ _ = Ok _ |- _ => apply claim_inv in E as (x & counts & Hv & _ & Hc & -> & ->) end.
split; [by apply (write_purse c)|]. erewrite (owed_write c _ v); [|exact Hv|reflexivity..].
unfold load, list_sum_Z, paid, on_hand. cbn. lia.
Qed.
Lemma owed_revenue c v n : owed (c <| revenue_by_validator := <[v := n]> (revenue_by_validator c) |>) =
owed c - count (revenue_by_validator c) v + n.
Proof. unfold owed, revenue_total, storage_total, count. cbn. rewrite map_sum_insert. destruct (revenue_by_validator c !! v); cbn; lia. Qed.
Lemma purse_revenue c v n : 0 <= n -> purse_ok c -> purse_ok (c <| revenue_by_validator := <[v := n]> (revenue_by_validator c) |>).
Proof. intros Hn [H1 H2]. split; [done|]. cbn. intros w m [[<- <-]|[_ H]]%lookup_insert_Some; [done | by eapply H2]. Qed.

Lemma withdraw_revenue_costs r v a : costs e load 0 (withdraw_revenue_after_get_owner r v a).
Proof.
intros c p c' es Hp H. rewrite (paid_emits _ _ _ _ _ _ H) by emits_auto. unfold withdraw_revenue_after_get_owner in H.
assert (Hb : at_due (dues c) c) by done. m_inv. push Hb. bool_prop.
match goal with Hb : at_due _ ?c1 |- _ => assert (owed c1 = owed c /\ purse_ok c1) as [<- Hp1]
by (split; [by injection Hb | by eapply due_purse]) end.
split; [by apply purse_revenue|]. rewrite owed_revenue. unfold load, list_sum_Z. cbn. lia.
Qed.

Lemma owed_account c a x : owed (c <| accounts := <[a := x]> (accounts c) |>) =
owed c - match accounts c !! a with Some y => Account.storage_deposit y | None => 0 end + Account.storage_deposit x.
Proof. unfold owed, revenue_total, storage_total. cbn. rewrite map_sum_insert. lia. Qed.
Lemma purse_account c a x : 0 <= Account.storage_deposit x -> purse_ok c -> purse_ok (c <| accounts := <[a := x]> (accounts c) |>).
Proof. intros Hn [H1 H2]. split; [|done]. cbn. intros w m [[<- <-]|[_ H]]%lookup_insert_Some; [done | by eapply H1]. Qed.
End pipeline.

Section storage.
Context `{HC : Crypto} `{IS : IdSet} (e : Env).

(** A transfer that is started when there is something to transfer. *)
Lemma detach_inv n a c u c' es : (if 0 <? n then emit (Detached a n) else mret tt : MS unit) e c = Ok (u, c', es) ->
c' = c /\ paid es = Z.max 0 n.
Proof.
destruct (0 <? n) eqn:E; intros H; m_inv; bool_prop; (split; [done|]); unfold paid, list_sum_Z; cbn;
unfold chain_deposit, list_sum_Z; cbn; lia.
Qed.

Lemma storage_deposit_costs a o : 0 <= attached_deposit e -> costs e (fun _ => 0) (attached_deposit e) (storage_deposit a o).
Proof.
intros Hd c b c' es Hp H. unfold storage_deposit, assert_not_paused, internal_set_account in H. m_inv. res_inv. bool_prop.
match goal with E : (if default false o then _ else _) _ _ = Ok (?n, ?c1, ?es1) |- _ =>
assert (c1 = c /\ es1 = [] /\ n <= attached_deposit e) as (-> & -> & Hn) by (destruct (default false o); m_inv; split_and!; try done; lia) end.
match goal with E : (if 0 <? _ then _ else _) _ _ = Ok _ |- _ => apply detach_inv in E as [-> Hr] end.
split; [apply (purse_account c); [cbn; lia | done]|]. rewrite !paid_app, Hr. unfold saturating_sub.
match goal with |- context [owed (?c1 <| account_ids := _ |>)] => change (owed (c1 <| account_ids := _ |>)) with (owed c1) end.
rewrite owed_account. change (paid []) with 0. cbn [Account.storage_deposit]. lia.
Qed.
Ltac drop_ids := repeat match goal with |- context [owed (?c1 <| account_ids := ?l |>)] => change (owed (c1 <| account_ids := l |>)) with (owed c1) end.
Lemma storage_withdraw_costs n : costs e (fun _ => 0) 0 (storage_withdraw n).
Proof.
intros c b c' es Hp H. unfold storage_withdraw, assert_not_paused, internal_set_account in H. m_inv. res_inv. bool_prop.
match goal with E : match n with _ => _ end _ _ = Ok (_, ?c1, ?es1) |- _ =>
assert (c1 = c /\ es1 = []) as [-> ->] by (destruct n; by m_inv) end.
match goal with E : (if ?n =? 0 then _ else _) _ _ = Ok _ |- _ => destruct (n =? 0); m_inv; res_inv end.
- split; [done|]. unfold paid. cbn. lia.
- split; [apply (purse_account c); [cbn; lia | done]|]. drop_ids. rewrite owed_account.
match goal with E : accounts c !! _ = Some _ |- _ => rewrite E end. unfold paid, list_sum_Z. cbn. unfold chain_deposit, list_sum_Z. cbn. lia.
Qed.
Lemma storage_unregister_costs f : costs e (fun _ => 0) 0 (storage_unregister f).
Proof.
intros c b c' es Hp H. unfold storage_unregister, assert_not_paused in H. m_inv.
destruct (accounts c !! predecessor_account_id e) as [x|] eqn:Ex; m_inv; [|split; [done | unfold paid; cbn; lia]].
destruct (has_retained_record_storage _ _); m_inv; [split; [done | unfold paid; cbn; lia]|].
match goal with E : (if 0 <? _ then _ else _) _ _ = Ok _ |- _ => apply detach_inv in E as [-> Hr] end.
pose proof (proj1 Hp _ _ Ex) as Hx. split.
- destruct Hp as [H1 H2]. split; [|done]. cbn. intros a y [_ Hy]%lookup_delete_Some. by eapply H1.
- rewrite !paid_app, Hr. unfold owed, revenue_total, storage_total. cbn. rewrite map_sum_delete_any, Ex. change (paid []) with 0. lia.
Qed.
Lemma add_revenue_costs v n : costs e (fun _ => 0) n (add_revenue_to_validator v n).
Proof.
intros c b c' es Hp H. unfold add_revenue_to_validator in H. m_inv. res_inv. split; [apply purse_revenue; [lia | done]|].
rewrite owed_revenue. unfold paid. cbn. lia.
Qed.
Lemma pay_costs p q n : costs e (fun _ => 0) (attached_deposit e) (pay p q n).
Proof.
unfold pay. costs_walk. apply (costs_bind e (fun _ => 0)); [apply add_revenue_costs | intro]. costs_walk. lia.
Qed.
End storage.

(** ** Public calls *)
Section entries.
Context `{HC : Crypto} `{IS : IdSet} (e : Env).

Lemma alone_costs {A} t (m : MS A) : costs e (fun _ => 0) t m -> costs e load t (alone m).
Proof. intros Hm. unfold alone. eapply costs_bind; [exact Hm|]. intro. by apply costs_ret. Qed.
Lemma alone_quiet {A} t (m : MS A) : 0 <= t -> quiet m -> costs e load t (alone m).
Proof. intros Ht Hm. apply alone_costs. eapply costs_le; [exact Ht | apply Hm]. Qed.

Lemma settlement_costs v k t : escrow_of k <= t -> costs e load t (promise_validator_per_epoch_settlement_then v k).
Proof.
intros Ht c p c' es Hp H. pose proof H as Hd. apply (same_due_inv _ _ _ _ _ _ (due_settlement v k)) in Hd.
rewrite (paid_emits _ _ _ _ _ _ H) by emits_auto. split; [by eapply due_purse|]. injection Hd as -> _ _.
enough (load p = escrow_of k) by lia. unfold promise_validator_per_epoch_settlement_then, promise_get_validator_pool_account in H.
m_all; [apply dispatch_load | unfold load, list_sum_Z, then_; cbn; lia].
Qed.
#[local] Hint Resolve settlement_costs : costs.

Lemma exec_costs x : 0 <= attached_deposit e -> costs e load (attached_deposit e) (exec x).
Proof.
intros Hd. destruct x; cbn [exec]; try (apply alone_quiet; [done|];
unfold pause, unpause, propose_new_owner_account_id, accept_ownership, set_guardians, set_per_lock_storage_stake,
set_per_farm_position_storage_stake, set_per_purchase_storage_stake, set_lock_bounds, set_min_lock_amount,
set_min_storage_deposit, set_epoch_unstake_settle_epochs, assert_owner_payable; intros; quiet_solve);
unfold add_validator_catalog_manager,
remove_validator_catalog_manager, create_product, edit_product, archive_product, delete_product, unarchive_product,
set_product_default_price, create_price, edit_price, archive_price, unarchive_price, delete_price,
promise_catalog_admin_on_pool, promise_catalog_admin_on_product, promise_catalog_admin_on_price, promise_pool_get_owner_id_then, withdraw_revenue,
StakingLocks.lock, lock_with_price_id, lock_one_off_with_catalog, lock_recurring_subscription_with_catalog,
unlock, StakingLocks.withdraw, epoch_settle, stake, unstake, update_subscription; costs_walk;
try (unfold load, list_sum_Z, then_; cbn; lia); try (apply settlement_costs; unfold escrow_of; cbn; lia).
- apply alone_costs. by apply storage_deposit_costs.
- apply alone_costs. eapply costs_le; [exact Hd | apply storage_withdraw_costs].
- apply alone_costs. eapply costs_le; [exact Hd | apply storage_unregister_costs].
- apply alone_costs, pay_costs.
- apply (costs_bind e (fun x => x.2)).
+ unfold lock_entry_preamble. costs_walk. cbn. lia.
+ intros [buyer locked]. cbn [snd]. costs_walk; (apply settlement_costs; unfold escrow_of; cbn; lia).
Qed.
End entries.

(** ** Callbacks *)
Section callbacks.
Context `{HC : Crypto} `{IS : IdSet} (e : Env).

Definition bring (c : Contract) (r : option Answer) (x : SelfCall) : Z := hold_call x + head_hold r x - head_sent c r x.

Lemma giving_costs {A} (f : A -> Answer) t m : costs e (fun _ => 0) t m -> costs e (fun x => load (promise_of x)) t (giving f m).
Proof. intros Hm. unfold giving. eapply costs_bind; [exact Hm|]. intro. by apply costs_ret. Qed.
Lemma returning_costs t m : costs e load t m -> costs e (fun x => load (promise_of x)) t (returning m).
Proof. intros Hm. unfold returning. eapply costs_bind; [exact Hm|]. intro. by apply costs_ret. Qed.
Lemma mapping_costs {A} (f : A -> Answer) t m :
costs e (fun x => load (promise_of x)) t m -> costs e (fun x => load (promise_of x)) t (mapping f m).
Proof. intros Hm. unfold mapping. eapply costs_bind; [exact Hm|]. intros []; by apply costs_ret. Qed.
Lemma staked_costs {A} n (m : MS A) : emits stays m -> (forall c a c' es, m e c = Ok (a, c', es) -> dues c' = plus_due n (dues c)) ->
costs e (fun _ => 0) n m.
Proof. intros He Hm. rewrite <- (Z.add_0_r n). by apply costs_plus. Qed.

Lemma answered_success r : promise_results e = results_of r -> is_promise_success e = answered r.
Proof. unfold is_promise_success. intros ->. by destruct r as [[]|]. Qed.

(** A withdrawal from the pool is of some NEAR. *)
Definition amount_ok (x : SelfCall) : Prop := match x with OnEpochWithdrawTransferDone _ n => 0 <= n | _ => True end.

(** The callbacks of a stake or an unstake read the buckets they clear. *)
Definition clears (x : SelfCall) : bool := match x with OnDepositAndStake _ | OnUnstake _ => true | _ => false end.

Lemma run_costs_most x r : clears x = false -> call_ok x -> amount_ok x -> promise_results e = results_of r ->
costs e (fun y => load (promise_of y)) (hold_call x + head_hold r x) (run_self_call x r).
Proof.
intros Hc Hx Ha Hr. pose proof (answered_success r Hr) as Hs.
destruct x; try discriminate Hc; cbn [run_self_call hold_call head_hold call_ok amount_ok] in *;
rewrite ?Z.add_0_r, ?Z.add_0_l; try (apply giving_costs; quiet_solve).
- apply returning_costs, after_account_costs.
- apply giving_costs. rewrite <- Hs. pose proof (withdraw_done_costs e v withdrawn 0 Ha) as H. by rewrite Z.add_0_r in H.
- apply mapping_costs, maybe_settle_costs.
- apply returning_costs. costs_walk. rewrite dispatch_load. lia.
- apply giving_costs, staked_costs; [emits_auto | apply resolve_lock_due].
- apply giving_costs, staked_costs; [emits_auto | apply recurring_lock_due].
- apply giving_costs, staked_costs; [emits_auto | apply farm_stake_due].
- apply giving_costs. intros c a c' es Hp H. rewrite (paid_emits _ _ _ _ _ _ H) by emits_auto.
apply subscription_update_due in H as (k & Hk & Hor). split; [by eapply plus_purse|]. injection Hk as -> _ _. lia.
- apply returning_costs. unfold on_withdraw_user_transfer_after_settle. costs_step. apply payout_costs.
- apply giving_costs. unfold on_epoch_pipeline_terminal_release. quiet_solve.
- apply mapping_costs, release_with_costs.
- apply mapping_costs, release_with_costs.
- apply mapping_costs, release_with_costs.
- apply returning_costs, withdraw_revenue_costs.
Qed.

Lemma run_costs x r c ans c' es : Inv c -> purse_ok c -> call_ok x -> amount_ok x -> promise_results e = results_of r ->
run_self_call x r e c = Ok (ans, c', es) ->
purse_ok c' /\ owed c' + load (promise_of ans) + paid es <= owed c + bring c r x.
Proof.
intros HI Hp Hx Ha Hr H. unfold bring. destruct (clears x) eqn:Hc.
- destruct x; try discriminate Hc; cbn [run_self_call] in H; unfold giving in H; m_inv; cbn [hold_call head_hold head_sent promise_of];
rewrite app_nil_r; change (load []) with 0.
+ match goal with E : on_deposit_and_stake _ _ _ = Ok _ |- _ => apply deposit_done_owed in E as (Hp' & -> & Ho); [|done..] end.
split; [done|]. rewrite (answered_success r Hr) in Ho. lia.
+ match goal with E : on_unstake _ _ _ = Ok _ |- _ => apply unstake_done_owed in E as (Hp' & -> & Ho); [|done..] end.
split; [done|]. lia.
- assert (head_sent c r x = 0) as -> by (by destruct x). rewrite Z.sub_0_r. by eapply run_costs_most.
Qed.
End callbacks.
