(* ===== verification/StakingTimeline.v ===== *)
(** * Stages of a chain, and epochs that do not go back

    Every chain of promises in flight is in one of a few stages. While a stake
    is on its way to a pool the buckets it was computed from do not change:
    the chain holds the ticket of the validator, and the one change that needs
    no ticket, a due decrease of a subscription, waits for the settlement of
    the epoch. *)
From stdpp Require Import base gmap strings list.
From Stdlib Require Import ZArith Lia.
From S2P Require Import Prelude.
From S2P Require Import Near.
From S2P Require Import MerkleTree.
From S2P Require Import StakingTypes.
From S2P Require Import StakingMath.
From S2P Require Import StakingContract.
From S2P Require Import StakingCatalog.
From S2P Require Import StakingEpoch.
From S2P Require Import StakingSubscriptions.
From S2P Require Import StakingLocks.
From S2P Require Import StakingFarm.
From S2P Require Import StakingWorld.
From S2P Require Import StakingBooks.
From S2P Require Import StakingStake.
From S2P Require Import StakingInvariant.
From S2P Require Import StakingTails.
From S2P Require Import StakingCat.
From S2P Require Import StakingReach.
From S2P Require Import StakingExits.
From S2P Require Import StakingPipeline.
From S2P Require Import StakingMoney.

Local Open Scope Z_scope.
Local Open Scope record_scope.

(** ** What a settlement reads and writes *)
Definition pend (x : Validator.t) : Z * Z * Z :=
  (Validator.pending_to_stake x, Validator.pending_to_unstake x, Validator.last_settlement_epoch x).
Definition at_pend (v : ValidatorId) (t : Z * Z * Z) (c : Contract) : Prop :=
  exists x, validators c !! v = Some x /\ pend x = t.

Lemma at_pend_write v t c c' u x x' : at_pend v t c -> validators c !! u = Some x -> validators c' = <[u := x']> (validators c) ->
  (u = v -> pend x' = pend x) -> at_pend v t c'.
Proof.
  intros (y & Hy & Ht) Hu E Hp. unfold at_pend. rewrite E. destruct (decide (u = v)) as [->|Hne].
  - exists x'. rewrite lookup_insert_eq. split; [done|]. rewrite Hy in Hu. injection Hu as ->. by rewrite Hp.
  - exists y. by rewrite lookup_insert_ne.
Qed.
Lemma at_pend_validators v t c c' : validators c' = validators c -> at_pend v t c -> at_pend v t c'.
Proof. intros E. unfold at_pend. by rewrite E. Qed.
Lemma pend_same {A} v t (m : MS A) : same_books m -> keeps (at_pend v t) m.
Proof.
  intros Hm e c a c' es HP H. apply (same_books_inv _ _ _ _ _ _ Hm) in H. unfold books, ledger in H. injection H as E _.
  by eapply at_pend_validators.
Qed.
#[export] Hint Resolve pend_same : keeps.

Ltac frame_pend HP :=
  match goal with
  | H : ?m ?e ?c = Ok (_, ?c', _) |- _ =>
      match type of HP with at_pend ?v ?t c =>
        let K := fresh "K" in assert (K : keeps (at_pend v t) m) by solve [auto with keeps nocore];
        apply (K _ _ _ _ _ HP) in H; clear K HP; rename H into HP end
  end.
Ltac push_pend HP :=
  repeat match goal with
  | H : ?m ?e ?c = Ok (_, ?c', _) |- _ =>
      match type of HP with at_pend ?v ?t c =>
        let K := fresh "K" in assert (K : keeps (at_pend v t) m)
          by solve [keeps_walk; try (eapply at_pend_validators; [|eassumption]; reflexivity)];
        apply (K _ _ _ _ _ HP) in H; clear K HP; rename H into HP end
  end.
(** A computation that writes one validator: another one, or none of [pend]. *)
Ltac rewrite_pend :=
  intros ? ? ? ? ? HP H; m_all; read; repeat frame_pend HP; try done;
  (eapply at_pend_write; [exact HP | eassumption | reflexivity | done]).
Ltac not_pend := keeps_walk; try (eapply at_pend_validators; [|eassumption]; reflexivity).

Section pend.
Context `{HC : Crypto} `{IS : IdSet} (v : ValidatorId) (t : Z * Z * Z).
Abbreviation calm m := (keeps (at_pend v t) m) (only parsing).

Lemma pend_stake a u n : u <> v -> calm (internal_stake a u n).
Proof.
intros Hne e c s c' es HP H. apply internal_stake_inv in H as (x & Hx & _ & _ & _ & _ & ->).
by eapply at_pend_write; [exact HP | exact Hx | reflexivity |].
Qed.
Lemma pend_unstake a u n : u <> v -> calm (internal_unstake a u n).
Proof.
intros Hne e c s c' es HP H. apply internal_unstake_inv in H as (x & counts & h & Hx & _ & _ & _ & _ & _ & _ & _ & ->).
by eapply at_pend_write; [exact HP | exact Hx | reflexivity |].
Qed.
Lemma pend_claim a u : calm (claim_from_withdraw_bucket a u).
Proof.
intros e c s c' es HP H. apply claim_inv in H as (x & counts & Hx & _ & _ & _ & ->).
by eapply at_pend_write; [exact HP | exact Hx | reflexivity |].
Qed.
Lemma pend_release u : calm (release_validator_pool_pipeline u).
Proof. unfold release_validator_pool_pipeline. rewrite_pend. Qed.
Lemma pend_settlement u k : calm (promise_validator_per_epoch_settlement_then u k).
Proof. unfold promise_validator_per_epoch_settlement_then, promise_get_validator_pool_account. rewrite_pend. Qed.
Lemma pend_mark u a : u <> v -> calm (mark_epoch_settlement_handled u a).
Proof. intros Hne. unfold mark_epoch_settlement_handled. rewrite_pend. Qed.
Lemma pend_net_zero u n : u <> v -> calm (apply_net_zero_pending_matched_clear u n).
Proof. intros Hne. unfold apply_net_zero_pending_matched_clear. rewrite_pend. Qed.
Lemma pend_deposit_done u : u <> v -> calm (on_deposit_and_stake u).
Proof. intros Hne. unfold on_deposit_and_stake. rewrite_pend. Qed.
Lemma pend_unstake_done u : u <> v -> calm (on_unstake u).
Proof. intros Hne. unfold on_unstake. rewrite_pend. Qed.
Lemma pend_withdraw_done u n : calm (on_epoch_withdraw_transfer_done u n).
Proof. unfold on_epoch_withdraw_transfer_done. rewrite_pend. Qed.
Lemma pend_pause_validator u : calm (pause_validator u).
Proof. unfold pause_validator. rewrite_pend. Qed.
Lemma pend_remove_validator u : calm (remove_validator u).
Proof. unfold remove_validator. rewrite_pend. Qed.
Lemma pend_add_manager r u m a : calm (add_validator_catalog_manager_after_get_owner r u m a).
Proof. unfold add_validator_catalog_manager_after_get_owner. rewrite_pend. Qed.
Lemma pend_remove_manager r u m a : calm (remove_validator_catalog_manager_after_get_owner r u m a).
Proof. unfold remove_validator_catalog_manager_after_get_owner. rewrite_pend. Qed.
Lemma pend_add_validator u : calm (add_validator u).
Proof.
unfold add_validator. intros e c a c' es HP H. m_inv. repeat frame_pend HP. read. destruct HP as (x & Hx & Ht). exists x. cbn.
match goal with B : match ?y with _ => _ end = true |- _ => destruct y eqn:Hv; [done|] end.
split; [|done]. rewrite lookup_insert_ne; [done | congruence].
Qed.
Lemma pend_set_lock l x : calm (internal_set_lock l x).
Proof. unfold internal_set_lock. not_pend. Qed.
Lemma pend_set_position p : calm (internal_set_farm_position p).
Proof. unfold internal_set_farm_position. not_pend. Qed.
Lemma pend_set_pool id l : calm (internal_set_farm_pool id l).
Proof. unfold internal_set_farm_pool. not_pend. Qed.
Lemma pend_set_account a x : calm (internal_set_account a x).
Proof. unfold internal_set_account. not_pend. Qed.
#[local] Hint Resolve pend_stake pend_unstake pend_claim pend_release pend_settlement pend_mark pend_net_zero pend_set_lock pend_set_position
pend_set_pool pend_set_account : keeps.
Lemma pend_settle_pool id : calm (settle_farm_pool id).
Proof. unfold settle_farm_pool. not_pend. Qed.
#[local] Hint Resolve pend_settle_pool : keeps.
Lemma pend_settle_position a q : calm (settle_farm_position a q).
Proof. unfold settle_farm_position. not_pend. Qed.
#[local] Hint Resolve pend_settle_position : keeps.
Lemma pend_sync s : calm (sync_subscription_lock_window s).
Proof. unfold sync_subscription_lock_window. not_pend. Qed.
#[local] Hint Resolve pend_sync : keeps.
Lemma pend_commit_lock a n d o u f : u <> v -> calm (commit_catalog_lock a n d o u f).
Proof. intros Hne. unfold commit_catalog_lock. not_pend. Qed.
#[local] Hint Resolve pend_commit_lock : keeps.
Lemma pend_resolve_lock a n d o u : u <> v -> calm (resolve_lock a n d o u).
Proof. intros Hne. unfold resolve_lock. not_pend. Qed.
Lemma pend_resolve_unlock l a u n : u <> v -> calm (resolve_unlock l a u n).
Proof. intros Hne. unfold resolve_unlock. not_pend. Qed.
Lemma pend_update_inputs a p n id x : calm (checked_subscription_update_inputs a p n id x).
Proof. unfold checked_subscription_update_inputs. not_pend. Qed.
Lemma pend_farm_stake a n q p u : u <> v -> calm (resolve_farm_stake a n q p u).
Proof. intros Hne. unfold resolve_farm_stake, commit_farm_stake. not_pend. Qed.
Lemma pend_farm_unstake a q u n : u <> v -> calm (resolve_farm_unstake a q u n).
Proof. intros Hne. unfold resolve_farm_unstake, commit_farm_unstake. not_pend. Qed.
Lemma pend_payout a u : calm (payout_user_withdraw a u).
Proof. unfold payout_user_withdraw. not_pend. Qed.
Lemma pend_pay p q n : calm (pay p q n).
Proof. unfold pay, add_revenue_to_validator. not_pend. Qed.
Lemma pend_withdraw_revenue r u a : calm (withdraw_revenue_after_get_owner r u a).
Proof. unfold withdraw_revenue_after_get_owner. not_pend. Qed.
Lemma pend_create_price r q n d x ty pe f m a : calm (create_price_after_get_owner r q n d x ty pe f m a).
Proof. unfold create_price_after_get_owner. not_pend. Qed.
Lemma pend_edit_price r p n d m a : calm (edit_price_after_get_owner r p n d m a).
Proof. unfold edit_price_after_get_owner. not_pend. Qed.
Lemma pend_delete_price r p a : calm (delete_price_after_get_owner r p a).
Proof. unfold delete_price_after_get_owner. not_pend. Qed.
Lemma pend_storage_deposit a o : calm (storage_deposit a o).
Proof. unfold storage_deposit. not_pend. Qed.
Lemma pend_storage_withdraw n : calm (storage_withdraw n).
Proof. unfold storage_withdraw. not_pend. Qed.
Lemma pend_storage_unregister f : calm (storage_unregister f).
Proof. unfold storage_unregister. not_pend. Qed.
Lemma pend_cancel id : calm (cancel_subscription id).
Proof. unfold cancel_subscription. not_pend. Qed.
Lemma pend_resume id : calm (resume_subscription id).
Proof. unfold resume_subscription. not_pend. Qed.
End pend.
#[export] Hint Resolve pend_stake pend_unstake pend_claim pend_release pend_settlement pend_mark pend_net_zero pend_deposit_done
  pend_unstake_done pend_withdraw_done pend_pause_validator pend_remove_validator pend_add_manager pend_remove_manager
  pend_add_validator pend_set_lock pend_set_position pend_set_pool pend_set_account pend_settle_pool pend_settle_position
  pend_sync pend_commit_lock pend_resolve_lock pend_resolve_unlock pend_update_inputs pend_farm_stake pend_farm_unstake
  pend_payout pend_pay pend_withdraw_revenue pend_create_price pend_edit_price pend_delete_price pend_storage_deposit
  pend_storage_withdraw pend_storage_unregister pend_cancel pend_resume : keeps.

(** ** A due decrease waits for the settlement of the epoch *)
Definition holds {A} (e : Env) (P : Contract -> Prop) (m : MS A) : Prop :=
  forall c a c' es, P c -> m e c = Ok (a, c', es) -> P c'.

Lemma holds_keeps {A} e P (m : MS A) : keeps P m -> holds e P m.
Proof. intros Hm c a c' es HP H. by eapply Hm. Qed.
Lemma holds_bind {A B} e P (m : MS A) (f : A -> MS B) : holds e P m -> (forall a, holds e P (f a)) -> holds e P (mbind f m).
Proof. intros Hm Hf c a c' es HP H. m_inv. eapply Hf; [|exact H]. by eapply Hm. Qed.

Section guarded.
Context `{HC : Crypto} `{IS : IdSet} (e : Env) (v : ValidatorId) (t : Z * Z * Z) (Hlate : t.2 < epoch_height e).

(** The validator of a lock that may be decreased was settled in this epoch. *)
Lemma guarded_decrease c s id buyer stored n u c1 es1 u2 c2 es2 : at_pend v t c ->
match locks c !! Subscription.last_lock_id stored with
| Some lock =>
x ← require_validator (Lock.validator_id lock);
requireM (epoch_height e <=? Validator.last_settlement_epoch x) id
| None => mret tt
end e c = Ok (u, c1, es1) ->
apply_scheduled_stake_decrease_at_renewal buyer s n e c1 = Ok (u2, c2, es2) -> s = stored -> at_pend v t c2.
Proof.
intros HP Hg H ->. unfold apply_scheduled_stake_decrease_at_renewal in H. 
assert (c1 = c) as Ec by (destruct (locks c !! _); m_inv; read; done). subst c1.
apply bindM_Ok_inv in H as (c0 & c1 & es3 & es4 & H0 & H & _). apply getM_Ok_inv in H0 as (-> & -> & _).
destruct (locks c !! _) as [lock|]; [|by m_inv]. apply bindM_Ok_inv in Hg as (x & c1 & es5 & es6 & Hx & Hg & _).
apply require_validator_inv in Hx as (Hx & _ & _). apply requireM_Ok_inv in Hg as (Hle & _ & _). bool_prop.
assert (Lock.validator_id lock <> v) as Hne.
{ intros Ev. destruct HP as (y & Hy & Ht). rewrite Ev, Hy in Hx. simplify_eq. unfold pend in Hlate. cbn in Hlate. lia. }
revert HP H. apply (holds_keeps e). not_pend.
Qed.

Lemma pend_apply_due id : holds e (at_pend v t) (apply_due_subscription_update id).
Proof.
intros c b c' es HP H. unfold apply_due_subscription_update in H. m_inv.
destruct (subscriptions c !! id) as [stored|]; m_inv; [|done]. m_case; m_inv; [done|].
destruct (Subscription.pending_update stored) as [pending|]; m_inv; [|done]. m_case; m_inv; [done|].
match goal with E : match PendingSubscriptionUpdate.target_price_id pending with _ => _ end _ _ = Ok (_, ?c1, _) |- _ =>
assert (c1 = c) as Ec by (destruct (PendingSubscriptionUpdate.target_price_id pending); m_inv; read_cat; done); clear E; subst c1 end.
assert (at_pend v t s0) as HP0.
{ destruct (PendingSubscriptionUpdate.target_amount pending); m_inv; [|done]. by eapply guarded_decrease. }
clear HP E0. by push_pend HP0.
Qed.

Lemma pend_recurring a p q : holds e (at_pend v t) (resolve_recurring_subscription a p q).
Proof.
unfold resolve_recurring_subscription. do 2 (apply holds_bind; [apply holds_keeps; not_pend|intro]).
apply holds_bind; [apply holds_keeps; not_pend|intro o]. apply holds_bind; [apply holds_keeps; not_pend|intro].
destruct o as [sid|]; [|apply holds_keeps; not_pend]. apply holds_bind; [apply pend_apply_due|intro]. apply holds_keeps. not_pend.
Qed.
Lemma pend_recurring_lock a n p u : u <> v -> holds e (at_pend v t) (resolve_recurring_subscription_lock_after_settle a n p u).
Proof.
intros Hne. unfold resolve_recurring_subscription_lock_after_settle, commit_recurring_subscription_lock_after_settle.
do 2 (apply holds_bind; [apply holds_keeps; not_pend|intro]). apply holds_bind; [apply holds_keeps; not_pend|intros [price product]].
do 3 (apply holds_bind; [apply holds_keeps; not_pend|intro]). apply holds_bind; [apply pend_recurring|intros [[[sub sid] new] now]].
apply holds_keeps. not_pend.
Qed.
Lemma pend_subscription_update a n p k id u : u <> v -> holds e (at_pend v t) (on_subscription_update_after_settle a n p k id u).
Proof.
intros Hne. unfold on_subscription_update_after_settle, commit_subscription_update_after_settle.
apply holds_bind; [apply holds_keeps; not_pend|intro]. apply holds_bind; [|intro; apply holds_keeps; not_pend].
apply holds_bind; [apply pend_apply_due|intro]. apply holds_keeps. not_pend.
Qed.
End guarded.

(** ** Calls *)

(** The validator whose buckets a callback may settle. *)
Definition target (x : SelfCall) : option ValidatorId :=
  match x with
  | OnEpochSettlementAfterPoolAccount v _ | OnAfterPoolWithdrawMaybeSettle v _ | OnDepositAndStake v | OnUnstake v
  | ResolveLock _ _ _ _ v | ResolveRecurringSubscriptionLockAfterSettle _ _ _ v | ResolveFarmStake _ _ _ _ v
  | OnSubscriptionUpdateAfterSettle _ _ _ _ _ v | ResolveUnlock _ _ v _ | ResolveFarmUnstake _ _ v _ => Some v
  | _ => None
  end.

Section calls.
Context `{HC : Crypto} `{IS : IdSet} (v : ValidatorId) (t : Z * Z * Z).

Lemma pend_try_epoch u k : u <> v -> keeps (at_pend v t) (try_epoch_stake_or_unstake u k).
Proof. intros Hne. unfold try_epoch_stake_or_unstake. not_pend. Qed.
Lemma pend_refund u a n : keeps (at_pend v t) (refund_payable_pipeline u a n).
Proof. unfold refund_payable_pipeline. not_pend. Qed.
#[local] Hint Resolve pend_try_epoch pend_refund : keeps.
Lemma pend_after_account r u k : u <> v -> keeps (at_pend v t) (on_epoch_settlement_after_pool_account r u k).
Proof.
intros Hne. unfold on_epoch_settlement_after_pool_account. apply keeps_bind; [auto with keeps nocore|intro]. destruct r as [view|]; [|not_pend].
intros e c p c' es HP H. m_inv. read.
match goal with H : _ e ?c1 = Ok (p, c', _) |- _ =>
assert (at_pend v t c1) as HP1 by (eapply at_pend_write; [exact HP | eassumption | reflexivity | done]); set (c1' := c1) in *; clearbody c1' end.
clear HP. revert HP1 H. apply (holds_keeps e). unfold try_epoch_withdraw_known_unstaked. not_pend.
Qed.
#[local] Hint Resolve pend_after_account : keeps.

Lemma run_pend x r e : t.2 < epoch_height e -> target x <> Some v -> holds e (at_pend v t) (run_self_call x r).
Proof.
intros Hlate Hne. assert (forall u, target x = Some u -> u <> v) as Hu by congruence. clear Hne.
destruct x; cbn [run_self_call target] in *; unfold giving, returning, mapping;
try specialize (Hu _ eq_refl);
try (apply holds_keeps; unfold on_after_pool_withdraw_maybe_settle, on_withdraw_user_transfer_after_settle, on_epoch_pipeline_terminal_release,
on_epoch_pipeline_release_with_lock_id, on_epoch_pipeline_release_with_farm_position,
on_epoch_pipeline_release_with_subscription_update_outcome; solve [not_pend]);
(apply holds_bind; [|intro; apply holds_keeps; not_pend]).
- by apply pend_recurring_lock.
- by apply pend_subscription_update.
Qed.

Lemma exec_pend x : keeps (at_pend v t) (exec x).
Proof.
destruct x; cbn [exec]; unfold alone;
unfold pause, unpause, propose_new_owner_account_id, accept_ownership, set_guardians, set_per_lock_storage_stake,
set_per_farm_position_storage_stake, set_per_purchase_storage_stake, set_lock_bounds, set_min_lock_amount,
set_min_storage_deposit, set_epoch_unstake_settle_epochs, assert_owner_payable, add_validator_catalog_manager,
remove_validator_catalog_manager, create_product, edit_product, archive_product, delete_product, unarchive_product,
set_product_default_price, create_price, edit_price, archive_price, unarchive_price, delete_price,
promise_catalog_admin_on_pool, promise_catalog_admin_on_product, promise_catalog_admin_on_price, withdraw_revenue,
StakingLocks.lock, lock_with_price_id, lock_entry_preamble, lock_one_off_with_catalog, lock_recurring_subscription_with_catalog,
unlock, StakingLocks.withdraw, epoch_settle, stake, unstake, update_subscription; not_pend.
Qed.
End calls.

(** ** The stages of a chain *)
Definition catalog_call (x : SelfCall) : bool :=
  match x with
  | AddValidatorCatalogManagerAfterGetOwner _ _ _ | RemoveValidatorCatalogManagerAfterGetOwner _ _ _
  | CreateProductAfterGetOwner _ _ _ _ | EditProductAfterGetOwner _ _ _ _ | ArchiveProductAfterGetOwner _ _
  | DeleteProductAfterGetOwner _ _ | UnarchiveProductAfterGetOwner _ _ | SetProductDefaultPriceAfterGetOwner _ _ _
  | CreatePriceAfterGetOwner _ _ _ _ _ _ _ _ _ | EditPriceAfterGetOwner _ _ _ _ _ | ArchivePriceAfterGetOwner _ _
  | DeletePriceAfterGetOwner _ _ | UnarchivePriceAfterGetOwner _ _ | WithdrawRevenueAfterGetOwner _ _ => true
  | _ => false
  end.

(** Nothing left but to release the validator. *)
Inductive released : Promise -> Prop :=
| released_nil : released []
| released_terminal v g : released [CallSelf (OnEpochPipelineTerminalRelease v) g].

(** The chains that occur, with the answer their head awaits. *)
Inductive stage : Chain -> Prop :=
| st_released p r : released p -> stage (mkChain p r)
| st_transfer a n p r : 0 <= n -> released p -> stage (mkChain (TransferTo a n :: p) r)
| st_owner pool g x g' r : catalog_call x = true -> stage (mkChain [CallPool pool GetOwnerId 0 g; CallSelf x g'] r)
| st_catalog x g r : catalog_call x = true -> stage (mkChain [CallSelf x g] r)
| st_account v k a g g' r : UserAction.validator_id k = v ->
    stage (mkChain [CallPool v (GetAccount a) 0 g; CallSelf (OnEpochSettlementAfterPoolAccount v k) g'] r)
| st_settle v k g r : UserAction.validator_id k = v -> stage (mkChain [CallSelf (OnEpochSettlementAfterPoolAccount v k) g] r)
| st_withdraw v n k g g1 g2 r : UserAction.validator_id k = v -> 0 < n ->
    stage (mkChain [CallPool v (Withdraw n) 0 g; CallSelf (OnEpochWithdrawTransferDone v n) g1;
                    CallSelf (OnAfterPoolWithdrawMaybeSettle v k) g2] r)
| st_withdrawn v n k g1 g2 a : UserAction.validator_id k = v -> 0 < n ->
    stage (mkChain [CallSelf (OnEpochWithdrawTransferDone v n) g1; CallSelf (OnAfterPoolWithdrawMaybeSettle v k) g2] (Some a))
| st_maybe v k g r : UserAction.validator_id k = v -> stage (mkChain [CallSelf (OnAfterPoolWithdrawMaybeSettle v k) g] r)
| st_stake v d k g g1 g2 r : UserAction.validator_id k = v ->
    stage (mkChain [CallPool v DepositAndStake d g; CallSelf (OnDepositAndStake v) g1;
                    CallSelf (OnEpochSettlementDispatchContinue k) g2] r)
| st_staked v k g1 g2 a : UserAction.validator_id k = v ->
    stage (mkChain [CallSelf (OnDepositAndStake v) g1; CallSelf (OnEpochSettlementDispatchContinue k) g2] (Some a))
| st_unstake v n k g g1 g2 r : UserAction.validator_id k = v ->
    stage (mkChain [CallPool v (Unstake n) 0 g; CallSelf (OnUnstake v) g1; CallSelf (OnEpochSettlementDispatchContinue k) g2] r)
| st_unstaked v k g1 g2 r : UserAction.validator_id k = v ->
    stage (mkChain [CallSelf (OnUnstake v) g1; CallSelf (OnEpochSettlementDispatchContinue k) g2] r)
| st_dispatch k g r : stage (mkChain [CallSelf (OnEpochSettlementDispatchContinue k) g] r)
| st_tail k tail kind r : tail_of k = Some (tail, kind) ->
    stage (mkChain [tail; release_step kind (UserAction.validator_id k) k] r)
| st_after k tail kind a : tail_of k = Some (tail, kind) ->
    stage (mkChain [release_step kind (UserAction.validator_id k) k] (Some a)).

(** What the receipt at the head has at hand is what its answer brought. *)
Definition at_head (f : SelfCall -> Z) (p : Promise) : Z := match p with CallSelf x _ :: _ => f x | _ => 0 end.

Definition plain (x : Chain) : Prop :=
  at_head (head_hold (awaited x)) (steps x) = 0 /\ forall c, at_head (head_sent c (awaited x)) (steps x) = 0.
Definition reached (x : Chain) : Prop := stage x /\ plain x.

Definition next (ans : PromiseOrValue Answer) (rest : Promise) : Chain :=
  match ans with Value a => mkChain rest (Some a) | Returned p => mkChain (p ++ rest) None end.

Lemma fresh_plain p : stage (mkChain p None) -> plain (mkChain p None).
Proof.
  intros H. inversion H; subst; split; cbn; try done.
  all: try (match goal with H : released _ |- _ => by inversion H end).
  all: try (by destruct x).
  all: match goal with H : tail_of ?k = Some _ |- _ => destruct k; try discriminate; injection H as <- <-; done end.
Qed.

Lemma dispatch_stage k r : stage (mkChain (on_epoch_settlement_dispatch_continue k) r).
Proof.
  unfold on_epoch_settlement_dispatch_continue. destruct (tail_of k) as [[tail kind]|] eqn:E; [by apply st_tail|].
  apply st_released. constructor.
Qed.

Section stages.
Context `{HC : Crypto} `{IS : IdSet} (e : Env).
Abbreviation staged := (fun p => stage (mkChain p None)) (only parsing).

Lemma try_epoch_stage v k : UserAction.validator_id k = v -> yields e staged (try_epoch_stake_or_unstake v k).
Proof.
intros Hk. pose proof (dispatch_stage k None). unfold try_epoch_stake_or_unstake, then_. yields_walk; try done; by constructor.
Qed.
Lemma settlement_stage v k : UserAction.validator_id k = v -> yields e staged (promise_validator_per_epoch_settlement_then v k).
Proof.
intros Hk c p c' es H. unfold promise_validator_per_epoch_settlement_then, promise_get_validator_pool_account in H.
m_all; [apply dispatch_stage | by constructor].
Qed.
Lemma refund_stage v a n : 0 <= n -> yields e staged (refund_payable_pipeline v a n).
Proof. intros Hn. unfold refund_payable_pipeline. yields_walk. apply st_transfer; [done | constructor]. Qed.
Lemma payable_ok k a n : action_ok k -> UserAction.payable_refund k = Some (a, n) -> 0 <= n.
Proof. destruct k; cbn; try discriminate; by intros ? [= _ <-]. Qed.
Lemma after_account_stage r v k : UserAction.validator_id k = v -> action_ok k -> yields e staged (on_epoch_settlement_after_pool_account r v k).
Proof.
intros Hk Hok. unfold on_epoch_settlement_after_pool_account. apply yields_bind. intro. destruct r as [view|].
- intros c p c' es H. m_inv. m_case; [|by eapply try_epoch_stage]. bool_prop. unfold try_epoch_withdraw_known_unstaked, promise_epoch_withdraw_unstaked in H.
m_inv. bool_prop. by constructor.
- destruct (UserAction.payable_refund k) as [[]|] eqn:E; [by eapply refund_stage, payable_ok|]. yields_walk. repeat constructor.
Qed.

Lemma exec_stage x : yields e staged (exec x).
Proof.
destruct x; cbn [exec]; unfold alone; try solve [yields_walk; repeat constructor];
unfold add_validator_catalog_manager,
remove_validator_catalog_manager, create_product, edit_product, archive_product, delete_product, unarchive_product,
set_product_default_price, create_price, edit_price, archive_price, unarchive_price, delete_price,
promise_catalog_admin_on_pool, promise_catalog_admin_on_product, promise_catalog_admin_on_price, promise_pool_get_owner_id_then, withdraw_revenue, then_,
StakingLocks.lock, lock_with_price_id, lock_one_off_with_catalog, lock_recurring_subscription_with_catalog,
unlock, StakingLocks.withdraw, epoch_settle, stake, unstake, update_subscription; yields_walk;
first [by apply st_owner | by apply settlement_stage].
Qed.
Lemma giving_next {A} (f : A -> Answer) m rest : (forall a, reached (mkChain rest (Some (f a)))) ->
yields e (fun ans => reached (next ans rest)) (giving f m).
Proof. intros Hf. unfold giving. apply yields_bind. intro a. apply yields_ret, Hf. Qed.
Lemma returning_next m rest : yields e (fun p => stage (mkChain (p ++ rest) None)) m ->
yields e (fun ans => reached (next ans rest)) (returning m).
Proof. intros Hm. unfold returning. eapply yields_post; [exact Hm|]. intros p Hp. apply yields_ret. split; [done | by apply fresh_plain]. Qed.
Lemma returning_last m : yields e staged m -> yields e (fun ans => reached (next ans [])) (returning m).
Proof. intros Hm. apply returning_next. intros c p c' es H. rewrite app_nil_r. by eapply Hm. Qed.

Lemma nothing_left a : reached (mkChain [] a).
Proof. split; [repeat constructor | done]. Qed.

Lemma catalog_next x r : catalog_call x = true -> yields e (fun ans => reached (next ans [])) (run_self_call x r).
Proof.
intros Hx. destruct x; try discriminate Hx; cbn [run_self_call]; try (apply giving_next; intro; apply nothing_left).
apply returning_last. unfold withdraw_revenue_after_get_owner. intros c p c' es H. m_inv. bool_prop. apply st_transfer; [lia | constructor].
Qed.
Lemma release_next {A} (f : A -> Answer) (r : option A) v k msg1 msg2 : action_ok k ->
yields e (fun ans => reached (next ans []))
(mapping f (assert_private ;;
match r with
| Some a => release_validator_pool_pipeline v ;; mret (Value a)
| None =>
log_epoch msg1 v ;;
'(buyer, amount) ← lift (expect (UserAction.payable_refund k) msg2);
p ← refund_payable_pipeline v buyer amount;
mret (Returned p)
end)).
Proof.
intros Hk. unfold mapping. apply (yields_post e (fun x => match x with Value _ => True | Returned p => stage (mkChain p None) end)).
- apply yields_bind. intro. destruct r; [yields_walk; done|]. apply yields_bind. intro.
apply (yields_post e (fun x => UserAction.payable_refund k = Some x)); [intros c x c' es H; m_inv; by res_inv|]. intros [b n] Hn.
eapply yields_post; [by eapply refund_stage, payable_ok|]. intros p Hp. by apply yields_ret.
- intros [a|p] Hp; apply yields_ret; [apply nothing_left|]. cbn [next]. rewrite app_nil_r. split; [done | by apply fresh_plain].
Qed.
Lemma tail_next k tail kind x g r : tail_of k = Some (tail, kind) -> tail = CallSelf x g ->
yields e (fun ans => reached (next ans [release_step kind (UserAction.validator_id k) k])) (run_self_call x r).
Proof.
intros Ht ->. assert (forall a, stage (mkChain [release_step kind (UserAction.validator_id k) k] (Some a))) as Hst by (intro; by eapply st_after).
destruct k; try discriminate Ht; injection Ht as <- <- <-; cbn [run_self_call];
try (apply giving_next; intro; split; [apply Hst | by split]).
apply returning_next. unfold on_withdraw_user_transfer_after_settle, payout_user_withdraw. intros c p c' es H. m_inv.
match goal with E : claim_from_withdraw_bucket _ _ _ _ = Ok _ |- _ => apply claim_inv in E as (x & counts & _ & _ & Hc & _) end.
apply st_transfer; [lia | constructor].
Qed.
Lemma after_next k tail kind x g r : call_ok x -> tail_of k = Some (tail, kind) -> release_step kind (UserAction.validator_id k) k = CallSelf x g ->
yields e (fun ans => reached (next ans [])) (run_self_call x r).
Proof.
intros Hok Ht Hx. destruct kind; injection Hx as <- <-; cbn [run_self_call]; try (by apply release_next). apply giving_next. intro. apply nothing_left.
Qed.

Lemma maybe_next r v k : UserAction.validator_id k = v ->
yields e (fun ans => reached (next ans [])) (mapping ABool (on_after_pool_withdraw_maybe_settle r v k)).
Proof.
intros Hk. unfold mapping, on_after_pool_withdraw_maybe_settle.
apply (yields_post e (fun x => match x with Value _ => True | Returned p => stage (mkChain p None) end)).
- do 3 (apply yields_bind; intro). pose proof (dispatch_stage k None). destruct r as [[]|]; [|yields_walk; done..].
eapply yields_post; [by apply try_epoch_stage|]. intros p Hp. by apply yields_ret.
- intros [a|p] Hp; apply yields_ret; [apply nothing_left|]. cbn [next]. rewrite app_nil_r. split; [done | by apply fresh_plain].
Qed.

(** A callback takes its chain to the next stage. *)
Lemma run_stage x g rest r : call_ok x -> stage (mkChain (CallSelf x g :: rest) r) -> yields e (fun ans => reached (next ans rest)) (run_self_call x r).
Proof.
intros Hok H. inversion H; subst; try (by apply catalog_next); try (by eapply tail_next); try (by eapply after_next); cbn [run_self_call].
- match goal with H : released _ |- _ => inversion H; subst end. apply giving_next. intro. apply nothing_left.
- by apply returning_last, after_account_stage.
- apply giving_next. intro. split; [by constructor | done].
- by apply maybe_next.
- apply giving_next. intro. split; [apply st_dispatch | done].
- apply giving_next. intro. split; [apply st_dispatch | done].
- apply returning_last. yields_walk. apply dispatch_stage.
Qed.
End stages.
