(* ===== verification/StakingSolvency.v ===== *)
(** * The contract holds the NEAR it owes

    In every world of a timeline (epochs do not go back) the balance of the
    account and the stake on its way to pools cover what is owed and the
    deposits that user actions in flight still have to place or return. *)
From stdpp Require Import base gmap strings list.
From Stdlib Require Import ZArith Lia.
From S2P Require Import Prelude.
From S2P Require Import Near.
From S2P Require Import MerkleTree.
From S2P Require Import StakingTypes.
From S2P Require Import StakingMath.
From S2P Require Import StakingContract.
From S2P Require Import StakingCatalog.
From S2P Require Import StakingEpoch.
From S2P Require Import StakingSubscriptions.
From S2P Require Import StakingLocks.
From S2P Require Import StakingFarm.
From S2P Require Import StakingWorld.
From S2P Require Import StakingBooks.
From S2P Require Import StakingStake.
From S2P Require Import StakingInvariant.
From S2P Require Import StakingTails.
From S2P Require Import StakingCat.
From S2P Require Import StakingReach.
From S2P Require Import StakingExits.
From S2P Require Import StakingPipeline.
From S2P Require Import StakingMoney.
From S2P Require Import StakingTimeline.

Local Open Scope Z_scope.
Local Open Scope record_scope.

(** ** The money of the chains *)
Definition chain_escrow (x : Chain) : Z := list_sum_Z hold_step (steps x) + at_head (head_hold (awaited x)) (steps x).
Definition chain_sent (c : Contract) (x : Chain) : Z := list_sum_Z sent_step (steps x) + at_head (head_sent c (awaited x)) (steps x).

(** Deposits that actions in flight have to place or return. *)
Definition escrow (l : list Chain) : Z := list_sum_Z chain_escrow l.
(** Stake that is on its way to a pool, or has arrived and is not booked. *)
Definition under_way (c : Contract) (l : list Chain) : Z := list_sum_Z (chain_sent c) l.

Lemma load_parts p : load p = list_sum_Z hold_step p + chain_deposit p - list_sum_Z sent_step p.
Proof. unfold load, chain_deposit. induction p as [|s p IH]; [done|]. rewrite !list_sum_Z_cons. lia. Qed.

Lemma sum_replace {A} (f f' : A -> Z) (l : list A) i x y : l !! i = Some x ->
  (forall j z, j <> i -> l !! j = Some z -> f' z = f z) -> list_sum_Z f' (<[i := y]> l) = list_sum_Z f l - f x + f' y.
Proof.
  revert i. induction l as [|z l IH]; intros [|i] Hi Hf; [done..| |]; cbn in Hi; cbn [insert list_insert]; rewrite !list_sum_Z_cons.
  - injection Hi as ->. enough (list_sum_Z f' l = list_sum_Z f l) by lia. apply list_sum_Z_ext. intros u (j & Hj)%list_elem_of_lookup.
    by apply (Hf (S j)).
  - rewrite (Hf 0%nat z) by done. etransitivity; [apply Z.add_cancel_l, (IH i Hi)|lia].
    intros j u Hj. apply (Hf (S j)). congruence.
Qed.
Lemma sum_same {A} (f f' : A -> Z) (l : list A) : (forall j z, l !! j = Some z -> f' z = f z) -> list_sum_Z f' l = list_sum_Z f l.
Proof. intros H. apply list_sum_Z_ext. intros u (j & Hj)%list_elem_of_lookup. by eapply H. Qed.

(** ** Stakes under way are of the buckets as they are *)

(** The validator whose stake a chain has sent and not booked. *)
Definition waits (z : Chain) : option ValidatorId :=
  match steps z with
  | CallPool v DepositAndStake _ _ :: _ => Some v
  | CallSelf (OnDepositAndStake v) _ :: _ => if answered (awaited z) then Some v else None
  | _ => None
  end.
Definition still (n : Z) (c : Contract) (z : Chain) : Prop :=
  forall v, waits z = Some v -> exists t, at_pend v t c /\ t.1.2 < t.1.1 /\ t.2 < n /\
    match steps z with CallPool _ _ d _ :: _ => d = t.1.1 - t.1.2 | _ => True end.

Lemma still_frame n m c c' z : still n c z -> n <= m ->
  (forall v t, waits z = Some v -> at_pend v t c -> t.2 < m -> at_pend v t c') -> still m c' z /\ chain_sent c' z = chain_sent c z.
Proof.
  intros Hs Hm Hf. split.
  - intros v Hv. destruct (Hs v Hv) as (t & Ht & H1 & H2 & H3). exists t. split; [apply Hf; [done.. | lia] | split; [done | split; [lia | done]]].
  - unfold chain_sent. f_equal. unfold still, waits in *. destruct (steps z) as [|[]]; try done. destruct call; try done. cbn in *.
    destruct (answered (awaited z)); [|done]. destruct (Hs _ eq_refl) as (t & Ht & H1 & H2 & _).
    destruct Ht as (y & Hy & Et). destruct (Hf _ t eq_refl) as (y' & Hy' & Et'); [by exists y | lia|].
    rewrite Hy, Hy'. rewrite <- Et in Et'. unfold pend in Et'. by injection Et' as -> -> _.
Qed.

Lemma waits_ticket z v : stage z -> waits z = Some v -> 1 <= tickets v (steps z).
Proof.
  intros H. inversion H; subst; unfold waits; cbn [steps awaited]; try discriminate.
  all: try (match goal with H : released _ |- _ => inversion H; subst; discriminate end).
  all: try (destruct x; discriminate).
  all: try (match goal with H : tail_of ?k = Some _ |- _ => destruct k; try discriminate H; injection H as <- <-; discriminate end).
  - intros [= <-]. rewrite !tickets_cons. cbn. rewrite one_same. unfold tickets. cbn. lia.
  - destruct (answered _); [|discriminate]. intros [= <-]. rewrite !tickets_cons. cbn. rewrite one_same. unfold tickets. cbn. lia.
Qed.
Lemma target_ticket x g rest r v : stage (mkChain (CallSelf x g :: rest) r) -> target x = Some v -> 1 <= tickets v (CallSelf x g :: rest).
Proof.
  intros H. inversion H; subst; cbn [target]; try discriminate.
  all: try (match goal with H : released _ |- _ => inversion H; subst; discriminate end).
  all: try (destruct x; discriminate).
  all: try (intros [= <-]; rewrite !tickets_cons; cbn; rewrite ?one_same; unfold tickets; cbn; pose proof (one_nonneg (UserAction.validator_id k) (UserAction.validator_id k)); lia).
  all: try (match goal with H : tail_of ?k = Some _ |- _ => destruct k; try discriminate H; injection H as <- <- <- end;
    try discriminate; intros [= <-]; rewrite !tickets_cons; cbn; rewrite ?one_same; unfold tickets; cbn; lia).
  match goal with H : tail_of ?k = Some (_, ?kind) |- _ => destruct kind; match goal with E : _ = CallSelf _ _ |- _ => injection E as <- <- end; discriminate end.
Qed.

(** ** Answers and failures *)
Lemma pool_stage pool call d g rest r a : stage (mkChain (CallPool pool call d g :: rest) r) -> stage (mkChain rest (Some a)).
Proof.
  intros H. inversion H; subst; try (by constructor).
  - match goal with H : released _ |- _ => inversion H end.
  - match goal with H : tail_of ?k = Some _ |- _ => destruct k; discriminate H end.
  - match goal with H : tail_of ?k = Some (_, ?kind) |- _ => destruct kind; discriminate end.
Qed.
Lemma transfer_stage rcv n rest r a : stage (mkChain (TransferTo rcv n :: rest) r) -> stage (mkChain rest (Some a)) /\ 0 <= n /\ released rest.
Proof.
  intros H. inversion H; subst.
  - match goal with H : released _ |- _ => inversion H end.
  - split; [by apply st_released | done].
  - match goal with H : tail_of ?k = Some _ |- _ => destruct k; discriminate H end.
  - match goal with H : tail_of ?k = Some (_, ?kind) |- _ => destruct kind; discriminate end.
Qed.
Lemma panic_stage x g rest r : stage (mkChain (CallSelf x g :: rest) r) -> stage (mkChain rest (Some Failure)).
Proof.
  intros H. inversion H; subst; try (by constructor).
  all: try (by apply st_released; constructor).
  - match goal with H : released _ |- _ => inversion H; subst end. by apply st_released; constructor.
  - by eapply st_after.
Qed.

Lemma released_money p r c : released p -> chain_escrow (mkChain p r) = 0 /\ chain_sent c (mkChain p r) = 0.
Proof. by inversion 1. Qed.

(** What a chain has to pay, less what it has sent. *)
Definition chain_due (c : Contract) (x : Chain) : Z := chain_escrow x - chain_sent c x.
Ltac chain_cbn := unfold chain_due, chain_escrow, chain_sent, list_sum_Z; cbn.

Lemma pool_money c n pool call d g rest r a : stage (mkChain (CallPool pool call d g :: rest) r) -> pool_answers call a ->
  still n c (mkChain (CallPool pool call d g :: rest) r) ->
  chain_due c (mkChain rest (Some a)) <= chain_due c (mkChain (CallPool pool call d g :: rest) r) + received (CallPool pool call d g) a.
Proof.
  intros H Ha Hs. inversion H; subst.
  - match goal with H : released _ |- _ => inversion H end.
  - destruct x; try discriminate; destruct a; try done; chain_cbn; lia.
  - destruct a; try done; chain_cbn; lia.
  - destruct a; try done; chain_cbn; lia.
  - destruct (Hs _ eq_refl) as (t & (y & Hy & Et) & H1 & H2 & H3). cbn in H3. destruct a; try done; chain_cbn; [lia|].
    rewrite Hy. rewrite <- Et in H3. cbn in H3. lia.
  - destruct a; try done; chain_cbn; lia.
  - match goal with H : tail_of ?k = Some _ |- _ => destruct k; discriminate H end.
  - match goal with H : tail_of ?k = Some (_, ?kind) |- _ => destruct kind; discriminate end.
Qed.

Lemma escrow_nonneg k : action_ok k -> 0 <= escrow_of k.
Proof. unfold escrow_of. destruct k; cbn; lia. Qed.
Lemma head_hold_nonneg r x : call_ok x -> amount_ok x -> 0 <= head_hold r x.
Proof. destruct x; cbn; try done; intros Hk Hn; try apply escrow_nonneg in Hk; case_match; lia. Qed.
Lemma hold_nonneg x : call_ok x -> 0 <= hold_call x.
Proof. destruct x; cbn; try done; apply escrow_nonneg. Qed.
Lemma stage_amount x g rest r : stage (mkChain (CallSelf x g :: rest) r) -> amount_ok x.
Proof.
  intros H. inversion H; subst; cbn; try done; try lia.
  - match goal with H : released _ |- _ => by inversion H end.
  - by destruct x.
  - match goal with H : tail_of ?k = Some _ |- _ => destruct k; try discriminate H; by injection H as <- <- <- end.
  - match goal with H : tail_of ?k = Some (_, ?kind) |- _ => destruct kind; match goal with E : _ = CallSelf _ _ |- _ => injection E as <- <- end; done end.
Qed.

Lemma panic_money c x g rest r : stage (mkChain (CallSelf x g :: rest) r) -> call_ok x -> head_sent c r x = 0 ->
  chain_due c (mkChain rest (Some Failure)) <= chain_due c (mkChain (CallSelf x g :: rest) r).
Proof.
  intros H Hx Hs. pose proof (hold_nonneg x Hx). pose proof (head_hold_nonneg r x Hx (stage_amount _ _ _ _ H)).
  enough (at_head (head_hold (Some Failure)) rest <= hold_call x /\ forall c, at_head (head_sent c (Some Failure)) rest = 0) as [He Hz].
  { unfold chain_due, chain_escrow, chain_sent. cbn [steps awaited]. rewrite !list_sum_Z_cons, Hz. cbn [at_head hold_step sent_step]. lia. }
  inversion H; subst; cbn in *; try (split; [|done]; lia).
  - match goal with H : released _ |- _ => inversion H; subst; cbn; split; [lia | done] end.
  - match goal with H' : tail_of k = Some _ |- _ => rename H' into Ht end.
    destruct k; try discriminate Ht; injection Ht as <- <- <-; cbn in *; unfold escrow_of; cbn; (split; [lia | done]).
Qed.

(** ** What leaves is not negative *)
Definition pays (ef : SEffect) : Prop := match ef with Detached _ n => 0 <= n | _ => True end.
Lemma stays_pays {A} (m : MS A) : emits stays m -> emits pays m.
Proof. intros Hm e c a c' es H. eapply Forall_impl; [by eapply Hm|]. by intros []. Qed.

Section detached.
Context `{HC : Crypto} `{IS : IdSet}.
Lemma detach_pays n a : emits pays (if 0 <? n then emit (Detached a n) else mret tt : MS unit).
Proof. destruct (0 <? n) eqn:E; bool_prop; [apply emits_emit; cbn; lia | apply emits_ret]. Qed.
Lemma storage_deposit_pays a o : emits pays (storage_deposit a o).
Proof. unfold storage_deposit. repeat first [apply detach_pays | emits_step]; apply stays_pays; emits_auto. Qed.
Lemma storage_withdraw_pays n : emits pays (storage_withdraw n).
Proof.
unfold storage_withdraw. do 4 (apply emits_bind; [apply stays_pays; emits_auto|intro]). apply emits_bind; [auto with hos nocore|intro x].
intros ? ? ? ? ? H. m_inv.
match goal with E : match n with _ => _ end _ _ = Ok (?k, _, ?es1) |- _ => assert (0 <= k /\ es1 = []) as [Hk ->] by
(destruct n; m_inv; (split; [|done]); [bool_prop; lia | unfold available_storage_yocto, saturating_sub; lia]) end.
apply Forall_app. split; [constructor|]. apply Forall_app. split; [|by constructor].
match goal with E : (if ?k =? 0 then _ else _) _ _ = Ok _ |- _ => destruct (k =? 0); unfold internal_set_account in E; m_inv end; cbn; by repeat constructor.
Qed.
Lemma storage_unregister_pays f : emits pays (storage_unregister f).
Proof. unfold storage_unregister. repeat first [apply detach_pays | emits_step]; apply stays_pays; emits_auto. Qed.
Lemma exec_pays x : emits pays (exec x).
Proof.
destruct x; cbn [exec]; try (apply stays_pays; solve [emits_auto]); unfold alone; apply emits_bind; try (intro; apply emits_ret).
- apply storage_deposit_pays.
- apply storage_withdraw_pays.
- apply storage_unregister_pays.
Qed.
Lemma run_stays x r : emits stays (run_self_call x r).
Proof. destruct x; cbn [run_self_call]; emits_auto. Qed.
End detached.

(** ** A new stake under way is of the buckets as they are *)
Definition moving (p : Promise) : bool := match p with CallPool _ DepositAndStake _ _ :: _ => true | _ => false end.

Lemma dispatch_moving k : moving (on_epoch_settlement_dispatch_continue k) = false.
Proof. by destruct k. Qed.
Lemma unmoved n c p : stage (mkChain p None) -> moving p = false -> still n c (mkChain p None).
Proof.
  intros H Hm v Hv. exfalso. unfold waits in Hv. cbn in *. destruct p as [|[pool call d g|[] g|]]; try discriminate. by destruct call.
Qed.

Section moving.
Context `{HC : Crypto} `{IS : IdSet} (e : Env).

Lemma try_epoch_still v k c p c' es : UserAction.validator_id k = v -> try_epoch_stake_or_unstake v k e c = Ok (p, c', es) ->
still (epoch_height e) c' (mkChain p None).
Proof.
intros Hk H. destruct (moving p) eqn:Hm; [|by apply unmoved; [eapply try_epoch_stage|]].
unfold try_epoch_stake_or_unstake in H. m_inv. read.
m_case; [m_inv; by rewrite dispatch_moving in Hm|]. m_case; [m_inv; by rewrite dispatch_moving in Hm|].
m_case; [|m_case; m_inv; [by rewrite dispatch_moving in Hm | discriminate Hm]].
m_inv. read. bool_prop. intros u [= <-]. eexists. split; [by eexists|]. cbn. split_and!; [done | done | done].
Qed.
Lemma after_account_still r v k c p c' es : UserAction.validator_id k = v -> action_ok k ->
on_epoch_settlement_after_pool_account r v k e c = Ok (p, c', es) -> still (epoch_height e) c' (mkChain p None).
Proof.
intros Hk Ha H. destruct (moving p) eqn:Hm; [|by apply unmoved; [eapply after_account_stage|]].
unfold on_epoch_settlement_after_pool_account in H. m_inv. destruct r as [view|].
- m_inv. m_case; [|by eapply try_epoch_still]. unfold try_epoch_withdraw_known_unstaked in H. m_inv. discriminate Hm.
- unfold refund_payable_pipeline in H. destruct (UserAction.payable_refund k) as [[]|]; m_inv; discriminate Hm.
Qed.

(** The other callbacks send no stake. *)
Definition settles (x : SelfCall) : bool :=
match x with OnEpochSettlementAfterPoolAccount _ _ | OnAfterPoolWithdrawMaybeSettle _ _ => true | _ => false end.
Definition rests (ans : PromiseOrValue Answer) : Prop := moving (promise_of ans) = false.

Lemma returning_rests m : yields e (fun p => moving p = false) m -> yields e rests (returning m).
Proof. intros Hm. unfold returning. eapply yields_post; [exact Hm|]. intros p Hp. by apply yields_ret. Qed.
Lemma release_rests {A} (f : A -> Answer) (r : option A) v k msg1 msg2 :
yields e rests
(mapping f (assert_private ;;
match r with
| Some a => release_validator_pool_pipeline v ;; mret (Value a)
| None =>
log_epoch msg1 v ;;
'(buyer, amount) ← lift (expect (UserAction.payable_refund k) msg2);
p ← refund_payable_pipeline v buyer amount;
mret (Returned p)
end)).
Proof.
unfold mapping. apply (yields_post e (fun x => moving (promise_of x) = false)).
- apply yields_bind. intro. destruct r; [yields_walk; done|]. apply yields_bind. intro. apply yields_bind. intros [buyer n].
apply (yields_post e (fun p => moving p = false)); [unfold refund_payable_pipeline; yields_walk; done|]. intros p Hp. by apply yields_ret.
- intros [a|p] Hp; by apply yields_ret.
Qed.
Lemma run_rests x r : settles x = false -> yields e rests (run_self_call x r).
Proof.
intros Hx. destruct x; try discriminate Hx; cbn [run_self_call]; try (unfold giving; yields_walk; done); try apply release_rests;
apply returning_rests.
- yields_walk. apply dispatch_moving.
- unfold on_withdraw_user_transfer_after_settle, payout_user_withdraw. yields_walk. done.
- unfold withdraw_revenue_after_get_owner. yields_walk. done.
Qed.

Lemma settlement_rests v k : yields e (fun p => moving p = false) (promise_validator_per_epoch_settlement_then v k).
Proof.
intros c p c' es H. unfold promise_validator_per_epoch_settlement_then, promise_get_validator_pool_account in H.
m_all; [apply dispatch_moving | done].
Qed.
#[local] Hint Resolve settlement_rests : yields.
Lemma exec_rests x : yields e (fun p => moving p = false) (exec x).
Proof.
destruct x; cbn [exec]; unfold alone, add_validator_catalog_manager,
remove_validator_catalog_manager, create_product, edit_product, archive_product, delete_product, unarchive_product,
set_product_default_price, create_price, edit_price, archive_price, unarchive_price, delete_price,
promise_catalog_admin_on_pool, promise_catalog_admin_on_product, promise_catalog_admin_on_price, promise_pool_get_owner_id_then, withdraw_revenue, then_,
StakingLocks.lock, lock_with_price_id, lock_one_off_with_catalog, lock_recurring_subscription_with_catalog,
unlock, StakingLocks.withdraw, epoch_settle, stake, unstake, update_subscription; yields_walk; done.
Qed.

Lemma rest_waits x g rest r : stage (mkChain (CallSelf x g :: rest) r) -> moving rest = false /\ forall a, waits (mkChain rest a) = None.
Proof.
intros H. inversion H; subst; try done.
- match goal with H : released _ |- _ => by inversion H end.
- by destruct kind.
Qed.

Lemma maybe_still r v k c ans c' es : UserAction.validator_id k = v ->
mapping ABool (on_after_pool_withdraw_maybe_settle r v k) e c = Ok (ans, c', es) -> still (epoch_height e) c' (next ans []).
Proof.
intros Hk H.
assert (forall c2, still (epoch_height e) c2 (mkChain (on_epoch_settlement_dispatch_continue k ++ []) None)) as Hd.
{ intros c2. rewrite app_nil_r. apply unmoved; [apply dispatch_stage | apply dispatch_moving]. }
unfold mapping, on_after_pool_withdraw_maybe_settle in H. m_inv. read.
destruct r as [[]|]; m_inv; cbn [next]; try by apply Hd. rewrite app_nil_r. by eapply try_epoch_still.
Qed.
Lemma run_still x g rest r c ans c' es : call_ok x -> stage (mkChain (CallSelf x g :: rest) r) ->
run_self_call x r e c = Ok (ans, c', es) -> still (epoch_height e) c' (next ans rest).
Proof.
intros Hok Hst H. destruct (run_stage e x g rest r Hok Hst _ _ _ _ H) as [Hnext _]. destruct (rest_waits _ _ _ _ Hst) as [Hm Hw].
destruct (settles x) eqn:Hx.
- inversion Hst; subst; try discriminate Hx.
+ match goal with H : released _ |- _ => inversion H; subst; discriminate Hx end.
+ destruct x; discriminate.
+ cbn [run_self_call] in H. unfold returning in H. m_inv. cbn [next]. rewrite app_nil_r. by eapply after_account_still.
+ by eapply maybe_still.
+ match goal with H' : tail_of k = Some _ |- _ => rename H' into Ht end. destruct k; try discriminate Ht; injection Ht as <- <- <-; discriminate Hx.
+ match goal with H' : _ = CallSelf _ _ |- _ => rename H' into Ht end. destruct kind; injection Ht as <- <-; discriminate Hx.
- apply (run_rests x r Hx) in H. unfold rests in H. destruct ans as [a|p]; cbn [promise_of next] in *.
+ intros v Hv. by rewrite Hw in Hv.
+ apply unmoved; [done|]. by destruct p.
Qed.
End moving.

(** ** Worlds over time *)
Section timeline.
Context `{HC : Crypto} `{IS : IdSet}.

(** The worlds the contract can come to by epoch [n] when epochs do not go back. *)
Inductive timeline : Z -> World -> Prop :=
| time_new cfg c b n : staking_new cfg = Ok c -> 0 <= b -> timeline n (mkWorld c b [])
| time_step n m o w w' : timeline n w -> n <= m -> (forall e, o = Some e -> epoch_height e = m) -> step_at o w w' ->
fits (contract w') -> timeline m w'.

Lemma timeline_reachable n w : timeline n w -> reachable w.
Proof. induction 1 as [|n m o w w' _ IH _ _ Hs Hf]; [by eapply reach_new | eapply reach_step; [exact IH | by exists o | done]]. Qed.

Record Funded (n : Z) (w : World) : Prop := {
funded_stage : Forall stage (chains w);
funded_still : Forall (still n (contract w)) (chains w);
funded_purse : purse_ok (contract w);
funded_money : owed (contract w) + escrow (chains w) <= balance w + under_way (contract w) (chains w)
}.

(** No two chains are on one validator. *)
Lemma one_ticket w i j x y v : Piped w -> i <> j -> chains w !! i = Some x -> chains w !! j = Some y ->
1 <= tickets v (steps x) -> 1 <= tickets v (steps y) -> False.
Proof.
intros HP Hne Hi Hj Hx Hy. pose proof (piped_busy _ HP v) as Hb.
pose proof (in_flight_insert v (chains w) i x (mkChain [] None) Hi) as E1.
assert ((<[i := mkChain [] None]> (chains w)) !! j = Some y) as Hj' by (by rewrite list_lookup_insert_ne).
pose proof (in_flight_insert v _ j y (mkChain [] None) Hj') as E2.
change (tickets v (steps (mkChain [] None))) with 0 in *.
assert (0 <= in_flight v (<[j := mkChain [] None]> (<[i := mkChain [] None]> (chains w)))) by (apply list_sum_Z_nonneg; intros; apply tickets_nonneg).
assert (busy (contract w) v <= 1) by (unfold busy, busy_flag; repeat case_match; lia). lia.
Qed.

(** The chains of detached transfers have nothing to place. *)
Lemma detached_chains es c n : Forall pays es -> let l := started (detached es) in
Forall stage l /\ Forall (still n c) l /\ escrow l = 0 /\ under_way c l = 0.
Proof.
intros H. cbn. induction H as [|ef es Hef _ IH]; [done|]. destruct ef as [| |a k]; try exact IH. destruct IH as (I1 & I2 & I3 & I4).
change (started (detached (Detached a k :: es))) with (mkChain [TransferTo a k] None :: started (detached es)).
split_and!; [constructor; [by constructor; [|constructor] | done] | constructor; [by intros v | done] | |].
- unfold escrow in *. rewrite list_sum_Z_cons, I3. done.
- unfold under_way in *. rewrite list_sum_Z_cons, I4. done.
Qed.
Lemma stays_detached es : Forall stays es -> detached es = [].
Proof. induction 1 as [|ef es Hef _ IH]; [done|]. by destruct ef. Qed.

Lemma escrow_app l1 l2 : escrow (l1 ++ l2) = escrow l1 + escrow l2.
Proof. apply list_sum_Z_app. Qed.
Lemma under_way_app c l1 l2 : under_way c (l1 ++ l2) = under_way c l1 + under_way c l2.
Proof. apply list_sum_Z_app. Qed.

Lemma plain_due c p r : plain (mkChain p r) -> chain_due c (mkChain p r) = list_sum_Z hold_step p - list_sum_Z sent_step p.
Proof. intros [H1 H2]. unfold chain_due, chain_escrow, chain_sent. cbn [steps awaited] in *. rewrite H1, H2. lia. Qed.

(** A change of one chain, the others standing still. *)
Lemma funded_chain n m w c' b i x y : Funded n w -> n <= m -> chains w !! i = Some x -> stage y -> still m c' y -> purse_ok c' ->
(forall j z v t, j <> i -> chains w !! j = Some z -> waits z = Some v -> at_pend v t (contract w) -> t.2 < m -> at_pend v t c') ->
owed c' + chain_due c' y - b <= owed (contract w) + chain_due (contract w) x - balance w ->
Funded m (mkWorld c' b (<[i := y]> (chains w))).
Proof.
intros [H1 H2 H3 H4] Hm Hi Hy Hsy Hp Hframe Hmoney.
assert (forall j z, j <> i -> chains w !! j = Some z -> still m c' z /\ chain_sent c' z = chain_sent (contract w) z) as Hothers.
{ intros j z Hj Hz. eapply still_frame; [by eapply Forall_lookup_1 in H2 | done|]. intros v t Hw Ht Hlt. by eapply Hframe. }
split; cbn [contract balance chains]; [by apply Forall_insert | | done |].
- apply Forall_lookup. intros j z Hz. destruct (decide (j = i)) as [->|Hne].
+ rewrite list_lookup_insert_eq in Hz by (by eapply lookup_lt_Some). by injection Hz as <-.
+ rewrite list_lookup_insert_ne in Hz by done. by eapply Hothers.
- unfold escrow, under_way in *. rewrite (sum_replace chain_escrow chain_escrow _ i x y Hi) by done.
rewrite (sum_replace (chain_sent (contract w)) (chain_sent c') _ i x y Hi) by (intros j z Hj Hz; by eapply Hothers).
unfold chain_due in Hmoney. lia.
Qed.
Lemma next_steps ans rest : steps (next ans rest) = promise_of ans ++ rest.
Proof. by destruct ans. Qed.
Lemma next_due c ans rest : plain (next ans rest) ->
chain_due c (next ans rest) = list_sum_Z hold_step (promise_of ans ++ rest) - list_sum_Z sent_step (promise_of ans ++ rest).
Proof. intros H. destruct ans; cbn [next promise_of] in *; by apply plain_due. Qed.
Lemma call_due c x g rest r : chain_due c (mkChain (CallSelf x g :: rest) r) =
bring c r x + list_sum_Z hold_step rest - list_sum_Z sent_step rest.
Proof. unfold chain_due, chain_escrow, chain_sent, bring. cbn [steps awaited]. rewrite !list_sum_Z_cons. cbn [at_head hold_step sent_step]. lia. Qed.

(** The frame of a callback: a chain on another validator stands still. *)
Lemma run_frame w m i x g rest r e ans c' es j z v t : Piped w -> Forall stage (chains w) -> epoch_height e = m ->
chains w !! i = Some (mkChain (CallSelf x g :: rest) r) -> run_self_call x r e (contract w) = Ok (ans, c', es) ->
j <> i -> chains w !! j = Some z -> waits z = Some v -> at_pend v t (contract w) -> t.2 < m -> at_pend v t c'.
Proof.
intros HP Hst <- Hi H Hne Hj Hw Ht Hlt. pose proof (Forall_lookup_1 _ _ _ _ Hst Hi) as Hx. pose proof (Forall_lookup_1 _ _ _ _ Hst Hj) as Hz.
refine (run_pend v t x r e Hlt _ _ _ _ _ Ht H). intros Hv.
eapply (one_ticket w i j); [done | congruence | done | done | |]; [by eapply target_ticket | by apply waits_ticket].
Qed.

Lemma funded_run n m w i x g rest r e ans c' es : Healthy w -> Piped w -> Funded n w -> n <= m -> epoch_height e = m ->
chains w !! i = Some (mkChain (CallSelf x g :: rest) r) -> promise_results e = results_of r ->
run_self_call x r e (contract w) = Ok (ans, c', es) ->
Funded m (mkWorld c' (balance w - spent (promise_of ans) es) (<[i := next ans rest]> (chains w) ++ started (detached es))).
Proof.
intros HH HP HF Hm He Hi Hr H. pose proof HF as [F1 F2 F3 F4].
pose proof (Forall_lookup_1 _ _ _ _ F1 Hi) as Hst. destruct (chain_at _ _ _ (healthy_chains _ HH) Hi) as [Hok _]. apply Forall_cons in Hok as [Hok _].
assert (Forall stays es) as Hes by (by eapply run_stays). unfold spent. rewrite (stays_detached es Hes), app_nil_r.
destruct (run_stage e x g rest r Hok Hst _ _ _ _ H) as [Hnext Hplain].
destruct (run_costs e x r _ _ _ _ (proj1 (proj1 (healthy_good _ HH))) F3 Hok (stage_amount _ _ _ _ Hst) Hr H) as [Hp' Hc].
rewrite (paid_stays es Hes), load_parts in Hc.
eapply funded_chain; [exact HF | exact Hm | exact Hi | exact Hnext | | exact Hp' | |].
- rewrite <- He. by eapply run_still.
- intros j z v t. by eapply run_frame.
- rewrite call_due, next_due, !list_sum_Z_app by done. change (list_sum_Z chain_deposit []) with 0. lia.
Qed.

(** A stake the pool has taken is booked. *)
Lemma deposit_runs c r e v t : Inv c -> fits c -> predecessor_account_id e = current_account_id e -> at_pend v t c ->
t.1.2 < t.1.1 -> succeeds (run_self_call (OnDepositAndStake v) r) e c.
Proof.
intros HI Hf He (y & Hy & <-) Hlt. cbn in Hlt. cbn [run_self_call]. unfold giving. apply succeeds_then; [|intros; apply succeeds_ret].
unfold on_deposit_and_stake. eapply succeeds_bind; [by apply assert_private_run|]. ok_step. destruct (negb _); [apply succeeds_ret|].
eapply succeeds_bind; [by apply require_validator_run|]. ok_step. cbv zeta. apply succeeds_require; [by apply Z.ltb_lt|].
pose proof (fit_validator _ Hf v y Hy) as (_ & ? & ? & ? & _). pose proof (inv_validator _ _ _ HI v y Hy) as (_ & ? & ? & ? & _).
eapply succeeds_lift; [apply checked_op_Ok; unfold FITS, U128_MAX in *; lia|].
eapply succeeds_bind; [apply set_validator_run|]. apply succeeds_ret.
Qed.

Lemma funded_panic n m w i x g rest r e msg : Healthy w -> Piped w -> Funded n w -> n <= m ->
chains w !! i = Some (mkChain (CallSelf x g :: rest) r) -> predecessor_account_id e = current_account_id e ->
run_self_call x r e (contract w) = Panic msg ->
Funded m (mkWorld (contract w) (balance w) (<[i := mkChain rest (Some Failure)]> (chains w))).
Proof.
intros HH HP HF Hm Hi He H. pose proof HF as [F1 F2 F3 F4].
pose proof (Forall_lookup_1 _ _ _ _ F1 Hi) as Hst. destruct (chain_at _ _ _ (healthy_chains _ HH) Hi) as [Hok _]. apply Forall_cons in Hok as [Hok _].
assert (head_sent (contract w) r x = 0) as Hz.
{ destruct x; try done. cbn. destruct (answered r) eqn:Ha; [|done]. exfalso.
pose proof (Forall_lookup_1 _ _ _ _ F2 Hi) as Hs. unfold still, waits in Hs. cbn in Hs. rewrite Ha in Hs.
destruct (Hs v eq_refl) as (t & Ht & Hlt & _).
destruct (deposit_runs (contract w) r e v t) as (? & ? & ? & H'); [apply HH | apply HH | done | done | done |]. by rewrite H' in H. }
eapply funded_chain; [exact HF | exact Hm | exact Hi | by eapply panic_stage | | done | |].
- intros v Hv. by rewrite (proj2 (rest_waits _ _ _ _ Hst)) in Hv.
- done.
- pose proof (panic_money (contract w) x g rest r Hst Hok Hz). lia.
Qed.

Lemma funded_pool n m w i pool call d g rest r a : Funded n w -> n <= m ->
chains w !! i = Some (mkChain (CallPool pool call d g :: rest) r) -> pool_answers call a ->
Funded m (mkWorld (contract w) (balance w + received (CallPool pool call d g) a) (<[i := mkChain rest (Some a)]> (chains w))).
Proof.
intros HF Hm Hi Ha. pose proof HF as [F1 F2 F3 F4].
pose proof (Forall_lookup_1 _ _ _ _ F1 Hi) as Hst. pose proof (Forall_lookup_1 _ _ _ _ F2 Hi) as Hs.
eapply funded_chain; [exact HF | exact Hm | exact Hi | by eapply pool_stage | | done | done |].
- intros v Hv. inversion Hst; subst; try discriminate Hv.
+ match goal with H : released _ |- _ => inversion H end.
+ destruct x; discriminate.
+ unfold waits in Hv. cbn in Hv. destruct a; try done. injection Hv as <-. destruct (Hs _ eq_refl) as (t & H1 & H2 & H3 & _). exists t.
split_and!; try done. lia.
+ match goal with H : tail_of ?k = Some _ |- _ => destruct k; discriminate H end.
- pose proof (pool_money (contract w) n pool call d g rest r a Hst Ha Hs). lia.
Qed.

Lemma funded_transfer n m w i rcv k rest r a : Funded n w -> n <= m -> chains w !! i = Some (mkChain (TransferTo rcv k :: rest) r) ->
Funded m (mkWorld (contract w) (balance w + received (TransferTo rcv k) a) (<[i := mkChain rest (Some a)]> (chains w))).
Proof.
intros HF Hm Hi. pose proof HF as [F1 F2 F3 F4]. pose proof (Forall_lookup_1 _ _ _ _ F1 Hi) as Hst.
destruct (transfer_stage _ _ _ _ a Hst) as (Hst' & Hk & Hrest).
eapply funded_chain; [exact HF | exact Hm | exact Hi | done | | done | done |].
- intros v Hv. by inversion Hrest; subst.
- destruct (released_money rest (Some a) (contract w) Hrest) as [E1 E2].
assert (chain_due (contract w) (mkChain (TransferTo rcv k :: rest) r) = 0) as ->.
{ inversion Hrest; subst; done. }
unfold chain_due. rewrite E1, E2. destruct a; cbn; lia.
Qed.
Lemma funded_call n m w e x p c' es : Funded n w -> n <= m -> 0 <= attached_deposit e ->
exec x e (contract w) = Ok (p, c', es) ->
Funded m (mkWorld c' (balance w + attached_deposit e - spent p es) (chains w ++ started (p :: detached es))).
Proof.
intros [F1 F2 F3 F4] Hm Hd H.
destruct (detached_chains es c' m (exec_pays x _ _ _ _ _ H)) as (D1 & D2 & D3 & D4).
pose proof (exec_stage e x _ _ _ _ H) as Hst. pose proof (fresh_plain _ Hst) as Hpl.
destruct (exec_costs e x Hd _ _ _ _ F3 H) as [Hp' Hc].
assert (forall j z, chains w !! j = Some z -> still m c' z /\ chain_sent c' z = chain_sent (contract w) z) as Hothers.
{ intros j z Hz. eapply still_frame; [by eapply Forall_lookup_1 in F2 | done|]. intros v t _ Ht _. by eapply exec_pend. }
assert (moving p = false) as Hmv by (by eapply exec_rests).
change (started (p :: detached es)) with (started [p] ++ started (detached es)).
assert (stage (mkChain p None) /\ still m c' (mkChain p None)) as [Hs1 Hs2] by (split; [done | by apply unmoved]).
pose proof (plain_due c' p None Hpl) as Hdue. unfold chain_due in Hdue. rewrite load_parts in Hc.
split; cbn [contract balance chains].
- apply Forall_app. split; [done|]. apply Forall_app. split; [by constructor | done].
- apply Forall_app. split; [apply Forall_lookup; intros j z Hz; by eapply Hothers|]. apply Forall_app. split; [by constructor | done].
- done.
- rewrite !escrow_app, !under_way_app, D3, D4.
change (escrow (started [p])) with (chain_escrow (mkChain p None) + 0). change (under_way c' (started [p])) with (chain_sent c' (mkChain p None) + 0).
unfold under_way in *. rewrite (sum_same (chain_sent (contract w)) (chain_sent c')) by (intros j z Hz; by eapply Hothers).
unfold spent. fold (paid es). lia.
Qed.

Lemma timeline_funded n w : timeline n w -> Funded n w.
Proof.
induction 1 as [cfg c b n H Hb | n m o w w' Ht IH Hm Ho Hs Hf].
- unfold staking_new in H. res_inv. split; cbn [contract chains balance]; [done | done | split; intros; cbn in *; by rewrite lookup_empty in * |].
unfold owed, revenue_total, storage_total. cbn [validators revenue_by_validator accounts]. rewrite !map_sum_empty. unfold escrow, under_way. cbn. lia.
- pose proof (timeline_reachable _ _ Ht) as Hr. pose proof (reachable_healthy _ Hr) as HH. pose proof (reachable_piped _ Hr) as HP.
destruct Hs as
[w e x p c' es He _ _ _ H | w i pool call dep gas rest r a Hi Ha | w i rcv k rest r a Hi Ha
| w i call gas rest r e a c' es Hi He _ _ Hres _ H | w i call gas rest r e p c' es Hi He _ _ Hres _ H
| w i call gas rest r e msg Hi He _ _ _ Hp H | w k Hk].
+ eapply funded_call; [done | done | | done]. unfold env_ok in He. lia.
+ by eapply funded_pool.
+ by eapply funded_transfer.
+ eapply (funded_run n m w i call gas rest r e (Value a)); try done. by apply Ho.
+ eapply (funded_run n m w i call gas rest r e (Returned p)); try done. by apply Ho.
+ by eapply funded_panic.
+ destruct IH as [F1 F2 F3 F4]. split; cbn [contract balance chains]; [done | | done | lia].
apply Forall_lookup. intros j z Hz. eapply (still_frame n m (contract w)); [by eapply Forall_lookup_1 in F2 | done | done].
Qed.
(** ** Stake under way is stake on the books *)
Definition staging (x : Validator.t) : Z := Validator.pending_to_stake x.
Definition ready_total (c : Contract) : Z := map_sum (fun _ => Validator.pending_to_claim) (validators c).

Lemma unsent c z : stage z -> waits z = None -> chain_sent c z = 0.
Proof.
intros H. inversion H; subst; unfold waits; cbn [steps awaited]; try discriminate; intros Hw; try done.
all: try (match goal with H : released _ |- _ => inversion H; subst; done end).
all: try (by destruct x).
all: try (by destruct kind).
all: try (match goal with H' : tail_of ?k0 = Some _ |- _ => destruct k0; try discriminate H'; injection H' as <- <-; done end).
chain_cbn. by destruct a.
Qed.
Lemma sent_le n c z : Inv c -> stage z -> still n c z ->
chain_sent c z <= map_sum (fun v x => tickets v (steps z) * staging x) (validators c).
Proof.
intros HI Hst Hs.
assert (forall v x, validators c !! v = Some x -> 0 <= tickets v (steps z) * staging x) as Hnn.
{ intros v x Hv. pose proof (inv_validator _ _ _ HI v x Hv) as (_ & _ & ? & _). pose proof (tickets_nonneg v (steps z)). unfold staging. nia. }
destruct (waits z) as [v|] eqn:Hw; [|rewrite (unsent c z Hst Hw); by apply map_sum_nonneg].
destruct (Hs v Hw) as (t & (x & Hx & Et) & H1 & H2 & H3). pose proof (waits_ticket z v Hst Hw) as Ht.
pose proof (map_sum_term_le _ _ v x Hnn Hx) as Hle. cbn beta in Hle. etransitivity; [|exact Hle].
pose proof (inv_validator _ _ _ HI v x Hx) as (_ & _ & ? & ? & _). unfold staging. subst t. cbn in H1, H3.
assert (1 * Validator.pending_to_stake x <= tickets v (steps z) * Validator.pending_to_stake x) by (by apply Z.mul_le_mono_nonneg_r).
enough (chain_sent c z = Validator.pending_to_stake x - Validator.pending_to_unstake x) by lia. clear Hle Ht.
inversion Hst; subst; unfold waits in Hw; cbn [steps awaited] in *; try discriminate Hw; try (by destruct x0).
- match goal with H : released _ |- _ => inversion H; subst; discriminate end.
- injection Hw as <-. chain_cbn. lia.
- destruct a; try discriminate Hw; injection Hw as <-; chain_cbn; rewrite Hx; lia.
- match goal with H' : tail_of k = Some _ |- _ => rename H' into Ht end. destruct k; try discriminate Ht; injection Ht as <- <-; discriminate Hw.
- destruct kind; discriminate Hw.
Qed.
Lemma sum_tickets c l : list_sum_Z (fun z => map_sum (fun v x => tickets v (steps z) * staging x) (validators c)) l =
map_sum (fun v x => in_flight v l * staging x) (validators c).
Proof.
induction l as [|z l IH].
- symmetry. apply map_sum_0. done.
- rewrite list_sum_Z_cons, IH, <- map_sum_add. apply map_sum_ext. intros v x _. unfold in_flight. rewrite list_sum_Z_cons. lia.
Qed.
Lemma list_sum_Z_le {A} (f g : A -> Z) l : Forall (fun x => f x <= g x) l -> list_sum_Z f l <= list_sum_Z g l.
Proof. induction 1 as [|x l Hx _ IH]; [done|]. rewrite !list_sum_Z_cons. lia. Qed.
Lemma under_way_le n w : Healthy w -> Piped w -> Funded n w ->
under_way (contract w) (chains w) <= map_sum (fun _ => staging) (validators (contract w)).
Proof.
intros HH HP [F1 F2 _ _]. pose proof (proj1 (proj1 (healthy_good _ HH))) as HI. unfold under_way.
etransitivity; [apply (list_sum_Z_le _ (fun z => map_sum (fun v x => tickets v (steps z) * staging x) (validators (contract w))))|].
- apply Forall_forall. intros z Hz. rewrite Forall_forall in F1, F2. by eapply sent_le; [|apply F1|apply F2].
- rewrite sum_tickets. apply map_sum_le. intros v x Hv. rewrite (piped_busy _ HP v).
pose proof (inv_validator _ _ _ HI v x Hv) as (_ & _ & ? & _). unfold staging. 
assert (0 <= busy (contract w) v <= 1) by (unfold busy, busy_flag; repeat case_match; lia). nia.
Qed.

(** Everything that may be asked for at once is on the account. *)
Lemma reserves_held n w : timeline n w ->
ready_total (contract w) + revenue_total (contract w) + storage_total (contract w) + escrow (chains w) <= balance w.
Proof.
intros Ht. pose proof (timeline_reachable _ _ Ht) as Hr. pose proof (reachable_healthy _ Hr) as HH. pose proof (reachable_piped _ Hr) as HP.
pose proof (timeline_funded _ _ Ht) as HF. pose proof (under_way_le _ _ HH HP HF) as Hle. pose proof (funded_money _ _ HF) as Hm.
unfold owed in Hm. replace (map_sum (fun _ => on_hand) (validators (contract w)))
with (map_sum (fun _ => staging) (validators (contract w)) + ready_total (contract w)) in Hm; [lia|].
unfold ready_total. rewrite <- map_sum_add. by apply map_sum_ext.
Qed.
Lemma escrow_held n w : timeline n w -> 0 <= escrow (chains w).
Proof.
intros Ht. pose proof (timeline_reachable _ _ Ht) as Hr. pose proof (healthy_chains _ (reachable_healthy _ Hr)) as Hc.
pose proof (funded_stage _ _ (timeline_funded _ _ Ht)) as Hst. apply list_sum_Z_nonneg. intros z Hz.
rewrite Forall_forall in Hc, Hst. specialize (Hc _ Hz) as [Hok _]. specialize (Hst _ Hz). destruct z as [p r]. unfold chain_escrow. cbn [steps awaited] in *.
assert (0 <= list_sum_Z hold_step p).
{ apply list_sum_Z_nonneg. intros s Hs. rewrite Forall_forall in Hok. specialize (Hok _ Hs). destruct s; cbn in *; try lia. by apply hold_nonneg. }
enough (0 <= at_head (head_hold r) p) by lia. destruct p as [|[] p]; cbn; try lia. apply Forall_cons in Hok as [Hok _].
apply head_hold_nonneg; [done | by eapply stage_amount].
Qed.
End timeline.
