(* ===== verification/StakingViews.v ===== *)
(** * The staking contract: views

    The read-only methods of [validators.rs], [products.rs], [prices.rs],
    [payments.rs], [accounts.rs], [config.rs], [pause.rs], [upgrade.rs],
    [lock.rs], [subscriptions.rs] and [stake.rs] that the other files do not
    need, the reference definition of a page, and what the projections to the
    present show. A projection can panic, so the views that project are in
    [result]. *)
From stdpp Require Import base gmap strings list.
From Stdlib Require Import ZArith Lia.
From S2P Require Import Prelude.
From S2P Require Import Near.
From S2P Require Import MerkleTree.
From S2P Require Import StakingTypes.
From S2P Require Import StakingMath.
From S2P Require Import StakingContract.
From S2P Require Import StakingCatalog.
From S2P Require Import StakingEpoch.
From S2P Require Import StakingSubscriptions.
From S2P Require Import StakingLocks.
From S2P Require Import StakingFarm.
From S2P Require Import StakingBooks.
From S2P Require Import StakingStake.
From S2P Require Import StakingShelf.
From S2P Require Import StakingCat.

Local Open Scope Z_scope.
Local Open Scope record_scope.

(** ** Single records *)
Definition get_validator (c : Contract) (id : ValidatorId) : option Validator.t := validators c !! id.
Definition get_product (c : Contract) (id : ProductId) : option Product.t := products c !! id.
Definition get_price (c : Contract) (id : PriceId) : option Price.t := prices c !! id.
Definition get_purchase (c : Contract) (id : PurchaseId) : option Purchase.t := purchases c !! id.
Definition get_account (c : Contract) (id : AccountId) : option Account.t := accounts c !! id.
Definition get_farm_pool (c : Contract) (id : PriceId) : option FarmPool.t := farm_pools c !! id.
Definition get_config (c : Contract) : Config.t := config c.
Definition is_paused (c : Contract) : bool := paused c.
Definition get_version : string := "1.1.1".

(** ** Pages

    [collect_paginated] with a [fetch] that can panic. *)
Fixpoint collect_from_res {T} (fuel : nat) (i limit total_len : Z) (fetch : Z -> result (option T)) (out : list T)
    : result (list T) :=
  match fuel with
  | O => Ok out
  | S fuel' =>
      if (i <? total_len) && (Z.of_nat (length out) <? limit)
      then item ← fetch i;
           collect_from_res fuel' (i + 1) limit total_len fetch
             (match item with Some item => out ++ [item] | None => out end)
      else Ok out
  end.
Definition collect_paginated_res {T} (from_index limit total_len : Z) (fetch : Z -> result (option T)) : result (list T) :=
  collect_from_res (Z.to_nat (total_len - from_index)) from_index limit total_len fetch [].

(** [iter().skip(from_index).take(limit)]. A collection holds fewer than
    [2^32] elements, so the conversion of the indexes to [usize] changes
    nothing. *)
Definition page {A} (from_index limit : Z) (l : list A) : list A := take (Z.to_nat limit) (drop (Z.to_nat from_index) l).

(** ** lock.rs *)
Definition get_locks (e : Env) (c : Contract) (from_index limit : Z) (effective : option bool) : result (list Lock.t) :=
  mapM (fun lock => lock_view e c lock effective) (omap (fun id => locks c !! id) (page from_index limit (lock_ids c))).

Definition get_locks_for_account (e : Env) (c : Contract) (account_id : AccountId) (from_index limit : Z)
    (effective : option bool) : result (list Lock.t) :=
  match locks_by_account c !! account_id with
  | None => Ok []
  | Some ids =>
      collect_paginated_res from_index limit (Z.of_nat (length ids)) (fun index =>
        match (id ← ids !! Z.to_nat index; locks c !! id) with
        | None => Ok None
        | Some lock => l ← lock_view e c lock effective; mret (Some l)
        end)
  end.

(** ** subscriptions.rs *)
Definition get_subscription (e : Env) (c : Contract) (id : SubscriptionId) : result (option Subscription.t) :=
  match subscriptions c !! id with
  | None => Ok None
  | Some sub => s ← project_subscription_view_now e c sub; mret (Some s)
  end.

Definition get_subscription_for_product (e : Env) (c : Contract) (account_id : AccountId) (product_id : ProductId)
    : result (option Subscription.t) :=
  found ← find_subscription_by_projected_product e c account_id product_id;
  mret (option_map snd found).

Definition get_subscription_for_price (e : Env) (c : Contract) (account_id : AccountId) (price_id : PriceId)
    : result (option Subscription.t) :=
  match prices c !! price_id with
  | None => Ok None
  | Some price => get_subscription_for_product e c account_id (Price.product_id price)
  end.

Definition get_subscriptions_for_account (e : Env) (c : Contract) (account_id : AccountId) (from_index limit : Z)
    : result (list Subscription.t) :=
  let ids := subscription_ids_for_account_view c account_id in
  collect_paginated_res from_index limit (Z.of_nat (length ids)) (fun index =>
    match ids !! Z.to_nat index with
    | None => Ok None
    | Some id => get_subscription e c id
    end).

Definition get_subscriptions (e : Env) (c : Contract) (from_index limit : Z) : result (list Subscription.t) :=
  mapM (project_subscription_view_now e c)
    (omap (fun id => subscriptions c !! id) (page from_index limit (subscription_ids c))).

Definition get_subscriptions_for_product (e : Env) (c : Contract) (product_id : ProductId) (from_index limit : Z)
    : result (list Subscription.t) :=
  match subscriptions_by_product c !! product_id with
  | None => Ok []
  | Some ids => mapM (project_subscription_view_now e c) (omap (fun id => subscriptions c !! id) (page from_index limit ids))
  end.

(** ** stake.rs *)
Definition get_farm_positions_for_account (e : Env) (c : Contract) (account_id : AccountId) (from_index limit : Z)
    : result (list FarmPositionView.t) :=
  let product_ids := default [] (farm_position_products_by_account c !! account_id) in
  collect_paginated_res from_index limit (Z.of_nat (length product_ids)) (fun index =>
    match product_ids !! Z.to_nat index with
    | None => Ok None
    | Some product_id => get_farm_position e c account_id product_id
    end).

(** The loop over the views of the account's positions. *)
Fixpoint sum_active_positions (views : list FarmPositionView.t) (unclaimed : Z) (active : list FarmPositionView.t)
    : Z * list FarmPositionView.t :=
  match views with
  | [] => (unclaimed, active)
  | p :: rest =>
      if negb (bool_decide (FarmPositionView.status p = FarmStatus.Active)) || (FarmPositionView.shares p =? 0)
      then sum_active_positions rest unclaimed active
      else sum_active_positions rest (u128_saturating_add unclaimed (FarmPositionView.pending_reward_units p)) (active ++ [p])
  end.

Definition get_farm_account (e : Env) (c : Contract) (account_id : AccountId) : result FarmAccountView.t :=
  let account := default (FarmAccount.mk account_id 0 0 0) (farm_accounts c !! account_id) in
  views ← get_farm_positions_for_account e c account_id 0 U64_MAX;
  let '(unclaimed, active) := sum_active_positions views 0 [] in
  mret (FarmAccountView.mk account_id (FarmAccount.accumulated_reward_units account) unclaimed
          (u128_saturating_add (FarmAccount.accumulated_reward_units account) unclaimed) active).

(** ** Pages: the reference definition

    The records of the ids from an index on, up to a limit. *)
Definition found_page {A B} (from_index limit : Z) (find : A -> option B) (ids : list A) : list B :=
  take (Z.to_nat limit) (omap find (drop (Z.to_nat from_index) ids)).

Lemma found_page_nil {A B} from_index limit (find : A -> option B) : found_page from_index limit find (default [] None) = [].
Proof. unfold found_page. cbn. rewrite drop_nil. apply take_nil. Qed.

Lemma collect_from_spec {A T} (l : list A) (f : A -> option T) limit fuel : forall i out, 0 <= i ->
  Z.of_nat (length l) - i <= Z.of_nat fuel ->
  collect_from fuel i limit (Z.of_nat (length l)) (fun index => a ← l !! Z.to_nat index; f a) out =
    out ++ take (Z.to_nat limit - length out) (omap f (drop (Z.to_nat i) l)).
Proof.
  induction fuel as [|fuel IH]; intros i out Hi Hf; cbn [collect_from].
  - rewrite drop_ge by lia. cbn. by rewrite take_nil, app_nil_r.
  - destruct (i <? Z.of_nat (length l)) eqn:E; bool_prop; cbn [andb]; [|rewrite drop_ge by lia; cbn; by rewrite take_nil, app_nil_r].
    destruct (Z.of_nat (length out) <? limit) eqn:L; bool_prop.
    2: { replace (Z.to_nat limit - length out)%nat with O by lia. by rewrite take_0, app_nil_r. }
    destruct (lookup_lt_is_Some_2 l (Z.to_nat i)) as [a Ha]; [lia|]. rewrite IH by lia.
    rewrite (drop_S _ _ _ Ha), Ha. replace (Z.to_nat (i + 1)) with (S (Z.to_nat i)) by lia. cbn.
    destruct (f a) as [t|]; [|done]. replace (Z.to_nat limit - length out)%nat with (S (Z.to_nat limit - length (out ++ [t])))
      by (rewrite length_app; cbn; lia). cbn. by rewrite <- app_assoc.
Qed.

Lemma collect_paginated_spec {A T} (l : list A) (f : A -> option T) from_index limit : 0 <= from_index ->
  collect_paginated from_index limit (Z.of_nat (length l)) (fun index => a ← l !! Z.to_nat index; f a) =
    found_page from_index limit f l.
Proof.
  intros Hf. unfold collect_paginated, found_page. rewrite collect_from_spec by lia. cbn. by rewrite Nat.sub_0_r.
Qed.

(** The loop over fetches that do not panic. *)
Lemma collect_from_res_pure {T} fuel limit total_len (fetch : Z -> result (option T)) (g : Z -> option T) : 
  forall i out, 0 <= i -> (forall j, i <= j < total_len -> fetch j = Ok (g j)) ->
  collect_from_res fuel i limit total_len fetch out = Ok (collect_from fuel i limit total_len g out).
Proof.
  induction fuel as [|fuel IH]; intros i out Hi Hg; [done|]. cbn.
  destruct (i <? total_len) eqn:E; bool_prop; [|done]. cbn. destruct (_ <? limit); [|done].
  rewrite Hg by lia. cbn. apply IH; [lia|]. intros j Hj. apply Hg. lia.
Qed.

Lemma collect_paginated_res_spec {A T} (l : list A) (fetch : Z -> result (option T)) (f : A -> option T) from_index limit :
  0 <= from_index -> (forall j a, l !! Z.to_nat j = Some a -> fetch j = Ok (f a)) ->
  collect_paginated_res from_index limit (Z.of_nat (length l)) fetch =
    Ok (found_page from_index limit f l).
Proof.
  intros Hf Hx. unfold collect_paginated_res.
  rewrite (collect_from_res_pure _ _ _ _ (fun index => a ← l !! Z.to_nat index; f a)); [|done|].
  - f_equal. by apply collect_paginated_spec.
  - intros j Hj. destruct (lookup_lt_is_Some_2 l (Z.to_nat j)) as [a Ha]; [lia|]. by rewrite (Hx _ _ Ha), Ha.
Qed.

(** ** A due update: the projections show what applying it stores *)

(** A subscription and its lock refer to each other. *)
Definition linked (c : Contract) (id : SubscriptionId) (sub : Subscription.t) (lock : Lock.t) : Prop :=
  subscriptions c !! id = Some sub /\ Subscription.subscription_id sub = id /\
  locks c !! Subscription.last_lock_id sub = Some lock /\ Lock.lock_id lock = Subscription.last_lock_id sub /\
  Lock.account_id lock = Subscription.account_id sub /\
  exists pr from till, Lock.order lock = SubscriptionOrder id pr from till.

Definition records (c : Contract) := (locks c, subscriptions c).
Definition at_records b (c : Contract) : Prop := records c = b.

Lemma records_move `{IS : IdSet} b a id p q : keeps (at_records b) (move_subscription_product_index a id p q).
Proof.
  unfold move_subscription_product_index, remove_subscription_from_product_index_for_product,
    add_subscription_to_product_index_for_product. keeps_walk; try assumption; try (by case_match).
Qed.

Lemma decrease_spec buyer sub lock n e c u c1 es : 
  apply_scheduled_stake_decrease_at_renewal buyer sub n e c = Ok (u, c1, es) ->
  locks c !! Subscription.last_lock_id sub = Some lock -> Lock.lock_id lock = Subscription.last_lock_id sub ->
  Lock.account_id lock = buyer -> Lock.status lock = LockStatus.Active ->
  exists lock1, project_scheduled_stake_decrease_lock c lock n = Ok lock1 /\
    locks c1 !! Subscription.last_lock_id sub = Some lock1 /\ subscriptions c1 = subscriptions c.
Proof.
  unfold apply_scheduled_stake_decrease_at_renewal, project_scheduled_stake_decrease_lock. intros H Hl Hid Ha Hs. m_inv.
  rewrite Hl in *. rewrite Ha, String.eqb_refl, (bool_decide_eq_true_2 _ Hs) in *. cbn [negb orb] in *.
  m_case; m_inv; [eauto|]. read. res_inv. unfold find_validator. rewrite Hv. cbn.
  match goal with H : surplus_shares _ _ _ = Ok _ |- _ => rewrite H end. cbn.
  case_match; m_inv; [|eauto].
  match goal with H : internal_unstake _ _ _ _ _ = Ok _ |- _ => apply internal_unstake_inv in H as (x' & counts & h & Hx' & _ & _ & _ & Hnear & _ & _ & -> & ->) end.
  rewrite Hv in Hx'. injection Hx' as <-. rewrite Hnear. cbn.
  unfold internal_set_lock in *. m_inv. rewrite Hid. cbn. rewrite lookup_insert_eq. eauto.
Qed.

Lemma sync_spec sub lock e c u c1 es : sync_subscription_lock_window sub e c = Ok (u, c1, es) ->
  locks c !! Subscription.last_lock_id sub = Some lock -> Lock.lock_id lock = Subscription.last_lock_id sub ->
  Lock.account_id lock = Subscription.account_id sub ->
  locks c1 !! Subscription.last_lock_id sub =
    Some (if bool_decide (Lock.status lock = LockStatus.Active) then sync_lock_window_fields lock sub else lock) /\
  subscriptions c1 = subscriptions c.
Proof.
  unfold sync_subscription_lock_window. intros H Hl Hid Ha. m_inv. rewrite Hl in *. rewrite Ha, String.eqb_refl in *. cbn [negb orb] in *.
  by_cases (Lock.status lock = LockStatus.Active); cbn [negb] in *; m_inv; [|done].
  unfold internal_set_lock in *. m_inv. rewrite Hid. cbn. by rewrite lookup_insert_eq.
Qed.

Lemma decrease_idle buyer sub lock n e c u c1 es :
  apply_scheduled_stake_decrease_at_renewal buyer sub n e c = Ok (u, c1, es) ->
  locks c !! Subscription.last_lock_id sub = Some lock -> Lock.status lock <> LockStatus.Active -> c1 = c.
Proof.
  unfold apply_scheduled_stake_decrease_at_renewal. intros H Hl Hs. m_inv. rewrite Hl in *.
  rewrite (bool_decide_eq_false_2 _ Hs), orb_true_r in *. by m_inv.
Qed.

Lemma project_decrease_frame c lock n lock1 : project_scheduled_stake_decrease_lock c lock n = Ok lock1 ->
  Lock.lock_id lock1 = Lock.lock_id lock /\ Lock.account_id lock1 = Lock.account_id lock /\ Lock.order lock1 = Lock.order lock.
Proof.
  unfold project_scheduled_stake_decrease_lock, shrink_lock. intros H. destruct (_ =? 0); res_inv; [done|].
  case_match; res_inv; [|done]. by destruct (_ =? 0).
Qed.

(** The subscription after a due update. *)
Definition renewed (stored : Subscription.t) (pending : PendingSubscriptionUpdate.t) (product : ProductId) (w : Z * Z) : Subscription.t :=
  stored <| Subscription.product_id := product |>
         <| Subscription.price_id := default (Subscription.price_id stored) (PendingSubscriptionUpdate.target_price_id pending) |>
         <| Subscription.start_ns := w.1 |> <| Subscription.end_ns := w.2 |> <| Subscription.pending_update := None |>.

Section due.
Context (id : SubscriptionId) (stored : Subscription.t) (pending : PendingSubscriptionUpdate.t) (e : Env) (w : Z * Z).
Context (Hactive : Subscription.status stored = SubscriptionStatus.Active)
(Hkept : Subscription.cancel_at_period_end stored = false) (Hpending : Subscription.pending_update stored = Some pending)
(Hdue : PendingSubscriptionUpdate.apply_ns pending <= block_timestamp e)
(Hw : projected_subscription_window_from (Subscription.anchor_day stored) (PendingSubscriptionUpdate.apply_ns pending)
(block_timestamp e) = Ok w).

(** The lock after the decrease and the new window. *)
Lemma decrease_then_sync lock product c u1 u2 c1 c2 es1 es2 : linked c id stored lock ->
match PendingSubscriptionUpdate.target_amount pending with
| Some n => apply_scheduled_stake_decrease_at_renewal (Subscription.account_id stored) stored n
| None => mret tt
end e c = Ok (u1, c1, es1) ->
sync_subscription_lock_window (renewed stored pending product w) e c1 = Ok (u2, c2, es2) ->
exists lock', project_lock_view_now e c lock = Ok lock' /\ locks c2 !! Subscription.last_lock_id stored = Some lock' /\
subscriptions c2 = subscriptions c.
Proof.
intros (Hs & Hid & Hl & Hlid & Hacc & pr & from & till & Ho) H1 H2. unfold project_lock_view_now.
rewrite Ho, Hs, Hlid, Hacc, !String.eqb_refl, (bool_decide_eq_true_2 _ Hactive), Hkept, Hpending. cbn [negb orb].
assert (block_timestamp e <? PendingSubscriptionUpdate.apply_ns pending = false) as -> by (apply Z.ltb_ge; lia).
by_cases (Lock.status lock = LockStatus.Active); cbn [negb].
- assert (exists lock1, match PendingSubscriptionUpdate.target_amount pending with
| Some n => project_scheduled_stake_decrease_lock c lock n | None => mret lock end = Ok lock1 /\
locks c1 !! Subscription.last_lock_id stored = Some lock1 /\ subscriptions c1 = subscriptions c /\
Lock.lock_id lock1 = Lock.lock_id lock /\ Lock.account_id lock1 = Lock.account_id lock /\ Lock.order lock1 = Lock.order lock)
as (lock1 & E1 & El & Es & F1 & F2 & F3).
{ destruct (PendingSubscriptionUpdate.target_amount pending) as [n|]; [|m_inv; by exists lock].
destruct (decrease_spec _ _ _ _ _ _ _ _ _ H1 Hl Hlid Hacc D) as (lock1 & E1 & El & Es).
exists lock1. pose proof (project_decrease_frame _ _ _ _ E1). tauto. }
rewrite E1. cbn. destruct (sync_spec (renewed stored pending product w) lock1 _ _ _ _ _ H2) as [E2 Es2];
[done | cbn; congruence | cbn; congruence|].
cbn in E2. rewrite Es2, Es. unfold sync_lock_window_fields in E2. cbn in E2. rewrite F3, Ho in E2.
by_cases (Lock.status lock1 = LockStatus.Active); cbn; [|eauto].
rewrite Hw. cbn. rewrite F3, Ho, Hid in *. rewrite String.eqb_refl in *. eauto.
- assert (c1 = c) as -> by (destruct (PendingSubscriptionUpdate.target_amount pending); [by eapply decrease_idle | by m_inv]).
destruct (sync_spec (renewed stored pending product w) lock _ _ _ _ _ H2) as [E2 Es2]; [done..|]. cbn in E2.
rewrite bool_decide_eq_false_2 in E2 by done. rewrite Es2. eauto.
Qed.
End due.

(** The subscription a due update stores is the one the view shows. *)
Lemma renewed_is_projected e c stored pending w product : Subscription.status stored = SubscriptionStatus.Active ->
  Subscription.cancel_at_period_end stored = false -> Subscription.pending_update stored = Some pending ->
  PendingSubscriptionUpdate.apply_ns pending <= block_timestamp e ->
  projected_subscription_window_from (Subscription.anchor_day stored) (PendingSubscriptionUpdate.apply_ns pending)
    (block_timestamp e) = Ok w ->
  match PendingSubscriptionUpdate.target_price_id pending with
  | Some t => exists price, prices c !! t = Some price /\ Price.product_id price = product
  | None => Subscription.product_id stored = product
  end ->
  project_subscription_view_now e c stored = Ok (renewed stored pending product w).
Proof.
  intros Ha Hc Hp Hd Hw Ht. unfold project_subscription_view_now, renewed.
  rewrite (bool_decide_eq_true_2 _ Ha), Hc, Hp, (proj2 (Z.leb_le _ _) Hd). cbn [negb]. unfold project_due_update_fields.
  destruct (PendingSubscriptionUpdate.target_price_id pending) as [t|].
  - destruct Ht as (price & Hprice & <-). unfold find_price. rewrite Hprice. cbn. rewrite Hw. done.
  - subst product. cbn. rewrite Hw. cbn. destruct stored. done.
Qed.

(** What a due update is to: the price and the product of its target. *)
Definition target_of (c : Contract) (pending : PendingSubscriptionUpdate.t) (target : option (Price.t * Product.t)) : Prop :=
  match target with
  | Some (price, product) => PendingSubscriptionUpdate.target_price_id pending = Some (Price.price_id price) /\
      prices c !! Price.price_id price = Some price /\ Price.product_id price = Product.product_id product
  | None => PendingSubscriptionUpdate.target_price_id pending = None
  end.
Definition target_product (stored : Subscription.t) (target : option (Price.t * Product.t)) : ProductId :=
  match target with Some (_, product) => Product.product_id product | None => Subscription.product_id stored end.

Lemma due_target pending e c target c0 es : keyed (shelf c) ->
  match PendingSubscriptionUpdate.target_price_id pending with
  | Some t => price ← require_price t; product ← require_product (Price.product_id price); mret (Some (price, product))
  | None => mret None
  end e c = Ok (target, c0, es) -> c0 = c /\ target_of c pending target.
Proof.
  intros HK H. unfold target_of. destruct (PendingSubscriptionUpdate.target_price_id pending) as [t|]; m_inv; [|done]. read_cat.
  destruct (price_stocked _ HK c _ _ eq_refl Hp) as [_ E1]. destruct (product_stocked _ HK c _ _ eq_refl Hq) as [_ E2]. by subst t.
Qed.

Lemma due_renewed c stored pending target w : target_of c pending target ->
  clear_pending_update (match target with
    | Some (price, _) => stored <| Subscription.product_id := target_product stored target |> <| Subscription.price_id := Price.price_id price |>
    | None => stored end <| Subscription.start_ns := w.1 |> <| Subscription.end_ns := w.2 |>) =
  renewed stored pending (target_product stored target) w.
Proof.
  unfold renewed, clear_pending_update, target_of, target_product. destruct target as [[price product]|].
  - intros (-> & _ & _). done.
  - intros ->. by destruct stored.
Qed.

Lemma set_subscription_records id sub e c u c' es : internal_set_subscription id sub e c = Ok (u, c', es) ->
  records c' = (locks c, <[id := sub]> (subscriptions c)).
Proof.
  unfold internal_set_subscription, add_pending_update_target_refs, remove_pending_update_target_refs, records.
  intros H. m_inv. repeat case_match; done.
Qed.

(** A due update that is applied stores the subscription and the lock its views
    showed. *)
Lemma apply_due_shown `{IS : IdSet} id e c stored lock c' es : keyed (shelf c) -> linked c id stored lock ->
  apply_due_subscription_update id e c = Ok (true, c', es) ->
  get_subscription e c id = Ok (subscriptions c' !! id) /\
  get_lock e c (Subscription.last_lock_id stored) (Some true) = Ok (locks c' !! Subscription.last_lock_id stored).
Proof.
  intros HK HL H. pose proof HL as (Hs & Hid & Hl & _). unfold get_subscription, get_lock, lock_view.
  rewrite Hs, Hl, bool_decide_eq_true_2 by done. cbn.
  unfold apply_due_subscription_update in H. m_inv. rewrite Hs in *.
  m_case; [by m_inv|]. apply orb_false_iff in C as [Ha%negb_false_iff%bool_decide_eq_true Hc].
  destruct (Subscription.pending_update stored) as [pending|] eqn:Hp; [|by m_inv]. m_case; [by m_inv|]. apply Z.ltb_ge in C.
  apply bindM_Ok_inv in H as (target & c0 & es0 & es3 & Ht & H & _). apply (due_target _ _ _ _ _ _ HK) in Ht as [-> Ht].
  apply bindM_Ok_inv in H as ([] & c1 & es4 & es5 & H1 & H & _).
  apply bindM_Ok_inv in H as (w & c2 & es6 & es7 & Hw & H & _). apply liftM_Ok_inv in Hw as (Hw & -> & _).
  fold (target_product stored target) in H. rewrite (due_renewed _ _ _ _ w Ht) in H.
  apply bindM_Ok_inv in H as ([] & c2 & es8 & es9 & H2 & H & _).
  assert (exists es1', match PendingSubscriptionUpdate.target_amount pending with
    | Some n => apply_scheduled_stake_decrease_at_renewal (Subscription.account_id stored) stored n
    | None => mret tt end e c = Ok (tt, c1, es1')) as [es1' H1'].
  { destruct (PendingSubscriptionUpdate.target_amount pending); m_inv; [|eauto]. rewrite Hl in *. m_inv. read. eauto. }
  destruct (decrease_then_sync id stored pending e w Ha Hc Hp C Hw _ _ _ _ _ _ _ _ _ HL H1' H2) as (lock' & -> & Hl' & Hs').
  rewrite (renewed_is_projected e c stored pending w (target_product stored target)); try done.
  2: { unfold target_of, target_product in *. destruct target as [[price product]|]; [|by rewrite Ht].
       destruct Ht as (-> & Hpr & E). eauto. }
  cbn. apply bindM_Ok_inv in H as ([] & c3 & es10 & es11 & H3 & H & _).
  assert (at_records (records c2) c3) as [= El Es].
  { clear H. m_case; [by m_inv|]. by apply (records_move (records c2)) in H3. }
  apply bindM_Ok_inv in H as ([] & c4 & es12 & es13 & H4 & H & _). apply set_subscription_records in H4 as E4.
  apply bindM_Ok_inv in H as ([] & c5 & es14 & es15 & H5 & H & _).
  assert (at_records (records c4) c5) as E5.
  { clear H. unfold internal_set_price, internal_set_product in H5. destruct target as [[price product]|]; by m_inv. }
  assert (c' = c5) as -> by (by m_inv). unfold at_records in E5. rewrite E4 in E5. injection E5 as -> ->.
  rewrite lookup_insert_eq, El, Hl'. done.
Qed.
