(* ===== verification/StakingIndex.v ===== *)
(** * The listings of the staking contract

    Validators, products, purchases and registered accounts are kept in maps
    beside the lists of their ids that the listings page through. [Listed]:
    each list holds exactly the keys of its map, each once, and the purchases
    are indexed by their buyer and their product. Every call and callback
    keeps it. *)
From stdpp Require Import base gmap strings list.
From Stdlib Require Import ZArith Lia.
From S2P Require Import Prelude.
From S2P Require Import Near.
From S2P Require Import MerkleTree.
From S2P Require Import StakingTypes.
From S2P Require Import StakingMath.
From S2P Require Import StakingContract.
From S2P Require Import StakingCatalog.
From S2P Require Import StakingEpoch.
From S2P Require Import StakingSubscriptions.
From S2P Require Import StakingLocks.
From S2P Require Import StakingFarm.
From S2P Require Import StakingBooks.
From S2P Require Import StakingTails.
From S2P Require Import StakingShelf.
From S2P Require Import StakingCat.
From S2P Require Import StakingWorld.
From S2P Require Import StakingReach.
From S2P Require Import StakingViews.

Local Open Scope Z_scope.
Local Open Scope record_scope.

(** ** What the listings depend on *)
Definition vkeys (c : Contract) : gmap ValidatorId unit := (fun _ => tt) <$> validators c.
Definition pkeys (c : Contract) : gmap ProductId ProductId := Product.product_id <$> products c.
Definition akeys (c : Contract) : gmap AccountId unit := (fun _ => tt) <$> accounts c.

Record Index : Type := mkIndex {
  ix_validators : gmap ValidatorId unit;
  ix_validator_ids : list ValidatorId;
  ix_products : gmap ProductId ProductId;
  ix_product_ids : list ProductId;
  ix_purchases : gmap PurchaseId Purchase.t;
  ix_purchase_ids : list PurchaseId;
  ix_by_account : gmap AccountId (list PurchaseId);
  ix_by_product : gmap ProductId (list PurchaseId);
  ix_accounts : gmap AccountId unit;
  ix_account_ids : list AccountId
}.
Definition index (c : Contract) : Index :=
  mkIndex (vkeys c) (validator_ids c) (pkeys c) (product_ids c) (purchases c) (purchase_ids c)
    (purchases_by_account c) (purchases_by_product c) (akeys c) (account_ids c).
Definition at_index (b : Index) (c : Contract) : Prop := index c = b.

(** A product is stored under its id. *)
Definition keyed_products (m : gmap ProductId ProductId) : Prop := map_Forall (fun k id => id = k) m.

(** ** Reading under an index *)
Definition reads {A} (b : Index) (m : MS A) (Q : A -> Prop) : Prop :=
  forall e c a c' es, at_index b c -> m e c = Ok (a, c', es) -> at_index b c' /\ Q a.

Lemma keeps_read {A B} b (m : MS A) Q (f : A -> MS B) :
  reads b m Q -> (forall a, Q a -> keeps (at_index b) (f a)) -> keeps (at_index b) (mbind f m).
Proof. intros Hm Hf. eapply keeps_post; [exact Hm | exact Hf]. Qed.

Lemma index_insert_validator b c id v : at_index b c -> ix_validators b !! id = Some tt ->
  at_index b (c <| validators := <[id := v]> (validators c) |>).
Proof.
  intros <- H. unfold at_index, index. f_equal. unfold vkeys. cbn. rewrite fmap_insert. by apply insert_id.
Qed.
Lemma index_insert_product b c id p : at_index b c -> ix_products b !! id = Some (Product.product_id p) ->
  at_index b (c <| products := <[id := p]> (products c) |>).
Proof.
  intros <- H. unfold at_index, index. f_equal. unfold pkeys. cbn. rewrite fmap_insert. by apply insert_id.
Qed.

Section frame.
Context (b : Index) (Hk : keyed_products (ix_products b)).

Definition has_validator (id : ValidatorId) : Prop := ix_validators b !! id = Some tt.
Definition has_product (id : ProductId) (p : Product.t) : Prop :=
ix_products b !! id = Some id /\ Product.product_id p = id.

Lemma lookup_validator c id v : at_index b c -> validators c !! id = Some v -> has_validator id.
Proof. intros E H. unfold has_validator. rewrite <- E. change (vkeys c !! id = Some tt). unfold vkeys. by rewrite lookup_fmap, H. Qed.
Lemma lookup_product c id p : at_index b c -> products c !! id = Some p -> has_product id p.
Proof.
intros E H. assert (ix_products b !! id = Some (Product.product_id p)) as Hp
by (rewrite <- E; change (pkeys c !! id = Some (Product.product_id p)); unfold pkeys; by rewrite lookup_fmap, H).
pose proof (Hk _ _ Hp) as Ep. cbn in Ep. rewrite Ep in Hp. by split.
Qed.

Lemma read_validator id : reads b (require_validator id) (fun _ => has_validator id).
Proof.
intros e c a c' es Hc H. unfold require_validator in H. m_inv. apply expect_Ok_inv in B. split; [done|]. by eapply lookup_validator.
Qed.
Lemma read_validator_idle id : reads b (require_validator_idle id) (fun _ => has_validator id).
Proof.
intros e c a c' es Hc H. unfold require_validator_idle, assert_validator_idle_for_user_action in H. m_inv.
by eapply read_validator.
Qed.
Lemma read_validator_busy id msg : reads b (require_validator_busy id msg) (fun _ => has_validator id).
Proof. intros e c a c' es Hc H. unfold require_validator_busy, assert_validator_busy in H. m_inv. by eapply read_validator. Qed.
Lemma read_product id : reads b (require_product id) (has_product id).
Proof.
intros e c a c' es Hc H. unfold require_product, find_product in H. m_inv. apply expect_Ok_inv in B. split; [done|].
by eapply lookup_product.
Qed.
Lemma read_price id : reads b (require_price id) (fun _ => True).
Proof. intros e c a c' es Hc H. unfold require_price in H. by m_inv. Qed.
Lemma read_price_and_product id : reads b (require_price_and_product id) (fun x => has_product (Price.product_id x.1) x.2).
Proof.
intros e c a c' es Hc H. unfold require_price_and_product in H. m_inv.
apply read_price in E as [Hc1 _]; [|done]. by apply read_product in E0.
Qed.
Lemma read_active id : reads b (get_active_price_and_product id) (fun x => has_product (Price.product_id x.1) x.2).
Proof.
intros e c a c' es Hc H. unfold get_active_price_and_product in H. m_inv.
apply read_price in E as [Hc1 _]; [|done]. by apply read_product in E1.
Qed.

Lemma keeps_set_validator id v : has_validator id -> keeps (at_index b) (internal_set_validator id v).
Proof. intros H. unfold internal_set_validator. keeps_walk. by apply index_insert_validator. Qed.
Lemma keeps_set_product id q : ix_products b !! id = Some id -> Product.product_id q = id ->
keeps (at_index b) (internal_set_product id q).
Proof. intros H E. unfold internal_set_product. keeps_walk. apply index_insert_product; [done|]. by rewrite E. Qed.

(** The target of a due update. *)
Lemma read_target o : reads b (match o with
| Some id => price ← require_price id; product ← require_product (Price.product_id price); mret (Some (price, product))
| None => mret None
end) (fun t => forall x, t = Some x -> has_product (Price.product_id x.1) x.2).
Proof.
intros e c a c' es Hc H. destruct o; m_inv; [|by split].
apply read_price in E as [Hc1 _]; [|done]. apply read_product in E0 as [Hc2 Hp]; [|done]. split; [done|]. by intros x [= <-].
Qed.
Lemma read_farm_price price id : reads b (require_farm_price_for_product price id) (fun _ => Price.product_id price = id).
Proof. intros e c a c' es Hc H. unfold require_farm_price_for_product in H. m_inv. by str_prop. Qed.
Lemma read_inputs buyer p t id expected : reads b (checked_subscription_update_inputs buyer p t id expected)
(fun i => has_product (Price.product_id (in_target_price i)) (in_target_product i)).
Proof.
intros e c a c' es Hc H. pose proof H as (-> & _)%checked_inputs_inv. split; [done|].
unfold checked_subscription_update_inputs in H. m_inv. by apply read_active in E as [_ ?].
Qed.
Lemma read_update_state p d sub price product x : reads b (lift (apply_subscription_update_state p d sub price product x))
(fun y => Product.product_id y.1.2 = Product.product_id product).
Proof.
intros e c a c' es Hc H. m_inv. split; [done|]. unfold apply_subscription_update_state in B.
destruct (immediate_plan_change d); res_inv; done.
Qed.
End frame.

Create HintDb reads.
#[export] Hint Resolve read_validator read_validator_idle read_validator_busy read_product read_price_and_product
  read_active read_target read_farm_price read_inputs read_update_state : reads.

(** [index_walk] goes through a computation; what it writes to the indexed
    parts remains. *)
Ltac index_leaf :=
  match goal with
  | |- keeps (at_index _) (internal_set_validator _ _) => eapply keeps_set_validator; eassumption
  | |- keeps (at_index _) (internal_set_product _ _) =>
      match goal with H : has_product _ _ _ |- _ => destruct H as [? ?]; apply keeps_set_product; cbn in *; congruence end
  | Hc : at_index ?b ?c, E : validators ?c !! ?id = Some _ |- _ =>
      lazymatch goal with H : has_validator b id |- _ => fail | _ => pose proof (lookup_validator b c id _ Hc E) end
  | Hk : keyed_products (ix_products ?b), Hc : at_index ?b ?c, E : products ?c !! ?id = Some ?p |- _ =>
      lazymatch goal with H : has_product b id p |- _ => fail | _ => pose proof (lookup_product b Hk c id p Hc E) end
  end.
Ltac index_target :=
  match goal with
  | H : forall x, Some ?y = Some x -> has_product _ _ _ |- _ => specialize (H _ eq_refl)
  end.
Ltac index_step :=
  match goal with
  | |- keeps _ (mbind _ get_state) => apply keeps_get; intros ? ?
  | |- keeps _ (mbind _ _) => eapply keeps_read; [solve [eauto with reads nocore] | cbn beta; intros ? ?]
  | |- keeps _ (mbind _ _) => apply keeps_bind; [|intro]
  | |- keeps _ (for_each _ _) => apply keeps_for_each; intro
  | |- keeps _ (if ?b then _ else _) => destruct b
  | |- keeps _ (match ?x with _ => _ end) => destruct x eqn:?
  | |- keeps _ (let _ := _ in _) => cbv zeta
  | |- keeps _ _ => first [index_target | index_leaf]
  | |- keeps _ _ => solve [auto with keeps nocore]
  | |- keeps _ (put_state _) => apply keeps_put; assumption
  | |- keeps _ (modify _) => apply keeps_modify; intros ? ?; assumption
  | |- keeps _ (put_state _) => fail 1
  | |- keeps _ (modify _) => fail 1
  | |- keeps _ ?m => let h := head_of m in unfold h
  end.
Ltac index_walk := repeat (cbn beta; index_step).

(** ** Calls that leave the indexes alone *)
Lemma index_refs c sub : index (add_pending_update_target_refs sub c) = index c /\
  index (remove_pending_update_target_refs sub c) = index c.
Proof.
  unfold add_pending_update_target_refs, remove_pending_update_target_refs.
  split; (destruct (pending_update_target_price_id sub) as [id|]; [|done]); cbn; by destruct (prices c !! id).
Qed.
Lemma idx_set_subscription b id sub : keeps (at_index b) (internal_set_subscription id sub).
Proof.
  apply keeps_modify. intros c Hc. cbv zeta. unfold at_index in *. rewrite <- Hc.
  set (d := match subscriptions c !! id with Some old => remove_pending_update_target_refs old c | None => c end).
  transitivity (index d).
  - transitivity (index (add_pending_update_target_refs sub d)); [done | apply index_refs].
  - subst d. destruct (subscriptions c !! id) as [old|]; [apply (proj2 (index_refs c old)) | done].
Qed.
Lemma idx_remove_subscription b id : keeps (at_index b) (internal_remove_subscription id).
Proof.
  apply keeps_modify. intros c Hc. cbv zeta. unfold at_index in *. rewrite <- Hc.
  destruct (subscriptions c !! id) as [old|]; [|done]. by rewrite <- (proj2 (index_refs c old)).
Qed.
Lemma idx_remove_index `{IS : IdSet} b p id : keeps (at_index b) (remove_subscription_from_product_index_for_product p id).
Proof. apply keeps_modify. intros c Hc. by destruct (subscriptions_by_product c !! p). Qed.
Lemma idx_add_position b a p : keeps (at_index b) (add_farm_position_product_to_account a p).
Proof. apply keeps_modify. intros c Hc. cbv zeta. by case_bool_decide. Qed.
#[export] Hint Resolve idx_add_position idx_set_subscription idx_remove_subscription idx_remove_index : keeps.

Section calls.
Context `{HC : Crypto} `{IS : IdSet}.
Context (b : Index) (Hk : keyed_products (ix_products b)).

(** The calls that list something new, or take it off a list. *)
Definition lists (x : Call) : bool :=
match x with
| CStorageDeposit _ _ | CStorageWithdraw _ | CStorageUnregister _ | CAddValidator _ | CPay _ _ _ => true
| _ => false
end.
Definition lists_after (x : SelfCall) : bool :=
match x with CreateProductAfterGetOwner _ _ _ _ | DeleteProductAfterGetOwner _ _ => true | _ => false end.

Lemma idx_exec x : lists x = false -> keeps (at_index b) (exec x).
Proof. destruct x; try discriminate 1; intros _; cbn [exec]; unfold alone; index_walk. Qed.
Lemma idx_self x r : lists_after x = false -> keeps (at_index b) (run_self_call x r).
Proof. destruct x; try discriminate 1; intros _; cbn [run_self_call]; index_walk. Qed.
End calls.

(** ** A list that holds the keys of some entries of a map, each once *)
Definition lists_of {A} (P : A -> Prop) (l : list string) (m : gmap string A) : Prop :=
  NoDup l /\ forall k, k ∈ l <-> exists x, m !! k = Some x /\ P x.
Abbreviation lists_all := (lists_of (fun _ => True)).

Section lists_of.
Context {A : Type} (P : A -> Prop).

Lemma lists_new l m k x : lists_of P l m -> m !! k = None -> P x -> lists_of P (l ++ [k]) (<[k := x]> m).
Proof.
intros [Hn Hl] Hk Hx. split.
- apply NoDup_app. split; [done|]. split; [|apply NoDup_singleton]. intros y Hy ->%list_elem_of_singleton.
apply Hl in Hy as (z & Hz & _). congruence.
- intros j. rewrite elem_of_app, list_elem_of_singleton, Hl. destruct (decide (k = j)) as [<-|Hne].
+ rewrite lookup_insert_eq. split; [eauto | by right].
+ rewrite lookup_insert_ne by done. split; [intros [?|?]; [done|congruence] | by left].
Qed.

Lemma lists_skip l m k x : lists_of P l m -> m !! k = None -> ~ P x -> lists_of P l (<[k := x]> m).
Proof.
intros [Hn Hl] Hk Hx. split; [done|]. intros j. rewrite Hl. destruct (decide (k = j)) as [<-|Hne].
- rewrite lookup_insert_eq, Hk. split; [intros (? & ? & _); discriminate | intros (? & [= <-] & ?); done].
- by rewrite lookup_insert_ne.
Qed.

Lemma lists_empty : lists_of P [] (∅ : gmap string A).
Proof. split; [constructor|]. intros k. rewrite lookup_empty. split; [by intros ?%not_elem_of_nil | by intros (? & ? & _)]. Qed.

(** What the ids find is what the map holds. *)
Lemma lists_found `{forall kx : string * A, Decision (P kx.2)} l m : lists_of P l m ->
omap (fun k => m !! k) l ≡ₚ (map_to_list (filter (fun kx => P kx.2) m)).*2.
Proof.
intros [Hn Hl]. transitivity ((omap (fun k => pair k <$> m !! k) l).*2).
- clear Hn. assert (forall l', (omap (fun k => pair k <$> m !! k) l').*2 = omap (fun k => m !! k) l') as ->; [|done].
induction l' as [|k l' IH]; [done|]. cbn. destruct (m !! k); cbn; by rewrite IH.
- apply fmap_Permutation. apply NoDup_Permutation.
+ clear Hl. induction Hn as [|k l Hk _ IH]; [constructor|]. cbn. destruct (m !! k) eqn:E; cbn; [|done].
constructor; [|done]. intros (j & Hj & Ej)%list_elem_of_omap. destruct (m !! j); [|discriminate]. cbn in Ej. congruence.
+ apply NoDup_map_to_list.
+ intros [k x]. rewrite list_elem_of_omap, elem_of_map_to_list, map_lookup_filter_Some. cbn. split.
* intros (j & Hj & Ej). destruct (m !! j) eqn:E; [|discriminate]. cbn in Ej. injection Ej as -> ->.
apply Hl in Hj as (y & Hy & Py). split; [done|]. congruence.
* intros [Hk Hx]. exists k. split; [apply Hl; eauto|]. by rewrite Hk.
Qed.
Lemma lists_total l m : lists_of P l m -> Forall (fun k => is_Some (m !! k)) l.
Proof. intros [_ Hl]. apply Forall_forall. intros k (x & Hx & _)%Hl. eauto. Qed.
End lists_of.

Lemma lists_all_keys {A B} (f : A -> B) l (m : gmap string A) : lists_all l (f <$> m) <-> lists_all l m.
Proof.
  unfold lists_of. split; intros [Hn Hl]; (split; [done|]); intros k; rewrite Hl, lookup_fmap.
  - split; [intros (y & Hy & _); destruct (m !! k); [eauto | discriminate] | intros (x & -> & _); cbn; eauto].
  - split; [intros (x & -> & _); cbn; eauto | intros (y & Hy & _); destruct (m !! k); [eauto | discriminate]].
Qed.

Lemma lists_remove_first {A} l (m : gmap string A) k : lists_all l m -> lists_all (remove_first k l) (delete k m).
Proof.
  intros [Hn Hl]. assert (NoDup (remove_first k l) /\ forall j, j ∈ remove_first k l <-> j ∈ l /\ j <> k) as [H1 H2].
  { clear Hl. induction Hn as [|x l Hx Hn [IH1 IH2]]; cbn.
    - split; [constructor|]. intros j. rewrite elem_of_nil. tauto.
    - destruct (String.eqb_spec x k) as [->|Hne].
      + split; [done|]. intros j. rewrite elem_of_cons. split; [|tauto]. intros Hj. split; [by right|]. by intros ->.
      + split; [constructor; [|done]; rewrite IH2; tauto|]. intros j. rewrite !elem_of_cons, IH2.
        split; [intros [->|]; tauto | tauto]. }
  split; [done|]. intros j. rewrite H2, Hl. destruct (decide (j = k)) as [->|Hne].
  - rewrite lookup_delete_eq. split; [tauto | by intros (? & ? & _)].
  - rewrite lookup_delete_ne by done. split; [tauto | done].
Qed.

Lemma lists_ids_insert `{IS : IdSet} `{IL : !IdSetLaws IS} {A} l (m : gmap string A) k x :
  lists_all l m -> lists_all (ids_insert k l) (<[k := x]> m).
Proof.
  intros [Hn Hl]. split; [by apply NoDup_ids_insert|]. intros j. rewrite elem_of_ids_insert, Hl.
  destruct (decide (k = j)) as [<-|Hne]; [rewrite lookup_insert_eq; split; [eauto | by left]|].
  rewrite lookup_insert_ne by done. split; [intros [?|?]; [congruence | done] | by right].
Qed.
Lemma lists_ids_remove `{IS : IdSet} `{IL : !IdSetLaws IS} {A} l (m : gmap string A) k :
  lists_all l m -> lists_all (ids_remove k l) (delete k m).
Proof.
  intros [Hn Hl]. split; [by apply NoDup_ids_remove|]. intros j. rewrite elem_of_ids_remove, Hl.
  destruct (decide (j = k)) as [->|Hne]; [rewrite lookup_delete_eq; split; [tauto | by intros (? & ? & _)]|].
  rewrite lookup_delete_ne by done. tauto.
Qed.

(** ** The invariant *)
Record ListedS (b : Index) : Prop := {
  ls_validators : lists_all (ix_validator_ids b) (ix_validators b);
  ls_products : lists_all (ix_product_ids b) (ix_products b);
  ls_keyed : keyed_products (ix_products b);
  ls_purchases : lists_all (ix_purchase_ids b) (ix_purchases b);
  ls_by_account a : lists_of (fun p => Purchase.account_id p = a) (default [] (ix_by_account b !! a)) (ix_purchases b);
  ls_by_product q : lists_of (fun p => Purchase.product_id p = q) (default [] (ix_by_product b !! q)) (ix_purchases b);
  ls_accounts : lists_all (ix_account_ids b) (ix_accounts b)
}.
Definition Listed (c : Contract) : Prop := ListedS (index c).

Lemma Listed_keeps {A} (m : MS A) : (forall b, keyed_products (ix_products b) -> keeps (at_index b) m) -> keeps Listed m.
Proof. intros Hm e c a c' es HL H. unfold Listed. by rewrite (Hm _ (ls_keyed _ HL) e c a c' es eq_refl H). Qed.

Lemma index_of {A} (m : MS A) e c a c' es : ListedS (index c) ->
  (forall b, keyed_products (ix_products b) -> keeps (at_index b) m) -> m e c = Ok (a, c', es) -> index c' = index c.
Proof. intros HL Hm H. exact (Hm _ (ls_keyed _ HL) e c a c' es eq_refl H). Qed.

Lemma push_index_lists (m : gmap string (list string)) (f : Purchase.t -> string) ps k x a :
  (forall a, lists_of (fun p => f p = a) (default [] (m !! a)) ps) -> ps !! k = None ->
  lists_of (fun p => f p = a) (default [] (push_index m (f x) k !! a)) (<[k := x]> ps).
Proof.
  intros Hm Hk. unfold push_index. destruct (decide (f x = a)) as [<-|Hne].
  - rewrite lookup_insert_eq. cbn. by apply lists_new.
  - rewrite lookup_insert_ne by done. by apply lists_skip.
Qed.

Section listed.
Context `{HC : Crypto} `{IS : IdSet} `{IL : !IdSetLaws IS}.

Lemma set_account_Listed id x : keeps Listed (internal_set_account id x).
Proof.
apply keeps_modify. intros c [H1 H2 H3 H4 H5 H6 H7]. split; try done. cbn in *. unfold akeys in *. cbn.
rewrite fmap_insert. by apply lists_ids_insert.
Qed.
#[local] Hint Resolve set_account_Listed : keeps.
Lemma storage_deposit_Listed a only : keeps Listed (storage_deposit a only).
Proof. unfold storage_deposit, assert_not_paused. keeps_walk. Qed.
Lemma storage_withdraw_Listed n : keeps Listed (storage_withdraw n).
Proof. unfold storage_withdraw, assert_not_paused. keeps_walk. Qed.
Lemma storage_unregister_Listed force : keeps Listed (storage_unregister force).
Proof.
unfold storage_unregister, assert_not_paused. keeps_walk. destruct H as [H1 H2 H3 H4 H5 H6 H7].
split; try done. cbn in *. unfold akeys in *. cbn. rewrite fmap_delete. by apply lists_ids_remove.
Qed.

Lemma add_validator_Listed id : keeps Listed (add_validator id).
Proof.
intros e c u c' es [H1 H2 H3 H4 H5 H6 H7] H. unfold add_validator, assert_owner, internal_set_validator in H. m_inv.
destruct (validators c !! id) eqn:E; [discriminate|]. split; try done. cbn in *. unfold vkeys in *. cbn.
rewrite fmap_insert. apply lists_new; [done | by rewrite lookup_fmap, E | done].
Qed.

(** A new id: nothing else has changed. *)
Lemma fresh_id_state next taken msg e c id c' es : fresh_id next taken msg e c = Ok (id, c', es) ->
taken c id = false /\ exists n, c' = c <| id_nonce := n |>.
Proof. intros H. pose proof H as [Ht _]%fresh_id_inv. unfold fresh_id in H. m_inv. eauto. Qed.

Lemma create_product_Listed r v n d a : keeps Listed (create_product_after_get_owner r v n d a).
Proof.
unfold create_product_after_get_owner, callback_value.
do 3 (apply keeps_bind; [solve [keeps_walk | apply Listed_keeps; intros; index_walk]|intro]).
intros e c id c' es [H1 H2 H3 H4 H5 H6 H7] H. unfold next_unique_product_id, internal_set_product in H. m_inv.
match goal with E : fresh_id _ _ _ _ _ = Ok _ |- _ => apply fresh_id_state in E as (Hid & m & ->) end.
bool_prop. apply eq_None_not_Some in Hid. split; try done; cbn in *; unfold pkeys in *; cbn; rewrite fmap_insert.
- apply lists_new; [done | by rewrite lookup_fmap, Hid | done].
- by apply map_Forall_insert_2.
Qed.

Lemma delete_product_Listed r id a : keeps Listed (delete_product_after_get_owner r id a).
Proof.
unfold delete_product_after_get_owner, callback_value.
repeat (apply keeps_bind; [solve [keeps_walk | apply Listed_keeps; intros; index_walk]|intro]).
intros e c u c' es [H1 H2 H3 H4 H5 H6 H7] H. unfold remove_product_id_from_list in H. m_inv.
split; try done; cbn in *; unfold pkeys in *; cbn; rewrite fmap_delete.
- by apply lists_remove_first.
- by apply map_Forall_delete.
Qed.

(** The indexes with one more purchase. *)
Definition purchased (b : Index) (p : Purchase.t) : Index :=
let id := Purchase.purchase_id p in
mkIndex (ix_validators b) (ix_validator_ids b) (ix_products b) (ix_product_ids b) (<[id := p]> (ix_purchases b))
(ix_purchase_ids b ++ [id]) (push_index (ix_by_account b) (Purchase.account_id p) id)
(push_index (ix_by_product b) (Purchase.product_id p) id) (ix_accounts b) (ix_account_ids b).

Lemma purchased_Listed b p : ListedS b -> ix_purchases b !! Purchase.purchase_id p = None -> ListedS (purchased b p).
Proof.
intros [H1 H2 H3 H4 H5 H6 H7] Hp. split; cbn; try done.
- by apply lists_new.
- intros a. by apply push_index_lists.
- intros q. by apply push_index_lists.
Qed.

Ltac listed_after E :=
match type of E with ?m ?e ?s = Ok (?a, ?s', ?es) =>
assert (Listed s') by (refine (Listed_keeps m _ e s a s' es _ E); [intros; index_walk | assumption])
end.

Lemma pay_Listed price product n : keeps Listed (pay price product n).
Proof.
intros e c id c' es HL H. unfold pay, next_unique_purchase_id in H. m_inv.
listed_after E. listed_after E2. listed_after E3.
pose proof E4 as [Hs4 [Hy1 Hy2]]%(read_active (index s3) (ls_keyed _ ltac:(eassumption))); [|done]. cbn [fst snd] in *.
assert (Listed s4) as HL4 by (unfold Listed; by rewrite Hs4).
apply index_of in E0; [|done | intros; index_walk].
match goal with E : fresh_id _ _ _ _ _ = Ok _ |- _ => apply fresh_id_state in E as (Hid & m & ->) end.
bool_prop. apply eq_None_not_Some in Hid.
match goal with E : add_revenue_to_validator _ _ _ ?s11 = Ok _ |- _ =>
set (s11' := s11) in *; set (b := purchased (index s0) (Purchase.mk a10 (predecessor_account_id e) (Product.product_id y)
(Price.price_id x) n (attached_deposit e) (block_timestamp e)));
assert (index s11' = b) as E11 by reflexivity end.
assert (ListedS b) as HLb by (apply purchased_Listed; [unfold Listed in HL4; by rewrite E0 | done]). clearbody s11'.
assert (ix_products b !! Product.product_id y = Some (Product.product_id y)) as Hyb.
{ change (ix_products b) with (ix_products (index s0)). by rewrite E0, Hs4, Hy2. }
assert (at_index b s13) as Hs13.
{ eapply (keeps_bind (at_index b) (fun _ => internal_set_price _ _) (add_revenue_to_validator _ _));
[index_walk | intros _; index_walk | exact E11 | by eapply bindM_Ok]. }
unfold Listed. unfold internal_set_product in E14. m_inv. by rewrite (index_insert_product b s13).
Qed.

Lemma exec_Listed x : keeps Listed (exec x).
Proof.
destruct (lists x) eqn:E; [|apply Listed_keeps; intros; by apply idx_exec].
destruct x; try discriminate E; cbn [exec]; unfold alone; (apply keeps_bind; [|intro; apply keeps_ret]).
- apply storage_deposit_Listed.
- apply storage_withdraw_Listed.
- apply storage_unregister_Listed.
- apply add_validator_Listed.
- apply pay_Listed.
Qed.

Lemma self_Listed x r : keeps Listed (run_self_call x r).
Proof.
destruct (lists_after x) eqn:E; [|apply Listed_keeps; intros; by apply idx_self].
destruct x; try discriminate E; cbn [run_self_call]; intros e c a c' es HL H; apply giving_inv in H as (y & es' & H).
- by eapply create_product_Listed.
- by eapply delete_product_Listed.
Qed.

Lemma reachable_Listed w : reachable w -> Listed (contract w).
Proof.
induction 1 as [cfg c b H Hb | w w' Hr IH [o Hs] Hf].
- unfold staking_new in H. res_inv. split; cbn; try apply lists_empty; try (intros; rewrite lookup_empty; apply lists_empty).
all: unfold keyed_products, vkeys, pkeys, akeys; cbn; rewrite ?fmap_empty; first [apply lists_empty | apply map_Forall_empty].
- destruct Hs; try done; [by eapply exec_Listed | by eapply self_Listed..].
Qed.
Lemma products_are_found w : reachable w -> Forall (fun id => is_Some (products (contract w) !! id)) (product_ids (contract w)).
Proof. intros [_ H _ _ _ _ _]%reachable_Listed. cbn in H. by apply lists_all_keys, lists_total in H. Qed.
End listed.

(** ** Listings *)

(** [get] pages through the records: there is one list of them all, each
    once, and every page is a slice of it. *)
Definition pages_of {A} (get : Z -> Z -> list A) (records : list A) : Prop :=
  exists l, l ≡ₚ records /\ forall i k, 0 <= i -> get i k = take (Z.to_nat k) (drop (Z.to_nat i) l).

Lemma omap_drop_total {A B} (f : A -> option B) l k : Forall (fun x => is_Some (f x)) l ->
  omap f (drop k l) = drop k (omap f l).
Proof. intros Hl. revert k. induction Hl as [|x l [y Hy] _ IH]; intros [|k]; cbn; try done. rewrite Hy. apply IH. Qed.

Lemma lists_pages {A} (P : A -> Prop) `{forall kx : string * A, Decision (P kx.2)} l (m : gmap string A) (get : Z -> Z -> list A) :
  lists_of P l m -> (forall i k, 0 <= i -> get i k = found_page i k (fun id => m !! id) l) ->
  pages_of get (map_to_list (filter (fun kx => P kx.2) m)).*2.
Proof.
  intros Hl Hg. exists (omap (fun k => m !! k) l). split; [by apply lists_found|]. intros i k Hi. rewrite Hg by done.
  unfold found_page. by rewrite omap_drop_total by (by eapply lists_total).
Qed.

Lemma lists_all_pages {A} l (m : gmap string A) (get : Z -> Z -> list A) :
  lists_all l m -> (forall i k, 0 <= i -> get i k = found_page i k (fun id => m !! id) l) ->
  pages_of get (map_to_list m).*2.
Proof.
  intros Hl Hg. pose proof (lists_pages (fun _ => True) l m get Hl Hg) as H.
  replace (filter (fun kx => True) m) with m in H; [done|].
  apply map_eq. intros j. apply option_eq. intros x. rewrite map_lookup_filter_Some. tauto.
Qed.
