(* ===== verification/TestClock.v ===== *)
(** * The staking contract in a test build (feature [test])

    With the feature [test] the contract reads its clocks through overrides
    kept in raw storage: one for the block time, one for the epoch
    ([utils.rs]), and one per subscription ([subscriptions.rs]). Raw storage is
    a map from keys to values, both bytes, beside the state of the contract; an
    override is a [u64] in big-endian bytes. *)
From stdpp Require Import base gmap strings list.
From Stdlib Require Import ZArith Lia.
From S2P Require Import Prelude.
From S2P Require Import Near.
From S2P Require Import MerkleTree.
From S2P Require Import StakingTypes.
From S2P Require Import StakingMath.
From S2P Require Import StakingContract.
From S2P Require Import StakingCatalog.
From S2P Require Import StakingSubscriptions.

Local Open Scope Z_scope.
Local Open Scope record_scope.

Module TestClock.

(** ** Bytes *)

(** [u64::from_be_bytes]. *)
Definition from_be_bytes (l : bytes) : Z := foldl (fun x b => 256 * x + b) 0 l.

Lemma land_255 x : Z.land x 255 = x mod 256.
Proof. change 255 with (Z.ones 8). by rewrite Z.land_ones. Qed.

Lemma be_byte x k : 0 <= k -> Z.land (Z.shiftr x (8 * k)) 255 = x / 2 ^ (8 * k) mod 256.
Proof. intros Hk. by rewrite land_255, Z.shiftr_div_pow2 by lia. Qed.

Lemma peel x k k' : 0 <= k -> k' = k + 1 -> 256 * (x / 2 ^ (8 * k')) + x / 2 ^ (8 * k) mod 256 = x / 2 ^ (8 * k).
Proof.
intros Hk ->. replace (2 ^ (8 * (k + 1))) with (2 ^ (8 * k) * 256) by (replace (8 * (k + 1)) with (8 * k + 8) by lia; by rewrite Z.pow_add_r by lia).
rewrite <- Z.div_div by lia. symmetry. apply Z.div_mod. lia.
Qed.

Lemma be_bytes_read x : 0 <= x <= U64_MAX -> from_be_bytes (be_bytes x) = x.
Proof.
intros Hx. unfold from_be_bytes, be_bytes. cbn [map foldl]. rewrite !be_byte by lia.
assert (x / 2 ^ (8 * 7) mod 256 = x / 2 ^ (8 * 7)) as ->.
{ apply Z.mod_small. split; [apply Z.div_pos; lia|]. apply Z.div_lt_upper_bound; [lia|]. unfold U64_MAX in Hx. lia. }
rewrite Z.mul_0_r, Z.add_0_l.
rewrite (peel x 6 7), (peel x 5 6), (peel x 4 5), (peel x 3 4), (peel x 2 3), (peel x 1 2), (peel x 0 1) by lia. apply Z.div_1_r.
Qed.

Lemma str_bytes_inj s s' : str_bytes s = str_bytes s' -> s = s'.
Proof.
revert s'. induction s as [|c s IH]; intros [|c' s'] H; try discriminate H; [done|]. cbn in H.
injection H as Hc Hs. f_equal; [|by apply IH]. apply Nat2Z.inj in Hc.
by rewrite <- (Ascii.ascii_nat_embedding c), <- (Ascii.ascii_nat_embedding c'), Hc.
Qed.

(** ** Raw storage *)
Abbreviation Storage := (gmap (list Z) (list Z)).

Record State : Type := mkState { contract : Contract; raw : Storage }.
Abbreviation MT := (M SEffect State).

Definition TEST_TIMESTAMP_KEY : bytes := str_bytes "_test_block_timestamp_".
Definition TEST_EPOCH_KEY : bytes := str_bytes "_test_epoch_height_".
Definition TEST_SUBSCRIPTION_TIMESTAMP_PREFIX : bytes := str_bytes "_test_subscription_timestamp_".

Definition storage_write (key value : bytes) : MT unit := modify (fun st => mkState (contract st) (<[key := value]> (raw st))).
Definition storage_remove (key : bytes) : MT unit := modify (fun st => mkState (contract st) (delete key (raw st))).

(** The override under a key, or the value of the host. *)
Definition read_clock (s : Storage) (key : bytes) (host : Z) : Z :=
match s !! key with
| Some value => if (length value =? 8)%nat then from_be_bytes value else host
| None => host
end.

(** ** utils.rs: the clocks of the contract *)
Definition block_timestamp (e : Env) (s : Storage) : Z := read_clock s TEST_TIMESTAMP_KEY (Near.block_timestamp e).
Definition epoch_height (e : Env) (s : Storage) : Z := read_clock s TEST_EPOCH_KEY (Near.epoch_height e).

Definition set_block_timestamp (timestamp_ns : Z) : MT unit := storage_write TEST_TIMESTAMP_KEY (be_bytes timestamp_ns).
Definition get_block_timestamp (e : Env) (st : State) : Z := block_timestamp e (raw st).
Definition set_epoch_height (epoch : Z) : MT unit := storage_write TEST_EPOCH_KEY (be_bytes epoch).
Definition get_epoch_height (e : Env) (st : State) : Z := epoch_height e (raw st).
Definition clear_test_clock : MT unit := storage_remove TEST_TIMESTAMP_KEY ;; storage_remove TEST_EPOCH_KEY.

Definition advance_block_timestamp (delta_ns : Z) : MT unit :=
st ← get_state; e ← asks (fun e => e);
set_block_timestamp (u64_saturating_add (block_timestamp e (raw st)) delta_ns).
Definition advance_epoch_height (delta : Z) : MT unit :=
st ← get_state; e ← asks (fun e => e);
set_epoch_height (u64_saturating_add (epoch_height e (raw st)) delta).

(** ** subscriptions.rs: the clock of a subscription *)
Definition test_subscription_timestamp_key (subscription_id : SubscriptionId) : bytes :=
TEST_SUBSCRIPTION_TIMESTAMP_PREFIX ++ str_bytes subscription_id.

Definition subscription_now (e : Env) (s : Storage) (subscription_id : SubscriptionId) : Z :=
read_clock s (test_subscription_timestamp_key subscription_id) (block_timestamp e s).

Definition set_test_subscription_timestamp (subscription_id : SubscriptionId) (timestamp : Z) : MT unit :=
storage_write (test_subscription_timestamp_key subscription_id) (be_bytes timestamp).

Definition require_test_subscription_clock_owner (subscription_id : SubscriptionId) : MT unit :=
st ← get_state; sub ← lift (find_subscription (contract st) subscription_id); p ← asks predecessor_account_id;
requireM (String.eqb (Subscription.account_id sub) p) "Only the subscription owner can modify its test clock".

Definition test_fast_forward_subscription_to (subscription_id : SubscriptionId) (target_timestamp_ns : Z) : MT unit :=
require_test_subscription_clock_owner subscription_id ;;
st ← get_state; e ← asks (fun e => e);
requireM (subscription_now e (raw st) subscription_id <=? target_timestamp_ns) "Test clock can only fast-forward subscriptions" ;;
set_test_subscription_timestamp subscription_id target_timestamp_ns.

Definition test_fast_forward_subscription_by (subscription_id : SubscriptionId) (delta_ns : Z) : MT unit :=
require_test_subscription_clock_owner subscription_id ;;
st ← get_state; e ← asks (fun e => e);
set_test_subscription_timestamp subscription_id (u64_saturating_add (subscription_now e (raw st) subscription_id) delta_ns).

(** The host as a subscription, and as the rest of the contract sees it. *)
Definition at_time (e : Env) (now epoch : Z) : Env :=
mkEnv (predecessor_account_id e) (current_account_id e) (signer_account_id e) (attached_deposit e) now (block_height e)
(account_balance e) (storage_byte_cost e) (remaining_gas e) (promise_results e) epoch (prepaid_gas e).
Definition mocked (e : Env) (s : Storage) : Env := at_time e (block_timestamp e s) (epoch_height e s).
Definition seen_by (e : Env) (s : Storage) (subscription_id : SubscriptionId) : Env :=
at_time e (subscription_now e s subscription_id) (epoch_height e s).

(** A method of the contract that reads no clock of a subscription. *)
Definition run_mocked {A} (m : MS A) : MT A := fun e st =>
'(a, c, es) ← m (mocked e (raw st)) (contract st); mret (a, mkState c (raw st), es).

Definition project_subscription_view_now (e : Env) (st : State) (sub : Subscription.t) : result Subscription.t :=
StakingSubscriptions.project_subscription_view_now (seen_by e (raw st) (Subscription.subscription_id sub)) (contract st) sub.

Fixpoint find_projected (e : Env) (st : State) (buyer : AccountId) (product_id : ProductId)
(ids : list SubscriptionId) : result (option (SubscriptionId * Subscription.t)) :=
match ids with
| [] => Ok None
| sid :: rest =>
stored ← find_subscription (contract st) sid;
if negb (String.eqb (Subscription.account_id stored) buyer) ||
negb (bool_decide (Subscription.status stored = SubscriptionStatus.Active))
then find_projected e st buyer product_id rest
else
projected ← project_subscription_view_now e st stored;
if String.eqb (Subscription.product_id projected) product_id then mret (Some (sid, projected))
else find_projected e st buyer product_id rest
end.

Definition find_subscription_by_projected_product (e : Env) (st : State) (buyer : AccountId) (product_id : ProductId)
: result (option (SubscriptionId * Subscription.t)) :=
let c := contract st in
indexed ← match subscription_by_account_product c !! (buyer, product_id) with
  | Some sid =>
      stored ← find_subscription c sid;
      require (String.eqb (Subscription.account_id stored) buyer) subscription_owner_error ;;
      projected ← project_subscription_view_now e st stored;
      mret (if String.eqb (Subscription.product_id projected) product_id then Some (sid, projected) else None)
  | None => mret None
  end;
match indexed with
| Some found => mret (Some found)
| None => find_projected e st buyer product_id (subscription_ids_for_account_view c buyer)
end.

Definition test_fast_forward_subscription_for_product_to (product_id : ProductId) (target_timestamp_ns : Z) : MT unit :=
account_id ← asks predecessor_account_id; st ← get_state; e ← asks (fun e => e);
found ← lift (find_subscription_by_projected_product e st account_id product_id);
sub ← lift (expect found "No subscription for this product; subscribe first");
test_fast_forward_subscription_to (Subscription.subscription_id sub.2) target_timestamp_ns.

Definition test_get_stored_subscription (st : State) (subscription_id : SubscriptionId) : option Subscription.t :=
subscriptions (contract st) !! subscription_id.

Definition test_get_subscription_timestamp (e : Env) (st : State) (subscription_id : SubscriptionId) : result Z :=
find_subscription (contract st) subscription_id ;; mret (subscription_now e (raw st) subscription_id).

(** ** Clocks *)

(** The keys of the clocks differ: no subscription id makes the key of a
subscription one of the global keys, or that of another subscription. *)
Lemma subscription_key_inj id id' : test_subscription_timestamp_key id = test_subscription_timestamp_key id' -> id = id'.
Proof. unfold test_subscription_timestamp_key. intros H%app_inv_head. by apply str_bytes_inj. Qed.
Lemma subscription_key_global id key : key = TEST_TIMESTAMP_KEY \/ key = TEST_EPOCH_KEY -> test_subscription_timestamp_key id <> key.
Proof. intros [-> | ->]; discriminate. Qed.
Lemma global_keys : TEST_TIMESTAMP_KEY <> TEST_EPOCH_KEY.
Proof. discriminate. Qed.

Lemma read_written s key x host : 0 <= x <= U64_MAX -> read_clock (<[key := be_bytes x]> s) key host = x.
Proof. intros Hx. unfold read_clock. rewrite lookup_insert_eq. cbn -[from_be_bytes be_bytes]. by apply be_bytes_read. Qed.
Lemma read_other s key key' v host : key <> key' -> read_clock (<[key := v]> s) key' host = read_clock s key' host.
Proof. intros Hne. unfold read_clock. by rewrite lookup_insert_ne. Qed.

(** [s'] is [s] with the clock of one subscription set to a time. *)
Definition set_for (id : SubscriptionId) (time : Z) (s s' : Storage) : Prop :=
forall e, subscription_now e s' id = time /\ block_timestamp e s' = block_timestamp e s /\ epoch_height e s' = epoch_height e s /\
forall id', id' <> id -> subscription_now e s' id' = subscription_now e s id'.

Lemma set_for_write id time s : 0 <= time <= U64_MAX ->
set_for id time s (<[test_subscription_timestamp_key id := be_bytes time]> s).
Proof.
intros Ht e. unfold subscription_now, block_timestamp, epoch_height. rewrite read_written by done.
rewrite !(read_other _ _ _ _ _ (subscription_key_global id _ (or_introl eq_refl))), (read_other _ _ _ _ _ (subscription_key_global id _ (or_intror eq_refl))).
split_and!; try done. intros id' Hne. rewrite read_other; [done|]. intros H%subscription_key_inj. congruence.
Qed.

(** A test clock of a subscription only moves forward, and alone: who moves
it owns the subscription, and neither the state of the contract nor any
other clock changes. *)
Theorem fast_forward_is_local e st id target st' es : 0 <= target <= U64_MAX ->
test_fast_forward_subscription_to id target e st = Ok (tt, st', es) ->
(exists sub, subscriptions (contract st) !! id = Some sub /\ Subscription.account_id sub = predecessor_account_id e) /\
contract st' = contract st /\ subscription_now e (raw st) id <= target /\ set_for id target (raw st) (raw st').
Proof.
intros Ht H. unfold test_fast_forward_subscription_to, require_test_subscription_clock_owner, find_subscription in H. m_inv.
injection H as <- <-. apply expect_Ok_inv in B1. apply String.eqb_eq in B0. split_and!; [eauto | done | by apply Z.leb_le | by apply set_for_write].
Qed.

(** Without overrides the test build runs as the contract does. *)
Theorem mocked_is_the_host {A} (m : MS A) e c : run_mocked m e (mkState c ∅) =
'(a, c', es) ← m e c; mret (a, mkState c' ∅, es).
Proof. unfold run_mocked, mocked. cbn. by destruct e. Qed.

(** After [set_block_timestamp] and [set_epoch_height], every method runs at
that time and epoch, until [clear_test_clock]. *)
Theorem mocked_at e s time epoch : 0 <= time <= U64_MAX -> 0 <= epoch <= U64_MAX ->
let s' := <[TEST_EPOCH_KEY := be_bytes epoch]> (<[TEST_TIMESTAMP_KEY := be_bytes time]> s) in
mocked e s' = at_time e time epoch /\ mocked e (delete TEST_EPOCH_KEY (delete TEST_TIMESTAMP_KEY s')) = e.
Proof.
intros Ht He s'. unfold mocked, block_timestamp, epoch_height. split.
- subst s'. rewrite (read_other _ TEST_EPOCH_KEY) by (intros H; by apply global_keys). by rewrite !read_written.
- unfold read_clock. rewrite lookup_delete_eq, lookup_delete_ne by (intros H; by apply global_keys). rewrite lookup_delete_eq. by destruct e.
Qed.
End TestClock.
