(* ===== verification/StakingTheorems.v ===== *)
(** * Properties of the staking contract

    The books and the catalog in every reachable world, solvency, exits and
    claims, the share price, the calendar of the subscriptions and the farm
    rewards. *)
From stdpp Require Import base gmap strings list.
From Stdlib Require Import ZArith Lia.
From S2P Require Import Prelude.
From S2P Require Import Near.
From S2P Require Import MerkleTree.
From S2P Require Import StakingTypes.
From S2P Require Import StakingMath.
From S2P Require Import StakingContract.
From S2P Require Import StakingCatalog.
From S2P Require Import StakingEpoch.
From S2P Require Import StakingSubscriptions.
From S2P Require Import StakingLocks.
From S2P Require Import StakingFarm.
From S2P Require Import StakingWorld.
From S2P Require Import StakingBooks.
From S2P Require Import StakingStake.
From S2P Require Import StakingInvariant.
From S2P Require Import StakingTails.
From S2P Require Import StakingShelf.
From S2P Require Import StakingCat.
From S2P Require Import StakingFarms.
From S2P Require Import StakingReach.
From S2P Require Import StakingPricing.
From S2P Require Import StakingExits.
From S2P Require Import StakingCalendar.
From S2P Require Import StakingPipeline.
From S2P Require Import StakingMoney.
From S2P Require Import StakingTimeline.
From S2P Require Import StakingSolvency.
From S2P Require Import StakingViews.
From S2P Require Import StakingIndex.

Local Open Scope Z_scope.
Local Open Scope record_scope.

Section staking.
Context `{HC : Crypto} `{IS : IdSet}.

Lemma reachable_Inv w : reachable w -> Inv (contract w) /\ fits (contract w) /\ Cat (contract w).
Proof. intros H%reachable_healthy. destruct H as [[[HI _] HC0] Hf _]. done. Qed.

(** C3. The books are exact in every reachable world: the shares of a pool are
the sum of the users' shares, a user's shares are those of the user's
active locks and active farm positions, and the shares of a farm are those
of its active positions. *)
Theorem shares_exact w : reachable w -> let c := contract w in
(forall v x, validators c !! v = Some x -> Validator.total_shares x = shares_of (user_validator_shares c) v) /\
(forall a v, count (user_validator_shares c) (a, v) = lock_shares (locks c) a v + farm_shares (farm_positions c) a v) /\
(forall pr, price_shares (farm_positions c) pr = match farm_pools c !! pr with Some pool => FarmPool.total_farm_shares pool | None => 0 end).
Proof.
intros (HI & _ & _)%reachable_Inv. cbv zeta. split_and!.
- apply (inv_total _ _ _ HI).
- intros a v. rewrite (inv_user _ _ _ HI). unfold none2. lia.
- intros pr. pose proof (inv_farm _ _ _ HI pr) as H. unfold none1 in H. case_match; lia.
Qed.

(** C8. What was promised to the users who left a pool, in all their tranches,
is covered by the three buckets of the pool: what is still to be unstaked,
what the pool is releasing and what has arrived. No amount is negative. *)
Theorem exits_are_covered w v x : reachable w -> validators (contract w) !! v = Some x ->
promised (user_pending_unstake (contract w)) v <=
Validator.pending_to_unstake x + Validator.pending_to_withdraw x + Validator.pending_to_claim x /\
validator_ok x.
Proof.
intros (HI & _ & _)%reachable_Inv Hv. split; [exact (inv_liability _ _ _ HI _ _ Hv) | exact (inv_validator _ _ _ HI _ _ Hv)].
Qed.

(** C16. The catalog is in order in every reachable world: a price is listed by
its product, a product has at most one active farm price, a farm with
stake has an active price, and an active farm position is in a farm of its
product, on the validator of the product. *)
Theorem catalog_in_order w : reachable w -> let c := contract w in
(forall id p, prices c !! id = Some p -> Price.price_id p = id /\
exists q, products c !! Price.product_id p = Some q /\ id ∈ Product.price_ids q) /\
(forall id1 id2 p1 p2, prices c !! id1 = Some p1 -> prices c !! id2 = Some p2 ->
Price.product_id p1 = Price.product_id p2 ->
Price.price_type p1 = PriceType.Farm -> Price.status p1 = CatalogStatus.Active ->
Price.price_type p2 = PriceType.Farm -> Price.status p2 = CatalogStatus.Active -> id1 = id2) /\
(forall id pool, farm_pools c !! id = Some pool -> 0 < FarmPool.total_farm_shares pool ->
exists p, prices c !! id = Some p /\ Price.price_type p = PriceType.Farm /\ Price.status p = CatalogStatus.Active) /\
(forall a id p, farm_positions c !! (a, id) = Some p -> FarmPosition.status p = FarmStatus.Active -> 0 < FarmPosition.shares p ->
exists pool q, farm_pools c !! FarmPosition.price_id p = Some pool /\ FarmPool.product_id pool = id /\
products c !! id = Some q /\ Product.validator_id q = FarmPosition.validator_id p).
Proof.
intros (_ & _ & HK)%reachable_Inv. cbv zeta. split_and!.
- intros id p Hp. destruct (cat_price _ _ _ _ HK id (pview p) (pviews_Some _ _ _ Hp)) as (E & y & Hy & Hin). split; [done|].
apply lookup_fmap_Some in Hy as (q & <- & Hq). by exists q.
- intros id1 id2 p1 p2 H1 H2 E T1 S1 T2 S2.
apply (cat_unique _ _ _ _ HK id1 id2 (pview p1) (pview p2) (Price.product_id p1)); first [by apply pviews_Some | done].
- intros id pool Hl Hpos. destruct (cat_pool _ _ _ _ HK id (lview pool) (lviews_Some _ _ _ Hl)) as (x & Hx & _ & T & Hs).
apply lookup_fmap_Some in Hx as (p & <- & Hp). exists p. split_and!; [done | done | by apply Hs].
- intros a id p Hp Hst Hpos. pose proof (cat_key _ _ _ _ HK (a, id) (oview p) (oviews_Some _ _ _ Hp)) as [= _ Eid]. cbn in Eid.
destruct (cat_position _ _ _ _ HK (a, id) (oview p) (oviews_Some _ _ _ Hp) Hst Hpos) as (l & y & Hl & El & Hy & Ey).
apply lookup_fmap_Some in Hl as (pool & <- & Hl). apply lookup_fmap_Some in Hy as (q & <- & Hq). cbn in *. subst id. by exists pool, q.
Qed.

(** C10. One action at a time on a pool: in every reachable world a validator
is busy exactly when one promise chain in flight will release it, so two
actions on a pool never overlap and a busy validator is never forgotten;
and the receipt that is to release it, or to carry it to its release,
cannot panic. *)
Theorem pipeline_exclusive w : reachable w ->
(forall v, in_flight v (chains w) = match validators (contract w) !! v with
| Some x => if bool_decide (Validator.tx_status x = TransactionStatus.Busy) then 1 else 0 | None => 0 end) /\
(forall i x gas rest r v e, chains w !! i = Some (mkChain (CallSelf x gas :: rest) r) -> ticket_call x = Some v ->
predecessor_account_id e = current_account_id e -> succeeds (run_self_call x r) e (contract w)).
Proof.
intros HP%reachable_piped. split; [apply (piped_busy _ HP)|]. intros i x gas rest r v e Hi Hx He.
destruct (tidy_at _ _ _ _ _ (piped_tidy _ HP) Hi) as [Ht _]. eapply ticket_runs; [done | exact Ht | exact Hx|].
rewrite <- (piped_busy _ HP). pose proof (held_le_flight v _ _ _ _ _ _ Hi) as H. unfold held in H. rewrite Hx in H. cbn in H. by rewrite one_same in H.
Qed.

(** C15. Every promise chain ends: it has at most 14 receipts ahead of it, each
step of the world leaves it alone or takes away at least one, whatever the
pools answer, and a chain with receipts left can always take a step. *)
Theorem chains_end w i x : reachable w -> chains w !! i = Some x ->
weight (steps x) <= 14 /\
(forall w', wstep w w' -> exists x', chains w' !! i = Some x' /\ (x' = x \/ weight (steps x') < weight (steps x))) /\
(steps x <> [] -> forall e, env_ok e -> account_balance e = balance w -> attached_deposit e = 0 ->
promise_results e = results_of (awaited x) -> predecessor_account_id e = current_account_id e ->
exists w' x', wstep w w' /\ chains w' !! i = Some x' /\ weight (steps x') < weight (steps x)).
Proof.
intros Hr Hi. pose proof (reachable_piped _ Hr) as HP. split; [|split].
- exact (Forall_lookup_1 _ _ _ _ (reachable_light _ Hr) Hi).
- intros w' Hs. by apply (step_lighter w w' i x).
- intros Hne e He Hb Ha Hp Hs. by apply (chain_advances w i x e).
Qed.

(** C17. When an exit goes through: in a reachable world, with the pool in its
pipeline and the owner of an active lock waiting for exits at fewer than
[u32::MAX] pools, the tail of the unlock succeeds exactly when the lock has
shares and the pool is worth something, so the owner is never short of the
shares of the lock; then the lock's shares are burnt at the price of the pool,
and the owner gets one more tranche of what they are worth. (A lock that was
sold for less than the price of one share has none, and cannot be unlocked.) *)
Theorem unlock_goes_through w e l y x : reachable w -> let c := contract w in
predecessor_account_id e = current_account_id e ->
locks c !! l = Some y -> Lock.status y = LockStatus.Active ->
validators c !! Lock.validator_id y = Some x -> Validator.tx_status x = TransactionStatus.Busy ->
0 <= count (user_pending_unstake_validator_count c) (Lock.account_id y) < U32_MAX ->
let a := Lock.account_id y in let v := Lock.validator_id y in let n := Lock.shares y in
let value := n * Validator.net_stake_yocto x / Validator.total_shares x in
((exists c' es, resolve_unlock l a v n e c = Ok (tt, c', es)) <-> 0 < n /\ 0 < Validator.net_stake_yocto x) /\
(forall c' es, resolve_unlock l a v n e c = Ok (tt, c', es) -> 0 <= value <= Validator.net_stake_yocto x /\
locks c' !! l = Some (y <| Lock.status := LockStatus.UnlockRequested |>) /\
validators c' !! v = Some (exited x (Validator.total_shares x - n) value) /\
count (user_validator_shares c') (a, v) = count (user_validator_shares c) (a, v) - n /\
tranches_of c' a v = tranches_of c a v ++ [PendingUnstakeTranche.mk value (pending_unstake_tranche_available_epoch_height e c x)]).
Proof.
intros (HI & Hf & _)%reachable_Inv c He Hl Hs Hv Hb Hcnt a v n value. split; [split|].
- intros (c' & es & H). apply resolve_unlock_priced in H as (x' & Hx' & Hn & Hnet). subst v. rewrite Hv in Hx'. by injection Hx' as <-.
- intros [Hn Hnet]. destruct (resolve_unlock_run l y x e c HI Hf He Hl Hs Hn Hv Hb Hnet Hcnt) as ([] & c' & es & H). eauto.
- intros c' es H. destruct (resolve_unlock_priced _ _ _ _ _ _ _ _ H) as (_ & _ & Hn & _).
destruct (exit_priced c a v x n HI Hf Hv) as [Hp Hval]; [pose proof (lock_within_user c l y HI Hl Hs); subst a v n; lia|].
split; [exact Hval|]. unfold resolve_unlock in H. m_inv. read.
match goal with H : require_lock _ _ _ _ = Ok _ |- _ => apply require_lock_inv in H as (Hl' & -> & ->) end.
match goal with H : internal_unstake _ _ _ _ _ = Ok _ |- _ => apply internal_unstake_inv in H as (x' & counts & h & Hx' & _ & _ & _ & Hnear & _ & _ & -> & ->) end.
match goal with H : internal_set_lock _ _ _ _ = Ok _ |- _ => apply set_lock_inv in H as (-> & ->) end.
subst a v n. fold c in Hl'. rewrite Hl in Hl'. injection Hl' as <-. rewrite Hv in Hx'. injection Hx' as <-. rewrite Hp in Hnear. injection Hnear as <-.
cbn. rewrite !lookup_insert_eq. split_and!; try done.
destruct (count (user_validator_shares c) _ =? Lock.shares y) eqn:D; rewrite ?count_delete, ?count_insert; bool_prop; lia.
Qed.

(** C18. A withdrawal pays exactly what is due: in a reachable world it goes
through if and only if some tranche of the user is due, the bucket of the
pool covers all that are due and the account holds the NEAR; it pays their
sum, keeps the tranches that are not due and touches nobody else's. *)
Theorem withdraw_pays_what_is_due w e a v x : reachable w -> let c := contract w in
predecessor_account_id e = current_account_id e -> validators c !! v = Some x ->
let amount := tranches_total (due (epoch_height e) (tranches_of c a v)) in
(succeeds (on_withdraw_user_transfer_after_settle a v) e c <->
0 < amount <= Validator.pending_to_claim x /\ amount <= account_balance e) /\
(forall p c' es, on_withdraw_user_transfer_after_settle a v e c = Ok (p, c', es) ->
p = [TransferTo a amount] /\ tranches_of c' a v = kept (epoch_height e) (tranches_of c a v) /\
(forall k, k <> (a, v) -> user_pending_unstake c' !! k = user_pending_unstake c !! k) /\
validators c' = <[v := x <| Validator.pending_to_claim := Validator.pending_to_claim x - amount |>]> (validators c)).
Proof.
intros (HI & Hf & _)%reachable_Inv c He Hv amount. pose proof (fits_pending _ Hf) as Hp.
assert (forall p c' es, on_withdraw_user_transfer_after_settle a v e c = Ok (p, c', es) -> payout_user_withdraw a v e c = Ok (p, c', es)) as Hin.
{ unfold on_withdraw_user_transfer_after_settle. intros p c' es H. m_inv. done. }
split; [split|].
- intros (p & c' & es & H). apply Hin in H. by apply (payout_inv a v x e c) in H as (H1 & H2 & _).
- intros [H1 H2]. unfold on_withdraw_user_transfer_after_settle. eapply succeeds_bind; [by apply assert_private_run|].
by apply (payout_run a v x e c HI Hp Hv).
- intros p c' es H%Hin. by apply (payout_inv a v x e c) in H as (_ & _ & H).
Qed.

(** The view of a user's pending exits agrees with the withdrawal: its
total and its eligible amount are the sums of the tranches and of those
that are due, and when it says that the user can withdraw now, a
withdrawal in this epoch goes through as soon as the account holds the
NEAR, and pays the amount of the view. *)
Theorem pending_view_agrees w e a v view : reachable w -> let c := contract w in
get_account_pending_unstake e c a v = Ok view ->
AccountPendingUnstakeView.total_pending_yocto view = tranches_total (tranches_of c a v) /\
AccountPendingUnstakeView.epoch_eligible_yocto view = tranches_total (due (epoch_height e) (tranches_of c a v)) /\
(AccountPendingUnstakeView.can_withdraw_now view = true ->
AccountPendingUnstakeView.withdrawable_yocto view <= account_balance e ->
exists c' es, payout_user_withdraw a v e c = Ok ([TransferTo a (AccountPendingUnstakeView.withdrawable_yocto view)], c', es)).
Proof.
intros (HI & Hf & _)%reachable_Inv c H. pose proof (fits_pending _ Hf) as Hp.
unfold get_account_pending_unstake, find_validator in H. destruct (validators c !! v) as [x|] eqn:E; [|done]. cbn in H.
destruct (tranches_within_liability c a v x HI E) as [Hts Hb]. pose proof (Hp _ _ E).
destruct (pending_fold (epoch_height e) (tranches_of c a v) 0 0 None) as [n En]. rewrite En in H.
assert (tranche_sum (tranches_of c a v) = tranches_total (tranches_of c a v)) as Et
by (apply tranche_sum_exact; [done | unfold liability, FITS, U128_MAX in *; lia]).
pose proof (due_exact c a v x (epoch_height e) HI Hp E) as Ed. unfold tranche_sum in Et, Ed. rewrite Et, Ed in H.
res_inv. cbn. split_and!; [done..|]. intros Hc. rewrite Hc. bool_prop. intros Hbal.
destruct (payout_run a v x e c HI Hp E) as (p & c' & es & Hr); [lia | done|].
pose proof (payout_inv a v x e c p c' es HI Hp E Hr) as (_ & _ & -> & _). eauto.
Qed.
End staking.

(** C19. Nobody enters or leaves at the expense of the others: minting and
    burning never lower the NEAR per share of a pool; new shares are worth at
    most the deposit, and what leaves is at most the value of the shares
    burnt. *)
Theorem share_price_never_falls c e v x : validators c !! v = Some x -> small x -> 0 < Validator.total_shares x ->
  (forall buyer deposit n c' es, 0 <= deposit <= FITS -> internal_stake buyer v deposit e c = Ok (n, c', es) ->
     exists x', validators c' !! v = Some x' /\
       Validator.net_stake_yocto x * Validator.total_shares x' <= Validator.net_stake_yocto x' * Validator.total_shares x /\
       (Validator.total_shares x' < U128_MAX -> n * Validator.net_stake_yocto x' <= deposit * Validator.total_shares x')) /\
  (forall a n near c' es, internal_unstake a v n e c = Ok (near, c', es) ->
     exists x', validators c' !! v = Some x' /\
       Validator.net_stake_yocto x * Validator.total_shares x' <= Validator.net_stake_yocto x' * Validator.total_shares x /\
       near * Validator.total_shares x <= n * Validator.net_stake_yocto x).
Proof.
  intros Hv Hs Ht. split.
  - intros buyer deposit n c' es Hd H. apply internal_stake_inv in H as (y & Hy & Hm & Hnet & _ & _ & ->). rewrite Hv in Hy. injection Hy as <-.
    specialize (Hnet Ht). cbn. rewrite lookup_insert_eq. eexists. split; [reflexivity|].
    pose proof (mint_price _ _ _ _ Ht Hnet (proj1 Hd) Hm) as [H1 H2]. pose proof (mint_shares_nonneg _ _ _ _ (proj1 Hd) Hm) as Hn.
    change (x <| Validator.total_shares := ?s |> <| Validator.pending_to_stake := ?d |>) with (staked x s deposit).
    rewrite net_stake_staked by done. cbn. unfold u128_saturating_add, saturating_add. split; [|intros Hlt; rewrite Z.min_r in * by lia; lia].
    etransitivity; [|exact H1]. apply Z.mul_le_mono_nonneg_l; lia.
  - intros a n near c' es H. apply internal_unstake_inv in H as (y & counts & h & Hy & Hn & _ & Hnet & Hp & _ & _ & _ & ->). rewrite Hv in Hy. injection Hy as <-.
    cbn. rewrite lookup_insert_eq. eexists. split; [reflexivity|].
    change (x <| Validator.total_shares := ?s |> <| Validator.pending_to_unstake := ?d |>) with (exited x s near).
    rewrite net_stake_exited; [|done | eapply burn_bounded; [exact Ht | lia | | exact Hp]; lia].
    cbn. split; [by apply (burn_price _ _ _ _ Ht) | by apply (burn_rounds_down _ _ _ _ Ht)].
Qed.

(** The two conversions of the calendar are inverse to each other: a day
    number is the number of its date, and a valid date is the date of its day
    number. *)
Theorem calendar_roundtrip :
  (forall z, let '(y, m, d) := civil_from_days z in
     days_from_civil y m d = z /\ 1 <= m <= 12 /\ 1 <= d <= last_day_of_month y m) /\
  (forall y m d, 1 <= m <= 12 -> 1 <= d <= last_day_of_month y m -> civil_from_days (days_from_civil y m d) = (y, m, d)).
Proof.
  split; [|apply date_of_days]. intros z. pose proof (days_of_date z) as H. destruct (civil_from_days z) as [[y m] d] eqn:E.
  apply civil_from_days_spec in E as (Hm & Hd & Hz & Hlt). split; [done|]. split; [done|]. rewrite last_day_spec by done. lia.
Qed.

(** Months are added as a billing calendar does: the result lies the given
    number of months later, on the anchor day or on the last day of a month
    that is too short, at the same time of day. *)
Theorem months_keep_the_anchor anchor k t y m d : 0 < k -> civil_from_days (t / NS_PER_DAY) = (y, m, d) ->
  add_months_stripe_style anchor k t < U64_MAX ->
  let i := y * 12 + (m - 1) + k in
  civil_from_days (add_months_stripe_style anchor k t / NS_PER_DAY) =
    (i / 12, i mod 12 + 1, Z.min (Z.max 1 (Z.min anchor 31)) (last_day_of_month (i / 12) (i mod 12 + 1))) /\
  add_months_stripe_style anchor k t mod NS_PER_DAY = t mod NS_PER_DAY.
Proof.
  intros Hk E Hlt i. change NS_PER_DAY with DAY in *. rewrite add_months_spec in * by lia. apply clip_below in Hlt as [-> _].
  pose proof (renewal_time anchor (month_of t + k) t) as [_ Emod]. split; [|done]. unfold i. rewrite <- renewal_date.
  unfold month_of. rewrite E. f_equal. pose proof DAY_pos. pose proof (Z.mod_pos_bound t DAY).
  rewrite Z.div_add_l by lia. rewrite (Z.div_small (t mod DAY)) by lia. lia.
Qed.

(** C36. The billing window of a subscription is found, whatever the time that
    passed, and it does not drift: it starts a whole number of months after
    the first window started and contains the present. *)
Theorem billing_window_found anchor start now : 0 <= start <= now -> now < U64_MAX ->
  exists j, 0 <= j /\
    projected_subscription_window_from anchor start now =
      Ok (add_months_stripe_style anchor j start, add_months_stripe_style anchor (j + 1) start) /\
    add_months_stripe_style anchor j start <= now < add_months_stripe_style anchor (j + 1) start.
Proof.
  intros Hs Hn. destruct (window_loop_total (window_fuel start now) anchor start 0 now) as (j & Hj & E & H1 & H2);
    rewrite ?add_months_0 in *; [lia | done | done | lia | by right | |].
  - unfold window_fuel. change NS_PER_DAY with DAY. rewrite Z2Nat.id; [lia|]. pose proof (Z.div_pos (now - start) DAY ltac:(lia) DAY_pos). lia.
  - exists j. split_and!; [done | | destruct H1 as [| ->]; [done | rewrite add_months_0; lia] | done].
    unfold projected_subscription_window_from. rewrite Z.add_0_l in E. by rewrite E.
Qed.

(** ** Farm rewards *)
Lemma settled_pool_fixed e c c' pool pool' : simulate_settled_farm_pool e c pool = Ok pool' ->
  simulate_settled_farm_pool e c' pool' = Ok pool'.
Proof.
  unfold simulate_settled_farm_pool. intros H. destruct (block_timestamp e <=? FarmPool.last_reward_settle_ns pool) eqn:E; res_inv.
  - by rewrite E.
  - destruct (FarmPool.total_farm_shares pool =? 0); res_inv; cbn; rewrite Z.leb_refl; done.
Qed.

(** The reward the view of a farm position shows is the reward the next
    settlement books, and a second settlement in the same block books
    nothing. *)
Theorem farm_preview_is_settlement `{HC : Crypto} `{IS : IdSet} w e a q pending c' es : reachable w -> let c := contract w in
  settle_farm_position a q e c = Ok (pending, c', es) ->
  exists p p', farm_positions c !! (a, q) = Some p /\ farm_positions c' !! (a, q) = Some p' /\
    preview_farm_position_pending e c p = Ok (FarmPosition.accrued_reward_units p') /\
    FarmPosition.accrued_reward_units p' = u128_saturating_add (FarmPosition.accrued_reward_units p) pending /\
    preview_farm_position_pending e c' p' = Ok (FarmPosition.accrued_reward_units p').
Proof.
  intros (HI & _ & _)%reachable_Inv c H. unfold settle_farm_position, require_active_farm_position, settle_farm_pool in H. m_inv.
  unfold internal_set_farm_pool, internal_set_farm_position in *. m_inv. read_cat. cbn in *. rewrite lookup_insert_eq in Hl. injection Hl as <-.
  destruct (farm_positions c !! (a, q)) as [p|] eqn:Hp; [|done]. cbn in B3. injection B3 as <-.
  destruct (inv_position _ _ _ HI _ _ Hp) as [Hk _]. injection Hk as Ea Eq.
  eexists p, _. rewrite <- Ea, <- Eq, lookup_insert_eq. split_and!; [done | reflexivity | | done | ].
  - unfold preview_farm_position_pending, find_farm_pool. rewrite Hl0. cbn. rewrite B2. cbn. rewrite B1. done.
  - unfold preview_farm_position_pending, find_farm_pool. cbn. rewrite lookup_insert_eq. cbn. rewrite (settled_pool_fixed _ _ _ _ _ B2). cbn.
    rewrite B1. cbn. f_equal. unfold u128_saturating_add, saturating_add, saturating_sub. lia.
Qed.

(** ** Solvency *)
Section solvency.
Context `{HC : Crypto} `{IS : IdSet}.

(** C4. The contract is solvent while epochs do not go back. The balance of its
account and the stake under way to pools cover what it owes (stake waiting
for a pool, withdrawals back from a pool, revenue, storage deposits) and the
deposits of the actions in flight. What may be asked for at once (arrived
withdrawals, revenue, storage deposits, refunds of actions in flight) is on
the account; and with no action in flight all that is owed is. *)
Theorem contract_is_solvent n w : timeline n w -> let c := contract w in
owed c + escrow (chains w) <= balance w + under_way c (chains w) /\
ready_total c + revenue_total c + storage_total c + escrow (chains w) <= balance w /\
(Forall (fun x => steps x = []) (chains w) -> owed c <= balance w).
Proof.
intros Ht. cbv zeta. pose proof (funded_money _ _ (timeline_funded _ _ Ht)) as Hm.
split; [exact Hm|]. split; [by eapply reserves_held|]. intros Hall.
assert (forall f : Chain -> Z, (forall r, f (mkChain [] r) = 0) -> list_sum_Z f (chains w) = 0) as Hz.
{ intros f Hf. rewrite (list_sum_Z_ext f (fun _ => 0)); [apply list_sum_Z_0|]. intros [p r] Hx.
rewrite Forall_forall in Hall. specialize (Hall _ Hx). cbn in Hall. subst p. apply Hf. }
unfold escrow, under_way in Hm. rewrite !Hz in Hm by done. lia.
Qed.

(** C9. A claim the books allow is paid: the check that the contract holds the
NEAR of the transfer does not fail. *)
Theorem payout_is_funded n w e a v credit c' es : timeline n w -> account_balance e = balance w ->
claim_from_withdraw_bucket a v e (contract w) = Ok (credit, c', es) ->
payout_user_withdraw a v e (contract w) = Ok ([TransferTo a credit], c', es).
Proof.
intros Ht Hb Hc. pose proof (reserves_held _ _ Ht) as Hr. pose proof (funded_purse _ _ (timeline_funded _ _ Ht)) as [Hp1 Hp2].
pose proof (reachable_Inv _ (timeline_reachable _ _ Ht)) as (HI & _ & _).
pose proof (claim_inv _ _ _ _ _ _ _ Hc) as (x & counts & Hv & _ & Hle & _).
assert (0 <= revenue_total (contract w)) by (apply map_sum_nonneg; exact Hp2).
assert (0 <= storage_total (contract w)) by (apply map_sum_nonneg; exact Hp1).
assert (0 <= escrow (chains w)) by (by eapply escrow_held).
assert (Validator.pending_to_claim x <= ready_total (contract w)).
{ apply (map_sum_term_le (fun _ => Validator.pending_to_claim) _ v x); [|done]. intros k y Hy. by apply (inv_validator _ _ _ HI k y Hy). }
unfold payout_user_withdraw. unfold mbind, M_bind. rewrite Hc. cbn. rewrite Hb.
rewrite (proj2 (Z.leb_le credit (balance w))) by lia. cbn. by rewrite app_nil_r.
Qed.

(** While a stake is under way to a pool, it is exactly the difference of
the buckets it was computed from, which do not change meanwhile; so when the
pool has taken it, the callback goes through and books the amount that was
sent. *)
Theorem stake_is_booked n w i v d g rest r : timeline n w ->
chains w !! i = Some (mkChain (CallPool v DepositAndStake d g :: rest) r) ->
exists x, validators (contract w) !! v = Some x /\ 0 < d /\
d = Validator.pending_to_stake x - Validator.pending_to_unstake x /\ Validator.last_settlement_epoch x < n /\
forall e, predecessor_account_id e = current_account_id e -> promise_results e = [Successful] -> exists c' es,
on_deposit_and_stake v e (contract w) = Ok (true, c', es) /\
exists x', validators c' !! v = Some x' /\
Validator.total_staked_balance x' = Validator.total_staked_balance x + d /\
Validator.pending_to_stake x' = 0 /\ Validator.pending_to_unstake x' = 0.
Proof.
intros Ht Hi. pose proof (timeline_funded _ _ Ht) as HF. pose proof (reachable_Inv _ (timeline_reachable _ _ Ht)) as (HI & Hf & _).
destruct (Forall_lookup_1 _ _ _ _ (funded_still _ _ HF) Hi v eq_refl) as (t & (x & Hx & <-) & Hlt & Hn & Hd). cbn in Hlt, Hn, Hd.
exists x. split_and!; [done | lia | done | done |]. intros e He Hr.
destruct (deposit_runs (contract w) (Some Done) e v (pend x) HI Hf He) as (ans & c' & es & H); [by exists x | done|].
assert (is_promise_success e = true) as Hs by (unfold is_promise_success; by rewrite Hr).
cbn [run_self_call] in H. unfold giving in H. apply bindM_Ok_inv in H as (b & c1 & es1 & es2 & H & _).
assert (b = true /\ exists x', validators c1 !! v = Some x' /\ Validator.total_staked_balance x' = Validator.total_staked_balance x + d /\
Validator.pending_to_stake x' = 0 /\ Validator.pending_to_unstake x' = 0) as [-> Hx']; [|by eauto].
unfold on_deposit_and_stake in H. m_inv. rewrite Hs in *. cbn [negb] in *. m_inv. read. res_inv.
match goal with Hv : validators (contract w) !! v = Some ?y |- _ => replace y with x in * by congruence end.
split; [done|]. eexists. cbn. rewrite lookup_insert_eq. split; [reflexivity|]. cbn. lia.
Qed.
End solvency.

(** ** Views *)

(** C20. The views of a subscription and of its lock show the present: when a
    due update of a subscription is applied, what it stores is what the views
    showed before, the new product, price and billing window, and the shares
    and the NEAR left in the lock. *)
Theorem projections_show_the_update `{HC : Crypto} `{IS : IdSet} w e id sub lock c' es : reachable w -> let c := contract w in
  linked c id sub lock -> apply_due_subscription_update id e c = Ok (true, c', es) ->
  get_subscription e c id = Ok (subscriptions c' !! id) /\
  get_lock e c (Subscription.last_lock_id sub) (Some true) = Ok (locks c' !! Subscription.last_lock_id sub).
Proof. intros (_ & _ & HK)%reachable_Inv c HL H. eapply apply_due_shown; [by apply Cat_keyed | exact HL | exact H]. Qed.

(** The listings of validators, products, purchases and of the locks of an
    account return the records of the ids from an index on, in the order of
    the ids, up to the limit; ids without a record do not count. *)
Theorem listings_are_pages c from_index limit : 0 <= from_index ->
  get_validators c from_index limit = found_page from_index limit (fun id => validators c !! id) (validator_ids c) /\
  get_products c from_index limit = found_page from_index limit (fun id => products c !! id) (product_ids c) /\
  get_purchases c from_index limit = found_page from_index limit (fun id => purchases c !! id) (purchase_ids c) /\
  (forall a, get_purchases_for_account c a from_index limit =
     found_page from_index limit (fun id => purchases c !! id) (default [] (purchases_by_account c !! a))) /\
  (forall p, get_purchases_for_product c p from_index limit =
     found_page from_index limit (fun id => purchases c !! id) (default [] (purchases_by_product c !! p))) /\
  (forall e a effective, effective <> Some true -> get_locks_for_account e c a from_index limit effective =
     Ok (found_page from_index limit (fun id => locks c !! id) (default [] (locks_by_account c !! a)))).
Proof.
  intros Hf. split_and!; try by apply collect_paginated_spec.
  - intros a. unfold get_purchases_for_account. destruct (_ !! a); [by apply collect_paginated_spec | by rewrite found_page_nil].
  - intros a. unfold get_purchases_for_product. destruct (_ !! a); [by apply collect_paginated_spec | by rewrite found_page_nil].
  - intros e a effective He. unfold get_locks_for_account. destruct (_ !! a); [|by rewrite found_page_nil].
    apply collect_paginated_res_spec; [done|]. intros j id Hj. cbn in Hj. rewrite Hj. cbn. destruct (locks c !! id) as [x|]; [|done].
    unfold lock_view. by rewrite bool_decide_eq_false_2.
Qed.

(** C21. The listings are complete: in every reachable world the listings of
    validators, products, purchases and registered accounts page through all
    records of their maps, each record once, and the listings of the purchases
    of an account and of a product through exactly its purchases. *)
Theorem listings_are_complete `{HC : Crypto} `{IS : IdSet} `{IL : !IdSetLaws IS} w : reachable w -> let c := contract w in
  pages_of (get_validators c) (map_to_list (validators c)).*2 /\
  pages_of (get_products c) (map_to_list (products c)).*2 /\
  pages_of (get_purchases c) (map_to_list (purchases c)).*2 /\
  (forall a, pages_of (get_purchases_for_account c a)
     (map_to_list (filter (fun kp => Purchase.account_id kp.2 = a) (purchases c))).*2) /\
  (forall q, pages_of (get_purchases_for_product c q)
     (map_to_list (filter (fun kp => Purchase.product_id kp.2 = q) (purchases c))).*2) /\
  pages_of (get_account_ids c) (map_to_list (accounts c)).*1.
Proof.
  intros [H1 H2 _ H4 H5 H6 H7]%reachable_Listed c. fold c in H1, H2, H4, H5, H6, H7. cbn in H1, H2, H4, H5, H6, H7.
  apply (lists_all_keys (fun _ => tt) _ (validators c)) in H1. apply (lists_all_keys Product.product_id _ (products c)) in H2.
  apply (lists_all_keys (fun _ => tt) _ (accounts c)) in H7. split_and!.
  - apply (lists_all_pages (validator_ids c)); [done|]. intros. by apply listings_are_pages.
  - apply (lists_all_pages (product_ids c)); [done|]. intros. by apply listings_are_pages.
  - apply (lists_all_pages (purchase_ids c)); [done|]. intros. by apply listings_are_pages.
  - intros a. apply (lists_pages _ _ _ (get_purchases_for_account c a) (H5 a)). intros. by apply listings_are_pages.
  - intros q. apply (lists_pages _ _ _ (get_purchases_for_product c q) (H6 q)). intros. by apply listings_are_pages.
  - exists (account_ids c). split; [|by intros]. destruct H7 as [Hn Hl]. apply NoDup_Permutation; [done | apply NoDup_fst_map_to_list|].
    intros k. rewrite Hl, list_elem_of_fmap. split.
    + intros (x & Hx & _). exists (k, x). split; [done|]. by apply elem_of_map_to_list.
    + intros ([j x] & -> & Hx%elem_of_map_to_list). cbn. eauto.
Qed.
