(* ===== verification/Cli.v ===== *)
(** * The staking CLI

    [staking-contract/cli/src/main.rs]: the commands that deploy the staking
    contract, bring its catalog in line with a bootstrap file and check it. A
    command is a program over the operating system: it runs the [near] tool,
    reads files and the terminal, and prints; every call is a node of the
    program, with a branch for every reply. What the CLI takes from other crates
    (JSON text, [Debug] text, base64, SHA-256, the parser of the bootstrap
    file) is a class of functions. Errors carry the messages of the CLI; the
    operating system's own text for a failed call is left out. *)
From stdpp Require Import base gmap strings list pretty.
From Stdlib Require Import ZArith Lia Ascii.
From S2P Require Import Prelude.
From S2P Require Import CliText.

Local Open Scope string_scope.

Module Cli.
Import Text Json.

(** ** Arguments *)
Inductive Network : Type := Testnet | Mainnet.
#[global] Instance Network_eq_dec : EqDecision Network.
Proof. solve_decision. Defined.
Definition as_near_network (n : Network) : string := match n with Testnet => "testnet" | Mainnet => "mainnet" end.

Module ReadOnlyCommonArgs.
Record t : Type := mk { network : Network; account : option string; config : option string; signer : option string }.
End ReadOnlyCommonArgs.
Module CommonArgs.
Record t : Type := mk { readonly : ReadOnlyCommonArgs.t; send : bool; yes_mainnet : bool }.
End CommonArgs.
Module DeployArgs.
Record t : Type := mk { common : CommonArgs.t; fresh : bool; code_only : bool; owner : option string; wasm : option string; test_feature : bool }.
End DeployArgs.
Module ConfigureArgs.
Record t : Type := mk { common : CommonArgs.t; mock_pool_wasm : string }.
End ConfigureArgs.
Module CatalogManagerArgs.
Record t : Type := mk { common : CommonArgs.t; validator_id : string; catalog_manager_account_id : string; owner : option string }.
End CatalogManagerArgs.
Module ProposeCatalogManagerArgs.
Record t : Type := mk {
common : CommonArgs.t; dao : option string; proposer : option string; validator_id : option string;
catalog_manager_account_id : option string; description : option string; call_gas : string; call_deposit_yocto : string;
proposal_gas : string; proposal_bond_yocto : option string }.
End ProposeCatalogManagerArgs.
Module VerifyArgs.
Record t : Type := mk { common : ReadOnlyCommonArgs.t; test_feature : bool }.
End VerifyArgs.

Inductive Commands : Type :=
| Deploy (args : DeployArgs.t)
| AddCatalogManager (args : CatalogManagerArgs.t)
| ProposeAddCatalogManager (args : ProposeCatalogManagerArgs.t)
| Configure (args : ConfigureArgs.t)
| Verify (args : VerifyArgs.t).

Definition DEFAULT_STAKING_WASM : string := "res/release/staking_contract.wasm".
Definition DEFAULT_STAKING_TEST_WASM : string := "res/local/staking_contract_test.wasm".

(** ** The bootstrap file *)
Module StakingConfig.
Record t : Type := mk { account_id : option string; owner_account_id : option string; signer_account_id : option string;
wasm : option string; test_wasm : option string; test_feature : option bool }.
Definition default : t := mk None None None None None None.
End StakingConfig.

Definition default_min_lock_duration_ns : string := "1".
Definition default_max_lock_duration_ns : string := "63072000000000000".
Definition default_epoch_unstake_settle_epochs : Z := 4.
Definition default_min_storage_deposit : string := "10000000000000000000000".
Definition default_zero_amount : string := "0".
Definition default_min_lock_amount : string := "1000000000000000000000000".
Definition default_price_type : string := "OneOff".
Definition default_view_limit : Z := 20.

Module InitConfig.
Record t : Type := mk { guardians : list string; min_lock_duration_ns : string; max_lock_duration_ns : string;
epoch_unstake_settle_epochs : Z; min_storage_deposit : string; per_lock_storage_stake : string;
per_farm_position_storage_stake : string; per_purchase_storage_stake : string; min_lock_amount : string }.
Definition default : t :=
mk [] default_min_lock_duration_ns default_max_lock_duration_ns default_epoch_unstake_settle_epochs
default_min_storage_deposit "0" "0" "0" default_min_lock_amount.
End InitConfig.
Module ValidatorConfig.
Record t : Type := mk { validator_id : string; owner_account_id : option string; catalog_manager_account_ids : list string;
deploy_mock_pool : bool }.
End ValidatorConfig.
Module PriceConfig.
Record t : Type := mk { price_id : option string; name : string; description : string; amount : string; price_type : string;
billing_period : option string; lock_factor_near_months : string; metadata : option Value; set_default : bool }.
End PriceConfig.
Module ProductConfig.
Record t : Type := mk { product_id : option string; validator_id : string; owner_account_id : option string;
catalog_manager_account_id : option string; name : string; description : string; prices : list PriceConfig.t }.
End ProductConfig.
Module VerifyConfig.
Record t : Type := mk { test_feature : bool; view_limit : Z }.
Definition default : t := mk false default_view_limit.
End VerifyConfig.
Module BootstrapConfig.
Record t : Type := mk { staking : StakingConfig.t; init : InitConfig.t; validators : list ValidatorConfig.t;
products : list ProductConfig.t; verify : VerifyConfig.t }.
Definition default : t := mk StakingConfig.default InitConfig.default [] [] VerifyConfig.default.
End BootstrapConfig.

(** ** The operating system

[Command::output], [Command::status] of the [near] tool, the terminal and
the file system. *)
Record Output : Type := mkOutput { out_success : bool; out_stdout : string; out_stderr : string }.
Record ExitStatus : Type := mkStatus { status_success : bool; status_shown : string }.
Inductive Reply : Type := FlushFailed | ReadFailed | Line (s : string).

Inductive Sys : Type :=
| NearOutput (args : list string)
| NearStatus (args : list string)
| Prompt (text : string)
| Say (line : string)
| IsFile (path : string)
| ReadFile (path : string).
Definition sys_ret (s : Sys) : Type :=
match s with
| NearOutput _ => option Output
| NearStatus _ => option ExitStatus
| Prompt _ => Reply
| Say _ => unit
| IsFile _ => bool
| ReadFile _ => option string
end.

(** An [anyhow::Error] is the chain of its messages, the outermost first.
[Spent] is a loop that has used up its rounds. *)
Inductive Outcome (A : Type) : Type :=
| Good (a : A)
| Bad (chain : list string)
| Spent.
Arguments Good {A} a.
Arguments Bad {A} chain.
Arguments Spent {A}.

Inductive Prog (A : Type) : Type :=
| Ret (r : Outcome A)
| Do (s : Sys) (k : sys_ret s -> Prog A).
Arguments Ret {A} r.
Arguments Do {A} s k.

#[global] Instance Prog_ret : MRet Prog := fun A a => Ret (Good a).
(** [?] returns an error at once. *)
#[global] Instance Prog_bind : MBind Prog := fun A B f =>
fix bind (p : Prog A) : Prog B :=
match p with
| Ret (Good a) => f a
| Ret (Bad chain) => Ret (Bad chain)
| Ret Spent => Ret Spent
| Do s k => Do s (fun x => bind (k x))
end.
Definition sys (s : Sys) : Prog (sys_ret s) := Do s (fun x => Ret (Good x)).
Definition say (line : string) : Prog unit := sys (Say line).
Definition bail {A} (msg : string) : Prog A := Ret (Bad [msg]).
Definition of_option {A} (o : option A) (msg : string) : Prog A := match o with Some a => mret a | None => bail msg end.
(** [with_context]. *)
Fixpoint with_context {A} (p : Prog A) (msg : string) : Prog A :=
match p with
| Ret (Bad chain) => Ret (Bad (msg :: chain))
| Ret r => Ret r
| Do s k => Do s (fun x => with_context (k x) msg)
end.
(** [match p { Ok(a) => f(Ok(a)), Err(e) => f(Err(e)) }]. *)
Fixpoint catch {A B} (p : Prog A) (f : A + list string -> Prog B) : Prog B :=
match p with
| Ret (Good a) => f (inl a)
| Ret (Bad chain) => f (inr chain)
| Ret Spent => Ret Spent
| Do s k => Do s (fun x => catch (k x) f)
end.
Fixpoint for_each {A} (l : list A) (body : A -> Prog unit) : Prog unit :=
match l with [] => mret tt | x :: l' => body x ;; for_each l' body end.

(** ** The functions of other crates *)
Class Crates : Type := {
json_text : Value -> string;
json_pretty : Value -> string;
json_parse : string -> option Value;
debug_str : string -> string;
debug_opt : option string -> string;
debug_value : option Value -> string;
base64_encode : string -> string;
sha256_hex : string -> string;
parse_config : string -> BootstrapConfig.t + string
}.

Section cli.
Context `{CR : Crates}.

Definition non_empty (value : option string) : option string :=
value ← value;
let trimmed := trim value in
if String.eqb trimmed "" then None else Some trimmed.

(** ** Running [near] *)
Definition shell_quote (value : string) : string :=
if chars_all (fun ch => is_ascii_alphanumeric ch || char_in ch "-_./:=@") value then value
else "'" +:+ replace_char "'" "'\''" value +:+ "'".

(** [NearCommand]: its arguments. *)
Definition command_new : list string := ["--quiet"].
Definition display (args : list string) : string := join " " ("near" :: map shell_quote args).

Definition run_tx (ctx : CommonArgs.t) (args : list string) : Prog unit :=
say ("+ " +:+ display args) ;;
if negb (CommonArgs.send ctx) then mret tt
else
r ← sys (NearStatus args);
match r with
| None => Ret (Bad ["failed to run near CLI"])
| Some status => if status_success status then mret tt
else bail ("near transaction failed with status " +:+ status_shown status)
end.

Definition network_of (ctx : CommonArgs.t) : Network := ReadOnlyCommonArgs.network (CommonArgs.readonly ctx).

Definition call_args (n : Network) (contract_id method args gas deposit signer : string) : list string :=
(command_new ++ ["contract"; "call-function"; "as-transaction"; contract_id; method; "json-args"; args; "prepaid-gas"; gas;
"attached-deposit"; deposit; "sign-as"; signer; "network-config"; as_near_network n; "sign-with-keychain"; "send"])%list.

Definition near_tx (ctx : CommonArgs.t) (contract_id method : string) (args : Value) (gas deposit signer : string) : Prog unit :=
run_tx ctx (call_args (network_of ctx) contract_id method (json_text args) gas deposit signer).

(** The substrings [parse_near_json] tries: those that start at a character a
JSON value can start with, from the shortest one on. The text is cut
between characters, never inside one. *)
Definition json_start (a : ascii) : bool :=
char_in a "{[ntf-0123456789" || Ascii.eqb a (ascii_of_nat 34).
(** A byte that continues a character. *)
Definition continuation (a : ascii) : bool := (128 <=? nat_of_ascii a)%nat && (nat_of_ascii a <=? 191)%nat.
Definition boundary (s : string) : bool := match s with "" => true | String a _ => negb (continuation a) end.
Fixpoint first_prefix (taken rest : string) : option Value :=
match rest with
| "" => None
| String a rest' =>
let taken := taken +:+ String a "" in
match (if boundary rest' then json_parse taken else None) with
| Some v => Some v
| None => first_prefix taken rest'
end
end.
Fixpoint first_value (s : string) : option Value :=
match s with
| "" => None
| String a s' => match (if json_start a then first_prefix "" s else None) with
| Some v => Some v
| None => first_value s'
end
end.
Definition parse_near_json (output : string) : Prog Value :=
let trimmed := trim output in
match json_parse trimmed with
| Some v => mret v
| None => of_option (first_value trimmed) "no JSON value found"
end.

Definition view_args (n : Network) (contract_id method args : string) : list string :=
["--quiet"; "contract"; "call-function"; "as-read-only"; contract_id; method; "json-args"; args; "network-config";
as_near_network n; "now"].

Definition view_json (n : Network) (contract_id method : string) (args : Value) : Prog Value :=
r ← sys (NearOutput (view_args n contract_id method (json_text args)));
match r with
| None => Ret (Bad ["failed to run near CLI"])
| Some output =>
if negb (out_success output) then bail ("near view failed for " +:+ method +:+ ": " +:+ out_stderr output)
else with_context (parse_near_json (out_stdout output))
("failed to parse near output for " +:+ method +:+ ": " +:+ out_stdout output)
end.

(** [err.to_string()] is the outermost message. *)
Definition is_missing_contract_view_error (chain : list string) : bool :=
let message := to_ascii_lowercase (default "" (head chain)) in
(contains "account" message && contains "does not exist" message) ||
(contains "contract" message && contains "does not exist" message) ||
contains "wasm code is not deployed" message || contains "code is not deployed" message ||
contains "contract code is not deployed" message || contains "codedoesnotexist" message.

Definition confirm_sent_operation (operation : string) (n : Network) (account_id signer : string) : Prog unit :=
r ← sys (Prompt ("Type `" +:+ operation +:+ "` to send " +:+ operation +:+ " transactions on " +:+ as_near_network n +:+
" for " +:+ account_id +:+ " signed by " +:+ signer +:+ ": "));
match r with
| FlushFailed => Ret (Bad ["failed to flush confirmation prompt"])
| ReadFailed => Ret (Bad ["failed to read confirmation"])
| Line input => if negb (String.eqb (trim input) operation) then bail (operation +:+ " aborted by user") else mret tt
end.

Definition require_file (path : string) : Prog unit :=
b ← sys (IsFile path); if negb b then bail ("missing file: " +:+ path) else mret tt.

Definition wasm_sha256 (path : string) : Prog string :=
r ← sys (ReadFile path); data ← of_option r ("failed to read " +:+ path); mret (sha256_hex data).

(** ** Configuration *)
Definition load_config (path : option string) : Prog BootstrapConfig.t :=
match path with
| None => mret BootstrapConfig.default
| Some path =>
r ← sys (ReadFile path);
raw ← of_option r ("failed to read config " +:+ path);
match parse_config raw with
| inl config => mret config
| inr cause => Ret (Bad ["failed to parse config " +:+ path; cause])
end
end.

Definition metadata_key (key : string) : bool := String.eqb key "max_amount" || String.eqb key "farm_reward_rate".

Definition canonical_metadata_value (value : option Value) : Prog (option Value) :=
match value with
| None | Some Null => mret None
| Some (Object raw) =>
for_each (map fst raw) (fun key =>
if negb (metadata_key key) then bail ("unsupported price metadata field: " +:+ key) else mret tt) ;;
mret (Some (Object [("max_amount", default Null (map_get "max_amount" raw));
    ("farm_reward_rate", default Null (map_get "farm_reward_rate" raw))]))
| Some other => bail ("price metadata must be null or an object, got " +:+ json_text other)
end.

Definition validate_config (config : BootstrapConfig.t) : Prog unit :=
for_each (BootstrapConfig.products config) (fun product =>
let default_count := length (List.filter PriceConfig.set_default (ProductConfig.prices product)) in
(if (1 <? default_count)%nat then
bail ("product " +:+ ProductConfig.name product +:+ " config has " +:+ pretty default_count +:+
" default prices; mark at most one price with set_default")
else mret tt) ;;
for_each (ProductConfig.prices product) (fun price =>
with_context (canonical_metadata_value (PriceConfig.metadata price))
("invalid metadata for price " +:+ PriceConfig.name price +:+ " under product " +:+ ProductConfig.name product) ;;
mret tt)).

Definition resolve_account (args : ReadOnlyCommonArgs.t) (config : BootstrapConfig.t) : Prog string :=
of_option (match ReadOnlyCommonArgs.account args with
| Some a => Some a
| None => StakingConfig.account_id (BootstrapConfig.staking config)
end) "missing staking account; pass --account or set staking.account_id".

(** The first of a list of optional values that is given. *)
Definition or_else {A} (x y : option A) : option A := match x with Some a => Some a | None => y end.

Definition validator_owner_from_config (config : BootstrapConfig.t) (validator_id : string) : option string :=
v ← List.find (fun v => String.eqb (ValidatorConfig.validator_id v) validator_id) (BootstrapConfig.validators config);
non_empty (ValidatorConfig.owner_account_id v).

Definition resolve_validator_id (arg : option string) (config : BootstrapConfig.t) : Prog string :=
match non_empty arg with
| Some validator_id => mret validator_id
| None =>
match sorted_distinct (omap (fun v => non_empty (Some (ValidatorConfig.validator_id v))) (BootstrapConfig.validators config)) with
| [validator_id] => mret validator_id
| [] => bail "missing validator id; pass --validator-id or set validators[].validator_id"
| _ => bail "multiple validators configured; pass --validator-id"
end
end.

Definition resolve_catalog_manager_dao (arg : option string) (config : BootstrapConfig.t) (validator_id : string) : Prog string :=
match non_empty arg with
| Some dao => mret dao
| None => of_option (validator_owner_from_config config validator_id)
"missing validator owner DAO; pass --dao or set validators[].owner_account_id"
end.

Definition resolve_catalog_manager_account (arg : option string) (config : BootstrapConfig.t) (validator_id : string) : Prog string :=
match non_empty arg with
| Some manager => mret manager
| None =>
let configured :=
flat_map ValidatorConfig.catalog_manager_account_ids
(List.filter (fun v => String.eqb (ValidatorConfig.validator_id v) validator_id) (BootstrapConfig.validators config)) in
match sorted_distinct (omap (fun manager => non_empty (Some manager)) configured) with
| [manager] => mret manager
| [] => bail ("missing catalog manager account; pass --catalog-manager-account-id or set " +:+
"validators[].catalog_manager_account_ids for " +:+ validator_id)
| _ => bail "multiple catalog managers configured; pass --catalog-manager-account-id"
end
end.

Definition policy_proposal_bond_yocto (policy : Value) : option string :=
value ← get policy "proposal_bond";
match value with
| Str raw => non_empty (Some raw)
| Number raw => Some raw
| _ => None
end.

Definition validate_proposal_bond_override (live_bond_yocto : string) (explicit_bond_yocto : option string) : Prog string :=
live ← of_option (non_empty (Some live_bond_yocto)) "DAO policy proposal_bond is empty";
match non_empty explicit_bond_yocto with
| None => mret live
| Some explicit =>
if negb (String.eqb explicit live)
then bail ("--proposal-bond-yocto " +:+ explicit +:+ " does not match DAO get_policy().proposal_bond " +:+ live)
else mret live
end.

Definition resolve_dao_proposal_bond_yocto (n : Network) (dao : string) (explicit_bond_yocto : option string) : Prog string :=
policy ← with_context (view_json n dao "get_policy" (Object [])) ("failed to read " +:+ dao +:+ ".get_policy()");
live_bond ← of_option (policy_proposal_bond_yocto policy) (dao +:+ ".get_policy() did not include proposal_bond");
validate_proposal_bond_override live_bond explicit_bond_yocto.

Definition manager_args (validator_id catalog_manager_account_id : string) : Value :=
Object [("validator_id", Str validator_id); ("catalog_manager_account_id", Str catalog_manager_account_id)].

Definition catalog_manager_dao_proposal_args (description staking_account validator_id catalog_manager_account_id gas deposit : string)
: Value :=
let action := Object [("method_name", Str "add_validator_catalog_manager");
  ("args", Str (base64_encode (json_text (manager_args validator_id catalog_manager_account_id))));
  ("deposit", Str deposit); ("gas", Str gas)] in
Object [("proposal", Object [("description", Str description);
("kind", Object [("FunctionCall", Object [("receiver_id", Str staking_account); ("actions", Array [action])])])])].

(** ** Modes and guards *)
Inductive DeployMode : Type := Fresh | CodeOnly.
Definition show_mode (m : DeployMode) : string := match m with Fresh => "fresh" | CodeOnly => "code-only" end.

Definition deploy_mode (fresh code_only : bool) : Prog DeployMode :=
match fresh, code_only with
| true, false => mret Fresh
| false, true => mret CodeOnly
| false, false => bail "choose exactly one deploy mode: --fresh or --code-only"
| true, true => bail "--fresh and --code-only are mutually exclusive"
end.

Definition guard_mainnet (ctx : CommonArgs.t) : Prog unit :=
if CommonArgs.send ctx && bool_decide (network_of ctx = Mainnet) && negb (CommonArgs.yes_mainnet ctx)
then bail "mainnet mutations require --yes-mainnet" else mret tt.

Definition init_json (owner : string) (init : InitConfig.t) : Value :=
Object [("owner_account_id", Str owner);
("proposed_new_owner_account_id", Null);
("guardians", Array (map Str (InitConfig.guardians init)));
("min_lock_duration_ns", Str (InitConfig.min_lock_duration_ns init));
("max_lock_duration_ns", Str (InitConfig.max_lock_duration_ns init));
("epoch_unstake_settle_epochs", Number (pretty (InitConfig.epoch_unstake_settle_epochs init)));
("min_storage_deposit", Str (InitConfig.min_storage_deposit init));
("per_lock_storage_stake", Str (InitConfig.per_lock_storage_stake init));
("per_farm_position_storage_stake", Str (InitConfig.per_farm_position_storage_stake init));
("per_purchase_storage_stake", Str (InitConfig.per_purchase_storage_stake init));
("min_lock_amount", Str (InitConfig.min_lock_amount init))].

(** ** Checks of stored records *)
Definition opt_str_eqb (x y : option string) : bool := bool_decide (x = y).

Definition assert_string_field (stored : Value) (field expected id : string) : Prog unit :=
let actual := str_field stored field in
if negb (opt_str_eqb actual (Some expected))
then bail (id +:+ " field " +:+ field +:+ " mismatch: expected " +:+ debug_str expected +:+ ", got " +:+ debug_opt actual)
else mret tt.

Definition assert_optional_string_field (stored : Value) (field : string) (expected : option string) (id : string) : Prog unit :=
let actual := str_field stored field in
if negb (opt_str_eqb actual expected)
then bail (id +:+ " field " +:+ field +:+ " mismatch: expected " +:+ debug_opt expected +:+ ", got " +:+ debug_opt actual)
else mret tt.

Definition assert_active_status (stored : Value) (id : string) : Prog unit := assert_string_field stored "status" "Active" id.

Definition price_metadata_update (stored : Value) (expected : option Value) (price_id : string) : Prog Value :=
actual ← canonical_metadata_value (get stored "metadata");
expected ← canonical_metadata_value expected;
match actual, expected with
| Some _, None =>
bail ("configured price_id " +:+ price_id +:+ " cannot clear metadata; edit_price treats null metadata as leave-unchanged")
| Some (Object a), Some (Object x) =>
mret (Object (if option_eqb (map_get "farm_reward_rate" x) (Some Null)
then match map_get "farm_reward_rate" a with
   | Some rate => if negb (is_null rate) then map_insert "farm_reward_rate" rate x else x
   | None => x
   end
else x))
| _, _ => mret (default Null expected)
end.

(** A check without calls to the operating system, as [Result::ok]. *)
Definition ok {A} (p : Prog A) : option A := match p with Ret (Good a) => Some a | _ => None end.

Definition metadata_matches (stored : Value) (expected : option Value) : bool :=
match ok (canonical_metadata_value (get stored "metadata")) with
| Some actual =>
option_eqb (value ← ok (price_metadata_update stored expected "<metadata>");
c ← ok (canonical_metadata_value (Some value)); c) actual
| None => false
end.

Definition assert_metadata_field (stored : Value) (expected : option Value) (id : string) : Prog unit :=
if metadata_matches stored expected then mret tt
else bail (id +:+ " field metadata mismatch: expected " +:+ debug_value expected +:+ ", got " +:+ debug_value (get stored "metadata")).

Definition assert_immutable_price_field (stored : Value) (field expected price_id : string) : Prog unit :=
let actual := str_field stored field in
if negb (opt_str_eqb actual (Some expected))
then bail ("configured price_id " +:+ price_id +:+ " cannot update immutable field " +:+ field +:+ ": on-chain=" +:+
debug_opt actual +:+ ", config=" +:+ debug_str expected)
else mret tt.

Definition assert_immutable_optional_price_field (stored : Value) (field : string) (expected : option string) (price_id : string)
: Prog unit :=
let actual := str_field stored field in
if negb (opt_str_eqb actual expected)
then bail ("configured price_id " +:+ price_id +:+ " cannot update immutable field " +:+ field +:+ ": on-chain=" +:+
debug_opt actual +:+ ", config=" +:+ debug_opt expected)
else mret tt.

Definition verify_product_matches (stored : Value) (product_id : string) (product : ProductConfig.t) : Prog unit :=
(if is_null stored then bail ("configured product_id was not found: " +:+ product_id) else mret tt) ;;
assert_string_field stored "validator_id" (ProductConfig.validator_id product) product_id ;;
assert_string_field stored "name" (ProductConfig.name product) product_id ;;
assert_string_field stored "description" (ProductConfig.description product) product_id ;;
assert_active_status stored product_id.

Definition verify_price_matches (stored : Value) (price_id product_id : string) (price : PriceConfig.t) : Prog unit :=
(if is_null stored then bail ("configured price_id was not found: " +:+ price_id) else mret tt) ;;
assert_string_field stored "product_id" product_id price_id ;;
assert_string_field stored "name" (PriceConfig.name price) price_id ;;
assert_string_field stored "description" (PriceConfig.description price) price_id ;;
assert_string_field stored "amount" (PriceConfig.amount price) price_id ;;
assert_string_field stored "price_type" (PriceConfig.price_type price) price_id ;;
assert_optional_string_field stored "billing_period" (PriceConfig.billing_period price) price_id ;;
assert_string_field stored "lock_factor_near_months" (PriceConfig.lock_factor_near_months price) price_id ;;
assert_metadata_field stored (PriceConfig.metadata price) price_id ;;
assert_active_status stored price_id.

Definition verify_init_config_matches (stored : Value) (owner : string) (init : InitConfig.t) : Prog unit :=
match init_json owner init with
| Object fields =>
for_each fields (fun '(field, expected_value) =>
let actual := default Null (get stored field) in
if negb (value_eqb actual expected_value)
then bail ("init config field " +:+ field +:+ " mismatch: expected " +:+ json_text expected_value +:+ ", got " +:+ json_text actual)
else mret tt)
| _ => bail "internal error: init_json did not produce an object"
end.

Definition validator_has_catalog_manager (stored : Value) (catalog_manager_account_id : string) : bool :=
match (v ← get stored "catalog_manager_account_ids"; as_array v) with
| Some managers => existsb (fun m => String.eqb m catalog_manager_account_id) (omap as_str managers)
| None => false
end.

(** ** Catalog managers *)
Definition add_validator_catalog_manager (ctx : CommonArgs.t) (staking_account validator_id catalog_manager_account_id signer : string)
: Prog unit :=
near_tx ctx staking_account "add_validator_catalog_manager" (manager_args validator_id catalog_manager_account_id)
"100.0 Tgas" "1 yoctoNEAR" signer.

Definition add_validator_catalog_manager_if_needed (ctx : CommonArgs.t) (staking_account validator_id catalog_manager_account_id signer : string)
: Prog unit :=
stored ← view_json (network_of ctx) staking_account "get_validator" (Object [("validator_id", Str validator_id)]);
if is_null stored then
if negb (CommonArgs.send ctx)
then add_validator_catalog_manager ctx staking_account validator_id catalog_manager_account_id signer
else bail ("configured validator was not found: " +:+ validator_id)
else if validator_has_catalog_manager stored catalog_manager_account_id
then say ("catalog manager already granted: " +:+ validator_id +:+ " -> " +:+ catalog_manager_account_id)
else add_validator_catalog_manager ctx staking_account validator_id catalog_manager_account_id signer.

(** [MutContext]: the common arguments and the default signer. *)
Record MutContext : Type := mkContext { common : CommonArgs.t; signer : string }.
Definition arg_signer (ctx : MutContext) : option string := ReadOnlyCommonArgs.signer (CommonArgs.readonly (common ctx)).

Definition validator_owner_signer (ctx : MutContext) (validator : ValidatorConfig.t) : option string :=
or_else (or_else (non_empty (ValidatorConfig.owner_account_id validator)) (arg_signer ctx)) (Some (signer ctx)).

Definition configure_validator_catalog_managers (ctx : MutContext) (staking_account : string) (validator : ValidatorConfig.t) : Prog unit :=
match validator_owner_signer ctx validator with
| None =>
if existsb (fun manager => bool_decide (is_Some (non_empty (Some manager)))) (ValidatorConfig.catalog_manager_account_ids validator)
then bail ("validator " +:+ ValidatorConfig.validator_id validator +:+ " config includes catalog managers but no validator owner signer; " +:+
"set validators[].owner_account_id or pass --signer")
else mret tt
| Some owner =>
for_each (ValidatorConfig.catalog_manager_account_ids validator) (fun manager =>
match non_empty (Some manager) with
| None => mret tt
| Some manager =>
add_validator_catalog_manager_if_needed (common ctx) staking_account (ValidatorConfig.validator_id validator) manager owner
end)
end.

(** ** Validators *)
Definition mock_pool_has_owner (n : Network) (validator_id owner : string) : Prog bool :=
catch (view_json n validator_id "get_owner_id" (Object [])) (fun r =>
match r with
| inl stored =>
if opt_str_eqb (as_str stored) (Some owner) then mret true
else if bool_decide (is_Some (as_str stored)) then
bail ("mock pool " +:+ validator_id +:+ " is already deployed with owner " +:+ json_text stored +:+ ", expected " +:+ owner)
else bail ("mock pool " +:+ validator_id +:+ " returned unexpected owner value: " +:+ json_text stored)
| inr chain =>
if is_missing_contract_view_error chain then mret false
else Ret (Bad (("failed to inspect existing mock pool contract " +:+ validator_id) :: chain))
end).

Definition deploy_mock_args (n : Network) (validator_id wasm init_args : string) : list string :=
(command_new ++ ["contract"; "deploy"; validator_id; "use-file"; wasm; "with-init-call"; "new"; "json-args"; init_args;
"prepaid-gas"; "50.0 Tgas"; "attached-deposit"; "0 NEAR"; "network-config"; as_near_network n; "sign-with-keychain"; "send"])%list.

Definition configure_validator (ctx : MutContext) (staking_account : string) (validator : ValidatorConfig.t) (mock_pool_wasm : string)
: Prog unit :=
let n := network_of (common ctx) in
let id := ValidatorConfig.validator_id validator in
existing ← view_json n staking_account "get_validator" (Object [("validator_id", Str id)]);
(if negb (is_null existing) then assert_active_status existing id else mret tt) ;;
(if ValidatorConfig.deploy_mock_pool validator then
require_file mock_pool_wasm ;;
let owner := default (signer ctx) (ValidatorConfig.owner_account_id validator) in
b ← mock_pool_has_owner n id owner;
if b : bool then say ("mock pool already deployed: " +:+ id)
else run_tx (common ctx) (deploy_mock_args n id mock_pool_wasm (json_text (Object [("owner_id", Str owner)])))
else mret tt) ;;
if negb (is_null existing) then say ("validator already exists: " +:+ id)
else near_tx (common ctx) staking_account "add_validator" (Object [("validator_id", Str id)]) "50.0 Tgas" "1 yoctoNEAR" (signer ctx).

(** ** Products and prices *)
Definition catalog_signer (ctx : MutContext) (product : ProductConfig.t) (managers : gmap string string) : string :=
match arg_signer ctx with
| Some signer => signer
| None =>
match non_empty (ProductConfig.catalog_manager_account_id product) with
| Some manager => manager
| None =>
match non_empty (ProductConfig.owner_account_id product) with
| Some owner => owner
| None => default (signer ctx) (managers !! ProductConfig.validator_id product)
end
end
end.

Definition PAGE_LIMIT : Z := 200.

(** The product the item of a listing names, if it is the one configured. *)
Definition product_match (product : ProductConfig.t) (item : Value) : option string :=
if opt_str_eqb (str_field item "validator_id") (Some (ProductConfig.validator_id product)) &&
opt_str_eqb (str_field item "name") (Some (ProductConfig.name product)) &&
opt_str_eqb (str_field item "status") (Some "Active")
then str_field item "product_id" else None.

Definition products_args (from_index : Z) : Value :=
Object [("from_index", Number (pretty from_index)); ("limit", Number (pretty PAGE_LIMIT))].

(** The loop over the pages of the listing; [found] keeps the last match. *)
Fixpoint find_product_from (fuel : nat) (n : Network) (staking_account : string) (product : ProductConfig.t) (from_index : Z)
(found : option string) : Prog (option string) :=
match fuel with
| O => Ret Spent
| S fuel' =>
products ← view_json n staking_account "get_products" (products_args from_index);
match as_array products with
| None => bail "get_products did not return an array"
| Some items =>
if (length items =? 0)%nat then mret found
else
let found := foldl (fun found item => or_else (product_match product item) found) found items in
if (Z.of_nat (length items) <? PAGE_LIMIT)%Z then mret found
else find_product_from fuel' n staking_account product (from_index + Z.of_nat (length items)) found
end
end.

Context (fuel : nat).

Definition find_product (n : Network) (staking_account : string) (product : ProductConfig.t) : Prog (option string) :=
find_product_from fuel n staking_account product 0 None.

Definition price_match (price : PriceConfig.t) (candidate : Value) : bool :=
opt_str_eqb (str_field candidate "name") (Some (PriceConfig.name price)) &&
opt_str_eqb (str_field candidate "amount") (Some (PriceConfig.amount price)) &&
opt_str_eqb (str_field candidate "price_type") (Some (PriceConfig.price_type price)) &&
opt_str_eqb (str_field candidate "lock_factor_near_months") (Some (PriceConfig.lock_factor_near_months price)) &&
opt_str_eqb (str_field candidate "status") (Some "Active").

Fixpoint find_price_in (n : Network) (staking_account : string) (price : PriceConfig.t) (price_ids : list string) : Prog (option string) :=
match price_ids with
| [] => mret None
| price_id :: rest =>
candidate ← view_json n staking_account "get_price" (Object [("price_id", Str price_id)]);
if price_match price candidate then mret (Some price_id) else find_price_in n staking_account price rest
end.

Definition find_price (n : Network) (staking_account product_id : string) (price : PriceConfig.t) : Prog (option string) :=
if starts_with "<" product_id then mret None
else
product ← view_json n staking_account "get_product" (Object [("product_id", Str product_id)]);
match (v ← get product "price_ids"; as_array v) with
| None => mret None
| Some price_ids => find_price_in n staking_account price (omap as_str price_ids)
end.

Definition sync_product_by_id (ctx : MutContext) (staking_account product_id : string) (product : ProductConfig.t)
(managers : gmap string string) : Prog unit :=
stored ← view_json (network_of (common ctx)) staking_account "get_product" (Object [("product_id", Str product_id)]);
(if is_null stored then bail ("configured product_id was not found: " +:+ product_id) else mret tt) ;;
(if negb (opt_str_eqb (str_field stored "validator_id") (Some (ProductConfig.validator_id product)))
then bail ("configured product_id " +:+ product_id +:+ " belongs to a different validator") else mret tt) ;;
assert_active_status stored product_id ;;
if opt_str_eqb (str_field stored "name") (Some (ProductConfig.name product)) &&
opt_str_eqb (str_field stored "description") (Some (ProductConfig.description product))
then say ("product already up to date: " +:+ ProductConfig.name product +:+ " (" +:+ product_id +:+ ")")
else near_tx (common ctx) staking_account "edit_product"
(Object [("product_id", Str product_id); ("name", Str (ProductConfig.name product));
("description", Str (ProductConfig.description product))])
"200.0 Tgas" "1 yoctoNEAR" (catalog_signer ctx product managers).

(** Returns the product's id and the cache of the products by name. *)
Definition configure_product (ctx : MutContext) (staking_account : string) (product : ProductConfig.t) (managers : gmap string string)
(cache : gmap (string * string) string) : Prog (string * gmap (string * string) string) :=
match non_empty (ProductConfig.product_id product) with
| Some product_id => sync_product_by_id ctx staking_account product_id product managers ;; mret (product_id, cache)
| None =>
let key := (ProductConfig.validator_id product, ProductConfig.name product) in
match cache !! key with
| Some product_id => mret (product_id, cache)
| None =>
existing ← find_product (network_of (common ctx)) staking_account product;
match existing with
| Some product_id =>
say ("product already exists: " +:+ ProductConfig.name product +:+ " (" +:+ product_id +:+ ")") ;;
mret (product_id, <[key := product_id]> cache)
| None =>
near_tx (common ctx) staking_account "create_product"
(Object [("validator_id", Str (ProductConfig.validator_id product)); ("name", Str (ProductConfig.name product));
   ("description", Str (ProductConfig.description product))])
"200.0 Tgas" "1 yoctoNEAR" (catalog_signer ctx product managers) ;;
if negb (CommonArgs.send (common ctx)) then
let placeholder := "<product id for " +:+ ProductConfig.name product +:+ ">" in
mret (placeholder, <[key := placeholder]> cache)
else
created ← find_product (network_of (common ctx)) staking_account product;
product_id ← of_option created ("created product was not found by name: " +:+ ProductConfig.name product);
mret (product_id, <[key := product_id]> cache)
end
end
end.

Definition opt_value (o : option string) : Value := match o with Some s => Str s | None => Null end.

Definition sync_price_by_id (ctx : MutContext) (staking_account product_id price_id : string) (product : ProductConfig.t)
(price : PriceConfig.t) (managers : gmap string string) : Prog unit :=
stored ← view_json (network_of (common ctx)) staking_account "get_price" (Object [("price_id", Str price_id)]);
(if is_null stored then bail ("configured price_id was not found: " +:+ price_id) else mret tt) ;;
(if negb (opt_str_eqb (str_field stored "product_id") (Some product_id))
then bail ("configured price_id " +:+ price_id +:+ " belongs to a different product") else mret tt) ;;
assert_active_status stored price_id ;;
assert_immutable_price_field stored "amount" (PriceConfig.amount price) price_id ;;
assert_immutable_price_field stored "price_type" (PriceConfig.price_type price) price_id ;;
assert_immutable_optional_price_field stored "billing_period" (PriceConfig.billing_period price) price_id ;;
assert_immutable_price_field stored "lock_factor_near_months" (PriceConfig.lock_factor_near_months price) price_id ;;
metadata_update ← price_metadata_update stored (PriceConfig.metadata price) price_id;
if opt_str_eqb (str_field stored "name") (Some (PriceConfig.name price)) &&
opt_str_eqb (str_field stored "description") (Some (PriceConfig.description price)) &&
metadata_matches stored (PriceConfig.metadata price)
then say ("price already up to date: " +:+ PriceConfig.name price +:+ " (" +:+ price_id +:+ ")")
else near_tx (common ctx) staking_account "edit_price"
(Object [("price_id", Str price_id); ("name", Str (PriceConfig.name price));
("description", Str (PriceConfig.description price)); ("metadata", metadata_update)])
"200.0 Tgas" "1 yoctoNEAR" (catalog_signer ctx product managers).

Definition configure_price (ctx : MutContext) (staking_account product_id : string) (product : ProductConfig.t) (price : PriceConfig.t)
(managers : gmap string string) : Prog string :=
match non_empty (PriceConfig.price_id price) with
| Some price_id => sync_price_by_id ctx staking_account product_id price_id product price managers ;; mret price_id
| None =>
existing ← find_price (network_of (common ctx)) staking_account product_id price;
match existing with
| Some price_id => say ("price already exists: " +:+ PriceConfig.name price +:+ " (" +:+ price_id +:+ ")") ;; mret price_id
| None =>
near_tx (common ctx) staking_account "create_price"
(Object [("product_id", Str product_id); ("name", Str (PriceConfig.name price));
("description", Str (PriceConfig.description price)); ("amount", Str (PriceConfig.amount price));
("price_type", Str (PriceConfig.price_type price)); ("billing_period", opt_value (PriceConfig.billing_period price));
("lock_factor_near_months", Str (PriceConfig.lock_factor_near_months price));
("metadata", default Null (PriceConfig.metadata price))])
"200.0 Tgas" "1 yoctoNEAR" (catalog_signer ctx product managers) ;;
if negb (CommonArgs.send (common ctx)) then mret ("<price id for " +:+ PriceConfig.name price +:+ ">")
else
created ← find_price (network_of (common ctx)) staking_account product_id price;
of_option created ("created price was not found by name: " +:+ PriceConfig.name price)
end
end.

Definition set_default_price (ctx : MutContext) (staking_account : string) (product : ProductConfig.t) (product_id price_id : string)
(managers : gmap string string) : Prog unit :=
if starts_with "<" price_id then say ("skip default price dry-run placeholder for product " +:+ product_id)
else
stored ← view_json (network_of (common ctx)) staking_account "get_product" (Object [("product_id", Str product_id)]);
assert_active_status stored product_id ;;
if opt_str_eqb (str_field stored "default_price_id") (Some price_id)
then say ("default price already set: " +:+ product_id +:+ " -> " +:+ price_id)
else near_tx (common ctx) staking_account "set_product_default_price"
(Object [("product_id", Str product_id); ("price_id", Str price_id)])
"200.0 Tgas" "1 yoctoNEAR" (catalog_signer ctx product managers).

(** ** Verification *)
Definition verify_deployment_health (n : Network) (account_id : string) (expected_init : option (string * InitConfig.t))
(test_feature : bool) : Prog unit :=
version ← view_json n account_id "get_version" (Object []);
say ("version: " +:+ json_text version) ;;
contract_config ← view_json n account_id "get_config" (Object []);
say ("owner:   " +:+ default "<missing>" (str_field contract_config "owner_account_id")) ;;
match expected_init with
| Some (owner, init) => verify_init_config_matches contract_config owner init ;; say "init config verified"
| None => mret tt
end ;;
bounds ← view_json n account_id "storage_balance_bounds" (Object []);
say ("storage balance bounds: " +:+ json_text bounds) ;;
if test_feature then
ts ← view_json n account_id "get_block_timestamp" (Object []);
say ("test clock: " +:+ json_text ts)
else mret tt.

Definition verify_validator (n : Network) (staking_account : string) (validator : ValidatorConfig.t) : Prog unit :=
let id := ValidatorConfig.validator_id validator in
stored ← view_json n staking_account "get_validator" (Object [("validator_id", Str id)]);
(if is_null stored then bail ("configured validator was not found: " +:+ id) else mret tt) ;;
assert_active_status stored id ;;
for_each (ValidatorConfig.catalog_manager_account_ids validator) (fun manager =>
match non_empty (Some manager) with
| None => mret tt
| Some manager =>
if negb (validator_has_catalog_manager stored manager)
then bail ("configured validator " +:+ id +:+ " is missing catalog manager " +:+ manager) else mret tt
end).

Definition verify_price (n : Network) (staking_account product_id : string) (stored_product : Value) (price : PriceConfig.t) : Prog unit :=
price_id ← match non_empty (PriceConfig.price_id price) with
| Some price_id => mret price_id
| None => found ← find_price n staking_account product_id price;
 of_option found ("configured price was not found: " +:+ PriceConfig.name price)
end;
stored_price ← view_json n staking_account "get_price" (Object [("price_id", Str price_id)]);
verify_price_matches stored_price price_id product_id price ;;
if PriceConfig.set_default price && negb (opt_str_eqb (str_field stored_product "default_price_id") (Some price_id))
then bail ("configured default price mismatch for product " +:+ product_id +:+ ": expected " +:+ price_id +:+ ", got " +:+
debug_value (get stored_product "default_price_id"))
else mret tt.

Definition verify_product (n : Network) (staking_account : string) (product : ProductConfig.t) : Prog unit :=
product_id ← match non_empty (ProductConfig.product_id product) with
| Some product_id => mret product_id
| None => found ← find_product n staking_account product;
   of_option found ("configured product was not found: " +:+ ProductConfig.name product)
end;
stored_product ← view_json n staking_account "get_product" (Object [("product_id", Str product_id)]);
verify_product_matches stored_product product_id product ;;
for_each (ProductConfig.prices product) (verify_price n staking_account product_id stored_product).

Definition verify_configured_state (n : Network) (staking_account : string) (config : BootstrapConfig.t) : Prog unit :=
let validators := BootstrapConfig.validators config in
let products := BootstrapConfig.products config in
for_each validators (verify_validator n staking_account) ;;
for_each products (verify_product n staking_account) ;;
let configured_price_count := list_sum (map (fun p => length (ProductConfig.prices p)) products) in
if (0 <? length validators)%nat || (0 <? length products)%nat || (0 <? configured_price_count)%nat then
say ("configured validators verified: " +:+ pretty (length validators)) ;;
say ("configured products verified:   " +:+ pretty (length products)) ;;
say ("configured prices verified:     " +:+ pretty configured_price_count)
else mret tt.

(** ** The commands *)
Definition show_bool (b : bool) : string := if b then "true" else "false".

Definition deploy_args (n : Network) (account_id wasm : string) (init_args : option Value) : list string :=
(command_new ++ ["contract"; "deploy"; account_id; "use-file"; wasm] ++
match init_args with
| Some v => ["with-init-call"; "new"; "json-args"; json_text v; "prepaid-gas"; "100.0 Tgas"; "attached-deposit"; "0 NEAR"]
| None => ["without-init-call"]
end ++ ["network-config"; as_near_network n; "sign-with-keychain"; "send"])%list.

Definition deploy (args : DeployArgs.t) : Prog unit :=
let common := DeployArgs.common args in
let readonly := CommonArgs.readonly common in
let n := network_of common in
config ← load_config (ReadOnlyCommonArgs.config readonly);
account_id ← resolve_account readonly config;
let staking := BootstrapConfig.staking config in
let owner := default account_id (or_else (DeployArgs.owner args) (StakingConfig.owner_account_id staking)) in
let test_feature := DeployArgs.test_feature args || default false (StakingConfig.test_feature staking) in
let wasm := default (if test_feature then DEFAULT_STAKING_TEST_WASM else DEFAULT_STAKING_WASM)
(or_else (DeployArgs.wasm args) (if test_feature then StakingConfig.test_wasm staking else StakingConfig.wasm staking)) in
mode ← deploy_mode (DeployArgs.fresh args) (DeployArgs.code_only args);
(if test_feature && bool_decide (n = Mainnet) then bail "test-feature deployments are not allowed on mainnet" else mret tt) ;;
match ReadOnlyCommonArgs.signer readonly with
| Some signer =>
if negb (String.eqb signer account_id)
then bail ("deploy signer must equal target account " +:+ account_id +:+
"; near-cli signs contract deploys with the deployed account key")
else mret tt
| None => mret tt
end ;;
guard_mainnet common ;;
require_file wasm ;;
let init_args := match mode with Fresh => Some (Object [("config", init_json owner (BootstrapConfig.init config))]) | CodeOnly => None end in
say ("network:        " +:+ as_near_network n) ;;
say ("account:        " +:+ account_id) ;;
say ("signer:         " +:+ account_id) ;;
say ("mode:           " +:+ show_mode mode) ;;
say ("wasm:           " +:+ wasm) ;;
sha ← wasm_sha256 wasm;
say ("wasm sha256:    " +:+ sha) ;;
say ("test feature:   " +:+ show_bool test_feature) ;;
match init_args with
| Some v => say "init method:    new" ;; say ("init args:      " +:+ json_text v)
| None => mret tt
end ;;
(if CommonArgs.send common then confirm_sent_operation "deploy" n account_id account_id else mret tt) ;;
run_tx common (deploy_args n account_id wasm init_args) ;;
if CommonArgs.send common then
verify_deployment_health n account_id
(match mode with Fresh => Some (owner, BootstrapConfig.init config) | CodeOnly => None end) test_feature
else mret tt.

Definition add_catalog_manager (args : CatalogManagerArgs.t) : Prog unit :=
let common := CatalogManagerArgs.common args in
let readonly := CommonArgs.readonly common in
config ← load_config (ReadOnlyCommonArgs.config readonly);
account_id ← resolve_account readonly config;
let staking := BootstrapConfig.staking config in
let validator_id := CatalogManagerArgs.validator_id args in
let signer := default account_id
(or_else (CatalogManagerArgs.owner args)
(or_else (validator_owner_from_config config validator_id)
(or_else (ReadOnlyCommonArgs.signer readonly)
(or_else (StakingConfig.signer_account_id staking) (StakingConfig.owner_account_id staking))))) in
guard_mainnet common ;;
say ("network:   " +:+ as_near_network (network_of common)) ;;
say ("account:   " +:+ account_id) ;;
say ("validator: " +:+ validator_id) ;;
say ("manager:   " +:+ CatalogManagerArgs.catalog_manager_account_id args) ;;
say ("signer:    " +:+ signer) ;;
say ("send:      " +:+ show_bool (CommonArgs.send common)) ;;
add_validator_catalog_manager_if_needed common account_id validator_id (CatalogManagerArgs.catalog_manager_account_id args) signer.

Definition propose_add_catalog_manager (args : ProposeCatalogManagerArgs.t) : Prog unit :=
let common := ProposeCatalogManagerArgs.common args in
let readonly := CommonArgs.readonly common in
config ← load_config (ReadOnlyCommonArgs.config readonly);
account_id ← resolve_account readonly config;
validator_id ← resolve_validator_id (ProposeCatalogManagerArgs.validator_id args) config;
dao ← resolve_catalog_manager_dao (ProposeCatalogManagerArgs.dao args) config validator_id;
proposal_bond_yocto ← resolve_dao_proposal_bond_yocto (network_of common) dao (ProposeCatalogManagerArgs.proposal_bond_yocto args);
let proposal_bond := proposal_bond_yocto +:+ " yoctoNEAR" in
manager ← resolve_catalog_manager_account (ProposeCatalogManagerArgs.catalog_manager_account_id args) config validator_id;
proposer ← of_option (or_else (ProposeCatalogManagerArgs.proposer args) (ReadOnlyCommonArgs.signer readonly))
"missing DAO proposer; pass --proposer or --signer";
let description := default ("Grant " +:+ manager +:+ " catalog-manager rights for " +:+ validator_id +:+ " on " +:+ account_id)
 (ProposeCatalogManagerArgs.description args) in
let call_gas := ProposeCatalogManagerArgs.call_gas args in
let call_deposit := ProposeCatalogManagerArgs.call_deposit_yocto args in
let proposal_args := catalog_manager_dao_proposal_args description account_id validator_id manager call_gas call_deposit in
let wrapped_call := Object [("receiver_id", Str account_id); ("method_name", Str "add_validator_catalog_manager");
        ("args", manager_args validator_id manager); ("deposit", Str call_deposit); ("gas", Str call_gas)] in
let shown field := default "<missing>" (v ← get wrapped_call "args"; w ← get v field; as_str w) in
guard_mainnet common ;;
say ("network:   " +:+ as_near_network (network_of common)) ;;
say ("dao:       " +:+ dao) ;;
say ("proposer:  " +:+ proposer) ;;
say ("account:   " +:+ account_id) ;;
say ("bond:      " +:+ proposal_bond) ;;
say ("validator: " +:+ shown "validator_id") ;;
say ("manager:   " +:+ shown "catalog_manager_account_id") ;;
say ("send:      " +:+ show_bool (CommonArgs.send common)) ;;
say "wrapped staking call:" ;;
say (json_pretty wrapped_call) ;;
say "dao proposal args:" ;;
say (json_pretty proposal_args) ;;
near_tx common dao "add_proposal" proposal_args (ProposeCatalogManagerArgs.proposal_gas args) proposal_bond proposer.

(** The first catalog manager of every validator; a later entry of the same
validator takes the place of an earlier one. *)
Definition validator_catalog_managers (validators : list ValidatorConfig.t) : gmap string string :=
foldl (fun m v =>
match head (omap (fun manager => non_empty (Some manager)) (ValidatorConfig.catalog_manager_account_ids v)) with
| Some manager => <[ValidatorConfig.validator_id v := manager]> m
| None => m
end) ∅ validators.

Fixpoint configure_products (ctx : MutContext) (account_id : string) (managers : gmap string string)
(cache : gmap (string * string) string) (products : list ProductConfig.t) : Prog unit :=
match products with
| [] => mret tt
| product :: rest =>
'(product_id, cache) ← configure_product ctx account_id product managers cache;
for_each (ProductConfig.prices product) (fun price =>
price_id ← configure_price ctx account_id product_id product price managers;
if PriceConfig.set_default price then set_default_price ctx account_id product product_id price_id managers else mret tt) ;;
configure_products ctx account_id managers cache rest
end.

Definition configure (args : ConfigureArgs.t) : Prog unit :=
let common := ConfigureArgs.common args in
let readonly := CommonArgs.readonly common in
let n := network_of common in
config ← load_config (ReadOnlyCommonArgs.config readonly);
validate_config config ;;
account_id ← resolve_account readonly config;
let staking := BootstrapConfig.staking config in
let signer := default account_id
(or_else (ReadOnlyCommonArgs.signer readonly)
(or_else (StakingConfig.signer_account_id staking) (StakingConfig.owner_account_id staking))) in
let ctx := mkContext common signer in
guard_mainnet common ;;
say ("network: " +:+ as_near_network n) ;;
say ("account: " +:+ account_id) ;;
say ("signer:  " +:+ signer) ;;
say ("send:    " +:+ show_bool (CommonArgs.send common)) ;;
(if CommonArgs.send common then confirm_sent_operation "configure" n account_id signer else mret tt) ;;
for_each (BootstrapConfig.validators config) (fun validator =>
configure_validator ctx account_id validator (ConfigureArgs.mock_pool_wasm args) ;;
configure_validator_catalog_managers ctx account_id validator) ;;
configure_products ctx account_id (validator_catalog_managers (BootstrapConfig.validators config)) ∅ (BootstrapConfig.products config) ;;
if CommonArgs.send common then
verify_deployment_health n account_id None
(VerifyConfig.test_feature (BootstrapConfig.verify config) || default false (StakingConfig.test_feature staking)) ;;
verify_configured_state n account_id config
else mret tt.

(** The number of items of a listing. *)
Definition listed (v : Value) : string := pretty (match as_array v with Some l => length l | None => O end).

Definition verify (args : VerifyArgs.t) : Prog unit :=
let readonly := VerifyArgs.common args in
let n := ReadOnlyCommonArgs.network readonly in
config ← load_config (ReadOnlyCommonArgs.config readonly);
validate_config config ;;
account_id ← resolve_account readonly config;
let staking := BootstrapConfig.staking config in
let limit := VerifyConfig.view_limit (BootstrapConfig.verify config) in
let test_feature := VerifyArgs.test_feature args || VerifyConfig.test_feature (BootstrapConfig.verify config) ||
default false (StakingConfig.test_feature staking) in
say ("network: " +:+ as_near_network n) ;;
say ("account: " +:+ account_id) ;;
let expected_owner := default account_id (StakingConfig.owner_account_id staking) in
verify_deployment_health n account_id
(match ReadOnlyCommonArgs.config readonly with Some _ => Some (expected_owner, BootstrapConfig.init config) | None => None end)
test_feature ;;
if (length (BootstrapConfig.validators config) =? 0)%nat && (length (BootstrapConfig.products config) =? 0)%nat then
let page := Object [("from_index", Number "0"); ("limit", Number (pretty limit))] in
validators ← view_json n account_id "get_validators" page;
say ("listed validators: " +:+ listed validators) ;;
products ← view_json n account_id "get_products" page;
say ("listed products:   " +:+ listed products)
else verify_configured_state n account_id config.

Definition main (command : Commands) : Prog unit :=
match command with
| Deploy args => deploy args
| AddCatalogManager args => add_catalog_manager args
| ProposeAddCatalogManager args => propose_add_catalog_manager args
| Configure args => configure args
| Verify args => verify args
end.
End cli.
End Cli.
