(* ===== verification/CliFacts.v ===== *)
(** * What the staking CLI does

    Judgements on the programs of [Cli]: [always P] says that every call to
    the operating system satisfies [P], whatever the replies; [confirmed op]
    that no transaction is sent before the user typed [op]; [run h] is the
    outcome when the system replies as [h]. *)
From stdpp Require Import base gmap strings list pretty sorting.
From Stdlib Require Import ZArith Lia Ascii.
From S2P Require Import Prelude.
From S2P Require Import CliText.
From S2P Require Import Cli.

Local Open Scope string_scope.

Module CliFacts.
Import Text Json Cli.Cli.

(** ** Every call of a program *)
Fixpoint always {A} (P : Sys -> Prop) (p : Prog A) : Prop :=
match p with Ret _ => True | Do s k => P s /\ forall x, always P (k x) end.

Section always.
Context (P : Sys -> Prop).

Lemma always_ret {A} (r : Outcome A) : always P (Ret r).
Proof. done. Qed.
Lemma always_bind {A B} (p : Prog A) (f : A -> Prog B) : always P p -> (forall a, always P (f a)) -> always P (p ≫= f).
Proof.
intros Hp Hf. induction p as [[a|chain|]|s k IH]; cbn in *; [apply Hf | done | done|].
split; [apply Hp|]. intros x. apply IH, Hp.
Qed.
Lemma always_sys s : P s -> always P (sys s).
Proof. by split. Qed.
Lemma always_with_context {A} (p : Prog A) msg : always P p -> always P (with_context p msg).
Proof.
intros Hp. induction p as [[a|chain|]|s k IH]; cbn in *; [done..|]. split; [apply Hp|]. intros x. apply IH, Hp.
Qed.
Lemma always_catch {A B} (p : Prog A) (f : A + list string -> Prog B) : always P p -> (forall r, always P (f r)) -> always P (catch p f).
Proof.
intros Hp Hf. induction p as [[a|chain|]|s k IH]; cbn in *; [apply Hf | apply Hf | done|]. split; [apply Hp|]. intros x. apply IH, Hp.
Qed.
Lemma always_for_each {A} (l : list A) body : (forall x, always P (body x)) -> always P (for_each l body).
Proof. intros Hb. induction l as [|x l IH]; [done|]. apply always_bind; [apply Hb | done]. Qed.
Lemma always_of_option {A} (o : option A) msg : always P (of_option o msg).
Proof. by destruct o. Qed.
End always.

Lemma always_mono {A} (P Q : Sys -> Prop) (p : Prog A) : (forall s, P s -> Q s) -> always P p -> always Q p.
Proof. intros HPQ. induction p as [r|s k IH]; cbn; [done|]. intros [Hs Hk]. split; [by apply HPQ|]. intros x. apply IH, Hk. Qed.

Create HintDb cli.
#[export] Hint Resolve always_ret always_of_option : cli.

(** One step of the structure of a program. *)
Ltac always_step :=
match goal with
| |- always _ (Ret _) => apply always_ret
| |- always _ (mret _) => apply always_ret
| |- always _ (bail _) => apply always_ret
| |- always _ (of_option _ _) => apply always_of_option
| |- always _ (with_context _ _) => apply always_with_context
| |- always _ (catch _ _) => apply always_catch; [|intro]
| |- always _ (for_each _ _) => apply always_for_each; intro
| |- always _ (?p ≫= ?f) => apply always_bind; [|intro]
| |- always _ (let '(_, _) := ?x in _) => destruct x
| |- always _ (match ?x with _ => _ end) => destruct x
| |- always _ (sys _) => apply always_sys
| |- always _ (say _) => apply always_sys
end.
Ltac always_walk := repeat first [solve [auto with cli nocore] | always_step].

(** ** Calls of [near] *)

(** A view is asked for read-only, a transaction is signed and sent, and both
are for the given network. *)
Definition near_call (n : Network) (s : Sys) : Prop :=
match s with
| NearOutput args => exists contract method a, args = view_args n contract method a
| NearStatus args =>
(exists contract method a gas deposit signer, args = call_args n contract method a gas deposit signer) \/
(exists account wasm rest, args = (command_new ++ ["contract"; "deploy"; account; "use-file"; wasm] ++ rest ++
["network-config"; as_near_network n; "sign-with-keychain"; "send"])%list)
| _ => True
end.
Definition read_only (s : Sys) : Prop := match s with NearStatus _ => False | _ => True end.
(** Calls of [near] for a network; transactions only if [b]. *)
Definition permits (b : bool) (n : Network) (s : Sys) : Prop := near_call n s /\ (b = false -> read_only s).

Section permits.
Context `{CR : Crates} (fuel : nat).
Abbreviation ok_in b n p := (always (permits b n) p).

Lemma permits_quiet b n s : match s with NearOutput _ | NearStatus _ => False | _ => True end -> permits b n s.
Proof. by destruct s. Qed.
#[local] Hint Extern 1 (permits _ _ _) => apply permits_quiet; exact I : cli.
#[local] Hint Extern 1 (permits _ _ (Say _)) => apply permits_quiet; exact I : cli.

Lemma permits_view b n c m a : ok_in b n (view_json n c m a).
Proof.
unfold view_json. apply always_bind; [apply always_sys; split; [cbn; eauto | done]|]. intros [o|]; [|done].
destruct (out_success o); [|done]. cbn. apply always_with_context. unfold parse_near_json. always_walk.
Qed.
Lemma permits_run ctx args n : (CommonArgs.send ctx = true -> near_call n (NearStatus args)) ->
ok_in (CommonArgs.send ctx) n (run_tx ctx args).
Proof.
intros Hc. unfold run_tx. apply always_bind; [always_walk|intros _]. destruct (CommonArgs.send ctx); [|done]. cbn.
split; [split; [by apply Hc | done]|]. intros [st|]; [|done]. by destruct (status_success st).
Qed.
Lemma permits_tx ctx c m a g d s : ok_in (CommonArgs.send ctx) (network_of ctx) (near_tx ctx c m a g d s).
Proof. apply permits_run. intros _. left. by eexists _, _, _, _, _, _. Qed.
Lemma permits_canonical b n v : ok_in b n (canonical_metadata_value v).
Proof. unfold canonical_metadata_value. always_walk. Qed.
#[local] Hint Resolve permits_view permits_run permits_tx permits_canonical : cli.

Lemma permits_load b n p : ok_in b n (load_config p).
Proof. unfold load_config. always_walk. Qed.
Lemma permits_validate b n c : ok_in b n (validate_config c).
Proof. unfold validate_config. always_walk. Qed.
Lemma permits_account b n a c : ok_in b n (resolve_account a c).
Proof. unfold resolve_account. always_walk. Qed.
Lemma permits_guard b n c : ok_in b n (guard_mainnet c).
Proof. unfold guard_mainnet. always_walk. Qed.
Lemma permits_string b n s f x i : ok_in b n (assert_string_field s f x i).
Proof. unfold assert_string_field. always_walk. Qed.
Lemma permits_active b n s i : ok_in b n (assert_active_status s i).
Proof. apply permits_string. Qed.
Lemma permits_file b n p : ok_in b n (require_file p).
Proof. unfold require_file. always_walk. Qed.
Lemma permits_sha b n p : ok_in b n (wasm_sha256 p).
Proof. unfold wasm_sha256. always_walk. Qed.
Lemma permits_confirm b n o k a s : ok_in b n (confirm_sent_operation o k a s).
Proof. unfold confirm_sent_operation. always_walk. Qed.
#[local] Hint Resolve permits_load permits_validate permits_account permits_guard permits_string permits_active permits_file permits_sha
permits_confirm : cli.

Lemma permits_find_from b n a p k : forall i found, ok_in b n (find_product_from k n a p i found).
Proof. induction k as [|k IH]; intros i found; [done|]. cbn [find_product_from]. always_walk. Qed.
Lemma permits_find_product b n a p : ok_in b n (find_product fuel n a p).
Proof. apply permits_find_from. Qed.
Lemma permits_find_in b n a p ids : ok_in b n (find_price_in n a p ids).
Proof. induction ids as [|i ids IH]; [done|]. cbn [find_price_in]. always_walk. Qed.
#[local] Hint Resolve permits_find_product permits_find_in : cli.
Lemma permits_find_price b n a i p : ok_in b n (find_price n a i p).
Proof. unfold find_price. always_walk. Qed.
Lemma permits_metadata b n s x i : ok_in b n (price_metadata_update s x i).
Proof. unfold price_metadata_update. always_walk. Qed.
#[local] Hint Resolve permits_find_price permits_metadata : cli.

Lemma permits_manager ctx c v m g : ok_in (CommonArgs.send ctx) (network_of ctx) (add_validator_catalog_manager_if_needed ctx c v m g).
Proof. unfold add_validator_catalog_manager_if_needed, add_validator_catalog_manager. always_walk. Qed.
Lemma permits_owner b n v o : ok_in b n (mock_pool_has_owner n v o).
Proof. unfold mock_pool_has_owner. always_walk. Qed.
Lemma permits_optional b n s f x i : ok_in b n (assert_optional_string_field s f x i).
Proof. unfold assert_optional_string_field. always_walk. Qed.
Lemma permits_metadata_field b n s x i : ok_in b n (assert_metadata_field s x i).
Proof. unfold assert_metadata_field. always_walk. Qed.
#[local] Hint Resolve permits_manager permits_owner permits_optional permits_metadata_field : cli.

Section context.
Context (ctx : MutContext).
Abbreviation fine p := (ok_in (CommonArgs.send (common ctx)) (network_of (common ctx)) p).

Lemma permits_managers c v : fine (configure_validator_catalog_managers ctx c v).
Proof. unfold configure_validator_catalog_managers. always_walk. Qed.
Lemma permits_configure_validator c v w : fine (configure_validator ctx c v w).
Proof.
unfold configure_validator. always_walk. apply permits_run. intros _. right. unfold deploy_mock_args.
eexists _, _, ["with-init-call"; "new"; "json-args"; _; "prepaid-gas"; "50.0 Tgas"; "attached-deposit"; "0 NEAR"]. reflexivity.
Qed.
Lemma permits_sync_product c i p ms : fine (sync_product_by_id ctx c i p ms).
Proof. unfold sync_product_by_id. always_walk. Qed.
Lemma permits_sync_price c i j p q ms : fine (sync_price_by_id ctx c i j p q ms).
Proof.
unfold sync_price_by_id, assert_immutable_price_field, assert_immutable_optional_price_field. always_walk.
Qed.
#[local] Hint Resolve permits_managers permits_configure_validator permits_sync_product permits_sync_price : cli.
Lemma permits_product c p ms cache : fine (configure_product fuel ctx c p ms cache).
Proof. unfold configure_product. always_walk. Qed.
Lemma permits_price c i p q ms : fine (configure_price ctx c i p q ms).
Proof. unfold configure_price. always_walk. Qed.
Lemma permits_default c p i j ms : fine (set_default_price ctx c p i j ms).
Proof. unfold set_default_price. always_walk. Qed.
#[local] Hint Resolve permits_product permits_price permits_default : cli.
Lemma permits_products c ms l : forall cache, fine (configure_products fuel ctx c ms cache l).
Proof. induction l as [|p l IH]; intros cache; [done|]. cbn [configure_products]. always_walk. Qed.
End context.
#[local] Hint Resolve permits_managers permits_configure_validator permits_products : cli.

Lemma permits_health b n a x t : ok_in b n (verify_deployment_health n a x t).
Proof. unfold verify_deployment_health, verify_init_config_matches. always_walk. Qed.
Lemma permits_state b n a c : ok_in b n (verify_configured_state fuel n a c).
Proof.
unfold verify_configured_state, verify_validator, verify_product, verify_price, verify_product_matches, verify_price_matches. always_walk.
Qed.
#[local] Hint Resolve permits_health permits_state : cli.

(** ** The commands *)
Definition may_send (c : CommonArgs.t) : bool :=
CommonArgs.send c && (negb (bool_decide (network_of c = Mainnet)) || CommonArgs.yes_mainnet c).

Lemma permits_guarded {A} c (f : unit -> Prog A) : (may_send c = CommonArgs.send c -> ok_in (CommonArgs.send c) (network_of c) (f tt)) ->
ok_in (may_send c) (network_of c) (guard_mainnet c ≫= f).
Proof.
intros Hf. unfold guard_mainnet, may_send in *. destruct (CommonArgs.send c), (bool_decide (network_of c = Mainnet)), (CommonArgs.yes_mainnet c);
cbn in *; try done; by apply Hf.
Qed.

(** Up to the guard. *)
Ltac to_guard :=
repeat match goal with |- always _ (guard_mainnet _ ≫= _) => fail 1 | |- _ => first [solve [auto with cli nocore] | always_step] end.

Lemma permits_deploy args : ok_in (may_send (DeployArgs.common args)) (network_of (DeployArgs.common args)) (deploy args).
Proof.
unfold deploy, deploy_mode. cbv zeta. to_guard.
all: apply permits_guarded; intros E; always_walk; apply permits_run; intros _; right; unfold deploy_args.
all: eexists _, _, _; reflexivity.
Qed.
Lemma permits_add args : ok_in (may_send (CatalogManagerArgs.common args)) (network_of (CatalogManagerArgs.common args)) (add_catalog_manager args).
Proof.
unfold add_catalog_manager. cbv zeta. to_guard. apply permits_guarded. intros E. always_walk.
Qed.
Lemma permits_propose args : ok_in (may_send (ProposeCatalogManagerArgs.common args)) (network_of (ProposeCatalogManagerArgs.common args))
(propose_add_catalog_manager args).
Proof.
unfold propose_add_catalog_manager, resolve_validator_id, resolve_catalog_manager_dao, resolve_dao_proposal_bond_yocto,
validate_proposal_bond_override, resolve_catalog_manager_account. cbv zeta.
to_guard. all: apply permits_guarded; intros E; always_walk.
Qed.
Lemma permits_configure args : ok_in (may_send (ConfigureArgs.common args)) (network_of (ConfigureArgs.common args)) (configure fuel args).
Proof.
unfold configure. cbv zeta. to_guard. apply permits_guarded. intros E. always_walk.
- apply (permits_configure_validator (mkContext (ConfigureArgs.common args) _)).
- apply (permits_managers (mkContext (ConfigureArgs.common args) _)).
- apply (permits_products (mkContext (ConfigureArgs.common args) _)).
Qed.
Lemma permits_verify b args : ok_in b (ReadOnlyCommonArgs.network (VerifyArgs.common args)) (verify fuel args).
Proof. unfold verify. always_walk. Qed.
End permits.
#[export] Hint Extern 1 (permits _ _ _) => apply permits_quiet; exact I : cli.
#[export] Hint Resolve permits_load permits_validate permits_account permits_guard permits_file permits_sha : cli.

(** ** Asking first *)

(** No transaction is sent before the user has typed [op]. *)
Fixpoint confirmed {A} (op : string) (p : Prog A) : Prop :=
match p with
| Ret _ => True
| Do (NearStatus _) _ => False
| Do (Prompt _) k => forall r, match r with Line s => trim s = op | _ => False end \/ confirmed op (k r)
| Do s k => forall r, confirmed op (k r)
end.

Lemma confirmed_bind {A B} op (p : Prog A) (f : A -> Prog B) : confirmed op p -> (forall a, confirmed op (f a)) -> confirmed op (p ≫= f).
Proof.
intros Hp Hf. induction p as [[a|chain|]|s k IH]; cbn in *; [apply Hf | done | done|].
destruct s; try done; intros r; try by apply IH. destruct (Hp r) as [H|H]; [by left | right; by apply IH].
Qed.
(** What sends nothing comes first. *)
Lemma confirmed_read {A} op (p : Prog A) : always read_only p -> confirmed op p.
Proof. induction p as [r|s k IH]; cbn; [done|]. intros [Hs Hk]. destruct s; try done; intros r; try right; by apply IH. Qed.

(** A program that goes on only after the user typed [op]. *)
Fixpoint asks_for {A} (op : string) (p : Prog A) : Prop :=
match p with
| Ret (Good _) => False
| Ret _ => True
| Do (NearStatus _) _ => False
| Do (Prompt _) k => forall r, match r with Line s => trim s = op | _ => False end \/ asks_for op (k r)
| Do s k => forall r, asks_for op (k r)
end.
Lemma asks_then {A B} op (p : Prog A) (f : A -> Prog B) : asks_for op p -> confirmed op (p ≫= f).
Proof.
intros Hp. induction p as [[a|chain|]|s k IH]; cbn in *; [done..|].
destruct s; try done; intros r; try by apply IH. destruct (Hp r) as [H|H]; [by left | right; by apply IH].
Qed.
Lemma confirm_asks op n a s : asks_for op (confirm_sent_operation op n a s).
Proof.
cbn. intros [| |x]; [right; done | right; done|]. destruct (String.eqb (trim x) op) eqn:E; cbn; [left; by apply String.eqb_eq | by right].
Qed.
Lemma permits_read {A} n (p : Prog A) : always (permits false n) p -> always read_only p.
Proof. apply always_mono. intros s [_ H]. by apply H. Qed.
End CliFacts.
