(* ===== verification/CliTheorems.v ===== *)
(** * Properties of the staking CLI *)
From stdpp Require Import base gmap strings list pretty sorting.
From Stdlib Require Import ZArith Lia Ascii.
From S2P Require Import Prelude.
From S2P Require Import MerkleTree.
From S2P Require Import CliText.
From S2P Require Import StakingTypes.
From S2P Require Import StakingContract.
From S2P Require Import StakingCatalog.
From S2P Require Import StakingWorld.
From S2P Require Import StakingReach.
From S2P Require Import StakingViews.
From S2P Require Import StakingIndex.
From S2P Require Import Cli.
From S2P Require Import CliFacts.

Local Open Scope string_scope.
#[local] Arguments String.append !_ _ / : simpl nomatch.

Module CliTheorems.
Import Text Json Cli.Cli CliFacts.CliFacts.

(** The questions a command asks come before its transactions. *)
Ltac to_question :=
repeat match goal with
| |- confirmed _ (confirm_sent_operation _ _ _ _ ≫= _) => apply asks_then, confirm_asks
| |- confirmed _ (?p ≫= _) => apply confirmed_bind; [apply confirmed_read, (permits_read Testnet); solve [always_walk]|intro]
end.

Section commands.
Context `{CR : Crates}.

Definition common_of (command : Commands) : option CommonArgs.t :=
match command with
| Deploy args => Some (DeployArgs.common args)
| AddCatalogManager args => Some (CatalogManagerArgs.common args)
| ProposeAddCatalogManager args => Some (ProposeCatalogManagerArgs.common args)
| Configure args => Some (ConfigureArgs.common args)
| Verify _ => None
end.
Definition sends (command : Commands) : bool := match common_of command with Some c => may_send c | None => false end.
Definition target_network (command : Commands) : Network :=
match command with
| Deploy args => network_of (DeployArgs.common args)
| AddCatalogManager args => network_of (CatalogManagerArgs.common args)
| ProposeAddCatalogManager args => network_of (ProposeCatalogManagerArgs.common args)
| Configure args => network_of (ConfigureArgs.common args)
| Verify args => ReadOnlyCommonArgs.network (VerifyArgs.common args)
end.

Lemma command_permitted fuel command : always (permits (sends command) (target_network command)) (main fuel command).
Proof.
destruct command as [args|args|args|args|args]; cbn [main sends common_of target_network];
[exact (permits_deploy args) | exact (permits_add args) | exact (permits_propose args) | exact (permits_configure fuel args)
| exact (permits_verify fuel false args)].
Qed.
Lemma cli_sends_nothing fuel command : sends command = false -> always read_only (main fuel command).
Proof. intros E. pose proof (command_permitted fuel command) as H. rewrite E in H. by eapply permits_read. Qed.


(** [deploy] and [configure] ask first: no transaction is sent before the
user typed the name of the command. *)
Theorem cli_asks_first fuel :
(forall args, confirmed "deploy" (deploy args)) /\ (forall args, confirmed "configure" (configure fuel args)).
Proof.
split; intros args.
- destruct (CommonArgs.send (DeployArgs.common args)) eqn:E.
+ unfold deploy, deploy_mode. cbv zeta. rewrite E. to_question.
+ apply confirmed_read, (cli_sends_nothing fuel (Deploy args)). unfold sends, may_send. cbn. by rewrite E.
- destruct (CommonArgs.send (ConfigureArgs.common args)) eqn:E.
+ unfold configure. cbv zeta. rewrite E. to_question.
+ apply confirmed_read, (cli_sends_nothing fuel (Configure args)). unfold sends, may_send. cbn. by rewrite E.
Qed.
End commands.

(** ** The printed plan

How a POSIX shell reads a command line back: words are separated by
spaces, text between single quotes stands for itself, a backslash takes
the meaning of the next character away; the other characters that mean
something to the shell are not read. *)
Inductive Reading : Type := Blank | Word (w : string) | Quoted (w : string) | Escaped (w : string).
Definition special (a : ascii) : bool := char_in a "|&;<>()$`*?[#~%" || char_in a (bytes [9; 10; 34]%nat).
Definition word_of (st : Reading) : string := match st with Blank => "" | Word w | Quoted w | Escaped w => w end.
Definition snoc (w : string) (a : ascii) : string := w +:+ String a "".
#[local] Arguments snoc : simpl never.
#[local] Arguments special : simpl never.
Fixpoint shell_words (s : string) (st : Reading) : option (list string) :=
match s with
| "" => match st with Blank => Some [] | Word w => Some [w] | _ => None end
| String a s' =>
match st with
| Quoted w => shell_words s' (if Ascii.eqb a "'" then Word w else Quoted (snoc w a))
| Escaped w => if Ascii.eqb a (ascii_of_nat 10) then None else shell_words s' (Word (snoc w a))
| Blank | Word _ =>
if Ascii.eqb a " " then match st with Word w => l ← shell_words s' Blank; Some (w :: l) | _ => shell_words s' Blank end
else if Ascii.eqb a "'" then shell_words s' (Quoted (word_of st))
else if Ascii.eqb a "\" then shell_words s' (Escaped (word_of st))
else if special a then None
else shell_words s' (Word (snoc (word_of st) a))
end
end.

Definition safe (a : ascii) : bool := is_ascii_alphanumeric a || char_in a "-_./:=@".
Lemma safe_plain a : safe a = true -> Ascii.eqb a " " = false /\ Ascii.eqb a "'" = false /\ Ascii.eqb a "\" = false /\ special a = false.
Proof. destruct a as [[] [] [] [] [] [] [] []]; vm_compute; intros H; first [discriminate H | auto]. Qed.

Lemma snoc_app w a s : snoc w a +:+ s = w +:+ String a s.
Proof. unfold snoc. induction w as [|b w IH]; [done|]. cbn. f_equal. apply IH. Qed.
Lemma append_assoc (s t u : string) : (s +:+ t) +:+ u = s +:+ t +:+ u.
Proof. induction s as [|a s IH]; [done|]. cbn. by f_equal. Qed.
Lemma app_empty s : s +:+ "" = s.
Proof. induction s as [|a s IH]; [done|]. cbn. by f_equal. Qed.

Lemma words_plain v r w : chars_all safe v = true -> shell_words (v +:+ r) (Word w) = shell_words r (Word (w +:+ v)).
Proof.
revert w. induction v as [|a v IH]; intros w; cbn; [by rewrite app_empty|]. intros [Ha Hv]%andb_prop.
destruct (safe_plain a Ha) as (-> & -> & -> & ->). cbn. by rewrite IH, snoc_app.
Qed.
Lemma words_quoted v r w : shell_words (replace_char "'" "'\''" v +:+ String "'" r) (Quoted w) = shell_words r (Word (w +:+ v)).
Proof.
revert w. induction v as [|a v IH]; intros w; [cbn; by rewrite app_empty|].
change (replace_char "'" "'\''" (String a v)) with
(if Ascii.eqb "'" a then "'\''" +:+ replace_char "'" "'\''" v else String a (replace_char "'" "'\''" v)).
rewrite <- (snoc_app w a v), <- IH. destruct (Ascii.eqb "'" a) eqn:E.
- apply Ascii.eqb_eq in E. by subst a.
- transitivity (shell_words (replace_char "'" "'\''" v +:+ String "'" r) (if Ascii.eqb a "'" then Word w else Quoted (snoc w a))); [done|].
by rewrite Ascii.eqb_sym, E.
Qed.

(** A quoted argument is read as one word. *)
Lemma words_argument v r : v <> "" -> shell_words (shell_quote v +:+ r) Blank = shell_words r (Word v).
Proof.
intros Hv. unfold shell_quote. fold safe. change (fun ch => is_ascii_alphanumeric ch || char_in ch "-_./:=@") with safe.
destruct (chars_all safe v) eqn:E.
- destruct v as [|a v]; [done|]. cbn in *. apply andb_prop in E as [Ha E]. destruct (safe_plain a Ha) as (-> & -> & -> & ->).
by rewrite words_plain.
- cbn. rewrite !append_assoc. cbn. by rewrite words_quoted.
Qed.

Definition not_empty (s : string) : bool := negb (String.eqb s "").
(** The printed arguments, each after a space. *)
Fixpoint plan_tail (args : list string) : string :=
match args with [] => "" | a :: args' => String " " (shell_quote a +:+ plan_tail args') end.
Lemma join_plan x args : join " " (x :: map shell_quote args) = x +:+ plan_tail args.
Proof.
revert x. induction args as [|y args IH]; intros x; [cbn; by rewrite app_empty|].
change (x +:+ " " +:+ join " " (shell_quote y :: map shell_quote args) = x +:+ plan_tail (y :: args)). by rewrite IH.
Qed.

(** The words read so far. *)
Definition read_so_far (st : Reading) : option (list string) := match st with Blank => Some [] | Word w => Some [w] | _ => None end.
Lemma words_plan args : forall st l, read_so_far st = Some l -> shell_words (plan_tail args) st = Some (l ++ List.filter not_empty args)%list.
Proof.
induction args as [|a args IH]; intros st l Hl; [cbn [plan_tail List.filter]; by rewrite app_nil_r|].
assert (shell_words (shell_quote a +:+ plan_tail args) Blank = Some (List.filter not_empty (a :: args))) as Ha.
{ cbn [List.filter]. unfold not_empty at 1. destruct (String.eqb a "") eqn:E; cbn [negb].
- apply String.eqb_eq in E. subst a. by apply (IH Blank []).
- apply String.eqb_neq in E. rewrite words_argument by done. by apply (IH (Word a) [a]). }
destruct st as [|w| |]; [| |done..]; injection Hl as <-.
- exact Ha.
- change (shell_words (plan_tail (a :: args)) (Word w)) with (l ← shell_words (shell_quote a +:+ plan_tail args) Blank; Some (w :: l)).
by rewrite Ha.
Qed.

(** C40. A printed command, pasted into a shell, runs the command that would be
sent: the shell reads the tool and its arguments back one by one, whatever
characters they hold. An empty argument is the exception: it is lost. *)
Theorem plan_reads_back args : shell_words (display args) Blank = Some ("near" :: List.filter not_empty args).
Proof.
unfold display. rewrite join_plan. by apply (words_plan args (Word "near") ["near"]).
Qed.

(** ** Defaults from the bootstrap file *)
Lemma elem_dedup x l : x ∈ dedup l <-> x ∈ l.
Proof.
induction l as [|y l IH]; [done|]. cbn [dedup]. destruct l as [|z l]; [done|]. destruct (String.eqb y z) eqn:E.
- apply String.eqb_eq in E. subst z. rewrite IH. set_solver.
- rewrite elem_of_cons, IH, (elem_of_cons (z :: l)). done.
Qed.
Lemma dedup_same x l : l <> [] -> (forall y, y ∈ l -> y = x) -> dedup l = [x].
Proof.
induction l as [|y l IH]; [done|]. intros _ Hl. rewrite (Hl y) by set_solver. cbn [dedup]. destruct l as [|z l]; [done|].
rewrite (proj2 (String.eqb_eq x z)) by (symmetry; apply Hl; set_solver). apply IH; [done|]. intros w Hw. apply Hl. set_solver.
Qed.
Lemma sorted_distinct_one x l : sorted_distinct l = [x] <-> l <> [] /\ forall y, y ∈ l -> y = x.
Proof.
unfold sorted_distinct. pose proof (merge_sort_Permutation string_le l) as HP. split.
- intros E. split.
+ intros ->. done.
+ intros y Hy. rewrite <- HP, <- elem_dedup, E in Hy. by apply list_elem_of_singleton in Hy.
- intros [Hne Hl]. apply dedup_same.
+ intros E. rewrite E in HP. by apply Permutation_nil in HP.
+ intros y Hy. apply Hl. by rewrite <- HP.
Qed.

(** A default is taken from the bootstrap file only if all its entries agree. *)
Lemma resolve_validator_id_spec arg config v : let ids := omap (fun v => non_empty (Some (ValidatorConfig.validator_id v))) (BootstrapConfig.validators config) in
resolve_validator_id arg config = mret v <->
match non_empty arg with Some w => w = v | None => ids <> [] /\ forall id, id ∈ ids -> id = v end.
Proof.
cbv zeta. unfold resolve_validator_id. destruct (non_empty arg) as [w|]; [split; [by intros [=]|by intros ->]|].
rewrite <- sorted_distinct_one. destruct (sorted_distinct _) as [|x [|y l]]; (split; [try by intros [=]|]); try done; [by intros [= ->]|by intros [= ->]].
Qed.

(** ** Metadata of a price *)

(** The keys of every object are distinct. *)
Fixpoint wf (v : Value) : Prop :=
match v with
| Array l => (fix go l := match l with [] => True | x :: l' => wf x /\ go l' end) l
| Object m => NoDup (map fst m) /\ (fix go m := match m with [] => True | (_, x) :: m' => wf x /\ go m' end) m
| _ => True
end.

Lemma map_get_mid {A} k (v : A) pre m : k ∉ map fst pre -> map_get k (pre ++ (k, v) :: m) = Some v.
Proof.
induction pre as [|[k' v'] pre IH]; cbn; intros Hk; [by rewrite String.eqb_refl|].
destruct (String.eqb k k') eqn:E; [apply String.eqb_eq in E; set_solver|]. apply IH. set_solver.
Qed.

Lemma value_eqb_refl v : wf v -> value_eqb v v = true.
Proof.
revert v. fix IH 1. intros [|b|raw|str|l|m]; cbn; [done | intros _; by destruct b | intros _; apply String.eqb_refl.. | |].
- induction l as [|x l IHl]; [done|]. intros [Hx Hl]. rewrite (IH x Hx). by apply IHl.
- rewrite Nat.eqb_refl. cbn. intros [Hnd Hm].
assert (forall pre m', m = (pre ++ m')%list -> NoDup (map fst m) ->
(fix go m := match m with [] => True | (_, x) :: m' => wf x /\ go m' end) m' ->
(fix go l := match l with [] => true
| (k, a) :: l' => match map_get k m with Some b => value_eqb a b | None => false end && go l' end) m' = true) as H; [|by apply (H [])].
clear Hnd Hm. intros pre m'. revert pre. induction m' as [|[k x] m' IHm]; [done|]. intros pre E Hnd [Hx Hm].
assert (map_get k m = Some x) as ->.
{ rewrite E. apply map_get_mid. rewrite E, map_app in Hnd. cbn in Hnd. apply NoDup_app in Hnd. set_solver. }
rewrite (IH x Hx). cbn. apply (IHm (pre ++ [(k, x)])%list); [by rewrite <- app_assoc | done | done].
Qed.

Section metadata.
Context `{CR : Crates}.

Definition metadata (a b : Value) : Value := Object [("max_amount", a); ("farm_reward_rate", b)].

Lemma canonical_form v r : canonical_metadata_value v = Ret (Good r) -> r = None \/ exists a b, r = Some (metadata a b).
Proof.
destruct v as [[|b|raw|str|l|m]|]; cbn; try discriminate; try (intros [= <-]; by left).
generalize (map fst m). intros ks. induction ks as [|k ks IH]; cbn; [intros [= <-]; right; by eexists _, _|].
destruct (metadata_key k); cbn; [apply IH | discriminate].
Qed.

Lemma update_form stored expected id u : price_metadata_update stored expected id = Ret (Good u) ->
(canonical_metadata_value expected = mret None /\ u = Null) \/
(exists a b b', canonical_metadata_value expected = mret (Some (metadata a b)) /\ u = metadata a b' /\
(is_null b = false -> b' = b)).
Proof.
unfold price_metadata_update. destruct (canonical_metadata_value (get stored "metadata")) as [[r| |]|] eqn:Ea; try done. cbn.
destruct (canonical_metadata_value expected) as [[x| |]|] eqn:Ex; try done. cbn.
apply canonical_form in Ea, Ex. destruct Ex as [->|(a & b & ->)].
- destruct Ea as [->|(a & b & ->)]; cbn; [|done]. intros [= <-]. by left.
- intros H. right. exists a, b. revert H. destruct Ea as [->|(a0 & b0 & ->)]; cbn; [intros [= <-]; by exists b|].
destruct b; cbn; try (intros [= <-]; eexists; split_and!; [done | reflexivity | done]).
destruct (is_null b0); cbn; intros [= <-]; eexists; (split_and!; [done | reflexivity | done]).
Qed.

(** Bringing the metadata of a price in line with the bootstrap file is done
after one edit: once the update of a price is stored, the price matches the
file, and another run computes the same update. A reward rate the file
leaves out is kept. *)
Theorem metadata_sync_converges stored stored' expected id u : price_metadata_update stored expected id = mret u -> wf u ->
get stored' "metadata" = Some u ->
metadata_matches stored' expected = true /\ price_metadata_update stored' expected id = mret u.
Proof.
intros Hu Hwf Hs. assert (forall i, price_metadata_update stored' expected i = mret u) as Hi.
{ intros i. unfold price_metadata_update. rewrite Hs. destruct (update_form _ _ _ _ Hu) as [[Ex ->]|(a & b & b' & Ex & -> & Hb)]; rewrite Ex; cbn; [done|].
destruct b; cbn; try (by rewrite (Hb eq_refl)). destruct b'; cbn; done. }
split; [|apply Hi]. unfold metadata_matches. rewrite Hi, Hs. cbn.
destruct (update_form _ _ _ _ Hu) as [[_ ->]|(a & b & b' & _ & -> & _)]; [done|].
exact (value_eqb_refl _ Hwf).
Qed.
End metadata.



Section listing.
Context `{CR : Crates} (h : forall s, sys_ret s) (n : Network) (account : string) (product : ProductConfig.t) (items : list Value).

(** [near] answers the pages of a listing. *)
Definition page_from (from_index : Z) : list Value := take 200 (drop (Z.to_nat from_index) items).
Definition answers_pages : Prop := forall from_index, (0 <= from_index)%Z -> exists out err,
h (NearOutput (view_args n account "get_products" (json_text (products_args from_index)))) = Some (mkOutput true out err) /\
json_parse (trim out) = Some (Array (page_from from_index)).

Context (Hh : answers_pages).



End listing.


End CliTheorems.
