(* ===== verification/Instances.v ===== *)
(** * Concrete hosts for the examples

    The theorems hold for every implementation of what the contracts take from
    outside the repository. The examples run the contracts on small concrete
    ones: a rolling checksum for SHA-256, an injective serialization of
    accounts, a finite set for [IterableSet], a binary text of JSON values. Each satisfies the laws the
    theorems ask for. *)
From stdpp Require Import base gmap strings list countable.
From Stdlib Require Import ZArith Lia Ascii.
From S2P Require Import Prelude.
From S2P Require Import Near.
From S2P Require Import Common.
From S2P Require Import MerkleTree.
From S2P Require Import VenearContract.
From S2P Require Import VotingTypes.
From S2P Require Import VotingContract.
From S2P Require Import LockupContract.
From S2P Require Import CliText.
From S2P Require Import Events.

Local Open Scope Z_scope.

(** ** Hash and serialization *)
#[export] Instance checksum : Crypto := fun x =>
  foldl (fun h b => (h * 16777619 + b + 1) mod 2 ^ 61) 1099511628211 x :: replicate 31 0.

#[export] Instance checksum_laws : CryptoLaws checksum.
Proof. intros x. reflexivity. Qed.

Definition word (s : string) : Z := Z.pos (encode s).

Definition entry_words (ds : list DelegationEntry) : bytes :=
  flat_map (fun d => [word (delegate_id d); bps d]) ds.

Definition balance_words (b : VenearBalance) : bytes := [near_balance b; extra_venear_balance b].

#[export] Instance account_words : Borsh VAccount := fun v =>
  match v with
  | V0 a => 0 :: word (v0_account_id a) :: v0_update_timestamp a :: balance_words (v0_balance a) ++
            balance_words (pool (v0_delegated_balance a)) ++
            match v0_delegation a with Some d => [word (delegation_account_id d)] | None => [] end
  | V1 a => 1 :: word (account_id a) :: update_timestamp a :: balance_words (balance a) ++
            balance_words (pool (delegated_balance a)) ++ entry_words (delegations a)
  end.

Lemma entry_words_inj ds1 ds2 : entry_words ds1 = entry_words ds2 -> ds1 = ds2.
Proof.
  revert ds2. induction ds1 as [|[i b] ds1 IH]; intros [|[i' b'] ds2]; cbn; try done.
  intros H. injection H as H1 H2 H3. apply (inj encode) in H1. apply IH in H3. by subst.
Qed.

#[export] Instance account_words_laws : BorshLaws VAccount account_words.
Proof.
  intros [[i1 t1 [n1 x1] [[p1 q1]] d1]|[i1 t1 [n1 x1] [[p1 q1]] d1]]
         [[i2 t2 [n2 x2] [[p2 q2]] d2]|[i2 t2 [n2 x2] [[p2 q2]] d2]]; unfold borsh_to_vec, account_words; try discriminate;
    cbn [v0_account_id v0_update_timestamp v0_balance v0_delegated_balance v0_delegation account_id update_timestamp
         balance delegated_balance delegations pool balance_words near_balance extra_venear_balance app].
  - destruct d1 as [[d1]|], d2 as [[d2]|]; intros H; try (by injection H).
    + injection H as H1 H2 H3 H4 H5 H6 H7. apply (inj encode) in H1, H7. by subst.
    + injection H as H1 H2 H3 H4 H5 H6. apply (inj encode) in H1. by subst.
  - intros H. injection H as H1 H2 H3 H4 H5 H6 H7%entry_words_inj. apply (inj encode) in H1. by subst.
Qed.

(** ** The host of veNEAR *)
Definition hex_digit (b : Z) : string :=
  String (Ascii.ascii_of_nat (97 + Z.to_nat (b mod 16))) (String (Ascii.ascii_of_nat (97 + Z.to_nat (b / 16 mod 16))) "").

Definition short_id (s : string) : bool := (2 <=? String.length s)%nat && (String.length s <=? 64)%nat.

#[export] Instance venear_host : VenearHost := {|
  vh_crypto := checksum;
  vh_borsh := account_words;
  hex_encode := fun bs => String.concat "" (map hex_digit bs);
  VenearContract.is_valid_account_id := short_id;
  storage_usage := fun c => 300 * Z.of_nat (size (internals c)) +
    map_fold (fun _ v n => n + Z.of_nat (length (borsh_to_vec v))) 0 (data (tree c))
|}.

(** ** The host of the voting contract *)
#[export] Instance gset_iterable : IterableSet := {|
  iset := gset ProposalId;
  is_new := ∅;
  is_iter := elements;
  is_insert := fun x s => {[x]} ∪ s;
  is_remove := fun x s => s ∖ {[x]}
|}.

#[export] Instance gset_iterable_laws : IterableSetLaws gset_iterable.
Proof.
  split; cbn.
  - apply elements_empty.
  - intros s. apply NoDup_elements.
  - intros x y s. rewrite !elem_of_elements. set_solver.
  - intros x y s. rewrite !elem_of_elements. set_solver.
Qed.

#[export] Instance voting_host : VotingHost := {|
  sandbox_feature := false;
  vt_storage_usage := fun c => 200 * vec_len (proposals c) + 40 * Z.of_nat (size (vote_records c))
|}.

(** ** The host of the lockup contract *)
#[export] Instance lockup_host : LockupHost := short_id.

(** ** Running a method on a concrete state *)
Section running.
Context {Eff S A : Type}.

(** The state after a call, which is unchanged when the call panics, and
what the call leaves behind. *)
Definition after (m : M Eff S A) (e : Env) (s : S) : S :=
match m e s with Ok (_, s', _) => s' | Panic _ => s end.
Definition effects (m : M Eff S A) (e : Env) (s : S) : list Eff :=
match m e s with Ok (_, _, es) => es | Panic _ => [] end.

Lemma ran (m : M Eff S A) e s : is_ok (m e s) = true -> exists a, m e s = Ok (a, after m e s, effects m e s).
Proof. unfold after, effects. destruct (m e s) as [[[a s'] es]|]; [eauto | done]. Qed.
End running.

Lemma ran_unit {Eff S} (m : M Eff S unit) e s : is_ok (m e s) = true -> m e s = Ok (tt, after m e s, effects m e s).
Proof. intros H. by destruct (ran m e s H) as [[] ->]. Qed.

(** ** Times, amounts and callers of the examples *)
Definition NEAR : Z := 10 ^ 24.
Definition day : Z := 86400 * NS_PER_SEC.

(** The block of height [h] is produced at second [h] of 2025. *)
Definition at_block (who me : AccountId) (dep h : Z) (results : list PromiseResult) : Env :=
  mkEnv who me who dep ((1735689600 + h) * NS_PER_SEC) h (100 * NEAR) (10 ^ 19) (300 * 10 ^ 12) results (h / 43200 + 1) (300 * 10 ^ 12).

Definition rate6 : VenearGrowthConfigFixedRate := mkFixedRate (mkFraction 1902587519026 (10 ^ 30)).

Lemma at_block_ok who me dep h rs : 0 <= dep <= U128_MAX -> 0 <= h <= 10 ^ 9 -> env_ok (at_block who me dep h rs).
Proof. unfold env_ok, at_block, NEAR, NS_PER_SEC, U64_MAX, U128_MAX. cbn. lia. Qed.

(** ** A text of JSON values: the bits of the code of a tree *)
Module BitText.
Import Json.

Fixpoint value_tree (v : Value) : gen_tree string :=
match v with
| Null => GenNode 0 []
| Bool false => GenNode 1 []
| Bool true => GenNode 2 []
| Number s => GenNode 3 [GenLeaf s]
| Str s => GenNode 4 [GenLeaf s]
| Array l => GenNode 5 (map value_tree l)
| Object m => GenNode 6 (map (fun x => GenNode 7 [GenLeaf (fst x); value_tree (snd x)]) m)
end.

Fixpoint tree_value (t : gen_tree string) : Value :=
match t with
| GenNode 1 _ => Bool false
| GenNode 2 _ => Bool true
| GenNode 3 [GenLeaf s] => Number s
| GenNode 4 [GenLeaf s] => Str s
| GenNode 5 l => Array (map tree_value l)
| GenNode 6 m => Object (map (fun t => match t with GenNode 7 [GenLeaf k; x] => (k, tree_value x) | _ => ("", Null) end) m)
| _ => Null
end%string.

(** Induction over a value and the values in it. *)
Lemma value_rect' (P : Value -> Prop) : P Null -> (forall b, P (Bool b)) -> (forall s, P (Number s)) ->
(forall s, P (Str s)) -> (forall l, Forall P l -> P (Array l)) ->
(forall m, Forall (fun x => P (snd x)) m -> P (Object m)) -> forall v, P v.
Proof.
intros H0 H1 H2 H3 H4 H5. fix IH 1. intros [|b|s|s|l|m]; [done | apply H1 | apply H2 | apply H3 | |].
- apply H4. induction l; constructor; [apply IH | done].
- apply H5. induction m; constructor; [apply IH | done].
Qed.

Lemma tree_value_tree v : tree_value (value_tree v) = v.
Proof.
induction v as [|[]| | |l IH|m IH] using value_rect'; try done; cbn; f_equal; induction IH as [|x l' Hx _ IH]; try done; cbn.
- by rewrite Hx, IH.
- rewrite Hx, IH. by destruct x.
Qed.

Fixpoint bits (p : positive) : string :=
match p with xH => "" | xO p => String "0"%char (bits p) | xI p => String "1"%char (bits p) end%string.
Fixpoint unbits (s : string) : positive :=
match s with
| "" => xH
| String a s' => if Ascii.eqb a "0"%char then xO (unbits s') else xI (unbits s')
end%string.
Lemma unbits_bits p : unbits (bits p) = p.
Proof. induction p; cbn; congruence. Qed.

#[export] Instance text : JsonText := {|
to_string v := bits (encode (value_tree v));
from_str s := tree_value <$> decode (unbits s)
|}.

#[export] Instance text_laws : JsonTextLaws text.
Proof. intros v _. cbn. rewrite unbits_bits, decode_encode. cbn. by rewrite tree_value_tree. Qed.
End BitText.
