(* ===== verification/UnitTest.v ===== *)
(** * Unit tests of the repository, run on the model

    The unit tests under src/ are programs that call the contract in a mocked
    host. A test is here a computation on the mocked context and the contract;
    it passes when it ends without a panic or, for [#[should_panic]], when it
    panics with a message that contains the expected text. The fixtures are
    those of common/src/test_utils.rs. *)
From stdpp Require Import base gmap strings list.
From Stdlib Require Import ZArith.
From S2P Require Import Prelude.
From S2P Require Import Near.
From S2P Require Import Common.
From S2P Require Import MerkleTree.
From S2P Require Import Instances.

Local Open Scope Z_scope.

(** ** The test monad *)
Definition Test (S A : Type) : Type := Env * S -> result (A * (Env * S)).

#[export] Instance Test_ret {S} : MRet (Test S) := fun A a h => Ok (a, h).
#[export] Instance Test_bind {S} : MBind (Test S) := fun A B f m h =>
  match m h with Ok (a, h') => f a h' | Panic msg => Panic msg end.

Section test.
Context {S : Type}.

(** A call of a method; the receipts it leaves behind are not executed, as in
a mocked host. *)
Definition call {Eff A} (m : M Eff S A) : Test S A := fun '(e, s) =>
match m e s with Ok (a, s', _) => Ok (a, (e, s')) | Panic msg => Panic msg end.
(** The receipts of a call, for a test that inspects what a method returns. *)
Definition receipts {Eff A} (m : M Eff S A) : Test S (list Eff) := fun '(e, s) =>
match m e s with Ok (_, s', es) => Ok (es, (e, s')) | Panic msg => Panic msg end.
Definition view {A} (f : Env -> S -> result A) : Test S A := fun '(e, s) =>
match f e s with Ok a => Ok (a, (e, s)) | Panic msg => Panic msg end.
Definition the_contract : Test S S := fun '(e, s) => Ok (s, (e, s)).
Definition set_contract (s' : S) : Test S unit := fun '(e, _) => Ok (tt, (e, s')).
Definition pure {A} (r : result A) : Test S A := fun h => match r with Ok a => Ok (a, h) | Panic msg => Panic msg end.
Definition unwrap {A} (o : option A) : Test S A := pure (expect o "called `Option::unwrap()` on a `None` value").

(** [testing_env!]. *)
Definition testing_env (e : Env) : Test S unit := fun '(_, s) => Ok (tt, (e, s)).

Definition assert (b : bool) : Test S unit := pure (if b then Ok tt else Panic "assertion failed").
Definition assert_eq {A} `{EqDecision A} (x y : A) : Test S unit := assert (bool_decide (x = y)).
Definition assert_ne {A} `{EqDecision A} (x y : A) : Test S unit := assert (negb (bool_decide (x = y))).

Fixpoint each {A} (l : list A) (body : A -> Test S unit) : Test S unit :=
match l with [] => mret tt | x :: l' => body x ≫= fun _ => each l' body end.
Fixpoint collect {A B} (l : list A) (body : A -> Test S B) : Test S (list B) :=
match l with [] => mret [] | x :: l' => y ← body x; ys ← collect l' body; mret (y :: ys) end.
End test.

Definition contains (part text : string) : bool := if String.index 0 part text then true else false.

(** A test with the text it must panic with, if it must. *)
Definition passes {S} (start : Env * S) (t : option string * Test S unit) : bool :=
  match t.1, t.2 start with
  | None, Ok _ => true
  | Some part, Panic msg => contains part msg
  | _, _ => false
  end.

(** [VMContextBuilder]: the defaults of near-sdk, and the fields the tests set. *)
Definition vm_context (current signer predecessor : AccountId) (deposit timestamp height : Z) (results : list PromiseResult) : Env :=
  mkEnv predecessor current signer deposit timestamp height (10 ^ 26) (10 ^ 19) (3 * 10 ^ 14) results 0 (3 * 10 ^ 14).

(** ** Fixtures: common/src/test_utils.rs *)
Definition acc (id : string) : AccountId := id.
Definition current_account : AccountId := acc "vote.near".
Definition voter : AccountId := acc "voter.near".
Definition reviewer : AccountId := acc "reviewer.near".
Definition proposer : AccountId := acc "proposer.near".
Definition owner : AccountId := acc "owner.near".
Definition council : AccountId := acc "council.near".
Definition guardian : AccountId := acc "guardian.near".
Definition for_voter : AccountId := acc "for-voter.near".
Definition against_voter : AccountId := acc "against-voter.near".
Definition abstain_voter : AccountId := acc "abstain-voter.near".

Definition from_near (n : Z) : NearToken := n * 10 ^ 24.
Definition from_millinear (n : Z) : NearToken := n * 10 ^ 21.

Definition fixed_rate_growth_config : VenearGrowthConfigFixedRate := mkFixedRate (mkFraction 1902587519026 (10 ^ 30)).
Definition growth_config : VenearGrowthConfig := FixedRate fixed_rate_growth_config.
Definition LOCK_AGE_NS : Z := 86400 * 1000000000.

Record VoterSpec : Type := mkVoterSpec { vs_account_id : AccountId; vs_near_balance : NearToken; vs_extra : NearToken }.
Definition new_voter (account_id : AccountId) (near_balance : NearToken) : VoterSpec := mkVoterSpec account_id near_balance 0.

Record SnapshotFixture : Type := mkFixture {
  fx_snapshot : MerkleTreeSnapshot;
  fx_vgs : VGlobalState;
  fx_proofs : gmap AccountId (MerkleProof * VAccount)
}.

Definition make_v_account (account_id : AccountId) (near_balance extra : NearToken) (at_timestamp_ns : TimestampNs) : VAccount :=
  V1 (mkAccount account_id at_timestamp_ns (mkBalance near_balance extra) Pool.default []).

Section fixtures.
Context {S : Type}.

Definition set_ctx (predecessor : AccountId) (attached_deposit_yocto block_ts_ns : Z) : Test S unit :=
testing_env (vm_context "alice.near" predecessor predecessor attached_deposit_yocto block_ts_ns 0 []).

Definition proof_for (fixture : SnapshotFixture) (account_id : AccountId) : Test S (MerkleProof * VAccount) :=
pure (expect (fx_proofs fixture !! account_id) "voter missing from fixture").

(** The loop that fills the tree, and the one that takes the proofs. *)
Fixpoint fill (lock_ts : Z) (voters : list VoterSpec) (tree : MerkleTree VAccount VGlobalState) (v_accounts : gmap AccountId VAccount)
: result (MerkleTree VAccount VGlobalState * gmap AccountId VAccount) :=
match voters with
| [] => mret (tree, v_accounts)
| spec :: rest =>
let v := make_v_account (vs_account_id spec) (vs_near_balance spec) (vs_extra spec) lock_ts in
'(_, tree) ← set 0 (vs_account_id spec) v tree;
fill lock_ts rest tree (<[vs_account_id spec := v]> v_accounts)
end.

Fixpoint take_proofs (voters : list VoterSpec) (tree : MerkleTree VAccount VGlobalState) (v_accounts : gmap AccountId VAccount)
(proofs : gmap AccountId (MerkleProof * VAccount)) : result (gmap AccountId (MerkleProof * VAccount)) :=
match voters with
| [] => mret proofs
| spec :: rest =>
o ← get_proof (vs_account_id spec) tree;
p ← expect o "proof";
v ← expect (v_accounts !! vs_account_id spec) "called `Option::unwrap()` on a `None` value";
take_proofs rest tree (delete (vs_account_id spec) v_accounts) (<[vs_account_id spec := (p.1, v)]> proofs)
end.

Definition snapshot_with_voters_at (voters : list VoterSpec) (total_venear : NearToken) (now_ns : Z) (ctx_account : AccountId)
: Test S SnapshotFixture :=
let eval_ns := now_ns / 1000000000 * 1000000000 in
lock_ts ← pure (u64_sub eval_ns LOCK_AGE_NS);
total_balance ← pure (Pool.pooled_add Pool.default (VenearBalance.from_near total_venear));
let vgs := GV0 (mkGlobal lock_ts total_balance growth_config) in
_ ← set_ctx ctx_account 0 now_ns;
'(tree, v_accounts) ← pure (fill lock_ts voters (MerkleTree.new 0 vgs) ∅);
proofs ← pure (take_proofs voters tree v_accounts ∅);
_ ← testing_env (vm_context "alice.near" "bob.near" "bob.near" 0 0 1 []);
snap ← pure (expect (get_snapshot 1 tree) "snapshot");
mret (mkFixture snap.1 vgs proofs).
End fixtures.
