(* ===== verification/VotingTests.v ===== *)
(** * Unit tests of the voting contract, the common crate and the Merkle tree

    The files of voting-contract/src/unit_tests test by test, with [contract]
    as the state of the test, and the tests of common/src/bps.rs, types.rs,
    account.rs, utils.rs, of merkle-tree/src/lib.rs and of
    voting-contract/src/proposal.rs. *)
From stdpp Require Import base gmap strings list sorting pretty.
From Stdlib Require Import ZArith.
From S2P Require Import Prelude.
From S2P Require Import Near.
From S2P Require Import Common.
From S2P Require Import MerkleTree.
From S2P Require Import VotingTypes.
From S2P Require Import VotingContract.
From S2P Require Import StakingMath.
From S2P Require Import Instances.
From S2P Require Import UnitTest.

Local Open Scope Z_scope.

(** ** Fixtures: voting-contract/src/unit_tests/test_utils.rs *)
Module VotingFixtures.

(** [IterableSet] of near-sdk keeps its elements in a vector: an insertion goes
to the end, a removal puts the last element in the place of the removed one. *)
Definition swap_remove (x : ProposalId) (l : list ProposalId) : list ProposalId :=
match list_find (fun y => y = x) l, last l with
| Some (i, _), Some z => take (length l - 1) (<[i := z]> l)
| _, _ => l
end.
#[export] Instance vector_set : IterableSet := {|
iset := list ProposalId;
is_new := [];
is_iter := fun l => l;
is_insert := fun x l => if bool_decide (x ∈ l) then l else l ++ [x];
is_remove := swap_remove
|}.
#[export] Instance test_host : VotingHost (IS := vector_set) := {|
sandbox_feature := false;
vt_storage_usage := fun c => 200 * vec_len (proposals c) + 40 * Z.of_nat (size (vote_records c))
|}.

Abbreviation T := (Test (Voting (IS := vector_set))).

Definition TEST_NOW_NS : Z := 1780272000000000000.
Definition DAY : Z := 24 * 3600 * 1000000000.

Definition default_config : VConfig.t := {|
VConfig.venear_account_id := acc "venear.test.near";
VConfig.reviewer_ids := [reviewer];
VConfig.council_ids := [council];
VConfig.owner_account_id := owner;
VConfig.classic_voting_duration_ns := 14 * DAY;
VConfig.fast_track_voting_duration_ns := 5 * DAY;
VConfig.timelock_duration_ns := 14 * DAY;
VConfig.base_proposal_fee := from_near 1;
VConfig.bond_amount := from_near 100;
VConfig.treasury_account_id := acc "treasury.test.near";
VConfig.vote_storage_fee := from_millinear 10;
VConfig.guardians := [guardian];
VConfig.classic_proposal_expiration_ns := 7 * DAY;
VConfig.fast_track_proposal_expiration_ns := 2 * DAY;
VConfig.proposed_new_owner_account_id := None;
VConfig.quorum_threshold_bps := 3500;
VConfig.quorum_floor := 0;
VConfig.approval_threshold_bps := 5000;
VConfig.simple_majority_threshold_bps := 5000;
VConfig.strong_majority_threshold_bps := 6667;
VConfig.sandbox_duration_ns := 7 * DAY;
VConfig.sandbox_threshold_bps := 3000;
VConfig.max_active_proposals := 3
|}.

Definition fresh_contract : T unit :=
_ ← set_ctx proposer 0 TEST_NOW_NS;
set_contract (new_voting default_config).

Definition snapshot_with_voters (voters : list VoterSpec) (total_venear : NearToken) : T SnapshotFixture :=
snapshot_with_voters_at voters total_venear TEST_NOW_NS reviewer.

Definition voting_power (near_balance : NearToken) : T NearToken :=
let account := account_from (make_v_account voter near_balance 0 (TEST_NOW_NS - LOCK_AGE_NS)) in
pure (Account.total_balance account TEST_NOW_NS growth_config).

(** Views of the contract in the current context. *)
Definition get_config : T VConfig.t := c ← the_contract; mret (v_config c).
Definition is_paused : T bool := c ← the_contract; mret (v_paused c).
Definition set_paused (b : bool) : T unit := c ← the_contract; set_contract (with_v_paused c b).
Definition get_queue_state : T QueueState := view (fun e c => VotingContract.get_queue_state (block_timestamp e) c).
Definition get_proposal (id : ProposalId) : T (option ProposalInfo) :=
view (fun e c => VotingContract.get_proposal (block_timestamp e) c id).
Definition get_proposals (from_index : Z) (limit : option Z) : T (list ProposalInfo) :=
view (fun e c => VotingContract.get_proposals (block_timestamp e) c from_index limit).
Definition get_num_proposals : T Z := c ← the_contract; mret (VotingContract.get_num_proposals c).
Definition get_vote (account_id : AccountId) (id : ProposalId) : T (option Z) := c ← the_contract; mret (VotingContract.get_vote c account_id id).
Definition next_voting_start_ns (after_ns : Z) : T Z := pure (VotingTypes.next_voting_start_ns false after_ns).

(** [contract.proposals.get(id).cloned().unwrap().into()]. *)
Definition read_raw (id : ProposalId) : T Proposal :=
c ← the_contract; v ← unwrap (vec_get (proposals c) id); pure (proposal_from v).

Definition proposer_deposit_yocto : Z := from_near 200.
Definition over_deposit_yocto : Z := from_near 200.
Definition vote_deposit_yocto : Z := from_millinear 10.
Definition proposal_metadata (title : string) : ProposalMetadata := mkMetadata (Some title) None None.

Definition create_proposal (flow : ProposalFlow) : T ProposalId :=
_ ← set_ctx proposer proposer_deposit_yocto TEST_NOW_NS;
call (VotingContract.create_proposal (proposal_metadata "test proposal") None flow).

(** A call of the contract to itself. A test calls a callback directly and
passes the awaited result as an argument: the promise has succeeded. *)
Definition self_ctx (attached_deposit_yocto block_ts_ns : Z) : T unit :=
testing_env (vm_context current_account "bob.near" current_account attached_deposit_yocto block_ts_ns 0 [Successful]).

Definition on_get_snapshot (fixture : SnapshotFixture) (id : ProposalId) : T ProposalInfo :=
call (VotingContract.on_get_snapshot (fx_snapshot fixture, fx_vgs fixture) id).

Definition approve_proposal (id : ProposalId) (snapshot : option SnapshotFixture) : T unit :=
o ← get_proposal id;
info ← pure (expect o "proposal exists");
let majority := match flow (info_proposal info) with Classic => None | FastTrack => Some MajorityType.Simple end in
_ ← set_ctx reviewer 1 TEST_NOW_NS;
_ ← call (VotingContract.approve_proposal id majority);
match snapshot with
| Some fixture => _ ← self_ctx 0 TEST_NOW_NS; _ ← on_get_snapshot fixture id; mret tt
| None => mret tt
end.

Definition cast_vote_at (fixture : SnapshotFixture) (voter_id : AccountId) (proposal_id : ProposalId) (option : VoteOption.t) (at_ns : Z) : T unit :=
'(proof, v_account) ← proof_for fixture voter_id;
_ ← set_ctx voter_id vote_deposit_yocto at_ns;
call (VotingContract.vote proposal_id option proof v_account).
Definition cast_vote (fixture : SnapshotFixture) (voter_id : AccountId) (proposal_id : ProposalId) (option : VoteOption.t) : T unit :=
cast_vote_at fixture voter_id proposal_id option TEST_NOW_NS.

Definition status_at (id : ProposalId) (at_ns : Z) : T ProposalStatus.t :=
_ ← set_ctx voter 0 at_ns;
o ← get_proposal id; info ← pure (expect o "proposal"); mret (status (info_proposal info)).

Definition all_statuses_at (at_ns : Z) : T (list ProposalStatus.t) :=
_ ← set_ctx voter 0 at_ns;
l ← get_proposals 0 None; mret (map (fun p => status (info_proposal p)) l).

Definition assert_active_with_status (id : ProposalId) (expected : ProposalStatus.t) : T unit :=
_ ← assert (is_active_status expected);
state ← get_queue_state;
_ ← assert (bool_decide (id ∈ qs_active_proposals state));
o ← get_proposal id; info ← pure (expect o "proposal exists");
assert_eq (status (info_proposal info)) expected.

Definition assert_queued_at (id : ProposalId) (position : Z) : T unit :=
state ← get_queue_state;
_ ← assert_eq (qs_pending_queue state !! Z.to_nat position) (Some id);
o ← get_proposal id; info ← pure (expect o "proposal exists");
_ ← assert_eq (status (info_proposal info)) ProposalStatus.Queued;
assert (negb (bool_decide (id ∈ qs_active_proposals state))).

(** Midnight of a date, one hour east of Greenwich. *)
Definition date_ns (year month day : Z) : Z := (days_from_civil year month day * 86400 - 3600) * 1000000000.

(** The context and the contract before a test sets them. *)
Definition start : Env * Voting := (vm_context "alice.near" "bob.near" "bob.near" 0 0 0 [], new_voting default_config).
End VotingFixtures.

(** ** unit_tests/proposal.rs *)
Module ProposalTests.
Import VotingFixtures.

Definition approve_classic_proposal_moves_to_voting_status : T unit :=
fixture ← snapshot_with_voters [new_voter for_voter (from_near 100)] (from_near 1000); fresh_contract ;; id ← create_proposal Classic;
approve_proposal id (Some fixture) ;; x4 ← status_at id TEST_NOW_NS; assert_eq x4 ProposalStatus.Voting.

Definition approve_fasttrack_proposal_moves_to_sandbox_status : T unit :=
fixture ← snapshot_with_voters [new_voter for_voter (from_near 100)] (from_near 1000); fresh_contract ;; id ← create_proposal FastTrack;
approve_proposal id (Some fixture) ;; x4 ← status_at id TEST_NOW_NS; assert_eq x4 ProposalStatus.Sandbox.

Definition classic_voting_before_end_is_still_voting : T unit :=
fixture ← snapshot_with_voters [new_voter for_voter (from_near 400)] (from_near 1000); fresh_contract ;; id ← create_proposal Classic;
approve_proposal id (Some fixture) ;; cast_vote fixture for_voter id VoteOption.For ;;
let voting_end := TEST_NOW_NS + (VConfig.classic_voting_duration_ns default_config) in x5 ← status_at id (voting_end - 1);
assert_eq x5 ProposalStatus.Voting.

Definition classic_voting_at_end_with_actions_enters_timelock : T unit :=
fixture ← snapshot_with_voters [new_voter for_voter (from_near 400)] (from_near 1000); fresh_contract ;;
set_ctx proposer (from_near 200) TEST_NOW_NS ;;
id ← call (VotingContract.create_proposal (mkMetadata (Some "t") None None) (Some [TransferAction (acc "dest.test.near") (from_near 1)]) Classic);
set_ctx reviewer 1 TEST_NOW_NS ;; call (VotingContract.approve_proposal id None) ;; self_ctx 0 TEST_NOW_NS ;; on_get_snapshot fixture id ;;
cast_vote fixture for_voter id VoteOption.For ;; let voting_end := TEST_NOW_NS + (VConfig.classic_voting_duration_ns default_config) in
x8 ← status_at id voting_end; assert_eq x8 ProposalStatus.Timelock.

Definition classic_voting_with_zero_timelock_skips_to_succeeded : T unit :=
fixture ← snapshot_with_voters [new_voter for_voter (from_near 400)] (from_near 1000); fresh_contract ;; set_ctx owner 1 TEST_NOW_NS ;;
call (VotingContract.set_timelock_duration 0) ;; id ← create_proposal Classic; approve_proposal id (Some fixture) ;;
cast_vote fixture for_voter id VoteOption.For ;; let voting_end := TEST_NOW_NS + (VConfig.classic_voting_duration_ns default_config) in
x7 ← status_at id voting_end; assert_eq x7 ProposalStatus.Succeeded.

Definition classic_voting_after_end_failing_quorum_is_defeated : T unit :=
fixture ← snapshot_with_voters [new_voter for_voter (from_near 400)] (from_near 1000); fresh_contract ;; id ← create_proposal Classic;
approve_proposal id (Some fixture) ;; let voting_end := TEST_NOW_NS + (VConfig.classic_voting_duration_ns default_config) in
x4 ← status_at id voting_end; assert_eq x4 ProposalStatus.Defeated.

Definition classic_timelock_then_succeeded_signaling_only : T unit :=
fixture ← snapshot_with_voters [new_voter for_voter (from_near 400)] (from_near 1000); fresh_contract ;; id ← create_proposal Classic;
approve_proposal id (Some fixture) ;; cast_vote fixture for_voter id VoteOption.For ;;
let voting_end := TEST_NOW_NS + (VConfig.classic_voting_duration_ns default_config) in
let timelock_end := voting_end + (VConfig.timelock_duration_ns default_config) in x5 ← status_at id (timelock_end - 1);
assert_eq x5 ProposalStatus.Timelock ;; x6 ← status_at id timelock_end; assert_eq x6 ProposalStatus.Succeeded.

Definition created_proposal_expires_exactly_at_deadline : T unit :=
fresh_contract ;; set_ctx owner 1 TEST_NOW_NS ;; call (VotingContract.set_classic_proposal_expiration 3600) ;; id ← create_proposal Classic;
x4 ← get_config; let expiration_ns := TEST_NOW_NS + (VConfig.classic_proposal_expiration_ns x4) in x5 ← status_at id (expiration_ns - 1);
assert_eq x5 ProposalStatus.Created ;; x6 ← status_at id expiration_ns; assert_eq x6 ProposalStatus.Expired.

Definition created_proposal_with_disabled_expiration_stays_created : T unit :=
fresh_contract ;; set_ctx owner 1 TEST_NOW_NS ;; call (VotingContract.set_classic_proposal_expiration 0) ;; id ← create_proposal Classic;
let very_far := TEST_NOW_NS + ((((10 * 365) * 24) * 3600) * 1000000000) in x4 ← status_at id very_far; assert_eq x4 ProposalStatus.Created.

Definition sandbox_at_duration_end_becomes_defeated : T unit :=
fixture ← snapshot_with_voters [new_voter for_voter (from_near 50)] (from_near 1000); fresh_contract ;; id ← create_proposal FastTrack;
approve_proposal id (Some fixture) ;; cast_vote fixture for_voter id VoteOption.For ;;
let sandbox_end := TEST_NOW_NS + (VConfig.sandbox_duration_ns default_config) in x5 ← status_at id sandbox_end; assert_eq x5 ProposalStatus.Defeated.

Definition sandbox_threshold_met_promotes_to_scheduled : T unit :=
fixture ← snapshot_with_voters [new_voter for_voter (from_near 300)] (from_near 1000); fresh_contract ;; id ← create_proposal FastTrack;
approve_proposal id (Some fixture) ;; cast_vote fixture for_voter id VoteOption.For ;; x5 ← status_at id TEST_NOW_NS;
assert_eq x5 ProposalStatus.Scheduled.

Definition sandbox_threshold_one_yocto_short_stays_in_sandbox : T unit :=
let threshold := from_near 300 in let just_below := threshold - 1 in fixture ← snapshot_with_voters [new_voter for_voter just_below] (from_near 1000);
fresh_contract ;; id ← create_proposal FastTrack; approve_proposal id (Some fixture) ;; cast_vote fixture for_voter id VoteOption.For ;;
x5 ← status_at id TEST_NOW_NS; assert_eq x5 ProposalStatus.Sandbox.

Definition voting_outcome_quorum_exact_and_approval_exact_succeeds : T unit :=
fixture ← snapshot_with_voters [new_voter for_voter (from_near 175); new_voter against_voter (from_near 175)] (from_near 1000); fresh_contract ;;
id ← create_proposal Classic; approve_proposal id (Some fixture) ;; cast_vote fixture for_voter id VoteOption.For ;;
cast_vote fixture against_voter id VoteOption.Against ;; let cfg := default_config in
let after_timelock := (TEST_NOW_NS + (VConfig.classic_voting_duration_ns cfg)) + (VConfig.timelock_duration_ns cfg) in
x6 ← status_at id after_timelock; assert_eq x6 ProposalStatus.Succeeded.

Definition voting_outcome_approval_one_yocto_below_is_defeated : T unit :=
let for_v := (from_near 200) - 1 in
fixture ← snapshot_with_voters [new_voter for_voter for_v; new_voter against_voter (from_near 200)] (from_near 1000); fresh_contract ;;
id ← create_proposal Classic; approve_proposal id (Some fixture) ;; cast_vote fixture for_voter id VoteOption.For ;;
cast_vote fixture against_voter id VoteOption.Against ;; let voting_end := TEST_NOW_NS + (VConfig.classic_voting_duration_ns default_config) in
x6 ← status_at id voting_end; assert_eq x6 ProposalStatus.Defeated.

Definition voting_outcome_pure_abstain_is_defeated_even_with_quorum : T unit :=
fixture ← snapshot_with_voters [new_voter for_voter (from_near 0); new_voter abstain_voter (from_near 500)] (from_near 1000); fresh_contract ;;
id ← create_proposal Classic; approve_proposal id (Some fixture) ;; cast_vote fixture abstain_voter id VoteOption.Abstain ;;
let voting_end := TEST_NOW_NS + (VConfig.classic_voting_duration_ns default_config) in x5 ← status_at id voting_end;
assert_eq x5 ProposalStatus.Defeated.

Definition voting_outcome_quorum_floor_dominates_bps_when_higher : T unit :=
fixture ← snapshot_with_voters [new_voter for_voter (from_near 175); new_voter against_voter (from_near 175)] (from_near 1000); fresh_contract ;;
set_ctx owner 1 TEST_NOW_NS ;; call (VotingContract.set_quorum_floor (from_near 400)) ;; id ← create_proposal Classic;
approve_proposal id (Some fixture) ;; cast_vote fixture for_voter id VoteOption.For ;; cast_vote fixture against_voter id VoteOption.Against ;;
let voting_end := TEST_NOW_NS + (VConfig.classic_voting_duration_ns default_config) in x8 ← status_at id voting_end;
assert_eq x8 ProposalStatus.Defeated.

Definition voting_outcome_for_only_succeeds : T unit :=
fixture ← snapshot_with_voters [new_voter for_voter (from_near 400)] (from_near 1000); fresh_contract ;; id ← create_proposal Classic;
approve_proposal id (Some fixture) ;; cast_vote fixture for_voter id VoteOption.For ;; let cfg := default_config in
let after_timelock := (TEST_NOW_NS + (VConfig.classic_voting_duration_ns cfg)) + (VConfig.timelock_duration_ns cfg) in
x5 ← status_at id after_timelock; assert_eq x5 ProposalStatus.Succeeded.

Definition voting_outcome_against_only_is_defeated : T unit :=
fixture ← snapshot_with_voters [new_voter against_voter (from_near 400)] (from_near 1000); fresh_contract ;; id ← create_proposal Classic;
approve_proposal id (Some fixture) ;; cast_vote fixture against_voter id VoteOption.Against ;;
let voting_end := TEST_NOW_NS + (VConfig.classic_voting_duration_ns default_config) in x5 ← status_at id voting_end;
assert_eq x5 ProposalStatus.Defeated.

Definition voting_outcome_quorum_one_yocto_below_is_defeated : T unit :=
let for_amount := (from_near 350) - 1 in fixture ← snapshot_with_voters [new_voter for_voter for_amount] (from_near 1000); fresh_contract ;;
id ← create_proposal Classic; approve_proposal id (Some fixture) ;; cast_vote fixture for_voter id VoteOption.For ;;
let voting_end := TEST_NOW_NS + (VConfig.classic_voting_duration_ns default_config) in x5 ← status_at id voting_end;
assert_eq x5 ProposalStatus.Defeated.

Definition fasttrack_voting_after_end_failing_quorum_is_defeated : T unit :=
fixture ← snapshot_with_voters [new_voter for_voter (from_near 300)] (from_near 1000); fresh_contract ;; id ← create_proposal FastTrack;
approve_proposal id (Some fixture) ;; cast_vote fixture for_voter id VoteOption.For ;; x5 ← status_at id TEST_NOW_NS;
assert_eq x5 ProposalStatus.Scheduled ;; voting_start ← next_voting_start_ns TEST_NOW_NS;
let voting_end := voting_start + (VConfig.fast_track_voting_duration_ns default_config) in x7 ← status_at id voting_end;
assert_eq x7 ProposalStatus.Defeated.

Definition fasttrack_voting_with_actions_at_end_is_executable : T unit :=
fixture ← snapshot_with_voters [new_voter for_voter (from_near 400)] (from_near 1000); fresh_contract ;;
set_ctx proposer (from_near 200) TEST_NOW_NS ;;
id ← call (VotingContract.create_proposal (mkMetadata (Some "ft-actions") None None) (Some [TransferAction (acc "dest.test.near") (from_near 1)]) FastTrack);
set_ctx reviewer 1 TEST_NOW_NS ;; call (VotingContract.approve_proposal id (Some MajorityType.Simple)) ;; self_ctx 0 TEST_NOW_NS ;;
on_get_snapshot fixture id ;; cast_vote fixture for_voter id VoteOption.For ;; voting_start ← next_voting_start_ns TEST_NOW_NS;
let voting_end := voting_start + (VConfig.fast_track_voting_duration_ns default_config) in x9 ← status_at id voting_end;
assert_eq x9 ProposalStatus.Executable.

Definition fasttrack_created_proposal_expires_exactly_at_deadline : T unit :=
fresh_contract ;; set_ctx owner 1 TEST_NOW_NS ;; call (VotingContract.set_fast_track_proposal_expiration 3600) ;; id ← create_proposal FastTrack;
x4 ← get_config; let expiration_ns := TEST_NOW_NS + (VConfig.fast_track_proposal_expiration_ns x4) in x5 ← status_at id (expiration_ns - 1);
assert_eq x5 ProposalStatus.Created ;; x6 ← status_at id expiration_ns; assert_eq x6 ProposalStatus.Expired.

Definition voting_outcome_quorum_floor_satisfied_at_boundary_succeeds : T unit :=
fixture ← snapshot_with_voters [new_voter for_voter (from_near 200); new_voter against_voter (from_near 200)] (from_near 1000); fresh_contract ;;
set_ctx owner 1 TEST_NOW_NS ;; call (VotingContract.set_quorum_floor (from_near 400)) ;; id ← create_proposal Classic;
approve_proposal id (Some fixture) ;; cast_vote fixture for_voter id VoteOption.For ;; cast_vote fixture against_voter id VoteOption.Against ;;
let cfg := default_config in let after_timelock := (TEST_NOW_NS + (VConfig.classic_voting_duration_ns cfg)) + (VConfig.timelock_duration_ns cfg) in
x8 ← status_at id after_timelock; assert_eq x8 ProposalStatus.Succeeded.

Definition active_end_time_classic_succeeded_includes_timelock : T unit :=
fixture ← snapshot_with_voters [new_voter for_voter (from_near 400)] (from_near 1000); fresh_contract ;; id ← create_proposal Classic;
approve_proposal id (Some fixture) ;; cast_vote fixture for_voter id VoteOption.For ;; let cfg := default_config in raw ← read_raw id;
x6 ← pure (active_end_time_ns raw); assert_eq x6 ((TEST_NOW_NS + (VConfig.classic_voting_duration_ns cfg)) + (VConfig.timelock_duration_ns cfg)).

Definition active_end_time_classic_defeated_is_voting_end : T unit :=
fixture ← snapshot_with_voters [new_voter for_voter (from_near 400)] (from_near 1000); fresh_contract ;; id ← create_proposal Classic;
approve_proposal id (Some fixture) ;; raw ← read_raw id; x5 ← pure (active_end_time_ns raw);
assert_eq x5 (TEST_NOW_NS + (VConfig.classic_voting_duration_ns default_config)).

Definition active_end_time_fasttrack_with_voting_start_is_voting_end : T unit :=
fixture ← snapshot_with_voters [new_voter for_voter (from_near 400)] (from_near 1000); fresh_contract ;; id ← create_proposal FastTrack;
approve_proposal id (Some fixture) ;; cast_vote fixture for_voter id VoteOption.For ;; raw ← read_raw id;
voting_start ← unwrap (VotingTypes.voting_start_time_ns raw); x7 ← pure (active_end_time_ns raw);
assert_eq x7 (voting_start + (VConfig.fast_track_voting_duration_ns default_config)).

Definition active_end_time_fasttrack_sandbox_only_is_sandbox_end : T unit :=
fixture ← snapshot_with_voters [new_voter for_voter (from_near 50)] (from_near 1000); fresh_contract ;; id ← create_proposal FastTrack;
approve_proposal id (Some fixture) ;; raw ← read_raw id; assert (negb (bool_decide (is_Some (VotingTypes.voting_start_time_ns raw)))) ;;
x5 ← pure (active_end_time_ns raw); assert_eq x5 (TEST_NOW_NS + (VConfig.sandbox_duration_ns default_config)).

Definition sandbox_threshold_met_returns_false_without_snapshot : T unit :=
fresh_contract ;; id ← create_proposal FastTrack; raw ← read_raw id; assert (negb (bool_decide (is_Some (snapshot_and_state raw)))) ;;
x3 ← pure (sandbox_threshold_met raw); assert_eq x3 false.

Definition create_proposal_classic_assigns_sequential_ids : T unit :=
fresh_contract ;; set_ctx proposer over_deposit_yocto TEST_NOW_NS ;;
id_a ← call (VotingContract.create_proposal (proposal_metadata "t") None Classic); set_ctx proposer over_deposit_yocto TEST_NOW_NS ;;
id_b ← call (VotingContract.create_proposal (proposal_metadata "t") None Classic); set_ctx proposer over_deposit_yocto TEST_NOW_NS ;;
id_c ← call (VotingContract.create_proposal (proposal_metadata "t") None Classic); assert_eq id_a 0 ;; assert_eq id_b 1 ;; assert_eq id_c 2 ;;
x7 ← get_num_proposals; assert_eq x7 3.

Definition create_proposal_rejects_empty_actions_list : T unit :=
fresh_contract ;; set_ctx proposer over_deposit_yocto TEST_NOW_NS ;;
call (VotingContract.create_proposal (proposal_metadata "t") (Some []) Classic) ;; mret tt.

Definition create_proposal_classic_rejects_insufficient_deposit : T unit :=
fresh_contract ;; set_ctx proposer 1 TEST_NOW_NS ;; call (VotingContract.create_proposal (proposal_metadata "t") None Classic) ;; mret tt.

Definition create_proposal_fasttrack_rejects_deposit_missing_bond : T unit :=
fresh_contract ;; let cfg := default_config in let deposit := (VConfig.base_proposal_fee cfg) + (from_near 1) in
set_ctx proposer deposit TEST_NOW_NS ;; call (VotingContract.create_proposal (proposal_metadata "t") None FastTrack) ;; mret tt.

Definition create_proposal_classic_with_expiration_records_absolute_deadline : T unit :=
fresh_contract ;; set_ctx proposer over_deposit_yocto TEST_NOW_NS ;; id ← call (VotingContract.create_proposal (proposal_metadata "t") None Classic);
p ← read_raw id; x4 ← get_config; assert_eq (VotingTypes.expiration_ns p) (TEST_NOW_NS + (VConfig.classic_proposal_expiration_ns x4)).

Definition create_proposal_fasttrack_with_expiration_records_absolute_deadline : T unit :=
fresh_contract ;; set_ctx proposer over_deposit_yocto TEST_NOW_NS ;;
id ← call (VotingContract.create_proposal (proposal_metadata "t") None FastTrack); p ← read_raw id; x4 ← get_config;
assert_eq (VotingTypes.expiration_ns p) (TEST_NOW_NS + (VConfig.fast_track_proposal_expiration_ns x4)).

Definition create_proposal_when_paused_panics : T unit :=
fresh_contract ;; set_paused true ;; set_ctx proposer over_deposit_yocto TEST_NOW_NS ;;
call (VotingContract.create_proposal (proposal_metadata "t") None Classic) ;; mret tt.

Definition get_proposal_returns_none_for_invalid_id : T unit :=
fresh_contract ;; x1 ← get_proposal 0; assert (negb (bool_decide (is_Some x1))) ;; x2 ← get_proposal 999; assert (negb (bool_decide (is_Some x2))).

Definition get_proposals_with_limit_none_returns_all : T unit :=
fresh_contract ;; create_proposal Classic ;; create_proposal Classic ;; create_proposal FastTrack ;; all ← get_proposals 0 None;
assert_eq (Z.of_nat (length all)) 3 ;; x5 ← unwrap (all !! 0%nat); assert_eq (VotingTypes.id (info_proposal x5)) 0 ;; x6 ← unwrap (all !! 1%nat);
assert_eq (VotingTypes.id (info_proposal x6)) 1 ;; x7 ← unwrap (all !! 2%nat); assert_eq (VotingTypes.id (info_proposal x7)) 2.

Definition get_proposals_pagination_respects_limit_and_offset : T unit :=
fresh_contract ;; each (seqZ 0 5) (fun _ => create_proposal Classic ;; mret tt) ;;
page ← get_proposals 1 (Some 2); assert_eq (Z.of_nat (length page)) 2 ;;
p0 ← unwrap (page !! 0%nat); assert_eq (VotingTypes.id (info_proposal p0)) 1 ;;
p1 ← unwrap (page !! 1%nat); assert_eq (VotingTypes.id (info_proposal p1)) 2.

Definition get_proposals_handles_out_of_bounds_from : T unit :=
fresh_contract ;; create_proposal Classic ;; x2 ← get_proposals 10 None; assert (bool_decide (x2 = [])) ;; x3 ← get_proposals 10 (Some 5);
assert (bool_decide (x3 = [])).

Definition get_proposals_limit_zero_returns_empty : T unit :=
fresh_contract ;; create_proposal Classic ;; x2 ← get_proposals 0 (Some 0); assert (bool_decide (x2 = [])).

Definition classic_signaling_full_flow_created_to_succeeded : T unit :=
fixture ← snapshot_with_voters [new_voter for_voter (from_near 400)] (from_near 1000); fresh_contract ;; id ← create_proposal Classic;
x3 ← status_at id TEST_NOW_NS; assert_eq x3 ProposalStatus.Created ;; set_ctx reviewer 1 TEST_NOW_NS ;;
call (VotingContract.approve_proposal id None) ;; self_ctx 0 TEST_NOW_NS ;; on_get_snapshot fixture id ;; x7 ← status_at id TEST_NOW_NS;
assert_eq x7 ProposalStatus.Voting ;; cast_vote fixture for_voter id VoteOption.For ;; let cfg := default_config in
let voting_end := TEST_NOW_NS + (VConfig.classic_voting_duration_ns cfg) in x9 ← status_at id voting_end; assert_eq x9 ProposalStatus.Timelock ;;
let timelock_end := voting_end + (VConfig.timelock_duration_ns cfg) in x10 ← status_at id timelock_end; assert_eq x10 ProposalStatus.Succeeded.

Definition classic_full_flow_with_actions_ends_executable : T unit :=
fixture ← snapshot_with_voters [new_voter for_voter (from_near 400)] (from_near 1000); fresh_contract ;;
set_ctx proposer (from_near 200) TEST_NOW_NS ;;
id ← call (VotingContract.create_proposal (mkMetadata (Some "with-actions") None None) (Some [TransferAction (acc "dest.test.near") (from_near 1)]) Classic);
set_ctx reviewer 1 TEST_NOW_NS ;; call (VotingContract.approve_proposal id None) ;; self_ctx 0 TEST_NOW_NS ;; on_get_snapshot fixture id ;;
cast_vote fixture for_voter id VoteOption.For ;; let cfg := default_config in
let voting_end := TEST_NOW_NS + (VConfig.classic_voting_duration_ns cfg) in let timelock_end := voting_end + (VConfig.timelock_duration_ns cfg) in
x8 ← status_at id timelock_end; assert_eq x8 ProposalStatus.Executable.

Definition fasttrack_signaling_full_flow_created_to_succeeded : T unit :=
fixture ← snapshot_with_voters [new_voter for_voter (from_near 400)] (from_near 1000); fresh_contract ;; id ← create_proposal FastTrack;
x3 ← status_at id TEST_NOW_NS; assert_eq x3 ProposalStatus.Created ;; set_ctx reviewer 1 TEST_NOW_NS ;;
call (VotingContract.approve_proposal id (Some MajorityType.Simple)) ;; self_ctx 0 TEST_NOW_NS ;; on_get_snapshot fixture id ;;
x7 ← status_at id TEST_NOW_NS; assert_eq x7 ProposalStatus.Sandbox ;; cast_vote fixture for_voter id VoteOption.For ;; x9 ← status_at id TEST_NOW_NS;
assert_eq x9 ProposalStatus.Scheduled ;; voting_start ← next_voting_start_ns TEST_NOW_NS; x11 ← status_at id voting_start;
assert_eq x11 ProposalStatus.Voting ;; let voting_end := voting_start + (VConfig.fast_track_voting_duration_ns default_config) in
x12 ← status_at id voting_end; assert_eq x12 ProposalStatus.Succeeded.

Definition concurrent_three_classic_proposals_at_default_cap_lifecycle : T unit :=
fixture ← snapshot_with_voters [new_voter for_voter (from_near 400); new_voter against_voter (from_near 100); new_voter abstain_voter (from_near 50)] (from_near 1000);
fresh_contract ;; a ← create_proposal Classic; approve_proposal a (Some fixture) ;; b ← create_proposal Classic; approve_proposal b (Some fixture) ;;
c ← create_proposal Classic; approve_proposal c (Some fixture) ;; assert_active_with_status a ProposalStatus.Voting ;;
assert_active_with_status b ProposalStatus.Voting ;; assert_active_with_status c ProposalStatus.Voting ;;
'(proof, v_account) ← proof_for fixture for_voter; set_ctx for_voter (from_millinear 10) TEST_NOW_NS ;;
call (VotingContract.vote a VoteOption.For proof v_account) ;; '(proof, v_account) ← proof_for fixture against_voter;
set_ctx against_voter (from_millinear 10) TEST_NOW_NS ;; call (VotingContract.vote a VoteOption.Against proof v_account) ;;
'(proof, v_account) ← proof_for fixture for_voter; set_ctx for_voter (from_millinear 10) TEST_NOW_NS ;;
call (VotingContract.vote b VoteOption.Abstain proof v_account) ;; let cfg := default_config in
let voting_end := TEST_NOW_NS + (VConfig.classic_voting_duration_ns cfg) in x20 ← status_at a voting_end; assert_eq x20 ProposalStatus.Timelock ;;
x21 ← status_at b voting_end; assert_eq x21 ProposalStatus.Defeated ;; x22 ← status_at c voting_end; assert_eq x22 ProposalStatus.Defeated ;;
let timelock_end := voting_end + (VConfig.timelock_duration_ns cfg) in x23 ← status_at a timelock_end; assert_eq x23 ProposalStatus.Succeeded ;;
x24 ← status_at b timelock_end; assert_eq x24 ProposalStatus.Defeated ;; x25 ← status_at c timelock_end; assert_eq x25 ProposalStatus.Defeated ;;
x26 ← get_queue_state; assert (bool_decide (qs_active_proposals x26 = [])).

Definition suite : list (option string * T unit) := [
(None, approve_classic_proposal_moves_to_voting_status);
(None, approve_fasttrack_proposal_moves_to_sandbox_status);
(None, classic_voting_before_end_is_still_voting);
(None, classic_voting_at_end_with_actions_enters_timelock);
(None, classic_voting_with_zero_timelock_skips_to_succeeded);
(None, classic_voting_after_end_failing_quorum_is_defeated);
(None, classic_timelock_then_succeeded_signaling_only);
(None, created_proposal_expires_exactly_at_deadline);
(None, created_proposal_with_disabled_expiration_stays_created);
(None, sandbox_at_duration_end_becomes_defeated);
(None, sandbox_threshold_met_promotes_to_scheduled);
(None, sandbox_threshold_one_yocto_short_stays_in_sandbox);
(None, voting_outcome_quorum_exact_and_approval_exact_succeeds);
(None, voting_outcome_approval_one_yocto_below_is_defeated);
(None, voting_outcome_pure_abstain_is_defeated_even_with_quorum);
(None, voting_outcome_quorum_floor_dominates_bps_when_higher);
(None, voting_outcome_for_only_succeeds);
(None, voting_outcome_against_only_is_defeated);
(None, voting_outcome_quorum_one_yocto_below_is_defeated);
(None, fasttrack_voting_after_end_failing_quorum_is_defeated);
(None, fasttrack_voting_with_actions_at_end_is_executable);
(None, fasttrack_created_proposal_expires_exactly_at_deadline);
(None, voting_outcome_quorum_floor_satisfied_at_boundary_succeeds);
(None, active_end_time_classic_succeeded_includes_timelock);
(None, active_end_time_classic_defeated_is_voting_end);
(None, active_end_time_fasttrack_with_voting_start_is_voting_end);
(None, active_end_time_fasttrack_sandbox_only_is_sandbox_end);
(None, sandbox_threshold_met_returns_false_without_snapshot);
(None, create_proposal_classic_assigns_sequential_ids);
(Some "Actions list cannot be empty", create_proposal_rejects_empty_actions_list);
(Some "Requires deposit of", create_proposal_classic_rejects_insufficient_deposit);
(Some "Requires deposit of", create_proposal_fasttrack_rejects_deposit_missing_bond);
(None, create_proposal_classic_with_expiration_records_absolute_deadline);
(None, create_proposal_fasttrack_with_expiration_records_absolute_deadline);
(Some "Contract is paused", create_proposal_when_paused_panics);
(None, get_proposal_returns_none_for_invalid_id);
(None, get_proposals_with_limit_none_returns_all);
(None, get_proposals_pagination_respects_limit_and_offset);
(None, get_proposals_handles_out_of_bounds_from);
(None, get_proposals_limit_zero_returns_empty);
(None, classic_signaling_full_flow_created_to_succeeded);
(None, classic_full_flow_with_actions_ends_executable);
(None, fasttrack_signaling_full_flow_created_to_succeeded);
(None, concurrent_three_classic_proposals_at_default_cap_lifecycle)
].

(** Every test passes. *)
Theorem proposal_tests_pass : forallb (passes start) suite = true.
Proof. vm_compute. reflexivity. Qed.
End ProposalTests.

(** ** unit_tests/queue.rs *)
Module QueueTests.
Import VotingFixtures.

(** The statuses of all proposals, one by one. *)
Definition statuses : T (list ProposalStatus.t) :=
n ← get_num_proposals;
collect (seqZ 0 n) (fun i => o ← get_proposal i; info ← unwrap o; mret (VotingTypes.status (info_proposal info))).

Definition get_queue_state_on_empty_contract_returns_empty : T unit :=
fresh_contract ;; state ← get_queue_state; assert (bool_decide (qs_active_proposals state = [])) ;;
assert (bool_decide (qs_pending_queue state = [])).

Definition advance_queue_is_a_noop_when_nothing_is_pending : T unit :=
fresh_contract ;; set_ctx proposer 0 TEST_NOW_NS ;; call (VotingContract.advance_queue) ;; state ← get_queue_state;
assert (bool_decide (qs_active_proposals state = [])) ;; assert (bool_decide (qs_pending_queue state = [])).

Definition advance_queue_when_paused_panics : T unit :=
fresh_contract ;; set_paused true ;; set_ctx proposer 0 TEST_NOW_NS ;; call (VotingContract.advance_queue) ;; mret tt.

Definition approval_with_full_slots_appends_to_pending_queue : T unit :=
fresh_contract ;; set_ctx owner 1 TEST_NOW_NS ;; call (VotingContract.set_max_active_proposals 1) ;; first ← create_proposal Classic;
second ← create_proposal Classic; third ← create_proposal Classic; approve_proposal first None ;; approve_proposal second None ;;
approve_proposal third None ;; assert_active_with_status first ProposalStatus.Voting ;; assert_queued_at second 0 ;; assert_queued_at third 1.

Definition active_proposal_drops_off_queue_state_once_voting_ends : T unit :=
fixture ← snapshot_with_voters [new_voter for_voter (from_near 100)] (from_near 1000); fresh_contract ;; id ← create_proposal Classic;
approve_proposal id (Some fixture) ;; assert_active_with_status id ProposalStatus.Voting ;;
let voting_end := TEST_NOW_NS + (VConfig.classic_voting_duration_ns default_config) in set_ctx voter 0 voting_end ;; state ← get_queue_state;
assert (negb (bool_decide (id ∈ qs_active_proposals state))) ;; x7 ← get_proposal id; x8 ← unwrap x7;
assert_eq (VotingTypes.status (info_proposal x8)) ProposalStatus.Defeated.

Definition get_queue_state_promotes_queued_proposal_virtually_when_slot_frees : T unit :=
fixture ← snapshot_with_voters [new_voter for_voter (from_near 100)] (from_near 1000); fresh_contract ;; set_ctx owner 1 TEST_NOW_NS ;;
call (VotingContract.set_max_active_proposals 1) ;; first ← create_proposal Classic; second ← create_proposal Classic;
approve_proposal first (Some fixture) ;; approve_proposal second None ;; assert_active_with_status first ProposalStatus.Voting ;;
assert_queued_at second 0 ;; let voting_end := TEST_NOW_NS + (VConfig.classic_voting_duration_ns default_config) in set_ctx voter 0 voting_end ;;
x11 ← get_proposal first; x12 ← unwrap x11; assert_eq (VotingTypes.status (info_proposal x12)) ProposalStatus.Defeated ;; x13 ← get_proposal second;
x14 ← unwrap x13; assert_eq (VotingTypes.status (info_proposal x14)) ProposalStatus.Voting ;; state ← get_queue_state;
assert (negb (bool_decide (first ∈ qs_active_proposals state))) ;; assert (bool_decide (second ∈ qs_active_proposals state)) ;;
assert (bool_decide (qs_pending_queue state = [])).

Definition advance_queue_commits_virtual_promotion_to_storage : T unit :=
fixture ← snapshot_with_voters [new_voter for_voter (from_near 100)] (from_near 1000); fresh_contract ;; set_ctx owner 1 TEST_NOW_NS ;;
call (VotingContract.set_max_active_proposals 1) ;; first ← create_proposal Classic; second ← create_proposal Classic;
approve_proposal first (Some fixture) ;; approve_proposal second None ;;
let voting_end := TEST_NOW_NS + (VConfig.classic_voting_duration_ns default_config) in set_ctx proposer 0 voting_end ;;
call (VotingContract.advance_queue) ;; raw_first ← read_raw first; raw_second ← read_raw second;
assert_eq (VotingTypes.status raw_first) ProposalStatus.Defeated ;; assert_eq (VotingTypes.status raw_second) ProposalStatus.Voting ;;
assert (negb (bool_decide (is_Some (snapshot_and_state raw_second)))) ;; c12 ← the_contract;
assert (negb (is_contains first (active_proposals c12))) ;; c13 ← the_contract; assert (is_contains second (active_proposals c13)) ;;
c14 ← the_contract; assert (bool_decide (pending_queue c14 = [])).

Definition default_cap_allows_three_concurrent_active_proposals : T unit :=
fixture ← snapshot_with_voters [new_voter for_voter (from_near 400)] (from_near 1000); fresh_contract ;; x2 ← get_config;
assert_eq (VConfig.max_active_proposals x2) 3 ;; a ← create_proposal Classic; b ← create_proposal Classic; c ← create_proposal Classic;
approve_proposal a (Some fixture) ;; approve_proposal b (Some fixture) ;; approve_proposal c (Some fixture) ;;
assert_active_with_status a ProposalStatus.Voting ;; assert_active_with_status b ProposalStatus.Voting ;;
assert_active_with_status c ProposalStatus.Voting ;; x12 ← get_queue_state; assert (bool_decide (qs_pending_queue x12 = [])).

Definition promoted_proposal_backdates_voting_start_to_freed_slot_end_time : T unit :=
fixture ← snapshot_with_voters [new_voter for_voter (from_near 400)] (from_near 1000); fresh_contract ;; set_ctx owner 1 TEST_NOW_NS ;;
call (VotingContract.set_max_active_proposals 1) ;; a ← create_proposal Classic; b ← create_proposal Classic; approve_proposal a (Some fixture) ;;
approve_proposal b None ;; assert_active_with_status a ProposalStatus.Voting ;; assert_queued_at b 0 ;; let cfg := default_config in
let a_voting_end := TEST_NOW_NS + (VConfig.classic_voting_duration_ns cfg) in let advance_to := a_voting_end + (60 * 1000000000) in
set_ctx proposer 0 advance_to ;; call (VotingContract.advance_queue) ;; b_raw ← read_raw b;
assert_eq (VotingTypes.voting_start_time_ns b_raw) (Some a_voting_end) ;; assert_eq (VotingTypes.status b_raw) ProposalStatus.Voting ;;
assert (advance_to <? (a_voting_end + (VConfig.classic_voting_duration_ns cfg))).

Definition backdating_cascade_through_already_stale_windows : T unit :=
fixture ← snapshot_with_voters [new_voter for_voter (from_near 400)] (from_near 1000); fresh_contract ;; set_ctx owner 1 TEST_NOW_NS ;;
call (VotingContract.set_max_active_proposals 1) ;; let voting_duration := VConfig.classic_voting_duration_ns default_config in
a ← create_proposal Classic; b ← create_proposal Classic; c ← create_proposal Classic; approve_proposal a (Some fixture) ;; approve_proposal b None ;;
approve_proposal c None ;; assert_active_with_status a ProposalStatus.Voting ;; assert_queued_at b 0 ;; assert_queued_at c 1 ;;
let advance_to := TEST_NOW_NS + ((voting_duration * 5) / 2) in set_ctx proposer 0 advance_to ;; call (VotingContract.advance_queue) ;;
a_raw ← read_raw a; b_raw ← read_raw b; c_raw ← read_raw c; assert_eq (VotingTypes.status a_raw) ProposalStatus.Defeated ;;
assert_eq (VotingTypes.status b_raw) ProposalStatus.Defeated ;; assert_eq (VotingTypes.status c_raw) ProposalStatus.Voting ;;
assert_eq (VotingTypes.voting_start_time_ns b_raw) (Some (TEST_NOW_NS + voting_duration)) ;;
assert_eq (VotingTypes.voting_start_time_ns c_raw) (Some (TEST_NOW_NS + (2 * voting_duration))) ;; c18 ← the_contract;
assert (bool_decide (pending_queue c18 = [])) ;; c19 ← the_contract; assert (negb (is_contains a (active_proposals c19))) ;; c20 ← the_contract;
assert (negb (is_contains b (active_proposals c20))) ;; c21 ← the_contract; assert (is_contains c (active_proposals c21)).

Definition slot_frees_one_at_a_time_promotes_head_only : T unit :=
fixture ← snapshot_with_voters [new_voter for_voter (from_near 400)] (from_near 1000); fresh_contract ;; set_ctx owner 1 TEST_NOW_NS ;;
call (VotingContract.set_max_active_proposals 2) ;; let cfg := default_config in a ← create_proposal Classic; approve_proposal a (Some fixture) ;;
let stagger_ns := 3600 * 1000000000 in let b_creation := TEST_NOW_NS + stagger_ns in set_ctx proposer (from_near 100) b_creation ;;
b ← call (VotingContract.create_proposal (mkMetadata (Some "b") None None) None Classic); set_ctx reviewer 1 b_creation ;;
call (VotingContract.approve_proposal b None) ;; self_ctx 0 b_creation ;; on_get_snapshot fixture b ;; c ← create_proposal Classic;
approve_proposal c None ;; d ← create_proposal Classic; approve_proposal d None ;; assert_active_with_status a ProposalStatus.Voting ;;
assert_active_with_status b ProposalStatus.Voting ;; assert_queued_at c 0 ;; assert_queued_at d 1 ;;
let a_voting_end := TEST_NOW_NS + (VConfig.classic_voting_duration_ns cfg) in let between := a_voting_end + (60 * 1000000000) in
let b_voting_end := b_creation + (VConfig.classic_voting_duration_ns cfg) in assert (between <? b_voting_end) ;; set_ctx proposer 0 between ;;
call (VotingContract.advance_queue) ;; x21 ← get_proposal a; x22 ← unwrap x21;
assert_eq (VotingTypes.status (info_proposal x22)) ProposalStatus.Defeated ;; x23 ← get_proposal b; x24 ← unwrap x23;
assert_eq (VotingTypes.status (info_proposal x24)) ProposalStatus.Voting ;; x25 ← get_proposal c; x26 ← unwrap x25;
assert_eq (VotingTypes.status (info_proposal x26)) ProposalStatus.Voting ;; assert_queued_at d 0.

Definition mixed_classic_and_fasttrack_share_active_slots : T unit :=
fixture ← snapshot_with_voters [new_voter for_voter (from_near 400)] (from_near 1000); fresh_contract ;; classic ← create_proposal Classic;
sandbox_id ← create_proposal FastTrack; scheduled_id ← create_proposal FastTrack; approve_proposal classic (Some fixture) ;;
approve_proposal sandbox_id (Some fixture) ;; approve_proposal scheduled_id (Some fixture) ;; '(proof, v_account) ← proof_for fixture for_voter;
set_ctx for_voter (from_millinear 10) TEST_NOW_NS ;; call (VotingContract.vote scheduled_id VoteOption.For proof v_account) ;;
assert_active_with_status classic ProposalStatus.Voting ;; assert_active_with_status sandbox_id ProposalStatus.Sandbox ;;
assert_active_with_status scheduled_id ProposalStatus.Scheduled ;; x14 ← get_queue_state; assert_eq (Z.of_nat (length (qs_active_proposals x14))) 3.

Definition reducing_max_active_does_not_evict_existing_active_proposals : T unit :=
fixture ← snapshot_with_voters [new_voter for_voter (from_near 400)] (from_near 1000); fresh_contract ;; a ← create_proposal Classic;
b ← create_proposal Classic; c ← create_proposal Classic; approve_proposal a (Some fixture) ;; approve_proposal b (Some fixture) ;;
approve_proposal c (Some fixture) ;; set_ctx owner 1 TEST_NOW_NS ;; call (VotingContract.set_max_active_proposals 1) ;;
assert_active_with_status a ProposalStatus.Voting ;; assert_active_with_status b ProposalStatus.Voting ;;
assert_active_with_status c ProposalStatus.Voting ;; d ← create_proposal Classic; e ← create_proposal Classic; approve_proposal d None ;;
approve_proposal e None ;; assert_queued_at d 0 ;; assert_queued_at e 1 ;;
let voting_end := TEST_NOW_NS + (VConfig.classic_voting_duration_ns default_config) in set_ctx proposer 0 voting_end ;;
call (VotingContract.advance_queue) ;; assert_active_with_status d ProposalStatus.Voting ;; assert_queued_at e 0 ;; c23 ← the_contract;
assert_eq (is_len (active_proposals c23)) 1.

Definition lifting_max_active_promotes_multiple_queued_at_once : T unit :=
fixture ← snapshot_with_voters [new_voter for_voter (from_near 400)] (from_near 1000); fresh_contract ;; set_ctx owner 1 TEST_NOW_NS ;;
call (VotingContract.set_max_active_proposals 1) ;; a ← create_proposal Classic; b ← create_proposal Classic; c ← create_proposal Classic;
d ← create_proposal Classic; approve_proposal a (Some fixture) ;; approve_proposal b None ;; approve_proposal c None ;; approve_proposal d None ;;
assert_active_with_status a ProposalStatus.Voting ;; assert_queued_at b 0 ;; assert_queued_at c 1 ;; assert_queued_at d 2 ;;
set_ctx owner 1 TEST_NOW_NS ;; call (VotingContract.set_max_active_proposals 3) ;; assert_active_with_status a ProposalStatus.Voting ;;
assert_active_with_status b ProposalStatus.Voting ;; assert_active_with_status c ProposalStatus.Voting ;; assert_queued_at d 0.

Definition fasttrack_sandbox_timeout_frees_slot_for_queued_promotion : T unit :=
fresh_contract ;; set_ctx owner 1 TEST_NOW_NS ;; call (VotingContract.set_max_active_proposals 1) ;;
a_fixture ← snapshot_with_voters [new_voter for_voter (from_near 50)] (from_near 1000); a ← create_proposal FastTrack; b ← create_proposal Classic;
approve_proposal a (Some a_fixture) ;; approve_proposal b None ;; assert_active_with_status a ProposalStatus.Sandbox ;; assert_queued_at b 0 ;;
let sandbox_end := TEST_NOW_NS + (VConfig.sandbox_duration_ns default_config) in set_ctx proposer 0 sandbox_end ;;
call (VotingContract.advance_queue) ;; x12 ← get_proposal a; x13 ← unwrap x12;
assert_eq (VotingTypes.status (info_proposal x13)) ProposalStatus.Defeated ;; b_raw ← read_raw b;
assert_eq (VotingTypes.voting_start_time_ns b_raw) (Some sandbox_end) ;; assert_eq (VotingTypes.status b_raw) ProposalStatus.Voting.

Definition council_veto_during_timelock_frees_slot_for_queued_promotion : T unit :=
fixture ← snapshot_with_voters [new_voter for_voter (from_near 400)] (from_near 1000); fresh_contract ;; set_ctx owner 1 TEST_NOW_NS ;;
call (VotingContract.set_max_active_proposals 1) ;; a ← create_proposal Classic; approve_proposal a (Some fixture) ;;
'(proof, v_account) ← proof_for fixture for_voter; set_ctx for_voter (from_millinear 10) TEST_NOW_NS ;;
call (VotingContract.vote a VoteOption.For proof v_account) ;; b ← create_proposal Classic; approve_proposal b None ;; assert_queued_at b 0 ;;
let cfg := default_config in let voting_end := TEST_NOW_NS + (VConfig.classic_voting_duration_ns cfg) in set_ctx voter 0 voting_end ;;
x13 ← get_proposal a; x14 ← unwrap x13; assert_eq (VotingTypes.status (info_proposal x14)) ProposalStatus.Timelock ;; set_ctx council 1 voting_end ;;
call (VotingContract.veto_proposal a) ;; x17 ← get_proposal a; x18 ← unwrap x17;
assert_eq (VotingTypes.status (info_proposal x18)) ProposalStatus.Vetoed ;; assert_active_with_status b ProposalStatus.Voting ;; c20 ← the_contract;
assert (bool_decide (pending_queue c20 = [])).

Definition council_noveto_during_timelock_frees_slot_for_queued_promotion : T unit :=
fixture ← snapshot_with_voters [new_voter for_voter (from_near 400)] (from_near 1000); fresh_contract ;; set_ctx owner 1 TEST_NOW_NS ;;
call (VotingContract.set_max_active_proposals 1) ;; a ← create_proposal Classic; approve_proposal a (Some fixture) ;;
'(proof, v_account) ← proof_for fixture for_voter; set_ctx for_voter (from_millinear 10) TEST_NOW_NS ;;
call (VotingContract.vote a VoteOption.For proof v_account) ;; b ← create_proposal Classic; approve_proposal b None ;; assert_queued_at b 0 ;;
let cfg := default_config in let voting_end := TEST_NOW_NS + (VConfig.classic_voting_duration_ns cfg) in set_ctx voter 0 voting_end ;;
x13 ← get_proposal a; x14 ← unwrap x13; assert_eq (VotingTypes.status (info_proposal x14)) ProposalStatus.Timelock ;; set_ctx council 1 voting_end ;;
call (VotingContract.noveto_proposal a) ;; x17 ← get_proposal a; x18 ← unwrap x17;
assert_eq (VotingTypes.status (info_proposal x18)) ProposalStatus.Succeeded ;; assert_active_with_status b ProposalStatus.Voting ;;
c20 ← the_contract; assert (bool_decide (pending_queue c20 = [])).

Definition virtual_queue_walkthrough_across_all_lifecycle_paths : T unit :=
let Voting := ProposalStatus.Voting in let Sandbox := ProposalStatus.Sandbox in let Scheduled := ProposalStatus.Scheduled in
let Queued := ProposalStatus.Queued in let Defeated := ProposalStatus.Defeated in let Succeeded := ProposalStatus.Succeeded in
let Timelock := ProposalStatus.Timelock in
fixture ← snapshot_with_voters [new_voter for_voter (from_near 400)] (from_near 1000); fresh_contract ;;
a ← create_proposal Classic; approve_proposal a (Some fixture) ;; cast_vote_at fixture for_voter a VoteOption.For TEST_NOW_NS ;;
b ← create_proposal FastTrack; approve_proposal b (Some fixture) ;;
c ← create_proposal FastTrack; approve_proposal c (Some fixture) ;; cast_vote_at fixture for_voter c VoteOption.For TEST_NOW_NS ;;
queued ← collect (seqZ 0 7) (fun i =>
id ← create_proposal (if i mod 2 =? 0 then Classic else FastTrack); approve_proposal id None ;; mret id);
let cfg := default_config in
t_c_voting_start ← next_voting_start_ns TEST_NOW_NS;
let t_b_sandbox_end := TEST_NOW_NS + VConfig.sandbox_duration_ns cfg in
let t_c_voting_end := t_c_voting_start + VConfig.fast_track_voting_duration_ns cfg in
let t_a_voting_end := TEST_NOW_NS + VConfig.classic_voting_duration_ns cfg in
let t_a_timelock_end := t_a_voting_end + VConfig.timelock_duration_ns cfg in
assert_eq t_c_voting_start (date_ns 2026 6 8) ;;
s0 ← all_statuses_at TEST_NOW_NS;
assert_eq s0 [Voting; Sandbox; Scheduled; Queued; Queued; Queued; Queued; Queued; Queued; Queued] ;;
s1 ← all_statuses_at t_c_voting_start;
assert_eq s1 [Voting; Sandbox; Voting; Queued; Queued; Queued; Queued; Queued; Queued; Queued] ;;
s2 ← all_statuses_at t_b_sandbox_end;
assert_eq s2 [Voting; Defeated; Voting; Voting; Queued; Queued; Queued; Queued; Queued; Queued] ;;
q1 ← unwrap (queued !! 0%nat); o1 ← get_proposal q1; i1 ← unwrap o1;
assert_eq (VotingTypes.voting_start_time_ns (info_proposal i1)) (Some t_b_sandbox_end) ;;
s3 ← all_statuses_at t_c_voting_end;
assert_eq s3 [Voting; Defeated; Succeeded; Voting; Sandbox; Queued; Queued; Queued; Queued; Queued] ;;
q2 ← unwrap (queued !! 1%nat); o2 ← get_proposal q2; i2 ← unwrap o2;
assert_eq (VotingTypes.sandbox_start_time_ns (info_proposal i2)) (Some t_c_voting_end) ;;
s4 ← all_statuses_at t_a_voting_end;
assert_eq s4 [Timelock; Defeated; Succeeded; Voting; Sandbox; Queued; Queued; Queued; Queued; Queued] ;;
s5 ← all_statuses_at t_a_timelock_end;
assert_eq s5 [Succeeded; Defeated; Succeeded; Defeated; Defeated; Voting; Defeated; Voting; Sandbox; Queued].

Definition active_proposals_iterate_in_approval_order : T unit :=
fixture ← snapshot_with_voters [new_voter for_voter (from_near 400); new_voter against_voter (from_near 100); new_voter abstain_voter (from_near 50)] (from_near 1000);
fresh_contract ;; a ← create_proposal Classic; b ← create_proposal Classic; c ← create_proposal Classic; approve_proposal a (Some fixture) ;;
approve_proposal b (Some fixture) ;; approve_proposal c (Some fixture) ;; state ← get_queue_state; assert_eq (qs_active_proposals state) [a; b; c].

Definition active_proposals_ordering_is_set_membership_only_after_removals : T unit :=
fixture ← snapshot_with_voters [new_voter for_voter (from_near 400); new_voter against_voter (from_near 100); new_voter abstain_voter (from_near 50)] (from_near 1000);
fresh_contract ;; set_ctx owner 1 TEST_NOW_NS ;; call (VotingContract.set_max_active_proposals 2) ;;
a ← create_proposal Classic; b ← create_proposal Classic; c ← create_proposal Classic; d ← create_proposal Classic;
approve_proposal a (Some fixture) ;; approve_proposal b (Some fixture) ;; approve_proposal c None ;; approve_proposal d None ;;
let voting_end := TEST_NOW_NS + VConfig.classic_voting_duration_ns default_config + 1 in
set_ctx voter 0 voting_end ;; before ← get_queue_state;
set_ctx proposer 0 voting_end ;; call VotingContract.advance_queue ;; after ← get_queue_state;
let expected := merge_sort Z.le [c; d] in
assert_eq (merge_sort Z.le (qs_active_proposals before)) expected ;;
assert_eq (merge_sort Z.le (qs_active_proposals after)) expected.

Definition virtual_matches_committed_in_backdating_cascade : T unit :=
fixture ← snapshot_with_voters [new_voter for_voter (from_near 400); new_voter against_voter (from_near 100); new_voter abstain_voter (from_near 50)] (from_near 1000);
let build :=
fresh_contract ;;
id ← create_proposal Classic; approve_proposal id (Some fixture) ;;
id ← create_proposal Classic; approve_proposal id (Some fixture) ;;
id ← create_proposal Classic; approve_proposal id (Some fixture) ;;
id ← create_proposal Classic; approve_proposal id None ;;
id ← create_proposal Classic; approve_proposal id None ;;
id ← create_proposal Classic; approve_proposal id None ;;
id ← create_proposal Classic; approve_proposal id None in
build ;; virtual_c ← the_contract; build ;; committed_c ← the_contract;
let voting_duration := VConfig.classic_voting_duration_ns default_config in
let advance_to := TEST_NOW_NS + voting_duration * 5 / 2 in
set_contract virtual_c ;; set_ctx voter 0 advance_to ;;
v_state ← get_queue_state; v_statuses ← statuses;
set_contract committed_c ;; set_ctx proposer 0 advance_to ;; call VotingContract.advance_queue ;; set_ctx voter 0 advance_to ;;
c_state ← get_queue_state; c_statuses ← statuses;
assert_eq (merge_sort Z.le (qs_active_proposals v_state)) (merge_sort Z.le (qs_active_proposals c_state)) ;;
assert_eq (qs_pending_queue v_state) (qs_pending_queue c_state) ;; assert_eq v_statuses c_statuses.

Definition virtual_matches_committed_when_active_proposals_transition_without_queue_promotion : T unit :=
fixture ← snapshot_with_voters [new_voter for_voter (from_near 400); new_voter against_voter (from_near 100); new_voter abstain_voter (from_near 50)] (from_near 1000);
let build :=
fresh_contract ;;
id ← create_proposal Classic; approve_proposal id (Some fixture) ;;
id ← create_proposal Classic; approve_proposal id (Some fixture) ;;
id ← create_proposal Classic; approve_proposal id (Some fixture) in
build ;; virtual_c ← the_contract; build ;; committed_c ← the_contract;
let advance_to := TEST_NOW_NS + VConfig.classic_voting_duration_ns default_config in
set_contract virtual_c ;; set_ctx voter 0 advance_to ;;
v_state ← get_queue_state; v_statuses ← statuses;
set_contract committed_c ;; set_ctx proposer 0 advance_to ;; call VotingContract.advance_queue ;; set_ctx voter 0 advance_to ;;
c_state ← get_queue_state; c_statuses ← statuses;
assert_eq (merge_sort Z.le (qs_active_proposals v_state)) (merge_sort Z.le (qs_active_proposals c_state)) ;;
assert_eq (qs_pending_queue v_state) (qs_pending_queue c_state) ;; assert_eq v_statuses c_statuses.

Definition suite : list (option string * T unit) := [
(None, get_queue_state_on_empty_contract_returns_empty);
(None, advance_queue_is_a_noop_when_nothing_is_pending);
(Some "Contract is paused", advance_queue_when_paused_panics);
(None, approval_with_full_slots_appends_to_pending_queue);
(None, active_proposal_drops_off_queue_state_once_voting_ends);
(None, get_queue_state_promotes_queued_proposal_virtually_when_slot_frees);
(None, advance_queue_commits_virtual_promotion_to_storage);
(None, default_cap_allows_three_concurrent_active_proposals);
(None, promoted_proposal_backdates_voting_start_to_freed_slot_end_time);
(None, backdating_cascade_through_already_stale_windows);
(None, slot_frees_one_at_a_time_promotes_head_only);
(None, mixed_classic_and_fasttrack_share_active_slots);
(None, reducing_max_active_does_not_evict_existing_active_proposals);
(None, lifting_max_active_promotes_multiple_queued_at_once);
(None, fasttrack_sandbox_timeout_frees_slot_for_queued_promotion);
(None, council_veto_during_timelock_frees_slot_for_queued_promotion);
(None, council_noveto_during_timelock_frees_slot_for_queued_promotion);
(None, virtual_queue_walkthrough_across_all_lifecycle_paths);
(None, active_proposals_iterate_in_approval_order);
(None, active_proposals_ordering_is_set_membership_only_after_removals);
(None, virtual_matches_committed_in_backdating_cascade);
(None, virtual_matches_committed_when_active_proposals_transition_without_queue_promotion)
].

(** Every test passes. *)
Theorem queue_tests_pass : forallb (passes start) suite = true.
Proof. vm_compute. reflexivity. Qed.
End QueueTests.

(** ** unit_tests/votes.rs *)
Module VotesTests.
Import VotingFixtures.

(** Single-voter fixture and contract, created and approved with snapshot. *)
Definition setup (flow : ProposalFlow) (near_balance total : NearToken) : T (SnapshotFixture * ProposalId) :=
fixture ← snapshot_with_voters [new_voter voter near_balance] total;
fresh_contract ;; pid ← create_proposal flow; approve_proposal pid (Some fixture) ;; mret (fixture, pid).

Definition vote_happy_path_voting : T unit :=
'(fixture, pid) ← setup Classic (from_near 100) (from_near 10000); cast_vote fixture voter pid VoteOption.For ;; proposal ← read_raw pid;
x3 ← unwrap ((votes proposal) !! 0%nat); assert_eq (total_votes_count x3) 1 ;; x4 ← unwrap ((votes proposal) !! 0%nat);
x5 ← voting_power (from_near 100); assert_eq (total_venear x4) x5 ;; assert_eq (total_votes_count (total_votes proposal)) 1 ;;
x6 ← get_vote voter pid; assert_eq x6 (Some 0).

Definition vote_sandbox_for_allowed_below_threshold : T unit :=
'(fixture, pid) ← setup FastTrack (from_near 100) (from_near 10000); cast_vote fixture voter pid VoteOption.For ;; proposal ← read_raw pid;
assert_eq (VotingTypes.status proposal) ProposalStatus.Sandbox ;; x3 ← unwrap ((votes proposal) !! 0%nat); assert_eq (total_votes_count x3) 1.

Definition vote_sandbox_against_panics : T unit :=
'(fixture, pid) ← setup FastTrack (from_near 100) (from_near 10000); cast_vote fixture voter pid VoteOption.Against ;; mret tt.

Definition vote_rejected_in_created_status : T unit :=
fixture ← snapshot_with_voters [new_voter voter (from_near 100)] (from_near 10000); fresh_contract ;; pid ← create_proposal Classic;
cast_vote fixture voter pid VoteOption.For ;; mret tt.

Definition vote_requires_snapshot : T unit :=
fixture ← snapshot_with_voters [new_voter voter (from_near 100)] (from_near 10000); fresh_contract ;; pid ← create_proposal Classic;
approve_proposal pid None ;; cast_vote fixture voter pid VoteOption.For ;; mret tt.

Definition vote_invalid_proof : T unit :=
'(fixture, pid) ← setup Classic (from_near 100) (from_near 10000); '(proof, v_account) ← proof_for fixture voter;
let tampered := mkProof (Z.land (proof_index proof + 1) U32_MAX) (proof_path proof) in set_ctx voter vote_deposit_yocto TEST_NOW_NS ;;
call (VotingContract.vote pid VoteOption.For tampered v_account) ;; mret tt.

Definition vote_predecessor_mismatch : T unit :=
'(fixture, pid) ← setup Classic (from_near 100) (from_near 10000); '(proof, v_account) ← proof_for fixture voter;
set_ctx (acc "attacker.test.near") vote_deposit_yocto TEST_NOW_NS ;; call (VotingContract.vote pid VoteOption.For proof v_account) ;; mret tt.

Definition vote_zero_balance_rejected : T unit :=
'(fixture, pid) ← setup Classic 0 (from_near 10000); cast_vote fixture voter pid VoteOption.For ;; mret tt.

Definition vote_double_same_option_panics : T unit :=
'(fixture, pid) ← setup Classic (from_near 100) (from_near 10000); '(proof, v_account) ← proof_for fixture voter;
set_ctx voter vote_deposit_yocto TEST_NOW_NS ;; call (VotingContract.vote pid VoteOption.For proof v_account) ;; set_ctx voter 1 TEST_NOW_NS ;;
call (VotingContract.vote pid VoteOption.For proof v_account) ;; mret tt.

Definition vote_change_option_moves_balance : T unit :=
'(fixture, pid) ← setup Classic (from_near 100) (from_near 10000); '(proof, v_account) ← proof_for fixture voter;
set_ctx voter vote_deposit_yocto TEST_NOW_NS ;; call (VotingContract.vote pid VoteOption.For proof v_account) ;; set_ctx voter 1 TEST_NOW_NS ;;
call (VotingContract.vote pid VoteOption.Against proof v_account) ;; proposal ← read_raw pid; x7 ← unwrap ((votes proposal) !! 0%nat);
assert_eq (total_votes_count x7) 0 ;; x8 ← unwrap ((votes proposal) !! 0%nat); assert_eq (total_venear x8) 0 ;;
x9 ← unwrap ((votes proposal) !! 1%nat); assert_eq (total_votes_count x9) 1 ;; x10 ← unwrap ((votes proposal) !! 1%nat);
x11 ← voting_power (from_near 100); assert_eq (total_venear x10) x11 ;; assert_eq (total_votes_count (total_votes proposal)) 1 ;;
x12 ← get_vote voter pid; assert_eq x12 (Some 1).

Definition vote_requires_attached_deposit : T unit :=
'(fixture, pid) ← setup Classic (from_near 100) (from_near 10000); '(proof, v_account) ← proof_for fixture voter; set_ctx voter 0 TEST_NOW_NS ;;
call (VotingContract.vote pid VoteOption.For proof v_account) ;; mret tt.

Definition vote_insufficient_deposit_for_first_vote : T unit :=
'(fixture, pid) ← setup Classic (from_near 100) (from_near 10000); '(proof, v_account) ← proof_for fixture voter; set_ctx voter 1 TEST_NOW_NS ;;
call (VotingContract.vote pid VoteOption.For proof v_account) ;; mret tt.

Definition vote_fasttrack_sandbox_threshold_flips_to_scheduled : T unit :=
'(fixture, pid) ← setup FastTrack (from_near 400) (from_near 1000); cast_vote fixture voter pid VoteOption.For ;; proposal ← read_raw pid;
assert_eq (VotingTypes.status proposal) ProposalStatus.Scheduled ;; x3 ← unwrap (VotingTypes.voting_start_time_ns proposal);
x4 ← next_voting_start_ns TEST_NOW_NS; assert_eq x3 x4.

Definition take_snapshot_panics_if_snapshot_present_without_vote : T unit :=
'(_fixture, pid) ← setup Classic (from_near 100) (from_near 10000); set_ctx voter 1 TEST_NOW_NS ;;
call (VotingContract.take_snapshot_and_vote pid None) ;; mret tt.

Definition take_snapshot_panics_in_wrong_status : T unit :=
fresh_contract ;; pid ← create_proposal Classic; set_ctx voter 1 TEST_NOW_NS ;; call (VotingContract.take_snapshot_and_vote pid None) ;; mret tt.

Definition take_snapshot_vote_payload_predecessor_mismatch : T unit :=
fixture ← snapshot_with_voters [new_voter voter (from_near 100)] (from_near 10000); fresh_contract ;; pid ← create_proposal Classic;
approve_proposal pid None ;; '(proof, v_account) ← proof_for fixture voter; set_ctx (acc "attacker.test.near") vote_deposit_yocto TEST_NOW_NS ;;
call (VotingContract.take_snapshot_and_vote pid (Some (mkPayload VoteOption.For proof v_account))) ;; mret tt.

Definition on_get_snapshot_sets_snapshot_and_state : T unit :=
fixture ← snapshot_with_voters [new_voter voter (from_near 100)] (from_near 10000); fresh_contract ;; pid ← create_proposal Classic;
approve_proposal pid (Some fixture) ;; proposal ← read_raw pid; stored ← pure (expect (snapshot_and_state proposal) "snapshot stored");
assert_eq (snap_length (snapshot stored)) (snap_length (fx_snapshot fixture)) ;;
assert_eq (snap_root (snapshot stored)) (snap_root (fx_snapshot fixture)).

Definition on_get_snapshot_panics_if_already_set : T unit :=
'(fixture, pid) ← setup Classic (from_near 100) (from_near 10000); self_ctx 0 TEST_NOW_NS ;; on_get_snapshot fixture pid ;; mret tt.

Definition vote_rejected_in_queued_status : T unit :=
fixture ← snapshot_with_voters [new_voter voter (from_near 100)] (from_near 10000); fresh_contract ;; set_ctx owner 1 TEST_NOW_NS ;;
call (VotingContract.set_max_active_proposals 1) ;; a ← create_proposal Classic; b ← create_proposal Classic; approve_proposal a (Some fixture) ;;
approve_proposal b None ;; b_raw ← read_raw b; assert_eq (VotingTypes.status b_raw) ProposalStatus.Queued ;;
cast_vote fixture voter b VoteOption.For ;; mret tt.

Definition vote_rejected_in_scheduled_status : T unit :=
let voter_a := voter in let filler := acc "filler1.test.near" in
fixture ← snapshot_with_voters [new_voter voter_a (from_near 400); new_voter filler (from_near 50)] (from_near 1000); fresh_contract ;;
pid ← create_proposal FastTrack; approve_proposal pid (Some fixture) ;; cast_vote fixture voter_a pid VoteOption.For ;; proposal ← read_raw pid;
assert_eq (VotingTypes.status proposal) ProposalStatus.Scheduled ;; cast_vote fixture filler pid VoteOption.For ;; mret tt.

Definition vote_rejected_in_terminal_status : T unit :=
'(fixture, pid) ← setup Classic (from_near 100) (from_near 10000); let voting_duration_ns := VConfig.classic_voting_duration_ns default_config in
let after_end := (TEST_NOW_NS + voting_duration_ns) + 1 in cast_vote_at fixture voter pid VoteOption.For after_end ;; mret tt.

Definition vote_multiple_voters_aggregate : T unit :=
let voter_a := voter in let voter_b := acc "voter-b.test.near" in
fixture ← snapshot_with_voters [new_voter voter_a (from_near 100); new_voter voter_b (from_near 40)] (from_near 10000); fresh_contract ;;
pid ← create_proposal Classic; approve_proposal pid (Some fixture) ;; cast_vote fixture voter_a pid VoteOption.For ;;
cast_vote fixture voter_b pid VoteOption.Against ;; proposal ← read_raw pid; x7 ← unwrap ((votes proposal) !! 0%nat);
assert_eq (total_votes_count x7) 1 ;; x8 ← unwrap ((votes proposal) !! 0%nat); x9 ← voting_power (from_near 100); assert_eq (total_venear x8) x9 ;;
x10 ← unwrap ((votes proposal) !! 1%nat); assert_eq (total_votes_count x10) 1 ;; x11 ← unwrap ((votes proposal) !! 1%nat);
x12 ← voting_power (from_near 40); assert_eq (total_venear x11) x12 ;; assert_eq (total_votes_count (total_votes proposal)) 2 ;;
x13 ← voting_power (from_near 140); assert_eq (total_venear (total_votes proposal)) x13 ;; x14 ← get_vote voter_a pid; assert_eq x14 (Some 0) ;;
x15 ← get_vote voter_b pid; assert_eq x15 (Some 1).

Definition vote_rejects_tampered_v_account : T unit :=
'(fixture, pid) ← setup Classic (from_near 100) (from_near 10000);
'(proof, v_account) ← proof_for fixture voter;
tampered ← match v_account with
     | V1 a => mret (V1 (mkAccount (account_id a) (update_timestamp a) (mkBalance (from_near 1000000) (extra_venear_balance (balance a)))
                           (delegated_balance a) (delegations a)))
     | V0 _ => pure (Panic "fixture builds V1")
     end;
set_ctx voter vote_deposit_yocto TEST_NOW_NS ;; call (VotingContract.vote pid VoteOption.For proof tampered) ;; mret tt.

Definition vote_accepts_self_call_predecessor : T unit :=
'(fixture, pid) ← setup Classic (from_near 100) (from_near 10000); '(proof, v_account) ← proof_for fixture voter;
self_ctx vote_deposit_yocto TEST_NOW_NS ;; call (VotingContract.vote pid VoteOption.For proof v_account) ;; x3 ← get_vote voter pid;
assert_eq x3 (Some 0) ;; proposal ← read_raw pid; x5 ← unwrap ((votes proposal) !! 0%nat); x6 ← voting_power (from_near 100);
assert_eq (total_venear x5) x6.

Definition get_vote_returns_none_before_voting : T unit :=
'(_fixture, pid) ← setup Classic (from_near 100) (from_near 10000); x1 ← get_vote voter pid; assert_eq x1 None ;;
x2 ← get_vote (acc "never-voted.test.near") pid; assert_eq x2 None.

Definition vote_panics_when_paused : T unit :=
'(fixture, pid) ← setup Classic (from_near 100) (from_near 10000); set_paused true ;; cast_vote fixture voter pid VoteOption.For ;; mret tt.

Definition vote_refunds_excess_deposit_above_storage_fee : T unit :=
'(fixture, pid) ← setup Classic (from_near 100) (from_near 10000); '(proof, v_account) ← proof_for fixture voter;
set_ctx voter (from_millinear 11) TEST_NOW_NS ;; call (VotingContract.vote pid VoteOption.For proof v_account) ;; proposal ← read_raw pid;
x5 ← unwrap ((votes proposal) !! 0%nat); assert_eq (total_votes_count x5) 1.

Definition take_snapshot_and_vote_without_vote_returns_snapshot_promise : T unit :=
fresh_contract ;; pid ← create_proposal Classic; approve_proposal pid None ;; set_ctx voter 0 TEST_NOW_NS ;;
call (VotingContract.take_snapshot_and_vote pid None) ;; mret tt.

Definition take_snapshot_and_vote_without_vote_rejects_deposit : T unit :=
fresh_contract ;; pid ← create_proposal Classic; approve_proposal pid None ;; set_ctx voter 1 TEST_NOW_NS ;;
call (VotingContract.take_snapshot_and_vote pid None) ;; mret tt.

Definition take_snapshot_and_vote_with_vote_payload_only_chains_action : T unit :=
'(fixture, pid) ← setup Classic (from_near 100) (from_near 10000); '(proof, v_account) ← proof_for fixture voter;
set_ctx voter vote_deposit_yocto TEST_NOW_NS ;; call (VotingContract.take_snapshot_and_vote pid (Some (mkPayload VoteOption.For proof v_account))) ;;
mret tt.

Definition take_snapshot_and_vote_with_both_chains_snapshot_then_vote : T unit :=
fixture ← snapshot_with_voters [new_voter voter (from_near 100)] (from_near 10000); fresh_contract ;; pid ← create_proposal Classic;
approve_proposal pid None ;; '(proof, v_account) ← proof_for fixture voter; set_ctx voter vote_deposit_yocto TEST_NOW_NS ;;
call (VotingContract.take_snapshot_and_vote pid (Some (mkPayload VoteOption.For proof v_account))) ;; mret tt.

Definition take_snapshot_and_vote_panics_when_paused : T unit :=
fresh_contract ;; pid ← create_proposal Classic; approve_proposal pid None ;; set_paused true ;; set_ctx voter 1 TEST_NOW_NS ;;
call (VotingContract.take_snapshot_and_vote pid None) ;; mret tt.

Definition suite : list (option string * T unit) := [
(None, vote_happy_path_voting);
(None, vote_sandbox_for_allowed_below_threshold);
(Some "Only 'For' votes are allowed during the sandbox period", vote_sandbox_against_panics);
(Some "Proposal is not in the voting phase", vote_rejected_in_created_status);
(Some "Snapshot has not been taken yet", vote_requires_snapshot);
(Some "Invalid merkle proof", vote_invalid_proof);
(Some "Account ID doesn't match the predecessor account ID", vote_predecessor_mismatch);
(Some "Account has no veNEAR balance", vote_zero_balance_rejected);
(Some "Already voted for the same option", vote_double_same_option_panics);
(None, vote_change_option_moves_balance);
(Some "Requires attached deposit", vote_requires_attached_deposit);
(Some "Requires deposit of", vote_insufficient_deposit_for_first_vote);
(None, vote_fasttrack_sandbox_threshold_flips_to_scheduled);
(Some "Snapshot is already set for this proposal", take_snapshot_panics_if_snapshot_present_without_vote);
(Some "Proposal must be in Sandbox or Voting status to take a snapshot", take_snapshot_panics_in_wrong_status);
(Some "v_account does not match the caller", take_snapshot_vote_payload_predecessor_mismatch);
(None, on_get_snapshot_sets_snapshot_and_state);
(Some "Snapshot is already set for this proposal", on_get_snapshot_panics_if_already_set);
(Some "Proposal is not in the voting phase", vote_rejected_in_queued_status);
(Some "Proposal is not in the voting phase", vote_rejected_in_scheduled_status);
(Some "Proposal is not in the voting phase", vote_rejected_in_terminal_status);
(None, vote_multiple_voters_aggregate);
(Some "Invalid merkle proof", vote_rejects_tampered_v_account);
(None, vote_accepts_self_call_predecessor);
(None, get_vote_returns_none_before_voting);
(Some "Contract is paused", vote_panics_when_paused);
(None, vote_refunds_excess_deposit_above_storage_fee);
(None, take_snapshot_and_vote_without_vote_returns_snapshot_promise);
(Some "Snapshot-only call must not attach a deposit", take_snapshot_and_vote_without_vote_rejects_deposit);
(None, take_snapshot_and_vote_with_vote_payload_only_chains_action);
(None, take_snapshot_and_vote_with_both_chains_snapshot_then_vote);
(Some "Contract is paused", take_snapshot_and_vote_panics_when_paused)
].

(** Every test passes. *)
Theorem votes_tests_pass : forallb (passes start) suite = true.
Proof. vm_compute. reflexivity. Qed.
End VotesTests.

(** ** unit_tests/reviewer.rs *)
Module ReviewerTests.
Import VotingFixtures.

Definition approve_requires_reviewer : T unit :=
fresh_contract ;; id ← create_proposal Classic; set_ctx (acc "rando.test.near") 1 TEST_NOW_NS ;; call (VotingContract.approve_proposal id None) ;;
mret tt.

Definition approve_requires_one_yocto : T unit :=
fresh_contract ;; id ← create_proposal Classic; set_ctx reviewer 0 TEST_NOW_NS ;; call (VotingContract.approve_proposal id None) ;; mret tt.

Definition approve_fasttrack_without_majority_type_panics : T unit :=
fresh_contract ;; id ← create_proposal FastTrack; set_ctx reviewer 1 TEST_NOW_NS ;; call (VotingContract.approve_proposal id None) ;; mret tt.

Definition approve_twice_panics_when_already_active : T unit :=
fresh_contract ;; id ← create_proposal Classic; approve_proposal id None ;; set_ctx reviewer 1 TEST_NOW_NS ;;
call (VotingContract.approve_proposal id None) ;; mret tt.

Definition approve_classic_applies_configured_thresholds : T unit :=
fresh_contract ;; id ← create_proposal Classic; approve_proposal id None ;; let cfg := default_config in x3 ← get_proposal id; x4 ← unwrap x3;
let p := info_proposal x4 in assert_eq (VotingTypes.quorum_threshold_bps p) (VConfig.quorum_threshold_bps cfg) ;;
assert_eq (VotingTypes.quorum_floor p) (VConfig.quorum_floor cfg) ;;
assert_eq (VotingTypes.approval_threshold_bps p) (VConfig.approval_threshold_bps cfg) ;; assert_eq (VotingTypes.reviewer_id p) (Some reviewer) ;;
assert_eq (VotingTypes.approval_time_ns p) (Some TEST_NOW_NS).

Definition approve_fasttrack_simple_majority_uses_simple_threshold : T unit :=
fresh_contract ;; id ← create_proposal FastTrack; set_ctx reviewer 1 TEST_NOW_NS ;;
call (VotingContract.approve_proposal id (Some MajorityType.Simple)) ;; x4 ← get_proposal id; x5 ← unwrap x4; let p := info_proposal x5 in
assert_eq (VotingTypes.approval_threshold_bps p) (VConfig.simple_majority_threshold_bps default_config).

Definition approve_fasttrack_strong_majority_uses_strong_threshold : T unit :=
fresh_contract ;; id ← create_proposal FastTrack; set_ctx reviewer 1 TEST_NOW_NS ;;
call (VotingContract.approve_proposal id (Some MajorityType.Strong)) ;; x4 ← get_proposal id; x5 ← unwrap x4; let p := info_proposal x5 in
assert_eq (VotingTypes.approval_threshold_bps p) (VConfig.strong_majority_threshold_bps default_config).

Definition approve_fasttrack_zeroes_bond_amount : T unit :=
fresh_contract ;; id ← create_proposal FastTrack; set_ctx reviewer 1 TEST_NOW_NS ;;
call (VotingContract.approve_proposal id (Some MajorityType.Simple)) ;; x4 ← get_proposal id; x5 ← unwrap x4; let p := info_proposal x5 in
assert_eq (VotingTypes.bond_amount p) 0.

Definition approve_queues_when_active_slots_full : T unit :=
fresh_contract ;; set_ctx owner 1 TEST_NOW_NS ;; call (VotingContract.set_max_active_proposals 1) ;; first_ ← create_proposal Classic;
approve_proposal first_ None ;; second ← create_proposal Classic; approve_proposal second None ;; x7 ← get_proposal second; x8 ← unwrap x7;
assert_eq (VotingTypes.status (info_proposal x8)) ProposalStatus.Queued ;; queue ← get_queue_state; assert_eq (qs_pending_queue queue) [second].

Definition reject_moves_proposal_to_rejected : T unit :=
fresh_contract ;; id ← create_proposal Classic; set_ctx reviewer 1 TEST_NOW_NS ;; call (VotingContract.reject_proposal id) ;; x4 ← get_proposal id;
x5 ← unwrap x4; let p := info_proposal x5 in assert_eq (VotingTypes.status p) ProposalStatus.Rejected ;;
assert_eq (VotingTypes.reviewer_id p) (Some reviewer).

Definition reject_requires_reviewer : T unit :=
fresh_contract ;; id ← create_proposal Classic; set_ctx (acc "rando.test.near") 1 TEST_NOW_NS ;; call (VotingContract.reject_proposal id) ;; mret tt.

Definition reject_panics_for_already_approved_proposal : T unit :=
fresh_contract ;; id ← create_proposal Classic; approve_proposal id None ;; set_ctx reviewer 1 TEST_NOW_NS ;;
call (VotingContract.reject_proposal id) ;; mret tt.

Definition veto_classic_during_timelock_succeeds : T unit :=
fixture ← snapshot_with_voters [new_voter for_voter (from_near 400)] (from_near 1000); fresh_contract ;; id ← create_proposal Classic;
approve_proposal id (Some fixture) ;; cast_vote fixture for_voter id VoteOption.For ;;
let voting_end := TEST_NOW_NS + (VConfig.classic_voting_duration_ns default_config) in set_ctx voter 0 voting_end ;; x6 ← get_proposal id;
x7 ← unwrap x6; assert_eq (VotingTypes.status (info_proposal x7)) ProposalStatus.Timelock ;; set_ctx council 1 voting_end ;;
call (VotingContract.veto_proposal id) ;; x10 ← get_proposal id; x11 ← unwrap x10;
assert_eq (VotingTypes.status (info_proposal x11)) ProposalStatus.Vetoed.

Definition veto_fasttrack_during_sandbox_panics : T unit :=
fixture ← snapshot_with_voters [new_voter for_voter (from_near 400)] (from_near 1000); fresh_contract ;; id ← create_proposal FastTrack;
approve_proposal id (Some fixture) ;; set_ctx council 1 TEST_NOW_NS ;; call (VotingContract.veto_proposal id) ;; mret tt.

Definition veto_fasttrack_during_scheduled_succeeds : T unit :=
fixture ← snapshot_with_voters [new_voter for_voter (from_near 400)] (from_near 1000); fresh_contract ;; id ← create_proposal FastTrack;
approve_proposal id (Some fixture) ;; cast_vote fixture for_voter id VoteOption.For ;; x5 ← get_proposal id; x6 ← unwrap x5;
assert_eq (VotingTypes.status (info_proposal x6)) ProposalStatus.Scheduled ;; set_ctx council 1 TEST_NOW_NS ;;
call (VotingContract.veto_proposal id) ;; x9 ← get_proposal id; x10 ← unwrap x9;
assert_eq (VotingTypes.status (info_proposal x10)) ProposalStatus.Vetoed.

Definition veto_requires_council : T unit :=
fixture ← snapshot_with_voters [new_voter for_voter (from_near 400)] (from_near 1000); fresh_contract ;; id ← create_proposal FastTrack;
approve_proposal id (Some fixture) ;; cast_vote fixture for_voter id VoteOption.For ;; set_ctx reviewer 1 TEST_NOW_NS ;;
call (VotingContract.veto_proposal id) ;; mret tt.

Definition veto_fasttrack_during_voting_succeeds : T unit :=
fixture ← snapshot_with_voters [new_voter for_voter (from_near 400)] (from_near 1000); fresh_contract ;; id ← create_proposal FastTrack;
approve_proposal id (Some fixture) ;; cast_vote fixture for_voter id VoteOption.For ;; voting_start ← next_voting_start_ns TEST_NOW_NS;
set_ctx voter 0 voting_start ;; x7 ← get_proposal id; x8 ← unwrap x7; assert_eq (VotingTypes.status (info_proposal x8)) ProposalStatus.Voting ;;
set_ctx council 1 voting_start ;; call (VotingContract.veto_proposal id) ;; x11 ← get_proposal id; x12 ← unwrap x11;
assert_eq (VotingTypes.status (info_proposal x12)) ProposalStatus.Vetoed.

Definition veto_classic_during_voting_panics : T unit :=
fixture ← snapshot_with_voters [new_voter for_voter (from_near 400)] (from_near 1000); fresh_contract ;; id ← create_proposal Classic;
approve_proposal id (Some fixture) ;; set_ctx council 1 TEST_NOW_NS ;; call (VotingContract.veto_proposal id) ;; mret tt.

Definition noveto_signaling_only_proposal_succeeds_immediately : T unit :=
fixture ← snapshot_with_voters [new_voter for_voter (from_near 400)] (from_near 1000); fresh_contract ;; id ← create_proposal Classic;
approve_proposal id (Some fixture) ;; cast_vote fixture for_voter id VoteOption.For ;;
let voting_end := TEST_NOW_NS + (VConfig.classic_voting_duration_ns default_config) in set_ctx voter 0 voting_end ;; x6 ← get_proposal id;
x7 ← unwrap x6; assert_eq (VotingTypes.status (info_proposal x7)) ProposalStatus.Timelock ;; set_ctx council 1 voting_end ;;
call (VotingContract.noveto_proposal id) ;; x10 ← get_proposal id; x11 ← unwrap x10;
assert_eq (VotingTypes.status (info_proposal x11)) ProposalStatus.Succeeded.

Definition noveto_with_actions_moves_to_executable : T unit :=
fixture ← snapshot_with_voters [new_voter for_voter (from_near 400)] (from_near 1000); fresh_contract ;;
set_ctx proposer (from_near 200) TEST_NOW_NS ;;
id ← call (VotingContract.create_proposal (mkMetadata (Some "noveto-actions") None None) (Some [TransferAction (acc "dest.test.near") (from_near 1)]) Classic);
set_ctx reviewer 1 TEST_NOW_NS ;; call (VotingContract.approve_proposal id None) ;; self_ctx 0 TEST_NOW_NS ;; on_get_snapshot fixture id ;;
cast_vote fixture for_voter id VoteOption.For ;; let voting_end := TEST_NOW_NS + (VConfig.classic_voting_duration_ns default_config) in
set_ctx voter 0 voting_end ;; x9 ← get_proposal id; x10 ← unwrap x9; assert_eq (VotingTypes.status (info_proposal x10)) ProposalStatus.Timelock ;;
set_ctx council 1 voting_end ;; call (VotingContract.noveto_proposal id) ;; x13 ← get_proposal id; x14 ← unwrap x13;
assert_eq (VotingTypes.status (info_proposal x14)) ProposalStatus.Executable.

Definition noveto_outside_timelock_panics : T unit :=
fixture ← snapshot_with_voters [new_voter for_voter (from_near 400)] (from_near 1000); fresh_contract ;; id ← create_proposal Classic;
approve_proposal id (Some fixture) ;; set_ctx council 1 TEST_NOW_NS ;; call (VotingContract.noveto_proposal id) ;; mret tt.

Definition noveto_requires_council : T unit :=
fixture ← snapshot_with_voters [new_voter for_voter (from_near 400)] (from_near 1000); fresh_contract ;; id ← create_proposal Classic;
approve_proposal id (Some fixture) ;; cast_vote fixture for_voter id VoteOption.For ;;
let voting_end := TEST_NOW_NS + (VConfig.classic_voting_duration_ns default_config) in set_ctx reviewer 1 voting_end ;;
call (VotingContract.noveto_proposal id) ;; mret tt.

Definition slash_fasttrack_with_zero_bond_returns_value_variant : T unit :=
fresh_contract ;; set_ctx owner 1 TEST_NOW_NS ;; call (VotingContract.set_bond_amount 0) ;;
id ← create_proposal FastTrack; set_ctx reviewer 1 TEST_NOW_NS ;;
es ← receipts (VotingContract.slash_proposal id);
assert (forallb (fun ef => match ef with VTransfer _ _ => false | _ => true end) es) ;;
x ← get_proposal id; y ← unwrap x; assert_eq (VotingTypes.status (info_proposal y)) ProposalStatus.Slashed.

Definition slash_fasttrack_in_created_moves_to_slashed : T unit :=
fresh_contract ;; id ← create_proposal FastTrack; set_ctx reviewer 1 TEST_NOW_NS ;; call (VotingContract.slash_proposal id) ;; x4 ← get_proposal id;
x5 ← unwrap x4; let p := info_proposal x5 in assert_eq (VotingTypes.status p) ProposalStatus.Slashed ;; assert_eq (VotingTypes.bond_amount p) 0.

Definition slash_rejects_classic_flow : T unit :=
fresh_contract ;; id ← create_proposal Classic; set_ctx reviewer 1 TEST_NOW_NS ;; call (VotingContract.slash_proposal id) ;; mret tt.

Definition slash_rejects_already_approved_fasttrack : T unit :=
fresh_contract ;; id ← create_proposal FastTrack; approve_proposal id None ;; set_ctx reviewer 1 TEST_NOW_NS ;;
call (VotingContract.slash_proposal id) ;; mret tt.

Definition slash_requires_reviewer : T unit :=
fresh_contract ;; id ← create_proposal FastTrack; set_ctx council 1 TEST_NOW_NS ;; call (VotingContract.slash_proposal id) ;; mret tt.

Definition on_get_snapshot_panics_for_created_proposal : T unit :=
fixture ← snapshot_with_voters [new_voter for_voter (from_near 400)] (from_near 1000); fresh_contract ;; id ← create_proposal Classic;
self_ctx 0 TEST_NOW_NS ;; on_get_snapshot fixture id ;; mret tt.

Definition approve_panics_when_paused : T unit :=
fresh_contract ;; id ← create_proposal Classic; set_paused true ;; set_ctx reviewer 1 TEST_NOW_NS ;; call (VotingContract.approve_proposal id None) ;;
mret tt.

Definition reject_panics_when_paused : T unit :=
fresh_contract ;; id ← create_proposal Classic; set_paused true ;; set_ctx reviewer 1 TEST_NOW_NS ;; call (VotingContract.reject_proposal id) ;;
mret tt.

Definition veto_panics_when_paused : T unit :=
fresh_contract ;; id ← create_proposal Classic; set_paused true ;; set_ctx council 1 TEST_NOW_NS ;; call (VotingContract.veto_proposal id) ;; mret tt.

Definition noveto_panics_when_paused : T unit :=
fresh_contract ;; id ← create_proposal Classic; set_paused true ;; set_ctx council 1 TEST_NOW_NS ;; call (VotingContract.noveto_proposal id) ;;
mret tt.

Definition slash_panics_when_paused : T unit :=
fresh_contract ;; id ← create_proposal FastTrack; set_paused true ;; set_ctx reviewer 1 TEST_NOW_NS ;; call (VotingContract.slash_proposal id) ;;
mret tt.

Definition on_get_snapshot_panics_when_paused : T unit :=
fixture ← snapshot_with_voters [new_voter for_voter (from_near 400)] (from_near 1000); fresh_contract ;; id ← create_proposal Classic;
set_ctx reviewer 1 TEST_NOW_NS ;; call (VotingContract.approve_proposal id None) ;; set_paused true ;; self_ctx 0 TEST_NOW_NS ;;
on_get_snapshot fixture id ;; mret tt.

Definition suite : list (option string * T unit) := [
(Some "Only the reviewers can call this method", approve_requires_reviewer);
(Some "Requires attached deposit of exactly 1 yoctoNEAR", approve_requires_one_yocto);
(Some "FastTrack proposals require a majority_type", approve_fasttrack_without_majority_type_panics);
(Some "Proposal is not in the Created status", approve_twice_panics_when_already_active);
(None, approve_classic_applies_configured_thresholds);
(None, approve_fasttrack_simple_majority_uses_simple_threshold);
(None, approve_fasttrack_strong_majority_uses_strong_threshold);
(None, approve_fasttrack_zeroes_bond_amount);
(None, approve_queues_when_active_slots_full);
(None, reject_moves_proposal_to_rejected);
(Some "Only the reviewers can call this method", reject_requires_reviewer);
(Some "Proposal can only be rejected while in the Created status", reject_panics_for_already_approved_proposal);
(None, veto_classic_during_timelock_succeeds);
(Some "Proposal cannot be vetoed in its current state", veto_fasttrack_during_sandbox_panics);
(None, veto_fasttrack_during_scheduled_succeeds);
(Some "Only the council can call this method", veto_requires_council);
(None, veto_fasttrack_during_voting_succeeds);
(Some "Proposal cannot be vetoed in its current state", veto_classic_during_voting_panics);
(None, noveto_signaling_only_proposal_succeeds_immediately);
(None, noveto_with_actions_moves_to_executable);
(Some "Proposal can only be noveto'd during the timelock period", noveto_outside_timelock_panics);
(Some "Only the council can call this method", noveto_requires_council);
(None, slash_fasttrack_with_zero_bond_returns_value_variant);
(None, slash_fasttrack_in_created_moves_to_slashed);
(Some "Only FastTrack proposals can be slashed", slash_rejects_classic_flow);
(Some "Proposal can only be slashed while in Created status", slash_rejects_already_approved_fasttrack);
(Some "Only the reviewers can call this method", slash_requires_reviewer);
(Some "Proposal must be in Sandbox or Voting status", on_get_snapshot_panics_for_created_proposal);
(Some "Contract is paused", approve_panics_when_paused);
(Some "Contract is paused", reject_panics_when_paused);
(Some "Contract is paused", veto_panics_when_paused);
(Some "Contract is paused", noveto_panics_when_paused);
(Some "Contract is paused", slash_panics_when_paused);
(Some "Contract is paused", on_get_snapshot_panics_when_paused)
].

(** Every test passes. *)
Theorem reviewer_tests_pass : forallb (passes start) suite = true.
Proof. vm_compute. reflexivity. Qed.
End ReviewerTests.

(** ** unit_tests/governance.rs, bond.rs and pause.rs *)
Module GovernanceTests.
Import VotingFixtures.

Definition owner_can_set_venear_account_id : T unit :=
fresh_contract ;; let new_venear := acc "new-venear.test.near" in set_ctx owner 1 TEST_NOW_NS ;;
call (VotingContract.set_venear_account_id new_venear) ;; x3 ← get_config; assert_eq (VConfig.venear_account_id x3) new_venear.

Definition non_owner_cannot_set_venear_account_id : T unit :=
fresh_contract ;; set_ctx guardian 1 TEST_NOW_NS ;; call (VotingContract.set_venear_account_id (acc "new-venear.test.near")) ;; mret tt.

Definition set_venear_account_id_requires_one_yocto : T unit :=
fresh_contract ;; set_ctx owner 0 TEST_NOW_NS ;; call (VotingContract.set_venear_account_id (acc "new-venear.test.near")) ;; mret tt.

Definition duration_setters_convert_seconds_to_nanoseconds : T unit :=
fresh_contract ;;
each [(VotingContract.set_classic_voting_duration, VConfig.classic_voting_duration_ns, 3600, 3600000000000);
(VotingContract.set_fast_track_voting_duration, VConfig.fast_track_voting_duration_ns, 60, 60000000000);
(VotingContract.set_timelock_duration, VConfig.timelock_duration_ns, 86400, 86400000000000);
(VotingContract.set_sandbox_duration, VConfig.sandbox_duration_ns, 7200, 7200000000000)]
(fun '(setter, field, seconds, expected_ns) =>
set_ctx owner 1 TEST_NOW_NS ;; call (setter seconds) ;;
cfg ← get_config; assert_eq (field cfg) expected_ns).

Definition duration_setter_with_zero_seconds_writes_zero : T unit :=
fresh_contract ;; set_ctx owner 1 TEST_NOW_NS ;; call (VotingContract.set_timelock_duration 0) ;; x3 ← get_config;
assert_eq (VConfig.timelock_duration_ns x3) 0.

Definition duration_setter_with_max_u32_does_not_overflow_u64_multiplication : T unit :=
fresh_contract ;; set_ctx owner 1 TEST_NOW_NS ;; call (VotingContract.set_timelock_duration U32_MAX) ;; let expected := U32_MAX * (10 ^ 9) in
x3 ← get_config; assert_eq (VConfig.timelock_duration_ns x3) expected.

Definition bps_setters_round_trip : T unit :=
fresh_contract ;;
each [(VotingContract.set_quorum_threshold_bps, VConfig.quorum_threshold_bps, 4200);
(VotingContract.set_approval_threshold_bps, VConfig.approval_threshold_bps, 5500);
(VotingContract.set_simple_majority_threshold_bps, VConfig.simple_majority_threshold_bps, 5000);
(VotingContract.set_strong_majority_threshold_bps, VConfig.strong_majority_threshold_bps, 6667);
(VotingContract.set_sandbox_threshold_bps, VConfig.sandbox_threshold_bps, 3000)]
(fun '(setter, field, raw_bps) =>
bps ← pure (Bps.new raw_bps); set_ctx owner 1 TEST_NOW_NS ;; call (setter bps) ;;
cfg ← get_config; assert_eq (field cfg) bps).

Definition bps_setters_accept_full_and_zero : T unit :=
fresh_contract ;; set_ctx owner 1 TEST_NOW_NS ;; call (VotingContract.set_quorum_threshold_bps Bps.ZERO) ;; x3 ← get_config;
assert_eq (VConfig.quorum_threshold_bps x3) Bps.ZERO ;; set_ctx owner 1 TEST_NOW_NS ;; call (VotingContract.set_quorum_threshold_bps Bps.FULL) ;;
x6 ← get_config; assert_eq (VConfig.quorum_threshold_bps x6) Bps.FULL.

Definition ownership_transfer_two_step_flow : T unit :=
fresh_contract ;; let new_owner := acc "next-owner.test.near" in set_ctx owner 1 TEST_NOW_NS ;;
call (VotingContract.propose_new_owner_account_id (Some new_owner)) ;; x3 ← get_config;
assert_eq (VConfig.proposed_new_owner_account_id x3) (Some new_owner) ;; set_ctx new_owner 1 TEST_NOW_NS ;; call (VotingContract.accept_ownership) ;;
cfg ← get_config; assert_eq (VConfig.owner_account_id cfg) new_owner ;; assert_eq (VConfig.proposed_new_owner_account_id cfg) None.

Definition ownership_transfer_can_be_revoked_before_acceptance : T unit :=
fresh_contract ;; set_ctx owner 1 TEST_NOW_NS ;; call (VotingContract.propose_new_owner_account_id (Some (acc "next-owner.test.near"))) ;;
set_ctx owner 1 TEST_NOW_NS ;; call (VotingContract.propose_new_owner_account_id None) ;; x5 ← get_config;
assert_eq (VConfig.proposed_new_owner_account_id x5) None.

Definition accept_ownership_rejects_unproposed_caller : T unit :=
fresh_contract ;; set_ctx owner 1 TEST_NOW_NS ;; call (VotingContract.propose_new_owner_account_id (Some (acc "next-owner.test.near"))) ;;
set_ctx (acc "imposter.test.near") 1 TEST_NOW_NS ;; call (VotingContract.accept_ownership) ;; mret tt.

Definition accept_ownership_when_none_proposed_panics : T unit :=
fresh_contract ;; set_ctx (acc "rando.test.near") 1 TEST_NOW_NS ;; call (VotingContract.accept_ownership) ;; mret tt.

Definition accept_ownership_requires_one_yocto : T unit :=
fresh_contract ;; set_ctx owner 1 TEST_NOW_NS ;; let new_owner := acc "next-owner.test.near" in
call (VotingContract.propose_new_owner_account_id (Some new_owner)) ;; set_ctx new_owner 0 TEST_NOW_NS ;; call (VotingContract.accept_ownership) ;;
mret tt.

Definition non_owner_cannot_propose_new_owner : T unit :=
fresh_contract ;; set_ctx guardian 1 TEST_NOW_NS ;; call (VotingContract.propose_new_owner_account_id (Some (acc "next-owner.test.near"))) ;; mret tt.

Definition set_max_active_proposals_persists : T unit :=
fresh_contract ;; set_ctx owner 1 TEST_NOW_NS ;; call (VotingContract.set_max_active_proposals 5) ;; x3 ← get_config;
assert_eq (VConfig.max_active_proposals x3) 5.

Definition set_max_active_proposals_rejects_zero : T unit :=
fresh_contract ;; set_ctx owner 1 TEST_NOW_NS ;; call (VotingContract.set_max_active_proposals 0) ;; mret tt.

Definition set_max_active_proposals_one_is_minimum_valid : T unit :=
fresh_contract ;; set_ctx owner 1 TEST_NOW_NS ;; call (VotingContract.set_max_active_proposals 1) ;; x3 ← get_config;
assert_eq (VConfig.max_active_proposals x3) 1.

Definition set_reviewer_ids_replaces_full_list : T unit :=
fresh_contract ;; let new_ids := [acc "rev-a.test.near"; acc "rev-b.test.near"] in set_ctx owner 1 TEST_NOW_NS ;;
call (VotingContract.set_reviewer_ids new_ids) ;; x3 ← get_config; assert_eq (VConfig.reviewer_ids x3) new_ids.

Definition set_base_proposal_fee_round_trips : T unit :=
fresh_contract ;; let new_fee := from_near 7 in set_ctx owner 1 TEST_NOW_NS ;; call (VotingContract.set_base_proposal_fee new_fee) ;; x3 ← get_config;
assert_eq (VConfig.base_proposal_fee x3) new_fee.

Definition set_guardians_replaces_full_list : T unit :=
fresh_contract ;; let new_ids := [acc "g-a.test.near"; acc "g-b.test.near"] in set_ctx owner 1 TEST_NOW_NS ;;
call (VotingContract.set_guardians new_ids) ;; x3 ← get_config; assert_eq (VConfig.guardians x3) new_ids.

Definition set_council_ids_replaces_full_list : T unit :=
fresh_contract ;; let new_ids := [acc "c-a.test.near"; acc "c-b.test.near"] in set_ctx owner 1 TEST_NOW_NS ;;
call (VotingContract.set_council_ids new_ids) ;; x3 ← get_config; assert_eq (VConfig.council_ids x3) new_ids.

Definition set_bond_amount_round_trips : T unit :=
fresh_contract ;; let new_bond := from_near 42 in set_ctx owner 1 TEST_NOW_NS ;; call (VotingContract.set_bond_amount new_bond) ;; x3 ← get_config;
assert_eq (VConfig.bond_amount x3) new_bond.

Definition set_treasury_account_id_round_trips : T unit :=
fresh_contract ;; let new_treasury := acc "new-treasury.test.near" in set_ctx owner 1 TEST_NOW_NS ;;
call (VotingContract.set_treasury_account_id new_treasury) ;; x3 ← get_config; assert_eq (VConfig.treasury_account_id x3) new_treasury.

Definition set_quorum_floor_round_trips : T unit :=
fresh_contract ;; let new_floor := from_near 123 in set_ctx owner 1 TEST_NOW_NS ;; call (VotingContract.set_quorum_floor new_floor) ;;
x3 ← get_config; assert_eq (VConfig.quorum_floor x3) new_floor.

Definition set_classic_proposal_expiration_round_trips : T unit :=
fresh_contract ;; set_ctx owner 1 TEST_NOW_NS ;; call (VotingContract.set_classic_proposal_expiration 12345) ;; x3 ← get_config;
assert_eq (VConfig.classic_proposal_expiration_ns x3) (12345 * 1000000000).

Definition set_fast_track_proposal_expiration_round_trips : T unit :=
fresh_contract ;; set_ctx owner 1 TEST_NOW_NS ;; call (VotingContract.set_fast_track_proposal_expiration 6789) ;; x3 ← get_config;
assert_eq (VConfig.fast_track_proposal_expiration_ns x3) (6789 * 1000000000).

Definition set_max_active_proposals_promotes_queued_when_cap_grows : T unit :=
fixture ← snapshot_with_voters [new_voter for_voter (from_near 100)] (from_near 1000); fresh_contract ;; set_ctx owner 1 TEST_NOW_NS ;;
call (VotingContract.set_max_active_proposals 1) ;; id_a ← create_proposal Classic; approve_proposal id_a (Some fixture) ;;
id_b ← create_proposal Classic; approve_proposal id_b None ;; x8 ← get_proposal id_a; x9 ← unwrap x8;
assert_eq (VotingTypes.status (info_proposal x9)) ProposalStatus.Voting ;; x10 ← get_proposal id_b; x11 ← unwrap x10;
assert_eq (VotingTypes.status (info_proposal x11)) ProposalStatus.Queued ;; set_ctx owner 1 TEST_NOW_NS ;;
call (VotingContract.set_max_active_proposals 2) ;; x14 ← get_proposal id_b; x15 ← unwrap x14;
assert_eq (VotingTypes.status (info_proposal x15)) ProposalStatus.Voting.

Definition claim_bond_expired_happy_path_zeroes_bond : T unit :=
fresh_contract ;; set_ctx owner 1 TEST_NOW_NS ;; call (VotingContract.set_fast_track_proposal_expiration 3600) ;; id ← create_proposal FastTrack;
x4 ← get_config; let after := TEST_NOW_NS + (VConfig.fast_track_proposal_expiration_ns x4) in set_ctx proposer 0 after ;;
call (VotingContract.claim_bond id) ;; x7 ← get_proposal id; info ← unwrap x7; assert_eq (VotingTypes.bond_amount (info_proposal info)) 0 ;;
assert_eq (VotingTypes.status (info_proposal info)) ProposalStatus.Expired.

Definition claim_bond_rejected_happy_path_zeroes_bond : T unit :=
fresh_contract ;; id ← create_proposal FastTrack; set_ctx reviewer 1 TEST_NOW_NS ;; call (VotingContract.reject_proposal id) ;;
set_ctx proposer 0 TEST_NOW_NS ;; call (VotingContract.claim_bond id) ;; x6 ← get_proposal id; info ← unwrap x6;
assert_eq (VotingTypes.bond_amount (info_proposal info)) 0 ;; assert_eq (VotingTypes.status (info_proposal info)) ProposalStatus.Rejected.

Definition claim_bond_in_created_status_panics : T unit :=
fresh_contract ;; id ← create_proposal FastTrack; set_ctx proposer 0 TEST_NOW_NS ;; call (VotingContract.claim_bond id) ;; mret tt.

Definition claim_bond_after_approval_hits_no_bond_guard : T unit :=
fresh_contract ;; id ← create_proposal FastTrack; approve_proposal id None ;; x3 ← get_proposal id; x4 ← unwrap x3;
assert_eq (VotingTypes.status (info_proposal x4)) ProposalStatus.Sandbox ;; set_ctx proposer 0 TEST_NOW_NS ;; call (VotingContract.claim_bond id) ;;
mret tt.

Definition claim_bond_rejects_classic_flow : T unit :=
fresh_contract ;; id ← create_proposal Classic; set_ctx reviewer 1 TEST_NOW_NS ;; call (VotingContract.reject_proposal id) ;;
set_ctx proposer 0 TEST_NOW_NS ;; call (VotingContract.claim_bond id) ;; mret tt.

Definition claim_bond_only_proposer_may_claim : T unit :=
fresh_contract ;; id ← create_proposal FastTrack; set_ctx reviewer 1 TEST_NOW_NS ;; call (VotingContract.reject_proposal id) ;;
set_ctx (acc "intruder.test.near") 0 TEST_NOW_NS ;; call (VotingContract.claim_bond id) ;; mret tt.

Definition claim_bond_double_claim_panics : T unit :=
fresh_contract ;; id ← create_proposal FastTrack; set_ctx reviewer 1 TEST_NOW_NS ;; call (VotingContract.reject_proposal id) ;;
set_ctx proposer 0 TEST_NOW_NS ;; call (VotingContract.claim_bond id) ;; set_ctx proposer 0 TEST_NOW_NS ;; call (VotingContract.claim_bond id) ;;
mret tt.

Definition claim_bond_rejected_returns_full_configured_bond_amount : T unit :=
fresh_contract ;; id ← create_proposal FastTrack; x2 ← get_proposal id; x3 ← unwrap x2;
assert_eq (VotingTypes.bond_amount (info_proposal x3)) (VConfig.bond_amount default_config) ;; set_ctx reviewer 1 TEST_NOW_NS ;;
call (VotingContract.reject_proposal id) ;; x6 ← get_proposal id; x7 ← unwrap x6;
assert_eq (VotingTypes.bond_amount (info_proposal x7)) (VConfig.bond_amount default_config) ;; set_ctx proposer 0 TEST_NOW_NS ;;
call (VotingContract.claim_bond id) ;; x10 ← get_proposal id; x11 ← unwrap x10; assert_eq (VotingTypes.bond_amount (info_proposal x11)) 0.

Definition claim_bond_honors_custom_configured_bond_amount : T unit :=
fresh_contract ;; let custom := from_near 50 in set_ctx owner 1 TEST_NOW_NS ;; call (VotingContract.set_bond_amount custom) ;;
set_ctx proposer (from_near 200) TEST_NOW_NS ;; id ← call (VotingContract.create_proposal (proposal_metadata "custom-bond") None FastTrack);
x5 ← get_proposal id; x6 ← unwrap x5; assert_eq (VotingTypes.bond_amount (info_proposal x6)) custom ;; set_ctx reviewer 1 TEST_NOW_NS ;;
call (VotingContract.reject_proposal id) ;; set_ctx proposer 0 TEST_NOW_NS ;; call (VotingContract.claim_bond id) ;; x11 ← get_proposal id;
x12 ← unwrap x11; assert_eq (VotingTypes.bond_amount (info_proposal x12)) 0.

Definition claim_bond_expired_via_implicit_update_on_get : T unit :=
fresh_contract ;; set_ctx owner 1 TEST_NOW_NS ;; call (VotingContract.set_fast_track_proposal_expiration 60) ;; id ← create_proposal FastTrack;
x4 ← get_config; let cfg_expiration := VConfig.fast_track_proposal_expiration_ns x4 in set_ctx proposer 0 (TEST_NOW_NS + cfg_expiration) ;;
call (VotingContract.claim_bond id) ;; x7 ← get_proposal id; info ← unwrap x7;
assert_eq (VotingTypes.status (info_proposal info)) ProposalStatus.Expired ;; assert_eq (VotingTypes.bond_amount (info_proposal info)) 0.

Definition claim_bond_after_creation_with_zero_configured_bond_panics : T unit :=
fresh_contract ;; set_ctx owner 1 TEST_NOW_NS ;; call (VotingContract.set_bond_amount 0) ;; id ← create_proposal FastTrack;
set_ctx reviewer 1 TEST_NOW_NS ;; call (VotingContract.reject_proposal id) ;; set_ctx proposer 0 TEST_NOW_NS ;; call (VotingContract.claim_bond id) ;;
mret tt.

Definition guardian_can_pause : T unit :=
fresh_contract ;; set_ctx guardian 1 TEST_NOW_NS ;; call (VotingContract.pause) ;; x3 ← is_paused; assert x3.

Definition owner_can_pause : T unit :=
fresh_contract ;; set_ctx owner 1 TEST_NOW_NS ;; call (VotingContract.pause) ;; x3 ← is_paused; assert x3.

Definition non_guardian_cannot_pause : T unit :=
fresh_contract ;; set_ctx (acc "rando.test.near") 1 TEST_NOW_NS ;; call (VotingContract.pause) ;; mret tt.

Definition pause_requires_one_yocto : T unit :=
fresh_contract ;; set_ctx guardian 0 TEST_NOW_NS ;; call (VotingContract.pause) ;; mret tt.

Definition owner_can_unpause : T unit :=
fresh_contract ;; set_paused true ;; set_ctx owner 1 TEST_NOW_NS ;; call (VotingContract.unpause) ;; x3 ← is_paused; assert (negb x3).

Definition guardian_cannot_unpause : T unit :=
fresh_contract ;; set_paused true ;; set_ctx guardian 1 TEST_NOW_NS ;; call (VotingContract.unpause) ;; mret tt.

Definition unpause_requires_one_yocto : T unit :=
fresh_contract ;; set_paused true ;; set_ctx owner 0 TEST_NOW_NS ;; call (VotingContract.unpause) ;; mret tt.

Definition suite : list (option string * T unit) := [
(None, owner_can_set_venear_account_id);
(Some "Only the owner can call this method", non_owner_cannot_set_venear_account_id);
(Some "Requires attached deposit of exactly 1 yoctoNEAR", set_venear_account_id_requires_one_yocto);
(None, duration_setters_convert_seconds_to_nanoseconds);
(None, duration_setter_with_zero_seconds_writes_zero);
(None, duration_setter_with_max_u32_does_not_overflow_u64_multiplication);
(None, bps_setters_round_trip);
(None, bps_setters_accept_full_and_zero);
(None, ownership_transfer_two_step_flow);
(None, ownership_transfer_can_be_revoked_before_acceptance);
(Some "Only the proposed new owner can call this method", accept_ownership_rejects_unproposed_caller);
(Some "Only the proposed new owner can call this method", accept_ownership_when_none_proposed_panics);
(Some "Requires attached deposit of exactly 1 yoctoNEAR", accept_ownership_requires_one_yocto);
(Some "Only the owner can call this method", non_owner_cannot_propose_new_owner);
(None, set_max_active_proposals_persists);
(Some "max_active_proposals must be greater than 0", set_max_active_proposals_rejects_zero);
(None, set_max_active_proposals_one_is_minimum_valid);
(None, set_reviewer_ids_replaces_full_list);
(None, set_base_proposal_fee_round_trips);
(None, set_guardians_replaces_full_list);
(None, set_council_ids_replaces_full_list);
(None, set_bond_amount_round_trips);
(None, set_treasury_account_id_round_trips);
(None, set_quorum_floor_round_trips);
(None, set_classic_proposal_expiration_round_trips);
(None, set_fast_track_proposal_expiration_round_trips);
(None, set_max_active_proposals_promotes_queued_when_cap_grows);
(None, claim_bond_expired_happy_path_zeroes_bond);
(None, claim_bond_rejected_happy_path_zeroes_bond);
(Some "Bond can only be claimed from expired or rejected proposals", claim_bond_in_created_status_panics);
(Some "No bond to claim", claim_bond_after_approval_hits_no_bond_guard);
(Some "Bonds only exist on FastTrack proposals", claim_bond_rejects_classic_flow);
(Some "Only the proposer can claim the bond", claim_bond_only_proposer_may_claim);
(Some "No bond to claim", claim_bond_double_claim_panics);
(None, claim_bond_rejected_returns_full_configured_bond_amount);
(None, claim_bond_honors_custom_configured_bond_amount);
(None, claim_bond_expired_via_implicit_update_on_get);
(Some "No bond to claim", claim_bond_after_creation_with_zero_configured_bond_panics);
(None, guardian_can_pause);
(None, owner_can_pause);
(Some "Only the guardian can call this method", non_guardian_cannot_pause);
(Some "Requires attached deposit of exactly 1 yoctoNEAR", pause_requires_one_yocto);
(None, owner_can_unpause);
(Some "Only the owner can call this method", guardian_cannot_unpause);
(Some "Requires attached deposit of exactly 1 yoctoNEAR", unpause_requires_one_yocto)
].

(** Every test passes. *)
Theorem governance_tests_pass : forallb (passes start) suite = true.
Proof. vm_compute. reflexivity. Qed.
End GovernanceTests.

(** ** The common crate, the Merkle tree and the calendar of proposal.rs *)
Module CommonTests.
Abbreviation T := (Test unit).

(** ** bps.rs *)
Definition is_err (r : string + Z) : bool := match r with inl _ => true | inr _ => false end.
Definition ok_or_panic (r : string + Z) : T Z := pure (match r with inl msg => Panic msg | inr x => Ok x end).

Definition try_new_accepts_in_range : T unit :=
a ← ok_or_panic (Bps.try_new 0); assert_eq a 0 ;;
b ← ok_or_panic (Bps.try_new 3500); assert_eq b 3500 ;;
c ← ok_or_panic (Bps.try_new 10000); assert_eq c 10000.
Definition try_new_rejects_out_of_range : T unit :=
assert (is_err (Bps.try_new 10001)) ;; assert (is_err (Bps.try_new U16_MAX)).
Definition new_panics_out_of_range : T unit := pure (Bps.new 10001) ;; mret tt.
Definition const_constructors : T unit :=
assert (Bps.is_zero Bps.ZERO) ;; assert (Bps.is_full Bps.FULL) ;; assert_eq Bps.ZERO 0 ;; assert_eq Bps.FULL Bps.MAX_RAW.
Definition mul_zero_returns_zero : T unit := zero ← pure (Bps.mul Bps.ZERO (from_near 100)); assert_eq zero 0.
Definition mul_full_returns_input : T unit := full ← pure (Bps.mul Bps.FULL (from_near 123)); assert_eq full (from_near 123).
Definition mul_half_returns_half : T unit :=
b ← pure (Bps.new 5000); half ← pure (Bps.mul b (from_near 100)); assert_eq half (from_near 50).
Definition mul_fractional_floors : T unit :=
b ← pure (Bps.new 3333); r ← pure (Bps.mul b (from_near 99)); assert_eq r ((99 * 10 ^ 24 * 3333) / 10000).

(** ** types.rs *)
Definition pooled_add_delegation_then_sub_delegation_is_identity : T unit :=
let initial := Pooled (mkBalance (from_near 1000) (from_near 500)) in
let to_add := mkBalance (from_near 100) (from_near 50) in
bps ← pure (Bps.new 5000);
after_add ← pure (Pool.pooled_add_delegation initial to_add bps);
after_sub ← pure (Pool.pooled_sub_delegation after_add to_add bps);
assert_eq (near_balance (pool after_sub)) (near_balance (pool initial)) ;;
assert_eq (extra_venear_balance (pool after_sub)) (extra_venear_balance (pool initial)).

Definition day_ns : Z := 86400000000000.

Definition delegation_contribution_sub_after_growth_is_exact : T unit :=
let balance := mkBalance (from_millinear 4100) 50000000000000000000000 in
bps ← pure (Bps.new 2512);
contribution ← pure (VenearBalance.delegation_contribution balance bps);
assert_eq (near_balance contribution) (from_millinear 1029) ;;
assert_eq (extra_venear_balance contribution) 12548780487804878048780 ;;
pool ← pure (Pool.pooled_add_delegation Pool.default balance bps);
pool ← pure (Pool.update pool 0 (27 * day_ns) growth_config);
balance ← pure (VenearBalance.update balance 0 (27 * day_ns) growth_config);
after_sub ← pure (Pool.pooled_sub_delegation pool balance bps);
assert_eq (near_balance (Common.pool after_sub)) 0 ;; assert_eq (extra_venear_balance (Common.pool after_sub)) 0.

Definition delegation_contribution_growth_exactness_grid : T unit :=
let near_values := [10 ^ 24; 4100 * 10 ^ 21; 4100 * 10 ^ 21 + 999999; 9 * 10 ^ 20; 777 * 10 ^ 24 + 777] in
let extra_values := [0; 5 * 10 ^ 22; 1234567890123456789; 12 * 10 ^ 25] in
let bps_values := [1; 777; 2512; 9999; 10000] in
let day_values := [1; 27; 365; 3650] in
each near_values (fun near => each extra_values (fun extra => each bps_values (fun bps_raw => each day_values (fun days =>
let balance := mkBalance near extra in
bps ← pure (Bps.new bps_raw);
pool ← pure (Pool.pooled_add_delegation Pool.default balance bps);
let end_ := days * day_ns in
pool ← pure (Pool.update pool 0 end_ growth_config);
balance ← pure (VenearBalance.update balance 0 end_ growth_config);
after_sub ← pure (Pool.pooled_sub_delegation pool balance bps);
assert_eq (near_balance (Common.pool after_sub)) 0 ;; assert_eq (extra_venear_balance (Common.pool after_sub)) 0)))).

(** ** account.rs *)
Definition sample_balance (near extra : Z) : VenearBalance := mkBalance near extra.
Definition sample_account (delegations : list DelegationEntry) : Account :=
mkAccount "owner.near" 123 (sample_balance 5 7) Pool.default delegations.

Definition from_vaccount_v0_without_delegation_creates_empty_delegations : T unit :=
let account := account_from (V0 (mkAccountV0 "owner.near" 1 (sample_balance 10 20) Pool.default None)) in
assert_eq (delegations account) [].
Definition from_vaccount_v0_with_delegation_creates_full_entry : T unit :=
let account := account_from (V0 (mkAccountV0 "owner.near" 1 (sample_balance 10 20) Pool.default (Some (mkDelegation "delegate.near")))) in
assert_eq (length (delegations account)) 1%nat ;;
d ← unwrap (delegations account !! 0%nat); assert_eq (delegate_id d) "delegate.near" ;; assert_eq (bps d) Bps.FULL.
Definition from_vaccount_v1_preserves_delegations : T unit :=
a ← pure (Bps.new 2500); b ← pure (Bps.new 7500);
let original := sample_account [mkEntry "a.near" a; mkEntry "b.near" b] in
let account := account_from (V1 original) in
assert_eq (length (delegations account)) 2%nat ;;
d0 ← unwrap (delegations account !! 0%nat); assert_eq (bps d0) a ;;
d1 ← unwrap (delegations account !! 1%nat); assert_eq (bps d1) b.

(** ** utils.rs *)
Definition test_near_add : T unit := c ← pure (near_add 100 200); assert_eq c 300.
Definition test_near_sub : T unit := c ← pure (near_sub 300 200); assert_eq c 100.

(** ** proposal.rs of the voting contract *)
Definition next_voting_start_ns (after_ns : Z) : T Z := pure (VotingTypes.next_voting_start_ns false after_ns).
Definition date_ns : Z -> Z -> Z -> Z := VotingFixtures.date_ns.

Definition test_next_monday_from_each_weekday : T unit :=
let expected := date_ns 2026 4 13 in
each [6; 7; 8; 9; 10; 11; 12] (fun day => t ← next_voting_start_ns (date_ns 2026 4 day); assert_eq t expected).
Definition test_next_monday_from_time_within_day : T unit :=
let expected := date_ns 2026 4 13 in let day := date_ns 2026 4 7 in
each [day; day + 1; day + 12 * 3600 * 1000000000; day + 24 * 3600 * 1000000000 - 1]
(fun t => s ← next_voting_start_ns t; assert_eq s expected).

Definition suite : list (option string * T unit) := [
(None, try_new_accepts_in_range); (None, try_new_rejects_out_of_range);
(Some "bps must be in 0..=10000", new_panics_out_of_range); (None, const_constructors);
(None, mul_zero_returns_zero); (None, mul_full_returns_input); (None, mul_half_returns_half); (None, mul_fractional_floors);
(None, pooled_add_delegation_then_sub_delegation_is_identity); (None, delegation_contribution_sub_after_growth_is_exact);
(None, delegation_contribution_growth_exactness_grid);
(None, from_vaccount_v0_without_delegation_creates_empty_delegations); (None, from_vaccount_v0_with_delegation_creates_full_entry);
(None, from_vaccount_v1_preserves_delegations); (None, test_near_add); (None, test_near_sub);
(None, test_next_monday_from_each_weekday); (None, test_next_monday_from_time_within_day)
].

(** ** merkle-tree/src/lib.rs: values are [u32], the global state is text *)
#[local] Instance u32_words : Borsh Z := fun x => [x].
(** A hash that is quick to compute on strings with many zeros. *)
#[local] Instance quick_hash : Crypto := fun x =>
foldl (fun h b => if b =? 0 then h else (h * 16777619 + b) mod 2 ^ 61) 1099511628211 x :: replicate 31 0.
Abbreviation Tree := (MerkleTree Z string).
Abbreviation TT := (Test Tree).
Definition nowhere (height : Z) : Env := vm_context "alice.near" "bob.near" "bob.near" 0 0 height [].
Definition set_value (account_id : AccountId) (value : Z) : TT (option Z) := fun '(e, t) =>
'(old, t') ← set (block_height e) account_id value t; mret (old, (e, t')).
Definition proof_of (account_id : AccountId) : TT (MerkleProof * Z) :=
t ← the_contract; o ← pure (get_proof account_id t); unwrap o.
Definition snapshot_now : TT (MerkleTreeSnapshot * string) := s ← view (fun e t => mret (get_snapshot (block_height e) t)); unwrap s.

Definition test_merkle_tree_basic : TT unit :=
testing_env (nowhere 0) ;; set_contract (MerkleTree.new 0 "global_state") ;;
t ← the_contract; assert_eq (tree_height t) 0 ;; assert_eq (root t) default_hash ;; assert_eq (tree_length t) 0 ;;
testing_env (nowhere 1) ;; let value := 42 in
old_value ← set_value "alice.near" value; assert_eq old_value None ;;
t ← the_contract; assert_eq (tree_height t) 1 ;; assert_ne (root t) default_hash ;; assert_eq (tree_length t) 1 ;;
let old_root := root t in testing_env (nowhere 2) ;;
old_value ← set_value "alice.near" (value + 1); assert_eq old_value (Some value) ;;
t ← the_contract; assert_eq (tree_height t) 1 ;; assert_ne (root t) default_hash ;; assert_ne (root t) old_root ;; assert_eq (tree_length t) 1 ;;
let old_root := root t in testing_env (nowhere 3) ;;
bob_old_value ← set_value "bob.near" 69; assert_eq bob_old_value None ;;
t ← the_contract; assert_eq (tree_height t) 2 ;; assert_ne (root t) default_hash ;; assert_ne (root t) old_root ;; assert_eq (tree_length t) 2 ;;
testing_env (nowhere 4) ;; '(snapshot, gs) ← snapshot_now; assert_eq gs "global_state"%string ;;
'(proof, account) ← proof_of "alice.near"; assert_eq account (value + 1) ;;
assert (is_valid proof (snap_root snapshot) (snap_length snapshot) account).

(** One round of the outer loop of the test: [i] accounts, in block [2 i - 1]. *)
Definition round (num_accounts : Z) (expected_tree_height : list Z) (i : Z) : TT unit :=
let name j : AccountId := ("account" +:+ pretty j)%string in
each (seqZ 0 i) (fun j => set_value (name j) (i * num_accounts + j) ;; mret tt) ;;
t ← the_contract; h ← unwrap (expected_tree_height !! Z.to_nat i); assert_eq (tree_height t) h ;;
assert_ne (root t) default_hash ;; assert_eq (tree_length t) i ;;
testing_env (nowhere (2 * i)) ;; '(snapshot, gs) ← snapshot_now; assert_eq gs "global_state"%string ;;
each (seqZ 0 i) (fun j =>
'(proof, value) ← proof_of (name j); assert_eq value (i * num_accounts + j) ;;
assert (is_valid proof (snap_root snapshot) (snap_length snapshot) value) ;;
each (seqZ 0 i) (fun k =>
if k =? j then mret tt else
'(other_proof, other_value) ← proof_of (name k);
assert (negb (is_valid proof (snap_root snapshot) (snap_length snapshot) other_value)) ;;
assert (negb (is_valid other_proof (snap_root snapshot) (snap_length snapshot) value)))) ;;
testing_env (nowhere (2 * i + 1)) ;;
t ← the_contract; t' ← pure (remerkalize t); set_contract t' ;; assert_eq (root t') (root t).

Definition test_merkle_tree : TT unit :=
testing_env (nowhere 0) ;; set_contract (MerkleTree.new 0 "global_state") ;;
t ← the_contract; assert_eq (tree_height t) 0 ;; assert_eq (root t) default_hash ;; assert_eq (tree_length t) 0 ;;
testing_env (nowhere 1) ;;
let num_accounts := 10 in
each (seqZ 1 num_accounts) (round num_accounts [0; 1; 2; 3; 3; 4; 4; 4; 4; 5; 5]).

(** Every test passes. *)
Theorem common_tests_pass : forallb (passes (nowhere 0, tt)) suite = true.
Proof. vm_compute. reflexivity. Qed.
Theorem tree_tests_pass :
forallb (passes (nowhere 0, MerkleTree.new 0 ""%string)) [(None, test_merkle_tree_basic); (None, test_merkle_tree)] = true.
Proof. vm_compute. reflexivity. Qed.
End CommonTests.
