(* ===== verification/LockupTests.v ===== *)
(** * Unit tests of the lockup contract

    The tests of lockup-contract/src/lib.rs with the fixtures of
    lockup-contract/src/tests/test_utils.rs. In the mocked host NEAR that a
    receipt takes away leaves the balance of the installed context at once. *)
From stdpp Require Import base gmap strings list.
From Stdlib Require Import ZArith.
From S2P Require Import Prelude.
From S2P Require Import Near.
From S2P Require Import Common.
From S2P Require Import LockupContract.
From S2P Require Import Instances.
From S2P Require Import UnitTest.

Local Open Scope Z_scope.

Module LockupTests.
Abbreviation T := (Test Lockup).

(** ** Fixtures *)
Definition LOCKUP_NEAR : Z := 1000.
Definition GENESIS_TIME_IN_DAYS : Z := 500.
Definition YEAR : Z := 365.
Definition lockup_account : AccountId := "lockup".
Definition system_account : AccountId := "system".
Definition account_owner : AccountId := "account_owner".
Definition non_owner : AccountId := "non_owner".
Definition to_yocto (near_balance : Z) : Z := near_balance * 10 ^ 24.
Definition to_nanos (num_days : Z) : Z := num_days * 86400000000000.
Definition to_ts (num_days : Z) : Z := 1533081600000000000 + to_nanos num_days.

Definition assert_almost_eq_with_max_delta (left right max_delta : Z) : T unit :=
assert (Z.max left right - Z.min left right <? max_delta).
Definition assert_almost_eq (left right : Z) : T unit := assert_almost_eq_with_max_delta left right (to_yocto 10).

Definition get_context (predecessor_account_id : AccountId) (account_balance block_timestamp : Z) : Env :=
mkEnv predecessor_account_id lockup_account predecessor_account_id 0 block_timestamp 1 account_balance (10 ^ 19) (10 ^ 15) [Successful] 1 (10 ^ 15).

(** Assignments to fields of the context. *)
Definition from_account (a : AccountId) (e : Env) : Env :=
mkEnv a (current_account_id e) (signer_account_id e) (attached_deposit e) (block_timestamp e) (block_height e)
(account_balance e) (storage_byte_cost e) (remaining_gas e) (promise_results e) (epoch_height e) (prepaid_gas e).
Definition signed_by (a : AccountId) (e : Env) : Env :=
mkEnv (predecessor_account_id e) (current_account_id e) a (attached_deposit e) (block_timestamp e) (block_height e)
(account_balance e) (storage_byte_cost e) (remaining_gas e) (promise_results e) (epoch_height e) (prepaid_gas e).
Definition attaching (n : Z) (e : Env) : Env :=
mkEnv (predecessor_account_id e) (current_account_id e) (signer_account_id e) n (block_timestamp e) (block_height e)
(account_balance e) (storage_byte_cost e) (remaining_gas e) (promise_results e) (epoch_height e) (prepaid_gas e).
Definition at_time (t : Z) (e : Env) : Env :=
mkEnv (predecessor_account_id e) (current_account_id e) (signer_account_id e) (attached_deposit e) t (block_height e)
(account_balance e) (storage_byte_cost e) (remaining_gas e) (promise_results e) (epoch_height e) (prepaid_gas e).
Definition holding (n : Z) (e : Env) : Env :=
mkEnv (predecessor_account_id e) (current_account_id e) (signer_account_id e) (attached_deposit e) (block_timestamp e) (block_height e)
n (storage_byte_cost e) (remaining_gas e) (promise_results e) (epoch_height e) (prepaid_gas e).

(** The NEAR the receipts of a call take from the account. *)
Definition outflow (es : list LEffect) : Z :=
foldr (fun ef n => match ef with PoolCall _ _ deposit _ _ => deposit + n | LTransfer _ amount => amount + n | _ => n end) 0 es.

Definition call {A} (m : M LEffect Lockup A) : T A := fun '(e, s) =>
match m e s with
| Ok (a, s', es) => Ok (a, (holding (account_balance e - outflow es) e, s'))
| Panic msg => Panic msg
end.
(** A test calls a callback directly: the check that the caller is the contract
is not part of the method. *)
Definition callback {A} (m : M LEffect Lockup A) : T A := fun '(e, s) =>
match m (from_account (current_account_id e) e) s with
| Ok (a, s', es) => Ok (a, (holding (account_balance e - outflow es) e, s'))
| Panic msg => Panic msg
end.

Definition env_account_balance : T Z := fun '(e, s) => Ok (account_balance e, (e, s)).
Definition get_owners_balance : T Z := view get_balance.
Definition get_liquid_owners_balance : T Z := view (fun e c => mret (LockupContract.get_liquid_owners_balance e c)).
Definition get_known_deposited_balance : T Z := c ← the_contract; mret (LockupContract.get_known_deposited_balance c).
Definition get_staking_pool_account_id : T (option AccountId) := c ← the_contract; mret (LockupContract.get_staking_pool_account_id c).

Definition VENEAR_ACCOUNT_ID : AccountId := "venear".
Definition LOCKUP_VERSION : Z := 1.
Definition UNLOCK_DURATION_NS : Z := 90 * 24 * 60 * 60 * 10 ^ 9.
Definition MIN_LOCKUP_DEPOSIT : Z := from_millinear 2000.

Definition basic_context : Env := get_context system_account (to_yocto LOCKUP_NEAR) (to_ts GENESIS_TIME_IN_DAYS).

Definition lockup_only_setup : T Env :=
testing_env basic_context ;;
contract ← view (fun e _ => lockup_new e account_owner VENEAR_ACCOUNT_ID UNLOCK_DURATION_NS "whitelist" LOCKUP_VERSION 0 MIN_LOCKUP_DEPOSIT);
set_contract contract ;; mret basic_context.

(** The owner's context of most tests. *)
Definition owner_context (context : Env) : Env := attaching 1 (signed_by account_owner (from_account account_owner context)).

(** ** Tests *)
Definition test_lockup_only_basic : T unit :=
context ← lockup_only_setup; testing_env context ;;
b ← get_owners_balance; assert_eq b (to_yocto 1000) ;;
let context := at_time (to_ts (GENESIS_TIME_IN_DAYS + 1)) context in
b ← get_owners_balance; assert_eq b (to_yocto 1000) ;;
let context := at_time (to_ts (GENESIS_TIME_IN_DAYS + YEAR + 1)) context in
testing_env context ;;
b ← get_owners_balance; assert_almost_eq b (to_yocto 1000).

Definition test_call_by_non_owner : T unit :=
context ← lockup_only_setup;
let context := attaching 1 (signed_by non_owner (from_account non_owner (at_time (to_ts (GENESIS_TIME_IN_DAYS + YEAR)) context))) in
testing_env context ;; call (select_staking_pool "staking_pool").

Definition test_lockup_only_transfer_call_by_owner : T unit :=
context ← lockup_only_setup; b ← get_owners_balance; assert_eq b (to_yocto 1000) ;;
let context := signed_by account_owner (from_account account_owner context) in
testing_env context ;; b ← get_owners_balance; assert_eq b (to_yocto 1000) ;;
testing_env (attaching 1 context) ;;
call (transfer (from_near 100) non_owner) ;;
b ← env_account_balance; assert_almost_eq b (to_yocto (LOCKUP_NEAR - 100)).

Definition test_staking_pool_is_not_selected : T unit :=
context ← lockup_only_setup; testing_env (owner_context context) ;;
call (deposit_to_staking_pool (to_yocto (LOCKUP_NEAR - 100))).

(** Selecting the staking pool, with the answer of the whitelist. *)
Definition select (context : Env) (answer : bool) : T unit :=
testing_env context ;; call (select_staking_pool "staking_pool") ;; callback (on_whitelist_is_whitelisted answer "staking_pool") ;; mret tt.

Definition test_staking_pool_success : T unit :=
context ← lockup_only_setup;
let context := owner_context context in
select context true ;;
testing_env (from_account lockup_account context) ;;
p ← get_staking_pool_account_id; assert_eq p (Some "staking_pool") ;;
d ← get_known_deposited_balance; assert_eq d 0 ;;
let amount := to_yocto (LOCKUP_NEAR - 100) in
balance ← env_account_balance;
let context := holding balance context in
testing_env context ;; call (deposit_to_staking_pool amount) ;;
balance ← env_account_balance;
let context := holding balance context in
assert_almost_eq (account_balance context) (to_yocto LOCKUP_NEAR - amount) ;;
call (on_staking_pool_deposit_inner amount true) ;;
testing_env (from_account lockup_account context) ;;
d ← get_known_deposited_balance; assert_eq d amount ;;
testing_env context ;; call (stake amount) ;; call (on_staking_pool_stake_inner amount true) ;;
let unstake_amount := amount + to_yocto 20 in
testing_env context ;; call (unstake unstake_amount) ;; call (on_staking_pool_unstake_inner unstake_amount true) ;;
testing_env context ;; call (withdraw_from_staking_pool unstake_amount) ;;
let context := holding (account_balance context + unstake_amount) context in
call (on_staking_pool_withdraw_inner unstake_amount true) ;;
testing_env (from_account lockup_account context) ;;
d ← get_known_deposited_balance; assert_eq d 0 ;;
testing_env context ;; call unselect_staking_pool ;;
p ← get_staking_pool_account_id; assert_eq p None.

Definition test_staking_pool_refresh_balance : T unit :=
context ← lockup_only_setup;
let context := owner_context context in
select context true ;;
let amount := to_yocto (LOCKUP_NEAR - 100) in
testing_env context ;; call (deposit_to_staking_pool amount) ;;
balance ← env_account_balance;
let context := holding balance context in
assert_almost_eq (account_balance context) (to_yocto LOCKUP_NEAR - amount) ;;
call (on_staking_pool_deposit_inner amount true) ;;
testing_env context ;; call (stake amount) ;; call (on_staking_pool_stake_inner amount true) ;;
testing_env (from_account lockup_account context) ;;
b ← get_owners_balance; assert_almost_eq b (to_yocto 1000) ;;
l ← get_liquid_owners_balance; assert_almost_eq l (to_yocto 100 - MIN_LOCKUP_DEPOSIT) ;;
d ← get_known_deposited_balance; assert_eq d amount ;;
let total_balance := amount + to_yocto 20 in
testing_env context ;; call refresh_staking_pool_balance ;; callback (on_get_account_total_balance total_balance) ;;
testing_env (from_account lockup_account context) ;;
d ← get_known_deposited_balance; assert_eq d total_balance ;;
b ← get_owners_balance; assert_almost_eq b (to_yocto 1020) ;;
l ← get_liquid_owners_balance; assert_almost_eq l (to_yocto 100 - MIN_LOCKUP_DEPOSIT) ;;
testing_env context ;;
let transfer_amount := to_yocto 15 in
call (transfer transfer_amount non_owner) ;;
balance ← env_account_balance;
testing_env (holding balance context) ;;
d ← get_known_deposited_balance; assert_eq d total_balance ;;
b ← get_owners_balance; assert_almost_eq b (to_yocto 1005) ;;
l ← get_liquid_owners_balance; assert_almost_eq l (to_yocto 100 - MIN_LOCKUP_DEPOSIT - to_yocto 15).

Definition test_staking_pool_selected_again : T unit :=
context ← lockup_only_setup;
let context := owner_context context in
select context true ;; testing_env context ;; call (select_staking_pool "staking_pool_2").

Definition test_staking_pool_not_whitelisted : T unit :=
context ← lockup_only_setup; select (owner_context context) false.

Definition test_staking_pool_unselecting_non_selected : T unit :=
context ← lockup_only_setup; testing_env (owner_context context) ;; call unselect_staking_pool.

Definition test_staking_pool_unselecting_with_deposit : T unit :=
context ← lockup_only_setup;
let context := owner_context context in
select context true ;;
let amount := to_yocto (LOCKUP_NEAR - 100) in
testing_env context ;; call (deposit_to_staking_pool amount) ;;
balance ← env_account_balance;
call (on_staking_pool_deposit_inner amount true) ;;
testing_env (holding balance context) ;; call unselect_staking_pool.

(** The bodies of the two loops of the last test; each gives back the context. *)
Definition deposit_round (amount lockup_amount : Z) (context : Env) (i : Z) : T Env :=
let total_amount := i * amount in
testing_env context ;; call (deposit_to_staking_pool amount) ;;
balance ← env_account_balance;
let context := holding balance context in
assert_almost_eq (account_balance context) (lockup_amount - total_amount) ;;
call (on_staking_pool_deposit_inner amount true) ;;
testing_env (from_account lockup_account context) ;;
d ← get_known_deposited_balance; assert_eq d total_amount ;;
b ← get_owners_balance; assert_almost_eq b (to_yocto 1000) ;;
l ← get_liquid_owners_balance; assert_almost_eq l (to_yocto 1000 - MIN_LOCKUP_DEPOSIT - to_yocto (i * 100)) ;;
mret context.

Definition withdraw_round (amount lockup_amount total_amount : Z) (context : Env) (i : Z) : T Env :=
let total_withdrawn_amount := i * amount in
testing_env context ;; call (withdraw_from_staking_pool amount) ;;
let context := holding (account_balance context + amount) context in
assert_almost_eq (account_balance context) (lockup_amount - total_amount + total_withdrawn_amount) ;;
call (on_staking_pool_withdraw_inner amount true) ;;
testing_env (from_account lockup_account context) ;;
d ← get_known_deposited_balance; assert_eq d (saturating_sub total_amount total_withdrawn_amount) ;;
b ← get_owners_balance; assert_almost_eq b (to_yocto 1000) ;;
l ← get_liquid_owners_balance; assert_almost_eq l (to_yocto 1000 - MIN_LOCKUP_DEPOSIT - to_yocto ((5 - i) * 100)) ;;
mret context.

Fixpoint rounds (body : Env -> Z -> T Env) (context : Env) (l : list Z) : T Env :=
match l with [] => mret context | i :: l' => context ← body context i; rounds body context l' end.

Definition test_staking_pool_owner_balance : T unit :=
context ← lockup_only_setup;
let context := signed_by account_owner (from_account account_owner context) in
let lockup_amount := to_yocto LOCKUP_NEAR in
testing_env context ;; b ← get_owners_balance; assert_eq b (to_yocto 1000) ;;
let context := attaching 1 context in
select context true ;;
d ← get_known_deposited_balance; assert_eq d 0 ;;
let amount := to_yocto 100 in
context ← rounds (deposit_round amount lockup_amount) context [1; 2; 3; 4; 5];
let total_amount := 5 * amount in
context ← rounds (withdraw_round amount lockup_amount total_amount) context [1; 2; 3; 4; 5];
testing_env context ;; call (withdraw_from_staking_pool amount) ;;
let context := holding (account_balance context + amount) context in
call (on_staking_pool_withdraw_inner amount true) ;;
testing_env (from_account lockup_account context) ;;
d ← get_known_deposited_balance; assert_eq d (saturating_sub total_amount (5 * amount)) ;;
b ← get_owners_balance; assert_almost_eq b (to_yocto 1000 + amount) ;;
l ← get_liquid_owners_balance; assert_almost_eq l (to_yocto 1000 + amount - MIN_LOCKUP_DEPOSIT).

Definition suite : list (option string * T unit) := [
(None, test_lockup_only_basic);
(Some "Can only be called by the owner", test_call_by_non_owner);
(None, test_lockup_only_transfer_call_by_owner);
(Some "Staking pool is not selected", test_staking_pool_is_not_selected);
(None, test_staking_pool_success);
(None, test_staking_pool_refresh_balance);
(Some "Staking pool is already selected", test_staking_pool_selected_again);
(Some "The given staking pool account ID is not whitelisted", test_staking_pool_not_whitelisted);
(Some "Staking pool is not selected", test_staking_pool_unselecting_non_selected);
(Some "There is still a deposit on the staking pool", test_staking_pool_unselecting_with_deposit);
(None, test_staking_pool_owner_balance)
].

Definition start : Env * Lockup := (basic_context, mkLockup account_owner VENEAR_ACCOUNT_ID "whitelist" None 0 0 0 0 0 LOCKUP_VERSION 0).

(** Every test passes. *)
Theorem lockup_tests_pass : forallb (passes start) suite = true.
Proof. vm_compute. reflexivity. Qed.
End LockupTests.
