(* ===== verification/StakingTests.v ===== *)
(** * Unit tests of the staking contract

    The tests in staking-contract/src: gas.rs, stake.rs, subscriptions.rs,
    utils.rs and validators.rs. *)
From stdpp Require Import base gmap strings list.
From Stdlib Require Import ZArith.
From S2P Require Import Prelude.
From S2P Require Import Near.
From S2P Require Import StakingTypes.
From S2P Require Import StakingMath.
From S2P Require Import StakingContract.
From S2P Require Import UnitTest.

Local Open Scope Z_scope.

Module StakingTests.
Abbreviation T := (Test Contract).

(** ** gas.rs *)
Definition epoch_dispatch_budget_leaves_margin_after_value_returning_tail_and_release : T unit :=
let max_value_returning_tail :=
foldr Z.max 0 [Gas.ON_LOCK_FINALLY_MINT; Gas.ON_SUBSCRIPTION_UPDATE_AFTER_SETTLE; Gas.ON_FARM_STAKE_AFTER_SETTLE] in
let max_value_returning_release :=
foldr Z.max 0 [Gas.ON_EPOCH_PIPELINE_RELEASE_WITH_LOCK_ID; Gas.ON_EPOCH_PIPELINE_RELEASE_WITH_SUBSCRIPTION_UPDATE_OUTCOME;
Gas.ON_EPOCH_PIPELINE_RELEASE_WITH_FARM_POSITION] in
let scheduled_child_gas := max_value_returning_tail + max_value_returning_release in
assert (scheduled_child_gas <? Gas.ON_EPOCH_SETTLEMENT_DISPATCH).

(** ** stake.rs *)
Definition reward_rate_example_matches_spec : T unit :=
reward ← pure (farm_delta_reward_units (100 * YOCTO_PER_NEAR) (6 * 86400 * NS_PER_SECOND) 3858024691358024);
assert_eq reward 199999999999999964160000.
Definition shares_for_partial_unstake_round_up : T unit :=
s ← pure (farm_shares_for_amount_ceil 4 10 11 10); assert_eq s 4.

(** ** subscriptions.rs *)
Definition JUL_28_2026_063128_629578_NS : Z := 1785220288629578000.
Definition AUG_28_2026_063128_629578_NS : Z := 1787898688629578000.
Definition ns_for_utc (year month day hour minute second nanosecond : Z) : T Z :=
let days_ns := days_from_civil year month day * NS_PER_DAY in
let time_ns := hour * 3600000000000 + minute * 60000000000 + second * 1000000000 + nanosecond in
pure (checked_op U64_MAX (days_ns + time_ns) "test timestamp fits u64").

Definition calendar_month_preserves_day_and_time_of_day : T unit :=
assert_eq (add_months_stripe_style 28 1 JUL_28_2026_063128_629578_NS) AUG_28_2026_063128_629578_NS.
Definition calendar_month_clamps_end_of_month : T unit :=
start ← ns_for_utc 2026 1 31 10 0 0 0; feb_end ← ns_for_utc 2026 2 28 10 0 0 0; mar_end ← ns_for_utc 2026 3 31 10 0 0 0;
assert_eq (add_months_stripe_style 31 1 start) feb_end ;; assert_eq (add_months_stripe_style 31 1 feb_end) mar_end.
Definition calendar_month_clamps_leap_year_february : T unit :=
start ← ns_for_utc 2028 1 31 10 0 0 0; expected ← ns_for_utc 2028 2 29 10 0 0 0;
assert_eq (add_months_stripe_style 31 1 start) expected.
Definition calendar_month_multi_month_add_preserves_anchor_and_time : T unit :=
start ← ns_for_utc 2026 1 15 23 59 59 123; expected ← ns_for_utc 2027 3 15 23 59 59 123;
assert_eq (add_months_stripe_style 15 14 start) expected.
Definition billing_anchor_day_uses_utc_day_of_month : T unit :=
assert_eq (billing_anchor_day_from_timestamp JUL_28_2026_063128_629578_NS) 28.

(** ** utils.rs *)
Definition mint_first_deposit_one_to_one : T unit :=
s ← pure (mint_shares 0 0 1000000000000000000000000); assert_eq s 1000000000000000000000000.
Definition mint_pro_rata : T unit := s ← pure (mint_shares 2000 4000 1000); assert_eq s 500.
Definition sequential_share_exit_net_effective_totals_to_gross : T unit :=
let gross := 100 in let ts0 := 100 in let sh := 50 in let user_liab0 := 0 in
let eff1 := saturating_sub gross user_liab0 in
n1 ← pure (near_from_shares sh eff1 ts0);
let user_liab1 := u128_saturating_add user_liab0 n1 in
let ts1 := saturating_sub ts0 sh in
let eff2 := saturating_sub gross user_liab1 in
n2 ← pure (near_from_shares sh eff2 ts1);
assert_eq (u128_saturating_add n1 n2) gross.

Definition test_price (amount lock_factor_near_months : Z) : Price.t :=
Price.mk "price_x" "prod_x" "" "" amount PriceType.Recurring (Some BillingPeriod.Monthly) lock_factor_near_months None CatalogStatus.Active 0.
Definition price_lock_check_does_not_saturate_required_near_months : T unit :=
let one_near := 1000000000000000000000000 in let one_month := AVG_MONTH_NS in let lock_factor := U128_MAX in
let low_price := test_price one_near lock_factor in
let high_price := test_price (Z.min U128_MAX (one_near * 100)) lock_factor in
low ← pure (check_near_price_lock low_price one_near one_month); assert (negb low) ;;
high ← pure (check_near_price_lock high_price one_near one_month); assert (negb high) ;;
low_required ← pure (required_near_months low_price); high_required ← pure (required_near_months high_price);
assert (low_required <? high_required).

(** ** validators.rs *)
Definition config_with_settle_epochs (settle_epochs : Z) : Config.t :=
Config.mk "owner.near" None [] 1 (U64_MAX / 8) settle_epochs (from_millinear 100) 0 0 0 (from_near 1).
Definition contract_with_settle_epochs (settle_epochs : Z) : T unit :=
c ← pure (staking_new (config_with_settle_epochs settle_epochs)); set_contract c.
Definition validator_with_last_unstake_epoch (last_unstake_epoch : Z) : Validator.t :=
Validator.mk "pool.near" [] ValidatorStatus.Active 0 0 0 0 0 last_unstake_epoch 0 0 0 TransactionStatus.Idle.
Definition set_epoch (epoch_height : Z) : T unit :=
testing_env (mkEnv "buyer.near" "staking.near" "buyer.near" 0 0 0 (10 ^ 26) (10 ^ 19) (3 * 10 ^ 14) [] epoch_height (3 * 10 ^ 14)).
Definition available_epoch (validator : Validator.t) : T Z := view (fun e c => mret (pending_unstake_tranche_available_epoch_height e c validator)).

Definition pending_unstake_tranche_waits_for_next_epoch_pool_unstake : T unit :=
set_epoch 100 ;; contract_with_settle_epochs 4 ;;
h ← available_epoch (validator_with_last_unstake_epoch 0); assert_eq h 105.
Definition pending_unstake_tranche_honors_prior_pool_unstake_spacing : T unit :=
set_epoch 100 ;; contract_with_settle_epochs 4 ;;
h ← available_epoch (validator_with_last_unstake_epoch 103); assert_eq h 111.

Definition suite : list (T unit) := [
epoch_dispatch_budget_leaves_margin_after_value_returning_tail_and_release;
reward_rate_example_matches_spec; shares_for_partial_unstake_round_up;
calendar_month_preserves_day_and_time_of_day; calendar_month_clamps_end_of_month; calendar_month_clamps_leap_year_february;
calendar_month_multi_month_add_preserves_anchor_and_time; billing_anchor_day_uses_utc_day_of_month;
mint_first_deposit_one_to_one; mint_pro_rata; sequential_share_exit_net_effective_totals_to_gross;
price_lock_check_does_not_saturate_required_near_months;
pending_unstake_tranche_waits_for_next_epoch_pool_unstake; pending_unstake_tranche_honors_prior_pool_unstake_spacing
].

(** Every test passes, from any contract. *)
Theorem staking_tests_pass c : forallb (fun t => passes (vm_context "alice.near" "bob.near" "bob.near" 0 0 0 [], c) (None, t)) suite = true.
Proof. vm_compute. reflexivity. Qed.
End StakingTests.
