(* ===== verification/ExamplesCommon.v ===== *)
(** * Examples: balances and the Merkle tree

    The theorems on balances and on the tree at concrete inputs. *)
From stdpp Require Import base gmap strings list pretty.
From Stdlib Require Import ZArith Lia.
From S2P Require Import Prelude.
From S2P Require Import Near.
From S2P Require Import Common.
From S2P Require Import CommonFacts.
From S2P Require Import MerkleTree.
From S2P Require Import MerkleFacts.
From S2P Require Import MerkleRebuild.
From S2P Require Import Instances.

Local Open Scope Z_scope.

(** ** Balances *)
Module Balances.
(** 12.3456 NEAR with 1 veNEAR accrued, delegated at 33.33%. *)
Definition b0 : VenearBalance := mkBalance (123456 * 10 ^ 20) NEAR.
Definition g : VenearGrowthConfig := FixedRate rate6.
Definition t0 : Z := 1735689600 * NS_PER_SEC.
Definition t1 : Z := t0 + 365 * day.
Definition pool0 : PooledVenearBalance := Pooled (mkBalance (7 * NEAR) 5).

Definition or_zero (r : result VenearBalance) : VenearBalance :=
match r with Ok b => b | Panic _ => VenearBalance.default end.
Definition or_empty (r : result PooledVenearBalance) : PooledVenearBalance :=
match r with Ok p => p | Panic _ => Pool.default end.

Definition contribution : VenearBalance := or_zero (VenearBalance.delegation_contribution b0 3333).
Definition grown : VenearBalance := or_zero (VenearBalance.update b0 t0 t1 g).
Definition p1 : PooledVenearBalance := or_empty (Pool.pooled_add_delegation pool0 b0 3333).
Definition p1' : PooledVenearBalance := or_empty (Pool.update p1 t0 t1 g).
Definition p' : PooledVenearBalance := or_empty (Pool.update pool0 t0 t1 g).

Example contribution_value : near_balance contribution = 4114 * 10 ^ 21.
Proof. vm_compute. reflexivity. Qed.

Lemma delegation_growth_witness :
exists c', VenearBalance.update contribution t0 t1 g = Ok c' /\
 VenearBalance.delegation_contribution grown 3333 = Ok c'.
Proof.
apply (delegation_growth_exact g b0 3333 t0 t1 contribution grown).
- split; [reflexivity | vm_compute; discriminate].
- split; vm_compute; discriminate.
- repeat split; vm_compute; discriminate.
- vm_compute. reflexivity.
- vm_compute. reflexivity.
- vm_compute. discriminate.
- vm_compute. discriminate.
Defined.

Lemma pool_add_grow_sub_witness : Pool.pooled_sub_delegation p1' grown 3333 = Ok p' /\ p' <> p1'.
Proof.
split; [|vm_compute; discriminate].
apply (pool_add_grow_sub_identity g pool0 b0 3333 t0 t1 p1 p1' grown p').
- split; [reflexivity | vm_compute; discriminate].
- split; vm_compute; discriminate.
- repeat split; vm_compute; discriminate.
- repeat split; vm_compute; discriminate.
- vm_compute. reflexivity.
- vm_compute. reflexivity.
- vm_compute. reflexivity.
- vm_compute. reflexivity.
- vm_compute. reflexivity.
- vm_compute. discriminate.
- vm_compute. discriminate.
Defined.
End Balances.

(** ** The tree *)
Module Trees.
(** Three accounts added in two blocks, the second changed in a third. *)
Definition leaf (a : AccountId) (n : Z) : VAccount := V1 (mkAccount a 0 (mkBalance n 0) Pool.default []).

Definition put (bh : Z) (a : AccountId) (n : Z) (t : MerkleTree VAccount Z) : MerkleTree VAccount Z :=
match set bh a (leaf a n) t with Ok (_, t') => t' | Panic _ => t end.

Definition t0 : MerkleTree VAccount Z := MerkleTree.new 10 7.
Definition t2 : MerkleTree VAccount Z := put 11 "bob" 200 (put 11 "alice" 100 t0).
Definition t3 : MerkleTree VAccount Z := put 12 "carol" 300 t2.
Definition t5 : MerkleTree VAccount Z := set_global_state 13 8 (put 13 "bob" 250 t3).

Lemma put_step bh a n t : is_ok (set bh a (leaf a n) t) = true -> tree_step_at bh t (put bh a n t).
Proof.
unfold put. destruct (set bh a (leaf a n) t) as [[old t']|] eqn:E; [|done]. intros _. by eapply step_set.
Qed.

Lemma block13 : star (tree_step_at 13) t3 t5.
Proof.
eapply star_step; [eapply star_step; [constructor|]|].
- apply (put_step 13 "bob" 250 t3). vm_compute. reflexivity.
- apply step_set_global_state.
Qed.

Lemma t5_reachable : reachable t5.
Proof.
exists 10, 7. fold t0.
assert (forall t t' : MerkleTree VAccount Z, tree_step_at 11 t t' \/ tree_step_at 12 t t' \/ tree_step_at 13 t t' -> tree_step t t') as Hs.
{ intros t t' H. destruct H as [H|[H|H]]; eexists; exact H. }
apply (star_trans _ _ t3).
- repeat (eapply star_step; [|apply Hs; first [left; apply put_step; vm_compute; reflexivity
| right; left; apply put_step; vm_compute; reflexivity]]). constructor.
- eapply star_step; [eapply star_step; [constructor|]|]; apply Hs; right; right.
+ apply (put_step 13 "bob" 250 t3). vm_compute. reflexivity.
+ apply step_set_global_state.
Qed.

Definition proof_of (a : AccountId) : MerkleProof :=
match get_proof a t5 with Ok (Some (p, _)) => p | _ => mkProof 0 [] end.

Lemma merkle_root_witness : root t5 = reference_root [leaf "alice" 100; leaf "bob" 250; leaf "carol" 300].
Proof. rewrite (merkle_root_reference t5 t5_reachable). vm_compute. reflexivity. Defined.

Lemma merkle_proof_complete_witness :
exists p, get_proof "bob" t5 = Ok (Some (p, leaf "bob" 250)) /\
is_valid p (root t5) (tree_length t5) (leaf "bob" 250) = true.
Proof. apply (merkle_proof_complete "bob" t5 (leaf "bob" 250) t5_reachable). vm_compute. reflexivity. Defined.

Lemma merkle_proof_sound_witness :
get_by_index 1 t5 = Some (leaf "bob" 250) \/ forged t5 (proof_of "bob") (leaf "bob" 250).
Proof.
apply (merkle_proof_sound t5 (proof_of "bob") (leaf "bob" 250) t5_reachable).
- vm_compute. discriminate.
- vm_compute. repeat constructor.
- vm_compute. reflexivity.
Defined.

Lemma snapshot_stable_witness :
get_snapshot 13 t5 = Some (mkSnapshot (root t3) 3 12, 7) /\ root t5 <> root t3.
Proof.
split; [|vm_compute; discriminate].
destruct (snapshot_stable_in_block 13 t3 t5 block13) as [_ H]. apply H. vm_compute. discriminate.
Defined.

(** *** Hashing the tree again *)
Definition grown (n : nat) : MerkleTree VAccount Z := foldl (fun t k => put 11 (pretty k) 100 t) t0 (seq 0 n).

Lemma grown_reachable n : reachable (grown n).
Proof.
exists 10, 7. fold t0. induction n as [|n IH]; [constructor|]. unfold grown. rewrite seq_S, foldl_app. cbn. fold (grown n).
unfold put. destruct (set _ _ _ (grown n)) as [[old t']|] eqn:E; [|done]. eapply star_step; [exact IH|]. eexists. by eapply step_set.
Qed.

Lemma remerkalize_agrees_witness : exists t', remerkalize (grown 16) = Ok t' /\ root t' = root (grown 16).
Proof.
apply remerkalize_agrees.
- apply grown_reachable.
- vm_compute. split; discriminate.
Defined.

Definition rebuilt (t : MerkleTree VAccount Z) : Z * bool :=
(tree_length t, match remerkalize t with Ok t' => bool_decide (root t' = root t) | Panic _ => true end).

Lemma rebuilt_changed t n : rebuilt t = (n, false) -> tree_length t = n /\ exists t', remerkalize t = Ok t' /\ root t' <> root t.
Proof.
unfold rebuilt. destruct (remerkalize t) as [t'|]; intros [= -> H]. split; [done|]. exists t'. split; [done|].
by apply bool_decide_eq_false in H.
Qed.

(** With 17 values the subtree of the leaves 24 to 31 is empty; hashing the
tree again gives it the hash of an inner node, and the root changes. *)
Theorem remerkalize_changes_the_root : reachable (grown 17) /\ tree_length (grown 17) = 17 /\
exists t', remerkalize (grown 17) = Ok t' /\ root t' <> root (grown 17).
Proof. split; [apply grown_reachable | apply rebuilt_changed; vm_compute; reflexivity]. Qed.
End Trees.
