(* ===== verification/ExamplesVenear.v ===== *)
(** * Examples: a run of the veNEAR contract

    Three accounts register; alice deploys a lockup that reports 100 NEAR
    locked and delegates her veNEAR to bob and carol; the guardian pauses the
    contract. The theorems on veNEAR are applied to the states of this run. The
    last module runs the unit tests of the contract. *)
From stdpp Require Import base gmap strings list.
From Stdlib Require Import ZArith Lia.
From S2P Require Import Prelude.
From S2P Require Import Near.
From S2P Require Import Common.
From S2P Require Import CommonFacts.
From S2P Require Import MerkleTree.
From S2P Require Import MerkleFacts.
From S2P Require Import VenearContract.
From S2P Require Import VenearLedger.
From S2P Require Import VenearInvariant.
From S2P Require Import VenearOps.
From S2P Require Import VenearMigrate.
From S2P Require Import VenearTheorems.
From S2P Require Import Events.
From S2P Require Import VenearReplay.
From S2P Require Import Instances.
From S2P Require Import UnitTest.

Local Open Scope Z_scope.

Module VenearRun.
Definition me : AccountId := "venear.near".
Definition cfg : Config :=
mkConfig None (90 * day) "whitelist.near" ["deployer.near"] (10 ^ 23) (2 * NEAR) "owner.near"
["guard.near"] None 8.

Definition call_at (who : AccountId) (dep h : Z) : Env := at_block who me dep h [].
Definition own_at (h : Z) : Env := at_block me me 0 h [Successful].

Definition step (x : Call) (e : Env) (c : Contract) : Contract := after (run x) e c.

Definition c0 : Contract :=
mkContract (MerkleTree.new 0 (GV0 (GlobalState.new (1735689600 * NS_PER_SEC) (FixedRate rate6))))
∅ cfg false ∅.

Definition code : bytes := [0; 97; 115; 109].
Definition lockup_of (a : AccountId) : AccountId :=
match get_lockup_account_id me a with Ok id => id | Panic _ => "" end.
Definition split_ab : list DelegationEntry := [mkEntry "bob.near" 2500; mkEntry "carol.near" 3333].

Definition script : list (Call * Env) := [
(StorageDeposit None, call_at "alice.near" NEAR 10);
(StorageDeposit None, call_at "bob.near" NEAR 11);
(StorageDeposit (Some "carol.near"), call_at "bob.near" NEAR 11);
(PrepareLockupCode code, call_at "deployer.near" NEAR 20);
(SetLockupContract (sha256 code) (2 * NEAR), call_at "owner.near" 1 21);
(DeployLockupCall, call_at "alice.near" (3 * NEAR) 30);
(OnLockupDeployed 1 "alice.near" 30000000 (3 * NEAR), own_at 31)
].

Fixpoint play (xs : list (Call * Env)) (c : Contract) : Contract :=
match xs with [] => c | (x, e) :: xs' => play xs' (step x e c) end.

Fixpoint plays (now : Z) (xs : list (Call * Env)) (c : Contract) : bool :=
match xs with
| [] => true
| (x, e) :: xs' => (now <=? block_timestamp e) && is_ok (run x e c) && plays (block_timestamp e) xs' (step x e c)
end.

Fixpoint clock (now : Z) (xs : list (Call * Env)) : Z :=
match xs with [] => now | (_, e) :: xs' => clock (block_timestamp e) xs' end.

(** A script that runs reaches its last state. *)
Lemma play_reachable now c xs : reachable now c -> Forall (fun x => env_ok (snd x) /\ call_ok (fst x)) xs ->
plays now xs c = true -> reachable (clock now xs) (play xs c).
Proof.
intros Hr Hok. revert now c Hr. induction Hok as [|[x e] xs [He Hx] _ IH]; intros now c Hr Hp; [done|].
cbn in Hp. bool_prop. cbn. apply IH; [|done]. eapply reach_call; [exact Hr | done | lia | exact Hx|]. by apply ran_unit.
Qed.

(** The side conditions of a script: times and argument types. *)
Ltac script_ok := repeat constructor; try (vm_compute; discriminate).

Definition now0 : Z := block_timestamp (call_at "owner.near" 0 0).
Lemma c0_reachable : reachable now0 c0.
Proof.
apply (reach_new (call_at "owner.near" 0 0) cfg rate6); [| | |reflexivity]; try (repeat split; vm_compute; discriminate).
Qed.

(** The states before alice's report, after it, and after her delegation. *)
Definition e_report : Env := call_at (lockup_of "alice.near") 1 100.
Definition e_split : Env := call_at "alice.near" NEAR 86400.
Definition update100 : LockupUpdateV1 := mkLockupUpdate (100 * NEAR) 0 30000001.
Definition c7 : Contract := play script c0.
Definition c8 : Contract := after (on_lockup_update 1 "alice.near" (LV1 update100)) e_report c7.
Definition c9 : Contract := after (set_delegations split_ab) e_split c8.
Definition now7 : Z := clock now0 script.

Lemma c7_reachable : reachable now7 c7.
Proof. apply play_reachable; [apply c0_reachable | script_ok | vm_compute; reflexivity]. Qed.

Lemma e_split_ok : env_ok e_split.
Proof. repeat split; vm_compute; discriminate. Qed.
Lemma e_report_ok : env_ok e_report.
Proof. repeat split; vm_compute; discriminate. Qed.
Lemma split_bps : Forall (fun d => bps_ok (bps d)) split_ab.
Proof. repeat constructor; vm_compute; discriminate. Qed.

Lemma report_runs : on_lockup_update 1 "alice.near" (LV1 update100) e_report c7 =
Ok (tt, c8, effects (on_lockup_update 1 "alice.near" (LV1 update100)) e_report c7).
Proof. unfold c8. apply ran_unit. vm_compute. reflexivity. Qed.
Lemma split_runs : set_delegations split_ab e_split c8 = Ok (tt, c9, effects (set_delegations split_ab) e_split c8).
Proof. unfold c9. apply ran_unit. vm_compute. reflexivity. Qed.

Lemma c8_reachable : reachable (block_timestamp e_report) c8.
Proof.
eapply (reach_call _ _ (OnLockupUpdate 1 "alice.near" (LV1 update100)) _ _ _ c7_reachable e_report_ok);
[vm_compute; discriminate | vm_compute; discriminate | exact report_runs].
Qed.
Lemma c9_reachable : reachable (block_timestamp e_split) c9.
Proof.
eapply (reach_call _ _ (SetDelegations split_ab) _ _ _ c8_reachable e_split_ok);
[vm_compute; discriminate | exact split_bps | exact split_runs].
Qed.

(** A month later. *)
Definition later : Env := call_at "dora.near" 0 (86400 * 30).
Definition T : Z := block_timestamp later.
Lemma later_ok : env_ok later.
Proof. repeat split; vm_compute; discriminate. Qed.

Definition balance_later (a : AccountId) : Z :=
match ft_balance_of later c9 a with Ok n => n | Panic _ => 0 end.

Example bob_votes_for_alice : balance_later "bob.near" = 25248899350551758508314900.
Proof. vm_compute. reflexivity. Qed.

Lemma ledger_exact_witness :
pool_exact (snap T c9) /\ total_exact (snap T c9) (total_at T c9).
Proof. apply (ledger_exact (block_timestamp e_split) c9 T c9_reachable). vm_compute. reflexivity. Defined.

Lemma supply_witness :
map_sum (fun a _ => balance_later a) (internals c9) = 100794611105022863496716800.
Proof.
apply (supply_is_sum_of_balances (block_timestamp e_split) c9 later _ balance_later c9_reachable later_ok).
- vm_compute. reflexivity.
- assert (map_Forall (fun a _ => is_ok (ft_balance_of later c9 a) = true) (internals c9)) as H
by (apply (bool_decide_unpack _); vm_compute; exact I).
intros a [i Hi]. apply H in Hi. unfold balance_later. cbn in Hi.
destruct (ft_balance_of later c9 a); [reflexivity | discriminate].
Defined.

Definition t_split : Z := truncate_to_seconds (block_timestamp e_split).

Lemma set_delegations_witness :
total_at t_split c9 = total_at t_split c8 /\
exists ao, snap t_split c8 !! "alice.near" = Some ao /\
snap t_split c9 !! "alice.near" = Some (Account.with_delegations ao split_ab) /\
snap t_split c9 !! "bob.near" = shift_pool (redelegation ao split_ab "bob.near") <$> snap t_split c8 !! "bob.near".
Proof.
destruct (set_delegations_spec _ _ _ _ _ _ c8_reachable e_split_ok split_bps split_runs) as (_ & _ & (ao & H1 & H2 & H3) & H4 & _).
split; [exact H4|]. exists ao. split; [exact H1|]. split; [exact H2|]. apply H3. vm_compute. discriminate.
Defined.

Lemma validate_delegations_witness : valid_entries "alice.near" 8 split_ab /\ NoDup (ids split_ab) /\ 5833 = bps_sum split_ab.
Proof. apply (validate_delegations_correct split_ab "alice.near" 8 5833 split_bps). vm_compute. reflexivity. Defined.

Lemma lockup_update_witness :
exists i ao, internals c7 !! "alice.near" = Some i /\
snap (truncate_to_seconds (block_timestamp e_report)) c8 !! "alice.near" =
Some (Account.with_balance ao (lockup_balance (deposit i) (100 * NEAR) (balance ao))).
Proof.
assert (0 <= locked_near_balance update100) as Hl by (vm_compute; discriminate).
destruct (lockup_update_spec _ _ _ _ _ _ _ _ c7_reachable e_report_ok Hl report_runs) as (_ & i & ao & Hi & _ & _ & _ & _ & H & _).
exists i, ao. split; [exact Hi | exact H].
Defined.

(** Alice's stored nonce is 30000001, so that report cannot be replayed. *)
Lemma nonces_witness : exists i', internals c9 !! "alice.near" = Some i' /\
is_ok (internal_lockup_update "alice.near" i' update100 later c9) = false.
Proof.
destruct (nonces_never_decrease (block_timestamp e_report) (block_timestamp e_split) c8 c9 "alice.near"
(mkInternal (Some 1) (10 ^ 23) 30000001) c8_reachable) as (i' & Hi & _ & _ & H).
- eapply (calls_snoc _ _ _ _ (SetDelegations split_ab) e_split);
[constructor | apply e_split_ok | vm_compute; discriminate | exact split_bps |].
exact split_runs.
- vm_compute. reflexivity.
- exists i'. split; [exact Hi|]. apply H. vm_compute. discriminate.
Defined.

(** ** Pausing *)
Definition e_pause : Env := call_at "guard.near" 1 90000.
Definition e_unpause : Env := call_at "owner.near" 1 90001.
Definition c10 : Contract := after pause e_pause c9.
Definition c11 : Contract := after unpause e_unpause c10.
Lemma pause_runs : pause e_pause c9 = Ok (tt, c10, effects pause e_pause c9).
Proof. unfold c10. apply ran_unit. vm_compute. reflexivity. Qed.
Lemma unpause_runs : unpause e_unpause c10 = Ok (tt, c11, effects unpause e_unpause c10).
Proof. unfold c11. apply ran_unit. vm_compute. reflexivity. Qed.
Lemma e_pause_ok : env_ok e_pause.
Proof. repeat split; vm_compute; discriminate. Qed.
Lemma e_unpause_ok : env_ok e_unpause.
Proof. repeat split; vm_compute; discriminate. Qed.
Lemma c10_reachable : reachable (block_timestamp e_pause) c10.
Proof.
eapply (reach_call _ _ Pause _ _ _ c9_reachable e_pause_ok); [vm_compute; discriminate | exact I | exact pause_runs].
Qed.

Lemma settings_witness : paused c10 <> paused c9 /\
(predecessor_account_id e_pause = owner_account_id (config c9) \/
paused c10 = true /\ predecessor_account_id e_pause ∈ guardians (config c9)).
Proof.
assert (paused c10 <> paused c9) as Hp by (vm_compute; discriminate). split; [exact Hp|].
destruct (settings_change_authorised _ _ Pause _ _ _ c9_reachable e_pause_ok I pause_runs) as [_ H].
exact (proj2 (H Hp)).
Defined.

Lemma paused_witness : is_ok (get_snapshot_view later c10) = false /\
(forall a, is_Some (accts c11 !! a) <-> is_Some (accts c10 !! a)).
Proof.
assert (paused c10 = true) as Hp by (vm_compute; reflexivity).
destruct (paused_blocks_users _ _ Unpause _ c11 (effects unpause e_unpause c10) c10_reachable e_unpause_ok I Hp) as [_ H2].
destruct (paused_blocks_users _ _ Unpause _ c11 (effects unpause e_unpause c10) c10_reachable later_ok I Hp) as [[H1 _] _].
split; [exact H1|]. apply H2. exact unpause_runs.
Defined.

(** ** Migration: a state in which bob's pool was lost *)
Definition lose : AccountId * PooledVenearBalance := ("bob.near", Pool.default).
Definition stale : Contract := after (write_recomputed lose) e_pause c9.
Definition e_migrate : Env := own_at 100000.
Definition migrated : Contract := after migrate_state e_migrate stale.

Example stale_lost_bob : (delegated_balance <$> accts stale !! "bob.near") = Some Pool.default.
Proof. vm_compute. reflexivity. Qed.

Lemma stale_pre : PreInv stale.
Proof.
destruct (reachable_inv _ _ c9_reachable) as [[HP _] _].
assert (write_recomputed lose e_pause c9 = Ok (tt, stale, effects (write_recomputed lose) e_pause c9)) as Hw
by (unfold stale; apply ran_unit; vm_compute; reflexivity).
apply (write_recomputed_inv e_pause e_pause_ok) in Hw as (f & Hm & _);
[|exact HP | repeat split; vm_compute; discriminate | reflexivity].
by eapply moves_pre; [apply truncate_to_seconds_aligned | exact HP | exact Hm].
Qed.

Lemma migrate_witness :
let t := truncate_to_seconds (block_timestamp e_migrate) in
pool_exact (snap t migrated) /\ total_exact (snap t migrated) (total_at t migrated).
Proof.
apply (migrate_establishes_exactness e_migrate stale migrated (effects migrate_state e_migrate stale) stale_pre).
- repeat split; vm_compute; discriminate.
- unfold migrated. apply ran_unit. vm_compute. reflexivity.
- apply truncate_to_seconds_aligned.
Defined.

(** ** The log of the run *)
Import BitText.

Fixpoint chronicle (xs : list (Call * Env)) (c : Contract) : list Effect :=
match xs with [] => [] | (x, e) :: xs' => effects (run x) e c ++ chronicle xs' (step x e c) end.

Lemma chronicle_history now c past xs : history now c past -> Forall (fun x => env_ok (snd x) /\ call_ok (fst x)) xs ->
plays now xs c = true -> history (clock now xs) (play xs c) (past ++ chronicle xs c).
Proof.
intros Hr Hok. revert now c past Hr. induction Hok as [|[x e] xs [He Hx] _ IH]; intros now c past Hr Hp.
- by rewrite app_nil_r.
- cbn in Hp. bool_prop. cbn. rewrite app_assoc. apply IH; [|done].
eapply hist_call; [exact Hr | done | lia | exact Hx|]. by apply ran_unit.
Qed.

Lemma play_log now c xs : history now c [] -> Forall (fun x => env_ok (snd x) /\ call_ok (fst x)) xs ->
plays now xs c = true -> history (clock now xs) (play xs c) (chronicle xs c).
Proof. apply (chronicle_history now c []). Qed.

Definition whole : list (Call * Env) :=
(script ++ [(OnLockupUpdate 1 "alice.near" (LV1 update100), e_report); (SetDelegations split_ab, e_split)])%list.
Definition c_whole : Contract := play whole c0.
Definition log : list Effect := chronicle whole c0.

Example log_of_alice : bal (replay log) "alice.near" = 41718848838185559182787724 /\
bal (replay log) "dora.near" = 0 /\ length (omap effect_line log) = 10%nat.
Proof. vm_compute. done. Qed.

Lemma c0_history : history now0 c0 [].
Proof.
apply (hist_new (call_at "owner.near" 0 0) cfg rate6); [| | |reflexivity]; try (repeat split; vm_compute; discriminate).
Qed.
Lemma whole_ok : Forall (fun x => env_ok (snd x) /\ call_ok (fst x)) whole.
Proof. unfold whole, script. cbn [app]. script_ok. Qed.
Lemma whole_history : history (clock now0 whole) c_whole log.
Proof.
unfold c_whole, log. apply play_log; [exact c0_history | exact whole_ok | vm_compute; reflexivity].
Qed.
Lemma log_printable : Forall (fun ef => effect_printable ef = true) log.
Proof. apply (bool_decide_unpack _). vm_compute. exact I. Qed.

Lemma log_is_the_ledger_witness :
exists x, internal_get_account c_whole "bob.near" = Some x /\
Account.owned_total x = Ok (bal (replay log) "bob.near").
Proof.
pose proof (log_is_the_ledger (clock now0 whole) c_whole log later "bob.near" (balance_later "bob.near")
whole_history log_printable later_ok) as H.
destruct (internal_get_account c_whole "bob.near") as [x|] eqn:E; [|vm_compute in E; discriminate].
exists x. split; [reflexivity|]. apply H; vm_compute; [discriminate | reflexivity].
Defined.

(** Two burns with one line are one burn; a mint's line is not a burn's. *)
Definition burn (amount : Z) : Event + StakingTypes.StakeEvent := inl (ft_burn "bob.near" amount).
Example mint_is_no_burn : event_line (inl (ft_mint "bob.near" 5)) <> event_line (burn 5).
Proof. vm_compute. discriminate. Qed.
Lemma lines_are_distinct_witness : burn (10 - 5) = burn 5.
Proof. apply (lines_are_distinct (burn (10 - 5)) (burn 5)); vm_compute; reflexivity. Defined.
End VenearRun.

(** ** Unit tests

    The tests of venear-contract/src/delegation.rs and lockup.rs with the
    fixtures of venear-contract/src/test_utils.rs. *)
Module VenearTests.
Abbreviation T := (Test Contract).

(** ** Fixtures *)
Definition entry (account_id : AccountId) (bps : Z) : T DelegationEntry := b ← pure (Bps.new bps); mret (mkEntry account_id b).

Definition test_config : Config := mkConfig None 0 "whitelist.near" [] 0 0 owner [] None 10.
Definition fresh_contract (predecessor : AccountId) : T unit :=
set_ctx predecessor 0 0 ;;
contract ← view (fun e _ => new_contract e test_config fixed_rate_growth_config); set_contract contract.

Definition apply_lockup_update (caller : AccountId) (locked : NearToken) (timestamp_ns nonce : Z) : T unit :=
set_ctx caller 0 timestamp_ns ;;
c ← the_contract; account_internal ← unwrap (internal_get_account_internal c caller);
call (internal_lockup_update caller account_internal (mkLockupUpdate locked timestamp_ns nonce)).

Definition caller : AccountId := "caller.near".

Definition account_of (account_id : AccountId) : T Account := o ← view (fun e c => get_account_info e c account_id); i ← unwrap o; mret i.1.

Definition registered_contract (caller : AccountId) (delegates : list AccountId) : T unit :=
fresh_contract caller ;; call (internal_register_account caller (from_near 1)) ;;
each delegates (fun id => call (internal_register_account id 0)).

Definition contribution_near (balance : NearToken) (bps : Z) : NearToken :=
from_millinear (balance * bps / 10000 / from_millinear 1).

Definition delegated_total (account_id : AccountId) : T NearToken := a ← account_of account_id; pure (Pool.total (delegated_balance a)).

Definition assert_delegated (account_id : AccountId) (expected : NearToken) : T unit := d ← delegated_total account_id; assert_eq d expected.
Definition assert_delegations (account_id : AccountId) (entries : list DelegationEntry) : T unit :=
a ← account_of account_id; assert_eq (delegations a) entries.

(** ** delegation.rs *)
Definition accepts_partial_sum_under_full : T unit :=
registered_contract caller ["a.near"; "b.near"] ;;
a ← entry "a.near" 2500; b ← entry "b.near" 1500;
set_ctx caller (from_near 1) 0 ;; call (set_delegations [a; b]) ;;
assert_delegations caller [a; b] ;; assert_delegated "a.near" (from_millinear 250) ;; assert_delegated "b.near" (from_millinear 150).

Definition accepts_sum_exactly_full : T unit :=
registered_contract caller ["a.near"; "b.near"] ;;
a ← entry "a.near" 4000; b ← entry "b.near" 6000;
set_ctx caller (from_near 1) 0 ;; call (set_delegations [a; b]) ;;
assert_delegations caller [a; b] ;; assert_delegated "a.near" (from_millinear 400) ;; assert_delegated "b.near" (from_millinear 600).

Definition accepts_single_full_entry : T unit :=
registered_contract caller ["a.near"] ;;
a ← entry "a.near" 10000;
set_ctx caller (from_near 1) 0 ;; call (set_delegations [a]) ;;
assert_delegations caller [a] ;; assert_delegated "a.near" (from_near 1).

Definition day_ns : Z := 86400000000000.

Definition clears_partial_delegation_after_growth_period : T unit :=
fresh_contract caller ;;
call (internal_register_account caller (from_millinear 4100)) ;; call (internal_register_account "a.near" 0) ;;
set_ctx caller (from_near 1) 0 ;; a ← entry "a.near" 2512; call (set_delegations [a]) ;;
set_ctx caller (from_near 1) (27 * day_ns) ;; call (set_delegations []) ;;
assert_delegations caller [] ;; assert_delegated "a.near" 0.

Definition clears_five_delegates_after_ten_years : T unit :=
let delegates := ["a.near"; "b.near"; "c.near"; "d.near"; "e.near"]%string in
stake ← pure (near_add (from_near 777) 777);
fresh_contract caller ;; call (internal_register_account caller stake) ;;
each delegates (fun d => call (internal_register_account d 0)) ;;
a ← entry "a.near" 2512; b ← entry "b.near" 1733; c ← entry "c.near" 999; d ← entry "d.near" 3001; e ← entry "e.near" 777;
let entries := [a; b; c; d; e] in
set_ctx caller (from_near 1) 0 ;; call (set_delegations entries) ;;
each entries (fun x => assert_delegated (delegate_id x) (contribution_near stake (bps x))) ;;
let year_ns := 365 * day_ns in
apply_lockup_update caller (from_near 111) (3 * year_ns) 1 ;;
apply_lockup_update caller 0 (7 * year_ns) 2 ;;
each entries (fun x => assert_delegated (delegate_id x) (contribution_near stake (bps x))) ;;
set_ctx caller (from_near 1) (10 * year_ns) ;; call (set_delegations []) ;;
assert_delegations caller [] ;; each delegates (fun x => assert_delegated x 0).

Definition set_delegations_rejects_zero_bps : T unit :=
fresh_contract caller ;; set_ctx caller 1 0 ;;
a ← entry "a.near" 2500; b ← entry "b.near" 0; call (set_delegations [a; b]).

Definition set_delegations_rejects_sum_over_full : T unit :=
fresh_contract caller ;; set_ctx caller 1 0 ;;
a ← entry "a.near" 6000; b ← entry "b.near" 4001; call (set_delegations [a; b]).

(** ** lockup.rs *)
Definition small_lock_increase_keeps_extra_venear : T unit :=
fresh_contract caller ;; call (internal_register_account caller (from_near 1)) ;;
apply_lockup_update caller (from_near 100) 0 1 ;;
apply_lockup_update caller (from_millinear 100500) (30 * day_ns) 2 ;;
a ← account_of caller; assert_eq (near_balance (balance a)) (from_millinear 101500) ;;
c ← the_contract; g ← pure (calculate (internal_get_venear_growth_config c) 0 (30 * day_ns) (from_near 101));
assert_eq (extra_venear_balance (balance a)) g.

Definition unlock_forfeits_extra_venear : T unit :=
fresh_contract caller ;; call (internal_register_account caller (from_near 1)) ;;
apply_lockup_update caller (from_near 100) 0 1 ;;
apply_lockup_update caller (from_millinear 99999) (30 * day_ns) 2 ;;
a ← account_of caller; assert_eq (near_balance (balance a)) (from_millinear 100999) ;; assert_eq (extra_venear_balance (balance a)) 0.

Definition suite : list (option string * T unit) := [
(None, accepts_partial_sum_under_full); (None, accepts_sum_exactly_full); (None, accepts_single_full_entry);
(None, clears_partial_delegation_after_growth_period); (None, clears_five_delegates_after_ten_years);
(Some "Invalid bps (cannot be 0)", set_delegations_rejects_zero_bps); (Some "Total bps exceeds 10000", set_delegations_rejects_sum_over_full);
(None, small_lock_increase_keeps_extra_venear); (None, unlock_forfeits_extra_venear)
].

Definition start : Env * Contract :=
(vm_context "alice.near" "bob.near" "bob.near" 0 0 0 [], mkContract (MerkleTree.new 0 (GV0 (GlobalState.new 0 growth_config))) ∅ test_config false ∅).

(** Every test passes. *)
Theorem venear_tests_pass : forallb (passes start) suite = true.
Proof. vm_compute. reflexivity. Qed.
End VenearTests.
