(* ===== verification/ExamplesVoting.v ===== *)
(** * Examples: a run of the voting contract

    With one voting slot: a classic proposal with an action is approved,
    voted on with the veNEAR of the run of [ExamplesVenear], passes and is
    executed, while a second waits in the queue; a fast-track proposal is
    rejected and its bond claimed. The theorems on the voting contract are
    applied to states of this run. *)
From stdpp Require Import base gmap strings list.
From Stdlib Require Import ZArith Lia.
From S2P Require Import Prelude.
From S2P Require Import Near.
From S2P Require Import Common.
From S2P Require Import CommonFacts.
From S2P Require Import MerkleTree.
From S2P Require Import MerkleFacts.
From S2P Require Import VotingTypes.
From S2P Require Import VotingContract.
From S2P Require Import VotingFacts.
From S2P Require Import VotingInvariant.
From S2P Require Import VotingQueue.
From S2P Require Import VotingOps.
From S2P Require Import VotingCalls.
From S2P Require Import VotingTally.
From S2P Require Import VotingOutcome.
From S2P Require Import VotingTheorems.
From S2P Require Import Instances.
From S2P Require Import ExamplesVenear.

Local Open Scope Z_scope.

Module VotingRun.
Definition me : AccountId := "voting.near".
Definition k : VConfig.t :=
VConfig.mk "venear.near" ["reviewer.near"] ["council.near"] "owner.near" (7 * day) (7 * day) (2 * day) (10 ^ 23)
(5 * NEAR) "treasury.near" (10 ^ 21) ["guard.near"] (30 * day) (30 * day) None 3000 (10 * NEAR) 5000 5000 6667
(14 * day) 500 1.

Definition call_at (who : AccountId) (dep h : Z) : Env := at_block who me dep h [].
Definition own_at (h : Z) : Env := at_block me me 0 h [Successful].

(** The snapshot and the proofs veNEAR answers with. *)
Definition venear : VenearContract.Contract := VenearRun.c9.
Definition sg : MerkleTreeSnapshot * VGlobalState :=
match VenearContract.get_snapshot_view (at_block me "venear.near" 0 86500 []) venear with
| Ok (r, _, _) => r
| Panic _ => (mkSnapshot [] 0 0, GV0 (GlobalState.new 0 (FixedRate rate6)))
end.
Definition ballot (a : AccountId) : MerkleProof * VAccount :=
match get_proof a (VenearContract.tree venear) with
| Ok (Some r) => r
| _ => (mkProof 0 [], V1 (mkAccount a 0 VenearBalance.default Pool.default []))
end.
Definition cast_by (a : AccountId) (pid : ProposalId) (v : VoteOption.t) : VCall :=
CastVote pid v (fst (ballot a)) (snd (ballot a)).

Definition pay : list ProposalAction := [TransferAction "grantee.near" (50 * NEAR)].
Definition about (s : string) : ProposalMetadata := mkMetadata (Some s) None None.

Definition script_of (acts : list ProposalAction) : list (VCall * Env) := [
(CreateProposal (about "grant") (Some acts) Classic, call_at "prop.near" NEAR 86401);
(CreateProposal (about "fast") None FastTrack, call_at "prop.near" (6 * NEAR) 86402);
(CreateProposal (about "poll") None Classic, call_at "prop.near" NEAR 86403);
(ApproveProposal 0 None, call_at "reviewer.near" 1 86410);
(ApproveProposal 2 None, call_at "reviewer.near" 1 86411);
(OnGetSnapshot sg 0, own_at 86510);
(cast_by "alice.near" 0 VoteOption.For, call_at "alice.near" NEAR 86600);
(cast_by "bob.near" 0 VoteOption.Against, call_at "bob.near" NEAR 86601);
(cast_by "bob.near" 0 VoteOption.For, call_at "bob.near" NEAR 86602);
(RejectProposal 1, call_at "reviewer.near" 1 86700);
(ClaimBond 1, call_at "prop.near" 0 86701);
(NoVetoProposal 0, call_at "council.near" 1 (86410 + 8 * 86400));
(ExecuteProposal 0, call_at "anyone.near" 0 (86420 + 8 * 86400));
(OnExecuteProposal 0, own_at (86421 + 8 * 86400))
].
Definition script : list (VCall * Env) := script_of pay.

Definition ready (x : VCall) (l : list ProposalId) : bool :=
match x with OnExecuteProposal pid => bool_decide (pid ∈ l) | _ => true end.

Fixpoint play (xs : list (VCall * Env)) (c : Voting) : Voting :=
match xs with [] => c | (x, e) :: xs' => play xs' (after (vrun x) e c) end.
Fixpoint flying (xs : list (VCall * Env)) (l : list ProposalId) : list ProposalId :=
match xs with [] => l | (x, _) :: xs' => flying xs' (inflight_after x l) end.
Fixpoint cast_so_far (xs : list (VCall * Env)) (B : list (ProposalId * (MerkleProof * VAccount))) :=
match xs with [] => B | (x, _) :: xs' => cast_so_far xs' (ballots_after x B) end.
Fixpoint plays (xs : list (VCall * Env)) (l : list ProposalId) (c : Voting) : bool :=
match xs with
| [] => true
| (x, e) :: xs' => ready x l && is_ok (vrun x e c) && plays xs' (inflight_after x l) (after (vrun x) e c)
end.

Lemma play_history B l c xs : vhistory B l c -> Forall (fun x => vcall_ok (fst x)) xs -> plays xs l c = true ->
vhistory (cast_so_far xs B) (flying xs l) (play xs c).
Proof.
intros Hr Hok. revert B l c Hr. induction Hok as [|[x e] xs Hx _ IH]; intros B l c Hr Hp; [done|].
cbn in Hp. bool_prop. cbn. apply IH; [|done]. eapply vhist_call; [exact Hr | exact Hx | |by apply ran_unit].
destruct x; cbn in *; try exact I. by bool_prop.
Qed.

Lemma play_app xs ys c : play (xs ++ ys) c = play ys (play xs c).
Proof. revert c. induction xs as [|[x e] xs IH]; intros c; [done|]. apply IH. Qed.
Lemma flying_app xs ys l : flying (xs ++ ys) l = flying ys (flying xs l).
Proof. revert l. induction xs as [|[x e] xs IH]; intros l; [done|]. apply IH. Qed.
Lemma plays_app xs ys l c : plays (xs ++ ys) l c = true ->
plays xs l c = true /\ plays ys (flying xs l) (play xs c) = true.
Proof.
revert l c. induction xs as [|[x e] xs IH]; intros l c; [done|]. cbn [app plays flying play]. intros H. bool_prop.
destruct (IH _ _ ltac:(eassumption)) as [I1 I2]. split; [|exact I2]. repeat (apply andb_true_intro; split); done.
Qed.

(** The state after [n] calls of the script. *)
Definition at_call (n : nat) : Voting := play (take n script) (new_voting k).
Definition flying_at (n : nat) : list ProposalId := flying (take n script) [].
Definition ballots_at (n : nat) := cast_so_far (take n script) [].
Definition env_of (n : nat) : Env := match script !! n with Some (_, e) => e | None => call_at "" 0 0 end.

Lemma script_plays : plays script [] (new_voting k) = true.
Proof. vm_compute. reflexivity. Qed.

Lemma ballot_ok a : proof_ok (fst (ballot a)) \/ a <> "alice.near" /\ a <> "bob.near".
Proof.
destruct (decide (a = "alice.near")) as [->|]; [left; vm_compute; repeat constructor; discriminate|].
destruct (decide (a = "bob.near")) as [->|]; [left; vm_compute; repeat constructor; discriminate | by right].
Qed.

Lemma script_of_ok acts : Forall (fun x => vcall_ok (fst x)) (script_of acts).
Proof.
repeat (apply Forall_cons; split); try exact I; try (apply Forall_nil; exact I); unfold cast_by; cbn [fst vcall_ok].
- destruct (ballot_ok "alice.near") as [|[? _]]; done.
- destruct (ballot_ok "bob.near") as [|[_ ?]]; done.
- destruct (ballot_ok "bob.near") as [|[_ ?]]; done.
Qed.

Lemma script_ok : Forall (fun x => vcall_ok (fst x)) script.
Proof. apply script_of_ok. Qed.

Lemma k_fine : k_ok k.
Proof. split; [vm_compute; discriminate|]. repeat split; vm_compute; discriminate. Qed.

Lemma prefix_plays n : plays (take n script) [] (new_voting k) = true.
Proof. apply (plays_app (take n script) (drop n script)). rewrite take_drop. apply script_plays. Qed.

Lemma history_at n : vhistory (ballots_at n) (flying_at n) (at_call n).
Proof. apply play_history; [constructor; apply k_fine | apply Forall_take, script_ok | apply prefix_plays]. Qed.

Lemma reachable_at n : vreachable (flying_at n) (at_call n).
Proof. eapply vhistory_reachable, history_at. Qed.

Lemma step_at n x e : script !! n = Some (x, e) ->
vrun x e (at_call n) = Ok (tt, at_call (S n), effects (vrun x) e (at_call n)) /\ vcall_ok x /\ callback_ok x (flying_at n).
Proof.
intros Hn. pose proof (prefix_plays (S n)) as Hp. rewrite (take_S_r _ _ _ Hn) in Hp.
apply plays_app in Hp as [_ Hp]. cbn in Hp. bool_prop. split_and!.
- unfold at_call at 2. rewrite (take_S_r _ _ _ Hn), play_app. by apply ran_unit.
- exact (Forall_lookup_1 _ _ _ _ script_ok Hn).
- destruct x; cbn in *; try exact I. by bool_prop.
Qed.

Definition blank : Proposal :=
mkProposal 0 0 "" None None None None 0 0 None [] VoteStats.default St.Created 0 0 0 None Classic 0 None 0 0 0.
Definition prop (n : nat) (pid : ProposalId) : Proposal := default blank (stored (at_call n) pid).

Lemma stored_prop n pid : is_Some (stored (at_call n) pid) -> stored (at_call n) pid = Some (prop n pid).
Proof. unfold prop. intros [p ->]. reflexivity. Qed.

Ltac stored_here := apply stored_prop; vm_compute; eexists; reflexivity.

(** ** Runs with the receipts of executions *)
Inductive Move : Type :=
| Call (x : VCall) (e : Env)
| Act (i : nat) (x : VCall) (e : Env)
| Skip (i : nat)
| Back (i : nat) (e : Env).

Definition Config : Type := list VEffect * list Chain * Voting.

Definition ran_move (x : VCall) (e : Env) (rest : list VEffect -> list Chain) (s : Config) : option Config :=
let '(es, _, c) := s in
if String.eqb (current_account_id e) me && is_ok (vrun x e c)
then Some (es ++ effects (vrun x) e c, rest (effects (vrun x) e c), after (vrun x) e c) else None.

Definition move (m : Move) (s : Config) : option Config :=
let '(es, F, c) := s in
match m with
| Call x e =>
if negb (String.eqb (predecessor_account_id e) me) || own_call x
then ran_move x e (fun es' => F ++ omap chain_of es') s else None
| Act i x e =>
match F !! i with
| Some (FunctionCall r m _ d _ :: acts, pid) =>
if String.eqb r me && String.eqb m (vmethod x) && (d =? attached_deposit e) && String.eqb (predecessor_account_id e) me
then ran_move x e (fun es' => take i F ++ (acts, pid) :: drop (S i) F ++ omap chain_of es') s else None
| _ => None
end
| Skip i =>
match F !! i with Some (_ :: acts, pid) => Some (es, take i F ++ (acts, pid) :: drop (S i) F, c) | _ => None end
| Back i e =>
match F !! i with
| Some ([], pid) => if String.eqb (predecessor_account_id e) me
                    then ran_move (OnExecuteProposal pid) e (fun _ => take i F ++ drop (S i) F) s else None
| _ => None
end
end.

Definition move_ok (m : Move) : Prop := match m with Call x _ | Act _ x _ => vcall_ok x | _ => True end.

Lemma ran_move_inv x e rest es F c s' : ran_move x e rest (es, F, c) = Some s' ->
current_account_id e = me /\ exists es' c', vrun x e c = Ok (tt, c', es') /\ s' = (es ++ es', rest es', c').
Proof.
unfold ran_move. destruct (_ && _) eqn:E; [|discriminate]. intros [= <-]. bool_prop. split; [by apply String.eqb_eq|].
eexists _, _. split; [by apply ran_unit | reflexivity].
Qed.

Definition label (m : Move) (F : list Chain) : option (VCall * Env) :=
match m with
| Call x e | Act _ x e => Some (x, e)
| Skip _ => None
| Back i e => (fun ch => (OnExecuteProposal ch.2, e)) <$> F !! i
end.

Lemma receipt_step m es F c s' : move_ok m -> move m (es, F, c) = Some s' ->
exists es' F' c', s' = (es ++ es', F', c') /\ vstep me F c (label m F) es' F' c'.
Proof.
intros Hm H. destruct m as [x e|i x e|i|i e]; cbn [move move_ok label] in *.
- destruct (_ || _) eqn:E; [|discriminate]. apply ran_move_inv in H as (Hc & es' & c' & Hr & ->).
exists es', (F ++ omap chain_of es'), c'. split; [reflexivity|]. apply orb_prop in E as [E|E]; bool_prop.
+ apply String.eqb_neq in E. by apply vs_call.
+ destruct (decide (predecessor_account_id e = me)); [by apply vs_own | by apply vs_call].
- destruct (F !! i) as [[[|[r n args d g|] acts] pid]|] eqn:Ei; try discriminate.
destruct (_ && _) eqn:E; [|discriminate]. bool_prop. apply ran_move_inv in H as (Hc & es' & c' & Hr & ->).
repeat match goal with H : String.eqb _ _ = true |- _ => apply String.eqb_eq in H end. subst r n d.
eexists es', _, c'. split; [reflexivity|]. rewrite <- (take_drop_middle _ _ _ Ei) at 1. by apply vs_action.
- destruct (F !! i) as [[[|a acts] pid]|] eqn:Ei; try discriminate. injection H as <-.
eexists [], _, c. rewrite app_nil_r. split; [reflexivity|]. rewrite <- (take_drop_middle _ _ _ Ei) at 1. by apply vs_elsewhere.
- destruct (F !! i) as [[[|] pid]|] eqn:Ei; try discriminate. destruct (String.eqb _ _) eqn:E; [|discriminate].
apply String.eqb_eq in E. apply ran_move_inv in H as (Hc & es' & c' & Hr & ->).
eexists es', _, c'. split; [reflexivity|]. rewrite <- (take_drop_middle _ _ _ Ei) at 1. by apply vs_callback.
Qed.

Lemma config_step m s s' : move_ok m -> move m s = Some s' ->
exists es, s'.1.1 = s.1.1 ++ es /\ vstep me s.1.2 s.2 (label m s.1.2) es s'.1.2 s'.2.
Proof. destruct s as [[es F] c]. intros Hm (es' & F' & c' & -> & Hs)%receipt_step; [|done]. by exists es'. Qed.

Fixpoint moves (ms : list Move) (s : Config) : option Config :=
match ms with [] => Some s | m :: ms' => match move m s with Some s' => moves ms' s' | None => None end end.

Lemma moves_steps ms es F c s' : Forall move_ok ms -> moves ms (es, F, c) = Some s' ->
exists es' F' c', s' = (es ++ es', F', c') /\ vsteps me F c es' F' c'.
Proof.
intros Hok. revert es F c. induction Hok as [|m ms Hm _ IH]; intros es F c H; cbn [moves] in H.
- injection H as <-. exists [], F, c. rewrite app_nil_r. split; [reflexivity | constructor].
- destruct (move m (es, F, c)) as [s1|] eqn:E; [|discriminate].
apply receipt_step in E as (es1 & F1 & c1 & -> & Hs); [|done]. apply IH in H as (es2 & F2 & c2 & -> & Hss).
exists (es1 ++ es2), F2, c2. rewrite app_assoc. split; [reflexivity | by eapply vsteps_cons].
Qed.

Definition start : Config := ([], [], new_voting k).
Definition ran_config (ms : list Move) : Config := default start (moves ms start).
Definition is_run (ms : list Move) : bool := match moves ms start with Some _ => true | None => false end.

Lemma moves_run ms : Forall move_ok ms -> is_run ms = true ->
voting_run me (ran_config ms).1.1 (ran_config ms).1.2 (ran_config ms).2.
Proof.
intros Hok H. unfold is_run, ran_config in *. destruct (moves ms start) as [s|] eqn:E; [|discriminate].
apply moves_steps in E as (es & F & c & -> & Hs); [|done]. exists k. split; [apply k_fine | exact Hs].
Qed.

(** The script with the receipts of its execution: the payment runs on the
grantee's account, then the callback. *)
Definition calls (xs : list (VCall * Env)) : list Move := map (fun '(x, e) => Call x e) xs.
Definition ending : list Move := [Skip 0; Back 0 (own_at (86421 + 8 * 86400))].
Definition full_run : list Move := calls (take 13 script) ++ ending.

Lemma calls_ok acts n : Forall move_ok (calls (take n (script_of acts))).
Proof.
apply Forall_fmap. eapply Forall_impl; [apply Forall_take, script_of_ok|]. intros [x e]. exact (fun H => H).
Qed.
Lemma full_run_ok : Forall move_ok full_run.
Proof. apply Forall_app. split; [apply calls_ok | by repeat constructor]. Qed.

Definition upto (n : nat) : Config := ran_config (take n full_run).
Lemma upto_run n : (n <= 15)%nat -> voting_run me (upto n).1.1 (upto n).1.2 (upto n).2.
Proof.
intros Hn. apply moves_run; [apply Forall_take, full_run_ok|].
assert (forallb (fun i => is_run (take i full_run)) (seq 0 16) = true) as H by (vm_compute; reflexivity).
rewrite forallb_forall in H. apply H, in_seq. lia.
Qed.

Lemma receipts_app ms ms' s : moves (ms ++ ms') s = match moves ms s with Some s1 => moves ms' s1 | None => None end.
Proof. revert s. induction ms as [|m ms IH]; intros s; [reflexivity|]. cbn [app moves]. destruct (move m s); [apply IH | reflexivity]. Qed.

Lemma moves_upto n : (n <= 15)%nat -> moves (take n full_run) start = Some (upto n).
Proof.
intros Hn. assert (forallb (fun i => is_run (take i full_run)) (seq 0 16) = true) as H by (vm_compute; reflexivity).
rewrite forallb_forall in H. specialize (H n ltac:(apply in_seq; lia)). unfold is_run, upto, ran_config in *.
by destruct (moves (take n full_run) start).
Qed.

Lemma upto_steps n m : (n <= m <= 15)%nat -> exists es, (upto m).1.1 = (upto n).1.1 ++ es /\
vsteps me (upto n).1.2 (upto n).2 es (upto m).1.2 (upto m).2.
Proof.
intros Hn. pose proof (moves_upto m ltac:(lia)) as H. replace (take m full_run) with (take n full_run ++ drop n (take m full_run)) in H.
2:{ rewrite <- (take_drop n (take m full_run)) at 2. f_equal. by rewrite take_take, Nat.min_l by lia. }
rewrite receipts_app, (moves_upto n) in H by lia. destruct (upto n) as [[es F] c].
apply moves_steps in H as (es' & F' & c' & -> & Hs); [|apply Forall_drop, Forall_take, full_run_ok]. by exists es'.
Qed.

Lemma full_run_unmarked n : (n <= 15)%nat -> all_unmarked me (upto n).1.1.
Proof.
intros Hn. assert (forallb (fun i => forallb (unmarked me) (upto i).1.1) (seq 0 16) = true) as H by (vm_compute; reflexivity).
rewrite forallb_forall in H. specialize (H n ltac:(apply in_seq; lia)). apply forallb_unmarked. exact H.
Qed.

Definition sprop (n : nat) (pid : ProposalId) : Proposal := default blank (stored (upto n).2 pid).
Lemma stored_sprop n pid : is_Some (stored (upto n).2 pid) -> stored (upto n).2 pid = Some (sprop n pid).
Proof. unfold sprop. intros [p ->]. reflexivity. Qed.
Ltac stored_there := apply stored_sprop; vm_compute; eexists; reflexivity.

(** ** The theorems on this run *)
Lemma vote_counters_witness :
tallies total_votes_count (fun _ => 1) 0 (prop 9 0) (vote_records (at_call 9)) /\
total_votes_count (total_votes (prop 9 0)) = 2.
Proof.
split; [|vm_compute; reflexivity].
apply (vote_counters_exact (ballots_at 9) (flying_at 9) (at_call 9) 0 (prop 9 0) (history_at 9)). stored_here.
Defined.

Lemma move_forward_witness : status (sprop 10 1) = St.Rejected /\
exists p', stored (upto 15).2 1 = Some p' /\ status p' = St.Rejected.
Proof.
assert (status (sprop 10 1) = St.Rejected) as Hs by (vm_compute; reflexivity). split; [exact Hs|].
destruct (upto_steps 10 15 ltac:(lia)) as (es & He & Ht).
assert (stored (upto 10).2 1 = Some (sprop 10 1)) as Hp by stored_there.
pose proof (full_run_unmarked 15 ltac:(lia)) as Hu. rewrite He in Hu.
destruct (proposals_move_forward _ _ _ _ _ _ _ _ _ (upto_run 10 ltac:(lia)) Ht Hu Hp) as (p' & Hp' & _ & Hterm).
exists p'. split; [exact Hp'|]. rewrite <- Hs. apply Hterm. rewrite Hs. reflexivity.
Defined.

Lemma indexes_witness : pending_queue (at_call 5) = [2] /\
(forall pid, pid ∈ pending_queue (at_call 5) <-> exists p, stored (at_call 5) pid = Some p /\ status p = St.Queued).
Proof. split; [vm_compute; reflexivity | apply (indexes_exact (flying_at 5) (at_call 5) (reachable_at 5))]. Defined.

(** The timelock of proposal 0 is over: its slot goes to proposal 2. *)
Definition e_advance : Env := call_at "anyone.near" 0 (86411 + 9 * 86400).
Definition advanced_state : Voting := after advance_queue e_advance (at_call 11).

Lemma queue_advance_witness : pending_queue (at_call 11) = [2] /\ pending_queue advanced_state = [] /\
exists P, pending_queue (at_call 11) = map id P ++ pending_queue advanced_state /\
(forall p, p ∈ P -> promoted (block_timestamp e_advance) (at_call 11) p /\ stored advanced_state (id p) = Some p).
Proof.
split; [vm_compute; reflexivity|]. split; [vm_compute; reflexivity|].
assert (is_ok (advance_queue e_advance (at_call 11)) = true) as Hok by (vm_compute; reflexivity).
destruct (queue_advance_fifo _ _ _ _ _ _ (reachable_at 11) (ran_unit _ _ _ Hok)) as (P & H1 & H2 & _).
exists P. split; [exact H1 | exact H2].
Defined.

Definition updated (p : Proposal) (now : Z) : Proposal := match update p now with Ok q => q | Panic _ => p end.
Definition t_end : Z := block_timestamp e_advance.

Definition t_mid : Z := t_end - 2 * day.

Lemma lazy_update_witness : status (prop 9 0) = St.Voting /\ status (updated (prop 9 0) t_mid) = St.Timelock /\
status (updated (prop 9 0) t_end) = St.Executable /\
update (updated (prop 9 0) t_mid) t_end = update (prop 9 0) t_end.
Proof.
split; [vm_compute; reflexivity|]. split; [vm_compute; reflexivity|]. split; [vm_compute; reflexivity|].
assert (t_mid <= t_end) as Hle by (vm_compute; discriminate).
assert (update (prop 9 0) t_mid = Ok (updated (prop 9 0) t_mid)) as Hu by (vm_compute; reflexivity).
exact (proj1 (lazy_update_agrees _ _ _ _ Hle Hu)).
Defined.

(** Wednesday 1 January 2025, 00:00 UTC: voting starts on Monday the 6th,
00:00 CET, which is Sunday 23:00 UTC. *)
Lemma monday_witness : let r := 1736118000 * NS_PER_SEC in
next_voting_start_ns false (1735689600 * NS_PER_SEC) = Ok r /\ cet_midnight r /\ cet_day r mod 7 = 4.
Proof.
cbv zeta. assert (next_voting_start_ns false (1735689600 * NS_PER_SEC) = Ok (1736118000 * NS_PER_SEC)) as Hr
by (vm_compute; reflexivity). split; [exact Hr|].
assert (0 <= 1735689600 * NS_PER_SEC) as H0 by (vm_compute; discriminate).
destruct (voting_starts_on_monday _ _ Hr H0) as (_ & H1 & H2 & _). split; [exact H1 | exact H2].
Defined.

Lemma outcome_witness : compute_final_status (prop 9 0) = Ok St.Succeeded /\ passes (prop 9 0).
Proof.
destruct (outcome_rule (prop 9 0)) as [H|[H _]].
- split; vm_compute; discriminate.
- split; vm_compute; discriminate.
- vm_compute. discriminate.
- vm_compute. discriminate.
- vm_compute. discriminate.
- assert (match snapshot_and_state (prop 9 0) with
| Some s => (0 <=? ss_total_venear s) && (ss_total_venear s * 10000 <=? U128_MAX)
| None => true
end = true) as Hs by (vm_compute; reflexivity).
intros s Es. rewrite Es in Hs. apply andb_prop in Hs as [H1 H2]. split; apply Z.leb_le; assumption.
- exact H.
- exfalso. vm_compute in H. discriminate.
Defined.

(** Bob changes his vote. *)
Lemma vote_effect_witness : vote_records (at_call 9) = <[("bob.near", 0) := 0]> (vote_records (at_call 8)).
Proof.
destruct (step_at 8 (cast_by "bob.near" 0 VoteOption.For) (env_of 8) eq_refl) as [Hr _].
unfold cast_by in Hr. cbn [vrun] in Hr.
destruct (vote_effect (flying_at 8) (at_call 8) 0 VoteOption.For (fst (ballot "bob.near")) (snd (ballot "bob.near"))
(env_of 8) tt (at_call 9) _ (reachable_at 8) Hr) as (c1 & p & p2 & p3 & s & bal & _ & _ & _ & _ & _ & Hv & _).
rewrite Hv. reflexivity.
Defined.

Lemma vrun_execute pid e c : vrun (ExecuteProposal pid) e c = execute_proposal pid e c.
Proof. reflexivity. Qed.

Lemma executed_witness : passes (sprop 13 0) /\
exists p acts, stored (at_call 13) 0 = Some p /\ status p = St.InProgress /\ actions p = Some acts /\ acts <> [].
Proof.
split.
- apply (proj1 (executed_only_if_passed _ _ _ _ (upto_run 13 ltac:(lia)) (full_run_unmarked 13 ltac:(lia))) 0);
[stored_there | vm_compute; reflexivity].
- destruct (step_at 12 (ExecuteProposal 0) (env_of 12) eq_refl) as [Hr _].
apply (eq_trans (eq_sym (vrun_execute 0 (env_of 12) (at_call 12)))) in Hr.
assert (at_call 12 = (upto 12).2) as E by (vm_compute; reflexivity). rewrite E in Hr.
destruct (proj2 (executed_only_if_passed _ _ _ _ (upto_run 12 ltac:(lia)) (full_run_unmarked 12 ltac:(lia))) 0 _ _ _ _ Hr)
as (p & acts & H1 & H2 & _ & H3 & H4 & _).
exists p, acts. split; [exact H1|]. split; [exact H2|]. split; [exact H3 | exact H4].
Defined.

Lemma executed_once_witness : exists es, vsteps me (upto 3).1.2 (upto 3).2 es (upto 15).1.2 (upto 15).2 /\
executions 0 es <= 1.
Proof.
destruct (upto_steps 3 15 ltac:(lia)) as (es & He & Ht). exists es. split; [exact Ht|].
pose proof (full_run_unmarked 15 ltac:(lia)) as Hu. rewrite He in Hu.
exact (executed_at_most_once _ _ _ _ _ _ _ 0 (upto_run 3 ltac:(lia)) Ht Hu).
Defined.



(** ** A proposal that calls the execution callback of the contract

[on_execute_proposal] does not ask whether the proposal is in progress, and the
actions of a proposal may name the contract itself. Proposal 0 passes with the
single action [on_execute_proposal] for proposal 1, which a reviewer has
rejected and whose bond is still there. The action makes the rejected proposal
a succeeded one, although nobody ever voted on it, and its proposer can no
longer claim the bond. *)
Definition marking : list ProposalAction := [FunctionCall me "on_execute_proposal" [] 0 (10 ^ 13)].
Definition marked_run : list Move := calls (take 10 (script_of marking)) ++ calls (take 2 (drop 11 (script_of marking))).
Definition e_mark : Env := own_at (86421 + 8 * 86400).
Definition marked_from : Config := ran_config marked_run.
Definition marked : Config := default start (move (Act 0 (OnExecuteProposal 1) e_mark) marked_from).
Definition e_claim : Env := call_at "prop.near" 0 (86430 + 8 * 86400).

Theorem marking_revives_rejected :
voting_run me marked_from.1.1 marked_from.1.2 marked_from.2 /\
(exists es, vstep me marked_from.1.2 marked_from.2 (Some (OnExecuteProposal 1, e_mark)) es marked.1.2 marked.2) /\
(exists p, stored marked_from.2 1 = Some p /\ status p = St.Rejected /\ bond_amount p = 5 * NEAR /\
is_ok (claim_bond 1 e_claim marked_from.2) = true) /\
(exists p, stored marked.2 1 = Some p /\ status p = St.Succeeded /\ snapshot_and_state p = None /\
bond_amount p = 5 * NEAR /\ is_ok (claim_bond 1 e_claim marked.2) = false).
Proof.
split; [|split; [|split]].
- apply moves_run; [|vm_compute; reflexivity]. apply Forall_app. split; [apply calls_ok|].
apply Forall_fmap. eapply Forall_impl; [apply Forall_take, Forall_drop, script_of_ok|]. intros [x e]. exact (fun H => H).
- destruct (config_step (Act 0 (OnExecuteProposal 1) e_mark) marked_from marked I) as (es & _ & Hs);
[vm_compute; reflexivity|]. exists es. exact Hs.
- eexists. split; [|split; [|split]]; vm_compute; reflexivity.
- eexists. split; [|split; [|split; [|split]]]; vm_compute; reflexivity.
Qed.

Lemma authorised_witness : is_reviewer (env_of 3) (at_call 3).
Proof.
destruct (step_at 3 (ApproveProposal 0 None) (env_of 3) eq_refl) as [Hr _].
exact (voting_calls_authorised _ _ _ _ _ _ (reachable_at 3) Hr).
Defined.

Definition advanced_at (now : Z) (c : Voting) : Voting := match advance_queue_at now c with Ok c' => c' | Panic _ => c end.

Lemma views_witness : exists qs, get_queue_state t_end (at_call 11) = Ok qs /\
qs_pending_queue qs = pending_queue (advanced_at t_end (at_call 11)).
Proof.
assert (advance_queue_at t_end (at_call 11) = Ok (advanced_at t_end (at_call 11))) as Ha.
{ unfold advanced_at. assert (is_ok (advance_queue_at t_end (at_call 11)) = true) as Hok by (vm_compute; reflexivity).
destruct (advance_queue_at t_end (at_call 11)); [reflexivity | discriminate]. }
destruct (views_agree_with_advance _ _ _ _ (reachable_at 11) Ha) as [_ (qs & H1 & _ & H2)].
exists qs. split; [exact H1 | exact H2].
Defined.

Lemma approve_witness : exists p p3, status p = St.Created /\ approved k (env_of 3) p p3.
Proof.
assert (is_ok (approve_proposal 0 None (env_of 3) (at_call 3)) = true) as Hok by (vm_compute; reflexivity).
destruct (ran _ _ _ Hok) as [r Hr].
destruct (approve_effect _ _ _ _ _ _ _ _ (reachable_at 3) Hr) as (c1 & p & p3 & _ & _ & H1 & H2 & _).
exists p, p3. split; [exact H1 | exact H2].
Defined.

Lemma create_witness :
exists p, stored (after (create_proposal (about "grant") (Some pay) Classic) (env_of 0) (at_call 0)) 0 = Some p /\
status p = St.Created /\ proposer_id p = "prop.near".
Proof.
assert (is_ok (create_proposal (about "grant") (Some pay) Classic (env_of 0) (at_call 0)) = true) as Hok
by (vm_compute; reflexivity).
destruct (ran _ _ _ Hok) as [r Hr].
destruct (create_effect _ _ _ _ _ _ _ _ _ (reachable_at 0) Hr) as (-> & _ & _ & (p & _ & H1 & H2 & H3 & _) & _).
exists p. split; [exact H1|]. split; [exact H2 | exact H3].
Defined.
End VotingRun.
