(* ===== verification/ExamplesLockup.v ===== *)
(** * Examples: a run of the lockup contract

    A lockup with 1000 yoctoNEAR selects a staking pool, deposits half, locks
    everything it has, and asks the pool for its balance, which fails. The
    theorems on the lockup are applied to the worlds of this run. *)
From stdpp Require Import base gmap strings list.
From Stdlib Require Import ZArith Lia.
From S2P Require Import Prelude.
From S2P Require Import Near.
From S2P Require Import Common.
From S2P Require Import LockupContract.
From S2P Require Import LockupFacts.
From S2P Require Import LockupWorld.
From S2P Require Import LockupTheorems.
From S2P Require Import SandboxPool.
From S2P Require Import Instances.

Local Open Scope Z_scope.

Module LockupRun.
Definition env (who : AccountId) (balance dep t : Z) (rs : list PromiseResult) : Env :=
mkEnv who "lockup" "owner" dep t 1 balance 1 0 rs 1 (3 * 10 ^ 14).

Definition fresh : Lockup := mkLockup "owner" "venear" "whitelist" None 100 0 0 0 7 1 10.

(** The world after a call, a pool's answer and a callback. *)
Definition call (x : LCall) (e : Env) (w : World) : World :=
LockupWorld.after w e (Instances.after (lrun x) e (lk w)) (effects (lrun x) e (lk w)).
Definition callback (op : PoolOp) (answer : Z) (e : Env) (w : World) : World :=
LockupWorld.after (mkWorld (lk w) (w_balance w) (w_pool w) (w_incoming w) None) e
(Instances.after (run_callback op answer) e (lk w)) (effects (run_callback op answer) e (lk w)).

Lemma call_reachable x e w : wreachable true w -> x <> DeleteLockup -> lcall_ok x -> env_ok e ->
account_balance e = w_balance w + attached_deposit e -> settling w = false -> is_ok (lrun x e (lk w)) = true ->
wreachable true (call x e w).
Proof.
intros Hw Hx Hok He Hb Hs Hr. eapply wr_step; [exact Hw|]. by eapply ws_call, ran_unit.
Qed.

Lemma callback_reachable op r answer e w : wreachable true w -> w_flight w = Some (Done op r answer) ->
promise_results e = [r] -> attached_deposit e = 0 -> is_ok (run_callback op answer e (lk w)) = true ->
wreachable true (callback op answer e w).
Proof. intros Hw Hf Hp Ha Hr. eapply wr_step; [exact Hw|]. by eapply ws_callback, ran_unit. Qed.

Definition w0 : World := world_new fresh 1000.
Definition w1 : World :=
mkWorld (with_staking fresh (Some (mkStaking "pool" TransactionStatus.Idle 0))) 1000 0 0 None.
Definition w2 : World := call (DepositToPool 500) (env "owner" 1001 1 1000 []) w1.
Definition w3 : World := mkWorld (lk w2) (w_balance w2) 500 0 (Some (Done (Deposit 500) Successful 0)).
Definition w4 : World := callback (Deposit 500) 0 (env "lockup" 501 0 1010 [Successful]) w3.
Definition w5 : World := call (LockNear None) (env "owner" 502 1 1020 []) w4.
Definition w6 : World := call RefreshBalance (env "owner" 503 1 1030 []) w5.
Definition w7 : World := mkWorld (lk w6) (w_balance w6) 500 0 (Some (Done GetTotalBalance Failed 0)).

Lemma w0_reachable : wreachable true w0.
Proof.
apply (wr_new true (env "venear" 1000 0 1000 []) "owner" "venear" 100 "whitelist" 1 7 10); [lia | lia | reflexivity].
Qed.
Lemma w1_reachable : wreachable true w1.
Proof.
eapply wr_step; [exact w0_reachable|].
eapply (ws_whitelisted true w0 "pool" (env "lockup" 1000 0 1000 [Successful]) _ _ _ 0);
[reflexivity | split; vm_compute; discriminate | reflexivity].
Qed.
Ltac callable prev := apply call_reachable;
[exact prev | discriminate | exact I | repeat split; vm_compute; discriminate | vm_compute; reflexivity
| reflexivity | vm_compute; reflexivity].
Lemma w2_reachable : wreachable true w2.
Proof. callable w1_reachable. Qed.
Lemma w3_reachable : wreachable true w3.
Proof.
eapply wr_step; [exact w2_reachable|].
apply (ws_pool true w2 (Deposit 500) Successful 500 0 0); [vm_compute; reflexivity|].
apply (px_credit 0 (Deposit 500)); vm_compute; discriminate.
Qed.
Lemma w4_reachable : wreachable true w4.
Proof. eapply (callback_reachable _ Successful); [exact w3_reachable | reflexivity..]. Qed.
Lemma w5_reachable : wreachable true w5.
Proof. callable w4_reachable. Qed.
Lemma w6_reachable : wreachable true w6.
Proof. callable w5_reachable. Qed.
Lemma w7_reachable : wreachable true w7.
Proof.
eapply wr_step; [exact w6_reachable|].
apply (ws_pool true w6 GetTotalBalance Failed 500 0 0); [vm_compute; reflexivity | apply (px_failed 500 GetTotalBalance)].
Qed.

Lemma ok4 : lockup_ok (lk w4).
Proof. repeat split; vm_compute; discriminate. Qed.
Lemma ok5 : lockup_ok (lk w5).
Proof. repeat split; vm_compute; discriminate. Qed.


Definition e_transfer : Env := env "owner" 502 1 1020 [].
Lemma transfer_witness : committed (lk w4) <= account_balance e_transfer - 300 + get_known_deposited_balance (lk w4) /\
effects (transfer 300 "bob") e_transfer (lk w4) = [LTransfer "bob" 300].
Proof.
assert (is_ok (transfer 300 "bob" e_transfer (lk w4)) = true) as Hok by (vm_compute; reflexivity).
assert (0 <= min_lockup_deposit (lk w4)) as Hm by (vm_compute; discriminate).
destruct (transfer_effect _ _ _ _ _ _ _ Hm (ran_unit _ _ _ Hok)) as (_ & He & _ & _ & _ & _ & _ & H).
split; [exact H | exact He].
Defined.

(** The unlock takes 100 ns. *)
Definition e_begin : Env := env "owner" 503 1 2000 [].
Definition e_end : Env := env "owner" 504 1 2100 [].
Definition unlocking : Lockup := Instances.after (begin_unlock_near (Some 50)) e_begin (lk w5).
Definition unlocked : Lockup := Instances.after (end_unlock_near None) e_end unlocking.
Lemma begin_runs : begin_unlock_near (Some 50) e_begin (lk w5) =
Ok (tt, unlocking, effects (begin_unlock_near (Some 50)) e_begin (lk w5)).
Proof. unfold unlocking. apply ran_unit. vm_compute. reflexivity. Qed.
Lemma end_runs : end_unlock_near None e_end unlocking = Ok (tt, unlocked, effects (end_unlock_near None) e_end unlocking).
Proof. unfold unlocked. apply ran_unit. vm_compute. reflexivity. Qed.

Lemma unlock_witness : venear_pending_balance unlocking = 50 /\ venear_pending_balance unlocked = 0 /\
block_timestamp e_begin + unlock_duration_ns (lk w5) <= block_timestamp e_end.
Proof.
split; [vm_compute; reflexivity|]. split; [vm_compute; reflexivity|].
assert (forall a, Some 50 = Some a -> 0 <= a) as Ha by (intros a [= <-]; vm_compute; discriminate).
assert (block_timestamp e_begin <= block_timestamp e_end) as Ht by (vm_compute; discriminate).
exact (proj1 (unlock_takes_the_duration _ _ _ _ _ _ _ _ _ _ _ _ _ _ ok5 begin_runs Ha (lt_nil _ _) Ht end_runs)).
Defined.

Lemma unlock_trace : exists es, ltrace 1020 (lk w5) es 2100 unlocked /\ map lu_nonce (reports es) = [9; 10].
Proof.
eexists. split.
- eapply (lt_step 1020 _ e_begin); [vm_compute; discriminate | eapply (ls_call _ (BeginUnlock (Some 50)));
[vm_compute; discriminate | exact begin_runs] |].
eapply (lt_step _ _ e_end); [vm_compute; discriminate | eapply (ls_call _ (EndUnlock None)); [exact I | exact end_runs] |].
constructor.
- vm_compute. reflexivity.
Qed.

Lemma reports_witness : exists es u, ltrace 1020 (lk w5) es 2100 unlocked /\ last (reports es) = Some u /\
locked_near_balance u = venear_locked_balance unlocked.
Proof.
destruct unlock_trace as (es & Ht & Hn). destruct (reports_track_locked _ _ _ _ _ ok5 Ht) as [_ H].
exists es. destruct (last (reports es)) as [u|] eqn:E.
- exists u. split; [exact Ht|]. split; [reflexivity | exact (proj1 H)].
- exfalso. apply last_None in E. rewrite E in Hn. discriminate.
Defined.

Lemma lock_witness : exists a, committed (lk w4) + a <= account_balance (env "owner" 502 1 1020 []) + get_known_deposited_balance (lk w4) /\
relocked (lk w4) (lk w5) (env "owner" 502 1 1020 []) (venear_locked_balance (lk w4) + a) (venear_pending_balance (lk w4))
(venear_unlock_timestamp (lk w4)) (effects (lock_near None) (env "owner" 502 1 1020 []) (lk w4)).
Proof.
assert (is_ok (lock_near None (env "owner" 502 1 1020 []) (lk w4)) = true) as Hok by (vm_compute; reflexivity).
destruct (lock_operations (lk w4) (env "owner" 502 1 1020 []) ok4) as [H _].
destruct (H _ _ _ _ (ran_unit _ _ _ Hok)) as (a & _ & H1 & H2). exists a. split; [exact H1 | exact H2].
Defined.

Lemma exclusive_witness : is_ok (lrun (TransferOut 1 "bob") e_transfer (lk w3)) = false /\
exists c' es, run_callback (Deposit 500) 0 (env "lockup" 501 0 1010 [Successful]) (lk w3) = Ok (tt, c', es).
Proof.
assert (w_flight w3 = Some (Done (Deposit 500) Successful 0)) as Hf by reflexivity.
destruct (pool_calls_exclusive _ _ w3_reachable Hf) as [H1 H2]. split; [apply H1; reflexivity|].
destruct (H2 (Deposit 500) Successful 0 (env "lockup" 501 0 1010 [Successful]) eq_refl eq_refl eq_refl (or_introl eq_refl))
as (c' & es & Hr & _). exists c', es. exact Hr.
Defined.

Lemma blocked_witness : is_ok (run_callback GetTotalBalance 0 (env "lockup" 503 0 1040 [Failed]) (lk w7)) = false /\
is_ok (lrun (TransferOut 1 "bob") (env "owner" 504 1 9000 []) (lk w7)) = false.
Proof.
destruct (failed_query_blocks_forever w7 GetTotalBalance 0 (env "lockup" 503 0 1040 [Failed]) w7_reachable eq_refl
(or_introl eq_refl) eq_refl) as [H1 H2]. split; [exact H1|].
exact (H2 true (mkWorld (lk w7) (w_balance w7) (w_pool w7) (w_incoming w7) None) (star_refl _ _) (TransferOut 1 "bob") _ eq_refl).
Defined.

Lemma lockup_authorised_witness : predecessor_account_id e_begin = owner_account_id (lk w5) /\ attached_deposit e_begin = 1.
Proof.
assert (lcall_ok (BeginUnlock (Some 50))) as Hx by (vm_compute; discriminate).
destruct (lockup_calls_authorised (BeginUnlock (Some 50)) _ _ _ _ ok5 Hx begin_runs) as (H1 & H2 & _).
split; [exact H1 | exact H2].
Defined.

(** The sandbox contract takes the deposit of 500 as the pool of the worlds does. *)
Lemma sandbox_pool_witness : exists c', SandboxPool.serve (Deposit 500) (env "lockup" 501 500 1005 []) SandboxPool.sandbox_new = (c', Successful, 0, 0) /\
pool_exec 0 (Deposit 500) Successful (SandboxPool.held c' "lockup") 0 0.
Proof.
eexists. split; [reflexivity|].
exact (proj2 (SandboxPool.sandbox_pool_is_a_pool (Deposit 500) (env "lockup" 501 500 1005 []) SandboxPool.sandbox_new _ Successful 0 0
ltac:(repeat split; vm_compute; discriminate) ltac:(split; reflexivity) ltac:(vm_compute; discriminate) eq_refl)).
Defined.
End LockupRun.
