(* ===== verification/ExamplesReports.v ===== *)
(** * Examples: a lockup and veNEAR together

    Alice registers and orders a lockup; it is created, the callback arrives,
    she locks 2 NEAR in it, and its report reaches veNEAR. *)
From stdpp Require Import base gmap strings list.
From Stdlib Require Import ZArith Lia.
From S2P Require Import Prelude.
From S2P Require Import Near.
From S2P Require Import Common.
From S2P Require Import CommonFacts.
From S2P Require Import MerkleTree.
From S2P Require Import MerkleFacts.
From S2P Require Import LockupContract.
From S2P Require Import LockupFacts.
From S2P Require Import LockupWorld.
From S2P Require Import VenearContract.
From S2P Require Import VenearInvariant.
From S2P Require Import VenearTheorems.
From S2P Require Import SystemLockup.
From S2P Require Import Instances.
From S2P Require Import ExamplesVenear.
From S2P Require Import ExamplesLockup.

Local Open Scope Z_scope.

Module ReportRun.
Import VenearRun.

(** A public call of veNEAR in the system. *)
Definition venear_call (xe : Call * Env) (s : Sys) : Sys :=
let '(x, e) := xe in
mkSys (step x e (ve s)) (lks s) (mail s) (orders s ++ omap order_of (effects (run x) e (ve s))) (answers s)
(block_timestamp e).

Lemma venear_call_reachable x e s : sreachable true s -> public x = true -> env_ok e -> SystemLockup.clock s <= block_timestamp e ->
call_ok x -> is_ok (run x e (ve s)) = true -> sreachable true (venear_call (x, e) s).
Proof. intros Hs Hp He Hc Hx Hr. eapply sr_step; [exact Hs|]. by eapply ss_venear, ran_unit. Qed.

(** The script of [VenearRun] without its last call, the callback. *)
Definition s0 : Sys := mkSys c0 ∅ [] [] [] now0.
Definition orders_up : list (Call * Env) := take 6 script.
Definition s6 : Sys := foldl (fun s xe => venear_call xe s) s0 orders_up.

Fixpoint runs (xs : list (Call * Env)) (s : Sys) : bool :=
match xs with
| [] => true
| (x, e) :: xs' => public x && (SystemLockup.clock s <=? block_timestamp e) && is_ok (run x e (ve s)) && runs xs' (venear_call (x, e) s)
end.

Lemma play_system xs s : sreachable true s -> Forall (fun x => env_ok (snd x) /\ call_ok (fst x)) xs -> runs xs s = true ->
sreachable true (foldl (fun s xe => venear_call xe s) s xs).
Proof.
intros Hs Hok. revert s Hs. induction Hok as [|[x e] xs [He Hx] _ IH]; intros s Hs Hr; [done|].
cbn in Hr. bool_prop. apply IH; [|done]. apply venear_call_reachable; try done; lia.
Qed.

Lemma s6_reachable : sreachable true s6.
Proof.
apply play_system; [|unfold orders_up, script; cbn [take]; script_ok | vm_compute; reflexivity].
apply (sr_new true (call_at "owner.near" 0 0) cfg rate6); [| | |reflexivity]; try (repeat split; vm_compute; discriminate).
Qed.

(** The order of alice, and the lockup it creates. *)
Definition init : LockupInitArgs := mkLockupInit 1 "alice.near" me (90 * day) "whitelist.near" 30000000 (2 * NEAR).
Definition told : OnLockupDeployedArgs := mkOnDeployed 1 "alice.near" 30000000 (3 * NEAR).
Definition box : Lockup := mkLockup "alice.near" me "whitelist.near" None (90 * day) 0 0 0 30000000 1 (2 * NEAR).
Definition s7 : Sys :=
mkSys (ve s6) {[ "alice.near" := (world_new box (3 * NEAR), 30000000) ]} [] [] [(told, Successful)] (SystemLockup.clock s6).

Lemma s7_reachable : sreachable true s7.
Proof.
eapply sr_step; [exact s6_reachable|].
apply (ss_create true s6 [] init told [] (at_block me (lockup_of "alice.near") (3 * NEAR) 31 []) (3 * NEAR) box);
[vm_compute; reflexivity | reflexivity | | vm_compute; discriminate.. | vm_compute; reflexivity].
split_and!.
- intros r Hr. vm_compute in Hr. by apply not_elem_of_nil in Hr.
- intros i Hi. vm_compute in Hi. injection Hi as <-. vm_compute. discriminate.
- intros cb Hcb. vm_compute in Hcb. by apply not_elem_of_nil in Hcb.
Qed.

(** The callback. *)
Definition c_deployed : Contract := after (on_lockup_deployed 1 "alice.near" 30000000 (3 * NEAR)) (own_at 31) (ve s7).
Definition s8 : Sys := mkSys c_deployed (lks s7) [] [] [] (block_timestamp (own_at 31)).
Lemma s8_reachable : sreachable true s8.
Proof.
eapply sr_step; [exact s7_reachable|].
eapply (ss_deployed true s7 [] told Successful [] (own_at 31) (Some (lockup_of "alice.near")) c_deployed
(effects (on_lockup_deployed 1 "alice.near" 30000000 (3 * NEAR)) (own_at 31) (ve s7)));
[reflexivity | repeat split; vm_compute; discriminate | vm_compute; discriminate | reflexivity | vm_compute; reflexivity].
Qed.

(** Alice locks 2 NEAR. *)
Definition e_lock : Env := mkEnv "alice.near" (lockup_of "alice.near") "alice.near" 1 ((1735689600 + 50) * NS_PER_SEC) 50
(3 * NEAR + 1) (10 ^ 19) (300 * 10 ^ 12) [] 1 (300 * 10 ^ 12).
Definition x_lock : LCall := LockNear (Some (2 * NEAR)).
Definition w_lock : World := LockupRun.call x_lock e_lock (world_new box (3 * NEAR)).
Definition es_lock : list LEffect := effects (lrun x_lock) e_lock box.
Definition told_lock : Report := newest (lk w_lock) (block_timestamp e_lock).
Definition s9 : Sys := mkSys c_deployed {[ "alice.near" := (w_lock, 30000000) ]} [told_lock] [] [] (SystemLockup.clock s8).

Lemma lock_moved : moved true (world_new box (3 * NEAR)) es_lock w_lock.
Proof.
assert (lrun x_lock e_lock box = Ok (tt, lk w_lock, es_lock)) as H by (vm_compute; reflexivity).
split.
- eapply ws_call with (x := x_lock) (e := e_lock); [done | vm_compute; discriminate | repeat split; vm_compute; discriminate
| reflexivity | reflexivity | exact H].
- left. exists e_lock. by apply ls_call with (x := x_lock).
Qed.

Lemma s9_reachable : sreachable true s9.
Proof.
eapply sr_step; [exact s8_reachable|].
apply (ss_lockup true s8 "alice.near" (world_new box (3 * NEAR)) 30000000 es_lock w_lock); [reflexivity | exact lock_moved].
Qed.

(** The report arrives. *)
Definition e_arrive : Env := call_at (lockup_of "alice.near") 0 51.
Definition c_told : Contract := after (on_lockup_update 1 "alice.near" (LV1 (rp_update told_lock))) e_arrive c_deployed.
Definition s10 : Sys := mkSys c_told (lks s9) [] [] [] (block_timestamp e_arrive).
Lemma s10_reachable : sreachable true s10.
Proof.
eapply sr_step; [exact s9_reachable|].
eapply (ss_report true s9 [] told_lock [] e_arrive c_told
(effects (on_lockup_update 1 "alice.near" (LV1 (rp_update told_lock))) e_arrive c_deployed));
[reflexivity | repeat split; vm_compute; discriminate | vm_compute; discriminate | vm_compute; reflexivity].
Qed.

(** After the report veNEAR counts the 2 locked NEAR and the deposit of 0.1. *)
Lemma agrees_witness : exists y, accts c_told !! "alice.near" = Some y /\
near_balance (balance y) = 2 * NEAR + 10 ^ 23 /\ 2 * NEAR <= assets w_lock.
Proof.
destruct (accts c_told !! "alice.near") as [y|] eqn:Ey; [|vm_compute in Ey; discriminate].
exists y. split; [reflexivity|].
destruct (venear_agrees_with_lockup true s10 "alice.near" w_lock 30000000
(mkInternal (Some 1) (10 ^ 23) 30000001) y s10_reachable) as (_ & _ & H & _);
[reflexivity | vm_compute; reflexivity | exact Ey|].
destruct H as [H1 H2]; [vm_compute; reflexivity | vm_compute; reflexivity|].
split; [exact H1|]. specialize (H2 eq_refl). rewrite H1 in H2. exact H2.
Defined.
End ReportRun.
