(* ===== verification/ExamplesSystem.v ===== *)
(** * Examples: veNEAR and voting together

    The run of [ExamplesVoting] as a run of both contracts, up to the change
    of bob's vote: the snapshot is the answer of the veNEAR contract. *)
From stdpp Require Import base gmap strings list.
From Stdlib Require Import ZArith Lia.
From S2P Require Import Prelude.
From S2P Require Import Near.
From S2P Require Import Common.
From S2P Require Import CommonFacts.
From S2P Require Import MerkleTree.
From S2P Require Import MerkleFacts.
From S2P Require Import VotingTypes.
From S2P Require Import VotingContract.
From S2P Require Import VotingFacts.
From S2P Require Import VotingInvariant.
From S2P Require Import VotingQueue.
From S2P Require Import VotingOps.
From S2P Require Import VotingCalls.
From S2P Require Import VotingTally.
From S2P Require Import VenearContract.
From S2P Require Import VenearInvariant.
From S2P Require Import VenearMigrate.
From S2P Require Import StakingContract.
From S2P Require Import Upgrade.
From S2P Require Import System.
From S2P Require Import Instances.
From S2P Require Import ExamplesVenear.
From S2P Require Import ExamplesVoting.

Local Open Scope Z_scope.

Module SystemRun.
Import VotingRun.

Fixpoint clock (now : Z) (xs : list (VCall * Env)) : Z :=
match xs with [] => now | (_, e) :: xs' => clock (block_timestamp e) xs' end.
Fixpoint timely (now : Z) (xs : list (VCall * Env)) : bool :=
match xs with [] => true | (_, e) :: xs' => (now <=? block_timestamp e) && timely (block_timestamp e) xs' end.

(** The calls of a script made one after the other. *)
Lemma play_sys now c B l v A xs : sys now c B l v A -> Forall (fun x => vcall_ok (fst x)) xs -> plays xs l v = true ->
Forall (fun x => forall s pid, fst x = OnGetSnapshot s pid -> s ∈ A) xs -> timely now xs = true ->
sys (clock now xs) c (cast_so_far xs B) (flying xs l) (play xs v) A.
Proof.
revert now B l v. induction xs as [|[x e] xs IH]; intros now B l v Hs Hok Hp HA Hnow; [done|].
apply Forall_cons in Hok as [Hx Hok]. apply Forall_cons in HA as [Hx' HA]. cbn in Hp, Hnow, Hx, Hx'. bool_prop.
cbn. apply IH; try done. eapply sys_voting; [exact Hs | lia | exact Hx | | exact Hx' | by apply ran_unit].
destruct x; cbn in *; try exact I. by bool_prop.
Qed.

(** The snapshot is asked for after the fifth call. *)
Definition e_answer : Env := at_block me "venear.near" 0 86500 [].
Definition first : list (VCall * Env) := take 5 script.
Definition second : list (VCall * Env) := take 4 (drop 5 script).
Definition now5 : Z := clock (block_timestamp VenearRun.e_split) first.
Definition now9 : Z := clock (block_timestamp e_answer) second.

Lemma sys5 : sys now5 venear [] [] (at_call 5) [].
Proof.
assert (sys (block_timestamp VenearRun.e_split) venear [] [] (new_voting k) []) as H0
by (eapply sys_init; [exact VenearRun.c9_reachable | apply Z.le_refl | exact k_fine]).
apply (play_sys _ _ _ _ _ _ first H0); [apply Forall_take, script_ok | apply (prefix_plays 5) | | vm_compute; reflexivity].
repeat (apply Forall_cons; split); [discriminate.. | constructor].
Qed.

Lemma answered : VenearContract.get_snapshot_view e_answer venear = Ok (sg, venear, []).
Proof.
unfold sg. fold e_answer.
assert (is_ok (VenearContract.get_snapshot_view e_answer venear) = true) as Hok by (vm_compute; reflexivity).
destruct (VenearContract.get_snapshot_view e_answer venear) as [[[r c'] es]|] eqn:E; [|discriminate].
unfold VenearContract.get_snapshot_view, VenearContract.assert_not_paused in E. m_inv. done.
Qed.

Lemma snapshot_arg a b p q : OnGetSnapshot a p = OnGetSnapshot b q -> b ∈ [a].
Proof. intros [= -> _]. by apply list_elem_of_singleton. Qed.

Lemma sys9 : sys now9 venear (ballots_at 9) [] (at_call 9) [sg].
Proof.
assert (sys (block_timestamp e_answer) venear [] [] (at_call 5) [sg]) as H0
by (eapply sys_answer; [exact sys5 | vm_compute; discriminate | exact answered]).
assert (at_call 9 = play second (at_call 5)) as ->
by (unfold at_call; rewrite <- play_app; reflexivity).
apply (play_sys _ _ _ _ _ _ second H0); [apply Forall_take, Forall_drop, script_ok | | | vm_compute; reflexivity].
- apply (plays_app (take 5 script) second [] (new_voting k)). apply (prefix_plays 9).
- repeat (apply Forall_cons; split); [|discriminate..|constructor].
exact (fun s pid => snapshot_arg sg s 0 pid).
Qed.

Definition taken : SnapshotAndState :=
match snapshot_and_state (prop 9 0) with
| Some s => s
| None => mkSnapshotState (mkSnapshot [] 0 0) 0 0 (FixedRate rate6)
end.

Lemma within_supply_witness :
exists c0, snap_root (snapshot taken) = root (VenearContract.tree c0) /\
((tallies total_venear (weight taken (view (VenearContract.tree c0))) 0 (prop 9 0) (vote_records (at_call 9)) /\
total_venear (total_votes (prop 9 0)) <= ss_total_venear taken) \/
cheated (forged (VenearContract.tree c0)) 0 (ballots_at 9)).
Proof.
assert (stored (at_call 9) 0 = Some (prop 9 0)) as Hp by (apply stored_prop; vm_compute; eexists; reflexivity).
assert (snapshot_and_state (prop 9 0) = Some taken) as Hs by (vm_compute; reflexivity).
destruct (votes_within_supply _ _ _ _ _ _ _ _ _ sys9 Hp Hs) as (n0 & c0 & _ & _ & H1 & _ & H2).
exists c0. split; [exact H1 | exact H2].
Defined.

(** ** An upgrade of the veNEAR contract whose pools are stale *)
Definition old_account : Upgrade.Account Effect VenearContract.Contract :=
Upgrade.mkAccount (Upgrade.mkCode "1.0.0" (mret tt) (mret tt)) VenearRun.stale.
Definition e_owner : Env := VenearRun.call_at "owner.near" 0 99999.
Definition batch : list (Upgrade.Action (Eff := Effect) (S := VenearContract.Contract)) :=
match Upgrade.upgrade VenearContract.assert_owner Upgrade.venear_code e_owner VenearRun.stale with Ok (b, _, _) => b | Panic _ => [] end.
Lemma upgrade_is_safe_witness : let a' := Upgrade.run_batch VenearRun.e_migrate old_account batch in
Upgrade.version (Upgrade.code a') = "1.1.1"%string /\ VenearInvariant.Inv (Upgrade.state a') /\
VenearContract.internals (Upgrade.state a') = VenearContract.internals VenearRun.stale /\
snap (truncate_to_seconds (block_timestamp VenearRun.e_migrate)) (Upgrade.state a') =
rebuilt (snap (truncate_to_seconds (block_timestamp VenearRun.e_migrate)) VenearRun.stale).
Proof.
assert (Upgrade.upgrade VenearContract.assert_owner Upgrade.venear_code e_owner VenearRun.stale = Ok (batch, VenearRun.stale, [])) as E
by (unfold Upgrade.upgrade, batch; reflexivity).
destruct (Upgrade.upgrade_is_safe e_owner VenearRun.e_migrate old_account batch VenearRun.stale [] VenearRun.stale_pre) as (_ & Hb & H);
[repeat split; vm_compute; discriminate | exact E|].
assert (is_ok (VenearContract.migrate_state VenearRun.e_migrate VenearRun.stale) = true) as Hok by (vm_compute; reflexivity).
cbn [Upgrade.state old_account] in Hb, H. cbv zeta. rewrite Hb.
destruct (VenearContract.migrate_state VenearRun.e_migrate VenearRun.stale) as [[[u c'] es']|]; [|discriminate Hok].
destruct (H u c' es' eq_refl) as (HI & Hs & Hf & _). cbn [Upgrade.code Upgrade.state].
split; [reflexivity|]. split; [exact HI|]. split; [exact (fr_internals _ _ Hf) | exact Hs].
Defined.
End SystemRun.
