(* ===== verification/ExamplesStaking.v ===== *)
(** * Examples: a run of the staking contract

    A pool is added, its owner sells a one-off product and a farm, a user locks
    NEAR, stakes some in the farm, unlocks and withdraws, while the pool
    answers. Every world of the run is reachable, and the theorems on the
    staking contract are applied to these worlds. *)
From stdpp Require Import base gmap strings list.
From Stdlib Require Import ZArith Lia.
From S2P Require Import Prelude.
From S2P Require Import Near.
From S2P Require Import MerkleTree.
From S2P Require Import StakingTypes.
From S2P Require Import StakingMath.
From S2P Require Import StakingContract.
From S2P Require Import StakingCatalog.
From S2P Require Import StakingEpoch.
From S2P Require Import StakingSubscriptions.
From S2P Require Import StakingLocks.
From S2P Require Import StakingFarm.
From S2P Require Import StakingWorld.
From S2P Require Import StakingBooks.
From S2P Require Import StakingInvariant.
From S2P Require Import StakingReach.
From S2P Require Import StakingPricing.
From S2P Require Import StakingExits.
From S2P Require Import StakingCalendar.
From S2P Require Import StakingPipeline.
From S2P Require Import StakingMoney.
From S2P Require Import StakingTimeline.
From S2P Require Import StakingSolvency.
From S2P Require Import StakingViews.
From S2P Require Import StakingIndex.
From S2P Require Import TestClock.
From S2P Require Import StakingTheorems.
From S2P Require Import MockPool.
From S2P Require Import Instances.

Local Open Scope Z_scope.
Local Open Scope record_scope.

Module StakingRun.

#[local] Instance list_ids : IdSet := {|
ids_insert x s := if bool_decide (x ∈ s) then s else s ++ [x];
ids_remove x s := List.filter (fun y => negb (bool_decide (x = y))) s
|}.

#[local] Instance list_ids_laws : IdSetLaws list_ids.
Proof.
assert (Hr : forall x y s, x ∈ ids_remove y s <-> x <> y /\ x ∈ s).
{ intros x y s. unfold ids_remove, list_ids. rewrite !list_elem_of_In, filter_In. case_bool_decide; cbn; naive_solver. }
split; [|done|..].
- intros x y s. unfold ids_insert, list_ids. case_bool_decide; [naive_solver|]. rewrite elem_of_app, list_elem_of_singleton. tauto.
- intros x s Hs. unfold ids_insert, list_ids. case_bool_decide; [done|]. apply NoDup_app. split_and!; [done | | apply NoDup_singleton].
intros y Hy ->%list_elem_of_singleton. done.
- intros x s Hs. unfold ids_remove, list_ids. apply NoDup_ListNoDup. apply List.NoDup_filter. by apply NoDup_ListNoDup.
Qed.

(** ** A runner of worlds *)

(** [fits], decided. *)
Definition fits_b (c : Contract) : bool :=
bool_decide (map_Forall (fun _ x => Validator.total_shares x < U128_MAX /\ Validator.total_staked_balance x <= FITS /\
Validator.pending_to_stake x <= FITS /\ Validator.pending_to_unstake x <= FITS /\
Validator.pending_to_withdraw x <= FITS /\ Validator.pending_to_claim x <= FITS) (validators c)) &&
bool_decide (map_Forall (fun _ l => FarmPool.total_farm_shares l < U128_MAX) (farm_pools c)) &&
bool_decide (map_Forall (fun _ n => n < U32_MAX) (user_lock_count c)) &&
(map_sum (fun _ n => n) (user_lock_count c) =? Z.of_nat (size (locks c))).

Lemma fits_b_ok c : fits_b c = true -> fits c.
Proof.
unfold fits_b. intros H. apply andb_prop in H as [H H4]. apply andb_prop in H as [H H3]. apply andb_prop in H as [H1 H2].
apply bool_decide_eq_true in H1, H2, H3. apply Z.eqb_eq in H4. split; [exact H1 | exact H2 | | done].
intros a. unfold count. destruct (user_lock_count c !! a) eqn:E; [by apply (H3 _ _ E) | done].
Qed.

Definition pool_answers_b (call : PoolCall) (a : Answer) : bool :=
match call, a with
| _, Failure => true
| GetOwnerId, AId _ => true
| DepositAndStake, Done | Unstake _, Done | Withdraw _, Done => true
| GetAccount _, AAccount view =>
(0 <=? PoolAccountView.unstaked_balance view) && (PoolAccountView.unstaked_balance view <=? U128_MAX) &&
(0 <=? PoolAccountView.staked_balance view) && (PoolAccountView.staked_balance view <=? U128_MAX)
| _, _ => false
end.
Lemma pool_answers_b_ok call a : pool_answers_b call a = true -> pool_answers call a.
Proof. destruct call, a; cbn; try done. intros H. bool_prop. lia. Qed.

Definition env_b (e : Env) : bool :=
(0 <=? block_timestamp e) && (block_timestamp e <=? U64_MAX) && (0 <=? block_height e) && (block_height e <=? U64_MAX) &&
(0 <=? attached_deposit e) && (attached_deposit e <=? U128_MAX) && (0 <=? account_balance e) && (account_balance e <=? U128_MAX).
Lemma env_b_ok e : env_b e = true -> env_ok e.
Proof. unfold env_b, env_ok. intros H. bool_prop. lia. Qed.

(** The block of height [h] is produced at second [h] of 2025, with an epoch
every half day. *)
Definition env_of (who : AccountId) (balance dep h : Z) (rs : list PromiseResult) : Env :=
mkEnv who "stake.near" who dep ((1735689600 + h) * 10 ^ 9) h balance (10 ^ 19) (3 * 10 ^ 14) rs (h / 43200 + 1) (3 * 10 ^ 14).

Inductive Move : Type :=
| Calls (who : AccountId) (dep h : Z) (x : Call)
| Advances (i : nat) (h : Z) (a : Answer).

Definition move (m : Move) (w : World) : option World :=
match m with
| Calls who dep h x =>
let e := env_of who (balance w + dep) dep h [] in
if env_b e && negb (String.eqb who "stake.near") then
match exec x e (contract w) with
| Ok (p, c', es) => Some (mkWorld c' (balance w + dep - spent p es) (chains w ++ started (p :: detached es)))
| Panic _ => None
end
else None
| Advances i h a =>
match chains w !! i with
| Some (mkChain (CallPool pool call dep gas :: rest) r) =>
if pool_answers_b call a
then Some (mkWorld (contract w) (balance w + received (CallPool pool call dep gas) a) (<[i := mkChain rest (Some a)]> (chains w)))
else None
| Some (mkChain (TransferTo receiver amount :: rest) r) =>
Some (mkWorld (contract w) (balance w + received (TransferTo receiver amount) Done) (<[i := mkChain rest (Some Done)]> (chains w)))
| Some (mkChain (CallSelf call gas :: rest) r) =>
let e := env_of "stake.near" (balance w) 0 h (results_of r) in
if env_b e then
match run_self_call call r e (contract w) with
| Ok (Value a, c', es) =>
    Some (mkWorld c' (balance w - spent [] es) (<[i := mkChain rest (Some a)]> (chains w) ++ started (detached es)))
| Ok (Returned p, c', es) =>
    Some (mkWorld c' (balance w - spent p es) (<[i := mkChain (p ++ rest) None]> (chains w) ++ started (detached es)))
| Panic _ => None
end
else None
| _ => None
end
end.

Definition move_epoch (m : Move) : Z := match m with Calls _ _ h _ | Advances _ h _ => h / 43200 + 1 end.

Lemma move_step_at m w w' : move m w = Some w' -> exists o, step_at o w w' /\ forall e, o = Some e -> epoch_height e = move_epoch m.
Proof.
destruct m as [who dep h x | i h a]; cbn [move].
- destruct (_ && _) eqn:E; [|done]. apply andb_prop in E as [He Hw]. destruct (exec _ _ _) as [[[p c'] es]|] eqn:Ex; [|done]. intros [= <-].
eexists. split; [eapply (step_call w (env_of who (balance w + dep) dep h []) x p c' es); [by apply env_b_ok | done | done | | exact Ex]; cbn; by intros ->|].
by intros e [= <-].
- destruct (chains w !! i) as [[[|[pool call dep gas|call gas|receiver amount] rest] r]|] eqn:Hi; try done.
+ destruct (pool_answers_b call a) eqn:Ha; [|done]. intros [= <-]. exists None. split; [|done]. eapply step_pool; [exact Hi | by apply pool_answers_b_ok].
+ destruct (env_b _) eqn:He; [|done]. destruct (run_self_call _ _ _ _) as [[[[ans|p] c'] es]|] eqn:Ex; [| |done]; intros [= <-]; eexists.
* split; [by eapply (step_self_value w i call gas rest r); [exact Hi | apply env_b_ok, He | | | | | exact Ex]|]. by intros e [= <-].
* split; [by eapply (step_self_promise w i call gas rest r); [exact Hi | apply env_b_ok, He | | | | | exact Ex]|]. by intros e [= <-].
+ intros [= <-]. exists None. split; [|done]. eapply (step_transfer w i receiver amount rest r Done); [exact Hi | by left].
Qed.
Lemma move_step m w w' : move m w = Some w' -> wstep w w'.
Proof. intros (o & H & _)%move_step_at. by exists o. Qed.

(** A script computes its next move from the world. *)
Fixpoint play (ms : list (World -> Move)) (w : World) : option World :=
match ms with
| [] => Some w
| m :: ms' => match move (m w) w with
    | Some w' => if fits_b (contract w') then play ms' w' else None
    | None => None
    end
end.

Lemma moves_reachable ms w w' : reachable w -> play ms w = Some w' -> reachable w'.
Proof.
revert w. induction ms as [|m ms IH]; intros w Hr H; cbn in H; [by injection H as <-|].
destruct (move (m w) w) as [w1|] eqn:E; [|done]. destruct (fits_b _) eqn:Hf; [|done].
eapply IH; [|exact H]. eapply reach_step; [exact Hr | by eapply move_step | by apply fits_b_ok].
Qed.

(** The epochs of a script do not go back. *)
Fixpoint clocked (n : Z) (ms : list (World -> Move)) (w : World) : bool :=
match ms with
| [] => true
| m :: ms' => (n <=? move_epoch (m w)) &&
match move (m w) w with Some w' => clocked (move_epoch (m w)) ms' w' | None => false end
end.
Lemma moves_timeline n ms w w' : timeline n w -> clocked n ms w = true -> play ms w = Some w' -> exists k, timeline k w'.
Proof.
revert n w. induction ms as [|m ms IH]; intros n w Ht Hc H; cbn in Hc, H; [injection H as <-; eauto|].
apply andb_prop in Hc as [Hn Hc]. apply Z.leb_le in Hn. destruct (move (m w) w) as [w1|] eqn:E; [|done]. destruct (fits_b _) eqn:Hf; [|done].
apply move_step_at in E as (o & Hs & Ho). eapply IH; [|exact Hc | exact H]. eapply time_step; [exact Ht | exact Hn | exact Ho | exact Hs | by apply fits_b_ok].
Qed.

(** ** The run *)
Definition N : Z := 10 ^ 24.
Definition cfg : Config.t := Config.mk "owner.near" None [] 0 (10 ^ 18) 4 (N / 10) (N / 100) (N / 100) (N / 100) N.
Definition c0 : Contract := mkContract cfg false ∅ [] [] ∅ ∅ ∅ [] ∅ ∅ [] ∅ ∅ ∅ ∅ ∅ ∅ [] ∅ ∅ ∅ ∅ ∅ ∅ ∅ ∅ ∅ ∅ ∅ ∅ [] ∅ ∅ 0.
Definition w0 : World := mkWorld c0 (5 * N) [].
Lemma stage0_reachable : reachable w0.
Proof. by apply (reach_new cfg c0 (5 * N)). Qed.

(** The first chain in flight takes a step. *)
Fixpoint first_busy (i : nat) (l : list Chain) : nat :=
match l with [] => i | x :: l' => match steps x with [] => first_busy (S i) l' | _ => i end end.
Definition go (h : Z) (a : Answer) : World -> Move := fun w => Advances (first_busy 0 (chains w)) h a.
Definition call (who : AccountId) (dep h : Z) (x : Call) : World -> Move := fun _ => Calls who dep h x.

Definition product (w : World) : ProductId := default "" (head (product_ids (contract w))).
Definition price (n : nat) (w : World) : PriceId :=
match products (contract w) !! product w with Some q => default "" (Product.price_ids q !! n) | None => "" end.
Definition the_lock (w : World) : LockId := default "" (head (lock_ids (contract w))).
Definition account (u s : Z) (b : bool) : Answer := AAccount (PoolAccountView.mk u s b).

(** Two sales: a lock of 10 NEAR for a day, and 5 NEAR in the farm. *)
Definition sales : list (World -> Move) :=
[ call "owner.near" 1 10 (CAddValidator "pool.near");
call "po.near" 1 20 (CCreateProduct "pool.near" "p" "d"); go 21 (AId "po.near"); go 22 Done;
(fun w => Calls "po.near" 1 30 (CCreatePrice (product w) "one" "" 1 PriceType.OneOff None 0 None)); go 31 (AId "po.near"); go 32 Done;
(fun w => Calls "po.near" 1 40 (CCreatePrice (product w) "farm" "" N PriceType.Farm None 0 (Some (PriceMetadata.mk None (Some 1000)))));
go 41 (AId "po.near"); go 42 Done;
call "alice.near" N 50 (CStorageDeposit None None);
(fun w => Calls "alice.near" (10 * N) 60 (CLock (Some (price 0 w)) None (Some (86400 * 10 ^ 9)))); go 61 (account 0 0 false); go 62 Done; go 63 Done; go 64 Done;
(fun w => Calls "alice.near" (5 * N) 70 (CStake (product w) None)); go 71 Done; go 72 Done ].

(** The lock has ended: the unlock stakes what is pending first. *)
Definition unlocks : list (World -> Move) :=
[ (fun w => Calls "alice.near" 1 90000 (CUnlock (the_lock w))); go 90001 (account 0 0 false); go 90002 Done; go 90003 Done; go 90004 Done;
go 90005 Done ].

(** The exit, its unstaking in a later epoch, and the withdrawal from the pool
when it has released the NEAR. *)
Definition settles : list (World -> Move) :=
[ go 90006 Done; go 90007 Done;
call "bob.near" 0 140000 (CEpochSettle "pool.near"); go 140001 (account 0 (15 * N) false); go 140002 Done; go 140003 Done; go 140004 Done;
go 140005 Done; go 140006 Done;
call "bob.near" 0 350000 (CEpochSettle "pool.near"); go 350001 (account (10 * N) (5 * N) true); go 350002 Done; go 350003 Done; go 350004 Done;
go 350005 Done; go 350006 Done ].

Definition the_subscription (w : World) : SubscriptionId := default "" (head (subscription_ids (contract w))).

(** ** A subscription with a scheduled change

10 NEAR on the first of two monthly prices; in the first month the owner
asks for 6 NEAR on the second, cheaper one, for the next month. *)
Definition subscribes : list (World -> Move) :=
[ call "owner.near" 1 10 (CAddValidator "pool.near");
call "po.near" 1 20 (CCreateProduct "pool.near" "p" "d"); go 21 (AId "po.near"); go 22 Done;
(fun w => Calls "po.near" 1 30 (CCreatePrice (product w) "gold" "" (2 * N) PriceType.Recurring (Some BillingPeriod.Monthly) 0 None));
go 31 (AId "po.near"); go 32 Done;
(fun w => Calls "po.near" 1 40 (CCreatePrice (product w) "silver" "" N PriceType.Recurring (Some BillingPeriod.Monthly) 0 None));
go 41 (AId "po.near"); go 42 Done;
call "alice.near" N 50 (CStorageDeposit None None);
(fun w => Calls "alice.near" (10 * N) 60 (CLock (Some (price 0 w)) None None)); go 61 (account 0 0 false); go 62 Done; go 63 Done; go 64 Done;
(fun w => Calls "alice.near" 1 100 (CUpdateSubscription (the_subscription w) (price 1 w) (6 * N))); go 101 Done; go 102 Done;
call "bob.near" 0 2700000 (CEpochSettle "pool.near"); go 2700001 (account 0 0 false); go 2700002 Done; go 2700003 Done; go 2700004 Done;
go 2700005 Done; go 2700006 Done ].

Definition w1 : World := default w0 (play sales w0).
Definition w2 : World := default w0 (play unlocks w1).
Definition w3 : World := default w0 (play settles w2).

Lemma played ms w : reachable w -> bool_decide (is_Some (play ms w)) = true -> reachable (default w0 (play ms w)).
Proof. intros Hr [w' H]%bool_decide_eq_true. rewrite H. by eapply moves_reachable. Qed.
Lemma stage1_reachable : reachable w1.
Proof. apply played; [exact stage0_reachable | vm_compute; reflexivity]. Qed.
Lemma stage2_reachable : reachable w2.
Proof. apply played; [exact stage1_reachable | vm_compute; reflexivity]. Qed.
Lemma stage3_reachable : reachable w3.
Proof. apply played; [exact stage2_reachable | vm_compute; reflexivity]. Qed.

Definition w_sub : World := default w0 (play subscribes w0).
Lemma w_sub_reachable : reachable w_sub.
Proof. apply played; [exact stage0_reachable | vm_compute; reflexivity]. Qed.

(** The same worlds over time; in [w_mid] the stake of the 15 NEAR is under way. *)
Definition w_mid : World := default w0 (play (take 3 unlocks) w1).
Lemma timed ms : bool_decide (is_Some (play ms w0)) = true -> clocked 0 ms w0 = true -> exists k, timeline k (default w0 (play ms w0)).
Proof.
intros [w' H]%bool_decide_eq_true Hc. rewrite H. eapply (moves_timeline 0 ms w0); [by apply (time_new cfg c0 (5 * N)) | exact Hc | exact H].
Qed.
Lemma moves_app ms1 ms2 w : play (ms1 ++ ms2) w = match play ms1 w with Some w' => play ms2 w' | None => None end.
Proof. revert w. induction ms1 as [|m ms1 IH]; intros w; [done|]. cbn. destruct (move (m w) w); [|done]. by destruct (fits_b _). Qed.
Lemma w3_timeline : exists k, timeline k w3.
Proof.
replace w3 with (default w0 (play (sales ++ unlocks ++ settles) w0)); [apply timed; vm_compute; reflexivity|].
rewrite !moves_app. unfold w3, w2, w1. vm_compute. reflexivity.
Qed.
Lemma w_mid_timeline : exists k, timeline k w_mid.
Proof.
replace w_mid with (default w0 (play (sales ++ take 3 unlocks) w0)); [apply timed; vm_compute; reflexivity|].
rewrite !moves_app. unfold w_mid, w1. vm_compute. reflexivity.
Qed.

(** ** The theorems on this run *)
Definition pool (w : World) : Validator.t :=
default (Validator.mk "" [] ValidatorStatus.Active 0 0 0 0 0 0 0 0 0 TransactionStatus.Idle) (validators (contract w) !! "pool.near"%string).
Definition lock_at (w : World) : Lock.t :=
default (Lock.mk "" "" "" 0 0 0 0 (ProductPurchase "" "") LockStatus.Withdrawn) (locks (contract w) !! the_lock w).
Definition self_env (w : World) (h : Z) : Env := env_of "stake.near" (balance w) 0 h [].

Lemma w1_pool : validators (contract w1) !! "pool.near"%string = Some (pool w1).
Proof. vm_compute. reflexivity. Qed.
Lemma w2_pool : validators (contract w2) !! "pool.near"%string = Some (pool w2).
Proof. vm_compute. reflexivity. Qed.
Lemma w3_pool : validators (contract w3) !! "pool.near"%string = Some (pool w3).
Proof. vm_compute. reflexivity. Qed.

Lemma w1_total : Validator.total_shares (pool w1) = 15 * N.
Proof. vm_compute. reflexivity. Qed.
Lemma w2_status : Validator.tx_status (pool w2) = TransactionStatus.Busy.
Proof. vm_compute. reflexivity. Qed.
Lemma w3_promised : promised (user_pending_unstake (contract w3)) "pool.near" = 10 * N.
Proof. vm_compute. reflexivity. Qed.
Lemma w3_due : tranches_total (due (epoch_height (self_env w3 350010))
(default [] (user_pending_unstake (contract w3) !! ("alice.near", "pool.near")%string))) = 10 * N.
Proof. vm_compute. reflexivity. Qed.
Lemma w1_accrues : match settle_farm_position "alice.near" (product w1) (self_env w1 100000) (contract w1) with
| Ok (x, _, _) => 0 <? x | Panic _ => false end = true.
Proof. vm_compute. reflexivity. Qed.
Lemma w3_ready : ready_total (contract w3) = 10 * N.
Proof. vm_compute. reflexivity. Qed.
Definition mid : nat := first_busy 0 (chains w_mid).
Definition mid_rest : list PStep := match chains w_mid !! mid with Some x => tail (steps x) | None => [] end.
Definition mid_gas : Z := match chains w_mid !! mid with Some (mkChain (CallPool _ _ _ g :: _) _) => g | _ => 0 end.
Lemma w_mid_stake : chains w_mid !! mid = Some (mkChain (CallPool "pool.near" DepositAndStake (15 * N) mid_gas :: mid_rest) None).
Proof. vm_compute. reflexivity. Qed.
Lemma w3_claim : match claim_from_withdraw_bucket "alice.near" "pool.near" (self_env w3 350010) (contract w3) with Ok (n, _, _) => n =? 10 * N | Panic _ => false end = true.
Proof. vm_compute. reflexivity. Qed.
Definition sub_at (w : World) : Subscription.t := default (Subscription.mk "" "" "" "" 0 0 0 "" SubscriptionStatus.Expired false None)
(subscriptions (contract w) !! the_subscription w).
Lemma w_sub_linked : linked (contract w_sub) (the_subscription w_sub) (sub_at w_sub) (lock_at w_sub).
Proof. unfold linked. split_and!; try (vm_compute; reflexivity). eexists _, _, _. vm_compute. reflexivity. Qed.
Definition renewal_env : Env := self_env w_sub 2700010.
Lemma w_sub_due : match apply_due_subscription_update (the_subscription w_sub) renewal_env (contract w_sub) with
| Ok (b, c', _) => b && bool_decide ((Lock.amount_near <$> locks c' !! Subscription.last_lock_id (sub_at w_sub)) = Some (6 * N))
| Panic _ => false end = true.
Proof. vm_compute. reflexivity. Qed.
#[local] Opaque w1 w2 w3 w_mid w_sub mid mid_rest mid_gas pool product price the_lock.

(** The pool has the 15 NEAR as shares, 10 in the lock and 5 in the farm. *)
Lemma shares_exact_witness : Validator.total_shares (pool w1) = shares_of (user_validator_shares (contract w1)) "pool.near" /\
Validator.total_shares (pool w1) = 15 * N.
Proof. split; [exact (proj1 (shares_exact w1 stage1_reachable) _ _ w1_pool) | exact w1_total]. Defined.

Lemma exits_are_covered_witness : promised (user_pending_unstake (contract w3)) "pool.near" = 10 * N /\
promised (user_pending_unstake (contract w3)) "pool.near" <=
Validator.pending_to_unstake (pool w3) + Validator.pending_to_withdraw (pool w3) + Validator.pending_to_claim (pool w3).
Proof. split; [exact w3_promised | exact (proj1 (exits_are_covered w3 "pool.near" (pool w3) stage3_reachable w3_pool))]. Defined.

Lemma catalog_in_order_witness : exists p, prices (contract w1) !! price 1 w1 = Some p /\ Price.price_id p = price 1 w1.
Proof.
assert (bool_decide (is_Some (prices (contract w1) !! price 1 w1)) = true) as [p Hp]%bool_decide_eq_true by (vm_compute; reflexivity).
exists p. split; [exact Hp | apply (proj1 (catalog_in_order w1 stage1_reachable) _ _ Hp)].
Defined.

Lemma pipeline_exclusive_witness : in_flight "pool.near" (chains w2) = 1.
Proof. rewrite (proj1 (pipeline_exclusive w2 stage2_reachable)), w2_pool, w2_status. reflexivity. Defined.

Lemma chains_end_witness : exists x, chains w2 !! 7%nat = Some x /\ steps x <> [] /\ weight (steps x) <= 14.
Proof.
eexists. assert (chains w2 !! 7%nat = Some (default (mkChain [] None) (chains w2 !! 7%nat))) as Hx by (vm_compute; reflexivity).
split; [exact Hx|]. split; [vm_compute; discriminate | exact (proj1 (chains_end w2 7 _ stage2_reachable Hx))].
Defined.

Lemma unlock_goes_through_witness : exists c' es,
resolve_unlock (the_lock w2) "alice.near" "pool.near" (10 * N) (self_env w2 90006) (contract w2) = Ok (tt, c', es) /\
locks c' !! the_lock w2 = Some (lock_at w2 <| Lock.status := LockStatus.UnlockRequested |>).
Proof.
destruct (unlock_goes_through w2 (self_env w2 90006) (the_lock w2) (lock_at w2) (pool w2) stage2_reachable) as [[_ Hok] Hx];
try (vm_compute; reflexivity).
- split; vm_compute; [discriminate | reflexivity].
- destruct Hok as (c' & es & H); [split; vm_compute; reflexivity|]. destruct (Hx c' es H) as (_ & Hl & _).
exists c', es. split; [etransitivity; [|exact H]; vm_compute; reflexivity | exact Hl].
Defined.

Lemma withdraw_pays_what_is_due_witness : exists c' es,
on_withdraw_user_transfer_after_settle "alice.near" "pool.near" (self_env w3 350010) (contract w3) = Ok ([TransferTo "alice.near" (10 * N)], c', es).
Proof.
destruct (withdraw_pays_what_is_due w3 (self_env w3 350010) "alice.near" "pool.near" (pool w3) stage3_reachable eq_refl w3_pool) as [[_ H] Hp].
destruct H as (p & c' & es & H); [rewrite w3_due; repeat split; vm_compute; (discriminate || reflexivity)|].
exists c', es. destruct (Hp _ _ _ H) as [E _]. rewrite H, E, w3_due. reflexivity.
Defined.

Lemma pending_view_agrees_witness : exists view,
get_account_pending_unstake (self_env w3 350010) (contract w3) "alice.near" "pool.near" = Ok view /\
AccountPendingUnstakeView.can_withdraw_now view = true /\
AccountPendingUnstakeView.epoch_eligible_yocto view =
tranches_total (due (epoch_height (self_env w3 350010)) (default [] (user_pending_unstake (contract w3) !! ("alice.near", "pool.near")%string))).
Proof.
assert (is_ok (get_account_pending_unstake (self_env w3 350010) (contract w3) "alice.near" "pool.near") = true) as Hok by (vm_compute; reflexivity).
destruct (get_account_pending_unstake _ _ _ _) as [view|] eqn:E; [|discriminate Hok]. exists view. split; [reflexivity|].
split; [|apply (pending_view_agrees w3 (self_env w3 350010) "alice.near" "pool.near" view stage3_reachable E)].
revert E. vm_compute. intros [= <-]. reflexivity.
Defined.

Lemma share_price_never_falls_witness : exists x', validators (Instances.after (internal_unstake "alice.near" "pool.near" N) (self_env w2 90006) (contract w2)) !! "pool.near"%string = Some x' /\
Validator.net_stake_yocto (pool w2) * Validator.total_shares x' <= Validator.net_stake_yocto x' * Validator.total_shares (pool w2).
Proof.
destruct (share_price_never_falls (contract w2) (self_env w2 90006) "pool.near" (pool w2) w2_pool) as [_ H].
- repeat split; vm_compute; discriminate.
- vm_compute. reflexivity.
- destruct (Instances.ran (internal_unstake "alice.near" "pool.near" N) (self_env w2 90006) (contract w2)) as [near Hr]; [vm_compute; reflexivity|].
destruct (H _ _ _ _ _ Hr) as (x' & Hx & Hp & _). exists x'. split; [exact Hx | exact Hp].
Defined.

(** The 31st of January, and two months with anchor 31: the last of March. *)
Lemma months_keep_the_anchor_witness :
civil_from_days (add_months_stripe_style 31 1 (20119 * NS_PER_DAY) / NS_PER_DAY) = (2025, 2, 28).
Proof.
destruct (months_keep_the_anchor 31 1 (20119 * NS_PER_DAY) 2025 1 31) as [E _]; [lia | vm_compute; reflexivity | vm_compute; reflexivity|].
exact E.
Defined.

Lemma billing_window_found_witness : exists j, 0 <= j /\
projected_subscription_window_from 31 (20119 * NS_PER_DAY) (20200 * NS_PER_DAY) =
Ok (add_months_stripe_style 31 j (20119 * NS_PER_DAY), add_months_stripe_style 31 (j + 1) (20119 * NS_PER_DAY)).
Proof.
destruct (billing_window_found 31 (20119 * NS_PER_DAY) (20200 * NS_PER_DAY)) as (j & Hj & E & _); [vm_compute; split; discriminate | vm_compute; reflexivity|].
exists j. split; [exact Hj | exact E].
Defined.

Lemma farm_preview_is_settlement_witness : exists pending c' es p,
settle_farm_position "alice.near" (product w1) (self_env w1 100000) (contract w1) = Ok (pending, c', es) /\ 0 < pending /\
farm_positions (contract w1) !! ("alice.near"%string, product w1) = Some p /\
is_ok (preview_farm_position_pending (self_env w1 100000) (contract w1) p) = true.
Proof.
destruct (Instances.ran (settle_farm_position "alice.near" (product w1)) (self_env w1 100000) (contract w1)) as [pending H]; [vm_compute; reflexivity|].
destruct (farm_preview_is_settlement w1 (self_env w1 100000) "alice.near" (product w1) pending _ _ stage1_reachable H) as (p & p' & Hp & _ & Hv & _).
eexists pending, _, _, p. split; [exact H|]. split; [|split; [exact Hp | rewrite Hv; reflexivity]].
pose proof w1_accrues as Ha. rewrite H in Ha. by apply Z.ltb_lt.
Defined.

(** The 10 NEAR that came back from the pool are on the account. *)
Lemma contract_is_solvent_witness : ready_total (contract w3) = 10 * N /\
ready_total (contract w3) + revenue_total (contract w3) + storage_total (contract w3) + escrow (chains w3) <= balance w3.
Proof. destruct w3_timeline as [k Hk]. split; [exact w3_ready | exact (proj1 (proj2 (contract_is_solvent k w3 Hk)))]. Defined.

Lemma payout_is_funded_witness : exists c' es,
payout_user_withdraw "alice.near" "pool.near" (self_env w3 350010) (contract w3) = Ok ([TransferTo "alice.near" (10 * N)], c', es).
Proof.
destruct w3_timeline as [k Hk]. pose proof w3_claim as Hc.
destruct (claim_from_withdraw_bucket "alice.near" "pool.near" (self_env w3 350010) (contract w3)) as [[[n c'] es]|] eqn:E; [|discriminate Hc].
apply Z.eqb_eq in Hc. subst n. exists c', es. exact (payout_is_funded k w3 (self_env w3 350010) _ _ _ _ _ Hk eq_refl E).
Defined.

Lemma stake_is_booked_witness : exists x, validators (contract w_mid) !! "pool.near"%string = Some x /\
15 * N = Validator.pending_to_stake x - Validator.pending_to_unstake x.
Proof.
destruct w_mid_timeline as [k Hk]. destruct (stake_is_booked k w_mid mid _ _ _ _ _ Hk w_mid_stake) as (x & Hx & _ & Hd & _).
exists x. split; [exact Hx | exact Hd].
Defined.

(** The view of the lock shows the 6 NEAR before the change is applied. *)
Lemma projections_show_the_update_witness : exists l,
get_lock renewal_env (contract w_sub) (Subscription.last_lock_id (sub_at w_sub)) (Some true) = Ok (Some l) /\ Lock.amount_near l = 6 * N.
Proof.
pose proof w_sub_due as Hd.
destruct (apply_due_subscription_update (the_subscription w_sub) renewal_env (contract w_sub)) as [[[b c'] es]|] eqn:E; [|discriminate Hd].
apply andb_prop in Hd as [-> Hd]. apply bool_decide_eq_true in Hd.
destruct (projections_show_the_update w_sub renewal_env _ _ _ c' es w_sub_reachable w_sub_linked E) as [_ H].
destruct (locks c' !! _) as [l|]; [|discriminate Hd]. exists l. split; [exact H|]. cbn in Hd. by injection Hd.
Defined.

Lemma listings_are_pages_witness : get_validators (contract w1) 0 10 = [pool w1].
Proof. rewrite (proj1 (listings_are_pages (contract w1) 0 10 ltac:(lia))). vm_compute. reflexivity. Defined.

Lemma listings_are_complete_witness : pages_of (get_products (contract w1)) (map_to_list (products (contract w1))).*2.
Proof. apply (listings_are_complete w1 stage1_reachable). Defined.

(** ** A test clock of a subscription *)
Definition subscribed : TestClock.State := TestClock.mkState (contract w_sub) ∅.
Definition sub_id : SubscriptionId := default "" (head (map_to_list (subscriptions (contract w_sub))).*1).
Definition owner_env : Env := env_of "alice.near" 0 0 90002 [].
Lemma fast_forward_is_local_witness : exists st' es,
TestClock.test_fast_forward_subscription_to sub_id (10 ^ 19) owner_env subscribed = Ok (tt, st', es) /\
TestClock.subscription_now owner_env (TestClock.raw st') sub_id = 10 ^ 19.
Proof.
assert (is_ok (TestClock.test_fast_forward_subscription_to sub_id (10 ^ 19) owner_env subscribed) = true) as H by (vm_compute; reflexivity).
destruct (TestClock.test_fast_forward_subscription_to sub_id (10 ^ 19) owner_env subscribed) as [[[[] st'] es]|] eqn:E; [|discriminate H].
exists st', es. split; [reflexivity|].
apply (TestClock.fast_forward_is_local owner_env subscribed sub_id (10 ^ 19) st' es); [vm_compute; split; discriminate | exact E].
Defined.

(** ** The mock pool takes the stake under way *)
Definition stake_env : Env := env_of "stake.near" 0 (15 * N) 90002 [].
Lemma mock_pool_is_a_pool_witness : exists c' w', MockPool.serve DepositAndStake stake_env (MockPool.mock_new "po.near") = (c', Done) /\
wstep w_mid w' /\ balance w' + MockPool.holdings c' = balance w_mid + 15 * N.
Proof.
destruct (MockPool.serve DepositAndStake stake_env (MockPool.mock_new "po.near")) as [c' a] eqn:E.
assert (a = Done) as -> by (revert E; vm_compute; intros [= _ <-]; reflexivity).
destruct (MockPool.mock_pool_is_a_pool w_mid mid "pool.near" DepositAndStake mid_gas mid_rest None stake_env (MockPool.mock_new "po.near") c' Done)
as (_ & w' & Hs & _ & _ & Hb); [exact w_mid_stake | split; cbn; intros ? ? H; by rewrite lookup_empty in H | vm_compute; discriminate | left; reflexivity | discriminate | exact E|].
exists c', w'. split; [reflexivity | split; [exact Hs | rewrite Hb; cbn; reflexivity || (unfold MockPool.holdings; cbn; lia)]].
Defined.

Definition armed : MockPool.MockStakingPoolContract := MockPool.mkMock "po.near" {["stake.near"%string := 5]} ∅ false true.
Lemma armed_withdraw_fails_for_ever_witness : MockPool.get_unstaked armed "stake.near" = 5 /\
foldl (fun st '(e, n) => MockPool.serve (Withdraw n) e (fst st)) (armed, Failure) [(stake_env, 1); (stake_env, 1)] = (armed, Failure).
Proof. split; [reflexivity | exact (MockPool.armed_withdraw_fails_for_ever [(stake_env, 1); (stake_env, 1)] armed eq_refl)]. Defined.
End StakingRun.
