(* ===== verification/ExamplesCli.v ===== *)
(** * Examples: the staking CLI

    The commands on small inputs, with a text of JSON of our own; the search
    for a product on the contract of the example run; the unit tests of the
    CLI. *)
From stdpp Require Import base gmap strings list pretty.
From Stdlib Require Import ZArith Lia.
From S2P Require Import Prelude.
From S2P Require Import Near.
From S2P Require Import StakingTypes.
From S2P Require Import StakingContract.
From S2P Require Import StakingCatalog.
From S2P Require Import StakingViews.
From S2P Require Import StakingWorld.
From S2P Require Import CliText.
From S2P Require Import Cli.
From S2P Require Import CliFacts.
From S2P Require Import CliTheorems.
From S2P Require Import ExamplesStaking.

Local Open Scope string_scope.

Module CliRun.
Import Text Json Cli.Cli CliFacts.CliFacts CliTheorems.CliTheorems.

(** ** A text of JSON *)
Fixpoint show (v : Value) : string :=
match v with
| Null => "null"
| Bool b => if b then "true" else "false"
| Number raw => raw
| Str s => "'" +:+ s +:+ "'"
| Array l => "[" +:+ join "," (map show l) +:+ "]"
| Object m => "{" +:+ join "," (map (fun '(k, x) => k +:+ ":" +:+ show x) m) +:+ "}"
end.

(** The two listings of the example are the texts this parser knows. *)
Definition contract1 : Contract := contract StakingRun.w1.
Definition encode (p : Product.t) : Value :=
Object [("product_id", Str (Product.product_id p)); ("validator_id", Str (Product.validator_id p)); ("name", Str (Product.name p));
("status", Str (match Product.status p with CatalogStatus.Active => "Active" | CatalogStatus.Archived => "Archived" end))].
Definition first_page : Value := Array (map encode (get_products contract1 0 PAGE_LIMIT)).
Definition parse (s : string) : option Value :=
if String.eqb s "[]" then Some (Array []) else if String.eqb s "first page" then Some first_page else None.

#[local] Instance crates : Crates := {|
json_text := show; json_pretty := show; json_parse := parse; debug_str s := s; debug_opt o := default "None" o;
debug_value o := match o with Some v => show v | None => "None" end; base64_encode s := s; sha256_hex s := s;
parse_config s := inr "no parser"
|}.



Definition quoted : list string := ["--quiet"; "it's"; "{a: 'b c'}"; "$HOME"; ""].
Example quoted_shown : display quoted = "near --quiet 'it'\''s' '{a: '\''b c'\''}' '$HOME' ".
Proof. reflexivity. Qed.
Lemma plan_reads_back_witness : shell_words (display quoted) Blank = Some ["near"; "--quiet"; "it's"; "{a: 'b c'}"; "$HOME"].
Proof. exact (plan_reads_back quoted). Defined.

(** ** Metadata *)
Definition stored_price : Value := Object [("metadata", metadata (Str "100") (Str "5"))].
Definition edited_price : Value := Object [("metadata", metadata (Str "200") (Str "5"))].
Definition configured : option Value := Some (Object [("max_amount", Str "200")]).
Lemma metadata_sync_converges_witness :
price_metadata_update stored_price configured "price_1" = mret (metadata (Str "200") (Str "5")) /\
metadata_matches edited_price configured = true.
Proof.
split; [reflexivity|].
apply (metadata_sync_converges stored_price edited_price configured "price_1" (metadata (Str "200") (Str "5"))); [reflexivity | | reflexivity].
cbn. split; [repeat constructor; set_solver | done].
Defined.



End CliRun.

(** ** Unit tests

    The tests of staking-contract/cli/src/main.rs, except for two that check
    the defaults of the parser of the bootstrap file. Where a test parses a
    bootstrap file, the parsed value is given; base64 is the identity. *)
Module CliTests.
Import Text Json Cli.Cli CliRun.

#[local] Instance test_crates : Crates := {|
json_text := show; json_pretty := show; json_parse := fun _ => None; debug_str s := s; debug_opt o := default "None" o;
debug_value o := match o with Some v => show v | None => "None" end; base64_encode s := s; sha256_hex s := s;
parse_config s := inr "no parser"
|}.

(** The result of a function that makes no system call. *)
Definition outcome {A} (p : Prog A) : Outcome A := match p with Ret r => r | Do _ _ => Spent end.
Definition is_ok {A} (p : Prog A) : bool := match outcome p with Good _ => true | _ => false end.
(** The outermost message of the error, [to_string()], contains a text. *)
Definition err_contains {A} (part : string) (p : Prog A) : bool :=
match outcome p with Bad (msg :: _) => contains part msg | _ => false end.
Definition chain_contains {A} (part : string) (p : Prog A) : bool :=
match outcome p with Bad chain => existsb (contains part) chain | _ => false end.
Definition gives {A} `{EqDecision A} (p : Prog A) (x : A) : bool := match outcome p with Good y => bool_decide (y = x) | _ => false end.
Definition at_path (v : Value) (path : list string) : Value := foldl (fun v k => default Null (get v k)) v path.

(** ** Initialisation *)
Definition init_config_verification_compares_configured_fields : bool :=
let init := InitConfig.mk ["guardian.testnet"] "10" "100" 7 "11" "12" "13" "14" "15" in
let stored := init_json "owner.testnet" init in
let mismatched := match stored with Object m => Object (map_insert "min_lock_amount" (Str "16") m) | v => v end in
is_ok (verify_init_config_matches stored "owner.testnet" init) &&
err_contains "min_lock_amount" (verify_init_config_matches mismatched "owner.testnet" init).

(** ** Metadata of prices *)
Definition metadata_matching_uses_canonical_optional_fields : bool :=
let expected := Object [("max_amount", Str "100"); ("farm_reward_rate", Null)] in
metadata_matches (Object []) None &&
metadata_matches (Object [("metadata", Null)]) None &&
metadata_matches (Object [("metadata", expected)]) (Some (Object [("max_amount", Str "100")])) &&
metadata_matches (Object [("metadata", expected)]) (Some expected) &&
negb (metadata_matches (Object [("metadata", Object [("max_amount", Str "101"); ("farm_reward_rate", Null)])]) (Some expected)) &&
negb (metadata_matches (Object [("metadata", expected)]) None).

Definition metadata_validation_rejects_unknown_fields : bool :=
let price := PriceConfig.mk None "Price" "" "1" default_price_type None "0" (Some (Object [("max_amunt", Str "100")])) false in
let product := ProductConfig.mk None "pool.testnet" None None "Product" "" [price] in
let config := BootstrapConfig.mk StakingConfig.default InitConfig.default [] [product] VerifyConfig.default in
err_contains "invalid metadata" (validate_config config) && chain_contains "unsupported price metadata field" (validate_config config).

Definition farm_metadata_update_preserves_existing_reward_rate_when_omitted : bool :=
let stored := Object [("metadata", Object [("max_amount", Str "100"); ("farm_reward_rate", Str "5")])] in
match outcome (price_metadata_update stored (Some (Object [("max_amount", Str "200")])) "price_1") with
| Good update => value_eqb update (Object [("max_amount", Str "200"); ("farm_reward_rate", Str "5")])
| _ => false
end && metadata_matches stored (Some (Object [("max_amount", Str "100")])).

Definition metadata_clear_is_rejected_for_existing_metadata : bool :=
let stored := Object [("metadata", Object [("max_amount", Str "100"); ("farm_reward_rate", Null)])] in
err_contains "cannot clear metadata" (price_metadata_update stored None "price_1").

(** ** Products and prices *)
Definition product_and_price_verification_require_active_status : bool :=
let product := ProductConfig.mk None "pool.testnet" None None "Product" "Description" [] in
let archived_product := Object [("validator_id", Str "pool.testnet"); ("name", Str "Product"); ("description", Str "Description");
("status", Str "Archived")] in
let price := PriceConfig.mk None "Price" "Description" "1" "OneOff" None "0" None false in
let archived_price := Object [("product_id", Str "prod_1"); ("name", Str "Price"); ("description", Str "Description"); ("amount", Str "1");
("price_type", Str "OneOff"); ("billing_period", Null); ("lock_factor_near_months", Str "0"); ("metadata", Null); ("status", Str "Archived")] in
err_contains "status" (verify_product_matches archived_product "prod_1" product) &&
err_contains "status" (verify_price_matches archived_price "price_1" "prod_1" price).

Definition missing_contract_detection_recognizes_code_does_not_exist : bool :=
is_missing_contract_view_error
["near view failed for get_owner_id: CompilationError(CodeDoesNotExist { account_id: 'pool.testnet' })"].

(** ** Signers *)
Definition ctx_with (arg : option string) : MutContext :=
mkContext (CommonArgs.mk (ReadOnlyCommonArgs.mk Testnet None None arg) false false) "config-signer.testnet".
Definition product_with (owner manager : option string) : ProductConfig.t := ProductConfig.mk None "pool.testnet" owner manager "Product" "" [].

Definition explicit_catalog_signer_takes_precedence : bool :=
String.eqb (catalog_signer (ctx_with (Some "manager.testnet")) (product_with (Some "pool-owner.testnet") None) ∅) "manager.testnet".
Definition product_catalog_manager_signer_precedes_owner_field : bool :=
String.eqb (catalog_signer (ctx_with None) (product_with (Some "pool-owner.testnet") (Some "catalog-manager.testnet")) ∅) "catalog-manager.testnet".
Definition validator_catalog_manager_is_default_catalog_signer : bool :=
String.eqb (catalog_signer (ctx_with None) (product_with None None) {["pool.testnet" := "catalog-manager.testnet"]}) "catalog-manager.testnet".
Definition validator_manager_view_detection_uses_catalog_manager_list : bool :=
let validator := Object [("catalog_manager_account_ids", Array [Str "one.testnet"; Str "two.testnet"])] in
validator_has_catalog_manager validator "two.testnet" && negb (validator_has_catalog_manager validator "three.testnet").

(** ** The DAO proposal *)
Definition dao_catalog_manager_proposal_uses_sputnik_function_call_shape : bool :=
let proposal := catalog_manager_dao_proposal_args "Grant catalog manager" "stake.dao" "nearai.pool.near" "ironbuild.near" "100000000000000" "1" in
let function_call := at_path proposal ["proposal"; "kind"; "FunctionCall"] in
let action := match at_path function_call ["actions"] with Array (a :: _) => a | _ => Null end in
value_eqb (at_path function_call ["receiver_id"]) (Str "stake.dao") &&
value_eqb (at_path action ["method_name"]) (Str "add_validator_catalog_manager") &&
value_eqb (at_path action ["deposit"]) (Str "1") && value_eqb (at_path action ["gas"]) (Str "100000000000000") &&
value_eqb (at_path action ["args"])
(Str (show (Object [("validator_id", Str "nearai.pool.near"); ("catalog_manager_account_id", Str "ironbuild.near")]))).

Definition dao_policy_proposal_bond_is_read_as_yocto_string : bool :=
bool_decide (policy_proposal_bond_yocto (Object [("proposal_bond", Str "100000000000000000000000")]) = Some "100000000000000000000000") &&
gives (validate_proposal_bond_override "100000000000000000000000" None) "100000000000000000000000".
Definition dao_policy_proposal_bond_override_must_match_live_policy : bool :=
is_ok (validate_proposal_bond_override "100000000000000000000000" (Some "100000000000000000000000")) &&
err_contains "does not match" (validate_proposal_bond_override "100000000000000000000000" (Some "1000000000000000000000000")).

Definition validators_only (l : list ValidatorConfig.t) : BootstrapConfig.t :=
BootstrapConfig.mk StakingConfig.default InitConfig.default l [] VerifyConfig.default.

Definition dao_catalog_manager_defaults_resolve_from_unambiguous_config : bool :=
let config := validators_only [ValidatorConfig.mk "nearai.pool.near" (Some "jasnah-treasury.sputnik-dao.near") ["ironbuild.near"] false] in
gives (resolve_validator_id None config) "nearai.pool.near" &&
gives (resolve_catalog_manager_dao None config "nearai.pool.near") "jasnah-treasury.sputnik-dao.near" &&
gives (resolve_catalog_manager_account None config "nearai.pool.near") "ironbuild.near".
Definition dao_catalog_manager_defaults_scope_manager_to_selected_validator : bool :=
let config := validators_only [ValidatorConfig.mk "pool-a.near" (Some "dao-a.sputnik-dao.near") ["manager-a.near"] false;
ValidatorConfig.mk "pool-b.near" (Some "dao-b.sputnik-dao.near") ["manager-b.near"] false] in
gives (resolve_catalog_manager_account None config "pool-a.near") "manager-a.near".
Definition dao_catalog_manager_defaults_reject_ambiguous_values : bool :=
let config := validators_only [ValidatorConfig.mk "pool-a.near" (Some "dao-a.sputnik-dao.near") ["manager-a.near"; "manager-b.near"] false] in
err_contains "multiple catalog managers" (resolve_catalog_manager_account None config "pool-a.near").
Definition dao_catalog_manager_defaults_reject_ambiguous_validators : bool :=
let config := validators_only [ValidatorConfig.mk "pool-a.near" None [] false; ValidatorConfig.mk "pool-b.near" None [] false] in
err_contains "multiple validators" (resolve_validator_id None config).

Definition suite : list bool := [
init_config_verification_compares_configured_fields; metadata_matching_uses_canonical_optional_fields;
metadata_validation_rejects_unknown_fields; farm_metadata_update_preserves_existing_reward_rate_when_omitted;
metadata_clear_is_rejected_for_existing_metadata; product_and_price_verification_require_active_status;
missing_contract_detection_recognizes_code_does_not_exist; explicit_catalog_signer_takes_precedence;
product_catalog_manager_signer_precedes_owner_field; validator_catalog_manager_is_default_catalog_signer;
validator_manager_view_detection_uses_catalog_manager_list; dao_catalog_manager_proposal_uses_sputnik_function_call_shape;
dao_policy_proposal_bond_is_read_as_yocto_string; dao_policy_proposal_bond_override_must_match_live_policy;
dao_catalog_manager_defaults_resolve_from_unambiguous_config; dao_catalog_manager_defaults_scope_manager_to_selected_validator;
dao_catalog_manager_defaults_reject_ambiguous_values; dao_catalog_manager_defaults_reject_ambiguous_validators
].

(** Every test passes. *)
Theorem cli_tests_pass : forallb (fun t => t) suite = true.
Proof. vm_compute. reflexivity. Qed.
End CliTests.
